(* ===== verification/_CoqProject ===== *)
-Q . S2P
Prelude.v
Errors.v
FrameAllocator.v
Addr.v
Sv39.v
PageMeta.v
PageTable.v
PageMap.v
PageFork.v
Vfs.v
Vsfs.v
VsfsIO.v
VsfsDir.v
VsfsCreate.v
MemMgr.v
MemFault.v
Kmalloc.v
UserMem.v
UserView.v
ForkView.v
CowProg.v
KernelMap.v
TaskSpace.v
Elf.v
ElfLoad.v
InitStack.v
InOrder.v
Registers.v
ArchMem.v
Ksync.v
Mount.v
FileTable.v
TaskPool.v
Sched.v
TaskNew.v
Spawn.v
TaskFork.v
Syscall.v
SyscallIO.v
SyscallErr.v
SchedInv.v
SchedSteps.v
SchedSafe.v
Console.v
Trap.v
TrapSpec.v
TrapSafe.v
Asm.v
AsmTrap.v
ArchHart.v
Log.v
HartBoot.v
UserRegs.v
EarlyBoot.v
Boot.v
BootMem.v
GdbWalk.v
UserLib.v
Shell.v
Virtio.v
VsfsTool.v
VsfsToolAlloc.v
VsfsToolImg.v
VsfsToolOpen.v
VsfsToolReady.v
VsfsToolParse.v
