(* ===== verification/Prelude.v ===== *)
(** * efiks-os: a verification development

    efiks-os is a small RISC-V kernel in Rust with its file system, its tools and
    its first user programs.  This library models it as functions on explicit
    state and proves what its parts promise to each other.  Paths below are under
    [src/].


    ** The program and how its parts interact

    The firmware starts a hart at [_start] ([kernel/src/start.s]).  [bootentry]
    goes from physical to virtual addresses, and [kmain] sets up memory
    ([early_init]), the virtio disk, the root file system, an idle and a reaper
    task for each core and the shell, asks the firmware for the other harts, and
    goes to [core_boot_entry], which readies the hart and schedules.  From then
    on everything is a trap: [trap_entry] saves the registers of the interrupted
    code, [trap_handler] serves a system call, a page fault, the timer or the
    UART, may switch to another task with [swtch], and [trap_resume] loads the
    registers of the task that goes on.  System calls work on address spaces
    (page tables, reference counts, regions), on open files (VFS, VSFS, the block
    driver) and on tasks (pool, run queues, sleeping and waiting tasks).


    ** Conventions

    A [usize], [u32] and so on is a [Z] with its width written out: [add_ov],
    [sub_ov] and [mul_ov] panic on overflow as the debug profile of the README
    does, [wrap64] wraps.  A function that returns [Result], panics or loops has
    an [outcome]; one with effects is a [M S E A], which keeps the state on every
    exit.  A global behind a spin lock is a part of the state: an operation that
    takes the lock runs to its end.  Traits are classes, with their contracts as a
    second class ([BlockDevice] and [BlockDeviceOk], [VNode] and [VNodeOk],
    [MemoryModel] and [MemoryModelOk], [Slab], [Mmu], [VirtioBlkOk], ...): clients
    are proved against the contract, implementations are instances of it.  Crates
    and devices whose code is not here ([bitflags], [slab], [elf], [serde_json], the
    memory management unit, the UART, the interrupt controller, the virtio device)
    are such classes with what their documentation says, and each has an instance
    that shows that the laws can hold.


    ** Files, and what they model

    Shared: this file (outcomes, the monad, checked arithmetic, lemmas on bits and
    lists); [Errors] ([types], [kernel/src/error.rs]).

    Memory: [FrameAllocator], [Addr], [Sv39], [PageMeta], [PageTable] with
    [PageMap] and [PageFork] ([kernel/src/arch/riscv/mmu], [kernel/src/mm/page.rs]);
    [MemMgr], [MemFault] ([MemoryManager] of [kernel/src/mm/mod.rs]); [UserMem],
    [UserView], [ForkView] (user memory through the page tables); [KernelMap],
    [TaskSpace] ([kernel/src/mm/kvm.rs]); [Kmalloc] ([kmalloc]); [ArchMem] (the trait
    [MemoryModel]).

    Files: [Vfs] ([vfs]), [Vsfs] with [VsfsIO], [VsfsDir], [VsfsCreate] ([vsfs]),
    [Mount] ([kernel/src/vfs]), [FileTable], [Virtio] ([kernel/src/driver/virtio]),
    [Console] ([kernel/src/driver/uart.rs], [console.rs]), and [VsfsTool] with
    [VsfsToolAlloc], [VsfsToolImg], [VsfsToolOpen], [VsfsToolReady],
    [VsfsToolParse] ([vsfs/src/bin/vsfs-tool.rs]).

    Tasks: [Elf], [ElfLoad] ([kernel/src/exec]), [InitStack], [InOrder], [TaskPool],
    [TaskNew], [Spawn], [TaskFork] ([kernel/src/task]); [Sched] with [SchedInv],
    [SchedSteps], [SchedSafe] ([kernel/src/sched]); [Ksync] ([ksync]).

    Traps: [Syscall] with [SyscallIO], [SyscallErr] ([kernel/src/syscall.rs]);
    [Trap] with [TrapSpec], [TrapSafe] ([trap_handler.rs], [plic.rs]); [Registers]
    ([riscv/src/registers]); [Asm], [AsmTrap] ([trap.S], [swtch]); [UserRegs], which
    puts assembly, handler and system calls together.

    Boot: [EarlyBoot] ([start.s], [boot.rs], [boot_core], [core_entry_trampoline]),
    [ArchHart] (the trait [Architecture], [riscv/src/sbi.rs]), [Log] ([serial_log.rs],
    [debug.rs], the panic handler), [HartBoot] ([core_boot_entry] on the hart), [Boot],
    [BootMem] ([kmain], and [core_boot_entry] on the scheduler).

    User space and tools: [UserLib] ([efiks-lib]), [Shell] and [CowProg]
    ([userspace/zig/shell]), [GdbWalk] ([tools/gdb/walk_sv39.py]).


    ** What is proved

    - Memory.  Frames are handed out once ([alloc_hands_out_fresh_frames]); a page
      that is mapped translates to its frame and no other translation changes
      ([map_then_translate]); fork shares frames and copy-on-write makes them
      private, so that two tasks never see each other's stores ([fork_isolates],
      [copy_on_write_gives_private_copy]); freeing gives back exactly the tables
      ([traverse_free_frees_exactly_the_tables]); page faults, [brk] and the copies
      from and to user memory do what they say ([page_fault_spec], [brk_spec],
      [user_copies_are_faithful]); the boot mapping covers what the code that runs
      on it needs ([early_init_spec]); the heap allocator never hands out or touches
      live memory ([kmalloc_is_safe]).  The program that tests copy-on-write from
      user space passes ([cow_program_passes]).
    - Files.  Reads and writes are those of a byte array, across direct and indirect
      blocks ([read_returns_file_bytes], [write_replaces_exactly_the_range]);
      creating a file is all or nothing, and the file is found afterwards; an image
      that the tool writes is mounted and read back by the kernel's code, and takes
      new files ([image_opens], [image_accepts_new_file]); sector requests are
      served by any device that follows the virtio specification
      ([sector_requests_spec]).
    - Tasks.  A spawned program starts with the bytes of its file, its arguments and
      its registers ([load_executable_spec], [program_starts]); [fork] returns twice,
      down to the registers ([task_fork_spec], [fork_in_registers]); no task runs on
      two harts, from the boot on and through any traps, each handled to its end
      ([booted_harts_run_distinct_tasks]); the task pool is a map
      ([pool_refines_map]); the spin lock excludes ([spin_lock_excludes]).
    - Traps.  Entry and return keep the registers ([user_traps_are_transparent]); a
      switch comes back ([switches_come_back]); [read] and [write] give the bytes of
      the file to the task, through a buffer from the kernel's heap
      ([read_syscall_spec], [write_syscall_spec]); a call that is refused changes
      nothing ([refused_calls_change_nothing]); the Zig library
      and the kernel agree on every call ([zig_calls_reach_the_kernel]).
    - Boot.  [bootentry] reaches [kmain] under a page table that maps the code around
      it ([bootentry_enters_kmain]), the trampoline reaches [core_boot_entry]
      ([trampoline_enters_core_boot_entry]), which leaves the hart ready for its first
      trap ([core_boot_entry_readies_the_hart]); the memory that [early_init] leaves
      is enough for the tasks of the cores ([kernel_tasks_after_early_init]).
    - The shell.  The line editor gives what the terminal shows ([readLine_spec]),
      and a command line runs as it is typed, its errors and messages included
      ([shell_runs_what_is_typed]).
    - Bounds.  A log message never leaves its buffer ([log_prints_what_fits]); a
      line never leaves the shell's ([readLine_spec]).

    Where the code does something else than it means to, a theorem says so:
    [irq_wakeup_race], [long_sleep_panics], [boot_core_panics],
    [rust_calls_miss_the_kernel], [full_ring_is_lost],
    [failed_spawn_keeps_a_frame], [remap_only_adds_permissions],
    [relative_path_is_flattened], [amm_is_not_cleared],
    [long_message_loses_its_end], [large_read_panics].


    ** Fuel and bounds

    [fork] and [traverse_free] recurse over page tables, which have three levels:
    their fuel is 3.  [access] tries again once after a page fault, which is enough
    since a resolved fault gives the permission that was asked for.  The loops of
    the heap allocator have one unit for each header.  [drain] and the virtio
    driver wait for a device: their fuel is an argument, and the theorems say how
    much is enough, by the laws of the device.  The loop of the shell's [cat] has a
    unit for each read, and that of [_start] for each word.  [run] needs none, since the jumps of the assembly are forward.  The
    words of a command are by well-founded recursion.  [Diverge], the result without
    fuel, is excluded by the theorems that claim a result.


    ** Not modelled

    - The linker script and the build: addresses of the linker's symbols are
      arguments.  [riscv/src/lib.rs] and the reads and writes of control registers
      are single instructions; their effect is in the definitions that use them.
    - The translation cache: the memory management unit follows the tables in
      memory at once, so a missing [sfence.vma] is not found here.
    - The kernel heap's exhaustion in the collections of the kernel: lists and maps
      here have room.  The buffers of [read] and [write], whose size the user
      chooses, come from the heap of [Kmalloc], and running out of frames is
      modelled.
    - Interleaving inside handlers of different harts: a handler runs to its end,
      except in [Ksync] and in [irq_wakeup_race].  The waiting of a console read is
      in [Console]; inside [sys_read] the line is taken to be there.
    - [kmain] before the kernel tasks is not one definition: its steps are
      [early_init], the virtio driver's [init] and the mount table, each on its own
      state; [kernel_tasks_after_early_init] goes from the first to the tasks.
    - Log messages in the code outside [Log] and [HartBoot], the allocator and the
      standard library of the shell, failing output, and what the debugger's command
      prints.
    - Tests that only use collections of the standard library
      ([kmalloc/src/linked_list_allocator.rs]), the sample program of the Rust
      library, and the build scripts. *)

From Stdlib Require Export Lia.
From stdpp Require Export base list gmap numbers option.
Export list_relations.list.

#[export] Set Default Goal Selector "!".

Declare Scope rust_scope.
Delimit Scope rust_scope with rust.

Global Open Scope Z_scope.
Global Open Scope rust_scope.

(** ** Outcomes

    A Rust function returns a value, returns [Err], panics (a failed
    [unwrap], [assert!], array index or, in the debug profile the README
    builds, an arithmetic overflow), or does not return.  [Diverge] is what a
    loop that runs out of fuel gives; no theorem treats it as a result. *)

Inductive outcome (E A : Type) : Type :=
| Ok (a : A)
| Err (e : E)
| Panic
| Diverge.
Arguments Ok {E A} a.
Arguments Err {E A} e.
Arguments Panic {E A}.
Arguments Diverge {E A}.

Definition obind {E A B} (m : outcome E A) (k : A → outcome E B) : outcome E B :=
  match m with
  | Ok a => k a
  | Err e => Err e
  | Panic => Panic
  | Diverge => Diverge
  end.

Notation "'let?' x ':=' m 'in' k" := (obind m (fun x => k))
  (at level 10, x pattern, m at level 100, k at level 200) : rust_scope.

(** [Option::ok_or] followed by [?]. *)
Definition ok_or {E A} (o : option A) (e : E) : outcome E A :=
  match o with Some a => Ok a | None => Err e end.

(** [Option::unwrap] and [Option::expect]. *)
Definition unwrap {E A} (o : option A) : outcome E A :=
  match o with Some a => Ok a | None => Panic end.

(** ** State-passing computations

    The state is kept on every exit: an [Err] return leaves behind whatever
    the function wrote before it failed. *)

Definition M (S E A : Type) : Type := S → outcome E A * S.

Definition ret {S E A} (a : A) : M S E A := fun s => (Ok a, s).
Definition fail {S E A} (e : E) : M S E A := fun s => (Err e, s).
Definition panic {S E A} : M S E A := fun s => (Panic, s).
Definition diverge {S E A} : M S E A := fun s => (Diverge, s).
Definition lift {S E A} (o : outcome E A) : M S E A := fun s => (o, s).
Definition gets {S E A} (f : S → A) : M S E A := fun s => (Ok (f s), s).
Definition modify {S E} (f : S → S) : M S E unit := fun s => (Ok tt, f s).

Definition bind {S E A B} (m : M S E A) (k : A → M S E B) : M S E B :=
  fun s =>
    match m s with
    | (Ok a, s') => k a s'
    | (Err e, s') => (Err e, s')
    | (Panic, s') => (Panic, s')
    | (Diverge, s') => (Diverge, s')
    end.

(** [match f() { Ok(a) => .., Err(e) => .. }]: the [Result] is a value, and
    only panics and divergence propagate. *)
Definition attempt {S E E' A} (m : M S E A) : M S E' (A + E) :=
  fun s =>
    match m s with
    | (Ok a, s') => (Ok (inl a), s')
    | (Err e, s') => (Ok (inr e), s')
    | (Panic, s') => (Panic, s')
    | (Diverge, s') => (Diverge, s')
    end.

(** [f().unwrap()] and [f().expect(..)] on a [Result]. *)
Definition unwrapped {S E E' A} (m : M S E A) : M S E' A :=
  fun s =>
    match m s with
    | (Ok a, s') => (Ok a, s')
    | (Err _, s') => (Panic, s')
    | (Panic, s') => (Panic, s')
    | (Diverge, s') => (Diverge, s')
    end.

(** [assert!(b)] and [debug_assert!(b)]. *)
Definition assert {S E} (b : bool) : M S E unit := if b then ret tt else panic.

(** [for x in xs { f(x) }]. *)
Fixpoint for_each {S E A} (f : A → M S E unit) (xs : list A) : M S E unit :=
  match xs with
  | [] => ret tt
  | x :: xs' => bind (f x) (fun _ => for_each f xs')
  end.

(** [p] turns of a loop, as long as its body gives [inl]; and a loop that takes
    fewer. *)
Fixpoint turns {S E A B} (p : positive) (body : A → M S E (A + B)) (a : A) : M S E (A + B) :=
  let go m q := bind m (fun r => match r with inl a' => turns q body a' | inr b => ret (inr b) end) in
  match p with
  | xH => body a
  | xO q => go (turns q body a) q
  | xI q => go (bind (body a) (fun r => match r with inl a' => turns q body a' | inr b => ret (inr b) end)) q
  end.
Definition loop {S E A B} (p : positive) (body : A → M S E (A + B)) (a : A) : M S E B :=
  bind (turns p body a) (fun r => match r with inl _ => diverge | inr b => ret b end).

(** A computation on a part of a larger state. *)
Definition zoom {S T E A} (get : S → T) (set : T → S → S) (m : M T E A) : M S E A :=
  fun s => let '(o, t) := m (get s) in (o, set t s).

Notation "'let!' x ':=' m 'in' k" := (bind m (fun x => k))
  (at level 10, x pattern, m at level 100, k at level 200) : rust_scope.
Notation "m ;;; k" := (bind m (fun _ => k))
  (at level 100, right associativity) : rust_scope.

Section outcome_lemmas.
Context {S E A B : Type}.
Implicit Types (s t : S) (e : E).

Lemma bind_ok_inv (m : M S E A) (k : A → M S E B) s b t :
    bind m k s = (Ok b, t) → ∃ a u, m s = (Ok a, u) ∧ k a u = (Ok b, t).
Proof. unfold bind. destruct (m s) as [[]]; naive_solver. Qed.

Lemma bind_ok (m : M S E A) (k : A → M S E B) s a u :
    m s = (Ok a, u) → bind m k s = k a u.
Proof. unfold bind. by intros ->. Qed.

Lemma bind_err_inv (m : M S E A) (k : A → M S E B) s e t :
    bind m k s = (Err e, t) →
    m s = (Err e, t) ∨ ∃ a u, m s = (Ok a, u) ∧ k a u = (Err e, t).
Proof. unfold bind. destruct (m s) as [[]]; naive_solver. Qed.

Lemma obind_ok_inv (m : outcome E A) (k : A → outcome E B) b :
    obind m k = Ok b → ∃ a, m = Ok a ∧ k a = Ok b.
Proof. destruct m; naive_solver. Qed.
End outcome_lemmas.

(** ** Machine integers

    Unsigned integers are [Z] values in their range.  [usize] and [u64] are 64
    bits wide on the RISC-V target. *)

Definition usize_MAX : Z := 2 ^ 64 - 1.

Definition in_width (w x : Z) : Prop := 0 ≤ x < 2 ^ w.
Abbreviation is_usize := (in_width 64).
Abbreviation is_u64 := (in_width 64).
Abbreviation is_u32 := (in_width 32).
Abbreviation is_u8 := (in_width 8).

Definition checked_add (w a b : Z) : option Z :=
  if a + b <? 2 ^ w then Some (a + b) else None.
Definition checked_sub (a b : Z) : option Z :=
  if b <=? a then Some (a - b) else None.
Definition checked_mul (w a b : Z) : option Z :=
  if a * b <? 2 ^ w then Some (a * b) else None.
Definition saturating_sub (a b : Z) : Z := Z.max 0 (a - b).

(** [isize] and [usize] share their bits: [x as isize] and [x as usize]. *)
Definition as_isize (x : Z) : Z := if x <? 2 ^ 63 then x else x - 2 ^ 64.
Definition as_usize (x : Z) : Z := x mod 2 ^ 64.

(** [+], [-] and [*] on unsigned integers, with the overflow check. *)
Definition add_ov {E} (w a b : Z) : outcome E Z := unwrap (checked_add w a b).
Definition sub_ov {E} (a b : Z) : outcome E Z := unwrap (checked_sub a b).
Definition mul_ov {E} (w a b : Z) : outcome E Z := unwrap (checked_mul w a b).

(** [!x] on a [w]-bit unsigned integer. *)
Definition not_w (w x : Z) : Z := Z.ldiff (Z.ones w) x.

(** ** Bits *)

Create Rewrite HintDb bits.
#[export] Hint Rewrite Z.land_spec Z.lor_spec Z.lxor_spec Z.ldiff_spec
  Z.testbit_0_l andb_true_r andb_false_r orb_true_r orb_false_r
  andb_true_l andb_false_l orb_true_l orb_false_l : bits.
#[export] Hint Rewrite Z.shiftl_spec Z.shiftr_spec Z.testbit_ones_nonneg
  using lia : bits.

Lemma testbit_one_shl (i j : Z) :
  0 ≤ i → 0 ≤ j → Z.testbit (Z.shiftl 1 i) j = (i =? j).
Proof.
  intros Hi Hj. rewrite Z.shiftl_1_l, Z.pow2_bits_eqb by done. done.
Qed.
#[export] Hint Rewrite testbit_one_shl using lia : bits.


(** [(w >> i) & 1 == 0] tests bit [i]. *)
Lemma land_shiftr_one (w i : Z) :
  0 ≤ i → (Z.land (Z.shiftr w i) 1 =? 0) = negb (Z.testbit w i).
Proof.
  intros Hi. change 1 with (Z.ones 1).
  rewrite Z.land_ones, Z.shiftr_div_pow2, Z.testbit_eqb by lia.
  change (2 ^ 1) with 2.
  destruct (Z.mod_pos_bound (w / 2 ^ i) 2); [lia|].
  destruct (Z.eqb_spec ((w / 2 ^ i) mod 2) 0), (Z.eqb_spec ((w / 2 ^ i) mod 2) 1);
    simpl; lia.
Qed.

(** Setting and clearing a bit keep the width. *)
Lemma in_width_bits w x :
  0 ≤ w → 0 ≤ x → (∀ i, w ≤ i → Z.testbit x i = false) → in_width w x.
Proof.
  intros Hw Hx Hb. split; [done|].
  destruct (Z.eq_dec x 0) as [->|]; [lia|].
  apply Z.log2_lt_pow2; [lia|].
  destruct (Z.lt_ge_cases (Z.log2 x) w) as [|Hge]; [done|].
  specialize (Hb _ Hge). rewrite Z.bit_log2 in Hb by lia. done.
Qed.

Lemma testbit_high w x i : in_width w x → w ≤ i → Z.testbit x i = false.
Proof.
  intros [H0 H1] Hi. destruct (Z.lt_ge_cases w 0) as [Hw|Hw].
  { rewrite Z.pow_neg_r in H1 by done. lia. }
  rewrite <-(Z.mod_small x (2 ^ w)) by lia. apply Z.mod_pow2_bits_high. lia.
Qed.

Lemma in_width_set_bit w x i :
  0 ≤ i < w → in_width w x → in_width w (Z.lor x (Z.shiftl 1 i)).
Proof.
  intros Hi Hx. apply in_width_bits; [lia| |].
  - apply Z.lor_nonneg. split; [apply Hx|]. apply Z.shiftl_nonneg. lia.
  - intros j Hj. autorewrite with bits. rewrite (testbit_high w) by done.
    destruct (Z.eqb_spec i j); [lia|done].
Qed.

Lemma in_width_land_l w x y : 0 ≤ w → in_width w x → in_width w (Z.land x y).
Proof.
  intros Hw Hx. apply in_width_bits; [done| |].
  - apply Z.land_nonneg. left. apply Hx.
  - intros j Hj. autorewrite with bits. by rewrite (testbit_high w).
Qed.

(** ** Lists *)

Lemma bind_snoc {A B} (f : A → list B) (l : list A) x :
  (l ++ [x]) ≫= f = (l ≫= f) ++ f x.
Proof. rewrite bind_app. f_equal. apply app_nil_r. Qed.

Lemma insert_middle {A} (l k : list A) x y n :
  n = length l → <[n := y]> (l ++ x :: k) = l ++ y :: k.
Proof. intros ->. rewrite insert_app_r_alt by done. by rewrite Nat.sub_diag. Qed.
