(* ===== verification/Errors.v ===== *)
(** * Error values

    The error enums of the workspace and how each becomes an [Errno]:
    [types/src/lib.rs], [vfs/src/lib.rs] and [kernel/src/error.rs]. *)

From S2P Require Import Prelude.

(** [types/src/lib.rs], [enum Errno]. *)
Inductive Errno : Set :=
| ENoEnt | EIO | ENoExec | EBadF | EChild | ENoMem | EFault | EBusy | EExist
| EInval | ESPipe | ENoTty | ENoSys | EOverflow.

(** The discriminants ([#[repr(isize)]]): [errno as isize]. *)
Definition errno_code (e : Errno) : Z :=
  match e with
  | ENoEnt => 2 | EIO => 5 | ENoExec => 8 | EBadF => 9 | EChild => 10
  | ENoMem => 12 | EFault => 14 | EBusy => 16 | EExist => 17 | EInval => 22
  | ESPipe => 29 | ENoTty => 25 | ENoSys => 38 | EOverflow => 75
  end.

(** [vfs/src/lib.rs], [enum VfsError]. *)
Inductive VfsError : Set :=
| DeviceIO | Fs | AlreadyMounted | OutOfBounds | VfsNotFound | Unknown.

#[export] Instance Errno_eq_dec : EqDecision Errno.
Proof. solve_decision. Defined.
#[export] Instance VfsError_eq_dec : EqDecision VfsError.
Proof. solve_decision. Defined.

(** [impl IntoError for VfsError]. *)
Definition vfs_to_errno (e : VfsError) : Errno :=
  match e with
  | DeviceIO | Fs | Unknown => EIO
  | OutOfBounds => EOverflow
  | VfsNotFound => ENoEnt
  | AlreadyMounted => EBusy
  end.

(** [kernel/src/error.rs], [enum Error]; [EOther] carries what its trait object
    answers to [to_errno]. *)
Inductive Error : Set :=
| Unaligned | Overflow | Oom | NotFound | InvalidArgs | Unmapped | NoSys
| AlreadyExists | EErrno (e : Errno) | EOther (e : Errno).

(** [impl<T: IntoError> From<T> for Error], at [T = VfsError]. *)
Definition error_of_vfs (e : VfsError) : Error := EErrno (vfs_to_errno e).

(** [impl From<Error> for Errno]. *)
Definition errno_of_error (e : Error) : Errno :=
  match e with
  | Unaligned => EInval
  | Overflow => EOverflow
  | Oom => ENoMem
  | NotFound => ENoEnt
  | InvalidArgs => EInval
  | Unmapped => EFault
  | NoSys => ENoSys
  | AlreadyExists => EExist
  | EErrno errno => errno
  | EOther err => err
  end.
