(* ===== verification/FrameAllocator.v ===== *)
(** * Physical frame allocator

    [kernel/src/mm/frame_allocator.rs]: a bitmap of [u64] words, one bit per
    4 KiB frame from [start_addr].  The global [FRAME_ALLOCATOR] has 64 words;
    the operations are proved for any number of words. *)

From S2P Require Import Prelude Errors.

(** ** The model *)

(** [struct FrameAllocator<N>]; [N] is [length pages]. *)
Record FrameAllocator := mkFA { start_addr : Z; pages : list Z }.

(** [FrameAllocator::new]. *)
Definition new (N : nat) (start : Z) : FrameAllocator := mkFA start (replicate N 0).

(** [init]: only the start address of the global is replaced. *)
Definition init (start : Z) (fa : FrameAllocator) : FrameAllocator :=
  mkFA start (pages fa).

(** [for i in 0..64 { if (w >> i) & 1 == 0 ... }]: the index of the first clear
    bit among the [n] bits from [i]. *)
Fixpoint find_bit (w : Z) (i : Z) (n : nat) : option Z :=
  match n with
  | O => None
  | S n' => if Z.land (Z.shiftr w i) 1 =? 0 then Some i else find_bit w (i + 1) n'
  end.

(** [for page_i in 0..self.pages.len()], around the loop over the bits. *)
Fixpoint find_page (ws : list Z) (page_i : Z) : option (Z * Z) :=
  match ws with
  | [] => None
  | w :: ws' =>
      match find_bit w 0 64 with
      | Some i => Some (page_i, i)
      | None => find_page ws' (page_i + 1)
      end
  end.

(** [self.pages[page_i] = w]. *)
Definition set_page (page_i w : Z) (fa : FrameAllocator) : FrameAllocator :=
  mkFA (start_addr fa) (<[Z.to_nat page_i := w]> (pages fa)).

(** [FrameAllocator::alloc]. *)
Definition alloc : M FrameAllocator Error Z := fun fa =>
  match find_page (pages fa) 0 with
  | Some (page_i, i) =>
      let w := pages fa !!! Z.to_nat page_i in
      let fa' := set_page page_i (Z.lor w (Z.shiftl 1 i)) fa in
      let alloc_addr := (page_i * 64 + i) * 4096 in
      (add_ov 64 (start_addr fa) alloc_addr, fa')
  | None => (Err Oom, fa)
  end.

(** [FrameAllocator::free]: the subtraction and the index can panic. *)
Definition free (ptr : Z) : M FrameAllocator Error unit := fun fa =>
  match checked_sub ptr (start_addr fa) with
  | None => (Panic, fa)
  | Some d =>
      let x := d / 4096 in
      let page_i := x / 64 in
      let i := x mod 64 in
      match pages fa !! Z.to_nat page_i with
      | None => (Panic, fa)
      | Some w => (Ok tt, set_page page_i (Z.land w (not_w 64 (Z.shiftl 1 i))) fa)
      end
  end.

(** ** The abstract allocator: a set of frame numbers in use *)

(** The number of frames. *)
Definition capacity (fa : FrameAllocator) : Z := 64 * Z.of_nat (length (pages fa)).

(** Frame [k]'s bit. *)
Definition in_use (fa : FrameAllocator) (k : Z) : bool :=
  Z.testbit (pages fa !!! Z.to_nat (k / 64)) (k mod 64).

(** The physical address of frame [k]. *)
Definition frame_addr (fa : FrameAllocator) (k : Z) : Z := start_addr fa + k * 4096.

(** The words are [u64]s and no frame address wraps around. *)
Record wf (fa : FrameAllocator) : Prop := {
  wf_words : Forall is_u64 (pages fa);
  wf_start : 0 ≤ start_addr fa;
  wf_top : start_addr fa + capacity fa * 4096 ≤ 2 ^ 64
}.

(** ** Lemmas *)

Lemma find_bit_spec w n : ∀ i, 0 ≤ i →
  match find_bit w i n with
  | Some j => i ≤ j < i + Z.of_nat n ∧ Z.testbit w j = false ∧
              ∀ l, i ≤ l < j → Z.testbit w l = true
  | None => ∀ l, i ≤ l < i + Z.of_nat n → Z.testbit w l = true
  end.
Proof.
  induction n as [|n IH]; intros i Hi; simpl; [lia|].
  rewrite land_shiftr_one by done.
  destruct (Z.testbit w i) eqn:Hb; simpl; [|repeat split; [lia..|done|lia]].
  specialize (IH (i + 1) ltac:(lia)). destruct (find_bit w (i + 1) n) as [j|].
  - destruct IH as (? & ? & Hlow). split_and!; [lia..|done|].
    intros l Hl. destruct (Z.eq_dec l i) as [->|]; [done|]. apply Hlow. lia.
  - intros l Hl. destruct (Z.eq_dec l i) as [->|]; [done|]. apply IH. lia.
Qed.

(** The bit of frame [k] in a list of words. *)
Definition bit_of (ws : list Z) (k : Z) : bool :=
  Z.testbit (ws !!! Z.to_nat (k / 64)) (k mod 64).

Lemma bit_of_head w ws k : 0 ≤ k < 64 → bit_of (w :: ws) k = Z.testbit w k.
Proof.
  intros Hk. unfold bit_of. by rewrite Z.div_small, Z.mod_small by lia.
Qed.

Lemma bit_of_tail w ws k : 64 ≤ k → bit_of (w :: ws) k = bit_of ws (k - 64).
Proof.
  intros Hk. unfold bit_of.
  replace (Z.to_nat (k / 64)) with (S (Z.to_nat ((k - 64) / 64)));
    [f_equal|]; Z.div_mod_to_equations; lia.
Qed.

Lemma find_page_spec ws : ∀ p,
  match find_page ws p with
  | Some (q, i) =>
      let k := (q - p) * 64 + i in
      p ≤ q < p + Z.of_nat (length ws) ∧ 0 ≤ i < 64 ∧
      bit_of ws k = false ∧ ∀ j, 0 ≤ j < k → bit_of ws j = true
  | None => ∀ j, 0 ≤ j < 64 * Z.of_nat (length ws) → bit_of ws j = true
  end.
Proof.
  induction ws as [|w ws IH]; intros p; cbn [find_page length]; [lia|].
  pose proof (find_bit_spec w 64 0 ltac:(lia)) as Hb.
  destruct (find_bit w 0 64) as [i|].
  { destruct Hb as (? & ? & Hlow). cbn zeta.
    replace ((p - p) * 64 + i) with i by lia.
    split_and!; [lia..|by rewrite bit_of_head by lia|].
    intros j Hj. rewrite bit_of_head by lia. apply Hlow. lia. }
  specialize (IH (p + 1)). destruct (find_page ws (p + 1)) as [[q i]|].
  - cbn zeta in *. destruct IH as (? & ? & Hk & Hlow). split_and!; [lia..| |].
    + rewrite bit_of_tail by lia. rewrite <-Hk. f_equal. lia.
    + intros j Hj. destruct (Z.lt_ge_cases j 64).
      * rewrite bit_of_head by lia. apply Hb. lia.
      * rewrite bit_of_tail by lia. apply Hlow. lia.
  - intros j Hj. destruct (Z.lt_ge_cases j 64).
    + rewrite bit_of_head by lia. apply Hb. lia.
    + rewrite bit_of_tail by lia. apply IH. lia.
Qed.

Section set_page.
Context (fa : FrameAllocator) (k : Z) (Hk : 0 ≤ k < capacity fa).

Lemma word_in_range : (Z.to_nat (k / 64) < length (pages fa))%nat.
Proof. unfold capacity in Hk. Z.div_mod_to_equations; lia. Qed.

Lemma capacity_set_page p w : capacity (set_page p w fa) = capacity fa.
Proof. unfold capacity, set_page. simpl. by rewrite length_insert. Qed.

Lemma in_use_set_page w j : 0 ≤ j →
  in_use (set_page (k / 64) w fa) j =
    if j / 64 =? k / 64 then Z.testbit w (j mod 64) else in_use fa j.
Proof.
  intros Hj. pose proof word_in_range as Hin. unfold in_use, set_page; simpl.
  destruct (Z.eqb_spec (j / 64) (k / 64)) as [->|Hne].
  - by rewrite list_lookup_total_insert_eq.
  - rewrite list_lookup_total_insert_ne; [done|].
    Z.div_mod_to_equations; lia.
Qed.

Lemma wf_set_page w : wf fa → is_u64 w → wf (set_page (k / 64) w fa).
Proof.
  intros [Hw ? ?] Hw'. split; simpl; [|done|by rewrite capacity_set_page].
  by apply Forall_insert.
Qed.
End set_page.

Lemma same_frame j k : 0 ≤ j → 0 ≤ k →
  (j =? k) = (j / 64 =? k / 64) && (j mod 64 =? k mod 64).
Proof.
  intros. destruct (Z.eqb_spec j k) as [->|]; [by rewrite !Z.eqb_refl|].
  destruct (Z.eqb_spec (j / 64) (k / 64)), (Z.eqb_spec (j mod 64) (k mod 64));
    simpl; [Z.div_mod_to_equations; lia|done..].
Qed.

Lemma in_use_word fa k : wf fa → 0 ≤ k < capacity fa →
  is_u64 (pages fa !!! Z.to_nat (k / 64)).
Proof.
  intros [Hw _ _] Hk. pose proof (word_in_range fa k Hk).
  rewrite Forall_lookup_total in Hw. by apply Hw.
Qed.

(** What [alloc] does, in terms of frame numbers. *)
Lemma alloc_cases fa : wf fa →
  match alloc fa with
  | (Ok a, fa') => ∃ k,
      0 ≤ k < capacity fa ∧ a = frame_addr fa k ∧
      in_use fa k = false ∧ (∀ j, 0 ≤ j < k → in_use fa j = true) ∧
      (∀ j, 0 ≤ j → in_use fa' j = (j =? k) || in_use fa j) ∧
      start_addr fa' = start_addr fa ∧ capacity fa' = capacity fa ∧ wf fa'
  | (Err e, fa') => e = Oom ∧ fa' = fa ∧ ∀ j, 0 ≤ j < capacity fa → in_use fa j = true
  | _ => False
  end.
Proof.
  intros Hwf. unfold alloc. pose proof (find_page_spec (pages fa) 0) as Hf.
  destruct (find_page (pages fa) 0) as [[q i]|]; [|done].
  cbn zeta in Hf. rewrite Z.sub_0_r in Hf. destruct Hf as (Hq & Hi & Hfree & Hlow).
  set (k := q * 64 + i) in *.
  assert (0 ≤ k < capacity fa) as Hk by (unfold capacity, k; lia).
  assert (q = k / 64 ∧ i = k mod 64) as [Hqk Hik]
    by (unfold k; Z.div_mod_to_equations; lia).
  pose proof (wf_top fa Hwf). pose proof (wf_start fa Hwf).
  unfold add_ov, checked_add. rewrite (proj2 (Z.ltb_lt _ _)) by lia. simpl.
  exists k. split_and!; try done; try lia.
  - intros j Hj. rewrite Hqk, in_use_set_page by done.
    rewrite (same_frame j k) by lia. unfold in_use.
    destruct (Z.eqb_spec (j / 64) (k / 64)) as [->|]; [|done].
    pose proof (Z.mod_pos_bound j 64 ltac:(lia)). autorewrite with bits.
    rewrite Hik, (Z.eqb_sym (k mod 64)), orb_comm. done.
  - apply capacity_set_page.
  - rewrite Hqk. apply wf_set_page; [done|].
    apply in_width_set_bit; [lia|]. by apply in_use_word.
Qed.

(** What [free] does, for any address inside an allocated frame. *)
Lemma free_cases fa k o : wf fa → 0 ≤ k < capacity fa → 0 ≤ o < 4096 →
  ∃ fa', free (frame_addr fa k + o) fa = (Ok tt, fa') ∧
    (∀ j, 0 ≤ j → in_use fa' j = negb (j =? k) && in_use fa j) ∧
    start_addr fa' = start_addr fa ∧ capacity fa' = capacity fa ∧ wf fa'.
Proof.
  intros Hwf Hk Ho. unfold free, frame_addr, checked_sub.
  rewrite (proj2 (Z.leb_le _ _)) by lia.
  replace ((start_addr fa + k * 4096 + o - start_addr fa) / 4096) with k
    by (Z.div_mod_to_equations; lia).
  pose proof (word_in_range fa k Hk) as Hin.
  rewrite list_lookup_lookup_total_lt by done.
  eexists; split; [done|]. split_and!.
  - intros j Hj. rewrite in_use_set_page by done. rewrite (same_frame j k) by lia.
    unfold in_use. destruct (Z.eqb_spec (j / 64) (k / 64)) as [->|]; [|done].
    pose proof (Z.mod_pos_bound j 64 ltac:(lia)).
    pose proof (Z.mod_pos_bound k 64 ltac:(lia)).
    unfold not_w. autorewrite with bits.
    rewrite (proj2 (Z.ltb_lt _ _)) by lia.
    rewrite (Z.eqb_sym (k mod 64)), andb_comm. done.
  - done.
  - apply capacity_set_page.
  - apply wf_set_page; [done|]. apply in_width_land_l; [done|]. by apply in_use_word.
Qed.

(** ** Histories

    A run of the allocator with the set of frames its callers hold: a caller
    frees only what it was given. *)

Inductive step : FrameAllocator * gset Z → FrameAllocator * gset Z → Prop :=
| step_alloc fa held a fa' :
    alloc fa = (Ok a, fa') → step (fa, held) (fa', {[a]} ∪ held)
| step_oom fa held e fa' :
    alloc fa = (Err e, fa') → step (fa, held) (fa', held)
| step_free fa held a fa' :
    a ∈ held → free a fa = (Ok tt, fa') → step (fa, held) (fa', held ∖ {[a]}).

(** The bitmap records exactly the frames held. *)
Definition holds (fa : FrameAllocator) (held : gset Z) : Prop :=
  wf fa ∧ ∀ a, a ∈ held ↔ ∃ k, 0 ≤ k < capacity fa ∧ a = frame_addr fa k ∧ in_use fa k = true.

Lemma holds_new N start : 0 ≤ start → start + 64 * Z.of_nat N * 4096 ≤ 2 ^ 64 →
  holds (new N start) ∅.
Proof.
  intros Hs Ht. split.
  - split; simpl; [by apply Forall_replicate|done|].
    unfold capacity; simpl. by rewrite length_replicate.
  - intros a. split; [set_solver|]. intros (k & Hk & _ & Hu).
    unfold in_use in Hu. pose proof (word_in_range _ _ Hk) as Hin. simpl in *.
    rewrite lookup_total_replicate_2, Z.testbit_0_l in Hu
      by (by rewrite length_replicate in Hin). done.
Qed.

Lemma frame_addr_inj fa j k : frame_addr fa j = frame_addr fa k → j = k.
Proof. unfold frame_addr. lia. Qed.

Lemma frame_addr_start fa fa' k :
  start_addr fa' = start_addr fa → frame_addr fa' k = frame_addr fa k.
Proof. unfold frame_addr. by intros ->. Qed.

Lemma holds_alloc fa held a fa' :
  holds fa held → alloc fa = (Ok a, fa') → a ∉ held ∧ holds fa' ({[a]} ∪ held).
Proof.
  intros [Hwf Hh] Ha. pose proof (alloc_cases fa Hwf) as Hc. rewrite Ha in Hc.
  destruct Hc as (k & Hk & -> & Hfree & _ & Hu & Hst & Hcap & Hwf'). split.
  { rewrite Hh. intros (j & _ & ->%frame_addr_inj & ?). congruence. }
  split; [done|]. intros b. rewrite elem_of_union, elem_of_singleton, Hh, Hcap.
  setoid_rewrite (frame_addr_start fa fa' _ Hst). split.
  - intros [->|(j & ? & -> & Hj)].
    + exists k. rewrite Hu, Z.eqb_refl by lia. done.
    + exists j. rewrite Hu, Hj, orb_true_r by lia. done.
  - intros (j & ? & -> & Hj). rewrite Hu in Hj by lia.
    destruct (Z.eqb_spec j k) as [->|]; [by left|]. right. eauto.
Qed.

Lemma holds_free fa held a : holds fa held → a ∈ held →
  ∃ fa', free a fa = (Ok tt, fa') ∧ holds fa' (held ∖ {[a]}).
Proof.
  intros [Hwf Hh] Ha. apply Hh in Ha as (k & Hk & -> & Hu).
  destruct (free_cases fa k 0 Hwf Hk ltac:(lia)) as (fa' & Hf & Hu' & Hst & Hcap & Hwf').
  rewrite Z.add_0_r in Hf. exists fa'. split; [done|]. split; [done|].
  intros b. rewrite elem_of_difference, elem_of_singleton, Hh, Hcap.
  setoid_rewrite (frame_addr_start fa fa' _ Hst). split.
  - intros [(j & ? & -> & Hj) Hne]. exists j. split_and!; [lia..|done|].
    rewrite Hu', Hj by lia. destruct (Z.eqb_spec j k) as [->|]; [done|done].
  - intros (j & ? & -> & Hj). rewrite Hu' in Hj by lia.
    apply andb_prop in Hj as [Hjk Hj]. split; [by exists j|].
    intros ->%frame_addr_inj. by rewrite Z.eqb_refl in Hjk.
Qed.

(** A frame that has been handed out. *)
Definition held (fa : FrameAllocator) (a : Z) : Prop :=
  ∃ k, 0 ≤ k < capacity fa ∧ a = frame_addr fa k ∧ in_use fa k = true.

(** Every frame is in use. *)
Definition full (fa : FrameAllocator) : Prop :=
  ∀ k, 0 ≤ k < capacity fa → in_use fa k = true.

(** [alloc] for a client that knows frames by address. *)
Lemma alloc_spec fa : wf fa →
  match alloc fa with
  | (Ok a, fa') =>
      ¬ held fa a ∧ (∀ b, held fa' b ↔ b = a ∨ held fa b) ∧ wf fa' ∧
      start_addr fa' = start_addr fa ∧ capacity fa' = capacity fa ∧
      ∃ k, 0 ≤ k < capacity fa ∧ a = start_addr fa + k * 4096
  | (Err e, fa') => e = Oom ∧ fa' = fa ∧ full fa
  | _ => False
  end.
Proof.
  intros Hwf. pose proof (alloc_cases fa Hwf) as Hc.
  destruct (alloc fa) as [[a|e| |] fa']; [|done..].
  destruct Hc as (k & Hk & -> & Hfree & _ & Hu & Hst & Hcap & Hwf').
  split_and!; [| |done..|by exists k].
  - intros (j & _ & ->%frame_addr_inj & ?). congruence.
  - intros b. unfold held. rewrite Hcap. setoid_rewrite (frame_addr_start fa fa' _ Hst). split.
    + intros (j & ? & -> & Hj). rewrite Hu in Hj by lia.
      destruct (Z.eqb_spec j k) as [->|]; [by left|]. right. by exists j.
    + intros [->|(j & ? & -> & Hj)].
      * exists k. by rewrite Hu, Z.eqb_refl by lia.
      * exists j. by rewrite Hu, Hj, orb_true_r by lia.
Qed.

(** [free] of a frame that has been handed out. *)
Lemma free_spec fa a : wf fa → held fa a →
  ∃ fa', free a fa = (Ok tt, fa') ∧ (∀ b, held fa' b ↔ b ≠ a ∧ held fa b) ∧ wf fa' ∧
    start_addr fa' = start_addr fa ∧ capacity fa' = capacity fa.
Proof.
  intros Hwf (k & Hk & -> & Hu).
  destruct (free_cases fa k 0 Hwf Hk ltac:(lia)) as (fa' & Hf & Hu' & Hst & Hcap & Hwf').
  rewrite Z.add_0_r in Hf. exists fa'. split_and!; [done| |done..].
  intros b. unfold held. rewrite Hcap. setoid_rewrite (frame_addr_start fa fa' _ Hst). split.
  - intros (j & ? & -> & Hj). rewrite Hu' in Hj by lia. apply andb_prop in Hj as [Hjk Hj].
    split; [|by exists j]. intros ->%frame_addr_inj. by rewrite Z.eqb_refl in Hjk.
  - intros [Hne (j & ? & -> & Hj)]. exists j. split_and!; [lia..|done|].
    rewrite Hu', Hj by lia. by destruct (Z.eqb_spec j k) as [->|].
Qed.

(** One step keeps the invariant and the managed range. *)
Lemma holds_step fa held fa' held' :
  step (fa, held) (fa', held') → holds fa held →
  holds fa' held' ∧ start_addr fa' = start_addr fa ∧ capacity fa' = capacity fa.
Proof.
  intros Hs Hh. pose proof (alloc_cases _ (proj1 Hh)) as Hc.
  inversion Hs as [? ? a ? Ha|? ? e ? Ha|? ? a ? Hin Hf]; subst.
  - rewrite Ha in Hc. destruct Hc as (k & _ & _ & _ & _ & _ & ? & ? & _).
    by destruct (holds_alloc _ _ _ _ Hh Ha).
  - rewrite Ha in Hc. destruct Hc as (_ & ? & _). by subst.
  - destruct (holds_free _ _ _ Hh Hin) as (? & Hf' & ?).
    apply Hh in Hin as (k & Hk & -> & _).
    destruct (free_cases fa k 0 (proj1 Hh) Hk ltac:(lia)) as (? & Hf'' & _ & ? & ? & _).
    rewrite Z.add_0_r in Hf''. rewrite Hf in Hf', Hf''. by simplify_eq.
Qed.

Lemma holds_steps c c' : rtc step c c' → holds c.1 c.2 →
  holds c'.1 c'.2 ∧ start_addr c'.1 = start_addr c.1 ∧ capacity c'.1 = capacity c.1.
Proof.
  induction 1 as [|[] [] ? Hs _ IH]; [done|]. intros Hh.
  destruct (holds_step _ _ _ _ Hs Hh) as (Hh' & ? & ?).
  destruct (IH Hh') as (? & ? & ?). simpl in *. split_and!; congruence.
Qed.

(** ** Properties *)

(** C15: in every state reached from boot by allocations and by frees of frames
    that are held, [alloc] never panics; a frame it returns is 4 KiB-aligned
    relative to the start, inside the managed range and held by nobody; it
    reports [Oom] only when every frame is held; and freeing a held frame never
    panics. *)
Theorem alloc_hands_out_fresh_frames N start fa held :
  0 ≤ start → start + 64 * Z.of_nat N * 4096 ≤ 2 ^ 64 →
  rtc step (new N start, ∅) (fa, held) →
  match alloc fa with
  | (Ok a, fa') =>
      a ∉ held ∧ start ≤ a < start + 64 * Z.of_nat N * 4096 ∧ (a - start) mod 4096 = 0
  | (Err e, fa') =>
      e = Oom ∧ fa' = fa ∧ ∀ k, 0 ≤ k < 64 * Z.of_nat N → start + k * 4096 ∈ held
  | _ => False
  end ∧ ∀ a, a ∈ held → ∃ fa', free a fa = (Ok tt, fa').
Proof.
  intros Hs Ht Hr. pose proof (holds_steps _ _ Hr (holds_new N start Hs Ht)) as H.
  unfold capacity in H; simpl in H. rewrite length_replicate in H.
  destruct H as (Hh & Hst & Hcap). fold (capacity fa) in Hcap. split.
  - pose proof (alloc_cases fa (proj1 Hh)) as Hc.
    destruct (alloc fa) as [[a|e| |] fa'] eqn:Ha; try done.
    + destruct (holds_alloc _ _ _ _ Hh Ha) as [Hfresh _].
      destruct Hc as (k & Hk & -> & _). unfold frame_addr in *. rewrite Hst in *.
      split_and!; [done|lia..|]. rewrite Z.add_simpl_l. apply Z.mod_mul. lia.
    + destruct Hc as (-> & -> & Hall). split_and!; [done..|]. intros k Hk.
      apply Hh. exists k. unfold frame_addr. rewrite Hst, Hcap.
      split_and!; [lia..|done|]. apply Hall. lia.
  - intros a Ha. destruct (holds_free _ _ _ Hh Ha) as (fa' & ? & _). eauto.
Qed.

(** At boot with one word of frames from 0x8020_0000: after two allocations and
    a free, the freed frame is the next one handed out. *)
Lemma alloc_hands_out_fresh_frames_witness :
  let fa0 := new 1 0x80200000 in
  let fa1 := (alloc fa0).2 in
  let fa2 := (alloc fa1).2 in
  let fa3 := (free 0x80200000 fa2).2 in
  (alloc fa3).1 = Ok 0x80200000 ∧ 0x80200000 ∉ ({[0x80201000]} : gset Z).
Proof.
  intros fa0 fa1 fa2 fa3. split; [vm_compute; reflexivity|].
  assert (rtc step (fa0, ∅) (fa3, ({[0x80201000]} ∪ ({[0x80200000]} ∪ ∅)) ∖ {[0x80200000]}))
    as Hr.
  { eapply rtc_l; [eapply (step_alloc _ _ _ fa1); vm_compute; reflexivity|].
    eapply rtc_l; [eapply (step_alloc _ _ _ fa2); vm_compute; reflexivity|].
    eapply rtc_l; [eapply (step_free _ _ 0x80200000 fa3); [set_solver|]; vm_compute; reflexivity|].
    apply rtc_refl. }
  pose proof (alloc_hands_out_fresh_frames 1 0x80200000 fa3 _ ltac:(lia) ltac:(lia) Hr)
    as [Hc _].
  replace (alloc fa3) with (@Ok Error Z 0x80200000, (alloc fa3).2) in Hc
    by (vm_compute; reflexivity).
  set_solver.
Defined.
