(* ===== verification/Addr.v ===== *)
(** * Addresses

    [kernel/src/helper.rs], [kernel/src/mm/addr/*.rs] and
    [kernel/src/mm/mappings.rs].  The newtypes [VirtAddr] and [PhysAddr] wrap a
    [usize]; here they are the [Z] itself, and [new] and [raw] disappear. *)

From S2P Require Import Prelude Errors.

(** ** Alignment ([helper.rs]) *)

(** [align_down]: [addr & !(align - 1)]. *)
Definition align_down (addr align : Z) : Z := Z.land addr (not_w 64 (align - 1)).

(** [align_up]: [align_down(addr + align - 1, align)], where the addition is
    checked. *)
Definition align_up {E} (addr align : Z) : outcome E Z :=
  let? x := add_ov 64 addr align in
  let? y := sub_ov x 1 in
  Ok (align_down y align).

(** ** [VirtAddr] and [PhysAddr] *)

(** [VirtAddr::offset_by] and [PhysAddr::offset_by]. *)
Definition offset_by (addr amount : Z) : option Z :=
  if amount <? 0 then checked_sub addr (Z.abs amount) else checked_add 64 addr amount.

(** [VirtAddr::difference]: a subtraction of [isize]s, which overflows outside
    [-2^63, 2^63). *)
Definition difference {E} (self other : Z) : outcome E Z :=
  let d := as_isize self - as_isize other in
  if (- 2 ^ 63 <=? d) && (d <? 2 ^ 63) then Ok d else Panic.

(** ** The kernel's mappings ([mappings.rs]) *)

Definition KERNEL_IMAGE_START_VA : Z := 0xffffffff80000000.
Definition KERNEL_IMAGE_START_PA : Z := 0x80000000.
Definition KERNEL_DIRECT_MAPPING_BASE : Z := 0xffffffd600000000.
Definition PAGE_SIZE : Z := 4096.

(** [virt_to_phys] and [phys_to_virt]. *)
Definition virt_to_phys {E} (virt : Z) : outcome E Z :=
  sub_ov virt KERNEL_DIRECT_MAPPING_BASE.
Definition phys_to_virt {E} (phys : Z) : outcome E Z :=
  add_ov 64 phys KERNEL_DIRECT_MAPPING_BASE.

(** [kernel_text_virt_to_phys_raw]. *)
Definition kernel_text_virt_to_phys_raw (virt : Z) : Z := Z.land virt 0xffffffff.

(** ** Typed pointers *)

(** [KernelPtr::new] for a [T] with [align_of::<T>() = align]. *)
Definition kernel_ptr_new (align addr : Z) : outcome Error Z :=
  if negb (addr =? 0) && (addr mod align =? 0) then Ok addr else Err Unaligned.

(** [UserPtr::offset] for a [T] with [size_of::<T>() = size]: the [isize]
    product is checked. *)
Definition user_ptr_offset (size addr count : Z) : outcome Error (option Z) :=
  let d := count * size in
  if (- 2 ^ 63 <=? d) && (d <? 2 ^ 63) then Ok (offset_by addr d) else Panic.

(** [UserBuf::new]. *)
Definition user_buf_new (addr : Z) : option Z := if addr =? 0 then None else Some addr.

(** ** Lemmas *)

Lemma align_down_pow2 addr k : is_usize addr → 0 ≤ k < 64 →
  align_down addr (2 ^ k) = addr - addr mod 2 ^ k.
Proof.
  intros Ha Hk. unfold align_down, not_w.
  replace (2 ^ k - 1) with (Z.ones k) by (rewrite Z.ones_equiv; lia).
  trans (Z.ldiff addr (Z.ones k)).
  - apply Z.bits_inj'. intros i Hi. autorewrite with bits.
    destruct (Z.ltb_spec i 64); [done|].
    by rewrite (testbit_high 64) by (done || lia).
  - rewrite Z.ldiff_ones_r, Z.shiftl_mul_pow2, Z.shiftr_div_pow2 by lia.
    pose proof (Z.div_mod addr (2 ^ k)). lia.
Qed.

Lemma align_up_pow2 {E} addr k : is_usize addr → 0 ≤ k < 64 →
  align_up (E := E) addr (2 ^ k) =
    if addr + 2 ^ k <? 2 ^ 64 then Ok ((addr + 2 ^ k - 1) / 2 ^ k * 2 ^ k) else Panic.
Proof.
  intros Ha Hk. unfold align_up, add_ov, sub_ov, checked_add, checked_sub.
  pose proof (Z.pow_pos_nonneg 2 k). destruct Ha.
  destruct (Z.ltb_spec (addr + 2 ^ k) (2 ^ 64)); [|done]. simpl.
  destruct (Z.leb_spec 1 (addr + 2 ^ k)); [|lia]. simpl.
  rewrite align_down_pow2 by (unfold in_width; lia). f_equal.
  pose proof (Z.div_mod (addr + 2 ^ k - 1) (2 ^ k)). lia.
Qed.

(** [align_up] to a power of two gives the least multiple that is not
    below the address, and panics exactly when [addr + align] does not fit in a
    [usize]; [align_down] gives the greatest multiple that is not above it.  The
    two agree exactly on the aligned addresses. *)
Theorem align_up_down_spec {E} addr k : is_usize addr → 0 ≤ k < 64 →
  (align_up (E := E) addr (2 ^ k) = Panic ↔ 2 ^ 64 ≤ addr + 2 ^ k) ∧
  (addr + 2 ^ k < 2 ^ 64 → ∃ up, align_up (E := E) addr (2 ^ k) = Ok up ∧
     (2 ^ k | up) ∧ addr ≤ up ∧ (∀ m, (2 ^ k | m) → addr ≤ m → up ≤ m) ∧
     (up = align_down addr (2 ^ k) ↔ (2 ^ k | addr))) ∧
  (2 ^ k | align_down addr (2 ^ k)) ∧ align_down addr (2 ^ k) ≤ addr ∧
  (∀ m, (2 ^ k | m) → m ≤ addr → m ≤ align_down addr (2 ^ k)).
Proof.
  intros Ha Hk. rewrite align_up_pow2, align_down_pow2 by done.
  assert (Hp : 0 < 2 ^ k) by (apply Z.pow_pos_nonneg; lia).
  generalize dependent (2 ^ k). intros p Hp.
  pose proof (Z.mod_pos_bound addr p Hp) as Hm.
  pose proof (Z.div_mod addr p ltac:(lia)) as Hd.
  pose proof (Z.mod_pos_bound (addr + p - 1) p Hp) as Hm'.
  pose proof (Z.div_mod (addr + p - 1) p ltac:(lia)) as Hd'.
  split_and!.
  - destruct (Z.ltb_spec (addr + p) (2 ^ 64)); split; (done || lia).
  - intros Hlt. rewrite (proj2 (Z.ltb_lt _ _) Hlt). eexists. split_and!; [done|..].
    + by apply Z.divide_factor_r.
    + lia.
    + intros m [q ->] Hle. apply Z.mul_le_mono_nonneg_r; [lia|].
      apply Z.lt_succ_r, Z.div_lt_upper_bound; lia.
    + split.
      * intros Heq. exists ((addr + p - 1) / p). lia.
      * intros [q ->]. rewrite Z.mod_mul, Z.sub_0_r by lia. f_equal.
        symmetry. apply (Z.div_unique_pos _ _ _ (p - 1)); lia.
  - exists (addr / p). lia.
  - lia.
  - intros m [q ->] Hle. trans (addr / p * p); [|lia].
    apply Z.mul_le_mono_nonneg_r; [lia|]. apply Z.div_le_lower_bound; lia.
Qed.

Lemma align_up_down_spec_witness :
  is_usize 4097 ∧ align_down 4097 (2 ^ 12) = 4096 ∧
  ∃ up, align_up (E := Error) 4097 (2 ^ 12) = Ok up ∧ 4097 ≤ up.
Proof.
  assert (H : is_usize 4097) by done.
  destruct (align_up_down_spec (E := Error) 4097 12 H ltac:(lia)) as (_ & Hup & _).
  split_and!; [done|done|].
  destruct (Hup ltac:(lia)) as (up & ? & _ & ? & _). by exists up.
Defined.
