(* ===== verification/Sv39.v ===== *)
(** * Sv39 addresses and page-table entries

    [kernel/src/arch/riscv/mmu/sv39/]: [virtual_address.rs],
    [physical_address.rs] and [page_table_entry.rs].  [VirtualAddress],
    [PhysicalAddress] and [PageTableEntry] wrap a [usize]; here they are the
    [Z] itself.  The flag type comes from the [bitflags] crate, whose
    operations are the class [Bitflags]. *)

From S2P Require Import Prelude Errors Addr.

(** ** The [bitflags] crate

    A flag set is its [bits()].  [contains] and [|] are the generated
    operations the kernel uses. *)

Class Bitflags := {
  bf_contains : Z → Z → bool;
  bf_bitor : Z → Z → Z;
}.

(** Their documented meaning. *)
Class BitflagsOk (BF : Bitflags) : Prop := {
  bf_contains_spec : ∀ a b, bf_contains a b = (Z.land a b =? b);
  bf_bitor_spec : ∀ a b, bf_bitor a b = Z.lor a b;
}.

(** [from_bits] of a flag type whose flags are [all]. *)
Class FromBits := { bf_from_bits : Z → Z → option Z }.
Class FromBitsOk (FB : FromBits) : Prop := {
  bf_from_bits_spec : ∀ all b, bf_from_bits all b = if Z.ldiff b all =? 0 then Some b else None;
}.

(** ** [VirtualAddress] *)

Abbreviation VA_BITS := 39.
Abbreviation VPN_MASK := 511.

(** The test of [from_raw] and of [from_raw_unchecked]'s [debug_assert!]. *)
Definition va_ok (addr : Z) : bool :=
  let sign := Z.land (Z.shiftr addr (VA_BITS - 1)) 1 in
  let upper := Z.shiftr addr VA_BITS in
  ((sign =? 0) && (upper =? 0)) || ((sign =? 1) && (upper =? 2 ^ 25 - 1)).

(** [VirtualAddress::from_raw]. *)
Definition va_from_raw (addr : Z) : option Z := if va_ok addr then Some addr else None.

(** [VirtualAddress::from_raw_unchecked], which [VirtAddr::into] calls. *)
Definition va_from_raw_unchecked {E} (addr : Z) : outcome E Z :=
  if va_ok addr then Ok addr else Panic.

Definition vpn_2 (va : Z) : Z := Z.land (Z.shiftr va 30) VPN_MASK.
Definition vpn_1 (va : Z) : Z := Z.land (Z.shiftr va 21) VPN_MASK.
Definition vpn_0 (va : Z) : Z := Z.land (Z.shiftr va 12) VPN_MASK.

(** ** [PhysicalAddress] *)

Abbreviation PA_BITS := 55.
Definition PA_MAX : Z := Z.shiftl 1 PA_BITS - 1.

Definition pa_from_raw (addr : Z) : option Z := if PA_MAX <? addr then None else Some addr.
Definition pa_from_raw_unchecked {E} (addr : Z) : outcome E Z :=
  if addr <=? PA_MAX then Ok addr else Panic.

Definition is_4k_page_aligned (pa : Z) : bool := Z.land pa (4 * 1024 - 1) =? 0.
Definition is_2m_page_aligned (pa : Z) : bool := Z.land pa (2 * 1024 * 1024 - 1) =? 0.
Definition is_1g_page_aligned (pa : Z) : bool := Z.land pa (1024 * 1024 * 1024 - 1) =? 0.

(** [PhysicalAddress::to_identical_va]. *)
Definition to_identical_va (pa : Z) : option Z := va_from_raw pa.

(** ** [PteFlags] and [PageTableEntry] *)

Definition PTE_V : Z := Z.shiftl 1 0.
Definition PTE_R : Z := Z.shiftl 1 1.
Definition PTE_W : Z := Z.shiftl 1 2.
Abbreviation PTE_X := (Z.shiftl 1 3).
Definition PTE_U : Z := Z.shiftl 1 4.
Abbreviation PTE_G := (Z.shiftl 1 5).
Definition PTE_A : Z := Z.shiftl 1 6.
Definition PTE_D : Z := Z.shiftl 1 7.
Definition PTE_RW : Z := Z.lor (Z.shiftl 1 2) (Z.shiftl 1 1).
Abbreviation PTE_RX := (Z.lor (Z.shiftl 1 3) (Z.shiftl 1 1)).
Definition PTE_RWX : Z := Z.lor (Z.lor (Z.shiftl 1 1) (Z.shiftl 1 2)) (Z.shiftl 1 3).

Definition OFFSET_PPN_0 : Z := 10.
Definition MASK_PPN : Z := Z.shiftl (Z.shiftl 1 44 - 1) OFFSET_PPN_0.

Definition empty : Z := 0.
Definition set_flags (pte flags : Z) : Z := Z.lor pte flags.
Definition unset_flags (pte flags : Z) : Z := Z.land pte (not_w 64 flags).
Definition new_valid : Z := set_flags empty PTE_V.

Definition is_writable (pte : Z) : bool := negb (Z.land pte PTE_W =? 0).
Definition is_user (pte : Z) : bool := negb (Z.land pte PTE_U =? 0).
Definition is_valid (pte : Z) : bool := Z.land pte PTE_V =? 1.
Definition is_leaf (pte : Z) : bool := is_valid pte && negb (Z.land pte PTE_RWX =? 0).

(** The argument of [from_raw_unchecked] in [physical_address]. *)
Definition ppn_address (pte : Z) : Z := Z.shiftl (Z.land pte MASK_PPN) 2.

(** [PageTableEntry::physical_address]. *)
Definition physical_address {E} (pte : Z) : outcome E Z :=
  pa_from_raw_unchecked (ppn_address pte).

(** The value [set_physical_address] stores. *)
Definition with_address (pte addr : Z) : Z :=
  Z.lor (Z.land (not_w 64 MASK_PPN) pte)
        (Z.land (Z.shiftl (Z.shiftr addr 12) OFFSET_PPN_0) MASK_PPN).

(** [PageTableEntry::set_physical_address]. *)
Definition set_physical_address {E} (pte addr : Z) : outcome E Z :=
  if is_4k_page_aligned addr then Ok (with_address pte addr) else Panic.

(** A physical address an entry can hold and give back. *)
Definition pa_ok (pa : Z) : Prop := 0 ≤ pa ≤ PA_MAX ∧ pa mod 4096 = 0.

(** ** Lemmas *)

(** A low mask is a remainder. *)
Lemma land_low_mask x k m : 0 ≤ k → m = 2 ^ k - 1 → Z.land x m = x mod 2 ^ k.
Proof.
  intros Hk ->. rewrite <-Z.land_ones by done. f_equal. rewrite Z.ones_equiv. lia.
Qed.

(** The canonical addresses are the two halves. *)
Lemma va_ok_spec a : is_u64 a → va_ok a = true ↔ a < 2 ^ 38 ∨ 2 ^ 64 - 2 ^ 38 ≤ a.
Proof.
  intros [H0 H1]. unfold va_ok.
  rewrite (land_low_mask _ 1 1), !Z.shiftr_div_pow2 by done.
  change (2 ^ (39 - 1)) with 274877906944. change (2 ^ 39) with 549755813888.
  change (2 ^ 64) with 18446744073709551616 in *. change (2 ^ 38) with 274877906944.
  change (2 ^ 1) with 2. change (2 ^ 25) with 33554432.
  rewrite orb_true_iff, !andb_true_iff, !Z.eqb_eq.
  Z.div_mod_to_equations; lia.
Qed.

Lemma vpn_div va : vpn_2 va = (va / 2 ^ 30) mod 512 ∧ vpn_1 va = (va / 2 ^ 21) mod 512
  ∧ vpn_0 va = (va / 2 ^ 12) mod 512.
Proof.
  unfold vpn_2, vpn_1, vpn_0.
  by rewrite !(land_low_mask _ 9 511), !Z.shiftr_div_pow2.
Qed.

Lemma vpn_range va : 0 ≤ vpn_2 va < 512 ∧ 0 ≤ vpn_1 va < 512 ∧ 0 ≤ vpn_0 va < 512.
Proof. destruct (vpn_div va) as (-> & -> & ->). by split_and!; apply Z.mod_pos_bound. Qed.

(** Canonical addresses with the same three indices are on the same page. *)
Lemma vpn_same_page a b : is_u64 a → is_u64 b → va_ok a = true → va_ok b = true →
  vpn_2 a = vpn_2 b → vpn_1 a = vpn_1 b → vpn_0 a = vpn_0 b → a / 4096 = b / 4096.
Proof.
  intros Ha Hb. rewrite !va_ok_spec by done.
  destruct (vpn_div a) as (-> & -> & ->), (vpn_div b) as (-> & -> & ->).
  destruct Ha, Hb. change (2 ^ 30) with 1073741824. change (2 ^ 21) with 2097152.
  change (2 ^ 12) with 4096. change (2 ^ 38) with 274877906944.
  change (2 ^ 64) with 18446744073709551616 in *.
  Z.div_mod_to_equations; lia.
Qed.

Lemma testbit_not_w w x i : 0 ≤ w → 0 ≤ i →
  Z.testbit (not_w w x) i = (i <? w) && negb (Z.testbit x i).
Proof. intros. unfold not_w. by autorewrite with bits. Qed.
#[export] Hint Rewrite testbit_not_w using lia : bits.

Lemma testbit_MASK_PPN i : 0 ≤ i → Z.testbit MASK_PPN i = (10 <=? i) && (i <? 54).
Proof.
  intros Hi. unfold MASK_PPN, OFFSET_PPN_0. change (Z.shiftl 1 44 - 1) with (Z.ones 44).
  rewrite Z.shiftl_spec by done. destruct (Z.leb_spec 10 i); simpl.
  - rewrite Z.testbit_ones_nonneg by lia.
    destruct (Z.ltb_spec (i - 10) 44), (Z.ltb_spec i 54); (done || lia).
  - by rewrite Z.testbit_neg_r by lia.
Qed.
#[export] Hint Rewrite testbit_MASK_PPN using lia : bits.

(** [x & (1 << k) == 0] tests bit [k]. *)
Lemma land_bit_eqb x k : 0 ≤ k → (Z.land x (Z.shiftl 1 k) =? 0) = negb (Z.testbit x k).
Proof.
  intros Hk. destruct (Z.testbit x k) eqn:Hb; simpl; [apply Z.eqb_neq|apply Z.eqb_eq].
  - intros H0. assert (H := Z.bits_0 k). rewrite <-H0 in H.
    autorewrite with bits in H. by rewrite Hb, Z.eqb_refl in H.
  - apply Z.bits_inj'. intros i Hi. autorewrite with bits.
    destruct (Z.eqb_spec k i) as [->|]; by rewrite ?Hb, ?andb_false_r.
Qed.

Lemma is_writable_bit pte : is_writable pte = Z.testbit pte 2.
Proof. unfold is_writable, PTE_W. by rewrite land_bit_eqb, negb_involutive. Qed.
Lemma is_user_bit pte : is_user pte = Z.testbit pte 4.
Proof. unfold is_user, PTE_U. by rewrite land_bit_eqb, negb_involutive. Qed.
Lemma is_valid_bit pte : is_valid pte = Z.testbit pte 0.
Proof.
  unfold is_valid. change PTE_V with 1. rewrite (land_low_mask _ 1 1) by done.
  change (2 ^ 1) with 2. by rewrite Zmod_odd, Z.bit0_odd; destruct (Z.odd pte).
Qed.
Lemma is_leaf_bits pte :
  is_leaf pte = Z.testbit pte 0 && (Z.testbit pte 1 || Z.testbit pte 2 || Z.testbit pte 3).
Proof.
  unfold is_leaf. rewrite is_valid_bit. f_equal.
  unfold PTE_RWX. rewrite !Z.land_lor_distr_r.
  apply Bool.eq_true_iff_eq. rewrite negb_true_iff, Z.eqb_neq, !Z.lor_eq_0_iff.
  rewrite <-!Z.eqb_eq, !land_bit_eqb by done.
  destruct (Z.testbit pte 1), (Z.testbit pte 2), (Z.testbit pte 3); simpl; naive_solver.
Qed.

(** A [PageTableEntry] is determined by its flag bits and its address bits. *)
Lemma testbit_ppn_address pte i : 0 ≤ i →
  Z.testbit (ppn_address pte) i = (12 <=? i) && (i <? 56) && Z.testbit pte (i - 2).
Proof.
  intros Hi. unfold ppn_address. rewrite Z.shiftl_spec by done.
  destruct (Z.leb_spec 2 i).
  - autorewrite with bits.
    destruct (Z.leb_spec 12 i), (Z.leb_spec 10 (i - 2)), (Z.ltb_spec i 56),
      (Z.ltb_spec (i - 2) 54); simpl; try lia; by rewrite ?andb_true_r, ?andb_false_r.
  - rewrite Z.testbit_neg_r by lia. by destruct (Z.leb_spec 12 i); [lia|].
Qed.

Lemma testbit_with_address pte addr i : 0 ≤ i → is_u64 pte →
  Z.testbit (with_address pte addr) i =
    if (10 <=? i) && (i <? 54) then Z.testbit addr (i + 2) else Z.testbit pte i.
Proof.
  intros Hi Hp. unfold with_address, OFFSET_PPN_0. autorewrite with bits.
  destruct (Z.leb_spec 10 i), (Z.ltb_spec i 54); simpl; rewrite ?andb_false_r, ?andb_true_r;
    simpl; rewrite ?orb_false_r; try by destruct (Z.ltb_spec i 64);
    rewrite ?(testbit_high 64 pte) by (done || lia).
  rewrite Z.shiftr_spec by lia. f_equal. lia.
Qed.

Lemma ppn_with_address pte addr : is_u64 pte → 0 ≤ addr < 2 ^ 56 → addr mod 4096 = 0 →
  ppn_address (with_address pte addr) = addr.
Proof.
  intros Hp Ha Hm. apply Z.bits_inj'. intros i Hi.
  rewrite testbit_ppn_address by done.
  destruct (Z.leb_spec 12 i), (Z.ltb_spec i 56); simpl.
  - rewrite testbit_with_address by (done || lia).
    destruct (Z.leb_spec 10 (i - 2)), (Z.ltb_spec (i - 2) 54); simpl; try lia.
    f_equal. lia.
  - by rewrite (testbit_high 56) by (done || lia).
  - rewrite <-(Z.mod_pow2_bits_low addr 12) by lia. change (2 ^ 12) with 4096.
    by rewrite Hm, Z.testbit_0_l.
  - lia.
Qed.

Lemma with_address_flag pte addr i : is_u64 pte → 0 ≤ i < 10 →
  Z.testbit (with_address pte addr) i = Z.testbit pte i.
Proof.
  intros. rewrite testbit_with_address by (done || lia).
  by destruct (Z.leb_spec 10 i); [lia|].
Qed.

Lemma ppn_address_ext p q :
  (∀ i, 10 ≤ i < 54 → Z.testbit p i = Z.testbit q i) → ppn_address p = ppn_address q.
Proof.
  intros H. apply Z.bits_inj'. intros i Hi. rewrite !testbit_ppn_address by done.
  destruct (Z.leb_spec 12 i), (Z.ltb_spec i 56); simpl; [|done..]. apply H. lia.
Qed.

Lemma ppn_set_flags pte flags : 0 ≤ flags < 1024 →
  ppn_address (set_flags pte flags) = ppn_address pte.
Proof.
  intros Hf. apply ppn_address_ext. intros i Hi. unfold set_flags. autorewrite with bits.
  by rewrite (testbit_high 10 flags), orb_false_r by (done || lia).
Qed.

Lemma ppn_unset_flags pte flags : is_u64 pte → 0 ≤ flags < 1024 →
  ppn_address (unset_flags pte flags) = ppn_address pte.
Proof.
  intros Hp Hf. apply ppn_address_ext. intros i Hi. unfold unset_flags.
  autorewrite with bits. rewrite (testbit_high 10 flags) by (done || lia).
  by destruct (Z.ltb_spec i 64); [rewrite andb_true_r|lia].
Qed.

Lemma ppn_address_range pte : 0 ≤ ppn_address pte < 2 ^ 56.
Proof.
  apply in_width_bits; [done| |].
  - unfold ppn_address. apply Z.shiftl_nonneg, Z.land_nonneg. by right.
  - intros i Hi. rewrite testbit_ppn_address by lia.
    destruct (Z.ltb_spec i 56); [lia|]. by rewrite andb_false_r.
Qed.

Lemma ppn_address_aligned pte : ppn_address pte mod 4096 = 0.
Proof.
  change 4096 with (2 ^ 12). apply Z.bits_inj'. intros i Hi. rewrite Z.testbit_0_l.
  destruct (Z.lt_ge_cases i 12).
  - rewrite Z.mod_pow2_bits_low, testbit_ppn_address by lia.
    by destruct (Z.leb_spec 12 i); [lia|].
  - apply Z.mod_pow2_bits_high. lia.
Qed.

Lemma is_4k_page_aligned_spec pa : is_4k_page_aligned pa = (pa mod 4096 =? 0).
Proof. unfold is_4k_page_aligned. by rewrite (land_low_mask _ 12). Qed.

Lemma is_u64_set_flags pte flags : is_u64 pte → 0 ≤ flags < 1024 → is_u64 (set_flags pte flags).
Proof.
  intros Hp Hf. apply in_width_bits; [done| |].
  - apply Z.lor_nonneg. split; [apply Hp|apply Hf].
  - intros i Hi. unfold set_flags. autorewrite with bits.
    by rewrite (testbit_high 64 pte), (testbit_high 10 flags) by (done || lia).
Qed.

Lemma is_u64_unset_flags pte flags : is_u64 pte → is_u64 (unset_flags pte flags).
Proof. by apply in_width_land_l. Qed.

Lemma is_u64_with_address pte addr : is_u64 pte → is_u64 (with_address pte addr).
Proof.
  intros Hp. apply in_width_bits; [done| |].
  - unfold with_address. apply Z.lor_nonneg. split; apply Z.land_nonneg; right;
      [apply Hp|done].
  - intros i Hi. rewrite testbit_with_address by (done || lia).
    destruct (Z.ltb_spec i 54); [lia|]. rewrite andb_false_r. by apply (testbit_high 64).
Qed.
#[export] Hint Resolve is_u64_set_flags is_u64_unset_flags is_u64_with_address : core.

Lemma set_physical_address_ok {E} pte pa : pa mod 4096 = 0 →
  set_physical_address (E := E) pte pa = Ok (with_address pte pa).
Proof. intros H. unfold set_physical_address. by rewrite is_4k_page_aligned_spec, H. Qed.

Lemma physical_address_ok {E} pte : ppn_address pte ≤ PA_MAX →
  physical_address (E := E) pte = Ok (ppn_address pte).
Proof.
  intros H. unfold physical_address, pa_from_raw_unchecked. by rewrite (proj2 (Z.leb_le _ _) H).
Qed.

(** The bits of the flag operations. *)
Lemma testbit_unset_W pte i : is_u64 pte → 0 ≤ i →
  Z.testbit (unset_flags pte PTE_W) i = Z.testbit pte i && negb (i =? 2).
Proof.
  intros Hp Hi. unfold unset_flags, PTE_W. autorewrite with bits. rewrite (Z.eqb_sym 2 i).
  destruct (Z.ltb_spec i 64); [done|]. by rewrite (testbit_high 64 pte) by done.
Qed.

Lemma testbit_new_valid i : 0 ≤ i → Z.testbit new_valid i = (0 =? i).
Proof. intros Hi. unfold new_valid, set_flags, empty, PTE_V. by autorewrite with bits. Qed.

(** [set_physical_address] and [set_flags] write the two halves of an entry
    independently: the address that is stored is the address
    [physical_address] gives back, whatever flags are added or removed around
    it, and the flags are untouched by the address.  The address comes back
    up to [PhysicalAddress::MAX], 2^55 - 1; the upper half of the 56-bit
    addresses that the 44-bit PPN can hold is stored, and trips
    [from_raw_unchecked]'s assertion when read. *)
Theorem pte_roundtrip {E} pte pa flags :
  is_u64 pte → 0 ≤ flags < 1024 → 0 ≤ pa < 2 ^ 56 → pa mod 4096 = 0 →
  ∃ pte', set_physical_address (E := E) pte pa = Ok pte' ∧ is_u64 pte' ∧
    (∀ i, 0 ≤ i < 10 → Z.testbit pte' i = Z.testbit pte i) ∧
    (is_valid pte', is_leaf pte', is_user pte', is_writable pte') =
      (is_valid pte, is_leaf pte, is_user pte, is_writable pte) ∧
    (∀ q, q ∈ [pte'; set_flags pte' flags; unset_flags pte' flags] →
       physical_address (E := E) q = if pa <=? 2 ^ 55 - 1 then Ok pa else Panic).
Proof.
  intros Hp Hf Ha Hm. exists (with_address pte pa).
  assert (Hfl := λ i, with_address_flag pte pa i Hp).
  split_and!; auto using set_physical_address_ok.
  - rewrite !is_leaf_bits, !is_valid_bit, !is_user_bit, !is_writable_bit.
    by rewrite !Hfl.
  - intros q Hq. unfold physical_address, pa_from_raw_unchecked. change PA_MAX with (2 ^ 55 - 1).
    assert (ppn_address q = pa) as ->; [|done].
    repeat (apply elem_of_cons in Hq as [->|Hq]); [| | |by apply elem_of_nil in Hq];
      rewrite ?ppn_set_flags, ?ppn_unset_flags by auto; by apply ppn_with_address.
Qed.

Lemma pte_roundtrip_witness :
  ∃ pte', set_physical_address (E := Error) new_valid 0x80201000 = Ok pte' ∧
    physical_address (E := Error) (set_flags pte' PTE_RW) = Ok 0x80201000.
Proof.
  destruct (pte_roundtrip (E := Error) new_valid 0x80201000 PTE_RW) as (p & H & _ & _ & _ & Hq);
    [done..|].
  exists p. split; [done|]. apply (Hq (set_flags p PTE_RW)). set_solver.
Defined.

(** The operations of the crate as it documents them. *)
#[export] Instance bitflags_model : Bitflags :=
  {| bf_contains := λ a b, Z.land a b =? b; bf_bitor := Z.lor |}.
#[export] Instance from_bits_model : FromBits :=
  { bf_from_bits all b := if Z.ldiff b all =? 0 then Some b else None }.
#[export] Instance from_bits_model_ok : FromBitsOk from_bits_model.
Proof. by split. Qed.
#[export] Instance bitflags_model_ok : BitflagsOk bitflags_model.
Proof. by split. Qed.
