(* ===== verification/PageMeta.v ===== *)
(** * Page metadata

    [kernel/src/mm/page.rs]: the number of address spaces that map a user
    page.  The table is behind one lock, so an operation is one step. *)

From S2P Require Import Prelude Errors.

(** [PageMetadataTable]: the counts are [u16]s. *)
Abbreviation PageMetadataTable := (gmap Z Z).

(** [page::add]: [fetch_add] wraps. *)
Definition add (addr : Z) (table : PageMetadataTable) : PageMetadataTable :=
  match table !! addr with
  | None => <[addr := 1]> table
  | Some refcount => <[addr := (refcount + 1) mod 2 ^ 16]> table
  end.

(** [page::remove]: [fetch_sub] has already wrapped when the checked [- 1]
    panics on a count of zero. *)
Definition remove (addr : Z) : M PageMetadataTable Error Z := fun table =>
  match table !! addr with
  | None => (Err NotFound, table)
  | Some refcount =>
      match checked_sub refcount 1 with
      | None => (Panic, <[addr := 2 ^ 16 - 1]> table)
      | Some new_refcount =>
          (Ok new_refcount,
           if new_refcount =? 0 then delete addr table else <[addr := new_refcount]> table)
      end
  end.

(** The number of references: a page without an entry has none. *)
Definition refs (table : PageMetadataTable) (addr : Z) : Z := default 0 (table !! addr).

(** Every entry counts at least one reference. *)
Definition wf (table : PageMetadataTable) : Prop :=
  map_Forall (λ _ c, 1 ≤ c < 2 ^ 16) table.

Lemma wf_empty : wf ∅.
Proof. by apply map_Forall_empty. Qed.

Lemma refs_range table addr : wf table → 0 ≤ refs table addr < 2 ^ 16.
Proof.
  intros Hwf. unfold refs. destruct (table !! addr) as [c|] eqn:Hc; simpl; [|lia].
  specialize (Hwf _ _ Hc). simpl in *. lia.
Qed.

Lemma refs_add table addr a : wf table → refs table addr < 2 ^ 16 - 1 →
  wf (add addr table) ∧
  refs (add addr table) a = if decide (a = addr) then refs table a + 1 else refs table a.
Proof.
  intros Hwf Hlt. unfold add, refs in *. destruct (table !! addr) as [c|] eqn:Hc; simpl in *.
  - pose proof (Hwf _ _ Hc) as Hr. simpl in Hr. rewrite Z.mod_small by lia. split.
    + apply map_Forall_insert_2; [lia|done].
    + destruct (decide (a = addr)) as [->|].
      * by rewrite lookup_insert_eq, Hc.
      * by rewrite lookup_insert_ne.
  - split.
    + apply map_Forall_insert_2; [lia|done].
    + destruct (decide (a = addr)) as [->|].
      * by rewrite lookup_insert_eq, Hc.
      * by rewrite lookup_insert_ne.
Qed.

Lemma refs_remove table addr : wf table → 0 < refs table addr →
  ∃ t', remove addr table = (Ok (refs table addr - 1), t') ∧ wf t' ∧
    ∀ a, refs t' a = if decide (a = addr) then refs table a - 1 else refs table a.
Proof.
  intros Hwf Hlt. unfold remove, refs in *. destruct (table !! addr) as [c|] eqn:Hc;
    simpl in *; [|lia].
  pose proof (Hwf _ _ Hc) as Hr. simpl in Hr.
  unfold checked_sub. rewrite (proj2 (Z.leb_le 1 c)) by lia. eexists. split; [done|].
  destruct (Z.eqb_spec (c - 1) 0); (split; [|intros a; destruct (decide (a = addr)) as [->|]]).
  - by apply map_Forall_delete.
  - rewrite lookup_delete_eq, Hc. simpl. lia.
  - by rewrite lookup_delete_ne.
  - apply map_Forall_insert_2; [lia|done].
  - by rewrite lookup_insert_eq, Hc.
  - by rewrite lookup_insert_ne.
Qed.
