(* ===== verification/PageTable.v ===== *)
(** * Sv39 page tables

    [kernel/src/arch/riscv/mmu/sv39/page_table.rs], with the frame allocator
    and the page metadata it calls.

    Physical memory is a map from frame addresses to their 512 words.  The code
    reaches a table through the pointer [pa + base], where [base] is 0 before
    paging is on and the direct mapping afterwards; here a table pointer is the
    frame's [pa], and the addition is kept for its overflow check.  An entry
    pointer is a table and an index. *)

From S2P Require Import Prelude Errors Addr Sv39 FrameAllocator PageMeta.

(** ** State *)

Record Kmem := mkKmem {
  fa : FrameAllocator.FrameAllocator;
  mem : gmap Z (list Z);
  meta : gmap Z Z;
}.

Abbreviation KM := (M Kmem Error).

Definition set_fa (f : FrameAllocator.FrameAllocator) (s : Kmem) : Kmem :=
  mkKmem f (mem s) (meta s).
Definition set_mem (m : gmap Z (list Z)) (s : Kmem) : Kmem := mkKmem (fa s) m (meta s).
Definition set_meta (t : gmap Z Z) (s : Kmem) : Kmem := mkKmem (fa s) (mem s) t.

Definition empty_table : list Z := replicate 512 Sv39.empty.

(** The words of a frame; memory that was never written reads as zeros. *)
Definition frame (m : gmap Z (list Z)) (pa : Z) : list Z := default empty_table (m !! pa).

Definition entry (m : gmap Z (list Z)) (t i : Z) : Z := frame m t !!! Z.to_nat i.

Definition upd (t i e : Z) (m : gmap Z (list Z)) : gmap Z (list Z) :=
  <[t := <[Z.to_nat i := e]> (frame m t)]> m.

(** ** The global functions of [mm] *)

Definition alloc_frame : KM Z := zoom fa set_fa FrameAllocator.alloc.
Definition free_frame (pa : Z) : KM unit := zoom fa set_fa (FrameAllocator.free pa).
Definition page_add (pa : Z) : KM unit := modify (λ s, set_meta (PageMeta.add pa (meta s)) s).
Definition page_remove (pa : Z) : KM Z := zoom meta set_meta (PageMeta.remove pa).

Definition get_entry (t i : Z) : KM Z := gets (λ s, entry (mem s) t i).
Definition set_entry (t i e : Z) : KM unit := modify (λ s, set_mem (upd t i e (mem s)) s).
Definition write_frame (pa : Z) (ws : list Z) : KM unit :=
  modify (λ s, set_mem (<[pa := ws]> (mem s)) s).

(** [copy_nonoverlapping] of one frame. *)
Definition copy_frame (src dst : Z) : KM unit :=
  modify (λ s, set_mem (<[dst := frame (mem s) src]> (mem s)) s).

(** ** Mapping *)

Inductive PageSize := Size4K | Size2M | Size1G.
#[export] Instance PageSize_eq_dec : EqDecision PageSize.
Proof. solve_decision. Defined.

(** [PageSize::bytes]. *)
Definition bytes (ps : PageSize) : Z :=
  match ps with
  | Size4K => 4 * 1024
  | Size2M => 2 * 1024 * 1024
  | Size1G => 1024 * 1024 * 1024
  end.

Definition check_mapping_alignment (va : Z) (pa : option Z) (ps : PageSize) : KM unit :=
  let is_page_aligned :=
    match ps with
    | Size4K => is_4k_page_aligned
    | Size2M => is_2m_page_aligned
    | Size1G => is_1g_page_aligned
    end in
  assert (Z.land va (bytes ps - 1) =? 0) ;;;
  match pa with Some pa => assert (is_page_aligned pa) | None => ret tt end.

Section page_table.
Context `{BF : Bitflags}.

Definition map_leaf (t i : Z) (pa : option Z) (flags : Z) : KM unit :=
  let! pte := get_entry t i in
  (if is_valid pte && negb (is_leaf pte) then panic else ret tt) ;;;
  (if is_valid pte then ret tt else
     match pa with
     | Some pa => let! pte' := lift (set_physical_address pte pa) in set_entry t i pte'
     | None => panic
     end) ;;;
  let! pte := get_entry t i in
  set_entry t i (set_flags pte (bf_bitor (bf_bitor (bf_bitor flags PTE_V) PTE_A) PTE_D)).

Definition get_or_create_next_table (t i base : Z) : KM Z :=
  let! pte := get_entry t i in
  if is_valid pte then
    if is_leaf pte then panic else
    let! pa := lift (physical_address pte) in
    let! ptr := lift (add_ov 64 pa base) in
    ret pa
  else
    let! pa := unwrapped alloc_frame in
    let! raw := lift (add_ov 64 pa base) in
    let! va := lift (unwrap (va_from_raw raw)) in
    write_frame pa empty_table ;;;
    let! pa' := lift (pa_from_raw_unchecked pa) in
    let! pte' := lift (set_physical_address new_valid pa') in
    set_entry t i pte' ;;;
    ret pa.

Definition map_memory_with_base (root va : Z) (pa : option Z) (flags base : Z)
    (ps : PageSize) : KM unit :=
  check_mapping_alignment va pa ps ;;;
  match ps with
  | Size1G => map_leaf root (vpn_2 va) pa flags
  | _ =>
      let! l1 := get_or_create_next_table root (vpn_2 va) base in
      match ps with
      | Size2M => map_leaf l1 (vpn_1 va) pa flags
      | _ =>
          let! l0 := get_or_create_next_table l1 (vpn_1 va) base in
          map_leaf l0 (vpn_0 va) pa flags
      end
  end.

(** [map_vm_early*] before paging is on, [map_vm*] afterwards. *)
Definition map_vm_early (root va pa flags : Z) : KM unit :=
  map_memory_with_base root va (Some pa) flags 0 Size4K.
Definition map_vm_early_2m (root va pa flags : Z) : KM unit :=
  map_memory_with_base root va (Some pa) flags 0 Size2M.
Definition map_vm_early_1g (root va pa flags : Z) : KM unit :=
  map_memory_with_base root va (Some pa) flags 0 Size1G.
Definition map_vm_with_page_size (root va pa flags : Z) (ps : PageSize) : KM unit :=
  map_memory_with_base root va (Some pa) flags KERNEL_DIRECT_MAPPING_BASE ps.
Definition map_vm (root va pa flags : Z) : KM unit :=
  map_vm_with_page_size root va pa flags Size4K.
Definition map_vm_2m (root va pa flags : Z) : KM unit :=
  map_memory_with_base root va (Some pa) flags KERNEL_DIRECT_MAPPING_BASE Size2M.
Definition map_vm_1g (root va pa flags : Z) : KM unit :=
  map_memory_with_base root va (Some pa) flags KERNEL_DIRECT_MAPPING_BASE Size1G.

Definition remap_memory_with_base (root va flags base : Z) : KM unit :=
  let! l2_entry := get_entry root (vpn_2 va) in
  if negb (is_valid l2_entry) then panic else
  if is_leaf l2_entry then map_leaf root (vpn_2 va) None flags else
  let! l1 := lift (physical_address l2_entry) in
  let! ptr1 := lift (add_ov 64 l1 base) in
  let! l1_entry := get_entry l1 (vpn_1 va) in
  if negb (is_valid l1_entry) then panic else
  if is_leaf l1_entry then map_leaf l1 (vpn_1 va) None flags else
  let! l0 := lift (physical_address l1_entry) in
  let! ptr0 := lift (add_ov 64 l0 base) in
  let! l0_entry := get_entry l0 (vpn_0 va) in
  if negb (is_valid l0_entry) || negb (is_leaf l0_entry) then panic else
  map_leaf l0 (vpn_0 va) None flags.

Definition remap_vm (root va flags : Z) : KM unit :=
  remap_memory_with_base root va flags KERNEL_DIRECT_MAPPING_BASE.
End page_table.

(** ** Translation *)

(** The loop of [translate_to_pte_ptr] over the remaining levels. *)
Fixpoint translate_levels (m : gmap Z (list Z)) (t : Z) (levels : list (Z * PageSize))
    : outcome Error (option (Z * Z * PageSize)) :=
  match levels with
  | [] => Ok None
  | (index, ps) :: levels' =>
      let pte := entry m t index in
      if negb (is_valid pte) then Ok None else
      if is_leaf pte then Ok (Some (t, index, ps)) else
      let? pa := physical_address pte in
      let? ptr := add_ov 64 pa KERNEL_DIRECT_MAPPING_BASE in
      translate_levels m pa levels'
  end.

Definition translate_to_pte_ptr (m : gmap Z (list Z)) (root va : Z)
    : outcome Error (option (Z * Z * PageSize)) :=
  translate_levels m root [(vpn_2 va, Size1G); (vpn_1 va, Size2M); (vpn_0 va, Size4K)].

Definition translated_physical_address (pte : Z) (ps : PageSize) (va : Z) : outcome Error Z :=
  let? pa := physical_address pte in
  let? raw := add_ov 64 pa (Z.land va (bytes ps - 1)) in
  pa_from_raw_unchecked raw.

(** [PageTable::translate]. *)
Definition translate (m : gmap Z (list Z)) (root va : Z) : outcome Error (option Z) :=
  let? r := translate_to_pte_ptr m root va in
  match r with
  | None => Ok None
  | Some (t, i, ps) =>
      let? pa := translated_physical_address (entry m t i) ps va in
      Ok (Some pa)
  end.

(** ** Freeing, forking and copy-on-write

    [traverse_free] and [fork] recurse from a table to the tables it points to.
    [fuel] bounds the depth: three levels, so 3 for the root. *)

(** The body of [traverse_free]'s loop over a copy of the table. *)
Definition traverse_free_entry (traverse_free : Z → KM unit) (pte : Z) : KM unit :=
  if negb (is_valid pte) || is_leaf pte then ret tt else
  let! child := lift (physical_address pte) in
  traverse_free child.

(** [traverse_free], with the allocator's function that it calls. *)
Fixpoint traverse_free_with (free : Z → KM unit) (fuel : nat) (root_pt : Z) : KM unit :=
  match fuel with
  | O => diverge
  | S fuel' =>
      let! root := lift (phys_to_virt root_pt) in
      let! ptes := gets (λ s, frame (mem s) root_pt) in
      for_each (traverse_free_entry (traverse_free_with free fuel')) ptes ;;;
      free root_pt
  end.
Definition traverse_free : nat → Z → KM unit := traverse_free_with free_frame.

(** The body of [fork]'s loop over the entries of the two tables. *)
Definition fork_entry (fork : Z → KM Z) (root_pt copy_pa i : Z) : KM unit :=
  let! parent_pte := get_entry root_pt i in
  if negb (is_valid parent_pte) then ret tt else
  if is_leaf parent_pte then
    if is_user parent_pte then
      let! pa := lift (physical_address parent_pte) in
      page_add pa ;;;
      if is_writable parent_pte then
        set_entry root_pt i (unset_flags parent_pte PTE_W) ;;;
        let! child_pte := get_entry copy_pa i in
        set_entry copy_pa i (unset_flags child_pte PTE_W)
      else ret tt
    else ret tt
  else
    let! child := lift (physical_address parent_pte) in
    let! pa := fork child in
    let! child_pte := get_entry copy_pa i in
    let! pte := lift (set_physical_address child_pte pa) in
    set_entry copy_pa i pte.

Fixpoint fork (fuel : nat) (root_pt : Z) : KM Z :=
  match fuel with
  | O => diverge
  | S fuel' =>
      let! root_ptr := lift (phys_to_virt root_pt) in
      let! copy_pa := unwrapped alloc_frame in
      let! copy_ptr := lift (phys_to_virt copy_pa) in
      copy_frame root_pt copy_pa ;;;
      for_each (fork_entry (fork fuel') root_pt copy_pa) (seqZ 0 512) ;;;
      lift (pa_from_raw_unchecked copy_pa)
  end.

Definition copy_on_write (root_pt addr : Z) : KM unit :=
  let! root := lift (phys_to_virt root_pt) in
  let! m := gets mem in
  let! found := lift (translate_to_pte_ptr m root_pt addr) in
  let! (t, i, page_size) := lift (unwrap found) in
  (if decide (page_size = Size4K) then ret tt else panic) ;;;
  let! pte := get_entry t i in
  let! old_pa := lift (physical_address pte) in
  let! new_pa := unwrapped alloc_frame in
  let! src := lift (phys_to_virt old_pa) in
  let! dst := lift (phys_to_virt new_pa) in
  copy_frame old_pa new_pa ;;;
  page_add new_pa ;;;
  let! pte := get_entry t i in
  let! pa := lift (pa_from_raw_unchecked new_pa) in
  let! pte' := lift (set_physical_address pte pa) in
  set_entry t i (set_flags pte' PTE_W) ;;;
  let! count := unwrapped (page_remove old_pa) in
  if count =? 0 then free_frame old_pa else ret tt.

(** ** Well-formed tables *)

(** A valid entry that points to a table of the next level. *)
Definition is_table (e : Z) : bool := is_valid e && negb (is_leaf e).

(** A frame the kernel reaches through its direct mapping. *)
Definition table_ok (pa : Z) : Prop :=
  0 ≤ pa ∧ pa mod 4096 = 0 ∧ pa + KERNEL_DIRECT_MAPPING_BASE < 2 ^ 64.

(** An entry: zero until it is made valid, and a leaf's whole page is
    addressable. *)
Definition entry_ok (e : Z) : Prop :=
  is_u64 e ∧ (is_valid e = false → e = 0) ∧
  (is_leaf e = true → ppn_address e + 2 ^ 30 ≤ 2 ^ 55).

(** Table [t] and what it points to, [n] levels deep; the last level has only
    leaves. *)
Fixpoint shape (n : nat) (m : gmap Z (list Z)) (t : Z) : Prop :=
  match n with
  | O => False
  | S n' =>
      table_ok t ∧ length (frame m t) = 512%nat ∧
      Forall (λ e, entry_ok e ∧ (is_table e = true → shape n' m (ppn_address e))) (frame m t)
  end.

(** The frames of the tables from [t], in the order of a traversal. *)
Fixpoint tables (n : nat) (m : gmap Z (list Z)) (t : Z) : list Z :=
  match n with
  | O => []
  | S n' =>
      t :: (frame m t ≫= λ e, if is_table e then tables n' m (ppn_address e) else [])
  end.

(** What the tables from [t] give for a list of indices: the leaf entry, and the
    number of levels below it. *)
Fixpoint walk (m : gmap Z (list Z)) (t : Z) (path : list Z) : option (Z * nat) :=
  match path with
  | [] => None
  | i :: path' =>
      let e := entry m t i in
      if is_table e then walk m (ppn_address e) path'
      else if is_valid e then Some (e, length path') else None
  end.

(** A three-level table that shares no table with itself. *)
Definition wf (m : gmap Z (list Z)) (root : Z) : Prop :=
  shape 3 m root ∧ NoDup (tables 3 m root).

(** The allocator manages frames that the direct mapping reaches. *)
Record kwf (s : Kmem) : Prop := {
  kwf_fa : FrameAllocator.wf (fa s);
  kwf_aligned : start_addr (fa s) mod 4096 = 0;
  kwf_top : start_addr (fa s) + capacity (fa s) * 4096 + KERNEL_DIRECT_MAPPING_BASE ≤ 2 ^ 64;
}.

(** The tables from [t] are in frames that have been allocated. *)
Definition owned (n : nat) (s : Kmem) (t : Z) : Prop :=
  ∀ x, x ∈ tables n (mem s) t → held (fa s) x.

(** ** Lemmas: frames and entries *)

Lemma frame_insert m t ws : frame (<[t := ws]> m) t = ws.
Proof. unfold frame. by rewrite lookup_insert_eq. Qed.

Lemma frame_insert_ne m t ws x : x ≠ t → frame (<[t := ws]> m) x = frame m x.
Proof. intros. unfold frame. by rewrite lookup_insert_ne by done. Qed.

Lemma frame_upd m t i e : frame (upd t i e m) t = <[Z.to_nat i := e]> (frame m t).
Proof. apply frame_insert. Qed.

Lemma frame_upd_ne m t i e x : x ≠ t → frame (upd t i e m) x = frame m x.
Proof. apply frame_insert_ne. Qed.

Lemma entry_upd m t i e : length (frame m t) = 512%nat → 0 ≤ i < 512 →
  entry (upd t i e m) t i = e.
Proof.
  intros Hl Hi. unfold entry. rewrite frame_upd, list_lookup_total_insert_eq; [done|lia].
Qed.

Lemma entry_upd_ne m t i e j : 0 ≤ i → 0 ≤ j → i ≠ j →
  entry (upd t i e m) t j = entry m t j.
Proof.
  intros. unfold entry. rewrite frame_upd, list_lookup_total_insert_ne; [done|lia].
Qed.

Lemma is_table_valid e : is_table e = true → is_valid e = true ∧ is_leaf e = false.
Proof. unfold is_table. rewrite andb_true_iff, negb_true_iff. done. Qed.

Lemma not_table e : is_table e = false → is_valid e = is_leaf e.
Proof.
  unfold is_table, is_leaf. destruct (is_valid e); simpl; [|done].
  by destruct (Z.land e PTE_RWX =? 0).
Qed.

Lemma frame_split m t i : length (frame m t) = 512%nat → 0 ≤ i < 512 →
  frame m t = take (Z.to_nat i) (frame m t) ++ entry m t i :: drop (S (Z.to_nat i)) (frame m t).
Proof.
  intros Hl Hi. unfold entry. symmetry. apply take_drop_middle.
  apply list_lookup_lookup_total_lt. lia.
Qed.

(** ** Lemmas: the tables below an entry *)

(** The tables below one entry. *)
Definition below (n : nat) (m : gmap Z (list Z)) (e : Z) : list Z :=
  if is_table e then tables n m (ppn_address e) else [].

Lemma tables_S n m t : tables (S n) m t = t :: (frame m t ≫= below n m).
Proof. done. Qed.

Lemma shape_entry n m t i : shape (S n) m t → 0 ≤ i < 512 →
  entry_ok (entry m t i) ∧
  (is_table (entry m t i) = true → shape n m (ppn_address (entry m t i))).
Proof.
  intros (_ & Hl & Hf) Hi. rewrite Forall_lookup_total in Hf. apply (Hf (Z.to_nat i)). lia.
Qed.

Lemma shape_table_ok n m t : shape n m t → table_ok t.
Proof. destruct n; [done|]. by intros [? _]. Qed.

Lemma below_in_tables n m t i x : shape (S n) m t → 0 ≤ i < 512 →
  x ∈ below n m (entry m t i) → x ∈ tables (S n) m t.
Proof.
  intros Hs Hi Hx. rewrite tables_S. right. apply list_elem_of_bind.
  exists (entry m t i). split; [done|]. destruct Hs as (_ & Hl & _).
  rewrite (frame_split m t i Hl Hi). set_solver.
Qed.

(** Memory that agrees on the tables of [t] has the same tables from [t]. *)
Lemma tables_frame n : ∀ m m' t, (∀ x, x ∈ tables n m t → frame m' x = frame m x) →
  tables n m' t = tables n m t.
Proof.
  induction n as [|n IH]; intros m m' t Hag; [done|]. rewrite !tables_S in *.
  rewrite (Hag t) by set_solver. f_equal. apply Forall_bind_ext.
  apply Forall_forall. intros e He. unfold below. destruct (is_table e) eqn:Ht; [|done].
  apply IH. intros x Hx. apply Hag. right. apply list_elem_of_bind.
  exists e. split; [|done]. unfold below. by rewrite Ht.
Qed.

Lemma shape_frame n : ∀ m m' t, (∀ x, x ∈ tables n m t → frame m' x = frame m x) →
  shape n m t → shape n m' t.
Proof.
  induction n as [|n IH]; intros m m' t Hag Hs; [done|].
  destruct Hs as (Hok & Hl & Hf). rewrite tables_S in Hag. simpl.
  rewrite (Hag t) by set_solver. split_and!; [done..|].
  rewrite Forall_forall in Hf |- *. intros e He. destruct (Hf e He) as [Heok Hsub].
  split; [done|]. intros Ht. apply (IH m); [|by apply Hsub].
  intros x Hx. apply Hag. right. apply list_elem_of_bind. exists e.
  split; [|done]. unfold below. by rewrite Ht.
Qed.

Lemma walk_frame n : ∀ m m' t path, length path = n → Forall (λ i, 0 ≤ i < 512) path →
  shape n m t → (∀ x, x ∈ tables n m t → frame m' x = frame m x) →
  walk m' t path = walk m t path.
Proof.
  induction n as [|n IH]; intros m m' t path Hn Hp Hs Hag; [done|].
  destruct path as [|i path]; [done|]. apply Forall_cons in Hp as [Hi Hp].
  injection Hn as Hn. simpl.
  assert (entry m' t i = entry m t i) as ->.
  { unfold entry. by rewrite (Hag t) by (rewrite tables_S; set_solver). }
  destruct (is_table (entry m t i)) eqn:Ht; [|done].
  apply IH; [done..|by apply (shape_entry n m t i)|].
  intros x Hx. apply Hag. apply (below_in_tables n m t i); [done..|].
  unfold below. by rewrite Ht.
Qed.

(** The other entries of a table. *)
Definition others (m : gmap Z (list Z)) (t i : Z) : list Z :=
  take (Z.to_nat i) (frame m t) ++ drop (S (Z.to_nat i)) (frame m t).

Lemma entry_others m t i j : length (frame m t) = 512%nat → 0 ≤ i < 512 → 0 ≤ j < 512 →
  j ≠ i → entry m t j ∈ others m t i.
Proof.
  intros Hl Hi Hj Hne. apply elem_of_app. unfold entry.
  destruct (Z.lt_ge_cases j i); [left|right]; apply list_elem_of_lookup.
  - exists (Z.to_nat j). rewrite lookup_take_lt by lia. apply list_lookup_lookup_total_lt. lia.
  - exists (Z.to_nat j - S (Z.to_nat i))%nat. rewrite lookup_drop.
    replace (S (Z.to_nat i) + (Z.to_nat j - S (Z.to_nat i)))%nat with (Z.to_nat j) by lia.
    apply list_lookup_lookup_total_lt. lia.
Qed.

(** What is below them is apart from the table and from what is below [i]. *)
Lemma others_apart n m t i e x : shape (S n) m t → NoDup (tables (S n) m t) → 0 ≤ i < 512 →
  e ∈ others m t i → x ∈ below n m e →
  x ∈ tables (S n) m t ∧ x ≠ t ∧ x ∉ below n m (entry m t i).
Proof.
  intros (_ & Hl & _) Hnd Hi He Hx. unfold others in He.
  rewrite tables_S, (frame_split m t i Hl Hi), bind_app, bind_cons in Hnd |- *.
  set (pre := take _ _) in *. set (post := drop _ _) in *. clearbody pre post.
  apply NoDup_cons in Hnd as [Hnt Hnd].
  apply NoDup_app in Hnd as (_ & Hd1 & (_ & Hd2 & _)%NoDup_app).
  assert (x ∈ pre ≫= below n m ∨ x ∈ post ≫= below n m) as Hin.
  { rewrite !list_elem_of_bind. apply elem_of_app in He as [He|He]; [left|right]; eauto. }
  clear He Hx Hl. rewrite !not_elem_of_app in Hnt.
  split_and!; [set_solver|intros ->; tauto|]. intros Hx.
  destruct Hin as [Hin|Hin]; [apply (Hd1 x Hin); set_solver|by apply (Hd2 x Hx)].
Qed.

(** ** Replacing one entry

    [m'] is [m] with entry [i] of [t] replaced by [e'], and perhaps changes to
    the tables below the old and the new entry. *)

Section graft.
Context (n : nat) (m m' : gmap Z (list Z)) (t i e' : Z).
Context (Hs : shape (S n) m t) (Hnd : NoDup (tables (S n) m t)) (Hi : 0 ≤ i < 512).
Context (Ht : frame m' t = <[Z.to_nat i := e']> (frame m t)).
Context (Hag : ∀ x, x ∈ tables (S n) m t → x ≠ t → x ∉ below n m (entry m t i) →
                 frame m' x = frame m x).
Context (Hnd' : NoDup (below n m' e')).
Context (Hnew : ∀ x, x ∈ below n m' e' →
                  x ∈ below n m (entry m t i) ∨ x ∉ tables (S n) m t).
Context (Hok : entry_ok e') (Hsub : is_table e' = true → shape n m' (ppn_address e')).

Let pre := take (Z.to_nat i) (frame m t).
Let post := drop (S (Z.to_nat i)) (frame m t).

Lemma graft_old : frame m t = pre ++ entry m t i :: post.
Proof. apply frame_split; [apply Hs|done]. Qed.

Lemma graft_new : frame m' t = pre ++ e' :: post.
Proof. rewrite Ht. apply insert_take_drop. destruct Hs as (_ & -> & _). lia. Qed.

(** The tables below the other entries are the old ones. *)
Lemma graft_below e : e ∈ pre ++ post → below n m' e = below n m e.
Proof.
  intros He. pose proof (λ x, others_apart n m t i e x Hs Hnd Hi) as Ho. unfold below in *.
  destruct (is_table e); [|done]. apply tables_frame. intros x Hx.
  destruct (Ho x He Hx) as (? & ? & ?). by apply Hag.
Qed.

Lemma graft_tables : tables (S n) m' t =
  t :: (pre ≫= below n m) ++ below n m' e' ++ (post ≫= below n m).
Proof.
  rewrite tables_S, graft_new, bind_app, bind_cons. do 2 f_equal; [|f_equal];
    apply Forall_bind_ext, Forall_forall; intros e He; apply graft_below; set_solver.
Qed.

Lemma graft_nodup : NoDup (tables (S n) m' t).
Proof.
  rewrite graft_tables. rewrite tables_S, graft_old, bind_app, bind_cons in *.
  apply NoDup_cons in Hnd as [Hnt Hnd0].
  apply NoDup_app in Hnd0 as (Hn1 & Hd1 & (Hn2 & Hd2 & Hn3)%NoDup_app).
  apply NoDup_cons. split; [|apply NoDup_app; split_and!; [done| |
    apply NoDup_app; split_and!; [done| |done]]].
  - rewrite !not_elem_of_app in *. split_and!; [naive_solver| |naive_solver].
    intros Hx. apply Hnew in Hx. set_solver.
  - intros x Hx. rewrite not_elem_of_app. split; [|set_solver].
    intros Hx'. apply Hnew in Hx'. set_solver.
  - intros x Hx. apply Hnew in Hx. set_solver.
Qed.

Lemma graft_elem x : x ∈ tables (S n) m' t → x ∈ tables (S n) m t ∨ x ∈ below n m' e'.
Proof.
  rewrite graft_tables, tables_S, graft_old, bind_app, bind_cons. set_solver.
Qed.

Lemma graft_keep x : (x ∈ below n m (entry m t i) → x ∈ below n m' e') → x ∈ tables (S n) m t → x ∈ tables (S n) m' t.
Proof. rewrite graft_tables, tables_S, graft_old, bind_app, bind_cons. set_solver. Qed.

Lemma graft_shape : shape (S n) m' t.
Proof.
  destruct Hs as (Htok & Hl & Hf). simpl. split_and!; [done|by rewrite Ht, length_insert|].
  rewrite graft_old, !Forall_app, Forall_cons in Hf. destruct Hf as (Hf1 & _ & Hf2).
  rewrite graft_new, !Forall_app, Forall_cons.
  assert (∀ e, e ∈ pre ++ post → is_table e = true → shape n m (ppn_address e) →
            shape n m' (ppn_address e)) as Hkeep.
  { intros e He Hte. apply shape_frame. intros x Hx.
    destruct (others_apart n m t i e x) as (? & ? & ?); [done..|unfold below; by rewrite Hte|].
    by apply Hag. }
  rewrite Forall_forall in Hf1, Hf2. rewrite !Forall_forall.
  split_and!; [|done|done|]; intros e He;
    [destruct (Hf1 e He) as [? Hse]|destruct (Hf2 e He) as [? Hse]];
    (split; [done|]; intros Hte; apply Hkeep; [set_solver|done|by apply Hse]).
Qed.

Lemma graft_walk_ne j path : length path = n → Forall (λ i, 0 ≤ i < 512) path →
  0 ≤ j < 512 → j ≠ i → walk m' t (j :: path) = walk m t (j :: path).
Proof.
  intros Hlen Hp Hj Hne. simpl.
  assert (entry m' t j = entry m t j) as ->.
  { unfold entry. rewrite Ht. apply list_lookup_total_insert_ne. lia. }
  destruct (is_table (entry m t j)) eqn:Hte; [|done].
  apply (walk_frame n); [done..|by apply (shape_entry n m t j)|].
  intros x Hx. destruct (others_apart n m t i (entry m t j) x) as (? & ? & ?);
    [done..|by apply entry_others; [apply Hs|..]|unfold below; by rewrite Hte|]. by apply Hag.
Qed.

Lemma graft_walk_eq path : walk m' t (i :: path) =
  if is_table e' then walk m' (ppn_address e') path
  else if is_valid e' then Some (e', length path) else None.
Proof.
  simpl. unfold entry. rewrite Ht, list_lookup_total_insert_eq; [done|].
  destruct Hs as (_ & Hl & _). lia.
Qed.
End graft.

(** ** Growing a table

    What [map_vm] may do to the memory around the mapping: [s'] has more frames
    allocated, perhaps new tables below [t], and nothing else changed. *)

Record grows (n : nat) (t : Z) (s s' : Kmem) : Prop := {
  grows_kwf : kwf s';
  grows_meta : meta s' = meta s;
  grows_shape : shape n (mem s') t;
  grows_nodup : NoDup (tables n (mem s') t);
  grows_owned : owned n s' t;
  grows_held x : held (fa s) x → held (fa s') x;
  grows_frame x : x ∉ tables n (mem s) t → (held (fa s') x → held (fa s) x) →
    frame (mem s') x = frame (mem s) x;
  grows_fresh x : x ∈ tables n (mem s') t → x ∈ tables n (mem s) t ∨ ¬ held (fa s) x;
  grows_keep x : x ∈ tables n (mem s) t → x ∈ tables n (mem s') t;
  grows_new x : held (fa s') x → held (fa s) x ∨ x ∈ tables n (mem s') t;
}.

Lemma grows_trans n t s s1 s2 : grows n t s s1 → grows n t s1 s2 → grows n t s s2.
Proof.
  intros H1 H2. destruct H2 as [? ? ? ? ? Hh2 Hf2 Hn2 Hk2 Hw2]. pose proof H1 as [? ? ? ? Ho1 Hh1 Hf1 Hn1 Hk1 Hw1].
  split; [done|congruence|done..| | | | |].
  - auto.
  - intros x Hx Hb. rewrite Hf2, Hf1; auto.
    intros Hx1. destruct (Hn1 x Hx1) as [?|Hnh]; [done|]. apply Hnh, Hb, Hh2, Ho1, Hx1.
  - intros x Hx. destruct (Hn2 x Hx) as [Hx1|Hnh]; [by apply Hn1|]. right. auto.
  - auto.
  - intros x Hx. destruct (Hw2 x Hx) as [Hx1|]; [|by right]. destruct (Hw1 x Hx1); auto.
Qed.

(** The indices of a mapping of size [ps]. *)
Definition path_of (va : Z) (ps : PageSize) : list Z :=
  match ps with
  | Size1G => [vpn_2 va]
  | Size2M => [vpn_2 va; vpn_1 va]
  | Size4K => [vpn_2 va; vpn_1 va; vpn_0 va]
  end.

(** No leaf and no table where the leaf goes, and no leaf above it. *)
Fixpoint unmapped (m : gmap Z (list Z)) (t : Z) (path : list Z) : bool :=
  match path with
  | [] => false
  | i :: path' =>
      let e := entry m t i in
      if is_table e then unmapped m (ppn_address e) path' else negb (is_valid e)
  end.

(** The entry [map_leaf] writes over an empty one. *)
Definition leaf_pte (pa flags : Z) : Z :=
  set_flags (with_address 0 pa) (Z.lor (Z.lor (Z.lor flags PTE_V) PTE_A) PTE_D).

(** Flags that make a leaf. *)
Definition leaf_flags (flags : Z) : Prop := 0 ≤ flags < 256 ∧ Z.land flags PTE_RWX ≠ 0.

(** A page of at most 1 GiB from [pa] is addressable. *)
Definition page_ok (pa : Z) : Prop := 0 ≤ pa ∧ pa mod 4096 = 0 ∧ pa + 2 ^ 30 ≤ 2 ^ 55.

Lemma is_table_0 : is_table 0 = false.
Proof. done. Qed.

Lemma leaf_pte_spec pa flags : page_ok pa → leaf_flags flags →
  is_leaf (leaf_pte pa flags) = true ∧ ppn_address (leaf_pte pa flags) = pa ∧
  entry_ok (leaf_pte pa flags) ∧
  (∀ i, 0 ≤ i < 8 → Z.testbit (leaf_pte pa flags) i =
     Z.testbit flags i || (i =? 0) || (i =? 6) || (i =? 7)).
Proof.
  intros (H0 & Hm & Ht) [Hf Hx].
  assert (0 ≤ Z.lor (Z.lor (Z.lor flags PTE_V) PTE_A) PTE_D < 1024) as Hfl.
  { assert (in_width 8 (Z.lor (Z.lor (Z.lor flags PTE_V) PTE_A) PTE_D)) as [? Hlt];
      [|change (2 ^ 8) with 256 in Hlt; lia].
    unfold PTE_V, PTE_A, PTE_D. do 3 (apply in_width_set_bit; [lia|]). done. }
  assert (Hbits : ∀ i, 0 ≤ i < 10 → Z.testbit (leaf_pte pa flags) i =
     Z.testbit flags i || (i =? 0) || (i =? 6) || (i =? 7)).
  { intros i Hi. unfold leaf_pte, set_flags, PTE_V, PTE_A, PTE_D.
    rewrite Z.lor_spec, with_address_flag, Z.testbit_0_l by (done || lia).
    autorewrite with bits. by rewrite (Z.eqb_sym 0), (Z.eqb_sym 6), (Z.eqb_sym 7). }
  assert (Hppn : ppn_address (leaf_pte pa flags) = pa).
  { unfold leaf_pte. rewrite ppn_set_flags by done. apply ppn_with_address; [done| |done].
    change (2 ^ 56) with (2 * 2 ^ 55). lia. }
  assert (Hleaf : is_leaf (leaf_pte pa flags) = true).
  { rewrite is_leaf_bits, !Hbits by lia. simpl. rewrite !orb_false_r, !orb_true_r. simpl.
    assert (Hl : is_leaf (Z.lor flags 1) = true).
    { unfold is_leaf. rewrite is_valid_bit, Z.lor_spec. change (Z.testbit 1 0) with true.
      rewrite orb_true_r. simpl. rewrite negb_true_iff, Z.eqb_neq, Z.land_lor_distr_l.
      change (Z.land 1 PTE_RWX) with 0. by rewrite Z.lor_0_r. }
    rewrite is_leaf_bits, !Z.lor_spec in Hl.
    change (Z.testbit 1 1) with false in Hl. change (Z.testbit 1 2) with false in Hl.
    change (Z.testbit 1 3) with false in Hl. rewrite !orb_false_r in Hl.
    apply andb_prop in Hl as [_ Hl]. done. }
  split_and!; [done..| |intros; apply Hbits; lia].
  split_and!; [by apply is_u64_set_flags, Hfl; apply is_u64_with_address| |].
  - unfold is_leaf in Hleaf. by destruct (is_valid _).
  - by rewrite Hppn.
Qed.
