(* ===== verification/PageMap.v ===== *)
(** * Mapping pages

    Theorems about [map_memory_with_base], [remap_memory_with_base] and
    [translate] of [page_table.rs]. *)

From S2P Require Import Prelude Errors Addr Sv39 FrameAllocator PageMeta PageTable.

(** ** One entry *)

Lemma upd_upd t i e e' m : upd t i e' (upd t i e m) = upd t i e' m.
Proof.
  unfold upd at 1. rewrite frame_upd, list_insert_insert_eq. unfold upd.
  by rewrite insert_insert_eq.
Qed.

Lemma set_mem_set_mem m m' s : set_mem m (set_mem m' s) = set_mem m s.
Proof. done. Qed.

(** Replacing an entry, and what is below it, as a step of growth. *)
Lemma graft_grows n t i e' s s' :
  shape (S n) (mem s) t → NoDup (tables (S n) (mem s) t) → owned (S n) s t →
  kwf s' → meta s' = meta s → 0 ≤ i < 512 →
  frame (mem s') t = <[Z.to_nat i := e']> (frame (mem s) t) →
  (∀ x, held (fa s) x → held (fa s') x) →
  (∀ x, x ≠ t → x ∉ below n (mem s) (entry (mem s) t i) →
     (held (fa s') x → held (fa s) x) → frame (mem s') x = frame (mem s) x) →
  NoDup (below n (mem s') e') →
  (∀ x, x ∈ below n (mem s') e' → held (fa s') x ∧
     (x ∈ below n (mem s) (entry (mem s) t i) ∨ ¬ held (fa s) x)) →
  (∀ x, x ∈ below n (mem s) (entry (mem s) t i) → x ∈ below n (mem s') e') →
  (∀ x, held (fa s') x → held (fa s) x ∨ x ∈ below n (mem s') e') →
  entry_ok e' → (is_table e' = true → shape n (mem s') (ppn_address e')) →
  grows (S n) t s s' ∧
  (∀ j q, length q = n → Forall (λ i, 0 ≤ i < 512) q → 0 ≤ j < 512 → j ≠ i →
     walk (mem s') t (j :: q) = walk (mem s) t (j :: q)) ∧
  (∀ q, walk (mem s') t (i :: q) =
     if is_table e' then walk (mem s') (ppn_address e') q
     else if is_valid e' then Some (e', length q) else None).
Proof.
  intros Hs Hnd Hown Hk Hmeta Hi Ht Hheld Hfr Hndb Hnew Hkeep Hall Hok Hsub.
  assert (Hag : ∀ x, x ∈ tables (S n) (mem s) t → x ≠ t →
            x ∉ below n (mem s) (entry (mem s) t i) → frame (mem s') x = frame (mem s) x).
  { intros x Hx ? ?. apply Hfr; auto. }
  assert (Hnew' : ∀ x, x ∈ below n (mem s') e' →
            x ∈ below n (mem s) (entry (mem s) t i) ∨ x ∉ tables (S n) (mem s) t).
  { intros x Hx. destruct (Hnew x Hx) as [_ [?|Hnh]]; [by left|right]. auto. }
  assert (Hel : ∀ x, x ∈ tables (S n) (mem s') t →
            x ∈ tables (S n) (mem s) t ∨ x ∈ below n (mem s') e').
  { intros x Hx. by apply (graft_elem n (mem s) (mem s') t i e'). }
  split_and!.
  - split; auto.
    + by apply (graft_shape n (mem s) (mem s') t i e').
    + by apply (graft_nodup n (mem s) (mem s') t i e').
    + intros x Hx. destruct (Hel x Hx) as [?|Hb]; [by apply Hheld, Hown|]. by apply Hnew.
    + intros x Hx Hb. apply Hfr; [|intros Hx'|done].
      * intros ->. apply Hx. rewrite tables_S. set_solver.
      * apply Hx. by apply (below_in_tables n _ t i).
    + intros x Hx. destruct (Hel x Hx) as [?|Hb]; [by left|].
      destruct (Hnew x Hb) as [_ [Hb'|?]]; [left|by right].
      by apply (below_in_tables n _ t i).
    + intros x. apply (graft_keep n (mem s) (mem s') t i e'); auto.
    + intros x Hx. destruct (Hall x Hx) as [?|Hb]; [by left|right].
      rewrite (graft_tables n (mem s) (mem s') t i e') by auto. set_solver.
  - intros j q ? ? ? ?. by apply (graft_walk_ne n (mem s) (mem s') t i e').
  - intros q. by apply (graft_walk_eq n (mem s) (mem s') t i e').
Qed.

(** ** New tables *)

Lemma entry_ok_0 : entry_ok 0.
Proof. split_and!; [done..|]. by intros. Qed.

Lemma entry_empty_table m a i : frame m a = empty_table → 0 ≤ i < 512 → entry m a i = 0.
Proof.
  intros Hf Hi. unfold entry. rewrite Hf. unfold empty_table, Sv39.empty.
  rewrite lookup_total_replicate_2; [done|lia].
Qed.

Lemma tables_empty_table n m a : frame m a = empty_table → tables (S n) m a = [a].
Proof.
  intros Hf. by rewrite tables_S, Hf.
Qed.

Lemma shape_empty_table n m a : table_ok a → frame m a = empty_table → shape (S n) m a.
Proof.
  intros Ha Hf. cbn [shape]. rewrite Hf. split_and!; [done..|].
  apply Forall_replicate. split; [apply entry_ok_0|by intros].
Qed.

Lemma walk_empty_table m a q : frame m a = empty_table →
  Forall (λ i, 0 ≤ i < 512) q → walk m a q = None.
Proof.
  intros Hf Hq. destruct Hq; simpl; [done|]. by rewrite entry_empty_table.
Qed.

Lemma unmapped_empty_table m a q : frame m a = empty_table →
  Forall (λ i, 0 ≤ i < 512) q → q ≠ [] → unmapped m a q = true.
Proof.
  intros Hf Hq Hne. destruct Hq; simpl; [done|]. by rewrite entry_empty_table.
Qed.

(** ** The allocator *)

Lemma table_ok_page_ok a : table_ok a → page_ok a ∧ is_u64 a.
Proof.
  unfold table_ok, page_ok, in_width, KERNEL_DIRECT_MAPPING_BASE.
  change (2 ^ 64) with 18446744073709551616. change (2 ^ 55) with 36028797018963968.
  change (2 ^ 30) with 1073741824. lia.
Qed.

Lemma table_ok_mapped a base : table_ok a → base = 0 ∨ base = KERNEL_DIRECT_MAPPING_BASE →
  add_ov (E := Error) 64 a base = Ok (a + base) ∧ va_from_raw (a + base) = Some (a + base).
Proof.
  intros (H0 & _ & Ht) Hb. unfold add_ov, checked_add.
  assert (a + base < 2 ^ 64) as Hlt by
    (destruct Hb as [->| ->]; unfold KERNEL_DIRECT_MAPPING_BASE in *; lia).
  rewrite (proj2 (Z.ltb_lt _ _) Hlt). split; [done|]. unfold va_from_raw.
  assert (va_ok (a + base) = true) as ->; [|done].
  unfold KERNEL_DIRECT_MAPPING_BASE in *. apply va_ok_spec; [split; lia|].
  change (2 ^ 38) with 274877906944. change (2 ^ 64) with 18446744073709551616 in *. lia.
Qed.

Lemma alloc_frame_spec s : kwf s →
  match alloc_frame s with
  | (Ok a, s') => mem s' = mem s ∧ meta s' = meta s ∧ kwf s' ∧ table_ok a ∧
      ¬ held (fa s) a ∧ (∀ b, held (fa s') b ↔ b = a ∨ held (fa s) b)
  | (Err e, s') => s' = s ∧ full (fa s)
  | _ => False
  end.
Proof.
  intros [Hwf Hal Htop]. unfold alloc_frame, zoom.
  pose proof (alloc_spec (fa s) Hwf) as Hc.
  destruct (FrameAllocator.alloc (fa s)) as [[a|e| |] fa']; try done.
  - destruct Hc as (Hnh & Hh & Hwf' & Hst & Hcap & k & Hk & ->). simpl.
    split_and!; [done..| | |done|done].
    + split; simpl; rewrite ?Hst, ?Hcap; done.
    + pose proof (wf_start _ Hwf). split_and!; [lia| |lia].
      rewrite Z.mod_add by lia. done.
  - destruct Hc as (_ & -> & ?). split; [by destruct s|done].
Qed.

(** ** The next table *)

Lemma grows_refl n t s : kwf s → shape n (mem s) t → NoDup (tables n (mem s) t) →
  owned n s t → grows n t s s.
Proof. intros. split; auto. Qed.

(** The entry that links a new table. *)
Lemma link_pte_spec a : table_ok a →
  let e := with_address new_valid a in
  is_table e = true ∧ ppn_address e = a ∧ entry_ok e ∧
  set_physical_address (E := Error) new_valid a = Ok e.
Proof.
  intros Ha e. destruct (table_ok_page_ok a Ha) as [(H0 & Hm & Hb) _].
  assert (Hfl := λ i, with_address_flag new_valid a i ltac:(done)).
  assert (Hv : is_valid e = true) by (rewrite is_valid_bit; unfold e; by rewrite Hfl).
  assert (Hl : is_leaf e = false).
  { rewrite is_leaf_bits. unfold e. by rewrite !Hfl. }
  split_and!.
  - unfold is_table. by rewrite Hv, Hl.
  - apply ppn_with_address; [done| |done]. change (2 ^ 56) with (2 * 2 ^ 55). lia.
  - split_and!; [by apply is_u64_with_address|by rewrite Hv|by rewrite Hl].
  - by apply set_physical_address_ok.
Qed.

Lemma next_table_create n s t i a s0 base :
  let e := with_address new_valid a in
  let s1 := set_mem (upd t i e (<[a := empty_table]> (mem s))) s0 in
  shape (S (S n)) (mem s) t → NoDup (tables (S (S n)) (mem s) t) → owned (S (S n)) s t →
  0 ≤ i < 512 → is_valid (entry (mem s) t i) = false →
  base = 0 ∨ base = KERNEL_DIRECT_MAPPING_BASE →
  mem s0 = mem s → meta s0 = meta s → kwf s0 → table_ok a → ¬ held (fa s) a →
  (∀ b, held (fa s0) b ↔ b = a ∨ held (fa s) b) →
  grows (S (S n)) t s s1 ∧ entry (mem s1) t i = e ∧ frame (mem s1) a = empty_table ∧
  (∀ q, length q = S (S n) → Forall (λ i, 0 ≤ i < 512) q →
     walk (mem s1) t q = walk (mem s) t q).
Proof.
  intros e s1 Hs Hnd Hown Hi Hv Hb Hm0 Hme0 Hk0 Ha Hnh Hh.
  destruct (link_pte_spec a Ha) as (Ht & Hppn & Heok & _). fold e in Ht, Hppn, Heok.
  assert (Hta : t ≠ a) by (intros ->; apply Hnh, Hown; rewrite tables_S; set_solver).
  assert (Hfa : frame (mem s1) a = empty_table).
  { simpl. by rewrite frame_upd_ne, frame_insert by done. }
  assert (Hft : frame (mem s1) t = <[Z.to_nat i := e]> (frame (mem s) t)).
  { simpl. by rewrite frame_upd, frame_insert_ne by done. }
  assert (Hbel : below (S n) (mem s1) e = [a]).
  { unfold below. rewrite Ht, Hppn. by apply tables_empty_table. }
  assert (Hold : is_table (entry (mem s) t i) = false) by (unfold is_table; by rewrite Hv).
  destruct (graft_grows (S n) t i e s s1) as (Hg & Hne & Heq); auto.
  - by destruct Hk0; split.
  - intros x Hx. apply Hh. by right.
  - intros x Hx _ Hx'. simpl. rewrite frame_upd_ne by done. apply frame_insert_ne.
    intros ->. apply Hnh, Hx', Hh. by left.
  - rewrite Hbel. apply NoDup_singleton.
  - rewrite Hbel. intros x Hx%list_elem_of_singleton. subst x. split; [apply Hh|]; by auto.
  - unfold below at 1. rewrite Hold. by intros x ?%elem_of_nil.
  - rewrite Hbel. intros x [->|]%Hh; [right; by apply list_elem_of_singleton|by left].
  - intros _. rewrite Hppn. by apply shape_empty_table.
  - assert (He : entry (mem s1) t i = e).
    { unfold entry. rewrite Hft. apply list_lookup_total_insert_eq.
      destruct Hs as (_ & -> & _). lia. }
    split_and!; [done..|]. intros [|j q] Hq Hr; [done|].
    apply Forall_cons in Hr as [Hj Hr]. injection Hq as Hq.
    destruct (decide (j = i)) as [->|]; [|by apply Hne].
    rewrite Heq, Ht, Hppn, walk_empty_table by done.
    cbn [walk]. by rewrite Hold, Hv.
Qed.

Lemma next_table_spec n s t i base :
  kwf s → shape (S (S n)) (mem s) t → NoDup (tables (S (S n)) (mem s) t) →
  owned (S (S n)) s t → 0 ≤ i < 512 → base = 0 ∨ base = KERNEL_DIRECT_MAPPING_BASE →
  is_leaf (entry (mem s) t i) = false →
  match get_or_create_next_table t i base s with
  | (Ok t', s1) =>
      grows (S (S n)) t s s1 ∧ is_table (entry (mem s1) t i) = true ∧
      ppn_address (entry (mem s1) t i) = t' ∧
      (∀ q, length q = S (S n) → Forall (λ i, 0 ≤ i < 512) q →
         walk (mem s1) t q = walk (mem s) t q) ∧
      (∀ p, p ≠ [] → Forall (λ i, 0 ≤ i < 512) p → unmapped (mem s) t (i :: p) = true →
         unmapped (mem s1) t' p = true)
  | (Panic, s1) => full (fa s1)
  | _ => False
  end.
Proof.
  intros Hk Hs Hnd Hown Hi Hb Hl.
  unfold get_or_create_next_table, get_entry, gets, bind at 1.
  destruct (is_valid (entry (mem s) t i)) eqn:Hv.
  - rewrite Hl. assert (Ht : is_table (entry (mem s) t i) = true) by
      (unfold is_table; by rewrite Hv, Hl).
    destruct (shape_entry _ _ _ _ Hs Hi) as [_ Hsub].
    pose proof (shape_table_ok _ _ _ (Hsub Ht)) as Hok.
    destruct (table_ok_page_ok _ Hok) as [(? & ? & ?) _].
    destruct (table_ok_mapped _ _ Hok Hb) as [Hadd _].
    unfold bind, lift. rewrite physical_address_ok, Hadd by (change PA_MAX with (2 ^ 55 - 1); lia).
    simpl. split_and!; [by apply grows_refl|done..|].
    intros p _ _. cbn [unmapped]. by rewrite Ht.
  - unfold bind at 1, unwrapped. pose proof (alloc_frame_spec s Hk) as Hc.
    destruct (alloc_frame s) as [[a|e| |] s0]; [|by destruct Hc as [-> ?]|done..].
    destruct Hc as (Hm0 & Hme0 & Hk0 & Ha & Hnh & Hh).
    destruct (table_ok_mapped _ _ Ha Hb) as [Hadd Hva].
    destruct (table_ok_page_ok _ Ha) as [(? & ? & ?) _].
    destruct (link_pte_spec a Ha) as (Ht & Hppn & _ & Hset).
    unfold bind, lift, write_frame, set_entry, modify. rewrite Hadd, Hva. simpl.
    unfold pa_from_raw_unchecked.
    rewrite (proj2 (Z.leb_le a PA_MAX)) by (change PA_MAX with (2 ^ 55 - 1); lia).
    rewrite Hset, Hm0. rewrite set_mem_set_mem.
    destruct (next_table_create n s t i a s0 base) as (Hg & He & Hf & Hw); auto.
    unfold ret. cbn [mem set_mem] in *. rewrite He. split_and!; [done..|].
    intros p Hp Hr _. by apply unmapped_empty_table.
Qed.

Lemma nodup_below n m t i : shape (S n) m t → NoDup (tables (S n) m t) → 0 ≤ i < 512 →
  NoDup (below n m (entry m t i)) ∧ t ∉ below n m (entry m t i).
Proof.
  intros (_ & Hl & _) Hnd Hi. rewrite tables_S, (frame_split m t i Hl Hi) in Hnd.
  rewrite bind_app, bind_cons in Hnd. apply NoDup_cons in Hnd as [Hnt Hnd].
  apply NoDup_app in Hnd as (_ & _ & (? & _ & _)%NoDup_app). split; [done|].
  rewrite !not_elem_of_app in Hnt. tauto.
Qed.

(** Growth of the table below an entry is growth of the whole table. *)
Lemma grows_below n t i s s' :
  shape (S n) (mem s) t → NoDup (tables (S n) (mem s) t) → owned (S n) s t → 0 ≤ i < 512 →
  is_table (entry (mem s) t i) = true → grows n (ppn_address (entry (mem s) t i)) s s' →
  grows (S n) t s s' ∧
  (∀ j q, length q = n → Forall (λ i, 0 ≤ i < 512) q → 0 ≤ j < 512 →
     walk (mem s') t (j :: q) =
       if decide (j = i) then walk (mem s') (ppn_address (entry (mem s) t i)) q
       else walk (mem s) t (j :: q)).
Proof.
  intros Hs Hnd Hown Hi Ht Hg. set (e := entry (mem s) t i) in *.
  destruct (nodup_below n _ t i Hs Hnd Hi) as [Hndb Hntb]. fold e in Hndb, Hntb.
  assert (Hbel : ∀ m, below n m e = tables n m (ppn_address e)) by
    (intros; unfold below; by rewrite Ht).
  assert (Hth : held (fa s) t) by (apply Hown; rewrite tables_S; set_solver).
  destruct Hg as [Hk Hme Hsh Hnd' Hown' Hh Hf Hfr Hke Hwe]. rewrite Hbel in *.
  destruct (shape_entry n _ t i Hs Hi) as [Heok _].
  destruct (graft_grows n t i e s s') as (Hg & Hne & Heq); rewrite ?Hbel; auto.
  - rewrite list_insert_id; [by apply Hf|]. unfold e, entry.
    apply list_lookup_lookup_total_lt. destruct Hs as (_ & -> & _). lia.
  - split_and!; [done|]. intros j q Hq Hr Hj.
    destruct (decide (j = i)) as [->|]; [|by apply Hne]. by rewrite Heq, Ht.
Qed.

(** ** Address spaces *)

(** A root table in a sound kernel memory. *)
Definition aspace (s : Kmem) (root : Z) : Prop :=
  kwf s ∧ PageTable.wf (mem s) root ∧ owned 3 s root.

(** The memory around an address space: its tables may change, frames may be
    allocated, for new tables too, and everything else is kept. *)
Definition rest_kept (s s' : Kmem) (root : Z) : Prop :=
  meta s' = meta s ∧ (∀ x, held (fa s) x → held (fa s') x) ∧
  (∀ x, held (fa s) x → x ∉ tables 3 (mem s) root → frame (mem s') x = frame (mem s) x) ∧
  ∀ x, x ∈ tables 3 (mem s') root → x ∈ tables 3 (mem s) root ∨ ¬ held (fa s) x.

(** Nothing but the tables of an address space changes: every frame that is
    neither a table before nor after is kept, be it in use, free or outside the
    allocator's memory; and the frames that are taken are new tables. *)
Definition only_tables (s s' : Kmem) (root : Z) : Prop :=
  meta s' = meta s ∧
  (∀ x, x ∉ tables 3 (mem s') root → frame (mem s') x = frame (mem s) x) ∧
  (∀ x, x ∈ tables 3 (mem s) root → x ∈ tables 3 (mem s') root) ∧
  (∀ x, x ∈ tables 3 (mem s') root → x ∈ tables 3 (mem s) root ∨ ¬ held (fa s) x) ∧
  ∀ x, held (fa s') x ↔ held (fa s) x ∨ x ∈ tables 3 (mem s') root.

(** [initialize_empty_pt]: a fresh root. *)
Definition initialize_empty_pt (root_pt : Z) : KM unit := write_frame root_pt empty_table.

Lemma aspace_empty s root : kwf s → held (fa s) root → table_ok root →
  frame (mem s) root = empty_table → aspace s root.
Proof.
  intros Hk Hh Hok Hf. split_and!; [done| |].
  - split; [by apply shape_empty_table|]. rewrite tables_empty_table by done.
    apply NoDup_singleton.
  - intros x. rewrite tables_empty_table by done. by intros ->%list_elem_of_singleton.
Qed.

Lemma grows_rest s s' root : aspace s root → grows 3 root s s' →
  aspace s' root ∧ rest_kept s s' root.
Proof. intros _ [? ? ? ? ? ? Hf ? ? ?]. split; [by split_and!|]. split_and!; auto. Qed.

Lemma grows_only_tables s s' root : grows 3 root s s' → only_tables s s' root.
Proof.
  intros [? Hme ? ? Ho Hh Hf Hfr Hke Hw]. split_and!; [done| |done|done|].
  - intros x Hx. apply Hf; [auto|]. intros Hx'. destruct (Hw x Hx'); [done|]. by destruct Hx.
  - intros x. split; [apply Hw|]. intros [?|?]; auto.
Qed.

Lemma shape_entries n m : ∀ t x, shape n m t → x ∈ tables n m t →
  length (frame m x) = 512%nat ∧ table_ok x ∧ Forall entry_ok (frame m x).
Proof.
  induction n as [|n IH]; intros t x Hs Hx; [done|]. pose proof Hs as (Hok & Hl & Hf).
  rewrite tables_S in Hx. apply elem_of_cons in Hx as [->|Hx].
  - split_and!; [done..|]. by eapply Forall_impl; [apply Hf|]; intros ? [].
  - apply list_elem_of_bind in Hx as (e & Hx & He). unfold below in Hx.
    destruct (is_table e) eqn:Ht; [|by apply elem_of_nil in Hx].
    rewrite Forall_forall in Hf. apply (IH (ppn_address e)); [|done]. by apply (Hf e He).
Qed.

(** ** Translation *)

(** Where the leaf for a list of indices is. *)
Fixpoint locate (m : gmap Z (list Z)) (t : Z) (path : list Z) : option (Z * Z * nat) :=
  match path with
  | [] => None
  | i :: path' =>
      let e := entry m t i in
      if is_table e then locate m (ppn_address e) path'
      else if is_valid e then Some (t, i, length path') else None
  end.

Lemma walk_locate m path : ∀ t,
  walk m t path = (λ '(t', i, k), (entry m t' i, k)) <$> locate m t path.
Proof.
  induction path as [|i path IH]; intros t; [done|]. simpl.
  destruct (is_table _); [done|]. by destruct (is_valid _).
Qed.

(** The size of a page with [k] levels below its entry. *)
Definition size_of (k : nat) : PageSize :=
  match k with O => Size4K | 1%nat => Size2M | _ => Size1G end.

Lemma translate_levels_locate m levels : ∀ t,
  shape (length levels) m t → Forall (λ l, 0 ≤ l.1 < 512) levels →
  (∀ k i ps, levels !! k = Some (i, ps) → ps = size_of (length levels - S k)) →
  translate_levels m t levels =
    Ok ((λ '(t', i, k), (t', i, size_of k)) <$> locate m t levels.*1).
Proof.
  induction levels as [|[i ps] levels IH]; intros t Hs Hr Hps; [done|].
  apply Forall_cons in Hr as [Hi Hr]. cbn [length] in Hs. simpl in Hi.
  destruct (shape_entry _ _ _ _ Hs Hi) as [_ Hsub].
  cbn [translate_levels fmap list_fmap locate fst].
  destruct (is_table (entry m t i)) eqn:Ht.
  - destruct (is_table_valid _ Ht) as [-> ->]. cbn [negb].
    specialize (Hsub eq_refl). pose proof (shape_table_ok _ _ _ Hsub) as Hok.
    destruct (table_ok_page_ok _ Hok) as [(? & ? & ?) _].
    destruct (table_ok_mapped _ KERNEL_DIRECT_MAPPING_BASE Hok) as [Hadd _]; [by right|].
    rewrite physical_address_ok by (change PA_MAX with (2 ^ 55 - 1); lia).
    cbn [obind]. rewrite Hadd. cbn [obind]. apply IH; [done..|].
    intros k j ps' Hk. apply (Hps (S k) j ps'). done.
  - rewrite (not_table _ Ht). destruct (is_leaf (entry m t i)); [|done]. cbn [negb fmap option_fmap option_map].
    do 3 f_equal. rewrite (Hps 0%nat i ps) by done. f_equal. rewrite length_fmap. simpl. lia.
Qed.

Lemma path_range va ps : Forall (λ i, 0 ≤ i < 512) (path_of va ps).
Proof.
  pose proof (vpn_range va). destruct ps; simpl; rewrite !Forall_cons, Forall_nil; tauto.
Qed.

Lemma translate_to_pte_ptr_locate m root va : shape 3 m root →
  translate_to_pte_ptr m root va =
    Ok ((λ '(t', i, k), (t', i, size_of k)) <$> locate m root (path_of va Size4K)).
Proof.
  intros Hs. unfold translate_to_pte_ptr. apply translate_levels_locate; [done| |].
  { rewrite !Forall_cons, Forall_nil. pose proof (vpn_range va). simpl. tauto. }
  intros [|[|[|k]]] i ps Hk; simplify_eq/=; done.
Qed.

(** A leaf that [locate] finds is an entry of a table below [t]. *)
Lemma locate_spec n m : ∀ t path t' i k,
  shape n m t → length path = n → Forall (λ i, 0 ≤ i < 512) path →
  locate m t path = Some (t', i, k) →
  t' ∈ tables n m t ∧ length (frame m t') = 512%nat ∧ 0 ≤ i < 512 ∧
  is_leaf (entry m t' i) = true ∧ entry_ok (entry m t' i) ∧ (k < n)%nat.
Proof.
  induction n as [|n IH]; intros t path t' i k Hs Hlen Hr Hl; [done|].
  destruct path as [|j path]; [done|]. apply Forall_cons in Hr as [Hj Hr].
  injection Hlen as Hlen. cbn [locate] in Hl.
  destruct (shape_entry _ _ _ _ Hs Hj) as [Hok Hsub].
  destruct (is_table (entry m t j)) eqn:Ht.
  - destruct (IH _ _ _ _ _ (Hsub eq_refl) Hlen Hr Hl) as (Hin & ? & ? & ? & ? & ?).
    split_and!; try done; [|lia..]. apply (below_in_tables n m t j); [done..|].
    unfold below. by rewrite Ht.
  - destruct (is_valid (entry m t j)) eqn:Hv; [|done]. injection Hl as <- <- <-.
    rewrite (not_table _ Ht) in Hv. destruct Hs as (_ & Hl & _).
    split_and!; [rewrite tables_S; left|..]; (done || lia).
Qed.

(** What [translate] computes: the page of the leaf and the offset in it. *)
Lemma translate_walk m root va : shape 3 m root → 0 ≤ va →
  translate m root va =
    Ok ((λ '(e, k), ppn_address e + va mod bytes (size_of k)) <$>
        walk m root (path_of va Size4K)).
Proof.
  intros Hs Hva. unfold translate. rewrite translate_to_pte_ptr_locate, walk_locate by done.
  destruct (locate m root (path_of va Size4K)) as [[[t i] k]|] eqn:Hl; [|done].
  apply (locate_spec 3) in Hl as (_ & _ & _ & Hlf & (_ & _ & Hb) & _); [|done|done|apply path_range].
  specialize (Hb Hlf). pose proof (ppn_address_range (entry m t i)) as [? _].
  cbn [fmap option_fmap option_map obind]. unfold translated_physical_address.
  rewrite physical_address_ok by (change PA_MAX with (2 ^ 55 - 1); lia). cbn [obind].
  assert (Hm : Z.land va (bytes (size_of k) - 1) = va mod bytes (size_of k)).
  { destruct (size_of k); [by apply (land_low_mask _ 12)|by apply (land_low_mask _ 21)|
      by apply (land_low_mask _ 30)]. }
  assert (0 ≤ va mod bytes (size_of k) < 2 ^ 30).
  { assert (0 < bytes (size_of k) ≤ 2 ^ 30) by (by destruct (size_of k)).
    pose proof (Z.mod_pos_bound va (bytes (size_of k))). lia. }
  rewrite Hm. unfold add_ov, checked_add, pa_from_raw_unchecked.
  rewrite (proj2 (Z.ltb_lt _ _)) by lia. cbn [unwrap obind].
  by rewrite (proj2 (Z.leb_le _ _)) by (change PA_MAX with (2 ^ 55 - 1); lia).
Qed.

(** The indices of a mapping start the indices of the addresses in its page. *)
Lemma path_prefix va va' ps : is_u64 va → is_u64 va' → va_ok va = true → va_ok va' = true →
  va mod bytes ps = 0 →
  path_of va ps `prefix_of` path_of va' Size4K ↔ va ≤ va' < va + bytes ps.
Proof.
  intros Ha Hb Hva Hva' Hm. rewrite va_ok_spec in Hva, Hva' by done.
  assert (path_of va ps `prefix_of` path_of va' Size4K ↔
    vpn_2 va = vpn_2 va' ∧ (ps ≠ Size1G → vpn_1 va = vpn_1 va') ∧
    (ps = Size4K → vpn_0 va = vpn_0 va')) as ->.
  { unfold path_of. destruct ps; split.
    all: try (intros [k Hk]; simpl in Hk; simplify_eq; by split_and!; congruence).
    all: intros (-> & H1 & H0); rewrite ?H1, ?H0 by done; eexists; simpl; reflexivity. }
  destruct (vpn_div va) as (-> & -> & ->), (vpn_div va') as (-> & -> & ->).
  destruct Ha, Hb. change (2 ^ 30) with 1073741824 in *. change (2 ^ 21) with 2097152 in *.
  change (2 ^ 12) with 4096 in *. change (2 ^ 38) with 274877906944 in *.
  change (2 ^ 64) with 18446744073709551616 in *.
  destruct ps; simpl bytes in *; (split; [intros (Hv2 & Hv1 & Hv0)|intros Hx]).
  - specialize (Hv1 ltac:(done)). specialize (Hv0 eq_refl). Z.div_mod_to_equations; lia.
  - split_and!; [|intros _..]; Z.div_mod_to_equations; lia.
  - specialize (Hv1 ltac:(done)). clear Hv0. Z.div_mod_to_equations; lia.
  - split_and!; [|intros _|done]; Z.div_mod_to_equations; lia.
  - clear Hv1 Hv0. Z.div_mod_to_equations; lia.
  - split_and!; [|done|done]. Z.div_mod_to_equations; lia.
Qed.

(** ** Changes that keep the tree of tables

    Entries that differ only in what a leaf says. *)

Definition same_kind (e e' : Z) : Prop :=
  is_table e' = is_table e ∧ is_valid e' = is_valid e ∧
  (is_table e = true → ppn_address e' = ppn_address e).

#[export] Instance same_kind_refl : Reflexive same_kind.
Proof. intros e. by split_and!. Qed.

(** The tables from [t] keep their kinds of entries. *)
Definition same_tree (n : nat) (m m' : gmap Z (list Z)) (t : Z) : Prop :=
  ∀ x, x ∈ tables n m t → Forall2 same_kind (frame m x) (frame m' x).

Lemma same_tree_below n m m' t e : same_tree (S n) m m' t → e ∈ frame m t →
  is_table e = true → same_tree n m m' (ppn_address e).
Proof.
  intros Hs He Ht x Hx. apply Hs. rewrite tables_S. right. apply list_elem_of_bind.
  exists e. split; [|done]. unfold below. by rewrite Ht.
Qed.

Lemma same_tree_tables n : ∀ m m' t, same_tree n m m' t → tables n m' t = tables n m t.
Proof.
  induction n as [|n IH]; intros m m' t Hs; [done|]. rewrite !tables_S. f_equal.
  assert (Hf : Forall2 same_kind (frame m t) (frame m' t)) by
    (apply Hs; rewrite tables_S; left).
  assert (Hsub : Forall (λ e, is_table e = true → same_tree n m m' (ppn_address e)) (frame m t))
    by (apply Forall_forall; intros e He Ht; by apply (same_tree_below n _ _ t)).
  clear Hs. induction Hf as [|e e' es es' (Ht & _ & Hp) _ IHf]; [done|].
  apply Forall_cons in Hsub as [Hsub Hsubs]. rewrite !bind_cons, (IHf Hsubs). f_equal.
  unfold below. rewrite Ht. destruct (is_table e); [|done]. rewrite Hp by done.
  apply IH. auto.
Qed.

Lemma same_tree_entry n m m' t i : same_tree (S n) m m' t → shape (S n) m t → 0 ≤ i < 512 →
  same_kind (entry m t i) (entry m' t i) ∧
  (is_table (entry m t i) = true → same_tree n m m' (ppn_address (entry m t i))).
Proof.
  intros Hs (_ & Hl & _) Hi. split.
  - assert (Hf : Forall2 same_kind (frame m t) (frame m' t)) by
      (apply Hs; rewrite tables_S; left).
    rewrite Forall2_lookup in Hf. specialize (Hf (Z.to_nat i)). unfold entry.
    rewrite !list_lookup_total_alt.
    destruct (lookup_lt_is_Some_2 (frame m t) (Z.to_nat i)) as [e He]; [lia|].
    rewrite He in Hf |- *. by inversion Hf as [? e' ? Heq|].
  - intros Ht. apply (same_tree_below n _ _ t); [done| |done].
    apply list_elem_of_lookup. exists (Z.to_nat i). apply list_lookup_lookup_total_lt. lia.
Qed.

Lemma same_tree_locate n : ∀ m m' t path, same_tree n m m' t → shape n m t →
  length path = n → Forall (λ i, 0 ≤ i < 512) path → locate m' t path = locate m t path.
Proof.
  induction n as [|n IH]; intros m m' t path Hst Hs Hlen Hr; [done|].
  destruct path as [|i path]; [done|]. apply Forall_cons in Hr as [Hi Hr].
  injection Hlen as Hlen. cbn [locate].
  destruct (same_tree_entry n m m' t i Hst Hs Hi) as [(Ht & Hv & Hp) Hsub].
  rewrite Ht, Hv. destruct (is_table (entry m t i)) eqn:Hte; [|done]. rewrite Hp by done.
  apply IH; auto. by apply (shape_entry n m t i).
Qed.

Lemma same_tree_shape n : ∀ m m' t, same_tree n m m' t → shape n m t →
  (∀ x, x ∈ tables n m t → Forall entry_ok (frame m' x)) → shape n m' t.
Proof.
  induction n as [|n IH]; intros m m' t Hst Hs Hok; [done|].
  pose proof Hs as (Htok & Hl & Hf).
  assert (Hf2 : Forall2 same_kind (frame m t) (frame m' t)) by
    (apply Hst; rewrite tables_S; left).
  split_and!; [done|by rewrite <-(Forall2_length _ _ _ Hf2)|].
  assert (Hok' : Forall entry_ok (frame m' t)) by (apply Hok; rewrite tables_S; left).
  rewrite Forall_lookup in Hok' |- *. intros k e' He'. split; [by apply (Hok' k)|].
  destruct (Forall2_lookup_r _ _ _ _ _ Hf2 He') as (e & He & Ht & _ & Hp).
  rewrite Ht. intros Hte. rewrite Hp by done.
  assert (e ∈ frame m t) as Hin by (apply list_elem_of_lookup; eauto).
  apply (IH m).
  - by apply (same_tree_below n _ _ t).
  - rewrite Forall_forall in Hf. by apply (Hf e Hin).
  - intros x Hx. apply Hok. rewrite tables_S. right. apply list_elem_of_bind. exists e.
    split; [|done]. unfold below. by rewrite Hte.
Qed.

Lemma entry_upd_if m t i e x j : length (frame m t) = 512%nat → 0 ≤ i < 512 → 0 ≤ j →
  entry (upd t i e m) x j = if decide (x = t ∧ j = i) then e else entry m x j.
Proof.
  intros Hl Hi Hj. destruct (decide (x = t ∧ j = i)) as [[-> ->]|Hne]; [by apply entry_upd|].
  destruct (decide (x = t)) as [->|].
  - apply entry_upd_ne; [lia..|]. intros ->. by apply Hne.
  - unfold entry. by rewrite frame_upd_ne.
Qed.

(** Rewriting a leaf where it is. *)
Lemma upd_leaf_same_tree n m t t' i e' : length (frame m t') = 512%nat → 0 ≤ i < 512 →
  is_leaf (entry m t' i) = true → is_leaf e' = true → same_tree n m (upd t' i e' m) t.
Proof.
  intros Hl Hi Hle Hle' x _.
  assert (Hleaf : ∀ e, is_leaf e = true → is_valid e = true ∧ is_table e = false).
  { intros e He. unfold is_table, is_leaf in *. by destruct (is_valid e), (Z.land e PTE_RWX =? 0). }
  destruct (Hleaf _ Hle) as [Hv Ht], (Hleaf _ Hle') as [Hv' Ht'].
  destruct (decide (x = t')) as [->|Hne]; [|rewrite frame_upd_ne by done; reflexivity].
  rewrite frame_upd. rewrite <-(list_insert_id (frame m t') (Z.to_nat i) (entry m t' i)) at 1.
  - apply Forall2_insert; [reflexivity|].
    split_and!; [congruence..|]. by rewrite Ht.
  - apply list_lookup_lookup_total_lt. lia.
Qed.

Section mapping.
Context `{BF : Bitflags} `{!BitflagsOk BF}.

Lemma map_leaf_fresh t i pa flags s :
  length (frame (mem s) t) = 512%nat → 0 ≤ i < 512 → entry (mem s) t i = 0 →
  pa mod 4096 = 0 →
  map_leaf t i (Some pa) flags s =
    (Ok tt, set_mem (upd t i (leaf_pte pa flags) (mem s)) s).
Proof.
  intros Hl Hi He Hm. unfold map_leaf, get_entry, gets, set_entry, modify, bind. rewrite He.
  simpl. rewrite set_physical_address_ok by done. unfold lift. simpl.
  rewrite entry_upd by done. by rewrite set_mem_set_mem, upd_upd, !bf_bitor_spec.
Qed.

(** A mapping into an empty slot. *)
Lemma map_leaf_grows n t i pa flags s :
  kwf s → shape (S n) (mem s) t → NoDup (tables (S n) (mem s) t) → owned (S n) s t →
  0 ≤ i < 512 → is_valid (entry (mem s) t i) = false → page_ok pa → leaf_flags flags →
  ∃ s', map_leaf t i (Some pa) flags s = (Ok tt, s') ∧ grows (S n) t s s' ∧
    (∀ j q, length q = n → Forall (λ i, 0 ≤ i < 512) q → 0 ≤ j < 512 → j ≠ i →
       walk (mem s') t (j :: q) = walk (mem s) t (j :: q)) ∧
    (∀ q, walk (mem s') t (i :: q) = Some (leaf_pte pa flags, length q)).
Proof.
  intros Hk Hs Hnd Hown Hi Hv Hpa Hfl.
  destruct (shape_entry n (mem s) t i Hs Hi) as [(_ & Hz & _) _].
  destruct (leaf_pte_spec pa flags Hpa Hfl) as (Hleaf & Hppn & Hok & _).
  assert (Hnt : is_table (leaf_pte pa flags) = false) by
    (unfold is_table; by rewrite Hleaf, andb_false_r).
  assert (Hb : below n (upd t i (leaf_pte pa flags) (mem s)) (leaf_pte pa flags) = []) by
    (unfold below; by rewrite Hnt).
  eexists. split; [apply map_leaf_fresh; [apply Hs|done|by apply Hz|apply Hpa]|].
  destruct (graft_grows n t i (leaf_pte pa flags) s
    (set_mem (upd t i (leaf_pte pa flags) (mem s)) s)) as (Hg & Hne & Heq);
    cbn [mem meta fa set_mem] in *; auto.
  - by destruct Hk; split.
  - apply frame_upd.
  - intros x Hx _ _. by apply frame_upd_ne.
  - rewrite Hb. constructor.
  - rewrite Hb. set_solver.
  - unfold below at 1. unfold is_table. rewrite Hv. by intros x ?%elem_of_nil.
  - by rewrite Hnt.
  - split_and!; [done|done|]. intros q. rewrite Heq, Hnt.
    by rewrite (not_table _ Hnt), Hleaf.
Qed.

(** [map_memory_with_base] along the indices of the mapping. *)
Fixpoint map_path (t : Z) (path : list Z) (pa flags base : Z) : KM unit :=
  match path with
  | [] => panic
  | [i] => map_leaf t i (Some pa) flags
  | i :: path' =>
      let! t' := get_or_create_next_table t i base in
      map_path t' path' pa flags base
  end.

Lemma map_memory_path root va pa flags base ps s :
  map_memory_with_base root va (Some pa) flags base ps s =
    (check_mapping_alignment va (Some pa) ps ;;;
     map_path root (path_of va ps) pa flags base) s.
Proof. by destruct ps. Qed.

Lemma map_path_spec path pa flags base : ∀ n t s,
  path ≠ [] → (length path ≤ n)%nat → Forall (λ i, 0 ≤ i < 512) path →
  kwf s → shape n (mem s) t → NoDup (tables n (mem s) t) → owned n s t →
  unmapped (mem s) t path = true →
  base = 0 ∨ base = KERNEL_DIRECT_MAPPING_BASE → page_ok pa → leaf_flags flags →
  match map_path t path pa flags base s with
  | (Ok _, s') => grows n t s s' ∧
      ∀ q, length q = n → Forall (λ i, 0 ≤ i < 512) q →
        walk (mem s') t q =
          if decide (path `prefix_of` q) then Some (leaf_pte pa flags, (n - length path)%nat)
          else walk (mem s) t q
  | (Panic, s') => full (fa s')
  | _ => False
  end.
Proof.
  induction path as [|i path IH]; intros n t s Hne Hlen Hr Hk Hs Hnd Hown Hu Hb Hpa Hfl;
    [done|]. apply Forall_cons in Hr as [Hi Hr]. destruct n as [|n]; [simpl in Hlen; lia|].
  assert (Hnl : is_leaf (entry (mem s) t i) = false).
  { cbn [unmapped] in Hu. destruct (is_table (entry (mem s) t i)) eqn:Ht.
    - by destruct (is_table_valid _ Ht).
    - rewrite <-(not_table _ Ht). by apply negb_true_iff. }
  destruct path as [|i' path].
  - assert (Hv : is_valid (entry (mem s) t i) = false).
    { cbn [unmapped] in Hu. destruct (is_table _); [done|]. by apply negb_true_iff. }
    destruct (map_leaf_grows n t i pa flags s) as (s' & Hm & Hg & Hwne & Hweq); auto.
    cbn [map_path]. rewrite Hm. split; [done|]. intros [|j q] Hq Hrq; [done|].
    apply Forall_cons in Hrq as [Hj Hrq]. injection Hq as Hq.
    destruct (decide ([i] `prefix_of` j :: q)) as [Hp|Hp].
    + apply prefix_cons_inv_1 in Hp as ->. rewrite Hweq. simpl. do 2 f_equal. lia.
    + apply Hwne; [done..|]. intros ->. apply Hp. by apply prefix_cons, prefix_nil.
  - destruct n as [|n]; [simpl in Hlen; lia|].
    pose proof (next_table_spec n s t i base Hk Hs Hnd Hown Hi Hb Hnl) as Hnext.
    change (map_path t (i :: i' :: path) pa flags base s) with
      (bind (get_or_create_next_table t i base)
         (λ t', map_path t' (i' :: path) pa flags base) s). unfold bind.
    destruct (get_or_create_next_table t i base s) as [[t'|e| |] s1]; [|done..].
    destruct Hnext as (Hg & Ht & <- & Hw & Hu'). pose proof Hg as [Hk1 _ Hs1 Hnd1 Hown1 _ _ _ _ _].
    destruct (nodup_below _ _ t i Hs1 Hnd1 Hi) as [Hndb _].
    assert (Hbel : below (S n) (mem s1) (entry (mem s1) t i) =
      tables (S n) (mem s1) (ppn_address (entry (mem s1) t i))) by (unfold below; by rewrite Ht).
    rewrite Hbel in Hndb. specialize (IH (S n) (ppn_address (entry (mem s1) t i)) s1).
    assert (Hsub : owned (S n) s1 (ppn_address (entry (mem s1) t i))).
    { intros x Hx. apply Hown1. apply (below_in_tables _ _ t i); [done..|]. by rewrite Hbel. }
    specialize (IH ltac:(done) ltac:(simpl in *; lia) Hr Hk1
      (proj2 (shape_entry _ _ t i Hs1 Hi) Ht) Hndb Hsub (Hu' (i' :: path) ltac:(done) Hr Hu) Hb Hpa Hfl).
    destruct (map_path _ (i' :: path) pa flags base s1) as [[[]|e| |] s2]; [|done..].
    destruct IH as [Hg2 Hw2].
    destruct (grows_below (S n) t i s1 s2) as [Hg3 Hw3]; [done..|].
    split; [by apply (grows_trans _ _ _ s1)|]. intros [|j q] Hq Hrq; [done|].
    injection Hq as Hq. rewrite <-(Hw (j :: q)) by (simpl; congruence || done).
    apply Forall_cons in Hrq as [Hj Hrq]. rewrite Hw3 by done.
    destruct (decide (j = i)) as [->|Hji].
    + rewrite Hw2 by done. cbn [walk]. rewrite Ht.
      destruct (decide (i' :: path `prefix_of` q)) as [Hp|Hp].
      * rewrite decide_True by (by apply prefix_cons). done.
      * rewrite decide_False; [done|]. intros ?%prefix_cons_inv_2. done.
    + rewrite decide_False; [done|]. by intros ->%prefix_cons_inv_1.
Qed.

Lemma check_alignment_ok va pa ps (s : Kmem) : va mod bytes ps = 0 → pa mod bytes ps = 0 →
  check_mapping_alignment va (Some pa) ps s = (Ok tt, s).
Proof.
  intros Hv Hp. unfold check_mapping_alignment, bind, assert.
  assert (Hm : ∀ x, x mod bytes ps = 0 → Z.land x (bytes ps - 1) = 0).
  { intros x <-. destruct ps; [apply (land_low_mask _ 12)|apply (land_low_mask _ 21)|
      apply (land_low_mask _ 30)]; done. }
  rewrite (Hm va Hv). simpl.
  pose proof (Hm pa Hp) as Hpa. destruct ps; simpl in Hpa;
    unfold is_4k_page_aligned, is_2m_page_aligned, is_1g_page_aligned; simpl; by rewrite Hpa.
Qed.

Lemma map_memory_grows s root va pa flags base ps :
  aspace s root → base = 0 ∨ base = KERNEL_DIRECT_MAPPING_BASE →
  va mod bytes ps = 0 → page_ok pa → pa mod bytes ps = 0 → leaf_flags flags →
  unmapped (mem s) root (path_of va ps) = true →
  match map_memory_with_base root va (Some pa) flags base ps s with
  | (Ok _, s') => grows 3 root s s' ∧
      ∀ q, length q = 3%nat → Forall (λ i, 0 ≤ i < 512) q →
        walk (mem s') root q =
          if decide (path_of va ps `prefix_of` q)
          then Some (leaf_pte pa flags, (3 - length (path_of va ps))%nat)
          else walk (mem s) root q
  | (Panic, s') => full (fa s')
  | _ => False
  end.
Proof.
  intros Has Hb Hvm Hpa Hpm Hfl Hu. pose proof Has as (Hk & [Hs Hnd] & Hown).
  rewrite map_memory_path. unfold bind. rewrite check_alignment_ok by done.
  pose proof (map_path_spec (path_of va ps) pa flags base 3 root s) as Hmap.
  assert (Hlen : (length (path_of va ps) ≤ 3)%nat) by (destruct ps; simpl; lia).
  specialize (Hmap ltac:(by destruct ps) Hlen (path_range va ps) Hk Hs Hnd Hown Hu Hb Hpa Hfl).
  by destruct (map_path root (path_of va ps) pa flags base s) as [[[]|e| |] s'].
Qed.

Lemma map_memory_spec s root va pa flags base ps :
  aspace s root → base = 0 ∨ base = KERNEL_DIRECT_MAPPING_BASE →
  va mod bytes ps = 0 → page_ok pa → pa mod bytes ps = 0 → leaf_flags flags →
  unmapped (mem s) root (path_of va ps) = true →
  match map_memory_with_base root va (Some pa) flags base ps s with
  | (Ok _, s') => aspace s' root ∧ rest_kept s s' root ∧
      ∀ q, length q = 3%nat → Forall (λ i, 0 ≤ i < 512) q →
        walk (mem s') root q =
          if decide (path_of va ps `prefix_of` q)
          then Some (leaf_pte pa flags, (3 - length (path_of va ps))%nat)
          else walk (mem s) root q
  | (Panic, s') => full (fa s')
  | _ => False
  end.
Proof.
  intros Has Hb Hvm Hpa Hpm Hfl Hu. pose proof (map_memory_grows s root va pa flags base ps Has Hb Hvm Hpa Hpm Hfl Hu) as Hmap.
  destruct (map_memory_with_base _ _ _ _ _ _ s) as [[[]|e| |] s']; [|done..].
  destruct Hmap as [Hg Hw]. destruct (grows_rest s s' root Has Hg) as [Has' Hrest]. by split; [|split].
Qed.

Lemma map_translate_spec s root va pa flags base ps :
  aspace s root → base = 0 ∨ base = KERNEL_DIRECT_MAPPING_BASE →
  is_u64 va → va_ok va = true → va mod bytes ps = 0 →
  page_ok pa → pa mod bytes ps = 0 → leaf_flags flags →
  unmapped (mem s) root (path_of va ps) = true →
  match map_memory_with_base root va (Some pa) flags base ps s with
  | (Ok _, s') =>
      aspace s' root ∧ rest_kept s s' root ∧
      ∀ va', is_u64 va' → va_ok va' = true →
        if decide (va ≤ va' < va + bytes ps) then
          translate (mem s') root va' = Ok (Some (pa + (va' - va))) ∧
          ∃ pte k, walk (mem s') root (path_of va' Size4K) = Some (pte, k) ∧
            ∀ i, 0 ≤ i < 8 → Z.testbit pte i =
              Z.testbit flags i || (i =? 0) || (i =? 6) || (i =? 7)
        else translate (mem s') root va' = translate (mem s) root va' ∧
          walk (mem s') root (path_of va' Size4K) = walk (mem s) root (path_of va' Size4K)
  | (Panic, s') => full (fa s')
  | _ => False
  end.
Proof.
  intros Has Hb Hva Hvok Hvm Hpa Hpm Hfl Hu. pose proof Has as (_ & [Hs _] & _).
  pose proof (map_memory_spec s root va pa flags base ps Has Hb Hvm Hpa Hpm Hfl Hu) as Hmap.
  destruct (map_memory_with_base _ _ _ _ _ _ s) as [[[]|e| |] s']; [|done..].
  destruct Hmap as (Has' & Hrest & Hw). split; [done|]. split; [done|].
  destruct Has' as (_ & [Hs' _] & _).
  intros va' Hva' Hvok'. rewrite !translate_walk by (done || apply Hva').
  rewrite (Hw (path_of va' Size4K)) by (done || apply path_range).
  destruct (leaf_pte_spec pa flags Hpa Hfl) as (_ & Hppn & _ & Hbits).
  destruct (decide (va ≤ va' < va + bytes ps)) as [Hin|Hin];
    rewrite <-(path_prefix va va' ps) in Hin by done.
  - rewrite decide_True by done. split; [|by eauto]. simpl. rewrite Hppn.
    assert (size_of (3 - length (path_of va ps)) = ps) as -> by (by destruct ps).
    apply path_prefix in Hin; [|done..]. do 2 f_equal.
    f_equal. symmetry. apply (Z.mod_unique_pos _ _ (va / bytes ps)); [lia|].
    pose proof (Z.div_mod va (bytes ps)). destruct ps; simpl in *; lia.
  - by rewrite decide_False by done.
Qed.

(** C3: mapping a free page of any of the three sizes makes every address of
    the page, and no other address, translate to the corresponding address of
    the frame, with the requested permissions.  It keeps the page tables
    well-formed, writes no frame that is not a table of this address space
    afterwards, in use or not, and takes no frame from the allocator but for new
    tables.  It returns, unless the frame allocator is exhausted, in which case it
    panics. *)
Theorem map_then_translate s root va pa flags base ps :
  aspace s root → base = 0 ∨ base = KERNEL_DIRECT_MAPPING_BASE →
  is_u64 va → va_ok va = true → va mod bytes ps = 0 →
  page_ok pa → pa mod bytes ps = 0 → leaf_flags flags →
  unmapped (mem s) root (path_of va ps) = true →
  match map_memory_with_base root va (Some pa) flags base ps s with
  | (Ok _, s') =>
      aspace s' root ∧ only_tables s s' root ∧
      ∀ va', is_u64 va' → va_ok va' = true →
        if decide (va ≤ va' < va + bytes ps) then
          translate (mem s') root va' = Ok (Some (pa + (va' - va))) ∧
          ∃ pte k, walk (mem s') root (path_of va' Size4K) = Some (pte, k) ∧
            ∀ i, 0 ≤ i < 8 → Z.testbit pte i =
              Z.testbit flags i || (i =? 0) || (i =? 6) || (i =? 7)
        else translate (mem s') root va' = translate (mem s) root va' ∧
          walk (mem s') root (path_of va' Size4K) = walk (mem s) root (path_of va' Size4K)
  | (Panic, s') => full (fa s')
  | _ => False
  end.
Proof.
  intros Has Hb Hva Hvok Hvm Hpa Hpm Hfl Hu.
  pose proof (map_translate_spec s root va pa flags base ps Has Hb Hva Hvok Hvm Hpa Hpm Hfl Hu) as Ht.
  pose proof (map_memory_grows s root va pa flags base ps Has Hb Hvm Hpa Hpm Hfl Hu) as Hg.
  destruct (map_memory_with_base root va (Some pa) flags base ps s) as [[[]|e| |] s']; [|done..].
  destruct Ht as (Has' & _ & Ht), Hg as [Hg _]. split; [done|]. split; [by apply grows_only_tables|done].
Qed.

(** ** Mapping over a leaf *)

Lemma map_leaf_existing t i pa flags s : length (frame (mem s) t) = 512%nat → 0 ≤ i < 512 →
  is_leaf (entry (mem s) t i) = true →
  map_leaf t i pa flags s =
    (Ok tt, set_mem (upd t i (set_flags (entry (mem s) t i)
       (Z.lor (Z.lor (Z.lor flags PTE_V) PTE_A) PTE_D)) (mem s)) s).
Proof.
  intros Hl Hi Hleaf. unfold map_leaf, get_entry, gets, set_entry, modify, bind.
  assert (Hv : is_valid (entry (mem s) t i) = true) by
    (unfold is_leaf in Hleaf; by destruct (is_valid _)).
  rewrite Hleaf, Hv. simpl. by rewrite !bf_bitor_spec.
Qed.

(** [remap_memory_with_base] writes the leaf that [locate] finds. *)
Lemma remap_locate root va flags base s : shape 3 (mem s) root →
  base = 0 ∨ base = KERNEL_DIRECT_MAPPING_BASE →
  remap_memory_with_base root va flags base s =
    match locate (mem s) root (path_of va Size4K) with
    | Some (t, i, _) => map_leaf t i None flags s
    | None => (Panic, s)
    end.
Proof.
  intros Hs Hb. unfold remap_memory_with_base, get_entry, gets, path_of.
  destruct (vpn_range va) as (H2 & H1 & H0). unfold bind at 1. cbn [locate].
  destruct (shape_entry _ _ _ _ Hs H2) as [_ Hs1]. unfold is_table in *.
  destruct (is_valid (entry (mem s) root (vpn_2 va))); [|done]. cbn [negb andb] in *.
  destruct (is_leaf (entry (mem s) root (vpn_2 va))); [done|]. cbn [negb] in *.
  specialize (Hs1 eq_refl). pose proof (shape_table_ok _ _ _ Hs1) as Hok1.
  destruct (table_ok_page_ok _ Hok1) as [(? & ? & ?) _].
  destruct (table_ok_mapped _ _ Hok1 Hb) as [Hadd1 _].
  unfold bind at 1, lift at 1.
  rewrite physical_address_ok by (change PA_MAX with (2 ^ 55 - 1); lia).
  unfold bind at 1, lift at 1. rewrite Hadd1. unfold bind at 1.
  set (l1 := ppn_address _) in *. destruct (shape_entry _ _ _ _ Hs1 H1) as [_ Hs0].
  unfold is_table in Hs0. destruct (is_valid (entry (mem s) l1 (vpn_1 va))); [|done].
  cbn [negb andb] in *. destruct (is_leaf (entry (mem s) l1 (vpn_1 va))); [done|].
  cbn [negb] in *. specialize (Hs0 eq_refl). pose proof (shape_table_ok _ _ _ Hs0) as Hok0.
  destruct (table_ok_page_ok _ Hok0) as [(? & ? & ?) _].
  destruct (table_ok_mapped _ _ Hok0 Hb) as [Hadd0 _].
  unfold bind at 1, lift at 1.
  rewrite physical_address_ok by (change PA_MAX with (2 ^ 55 - 1); lia).
  unfold bind at 1, lift at 1. rewrite Hadd0. unfold bind at 1.
  set (l0 := ppn_address (entry (mem s) l1 (vpn_1 va))) in *.
  destruct (shape_entry _ _ _ _ Hs0 H0) as [_ Hsn].
  unfold is_table in Hsn. destruct (is_valid (entry (mem s) l0 (vpn_0 va))); [|done].
  cbn [negb andb orb] in *. destruct (is_leaf (entry (mem s) l0 (vpn_0 va))); [done|].
  destruct (Hsn eq_refl).
Qed.

Lemma map_path_existing pa flags base t' i rest : ∀ path n t s,
  shape n (mem s) t → length (path ++ rest) = n → Forall (λ i, 0 ≤ i < 512) path →
  base = 0 ∨ base = KERNEL_DIRECT_MAPPING_BASE → path ≠ [] →
  locate (mem s) t (path ++ rest) = Some (t', i, length rest) →
  map_path t path pa flags base s = map_leaf t' i (Some pa) flags s.
Proof.
  intros path. induction path as [|j path IH]; intros n t s Hs Hlen Hr Hb Hne Hl; [done|].
  apply Forall_cons in Hr as [Hj Hr]. destruct n as [|n]; [done|]. injection Hlen as Hlen.
  destruct (shape_entry _ _ _ _ Hs Hj) as [_ Hsub]. rewrite <-app_comm_cons in Hl.
  cbn [locate] in Hl. destruct path as [|j' path].
  - destruct (is_table (entry (mem s) t j)) eqn:Ht.
    { exfalso. revert Hl. generalize (ppn_address (entry (mem s) t j)). clear.
      cut (∀ q k t0, (length q ≤ k)%nat → locate (mem s) t0 q ≠ Some (t', i, k)).
      { intros Hq t0. apply Hq. simpl. lia. }
      induction q as [|? q IH]; intros k t0 Hk; [done|]. simpl in *.
      destruct (is_table _); [apply IH; lia|]. destruct (is_valid _); [|done].
      intros ?; simplify_eq. lia. }
    destruct (is_valid _); [|done]. by simplify_eq.
  - destruct (is_table (entry (mem s) t j)) eqn:Ht.
    2:{ destruct (is_valid _); [|done]. simplify_eq. rewrite length_app in *. simpl in *. lia. }
    change (map_path t (j :: j' :: path) pa flags base s) with
      (bind (get_or_create_next_table t j base)
         (λ t', map_path t' (j' :: path) pa flags base) s).
    specialize (Hsub eq_refl). pose proof (shape_table_ok _ _ _ Hsub) as Hok.
    destruct (table_ok_page_ok _ Hok) as [(? & ? & ?) _].
    destruct (table_ok_mapped _ _ Hok Hb) as [Hadd _].
    destruct (is_table_valid _ Ht) as [Hv Hlf].
    assert (Hget : get_or_create_next_table t j base s =
      (Ok (ppn_address (entry (mem s) t j)), s)).
    { unfold get_or_create_next_table, get_entry, gets, bind, lift. rewrite Hv, Hlf.
      rewrite physical_address_ok by (change PA_MAX with (2 ^ 55 - 1); lia).
      by rewrite Hadd. }
    rewrite (bind_ok _ _ _ _ _ Hget). by apply (IH n).
Qed.

Lemma leaf_rewrite s root va t i k e' : aspace s root →
  locate (mem s) root (path_of va Size4K) = Some (t, i, k) → is_leaf e' = true → entry_ok e' →
  let s' := set_mem (upd t i e' (mem s)) s in
  aspace s' root ∧ tables 3 (mem s') root = tables 3 (mem s) root ∧
  (∀ va', locate (mem s') root (path_of va' Size4K) = locate (mem s) root (path_of va' Size4K)).
Proof.
  intros (Hk & [Hs Hnd] & Hown) Hl He' Hok'. cbn zeta.
  destruct (locate_spec 3 _ root (path_of va Size4K) t i k Hs eq_refl (path_range va _) Hl)
    as (Hin & Hlen & Hi & Hleaf & Hok & _).
  pose proof (upd_leaf_same_tree 3 (mem s) root t i e' Hlen Hi Hleaf He') as Hst.
  pose proof (same_tree_tables _ _ _ _ Hst) as Ht.
  split; [split; [|split; [split|]]|split].
  - by destruct Hk; split.
  - apply (same_tree_shape 3 (mem s)); [done..|]. intros x Hx.
    assert (Hall : Forall entry_ok (frame (mem s) x)) by (by apply (shape_entries 3 (mem s) root x)).
    destruct (decide (x = t)) as [->|].
    + cbn [mem set_mem]. rewrite frame_upd. by apply Forall_insert.
    + cbn [mem set_mem]. by rewrite frame_upd_ne.
  - cbn [mem set_mem]. by rewrite Ht.
  - intros x. cbn [mem set_mem]. rewrite Ht. apply Hown.
  - done.
  - intros va'. by apply (same_tree_locate 3); [..|apply path_range].
Qed.

(** Adding flags to a leaf. *)
Lemma set_flags_leaf e flags : is_leaf e = true → entry_ok e → 0 ≤ flags < 256 →
  let e' := set_flags e (Z.lor (Z.lor (Z.lor flags PTE_V) PTE_A) PTE_D) in
  is_leaf e' = true ∧ entry_ok e' ∧ ppn_address e' = ppn_address e.
Proof.
  intros Hleaf (Hu64 & _ & Hbd) Hfl.
  set (fl := Z.lor (Z.lor (Z.lor flags PTE_V) PTE_A) PTE_D).
  assert (0 ≤ fl < 1024) as Hr.
  { assert (in_width 8 fl) as [? Hlt]; [|change (2 ^ 8) with 256 in Hlt; lia].
    unfold fl, PTE_V, PTE_A, PTE_D. by do 3 (apply in_width_set_bit; [lia|]). }
  assert (Hleaf' : is_leaf (set_flags e fl) = true).
  { rewrite is_leaf_bits in Hleaf |- *. unfold set_flags. rewrite !Z.lor_spec.
    apply andb_prop in Hleaf as [-> Hx]. rewrite !orb_true_iff in Hx.
    by destruct Hx as [[-> | ->]| ->]; rewrite ?orb_true_r. }
  split_and!; [done| |by apply ppn_set_flags]. split_and!; [by apply is_u64_set_flags| |].
  - unfold is_leaf in Hleaf'. by destruct (is_valid _).
  - rewrite ppn_set_flags by done. auto.
Qed.

(** [remap_vm] finds the mapping of any size that covers the address and
    only adds to its permissions: the frame, and so the translation of every
    address, stays as it was, and no permission is removed.  It panics exactly
    when the address is not mapped.  [map_vm] on a page that is already mapped
    with the same size does just this, whatever frame it is given. *)
Theorem remap_only_adds_permissions s root va flags base :
  aspace s root → base = 0 ∨ base = KERNEL_DIRECT_MAPPING_BASE → 0 ≤ flags < 256 →
  match remap_memory_with_base root va flags base s with
  | (Ok _, s') =>
      aspace s' root ∧ fa s' = fa s ∧ meta s' = meta s ∧
      (∀ x, x ∉ tables 3 (mem s) root → frame (mem s') x = frame (mem s) x) ∧
      (∀ va', 0 ≤ va' → translate (mem s') root va' = translate (mem s) root va') ∧
      (∃ pte k,
        walk (mem s) root (path_of va Size4K) = Some (pte, k) ∧
        walk (mem s') root (path_of va Size4K) = Some (Z.lor pte (Z.lor flags 0xC1), k) ∧
        ∀ pa, va mod bytes (size_of k) = 0 → pa mod bytes (size_of k) = 0 →
          map_memory_with_base root va (Some pa) flags base (size_of k) s = (Ok tt, s'))
  | (Panic, s') => s' = s ∧ walk (mem s) root (path_of va Size4K) = None
  | _ => False
  end.
Proof.
  intros Has Hb Hfl. pose proof Has as (_ & [Hs _] & _). rewrite remap_locate by done.
  rewrite walk_locate.
  destruct (locate (mem s) root (path_of va Size4K)) as [[[t i] k]|] eqn:Hl; [|done].
  destruct (locate_spec 3 _ root (path_of va Size4K) t i k Hs eq_refl (path_range va _) Hl)
    as (Hin & Hlen & Hi & Hleaf & Hok & Hk).
  rewrite map_leaf_existing by done. set (e := entry (mem s) t i) in *.
  destruct (set_flags_leaf e flags Hleaf Hok Hfl) as (Hleaf' & Hok' & Hppn).
  set (fl := Z.lor (Z.lor (Z.lor flags PTE_V) PTE_A) PTE_D) in *.
  destruct (leaf_rewrite s root va t i k _ Has Hl Hleaf' Hok') as (Has' & _ & Hloc).
  set (s' := set_mem (upd t i (set_flags e fl) (mem s)) s) in *.
  assert (Hent := λ x j, entry_upd_if (mem s) t i (set_flags e fl) x j Hlen Hi).
  split_and!; [apply Has'|done|done| | |].
  - intros x Hx. apply frame_upd_ne. by intros ->.
  - intros va' Hva'. rewrite !translate_walk by (done || apply Has'). rewrite !walk_locate, Hloc.
    destruct (locate (mem s) root (path_of va' Size4K)) as [[[t' j] k']|] eqn:Hl'; [|done].
    apply (locate_spec 3) in Hl' as (_ & _ & Hj & _); [|done|done|apply path_range].
    simpl. rewrite Hent by lia. destruct (decide _) as [[-> ->]|]; [by rewrite Hppn|done].
  - exists e, k. split; [done|]. split.
    { rewrite walk_locate, Hloc, Hl. simpl. rewrite Hent, decide_True by (done || lia).
      unfold set_flags, fl. by rewrite <-!Z.lor_assoc. }
    intros pa Hv Hp. rewrite map_memory_path. unfold bind. rewrite check_alignment_ok by done.
    assert (∃ rest, path_of va (size_of k) ++ rest = path_of va Size4K ∧ length rest = k)
      as (rest & Hrest & Hk').
    { destruct k as [|[|[|]]]; [exists []|exists [vpn_0 va]|exists [vpn_1 va; vpn_0 va]|lia]; done. }
    rewrite (map_path_existing pa flags base t i rest _ 3);
      [by apply map_leaf_existing|done| |apply path_range|done|by destruct (size_of k)|].
    + by rewrite Hrest.
    + by rewrite Hrest, Hk'.
Qed.
End mapping.

(** ** A concrete address space

    Boot with one word of frames, and an empty root table in the first. *)

Definition example_kmem : Kmem :=
  (initialize_empty_pt 0x80200000
     (alloc_frame (mkKmem (FrameAllocator.new 1 0x80200000) ∅ ∅)).2).2.

Lemma example_aspace : aspace example_kmem 0x80200000.
Proof.
  assert (Hk : kwf (mkKmem (FrameAllocator.new 1 0x80200000) ∅ ∅)).
  { split; [by apply (holds_new 1 0x80200000)|done..]. }
  pose proof (alloc_frame_spec _ Hk) as Ha.
  replace (alloc_frame (mkKmem (FrameAllocator.new 1 0x80200000) ∅ ∅)) with
    (@Ok Error Z 0x80200000, (alloc_frame (mkKmem (FrameAllocator.new 1 0x80200000) ∅ ∅)).2)
    in Ha by (vm_compute; reflexivity).
  destruct Ha as (_ & _ & Hk' & Htok & _ & Hh).
  apply aspace_empty; [by destruct Hk'; split|by apply Hh; left|done|].
  apply frame_insert.
Qed.

Lemma map_then_translate_witness :
  ∃ s', map_memory_with_base 0x80200000 0x10000 (Some 0x80210000) (Z.lor PTE_RW PTE_U)
          KERNEL_DIRECT_MAPPING_BASE Size4K example_kmem = (Ok tt, s') ∧
    translate (mem s') 0x80200000 0x10abc = Ok (Some 0x80210abc) ∧
    translate (mem s') 0x80200000 0x11000 = Ok None.
Proof.
  pose proof (map_then_translate example_kmem 0x80200000 0x10000 0x80210000
    (Z.lor PTE_RW PTE_U) KERNEL_DIRECT_MAPPING_BASE Size4K example_aspace
    (or_intror eq_refl) ltac:(done) ltac:(done) ltac:(done) ltac:(done) ltac:(done)
    ltac:(done) ltac:(vm_compute; reflexivity)) as H.
  destruct (map_memory_with_base 0x80200000 0x10000 _ _ _ _ example_kmem) as [[[]|e| |] s'] eqn:Hm;
    [|done|by vm_compute in Hm|done].
  destruct H as (_ & _ & H). exists s'. split; [done|]. split.
  - specialize (H 0x10abc ltac:(done) ltac:(done)). rewrite decide_True in H by done. apply H.
  - specialize (H 0x11000 ltac:(done) ltac:(done)).
    rewrite decide_False in H by (simpl; lia). destruct H as [-> _]. vm_compute; reflexivity.
Defined.

(** The example with the second gigabyte identity-mapped, readable. *)
Definition example_mapped : Kmem :=
  (map_memory_with_base 0x80200000 0x40000000 (Some 0x40000000) PTE_R 0 Size1G example_kmem).2.

Lemma example_mapped_aspace : aspace example_mapped 0x80200000.
Proof.
  unfold example_mapped.
  pose proof (map_memory_spec example_kmem 0x80200000 0x40000000 0x40000000 PTE_R 0 Size1G
    example_aspace (or_introl eq_refl) ltac:(done) ltac:(done) ltac:(done) ltac:(done)
    ltac:(vm_compute; reflexivity)) as H.
  destruct (map_memory_with_base 0x80200000 0x40000000 _ _ _ _ example_kmem)
    as [[[]|e| |] s'] eqn:Hm; [by destruct H|done|by vm_compute in Hm|done].
Qed.

Lemma remap_only_adds_permissions_witness :
  ∃ s', remap_memory_with_base 0x80200000 0x40001000 PTE_W 0 example_mapped = (Ok tt, s') ∧
    translate (mem s') 0x80200000 0x40001234 = Ok (Some 0x40001234).
Proof.
  pose proof (remap_only_adds_permissions example_mapped 0x80200000 0x40001000 PTE_W 0
    example_mapped_aspace (or_introl eq_refl) ltac:(done)) as H.
  destruct (remap_memory_with_base 0x80200000 0x40001000 PTE_W 0 example_mapped)
    as [[[]|e| |] s'] eqn:Hm; [|done|by vm_compute in Hm|done].
  exists s'. split; [done|]. destruct H as (_ & _ & _ & _ & Ht & _).
  rewrite Ht by done. vm_compute; reflexivity.
Defined.
