(* ===== verification/PageFork.v ===== *)
(** * Forking, copy-on-write and freeing of address spaces

    Theorems about [PageTable::fork], [copy_on_write] and [traverse_free] of
    [page_table.rs]. *)

From S2P Require Import Prelude Errors Addr Sv39 FrameAllocator PageMeta PageTable PageMap.

(** ** What [fork] makes of an entry *)

(** A writable user page becomes read-only in both address spaces. *)
Definition cow (e : Z) : Z :=
  if is_leaf e && is_user e && is_writable e then unset_flags e PTE_W else e.

(** A leaf stays a leaf without its W bit. *)
Definition rx_leaf (e : Z) : Prop :=
  is_leaf e = true → Z.testbit e 1 || Z.testbit e 3 = true.

(** The user pages below one entry and below a table, in the order [fork] adds
    references to them. *)
Fixpoint user_pages (n : nat) (m : gmap Z (list Z)) (t : Z) : list Z :=
  match n with
  | O => []
  | S n' => frame m t ≫= λ e,
      if is_table e then user_pages n' m (ppn_address e)
      else if is_leaf e && is_user e then [ppn_address e] else []
  end.

Definition pages_below (n : nat) (m : gmap Z (list Z)) (e : Z) : list Z :=
  if is_table e then user_pages n m (ppn_address e)
  else if is_leaf e && is_user e then [ppn_address e] else [].

Definition add_all (table : gmap Z Z) (pages : list Z) : gmap Z Z :=
  foldl (λ table pa, PageMeta.add pa table) table pages.

(** Table [c] in [m'] is a copy of table [t] in [m]: the same flags, tables for
    tables, and the same pages without write permission. *)
Fixpoint copy_of (n : nat) (m : gmap Z (list Z)) (t : Z) (m' : gmap Z (list Z)) (c : Z) : Prop :=
  match n with
  | O => True
  | S n' =>
      Forall2 (λ e e',
        if is_table e then is_table e' = true ∧ copy_of n' m (ppn_address e) m' (ppn_address e')
        else e' = cow e) (frame m t) (frame m' c)
  end.

Definition copied (n : nat) (m m' : gmap Z (list Z)) (e e' : Z) : Prop :=
  if is_table e then is_table e' = true ∧ copy_of n m (ppn_address e) m' (ppn_address e')
  else e' = cow e.

Lemma is_leaf_not_table e : is_leaf e = true → is_valid e = true ∧ is_table e = false.
Proof.
  intros He. unfold is_table, is_leaf in *. by destruct (is_valid e), (Z.land e PTE_RWX =? 0).
Qed.

Lemma cow_spec e : entry_ok e → rx_leaf e →
  same_kind e (cow e) ∧ entry_ok (cow e) ∧ ppn_address (cow e) = ppn_address e ∧
  is_leaf (cow e) = is_leaf e ∧ is_user (cow e) = is_user e ∧
  (is_leaf e = true → is_user e = true → is_writable (cow e) = false).
Proof.
  intros (Hu & Hz & Hb) Hrx. unfold cow.
  destruct (is_leaf e && is_user e && is_writable e) eqn:Hc.
  2:{ split; [reflexivity|]. split; [by split_and!|]. split_and!; [done..|].
      intros Hl Hus. by rewrite Hl, Hus in Hc. }
  apply andb_prop in Hc as [[Hl Hus]%andb_prop _]. specialize (Hrx Hl).
  assert (Hbit := λ i, testbit_unset_W e i Hu).
  assert (Hl' : is_leaf (unset_flags e PTE_W) = true).
  { rewrite is_leaf_bits in Hl |- *. rewrite !Hbit by done. cbn [Z.eqb Pos.eqb negb].
    rewrite !andb_true_r, andb_false_r, orb_false_r, Hrx. by apply andb_prop in Hl as [-> _]. }
  assert (Hp : ppn_address (unset_flags e PTE_W) = ppn_address e) by (by apply ppn_unset_flags).
  destruct (is_leaf_not_table _ Hl) as [Hv Ht], (is_leaf_not_table _ Hl') as [Hv' Ht'].
  split_and!; try congruence.
  - split_and!; congruence.
  - split_and!; [by apply is_u64_unset_flags|congruence|]. intros _. rewrite Hp. auto.
  - rewrite !is_user_bit, Hbit in * by done. rewrite Hus. done.
  - intros _ _. rewrite is_writable_bit, Hbit by done. apply andb_false_r.
Qed.

Lemma cow_table e : is_leaf e = false → cow e = e.
Proof. intros He. unfold cow. by rewrite He. Qed.

Lemma copy_of_frame n : ∀ m1 m1' m2 m2' t c,
  copy_of n m1 t m1' c →
  (∀ x, x ∈ tables n m1 t → frame m2 x = frame m1 x) →
  (∀ x, x ∈ tables n m1' c → frame m2' x = frame m1' x) → copy_of n m2 t m2' c.
Proof.
  induction n as [|n IH]; intros m1 m1' m2 m2' t c Hc H1 H2; [done|].
  cbn [copy_of] in *. rewrite tables_S in H1, H2.
  rewrite (H1 t), (H2 c) by set_solver.
  assert (Hb1 : ∀ e x, e ∈ frame m1 t → x ∈ below n m1 e → frame m2 x = frame m1 x).
  { intros e x He Hx. apply H1. right. apply list_elem_of_bind. eauto. }
  assert (Hb2 : ∀ e x, e ∈ frame m1' c → x ∈ below n m1' e → frame m2' x = frame m1' x).
  { intros e x He Hx. apply H2. right. apply list_elem_of_bind. eauto. }
  unfold below in Hb1, Hb2. clear H1 H2. induction Hc as [|e e' es es' He _ IHf]; [constructor|].
  constructor; [|apply IHf; set_solver].
  destruct (is_table e) eqn:Ht; [|done]. destruct He as [Ht' He]. split; [done|].
  apply (IH m1 m1'); [done|..]; intros x Hx.
  - apply (Hb1 e); [set_solver|]. by rewrite Ht.
  - apply (Hb2 e'); [set_solver|]. by rewrite Ht'.
Qed.

Lemma user_pages_frame n : ∀ m m' t, (∀ x, x ∈ tables n m t → frame m' x = frame m x) →
  user_pages n m' t = user_pages n m t.
Proof.
  induction n as [|n IH]; intros m m' t Hag; [done|]. cbn [user_pages].
  rewrite tables_S in Hag. rewrite (Hag t) by set_solver.
  apply Forall_bind_ext, Forall_forall. intros e He. destruct (is_table e) eqn:Ht; [|done].
  apply IH. intros x Hx. apply Hag. right. apply list_elem_of_bind. exists e.
  split; [|done]. unfold below. by rewrite Ht.
Qed.

(** ** The result of [fork] *)

Record forked (n : nat) (t c : Z) (s s' : Kmem) : Prop := {
  fk_kwf : kwf s';
  fk_held x : held (fa s) x → held (fa s') x;
  fk_rest x : x ∉ tables n (mem s) t → (held (fa s') x → held (fa s) x) →
    frame (mem s') x = frame (mem s) x;
  fk_parent x : x ∈ tables n (mem s) t → frame (mem s') x = cow <$> frame (mem s) x;
  fk_copy : copy_of n (mem s) t (mem s') c;
  fk_shape : shape n (mem s') c;
  fk_nodup : NoDup (tables n (mem s') c);
  fk_new x : x ∈ tables n (mem s') c → held (fa s') x ∧ ¬ held (fa s) x;
  fk_meta : meta s' = add_all (meta s) (user_pages n (mem s) t);
}.

(** ** The loop over the entries

    [pre] are the entries of the parent [t] that are done, [post] those to do;
    [C] is what the child [c] has for [pre].  [s0] is the state at the call. *)

Record fork_inv (n : nat) (t c : Z) (s0 s : Kmem) (pre post C : list Z) : Prop := {
  fi_kwf : kwf s;
  fi_held x : held (fa s0) x → held (fa s) x;
  fi_c : held (fa s) c;
  fi_t : frame (mem s) t = (cow <$> pre) ++ post;
  fi_cf : frame (mem s) c = C ++ post;
  fi_copy : Forall2 (copied n (mem s0) (mem s)) pre C;
  fi_nodup : NoDup (C ≫= below n (mem s));
  fi_new x : x ∈ C ≫= below n (mem s) → held (fa s) x ∧ ¬ held (fa s0) x ∧ x ≠ c;
  fi_ok : Forall (λ e, entry_ok e ∧ (is_table e = true → shape n (mem s) (ppn_address e))) C;
  fi_done x : x ∈ pre ≫= below n (mem s0) → frame (mem s) x = cow <$> frame (mem s0) x;
  fi_todo x : x ∈ post ≫= below n (mem s0) → frame (mem s) x = frame (mem s0) x;
  fi_rest x : x ∉ tables (S n) (mem s0) t → x ≠ c → (held (fa s) x → held (fa s0) x) →
    frame (mem s) x = frame (mem s0) x;
  fi_meta : meta s = add_all (meta s0) (pre ≫= pages_below n (mem s0));
}.

Section loop.
Context (n : nat) (t c : Z) (s0 : Kmem).
Context (Hs : shape (S n) (mem s0) t) (Hnd : NoDup (tables (S n) (mem s0) t)).
Context (Hown : owned (S n) s0 t) (Hc : ¬ held (fa s0) c) (Hcok : table_ok c).

Lemma t_held : held (fa s0) t.
Proof. apply Hown. rewrite tables_S. left. Qed.

Lemma t_ne_c : t ≠ c.
Proof. intros Heq. apply Hc. rewrite <-Heq. apply t_held. Qed.

Lemma below_held e x : e ∈ frame (mem s0) t → x ∈ below n (mem s0) e →
  held (fa s0) x ∧ x ≠ t ∧ x ≠ c.
Proof.
  intros He Hx. assert (Hin : x ∈ frame (mem s0) t ≫= below n (mem s0)) by
    (apply list_elem_of_bind; eauto).
  assert (held (fa s0) x) by (apply Hown; rewrite tables_S; by right).
  split_and!; [done| |by intros ->].
  intros ->. rewrite tables_S in Hnd. by apply NoDup_cons in Hnd as [? _].
Qed.

(** The tables below different entries are different. *)
Lemma below_disjoint pre e post : frame (mem s0) t = pre ++ e :: post →
  (∀ x, x ∈ pre ≫= below n (mem s0) → x ∉ below n (mem s0) e) ∧
  (∀ x, x ∈ post ≫= below n (mem s0) → x ∉ below n (mem s0) e).
Proof.
  intros Hf. rewrite tables_S, Hf, bind_app, bind_cons in Hnd.
  apply NoDup_cons in Hnd as [_ Hnd']. apply NoDup_app in Hnd' as (_ & Hd & Hnd').
  apply NoDup_app in Hnd' as (_ & Hd' & _). set_solver.
Qed.

(** Handling one entry, whatever its kind. *)
Lemma fork_advance s s' pre e post C e' :
  frame (mem s0) t = pre ++ e :: post →
  fork_inv n t c s0 s pre (e :: post) C →
  kwf s' → (∀ x, held (fa s) x → held (fa s') x) →
  frame (mem s') t = (cow <$> pre) ++ cow e :: post →
  frame (mem s') c = C ++ e' :: post →
  (∀ x, x ∈ below n (mem s0) e → frame (mem s') x = cow <$> frame (mem s0) x) →
  (∀ x, x ≠ t → x ≠ c → x ∉ below n (mem s0) e → (held (fa s') x → held (fa s) x) →
     frame (mem s') x = frame (mem s) x) →
  copied n (mem s0) (mem s') e e' → NoDup (below n (mem s') e') →
  (∀ x, x ∈ below n (mem s') e' → held (fa s') x ∧ ¬ held (fa s) x) →
  entry_ok e' → (is_table e' = true → shape n (mem s') (ppn_address e')) →
  meta s' = add_all (meta s) (pages_below n (mem s0) e) →
  fork_inv n t c s0 s' (pre ++ [e]) post (C ++ [e']).
Proof.
  intros Hf [Hk Hh Hhc Ht Hcf Hcp Hndc Hnew Hok Hdone Htodo Hrest Hmeta].
  intros Hk' Hh' Ht' Hcf' Hdone' Hkeep Hcp' Hnd' Hnew' Hok' Hsh' Hmeta'.
  destruct (below_disjoint pre e post Hf) as [Hd1 Hd2].
  assert (Hin : ∀ e1 x, e1 ∈ pre ++ e :: post → x ∈ below n (mem s0) e1 →
            held (fa s0) x ∧ x ≠ t ∧ x ≠ c) by (rewrite <-Hf; apply below_held).
  assert (Hstab : ∀ x, x ∈ C ≫= below n (mem s) → frame (mem s') x = frame (mem s) x).
  { intros x Hx. destruct (Hnew x Hx) as (? & Hn0 & ?). apply Hkeep; auto.
    - intros ->. apply Hn0, t_held.
    - intros Hx'. apply Hn0. by apply (Hin e); [set_solver|]. }
  assert (Hstab' : ∀ e1, e1 ∈ C → ∀ x, x ∈ below n (mem s) e1 →
            frame (mem s') x = frame (mem s) x).
  { intros e1 He1 x Hx. apply Hstab, list_elem_of_bind. eauto. }
  assert (HC : C ≫= below n (mem s') = C ≫= below n (mem s)).
  { apply Forall_bind_ext, Forall_forall. intros e1 He1. specialize (Hstab' e1 He1).
    unfold below in *. destruct (is_table e1); [|done]. by apply tables_frame. }
  assert (Hnew2 : ∀ x, x ∈ below n (mem s') e' → held (fa s') x ∧ ¬ held (fa s0) x ∧ x ≠ c).
  { intros x Hx. destruct (Hnew' x Hx) as [? Hns]. split_and!; [done|auto|].
    intros ->. by apply Hns. }
  split; auto.
  - by rewrite Ht', fmap_app, <-app_assoc.
  - by rewrite Hcf', <-app_assoc.
  - apply Forall2_app; [|by repeat constructor].
    apply Forall2_same_length_lookup_2; [by eapply Forall2_length|].
    intros k e1 e1' Hk1 Hk1'. pose proof (Forall2_lookup_lr _ _ _ _ _ _ Hcp Hk1 Hk1') as Hce.
    specialize (Hstab' e1' ltac:(by eapply list_elem_of_lookup_2)). unfold copied, below in *.
    destruct (is_table e1); [|done]. destruct Hce as [Ht1 Hce]. rewrite Ht1 in Hstab'.
    split; [done|]. by apply (copy_of_frame n (mem s0) (mem s)).
  - rewrite bind_snoc, HC. apply NoDup_app. split_and!; [done| |done].
    intros x Hx Hx'. destruct (Hnew' x Hx') as [_ Hns]. by apply Hns, Hnew.
  - intros x. rewrite bind_snoc, HC, elem_of_app.
    intros [Hx|Hx]; [|by apply Hnew2]. destruct (Hnew x Hx) as (? & ? & ?). auto.
  - apply Forall_app. split; [|by apply Forall_singleton].
    rewrite Forall_forall in Hok |- *. intros e1 He1. destruct (Hok e1 He1) as [? Hsh1].
    split; [done|]. intros Ht1. apply (shape_frame n (mem s)); [|by apply Hsh1].
    specialize (Hstab' e1 He1). unfold below in Hstab'. by rewrite Ht1 in Hstab'.
  - intros x. rewrite bind_snoc, elem_of_app.
    intros [Hx|Hx]; [|by apply Hdone']. rewrite <-Hdone by done.
    pose proof Hx as (e1 & Hx1 & He1)%list_elem_of_bind.
    destruct (Hin e1 x) as (? & ? & ?); [set_solver|done|]. apply Hkeep; auto.
  - intros x Hx. rewrite <-Htodo by (rewrite bind_cons; set_solver).
    pose proof Hx as (e1 & Hx1 & He1)%list_elem_of_bind.
    destruct (Hin e1 x) as (? & ? & ?); [set_solver|done|]. apply Hkeep; auto.
  - intros x Hx Hxc Hb. rewrite <-Hrest by auto.
    apply Hkeep; [intros ->; apply Hx; rewrite tables_S; left|done| |auto].
    intros Hx'. apply Hx. rewrite tables_S, Hf, bind_app, bind_cons. set_solver.
  - rewrite Hmeta', Hmeta. unfold add_all.
    by rewrite bind_snoc, foldl_app.
Qed.

(** The entries the loop reads are still the ones at the call. *)
Lemma fork_inv_entries s pre e post C : fork_inv n t c s0 s pre (e :: post) C →
  let i := Z.of_nat (length pre) in
  entry (mem s) t i = e ∧ entry (mem s) c i = e ∧
  (∀ y m, frame m t = frame (mem s) t → frame (upd t i y m) t = (cow <$> pre) ++ y :: post) ∧
  (∀ y m, frame m c = frame (mem s) c → frame (upd c i y m) c = C ++ y :: post).
Proof.
  intros Hi i. pose proof (Forall2_length _ _ _ (fi_copy _ _ _ _ _ _ _ _ Hi)) as Hlen.
  assert (Z.to_nat i = length pre) as Hn by lia. unfold entry. rewrite Hn.
  rewrite (fi_t _ _ _ _ _ _ _ _ Hi), (fi_cf _ _ _ _ _ _ _ _ Hi).
  rewrite !list_lookup_total_middle by (rewrite ?length_fmap; done).
  split_and!; [done..| |]; intros y m Hm; rewrite frame_upd, Hm, Hn;
    apply insert_middle; by rewrite ?length_fmap.
Qed.

(** A leaf or an empty entry. *)
Lemma fork_entry_leaf rec s pre e post C :
  frame (mem s0) t = pre ++ e :: post → fork_inv n t c s0 s pre (e :: post) C →
  entry_ok e → rx_leaf e → is_table e = false →
  ∃ s', fork_entry rec t c (Z.of_nat (length pre)) s = (Ok tt, s') ∧
    fork_inv n t c s0 s' (pre ++ [e]) post (C ++ [cow e]).
Proof.
  intros Hf Hi Hok Hrx Ht. destruct (fork_inv_entries s pre e post C Hi) as (Het & Hec & Hut & Huc).
  set (i := Z.of_nat (length pre)) in *. pose proof t_ne_c as Htc.
  destruct (cow_spec e Hok Hrx) as ((Htc' & _ & _) & Hok' & _).
  assert (Hadv : ∀ s', kwf s' → fa s' = fa s →
    frame (mem s') t = (cow <$> pre) ++ cow e :: post → frame (mem s') c = C ++ cow e :: post →
    (∀ x, x ≠ t → x ≠ c → frame (mem s') x = frame (mem s) x) →
    meta s' = add_all (meta s) (pages_below n (mem s0) e) →
    fork_inv n t c s0 s' (pre ++ [e]) post (C ++ [cow e])).
  { intros s' Hk' Hfa Hft Hfc Hkeep Hmeta. apply (fork_advance s s'); auto.
    - by rewrite Hfa.
    - unfold below. rewrite Ht. set_solver.
    - unfold copied. by rewrite Ht.
    - unfold below. rewrite Htc', Ht. constructor.
    - unfold below. rewrite Htc', Ht. set_solver.
    - by rewrite Htc', Ht. }
  pose proof (fi_kwf _ _ _ _ _ _ _ _ Hi) as Hk.
  pose proof (fi_t _ _ _ _ _ _ _ _ Hi) as Hft. pose proof (fi_cf _ _ _ _ _ _ _ _ Hi) as Hfc.
  unfold fork_entry, get_entry, gets, bind at 1. rewrite Het.
  assert (Hpg : pages_below n (mem s0) e =
    if is_leaf e && is_user e then [ppn_address e] else []) by (unfold pages_below; by rewrite Ht).
  rewrite (not_table e Ht). destruct (is_leaf e) eqn:Hl; simpl.
  2:{ eexists. split; [done|]. apply Hadv; rewrite ?cow_table by done; auto. by rewrite Hpg. }
  assert (Hbd : ppn_address e ≤ PA_MAX).
  { destruct Hok as (_ & _ & Hb). specialize (Hb Hl). change PA_MAX with (2 ^ 55 - 1). lia. }
  destruct (is_user e) eqn:Hus.
  2:{ eexists. split; [done|]. assert (cow e = e) as Hce by (unfold cow; by rewrite Hus, andb_false_r).
      apply Hadv; rewrite ?Hce; auto. by rewrite Hpg. }
  unfold bind at 1, lift at 1. rewrite physical_address_ok by done.
  unfold bind at 1, page_add, modify. destruct (is_writable e) eqn:Hw.
  2:{ eexists. split; [done|]. assert (cow e = e) as Hce by (unfold cow; by rewrite Hw, !andb_false_r).
      apply Hadv; rewrite ?Hce; auto; [by destruct Hk|]. by rewrite Hpg. }
  assert (cow e = unset_flags e PTE_W) as Hce by (unfold cow; by rewrite Hl, Hus, Hw).
  unfold bind, set_entry, modify. eexists. split; [done|]. rewrite Hce in *.
  cbn [mem set_mem set_meta meta fa].
  assert (Hecs : entry (upd t i (unset_flags e PTE_W) (mem s)) c i = e) by
    (unfold entry; by rewrite frame_upd_ne by done).
  rewrite Hecs. apply Hadv; cbn [mem set_mem set_meta meta fa]; [by destruct Hk; split|done|..].
  - rewrite frame_upd_ne by done. by apply Hut.
  - apply Huc. by apply frame_upd_ne.
  - intros x Hxt Hxc. by rewrite !frame_upd_ne.
  - by rewrite Hpg.
Qed.

(** A table entry with another table's address. *)
Lemma with_address_table e c' : is_u64 e → is_table e = true → table_ok c' →
  let e' := with_address e c' in
  is_table e' = true ∧ ppn_address e' = c' ∧ entry_ok e' ∧
  set_physical_address (E := Error) e c' = Ok e'.
Proof.
  intros Hu64 Ht Hok e'. destruct (is_table_valid e Ht) as [Hv Hl].
  destruct (table_ok_page_ok _ Hok) as [(? & ? & ?) _].
  assert (Hfl := λ j, with_address_flag e c' j Hu64).
  assert (Hv' : is_valid e' = true) by (rewrite is_valid_bit in *; unfold e'; by rewrite Hfl).
  assert (Hl' : is_leaf e' = false) by (rewrite is_leaf_bits in *; unfold e'; by rewrite !Hfl).
  split_and!; [unfold is_table; by rewrite Hv', Hl'| | |by apply set_physical_address_ok].
  - apply ppn_with_address; [done| |done]. change (2 ^ 56) with (2 * 2 ^ 55). lia.
  - split_and!; [by apply is_u64_with_address|by rewrite Hv'|by rewrite Hl'].
Qed.

(** The tables below an entry that is still to do are untouched. *)
Lemma fork_inv_todo s pre e post C :
  frame (mem s0) t = pre ++ e :: post → fork_inv n t c s0 s pre (e :: post) C →
  is_table e = true →
  (∀ x, x ∈ tables n (mem s0) (ppn_address e) →
     frame (mem s) x = frame (mem s0) x ∧ held (fa s0) x ∧ x ≠ t ∧ x ≠ c) ∧
  tables n (mem s) (ppn_address e) = tables n (mem s0) (ppn_address e) ∧
  NoDup (tables n (mem s) (ppn_address e)) ∧ owned n s (ppn_address e).
Proof.
  intros Hf Hi Ht.
  assert (Hbel : ∀ m, below n m e = tables n m (ppn_address e)) by
    (intros; unfold below; by rewrite Ht).
  assert (Hin : ∀ x, x ∈ tables n (mem s0) (ppn_address e) →
    frame (mem s) x = frame (mem s0) x ∧ held (fa s0) x ∧ x ≠ t ∧ x ≠ c).
  { intros x Hx. split.
    - apply (fi_todo _ _ _ _ _ _ _ _ Hi). rewrite bind_cons, Hbel. set_solver.
    - apply (below_held e); [rewrite Hf; set_solver|by rewrite Hbel]. }
  assert (Htab : tables n (mem s) (ppn_address e) = tables n (mem s0) (ppn_address e)) by
    (apply tables_frame; intros x Hx; by apply Hin).
  split_and!; [done..| |].
  - rewrite Htab. pose proof Hnd as Hnd'.
    rewrite tables_S, Hf, bind_app, bind_cons, Hbel in Hnd'.
    apply NoDup_cons in Hnd' as [_ Hnd']. by apply NoDup_app in Hnd' as (_ & _ & (? & _)%NoDup_app).
  - intros x. rewrite Htab. intros Hx. by apply (fi_held _ _ _ _ _ _ _ _ Hi), Hin.
Qed.

(** A table: the tables below it are copied first. *)
Lemma fork_entry_table rec s pre e post C :
  frame (mem s0) t = pre ++ e :: post → fork_inv n t c s0 s pre (e :: post) C →
  entry_ok e → is_table e = true → shape n (mem s0) (ppn_address e) →
  (kwf s → shape n (mem s) (ppn_address e) → NoDup (tables n (mem s) (ppn_address e)) →
   owned n s (ppn_address e) →
   match rec (ppn_address e) s with
   | (Ok c', s') => forked n (ppn_address e) c' s s'
   | (Panic, s') => full (fa s')
   | _ => False
   end) →
  match fork_entry rec t c (Z.of_nat (length pre)) s with
  | (Ok _, s') => ∃ e', fork_inv n t c s0 s' (pre ++ [e]) post (C ++ [e'])
  | (Panic, s') => full (fa s')
  | _ => False
  end.
Proof.
  intros Hf Hi [Hu64 _] Ht Hsh Hrec.
  destruct (fork_inv_entries s pre e post C Hi) as (Het & Hec & _ & Huc).
  destruct (fork_inv_todo s pre e post C Hf Hi Ht) as (Hin & Htab & Hndb & Hownb).
  set (i := Z.of_nat (length pre)) in *. pose proof t_ne_c as Htc. pose proof t_held as Hth.
  destruct (is_table_valid e Ht) as [Hv Hl].
  assert (Hbel : ∀ m, below n m e = tables n m (ppn_address e)) by
    (intros; unfold below; by rewrite Ht).
  assert (Hag : ∀ x, x ∈ tables n (mem s0) (ppn_address e) → frame (mem s) x = frame (mem s0) x)
    by (intros x Hx; by apply Hin).
  unfold fork_entry, get_entry, gets, bind at 1. rewrite Het, Hv, Hl. cbn [negb].
  pose proof (shape_table_ok _ _ _ Hsh) as Hpok. destruct (table_ok_page_ok _ Hpok) as [(? & ? & ?) _].
  unfold bind at 1, lift at 1.
  rewrite physical_address_ok by (change PA_MAX with (2 ^ 55 - 1); lia).
  specialize (Hrec (fi_kwf _ _ _ _ _ _ _ _ Hi) (shape_frame n _ _ _ Hag Hsh) Hndb Hownb).
  unfold bind at 1. destruct (rec (ppn_address e) s) as [[c'|er| |] s1]; [|done..].
  destruct Hrec as [Hk1 Hh1 Hr1 Hp1 Hc1 Hs1 Hn1 Hw1 Hm1]. rewrite Htab in *.
  pose proof (fi_c _ _ _ _ _ _ _ _ Hi) as Hhc. pose proof (fi_held _ _ _ _ _ _ _ _ Hi) as Hheld.
  assert (Hf1c : frame (mem s1) c = frame (mem s) c) by
    (apply Hr1; auto; intros (_ & _ & _ & ?)%Hin; done).
  assert (Hf1t : frame (mem s1) t = frame (mem s) t) by
    (apply Hr1; auto; intros (_ & _ & ? & _)%Hin; done).
  assert (Hec1 : entry (mem s1) c i = e) by (unfold entry; rewrite Hf1c; exact Hec).
  destruct (with_address_table e c' Hu64 Ht (shape_table_ok _ _ _ Hs1)) as (Ht' & Hp' & Hok' & Hset).
  unfold bind, lift. rewrite Hec1, Hset. unfold set_entry, modify.
  set (e' := with_address e c') in *. set (s' := set_mem (upd c i e' (mem s1)) s1).
  assert (Hcn : ∀ x, x ∈ tables n (mem s1) c' → frame (mem s') x = frame (mem s1) x).
  { intros x Hx. apply frame_upd_ne. intros ->. by apply (Hw1 c Hx). }
  assert (Hbel' : below n (mem s') e' = tables n (mem s1) c').
  { unfold below. rewrite Ht', Hp'. by apply tables_frame. }
  exists e'. apply (fork_advance s s'); auto.
  - by destruct Hk1; split.
  - cbn [s' mem set_mem]. rewrite frame_upd_ne, Hf1t, cow_table by done.
    apply (fi_t _ _ _ _ _ _ _ _ Hi).
  - cbn [s' mem set_mem]. by apply Huc.
  - intros x. rewrite Hbel. intros Hx. destruct (Hin x Hx) as (_ & _ & _ & Hxc).
    cbn [s' mem set_mem]. rewrite frame_upd_ne, Hp1 by done. by rewrite (Hag x Hx).
  - intros x Hxt Hxc Hxb Hxh. rewrite Hbel in Hxb. cbn [s' mem set_mem].
    rewrite frame_upd_ne by done. by apply Hr1.
  - unfold copied. rewrite Ht, Hp'. split; [done|].
    apply (copy_of_frame n (mem s) (mem s1)); [done| |done].
    intros x. rewrite Htab. intros Hx. by rewrite Hag.
  - by rewrite Hbel'.
  - rewrite Hbel'. exact Hw1.
  - intros _. rewrite Hp'. by apply (shape_frame n (mem s1)).
  - cbn [s' meta set_mem]. rewrite Hm1. unfold pages_below. rewrite Ht. f_equal.
    by apply user_pages_frame.
Qed.

Lemma fork_loop rec :
  (∀ e s, e ∈ frame (mem s0) t → is_table e = true →
     (∀ x, x ∈ tables n (mem s0) (ppn_address e) → frame (mem s) x = frame (mem s0) x) →
     kwf s → shape n (mem s) (ppn_address e) → NoDup (tables n (mem s) (ppn_address e)) →
     owned n s (ppn_address e) →
     match rec (ppn_address e) s with
     | (Ok c', s') => forked n (ppn_address e) c' s s'
     | (Panic, s') => full (fa s')
     | _ => False
     end) →
  Forall rx_leaf (frame (mem s0) t) →
  ∀ post pre C s, frame (mem s0) t = pre ++ post → fork_inv n t c s0 s pre post C →
  match for_each (fork_entry rec t c) (seqZ (Z.of_nat (length pre)) (Z.of_nat (length post))) s with
  | (Ok _, s') => ∃ C', fork_inv n t c s0 s' (frame (mem s0) t) [] C'
  | (Panic, s') => full (fa s')
  | _ => False
  end.
Proof.
  intros Hrec Hrx post. induction post as [|e post IH]; intros pre C s Hf Hi.
  { rewrite app_nil_r in Hf. simpl. exists C. by rewrite Hf. }
  rewrite seqZ_cons by (simpl; lia). cbn [for_each].
  assert (He : e ∈ frame (mem s0) t) by (rewrite Hf; set_solver).
  pose proof Hs as (_ & _ & Hall). rewrite Forall_forall in Hall, Hrx.
  destruct (Hall e He) as [Hok Hsh]. specialize (Hrx e He).
  assert (Hnext : ∀ e' s', fork_inv n t c s0 s' (pre ++ [e]) post (C ++ [e']) →
    match for_each (fork_entry rec t c)
      (seqZ (Z.succ (Z.of_nat (length pre))) (Z.pred (Z.of_nat (length (e :: post))))) s' with
    | (Ok _, s') => ∃ C', fork_inv n t c s0 s' (frame (mem s0) t) [] C'
    | (Panic, s') => full (fa s')
    | _ => False
    end).
  { intros e' s' Hi'. specialize (IH (pre ++ [e]) (C ++ [e']) s').
    rewrite <-app_assoc in IH. specialize (IH Hf Hi'). rewrite length_app in IH. simpl in IH.
    replace (Z.succ (Z.of_nat (length pre))) with (Z.of_nat (length pre + 1)) by lia.
    simpl length. replace (Z.pred (Z.of_nat (S (length post)))) with (Z.of_nat (length post)) by lia.
    done. }
  unfold bind. destruct (is_table e) eqn:Ht.
  - pose proof (fork_entry_table rec s pre e post C Hf Hi Hok Ht (Hsh eq_refl)) as Hstep.
    destruct (fork_inv_todo s pre e post C Hf Hi Ht) as (Hin & _).
    specialize (Hstep (Hrec e s He Ht (λ x Hx, proj1 (Hin x Hx)))).
    destruct (fork_entry rec t c (Z.of_nat (length pre)) s) as [[[]|er| |] s']; [|done..].
    destruct Hstep as [e' Hi']. by apply (Hnext e').
  - destruct (fork_entry_leaf rec s pre e post C Hf Hi Hok Hrx Ht) as (s' & Hstep & Hi').
    rewrite Hstep. by apply (Hnext (cow e)).
Qed.
End loop.

(** The loop starts with the copy of the table, and ends with the result. *)
Lemma fork_inv_start n t c s s1 : shape (S n) (mem s) t → owned (S n) s t →
  ¬ held (fa s) c → mem s1 = mem s → meta s1 = meta s → kwf s1 →
  (∀ b, held (fa s1) b ↔ b = c ∨ held (fa s) b) →
  fork_inv n t c s (set_mem (<[c := frame (mem s1) t]> (mem s1)) s1) [] (frame (mem s) t) [].
Proof.
  intros Hs Hown Hc Hm Hme Hk Hh. rewrite Hm.
  assert (Hne : ∀ x, held (fa s) x → x ≠ c) by (intros x Hx ->; done).
  assert (Htin : ∀ x, x ∈ tables (S n) (mem s) t → x ≠ c) by (intros x Hx; auto).
  rewrite tables_S in Htin.
  split; cbn [mem fa meta set_mem].
  - by destruct Hk; split.
  - intros x Hx. apply Hh. by right.
  - apply Hh. by left.
  - apply frame_insert_ne, Htin. left.
  - apply frame_insert.
  - constructor.
  - constructor.
  - intros x Hx. by apply elem_of_nil in Hx.
  - constructor.
  - intros x Hx. by apply elem_of_nil in Hx.
  - intros x Hx. apply frame_insert_ne, Htin. by right.
  - intros x _ Hx _. by apply frame_insert_ne.
  - done.
Qed.

Lemma fork_inv_end n t c s s' C : shape (S n) (mem s) t → owned (S n) s t →
  ¬ held (fa s) c → table_ok c →
  fork_inv n t c s s' (frame (mem s) t) [] C → forked (S n) t c s s'.
Proof.
  intros Hs Hown Hc Hcok [Hk Hh Hhc Ht Hcf Hcp Hndc Hnew Hok Hdone _ Hrest Hmeta].
  rewrite app_nil_r in Ht, Hcf. pose proof (Forall2_length _ _ _ Hcp) as Hlen.
  split; auto.
  - intros x Hx Hb. apply Hrest; [done| |done]. intros ->. by apply Hc, Hb.
  - intros x. rewrite tables_S. intros [->|Hx]%elem_of_cons; [done|]. by apply Hdone.
  - cbn [copy_of]. by rewrite Hcf.
  - cbn [shape]. rewrite Hcf. split_and!; [done| |done]. rewrite <-Hlen. apply Hs.
  - rewrite tables_S, Hcf. apply NoDup_cons. split; [|done]. intros Hx. by apply Hnew in Hx as (_ & _ & ?).
  - intros x. rewrite tables_S, Hcf. intros [->|Hx]%elem_of_cons; [done|].
    apply Hnew in Hx. tauto.
Qed.

(** Every leaf stays a leaf without its W bit. *)
Definition rx_tables (n : nat) (m : gmap Z (list Z)) (t : Z) : Prop :=
  ∀ x, x ∈ tables n m t → Forall rx_leaf (frame m x).

Lemma fork_spec n : ∀ s t, kwf s → shape n (mem s) t → NoDup (tables n (mem s) t) →
  owned n s t → rx_tables n (mem s) t →
  match fork n t s with
  | (Ok c, s') => forked n t c s s'
  | (Panic, s') => full (fa s')
  | _ => False
  end.
Proof.
  induction n as [|n IH]; intros s t Hk Hs Hnd Hown Hrx; [done|]. cbn [fork].
  pose proof (shape_table_ok _ _ _ Hs) as Htok.
  destruct (table_ok_mapped t KERNEL_DIRECT_MAPPING_BASE Htok) as [Hadd _]; [by right|].
  unfold bind at 1, lift at 1, phys_to_virt at 1. rewrite Hadd.
  unfold bind at 1, unwrapped. pose proof (alloc_frame_spec s Hk) as Ha.
  destruct (alloc_frame s) as [[c|er| |] s1]; [|by destruct Ha as [-> ?]|done..].
  destruct Ha as (Hm & Hme & Hk1 & Hcok & Hc & Hh).
  destruct (table_ok_mapped c KERNEL_DIRECT_MAPPING_BASE Hcok) as [Haddc _]; [by right|].
  unfold bind at 1, lift at 1, phys_to_virt at 1. rewrite Haddc.
  unfold bind at 1, copy_frame, modify.
  pose proof (fork_inv_start n t c s s1 Hs Hown Hc Hm Hme Hk1 Hh) as Hi.
  set (s2 := set_mem _ s1) in *.
  pose proof (fork_loop n t c s Hs Hnd Hown Hc Hcok (fork n)) as Hloop.
  assert (Hl : length (frame (mem s) t) = 512%nat) by apply Hs.
  assert (Hsub : ∀ e x, e ∈ frame (mem s) t → is_table e = true →
            x ∈ tables n (mem s) (ppn_address e) → x ∈ tables (S n) (mem s) t).
  { intros e x He Ht Hx. rewrite tables_S. right. apply list_elem_of_bind. exists e.
    split; [|done]. unfold below. by rewrite Ht. }
  assert (Hrec : ∀ e s', e ∈ frame (mem s) t → is_table e = true →
    (∀ x, x ∈ tables n (mem s) (ppn_address e) → frame (mem s') x = frame (mem s) x) →
    rx_tables n (mem s') (ppn_address e)).
  { intros e s' He Ht Hag x Hx. rewrite (tables_frame n _ _ _ Hag) in Hx.
    rewrite Hag by done. eauto. }
  specialize (Hloop (λ e s' He Ht Hag Hk' Hsh Hnd' Hown',
    IH s' (ppn_address e) Hk' Hsh Hnd' Hown' (Hrec e s' He Ht Hag))
    ltac:(apply Hrx; rewrite tables_S; left)
    (frame (mem s) t) [] [] s2 eq_refl Hi). rewrite Hl in Hloop.
  change (seqZ (Z.of_nat (length [])) (Z.of_nat 512)) with (seqZ 0 512) in Hloop.
  unfold bind at 1. destruct (for_each (fork_entry (fork n) t c) (seqZ 0 512) s2)
    as [[[]|er| |] s3]; [|done..].
  destruct Hloop as [C Hend]. unfold lift, pa_from_raw_unchecked.
  destruct (table_ok_page_ok _ Hcok) as [(? & ? & ?) _].
  rewrite (proj2 (Z.leb_le c PA_MAX)) by (change PA_MAX with (2 ^ 55 - 1); lia).
  by apply (fork_inv_end n t c s s3 C).
Qed.

(** ** Parent and child after a fork *)

Lemma copy_of_walk n : ∀ m m' t c q, copy_of n m t m' c → shape n m t → rx_tables n m t →
  length q = n → Forall (λ i, 0 ≤ i < 512) q →
  walk m' c q = (λ '(e, k), (cow e, k)) <$> walk m t q.
Proof.
  induction n as [|n IH]; intros m m' t c q Hc Hs Hrx Hq Hr; [by destruct q|].
  destruct q as [|i q]; [done|]. apply Forall_cons in Hr as [Hi Hr]. injection Hq as Hq.
  destruct (shape_entry n m t i Hs Hi) as [Hok Hsub].
  assert (Hlt : (Z.to_nat i < length (frame m t))%nat) by (destruct Hs as (_ & -> & _); lia).
  assert (He : frame m t !! Z.to_nat i = Some (entry m t i)) by
    (by apply list_lookup_lookup_total_lt).
  destruct (Forall2_lookup_l _ _ _ _ _ Hc He) as (e' & He' & Hce).
  assert (entry m' c i = e') as Hee by (by apply list_lookup_total_correct).
  assert (Hin : entry m t i ∈ frame m t) by (by eapply list_elem_of_lookup_2).
  cbn [walk]. rewrite Hee. destruct (is_table (entry m t i)) eqn:Ht.
  - destruct Hce as [-> Hce]. apply IH; auto. intros x Hx. apply Hrx. rewrite tables_S. right.
    apply list_elem_of_bind. eexists. split; [|done]. unfold below. by rewrite Ht.
  - assert (Hrxe : rx_leaf (entry m t i)).
    { assert (Hall : Forall rx_leaf (frame m t)) by (apply Hrx; rewrite tables_S; left).
      rewrite Forall_forall in Hall. auto. }
    subst e'. destruct (cow_spec _ Hok Hrxe) as ((Htc & Hvc & _) & _). rewrite Htc, Ht, Hvc.
    by destruct (is_valid (entry m t i)).
Qed.

Lemma cow_same_tree n m m' t : shape n m t → rx_tables n m t →
  (∀ x, x ∈ tables n m t → frame m' x = cow <$> frame m x) →
  same_tree n m m' t ∧ (∀ x, x ∈ tables n m t → Forall entry_ok (frame m' x)).
Proof.
  intros Hs Hrx Hp. split; intros x Hx; rewrite Hp by done;
    destruct (shape_entries n m t x Hs Hx) as (_ & _ & Hok); specialize (Hrx x Hx).
  - apply Forall2_fmap_r. apply Forall_Forall2_diag. rewrite Forall_forall in *.
    intros e He. apply cow_spec; auto.
  - apply Forall_fmap. rewrite Forall_forall in *. intros e He. apply cow_spec; auto.
Qed.

Lemma cow_walk n m m' t q : shape n m t → rx_tables n m t →
  (∀ x, x ∈ tables n m t → frame m' x = cow <$> frame m x) →
  length q = n → Forall (λ i, 0 ≤ i < 512) q →
  walk m' t q = (λ '(e, k), (cow e, k)) <$> walk m t q.
Proof.
  intros Hs Hrx Hp Hq Hr. destruct (cow_same_tree n m m' t Hs Hrx Hp) as [Hst _].
  rewrite !walk_locate, (same_tree_locate n m m' t q) by done.
  destruct (locate m t q) as [[[t' i] k]|] eqn:Hl; [|done]. simpl. do 2 f_equal.
  destruct (locate_spec n m t q t' i k Hs Hq Hr Hl) as (Hin & Hlen & Hi & _).
  unfold entry. rewrite Hp by done. apply list_lookup_total_fmap. lia.
Qed.

(** A leaf that a walk finds is a well-formed entry. *)
Lemma walk_ok n m t q e k : shape n m t → rx_tables n m t → length q = n →
  Forall (λ i, 0 ≤ i < 512) q → walk m t q = Some (e, k) →
  is_leaf e = true ∧ entry_ok e ∧ rx_leaf e.
Proof.
  intros Hs Hrx Hq Hr. rewrite walk_locate.
  destruct (locate m t q) as [[[t' i] k']|] eqn:Hl; [|done]. simpl. intros ?. simplify_eq.
  destruct (locate_spec _ m t q t' i k Hs eq_refl Hr Hl) as (Hin & Hlen & Hi & ? & ? & _).
  split_and!; [done..|]. pose proof (Hrx t' Hin) as Hall. rewrite Forall_lookup_total in Hall.
  apply Hall. lia.
Qed.

Lemma fork_space s root :
  aspace s root → rx_tables 3 (mem s) root →
  match fork 3 root s with
  | (Ok child, s') =>
      aspace s' root ∧ aspace s' child ∧
      (∀ x, x ∈ tables 3 (mem s') child → ¬ held (fa s) x) ∧
      tables 3 (mem s') root = tables 3 (mem s) root ∧
      (∀ x, held (fa s) x → x ∉ tables 3 (mem s) root → frame (mem s') x = frame (mem s) x) ∧
      meta s' = add_all (meta s) (user_pages 3 (mem s) root) ∧
      ∀ va, 0 ≤ va →
        let q := path_of va Size4K in
        translate (mem s') root va = translate (mem s) root va ∧
        translate (mem s') child va = translate (mem s) root va ∧
        walk (mem s') child q = walk (mem s') root q ∧
        walk (mem s') root q = (λ '(e, k), (cow e, k)) <$> walk (mem s) root q ∧
        ∀ e k, walk (mem s') child q = Some (e, k) → is_user e = true → is_writable e = false
  | (Panic, s') => full (fa s')
  | _ => False
  end.
Proof.
  intros (Hk & [Hs Hnd] & Hown) Hrx. pose proof (fork_spec 3 s root Hk Hs Hnd Hown Hrx) as Hf.
  destruct (fork 3 root s) as [[c|er| |] s']; [|done..].
  destruct Hf as [Hk' Hh Hrest Hpar Hcp Hsc Hndc Hnew Hmeta].
  destruct (cow_same_tree 3 (mem s) (mem s') root Hs Hrx Hpar) as [Hst Hoks].
  pose proof (same_tree_tables _ _ _ _ Hst) as Ht.
  pose proof (same_tree_shape _ _ _ _ Hst Hs Hoks) as Hs'.
  split; [|split; [|split; [|split; [|split; [|split]]]]]; [..|done|].
  - split; [done|]. split; [split; [done|by rewrite Ht]|]. intros x. rewrite Ht. auto.
  - split; [done|]. split; [done|]. intros x Hx. by apply Hnew.
  - intros x Hx. by apply Hnew.
  - done.
  - intros x Hx Hxt. by apply Hrest.
  - intros va Hva q. assert (Hr : Forall (λ i, 0 ≤ i < 512) q) by apply path_range.
    pose proof (copy_of_walk 3 _ _ _ _ q Hcp Hs Hrx eq_refl Hr) as Hwc.
    pose proof (cow_walk 3 _ _ _ q Hs Hrx Hpar eq_refl Hr) as Hwr.
    rewrite !translate_walk by done. fold q. rewrite Hwc, Hwr.
    destruct (walk (mem s) root q) as [[e k]|] eqn:Hw; [|done].
    destruct (walk_ok 3 _ _ q _ _ Hs Hrx eq_refl Hr Hw) as (Hl & Hok & Hrxe).
    destruct (cow_spec e Hok Hrxe) as (_ & _ & Hp & _ & Hu & Hnw). simpl. rewrite Hp.
    split_and!; [done..|]. intros e' k' ? Hue. simplify_eq. apply Hnw; congruence.
Qed.

(** [fork] gives a child address space that translates every address as the
    parent did, in tables of its own that nobody held before; the parent's
    translations stay as they were; in both, every user page has lost its write
    permission, and apart from that the two have the same entries.  One
    reference is added for each user page the parent maps.  No other memory
    changes.  [fork] returns, unless the frame allocator is exhausted. *)
Theorem fork_copies_address_space s root :
  aspace s root → rx_tables 3 (mem s) root →
  match fork 3 root s with
  | (Ok child, s') =>
      aspace s' root ∧ aspace s' child ∧
      (∀ x, x ∈ tables 3 (mem s') child → ¬ held (fa s) x) ∧
      tables 3 (mem s') root = tables 3 (mem s) root ∧
      (∀ x, held (fa s) x → x ∉ tables 3 (mem s) root → frame (mem s') x = frame (mem s) x) ∧
      meta s' = add_all (meta s) (user_pages 3 (mem s) root) ∧
      ∀ va, 0 ≤ va →
        let q := path_of va Size4K in
        translate (mem s') root va = translate (mem s) root va ∧
        translate (mem s') child va = translate (mem s) root va ∧
        walk (mem s') child q = walk (mem s') root q ∧
        walk (mem s') root q = (λ '(e, k), (cow e, k)) <$> walk (mem s) root q ∧
        ∀ e k, walk (mem s') child q = Some (e, k) → is_user e = true → is_writable e = false
  | (Panic, s') => full (fa s')
  | _ => False
  end.
Proof. apply fork_space. Qed.

(** ** Freeing the tables *)

(** The allocator after the frames of [xs] are given back. *)
Definition released (xs : list Z) (s s' : Kmem) : Prop :=
  mem s' = mem s ∧ meta s' = meta s ∧ kwf s' ∧
  ∀ x, held (fa s') x ↔ held (fa s) x ∧ x ∉ xs.

Lemma released_refl s : kwf s → released [] s s.
Proof. intros Hk. split_and!; [done..|]. set_solver. Qed.

Lemma released_trans xs ys s s1 s2 : released xs s s1 → released ys s1 s2 →
  released (xs ++ ys) s s2.
Proof.
  intros (? & ? & _ & Hh1) (? & ? & ? & Hh2). split_and!; [congruence..|].
  intros x. rewrite Hh2, Hh1, not_elem_of_app. tauto.
Qed.

Lemma free_frame_spec s a : kwf s → held (fa s) a →
  ∃ s', free_frame a s = (Ok tt, s') ∧ released [a] s s'.
Proof.
  intros [Hwf Hal Htop] Ha. destruct (free_spec (fa s) a Hwf Ha) as (fa' & Hf & Hh & Hwf' & Hst & Hcap).
  unfold free_frame, zoom. rewrite Hf. eexists. split; [done|]. split_and!; [done..| |].
  - split; simpl; rewrite ?Hst, ?Hcap; done.
  - intros x. simpl. rewrite Hh, list_elem_of_singleton. tauto.
Qed.

(** Freeing that panics on a frame that is free already. *)
Definition free_once (pa : Z) : KM unit :=
  let! s := gets id in
  if in_use (fa s) ((pa - FrameAllocator.start_addr (fa s)) / 4096) then free_frame pa else panic.

Lemma free_once_held s a : held (fa s) a → free_once a s = free_frame a s.
Proof.
  intros (j & Hj & -> & Hu). unfold free_once, bind, gets, id, frame_addr.
  replace (FrameAllocator.start_addr (fa s) + j * 4096 - FrameAllocator.start_addr (fa s)) with (j * 4096) by lia.
  by rewrite Z.div_mul, Hu by lia.
Qed.

(** Two runs that end in the same state. *)
Definition both_release (op op' : KM unit) (l : list Z) (s : Kmem) : Prop :=
  ∃ s', op s = (Ok tt, s') ∧ op' s = (Ok tt, s') ∧ released l s s'.

Lemma traverse_free_loop n rec rec' m :
  (∀ s t, mem s = m → kwf s → shape n m t → NoDup (tables n m t) →
     (∀ x, x ∈ tables n m t → held (fa s) x) → both_release (rec t) (rec' t) (tables n m t) s) →
  ∀ es s, mem s = m → kwf s →
  Forall (λ e, entry_ok e ∧ (is_table e = true → shape n m (ppn_address e))) es →
  NoDup (es ≫= below n m) → (∀ x, x ∈ es ≫= below n m → held (fa s) x) →
  both_release (for_each (traverse_free_entry rec) es) (for_each (traverse_free_entry rec') es) (es ≫= below n m) s.
Proof.
  intros Hrec es. induction es as [|e es IHes]; intros s Hm Hk Hes Hnde Hh;
    [eexists; split; [done|]; split; [done|]; by apply released_refl|].
  apply Forall_cons in Hes as [[Hok Hsh] Hes]. rewrite bind_cons in Hnde, Hh.
  apply NoDup_app in Hnde as (Hn1 & Hd & Hn2).
  assert (both_release (traverse_free_entry rec e) (traverse_free_entry rec' e) (below n m e) s) as (s1 & Hf & Hf' & Hr).
  { unfold traverse_free_entry, below in *. destruct (is_table e) eqn:Ht.
    - destruct (is_table_valid e Ht) as [-> ->]. cbn [negb orb]. specialize (Hsh eq_refl).
      destruct (table_ok_page_ok _ (shape_table_ok _ _ _ Hsh)) as [(? & ? & ?) _].
      unfold both_release, bind, lift.
      rewrite physical_address_ok by (change PA_MAX with (2 ^ 55 - 1); lia).
      apply Hrec; auto. intros x Hx. apply Hh. set_solver.
    - rewrite (not_table e Ht), orb_negb_l. eexists. split; [done|]. split; [done|]. by apply released_refl. }
  unfold both_release. cbn [for_each]. rewrite (bind_ok _ _ _ _ _ Hf), (bind_ok _ _ _ _ _ Hf'). destruct Hr as (Hm1 & Hme1 & Hk1 & Hh1).
  destruct (IHes s1) as (s2 & Hf2 & Hf2' & Hr2); [congruence|done..| |].
  - intros x Hx. apply Hh1. split; [apply Hh; set_solver|]. intros Hx'. by apply (Hd x).
  - exists s2. split; [done|]. split; [done|]. rewrite bind_cons. by apply (released_trans _ _ _ s1).
Qed.

Lemma traverse_free_turn free n t s : table_ok t → traverse_free_with free (S n) t s =
  (for_each (traverse_free_entry (traverse_free_with free n)) (frame (mem s) t) ;;; free t) s.
Proof.
  intros Ht. destruct (table_ok_mapped t KERNEL_DIRECT_MAPPING_BASE Ht) as [Hadd _]; [by right|].
  cbn [traverse_free_with]. unfold bind at 1, lift at 1, phys_to_virt at 1. by rewrite Hadd.
Qed.

Lemma traverse_free_both n : ∀ s t, kwf s → shape n (mem s) t → NoDup (tables n (mem s) t) →
  owned n s t → both_release (traverse_free n t) (traverse_free_with free_once n t) (tables n (mem s) t) s.
Proof.
  unfold traverse_free. induction n as [|n IH]; intros s t Hk Hs Hnd Hown; [done|]. unfold both_release.
  rewrite !traverse_free_turn by apply (shape_table_ok _ _ _ Hs).
  unfold owned in Hown. rewrite tables_S in *. apply NoDup_cons in Hnd as [Hnt Hnd].
  destruct Hs as (_ & _ & Hall).
  destruct (traverse_free_loop n (traverse_free_with free_frame n) (traverse_free_with free_once n) (mem s)) with (es := frame (mem s) t) (s := s)
    as (s2 & Hf & Hf' & Hr); [|done..| |].
  { intros s1 t1 <- Hk1 Hs1 Hnd1 Hown1. by apply IH. }
  { intros x Hx. apply Hown. by right. }
  rewrite (bind_ok _ _ _ _ _ Hf), (bind_ok _ _ _ _ _ Hf'). pose proof Hr as (Hm2 & Hme2 & Hk2 & Hh2).
  assert (Hheld : held (fa s2) t) by (apply Hh2; split; [|done]; apply Hown; left).
  destruct (free_frame_spec s2 t Hk2 Hheld) as (s3 & Hf3 & Hr3).
  exists s3. rewrite free_once_held by done. split; [done|]. split; [done|]. destruct (released_trans _ _ _ _ _ Hr Hr3) as (? & ? & ? & Hh3).
  split_and!; [done..|]. intros x. rewrite Hh3, elem_of_cons, elem_of_app, list_elem_of_singleton.
  tauto.
Qed.

Lemma traverse_free_spec n s t : kwf s → shape n (mem s) t → NoDup (tables n (mem s) t) →
  owned n s t → ∃ s', traverse_free n t s = (Ok tt, s') ∧ released (tables n (mem s) t) s s'.
Proof. intros Hk Hs Hnd Ho. destruct (traverse_free_both n s t Hk Hs Hnd Ho) as (s' & H1 & _ & H2). by exists s'. Qed.

(** C18: [traverse_free] on the root returns every table of the address space to
    the frame allocator, and nothing else: exactly the frames of its tables are
    free afterwards, and no memory is written.  Each is freed once: the run is the
    same with a [free_frame] that panics on a frame that is not in use. *)
Theorem traverse_free_frees_exactly_the_tables s root : aspace s root →
  ∃ s', traverse_free 3 root s = (Ok tt, s') ∧ traverse_free_with free_once 3 root s = (Ok tt, s') ∧
    mem s' = mem s ∧ meta s' = meta s ∧ kwf s' ∧
    ∀ x, held (fa s') x ↔ held (fa s) x ∧ x ∉ tables 3 (mem s) root.
Proof. intros (Hk & [Hs Hnd] & Hown). by apply traverse_free_both. Qed.

(** ** Copy-on-write *)

(** The tables below two different entries are different. *)
Lemma below_ne n m t i j x : shape (S n) m t → NoDup (tables (S n) m t) →
  0 ≤ i < 512 → 0 ≤ j < 512 → i ≠ j →
  x ∈ below n m (entry m t i) → x ∉ below n m (entry m t j).
Proof.
  intros Hs Hnd Hi Hj Hne Hx Hx'.
  destruct (others_apart n m t i (entry m t j) x) as (_ & _ & Hn); [done..| |done|done].
  apply entry_others; [apply Hs|done..|congruence].
Qed.

(** A 4 KiB leaf is reached along one path only. *)
Lemma locate_inj n m : ∀ t q q' t' i k, shape n m t → NoDup (tables n m t) →
  length q = n → length q' = n → Forall (λ i, 0 ≤ i < 512) q → Forall (λ i, 0 ≤ i < 512) q' →
  locate m t q = Some (t', i, 0%nat) → locate m t q' = Some (t', i, k) → q = q'.
Proof.
  induction n as [|n IH]; intros t q q' t' i k Hs Hnd Hq Hq' Hr Hr' Hl Hl';
    [by destruct q, q'|].
  destruct q as [|j q], q' as [|j' q']; [done..|].
  apply Forall_cons in Hr as [Hj Hr], Hr' as [Hj' Hr']. injection Hq as Hq. injection Hq' as Hq'.
  cbn [locate] in Hl, Hl'.
  destruct (nodup_below n m t j Hs Hnd Hj) as [Hndb Hnt].
  destruct (nodup_below n m t j' Hs Hnd Hj') as [_ Hnt'].
  destruct (shape_entry n m t j Hs Hj) as [_ Hsub], (shape_entry n m t j' Hs Hj') as [_ Hsub'].
  pose proof (below_ne n m t j j' t' Hs Hnd Hj Hj') as Hne. unfold below in *.
  destruct (is_table (entry m t j)) eqn:Ht, (is_table (entry m t j')) eqn:Ht'.
  - destruct (locate_spec n m _ q t' i 0 (Hsub eq_refl) Hq Hr Hl) as (Hin & _).
    destruct (locate_spec n m _ q' t' i k (Hsub' eq_refl) Hq' Hr' Hl') as (Hin' & _).
    destruct (decide (j = j')) as [->|Hjj]; [|by destruct (Hne Hjj)].
    f_equal. by apply (IH (ppn_address (entry m t j')) q q' t' i k); auto.
  - destruct (is_valid (entry m t j')); simplify_eq.
    destruct (locate_spec _ m _ q t' i 0 (Hsub eq_refl) eq_refl Hr Hl) as (Hin & _). done.
  - destruct (is_valid (entry m t j)); simplify_eq.
    destruct (locate_spec _ m _ q' t' i k (Hsub' eq_refl) Hq' Hr' Hl') as (Hin & _). done.
  - destruct (is_valid (entry m t j)), (is_valid (entry m t j')); simplify_eq.
    destruct q; [|done]. by destruct q'.
Qed.

(** Two canonical addresses with the same indices are on the same page. *)
Lemma path_of_page va va' : is_u64 va → is_u64 va' → va_ok va = true → va_ok va' = true →
  path_of va Size4K = path_of va' Size4K ↔ va / 4096 = va' / 4096.
Proof.
  intros Hu Hu' Hok Hok'. split.
  - intros Hp. injection Hp as H2 H1 H0. by apply vpn_same_page.
  - intros Hd. unfold path_of. destruct (vpn_div va) as (-> & -> & ->), (vpn_div va') as (-> & -> & ->).
    change (2 ^ 30) with (4096 * 262144). change (2 ^ 21) with (4096 * 512). change (2 ^ 12) with 4096.
    rewrite <-!Z.div_div by lia. by rewrite Hd.
Qed.

(** Memory that keeps the tables keeps the address space. *)
Lemma aspace_keep s s' root : aspace s root → kwf s' →
  (∀ x, x ∈ tables 3 (mem s) root → frame (mem s') x = frame (mem s) x ∧ held (fa s') x) →
  aspace s' root ∧ tables 3 (mem s') root = tables 3 (mem s) root ∧
  ∀ va, locate (mem s') root (path_of va Size4K) = locate (mem s) root (path_of va Size4K).
Proof.
  intros (_ & [Hs Hnd] & Hown) Hk Hkeep.
  assert (Hag : ∀ x, x ∈ tables 3 (mem s) root → frame (mem s') x = frame (mem s) x)
    by (intros x Hx; by apply Hkeep).
  pose proof (tables_frame 3 _ _ _ Hag) as Ht.
  split; [split; [done|split; [split|]]|split; [done|]].
  - by apply (shape_frame 3 (mem s)).
  - by rewrite Ht.
  - intros x. rewrite Ht. intros Hx. by apply Hkeep.
  - intros va. apply (same_tree_locate 3); [|done|done|apply path_range].
    intros x Hx. rewrite Hag by done. reflexivity.
Qed.

(** The entry [copy_on_write] writes. *)
Lemma cow_pte_spec e new : is_leaf e = true → entry_ok e → table_ok new →
  let e' := set_flags (with_address e new) PTE_W in
  is_leaf e' = true ∧ entry_ok e' ∧ ppn_address e' = new ∧
  (∀ i, 0 ≤ i < 10 → Z.testbit e' i = Z.testbit e i || (i =? 2)).
Proof.
  intros Hl (Hu & _ & _) Hok e'. destruct (table_ok_page_ok _ Hok) as [(? & ? & ?) _].
  assert (Hb : ∀ i, 0 ≤ i < 10 → Z.testbit e' i = Z.testbit e i || (i =? 2)).
  { intros i Hi. unfold e', set_flags, PTE_W. rewrite Z.lor_spec, with_address_flag by done.
    autorewrite with bits. by rewrite (Z.eqb_sym 2). }
  assert (Hp : ppn_address e' = new).
  { unfold e'. rewrite ppn_set_flags by done. apply ppn_with_address; [done| |done].
    change (2 ^ 56) with (2 * 2 ^ 55). lia. }
  assert (Hl' : is_leaf e' = true).
  { rewrite is_leaf_bits in Hl |- *. rewrite !Hb by lia. cbn [Z.eqb Pos.eqb].
    apply andb_prop in Hl as [-> _]. by rewrite !orb_true_r. }
  destruct (is_leaf_not_table _ Hl') as [Hv' _].
  split; [done|]. split; [|done]. split_and!.
  - apply is_u64_set_flags; [by apply is_u64_with_address|done].
  - congruence.
  - by rewrite Hp.
Qed.

(** Every frame with metadata is in use, and counts at least one reference. *)
Definition meta_ok (s : Kmem) : Prop :=
  PageMeta.wf (meta s) ∧ ∀ x, ¬ held (fa s) x → refs (meta s) x = 0.

(** The last steps of [copy_on_write]: dropping the reference to the old page. *)
Lemma drop_page s old : kwf s → PageMeta.wf (meta s) → held (fa s) old → 1 ≤ refs (meta s) old →
  ∃ s', (let! count := unwrapped (page_remove old) in
         if count =? 0 then free_frame old else ret tt) s = (Ok tt, s') ∧
    mem s' = mem s ∧ kwf s' ∧ PageMeta.wf (meta s') ∧
    (∀ a, refs (meta s') a = if decide (a = old) then refs (meta s) a - 1 else refs (meta s) a) ∧
    (∀ x, held (fa s') x ↔ held (fa s) x ∧ (x = old → refs (meta s) old ≠ 1)).
Proof.
  intros Hk Hm Hh Hr. destruct (refs_remove (meta s) old Hm) as (t' & Hrem & Hwf' & Hrefs); [lia|].
  unfold bind, unwrapped, page_remove, zoom. rewrite Hrem.
  assert (Hk' : kwf (set_meta t' s)) by (by destruct Hk; split).
  destruct (Z.eqb_spec (refs (meta s) old - 1) 0) as [H0|H0].
  - destruct (free_frame_spec (set_meta t' s) old Hk' Hh) as (s' & Hf & Hm' & Hme & Hk2 & Hh').
    exists s'. rewrite Hme. split_and!; [done..|]. intros x. rewrite Hh', list_elem_of_singleton.
    simpl. split; [|naive_solver lia]. intros [? ?]. by split.
  - eexists. split_and!; [done..|]. intros x. simpl. split; [|tauto]. intros. split; [done|lia].
Qed.

(** [copy_on_write] up to the write of the entry. *)
Lemma copy_on_write_steps s root va t i : aspace s root →
  locate (mem s) root (path_of va Size4K) = Some (t, i, 0%nat) →
  let e := entry (mem s) t i in
  let old := ppn_address e in
  table_ok old →
  copy_on_write root va s =
    match alloc_frame s with
    | (Ok new, s1) =>
        (let! count := unwrapped (page_remove old) in
         if count =? 0 then free_frame old else ret tt)
        (mkKmem (fa s1)
           (upd t i (set_flags (with_address e new) PTE_W)
              (<[new := frame (mem s) old]> (mem s)))
           (PageMeta.add new (meta s)))
    | (_, s1) => (Panic, s1)
    end.
Proof.
  intros (Hk & [Hs Hnd] & Hown) Hl e old Hold.
  destruct (locate_spec 3 _ root (path_of va Size4K) t i 0 Hs eq_refl (path_range va _) Hl)
    as (Hin & Hlen & Hi & _).
  destruct (table_ok_mapped root KERNEL_DIRECT_MAPPING_BASE (shape_table_ok _ _ _ Hs)) as [Hadd _];
    [by right|].
  destruct (table_ok_mapped old KERNEL_DIRECT_MAPPING_BASE Hold) as [Haddo _]; [by right|].
  destruct (table_ok_page_ok _ Hold) as [(? & ? & ?) _].
  unfold copy_on_write, bind at 1, lift at 1, phys_to_virt at 1. rewrite Hadd.
  unfold bind at 1, gets at 1, bind at 1, lift at 1.
  rewrite translate_to_pte_ptr_locate, Hl by done. cbn [fmap option_fmap option_map size_of].
  unfold bind at 1, lift at 1. cbn [unwrap]. unfold bind at 1. cbn [decide].
  rewrite decide_True by done. unfold ret at 1. unfold bind at 1, get_entry at 1, gets at 1.
  fold e. unfold bind at 1, lift at 1.
  rewrite physical_address_ok by (fold old; change PA_MAX with (2 ^ 55 - 1); lia). fold old.
  unfold bind at 1, unwrapped at 1. pose proof (alloc_frame_spec s Hk) as Ha.
  destruct (alloc_frame s) as [[new|er| |] s1]; [|done|done|done].
  destruct Ha as (Hm & Hme & Hk1 & Hnok & Hnh & Hh).
  destruct (table_ok_mapped new KERNEL_DIRECT_MAPPING_BASE Hnok) as [Haddn _]; [by right|].
  destruct (table_ok_page_ok _ Hnok) as [(? & ? & ?) _].
  assert (Htn : t ≠ new) by (intros ->; by apply Hnh, Hown).
  unfold bind at 1, lift at 1, phys_to_virt at 1. rewrite Haddo.
  unfold bind at 1, lift at 1, phys_to_virt at 1. rewrite Haddn.
  unfold bind at 1, copy_frame at 1, modify at 1, bind at 1, page_add at 1, modify at 1.
  unfold bind at 1, get_entry at 1, gets at 1. cbn [mem set_mem set_meta meta fa].
  rewrite Hm, Hme.
  assert (entry (<[new := frame (mem s) old]> (mem s)) t i = e) as -> by
    (unfold entry; by rewrite frame_insert_ne).
  unfold bind at 1, lift at 1, pa_from_raw_unchecked at 1.
  rewrite (proj2 (Z.leb_le new PA_MAX)) by (change PA_MAX with (2 ^ 55 - 1); lia).
  unfold bind at 1, lift at 1. rewrite set_physical_address_ok by done.
  unfold bind at 1, set_entry at 1, modify at 1. done.
Qed.

(** The allocator, the references and the memory after [copy_on_write]. *)
Lemma copy_on_write_spec s root va t i : aspace s root → meta_ok s →
  locate (mem s) root (path_of va Size4K) = Some (t, i, 0%nat) →
  let e := entry (mem s) t i in
  let old := ppn_address e in
  table_ok old → held (fa s) old → 1 ≤ refs (meta s) old →
  match copy_on_write root va s with
  | (Ok _, s') => ∃ new,
      ¬ held (fa s) new ∧ table_ok new ∧ kwf s' ∧ meta_ok s' ∧
      mem s' = upd t i (set_flags (with_address e new) PTE_W)
                 (<[new := frame (mem s) old]> (mem s)) ∧
      (∀ a, refs (meta s') a =
         if decide (a = new) then 1 else if decide (a = old) then refs (meta s) a - 1
         else refs (meta s) a) ∧
      (∀ x, held (fa s') x ↔ x = new ∨ held (fa s) x ∧ (x = old → refs (meta s) old ≠ 1))
  | (Panic, s') => full (fa s')
  | _ => False
  end.
Proof.
  intros Has [Hmwf Hm0] Hl e old Hold Hoh Hor. pose proof Has as (Hk & _ & _).
  rewrite (copy_on_write_steps s root va t i) by done. fold e old.
  pose proof (alloc_frame_spec s Hk) as Ha.
  destruct (alloc_frame s) as [[new|er| |] s1]; [|by destruct Ha as [-> ?]|done..].
  destruct Ha as (Hm & Hme & Hk1 & Hnok & Hnh & Hh).
  assert (Hno : new ≠ old) by (intros ->; done).
  assert (Hn0 : refs (meta s) new < 2 ^ 16 - 1) by (rewrite Hm0 by done; lia).
  assert (Hrefs : ∀ a, refs (PageMeta.add new (meta s)) a =
            if decide (a = new) then 1 else refs (meta s) a).
  { intros a. destruct (refs_add (meta s) new a Hmwf Hn0) as [_ ->].
    destruct (decide (a = new)) as [->|]; [by rewrite Hm0|done]. }
  set (s4 := mkKmem _ _ (PageMeta.add new (meta s))).
  destruct (drop_page s4 old) as (s' & -> & Hm' & Hk' & Hwf' & Hrefs' & Hh').
  { by destruct Hk1; split. }
  { by apply (refs_add (meta s) new new). }
  { by apply Hh; right. }
  { simpl. by rewrite Hrefs, decide_False. }
  simpl in Hrefs', Hh'. rewrite Hrefs, (decide_False (P := old = new)) in Hh' by done.
  assert (Hrefs2 : ∀ a, refs (meta s') a = if decide (a = new) then 1
            else if decide (a = old) then refs (meta s) a - 1 else refs (meta s) a).
  { intros a. rewrite Hrefs', Hrefs. destruct (decide (a = old)) as [->|]; [|done].
    by rewrite !decide_False by done. }
  assert (Hh2 : ∀ x, held (fa s') x ↔
            x = new ∨ held (fa s) x ∧ (x = old → refs (meta s) old ≠ 1)).
  { intros x. rewrite Hh', Hh. naive_solver. }
  exists new. split; [done|]. split; [done|]. split; [done|]. split; [|done].
  split; [done|]. intros x Hx. rewrite Hrefs2. rewrite Hh2 in Hx.
  rewrite decide_False by naive_solver.
  destruct (decide (x = old)) as [->|]; [|apply Hm0; naive_solver].
  destruct (decide (refs (meta s) old = 1)) as [->|]; [done|]. naive_solver.
Qed.

(** [copy_on_write] on the tables. *)
Lemma copy_on_write_walk s root va t i :
  aspace s root → meta_ok s →
  locate (mem s) root (path_of va Size4K) = Some (t, i, 0%nat) →
  let e := entry (mem s) t i in
  let old := ppn_address e in
  table_ok old → held (fa s) old → old ∉ tables 3 (mem s) root → 1 ≤ refs (meta s) old →
  match copy_on_write root va s with
  | (Ok _, s') => ∃ new,
      let e' := set_flags (with_address e new) PTE_W in
      ¬ held (fa s) new ∧ table_ok new ∧ aspace s' root ∧ meta_ok s' ∧
      tables 3 (mem s') root = tables 3 (mem s) root ∧ entry (mem s') t i = e' ∧
      (∀ va', walk (mem s') root (path_of va' Size4K) =
         if decide (path_of va' Size4K = path_of va Size4K) then Some (e', 0%nat)
         else walk (mem s) root (path_of va' Size4K)) ∧
      frame (mem s') new = frame (mem s) old ∧
      (∀ x, x ≠ new → x ≠ t → frame (mem s') x = frame (mem s) x) ∧
      (∀ a, refs (meta s') a =
         if decide (a = new) then 1 else if decide (a = old) then refs (meta s) a - 1
         else refs (meta s) a) ∧
      (∀ x, held (fa s') x ↔ x = new ∨ held (fa s) x ∧ (x = old → refs (meta s) old ≠ 1))
  | (Panic, s') => full (fa s')
  | _ => False
  end.
Proof.
  intros Has Hmeta Hl e old Hold Hoh Hot Hor. pose proof Has as (Hk & [Hs Hnd] & Hown).
  destruct (locate_spec 3 _ root (path_of va Size4K) t i 0 Hs eq_refl (path_range va _) Hl)
    as (Hin & Hlen & Hi & Hleaf & Hok & _).
  pose proof (copy_on_write_spec s root va t i Has Hmeta Hl Hold Hoh Hor) as Hc.
  destruct (copy_on_write root va s) as [[[]|er| |] s']; [|done..].
  destruct Hc as (new & Hnh & Hnok & Hk' & Hmeta' & Hm' & Hrefs' & Hh').
  exists new. cbv zeta. fold e old in Hm', Hrefs', Hh'.
  destruct (cow_pte_spec _ new Hleaf Hok Hnok) as (Hleaf' & Hok' & _). fold e in Hleaf', Hok'.
  set (e' := set_flags _ PTE_W) in *.
  assert (Htn : ∀ x, x ∈ tables 3 (mem s) root → x ≠ new) by (intros x Hx ->; by apply Hnh, Hown).
  set (s3 := mkKmem (fa s') (<[new := frame (mem s) old]> (mem s)) (meta s')).
  destruct (aspace_keep s s3 root Has) as (Has3 & Ht3 & Hl3); [by destruct Hk'; split| |].
  { intros x Hx. split; [by apply frame_insert_ne, Htn|]. apply Hh'. right.
    split; [by apply Hown|]. by intros ->. }
  destruct (leaf_rewrite s3 root va t i 0 e' Has3) as (Has4 & Ht4 & Hl4); [by rewrite Hl3|done..|].
  assert (set_mem (upd t i e' (mem s3)) s3 = s') as Hs' by (destruct s'; simpl in *; by rewrite Hm').
  rewrite Hs' in Has4, Ht4, Hl4.
  assert (Hlen3 : length (frame (mem s3) t) = 512%nat) by (simpl; by rewrite frame_insert_ne by auto).
  assert (Hent : ∀ x j, x ∈ tables 3 (mem s) root → 0 ≤ j →
    entry (mem s') x j = if decide (x = t ∧ j = i) then e' else entry (mem s) x j).
  { intros x j Hx Hj. rewrite Hm'.
    etrans; [exact (entry_upd_if (mem s3) t i e' x j Hlen3 Hi Hj)|].
    destruct (decide _); [done|]. unfold entry. simpl. by rewrite frame_insert_ne by auto. }
  split_and!; [done|done|done|done|by rewrite Ht4, Ht3| | | | |done|done].
  - by rewrite Hent, decide_True by (done || lia).
  - intros va'. rewrite !walk_locate, Hl4, Hl3.
    destruct (locate (mem s) root (path_of va' Size4K)) as [[[t' j] k]|] eqn:Hl'; cbn [fmap option_fmap option_map].
    2:{ rewrite decide_False; [done|]. intros Hp. rewrite Hp, Hl in Hl'. discriminate. }
    destruct (locate_spec 3 _ root (path_of va' Size4K) t' j k Hs eq_refl (path_range va' _) Hl')
      as (Hin' & _ & Hj & _). rewrite Hent by (done || lia).
    destruct (decide (path_of va' Size4K = path_of va Size4K)) as [Hp|Hp].
    + rewrite Hp, Hl in Hl'. simplify_eq. by rewrite decide_True by done.
    + rewrite decide_False; [done|]. intros [-> ->]. apply Hp.
      symmetry. by apply (locate_inj 3 (mem s) root _ _ t i k); [..|apply path_range|apply path_range| |].
  - rewrite Hm'. by rewrite frame_upd_ne, frame_insert by (intros ->; by apply (Htn t)).
  - intros x Hxn Hxt. rewrite Hm'. by rewrite frame_upd_ne, frame_insert_ne.
Qed.

(** C17: on a write fault, [copy_on_write] gives the page of the faulting address
    a private, writable copy of its frame: every address of that page then
    translates to the new frame, whose contents are those of the old one; the
    translation of every other address, the old frame, and all other memory
    stay as they were.  The new frame has one reference, the old one loses one,
    and it goes back to the allocator exactly when that was its last.
    [copy_on_write] returns, unless no frame is left. *)
Theorem copy_on_write_gives_private_copy s root va t i :
  aspace s root → meta_ok s → is_u64 va → va_ok va = true →
  locate (mem s) root (path_of va Size4K) = Some (t, i, 0%nat) →
  let old := ppn_address (entry (mem s) t i) in
  table_ok old → held (fa s) old → old ∉ tables 3 (mem s) root → 1 ≤ refs (meta s) old →
  match copy_on_write root va s with
  | (Ok _, s') => ∃ new,
      ¬ held (fa s) new ∧ aspace s' root ∧ meta_ok s' ∧
      (∀ va', is_u64 va' → va_ok va' = true → translate (mem s') root va' =
         if va' / 4096 =? va / 4096 then Ok (Some (new + va' mod 4096))
         else translate (mem s) root va') ∧
      (∀ j, 0 ≤ j < 10 → Z.testbit (entry (mem s') t i) j =
         Z.testbit (entry (mem s) t i) j || (j =? 2)) ∧
      frame (mem s') new = frame (mem s) old ∧
      (∀ x, x ≠ new → x ≠ t → frame (mem s') x = frame (mem s) x) ∧
      (∀ a, refs (meta s') a =
         if decide (a = new) then 1 else if decide (a = old) then refs (meta s) a - 1
         else refs (meta s) a) ∧
      (∀ x, held (fa s') x ↔ x = new ∨ held (fa s) x ∧ (x = old → refs (meta s) old ≠ 1))
  | (Panic, s') => full (fa s')
  | _ => False
  end.
Proof.
  intros Has Hmeta Hva Hvok Hl old Hold Hoh Hot Hor. pose proof Has as (_ & [Hs _] & _).
  destruct (locate_spec 3 _ root (path_of va Size4K) t i 0 Hs eq_refl (path_range va _) Hl)
    as (_ & _ & _ & Hleaf & Hok & _).
  pose proof (copy_on_write_walk s root va t i Has Hmeta Hl Hold Hoh Hot Hor) as Hc.
  destruct (copy_on_write root va s) as [[[]|er| |] s']; [|done..].
  destruct Hc as (new & Hnh & Hnok & Has' & Hmeta' & _ & Hent & Hw & Hcopy & Hrest & Hrefs & Hheld).
  destruct (cow_pte_spec _ new Hleaf Hok Hnok) as (_ & _ & Hppn & Hbits).
  exists new. split_and!; [done..| | |done|done|done|done].
  - intros va' Hva' Hvok'. rewrite !translate_walk by (apply Has' || done || apply Hva'). rewrite Hw.
    pose proof (path_of_page va' va Hva' Hva Hvok' Hvok) as Hpage.
    destruct (Z.eqb_spec (va' / 4096) (va / 4096)) as [Hp%Hpage|Hp].
    + rewrite decide_True by done. simpl. by rewrite Hppn.
    + by rewrite decide_False by (by rewrite Hpage).
  - intros j Hj. rewrite Hent. by apply Hbits.
Qed.

(** ** A concrete process

    The example address space with one writable user page, frame 0x8020_1000 at
    0x1_0000. *)

Definition example_page : Kmem :=
  (page_add 0x80201000 (alloc_frame example_kmem).2).2.

Definition example_process : Kmem :=
  (map_vm 0x80200000 0x10000 0x80201000 (Z.lor PTE_RW PTE_U) example_page).2.

Lemma example_page_aspace : aspace example_page 0x80200000 ∧ held (fa example_page) 0x80201000
  ∧ meta_ok example_page.
Proof.
  pose proof example_aspace as Has. pose proof Has as (Hk & _ & Hown).
  pose proof (alloc_frame_spec _ Hk) as Ha. unfold example_page.
  replace (alloc_frame example_kmem) with
    (@Ok Error Z 0x80201000, (alloc_frame example_kmem).2) in Ha by (vm_compute; reflexivity).
  destruct Ha as (Hm & Hme & Hk' & _ & _ & Hh). split_and!.
  - apply (aspace_keep example_kmem _ 0x80200000 Has); [by destruct Hk'; split|].
    intros x Hx. split; [|apply Hh; right; by apply Hown].
    unfold page_add, modify. cbn [snd mem set_meta]. by rewrite Hm.
  - apply Hh. by left.
  - unfold page_add, modify, meta_ok. cbn [snd meta set_meta]. rewrite Hme.
    split; [by apply (refs_add ∅ 0x80201000 0 PageMeta.wf_empty)|]. intros x Hx.
    etrans; [apply (refs_add ∅ 0x80201000 x PageMeta.wf_empty); done|].
    rewrite decide_False; [done|]. intros ->. apply Hx, Hh. by left.
Qed.

Lemma example_process_aspace : aspace example_process 0x80200000 ∧
  rest_kept example_page example_process 0x80200000.
Proof.
  unfold example_process, map_vm, map_vm_with_page_size.
  destruct example_page_aspace as [Has _].
  pose proof (map_memory_spec example_page 0x80200000 0x10000 0x80201000 (Z.lor PTE_RW PTE_U)
    KERNEL_DIRECT_MAPPING_BASE Size4K Has (or_intror eq_refl) ltac:(done) ltac:(done) ltac:(done)
    ltac:(done) ltac:(vm_compute; reflexivity)) as H.
  destruct (map_memory_with_base 0x80200000 0x10000 _ _ _ _ example_page)
    as [[[]|e| |] s'] eqn:Hm; [by destruct H as (? & ? & _)|done|by vm_compute in Hm|done].
Qed.

Lemma rx_tables_check n m t :
  forallb (λ x, forallb (λ e, negb (is_leaf e) || (Z.testbit e 1 || Z.testbit e 3)) (frame m x))
    (tables n m t) = true → rx_tables n m t.
Proof.
  intros Hb x Hx. apply Forall_forall. intros e He Hl.
  rewrite forallb_forall in Hb. specialize (Hb x ltac:(by apply list_elem_of_In)).
  rewrite forallb_forall in Hb. specialize (Hb e ltac:(by apply list_elem_of_In)).
  by rewrite Hl in Hb.
Qed.

Lemma fork_copies_address_space_witness :
  ∃ child s', fork 3 0x80200000 example_process = (Ok child, s') ∧
    translate (mem s') child 0x10004 = Ok (Some 0x80201004) ∧
    refs (meta s') 0x80201000 = 2.
Proof.
  pose proof (fork_copies_address_space example_process 0x80200000 (proj1 example_process_aspace)
    ltac:(apply rx_tables_check; vm_compute; reflexivity)) as H.
  assert (Hok : (fork 3 0x80200000 example_process).1 = Ok 0x80204000) by
    (vm_compute; reflexivity).
  destruct (fork 3 0x80200000 example_process) as [o s']. cbn [fst] in Hok. subst o.
  exists 0x80204000, s'. split; [reflexivity|]. destruct H as (_ & _ & _ & _ & _ & Hm & Hva).
  destruct (Hva 0x10004 ltac:(done)) as (_ & -> & _). rewrite Hm.
  split; vm_compute; reflexivity.
Defined.

Lemma traverse_free_frees_exactly_the_tables_witness :
  ∃ s', traverse_free 3 0x80200000 example_process = (Ok tt, s') ∧
    ¬ held (fa s') 0x80200000 ∧ held (fa s') 0x80201000.
Proof.
  destruct (traverse_free_frees_exactly_the_tables example_process 0x80200000
    (proj1 example_process_aspace)) as (s' & Hf & _ & _ & _ & _ & Hh).
  exists s'. split; [done|]. rewrite !Hh. split.
  - intros [_ Hn]. apply Hn. left.
  - split.
    + apply (proj2 example_process_aspace). apply example_page_aspace.
    + apply (bool_decide_eq_true_1 (0x80201000 ∉ _)). vm_compute. reflexivity.
Defined.

Lemma copy_on_write_gives_private_copy_witness :
  ∃ t s', locate (mem example_process) 0x80200000 (path_of 0x10000 Size4K) = Some (t, 16, 0%nat) ∧
    copy_on_write 0x80200000 0x10000 example_process = (Ok tt, s') ∧
    translate (mem s') 0x80200000 0x10008 = Ok (Some 0x80204008).
Proof.
  destruct example_page_aspace as (_ & Hh & Hmo).
  destruct example_process_aspace as (Has & Hme & Hheld & _).
  assert (Hmeta : meta_ok example_process).
  { split; [rewrite Hme; apply Hmo|]. intros x Hx. rewrite Hme. apply Hmo. auto. }
  assert (Hto : table_ok 0x80201000) by done.
  assert (Hnt : 0x80201000 ∉ tables 3 (mem example_process) 0x80200000) by
    (apply (bool_decide_eq_true_1 (0x80201000 ∉ _)); vm_compute; reflexivity).
  assert (Hr : 1 ≤ refs (meta example_page) 0x80201000) by (vm_compute; done).
  pose proof (copy_on_write_gives_private_copy example_process 0x80200000 0x10000 0x80203000 16
    Has Hmeta ltac:(done) ltac:(done) ltac:(vm_compute; reflexivity)) as H.
  assert (Hold : ppn_address (entry (mem example_process) 0x80203000 16) = 0x80201000) by
    (vm_compute; reflexivity).
  cbv zeta in H. rewrite Hold, Hme in H. specialize (H Hto (Hheld _ Hh) Hnt Hr).
  exists 0x80203000.
  assert (Hok : (copy_on_write 0x80200000 0x10000 example_process).1 = Ok tt ∧
    translate (mem (copy_on_write 0x80200000 0x10000 example_process).2) 0x80200000 0x10008 =
      Ok (Some 0x80204008)) by (vm_compute; split; reflexivity).
  destruct (copy_on_write 0x80200000 0x10000 example_process) as [o s'].
  cbn [fst snd] in Hok. destruct Hok as [-> Hok]. destruct H as (new & _ & _ & _ & Hva & _).
  exists s'. split; [vm_compute; reflexivity|]. split; [reflexivity|]. exact Hok.
Defined.
