(* ===== verification/Vfs.v ===== *)
(** * The VFS interfaces and open files

    [vfs/src/lib.rs].  The traits are type classes: [BlockDevice] on the state
    [D] of the device, and [VNode] on nodes [N] of a system state [S].  The
    contracts of the traits are the classes [BlockDeviceOk] and [VNodeOk]: a
    filesystem is proved against the first, open files against the second. *)

From S2P Require Import Prelude Errors.

(** ** Model *)

Abbreviation MAX_FILE_PATH_LENGTH := 255.
Definition SECTOR_SIZE : Z := 512.

(** [trait BlockDevice]: the associated functions act on the one device of the
    type.  [read_sector] gives the bytes it puts in [buf]. *)
Class BlockDevice (D : Type) := {
  read_sector : Z → M D VfsError (list Z);
  write_sector : Z → list Z → M D VfsError unit;
}.

(** [trait VNode].  [read] gives the bytes it puts at the front of a buffer of
    the given length. *)
Class VNode (S N : Type) := {
  vn_open : N → list Z → M S VfsError N;
  vn_create : N → list Z → M S VfsError N;
  vn_read : N → Z → Z → M S VfsError (list Z);
  vn_write : N → Z → list Z → M S VfsError Z;
  vn_sz : N → M S VfsError Z;
}.

(** [struct File]. *)
Record File (N : Type) := mkFile { inode : N; offset : Z }.
Arguments mkFile {N} inode offset.
Arguments inode {N} f.
Arguments offset {N} f.

Inductive SeekFrom := Start (o : Z) | Current (o : Z) | End (o : Z).

Section file.
Context {S N : Type} `{VNode S N}.

(** [File::read] of a buffer of [len] bytes; the result has the new [self]. *)
Definition file_read (f : File N) (len : Z) : M S VfsError (list Z * File N) :=
  let! bs := vn_read (inode f) (offset f) len in
  let! o := lift (add_ov 64 (offset f) (Z.of_nat (length bs))) in
  ret (bs, mkFile (inode f) o).

(** [File::write]. *)
Definition file_write (f : File N) (buf : list Z) : M S VfsError (Z * File N) :=
  let! n := vn_write (inode f) (offset f) buf in
  let! o := lift (add_ov 64 (offset f) n) in
  ret (n, mkFile (inode f) o).

(** The closure [checked_offset] of [seek]. *)
Definition checked_offset (start offset : Z) : option Z :=
  if 0 <=? offset then checked_add 64 start offset else checked_sub start (Z.abs offset).

(** [File::seek]. *)
Definition file_seek (f : File N) (o : SeekFrom) : M S VfsError (File N) :=
  let! file_size := vn_sz (inode f) in
  let! new_offset := lift (ok_or
    match o with
    | Start o => Some o
    | Current o => checked_offset (offset f) o
    | End o => checked_offset file_size o
    end OutOfBounds) in
  let! sz := vn_sz (inode f) in
  if sz <? new_offset then fail OutOfBounds else ret (mkFile (inode f) new_offset).
End file.

(** ** Contracts *)

(** What a block device promises: [sector] is its contents.  A read or a write
    that fails reports [DeviceIO]; a failed write may have garbled its sector
    and no other. *)
Class BlockDeviceOk (D : Type) `{BlockDevice D} := {
  sector : D → Z → option (list Z);
  sector_len d n b : sector d n = Some b → length b = 512%nat ∧ Forall is_u8 b;
  read_sector_spec d n :
    match read_sector n d with
    | (Ok b, d') => sector d n = Some b ∧ ∀ k, sector d' k = sector d k
    | (Err e, d') => e = DeviceIO ∧ ∀ k, sector d' k = sector d k
    | _ => False
    end;
  write_sector_spec d n b : length b = 512%nat → Forall is_u8 b →
    match write_sector n b d with
    | (Ok _, d') => is_Some (sector d n) ∧
        ∀ k, sector d' k = if decide (k = n) then Some b else sector d k
    | (Err e, d') => e = DeviceIO ∧ (∀ k, k ≠ n → sector d' k = sector d k) ∧
        (is_Some (sector d' n) ↔ is_Some (sector d n))
    | _ => False
    end;
}.

(** A device that serves every sector it has. *)
Class ReliableDevice (D : Type) `{BlockDeviceOk D} : Prop := {
  read_sector_live d n : is_Some (sector d n) → ∃ b d', read_sector n d = (Ok b, d');
  write_sector_live d n b : length b = 512%nat → is_Some (sector d n) →
    ∃ d', write_sector n b d = (Ok tt, d');
}.

(** What a node that is a regular file promises: [content] is its bytes, and
    [vn_read] gives a prefix of what is asked for, empty only at the end. *)
Class VNodeOk (S N : Type) `{VNode S N} := {
  regular : S → N → Prop;
  content : S → N → list Z;
  same_files : S → S → Prop;
  same_files_refl s : same_files s s;
  same_files_trans s1 s2 s3 : same_files s1 s2 → same_files s2 s3 → same_files s1 s3;
  same_files_spec s s' n : same_files s s' → regular s n →
    regular s' n ∧ content s' n = content s n;
  content_len s n : regular s n → Z.of_nat (length (content s n)) < 2 ^ 32;
  vn_sz_spec s n : regular s n → ∃ s',
    vn_sz n s = (Ok (Z.of_nat (length (content s n))), s') ∧ same_files s s';
  vn_read_spec s n off len : regular s n → 0 ≤ off → 0 ≤ len →
    ∃ s', vn_read n off len s =
      (Ok (take (Z.to_nat len) (drop (Z.to_nat off) (content s n))), s') ∧ same_files s s';
}.

(** ** Open files *)

Section file_theorems.
Context {S N : Type} `{HV : VNode S N} `{HO : !VNodeOk S N}.
Implicit Types (s : S) (f : File N).

(** Where a seek goes, as an integer. *)
Definition seek_target s f (o : SeekFrom) : Z :=
  match o with
  | Start o => o
  | Current o => offset f + o
  | End o => Z.of_nat (length (content s (inode f))) + o
  end.

(** A run of reads, one for each buffer length. *)
Fixpoint read_chunks f (lens : list Z) : M S VfsError (list Z * File N) :=
  match lens with
  | [] => ret ([], f)
  | len :: lens' =>
      let! (bs, f') := file_read f len in
      let! (bs', f'') := read_chunks f' lens' in
      ret (bs ++ bs', f'')
  end.

Lemma checked_offset_spec start off : 0 ≤ start →
  checked_offset start off =
    if (0 <=? start + off) && ((start + off <? 2 ^ 64) || (off <? 0))
    then Some (start + off) else None.
Proof.
  intros Hs. unfold checked_offset, checked_add, checked_sub.
  destruct (Z.leb_spec 0 off).
  - destruct (Z.leb_spec 0 (start + off)); [|lia].
    destruct (Z.ltb_spec off 0); [lia|]. by rewrite orb_false_r.
  - destruct (Z.leb_spec (Z.abs off) start), (Z.leb_spec 0 (start + off)); simpl; try lia; [|done].
    destruct (Z.ltb_spec off 0); [|lia]. rewrite orb_true_r. f_equal. lia.
Qed.

(** [seek] moves to any position from the start of a file up to and
    including its end, for each of the three bases, and rejects every other
    target with [OutOfBounds]: a target before the start, past the end, or one
    whose computation leaves the range of [usize]. *)
Theorem file_seek_spec s f o :
  regular s (inode f) → is_usize (offset f) →
  (match o with Start o => is_usize o | Current o | End o => - 2 ^ 63 ≤ o < 2 ^ 63 end) →
  ∃ s', same_files s s' ∧
    file_seek f o s =
      (if (0 <=? seek_target s f o) &&
          (seek_target s f o <=? Z.of_nat (length (content s (inode f))))
       then (Ok (mkFile (inode f) (seek_target s f o)), s')
       else (Err OutOfBounds, s')).
Proof.
  intros Hr Ho Hrange. unfold file_seek.
  destruct (vn_sz_spec s (inode f) Hr) as (s1 & Hsz & Hs1).
  destruct (same_files_spec _ _ _ Hs1 Hr) as [Hr1 Hc1].
  destruct (vn_sz_spec s1 (inode f) Hr1) as (s2 & Hsz2 & Hs2). rewrite Hc1 in Hsz2.
  pose proof (content_len s (inode f) Hr) as Hlen.
  set (sz := Z.of_nat (length (content s (inode f)))) in *.
  rewrite (bind_ok _ _ _ _ _ Hsz). unfold bind at 1, lift.
  assert (Htgt : ∀ t, t = seek_target s f o → ∀ new, new = Some t ∧ 0 ≤ t ∨ new = None ∧ (t < 0 ∨ sz < t) →
    new = match o with
          | Start o => Some o
          | Current o => checked_offset (offset f) o
          | End o => checked_offset sz o
          end → ∃ s', same_files s s' ∧
      match ok_or new OutOfBounds with
      | Ok a => (let! sz0 := vn_sz (inode f) in
                 if sz0 <? a then fail OutOfBounds else ret (mkFile (inode f) a)) s1
      | Err e => (Err e, s1) | Panic => (Panic, s1) | Diverge => (Diverge, s1)
      end = if (0 <=? t) && (t <=? sz) then (Ok (mkFile (inode f) t), s') else (Err OutOfBounds, s')).
  { intros t _ new [[-> H0]|[-> Hout]] _; simpl.
    - exists s2. split; [by eapply same_files_trans|]. rewrite (bind_ok _ _ _ _ _ Hsz2).
      destruct (Z.ltb_spec sz t), (Z.leb_spec 0 t), (Z.leb_spec t sz); try lia; done.
    - exists s1. split; [done|].
      destruct (Z.leb_spec 0 t), (Z.leb_spec t sz); try lia; done. }
  destruct Ho, o as [o|o|o]; unfold seek_target in *; fold sz in Htgt |- *.
  - apply (Htgt o eq_refl (Some o)); [left; destruct Hrange; done|done].
  - apply (Htgt _ eq_refl (checked_offset (offset f) o)); [|done].
    rewrite checked_offset_spec by done.
    destruct (Z.leb_spec 0 (offset f + o)), (Z.ltb_spec (offset f + o) (2 ^ 64)), (Z.ltb_spec o 0);
      simpl; [left|left|left|right..]; split; done || lia.
  - apply (Htgt _ eq_refl (checked_offset sz o)); [|done].
    rewrite checked_offset_spec by lia.
    destruct (Z.leb_spec 0 (sz + o)), (Z.ltb_spec (sz + o) (2 ^ 64)), (Z.ltb_spec o 0);
      simpl; [left|left|left|right..]; split; done || lia.
Qed.

(** A run of reads through one open file, with buffers of any lengths,
    gives the consecutive bytes of the file from the current offset, nothing
    skipped or repeated, up to the end of the file; the offset ends just after
    the last byte given. *)
Theorem file_reads_are_consecutive lens : ∀ s f,
  regular s (inode f) → 0 ≤ offset f ≤ Z.of_nat (length (content s (inode f))) →
  Forall (λ len, 0 ≤ len) lens →
  let rest := drop (Z.to_nat (offset f)) (content s (inode f)) in
  let total := Z.to_nat (foldr Z.add 0 lens) in
  ∃ s', same_files s s' ∧
    read_chunks f lens s =
      (Ok (take total rest,
           mkFile (inode f) (offset f + Z.of_nat (length (take total rest)))), s').
Proof.
  induction lens as [|len lens IH]; intros s f Hr Ho Hl rest total.
  { exists s. split; [apply same_files_refl|]. simpl. rewrite Z.add_0_r. by destruct f. }
  apply Forall_cons in Hl as [Hl0 Hl]. simpl in total.
  assert (Hsum : 0 ≤ foldr Z.add 0 lens) by (clear -Hl; induction Hl; simpl; lia).
  destruct (vn_read_spec s (inode f) (offset f) len Hr) as (s1 & Hrd & Hs1); [lia..|].
  fold rest in Hrd. destruct (same_files_spec _ _ _ Hs1 Hr) as [Hr1 Hc1].
  pose proof (content_len s (inode f) Hr).
  assert (Hrest : length rest = (length (content s (inode f)) - Z.to_nat (offset f))%nat)
    by apply length_drop.
  assert (Htk : length (take (Z.to_nat len) rest) = (Z.to_nat len `min` length rest)%nat)
    by apply length_take.
  set (n := length (take (Z.to_nat len) rest)) in *.
  assert (Hfr : file_read f len s =
    (Ok (take (Z.to_nat len) rest, mkFile (inode f) (offset f + Z.of_nat n)), s1)).
  { unfold file_read. rewrite (bind_ok _ _ _ _ _ Hrd). unfold bind, lift, add_ov, checked_add.
    fold n. by rewrite (proj2 (Z.ltb_lt _ _)) by lia. }
  cbn [read_chunks]. rewrite (bind_ok _ _ _ _ _ Hfr).
  destruct (IH s1 (mkFile (inode f) (offset f + Z.of_nat n))) as (s2 & Hs2 & Hrc);
    [done|simpl; rewrite Hc1; lia|done|].
  simpl in Hrc. rewrite (bind_ok _ _ _ _ _ Hrc). exists s2.
  split; [by eapply same_files_trans|]. unfold ret. rewrite Hc1.
  assert (Hd : drop (Z.to_nat (offset f + Z.of_nat n)) (content s (inode f)) = drop n rest).
  { unfold rest. rewrite drop_drop. f_equal. lia. }
  rewrite Hd. set (k := Z.to_nat (foldr Z.add 0 lens)).
  assert (Ht : take (Z.to_nat len) rest ++ take k (drop n rest) = take total rest).
  { unfold total. rewrite Z2Nat.inj_add by done. fold k.
    destruct (decide (Z.to_nat len ≤ length rest)%nat).
    - replace n with (Z.to_nat len) by lia. apply take_take_drop.
    - rewrite (drop_ge rest n), take_nil, app_nil_r, !take_ge by lia. done. }
  assert (length (take total rest) = n + length (take k (drop n rest)))%nat as Hlt
    by (rewrite <-Ht; apply length_app).
  rewrite Ht. do 4 f_equal. lia.
Qed.
End file_theorems.

(** ** A file in memory

    The smallest system of files: the state is one file's bytes. *)

#[export] Instance bytes_vnode : VNode (list Z) unit := {|
  vn_open := λ _ _, fail VfsNotFound;
  vn_create := λ _ _, fail Fs;
  vn_read := λ _ off len, gets (λ bs, take (Z.to_nat len) (drop (Z.to_nat off) bs));
  vn_write := λ _ _ _, fail Fs;
  vn_sz := λ _, gets (λ bs, Z.of_nat (length bs));
|}.

#[export] Instance bytes_vnode_ok : VNodeOk (list Z) unit.
Proof.
  refine {| regular := λ s _, Z.of_nat (length s) < 2 ^ 32; content := λ s _, s;
            same_files := eq |}.
  - done.
  - by intros ? ? ? -> ->.
  - by intros s s' n <-.
  - done.
  - intros s n Hn. by exists s.
  - intros s n off len Hn Ho Hl. by exists s.
Defined.

Lemma file_seek_spec_witness :
  file_seek (S := list Z) (mkFile tt 2) (Current 1) [10; 20; 30] =
    (Ok (mkFile tt 3), [10; 20; 30]).
Proof.
  destruct (file_seek_spec (S := list Z) [10; 20; 30] (mkFile tt 2) (Current 1))
    as (s' & Hs & ->); [done|done|lia|]. simpl in Hs. by subst s'.
Defined.

Lemma file_reads_are_consecutive_witness :
  read_chunks (S := list Z) (mkFile tt 1) [1; 5] [10; 20; 30] =
    (Ok ([20; 30], mkFile tt 3), [10; 20; 30]).
Proof.
  destruct (file_reads_are_consecutive (S := list Z) [1; 5] [10; 20; 30] (mkFile tt 1))
    as (s' & Hs & ->); [done|simpl; lia|by repeat constructor|]. simpl in Hs. by subst s'.
Defined.
