(* ===== verification/Vsfs.v ===== *)
(** * VSFS: data structures and operations

    [vsfs/src/lib.rs].  The disk is a [BlockDevice]; the structures on it are
    read and written as little-endian bytes (the target's [repr(C)] layout).

    An [Arc<INode>] is its inode number and the location of its
    [Arc<RwLock<INodeInner>>] in [heap], so that handles that share the payload
    see each other's updates.  The locks are taken and released inside each
    operation and are not part of the state. *)

From Stdlib Require Strings.Byte.
From S2P Require Import Prelude Errors Vfs.

(** ** Layout constants *)

Abbreviation MAGIC := 0x56534653.
Definition BLOCK_SIZE : Z := 4096.
Definition SECTORS_PER_BLOCK : Z := BLOCK_SIZE / SECTOR_SIZE.
Definition DIRECT_BLOCKS : Z := 12.
Definition INDIRECT_BLOCK_ENTRIES : Z := BLOCK_SIZE / 4.

(** [size_of::<INodeInner>()] and [size_of::<DirEnt>()]. *)
Definition INODE_BYTES : Z := 64.
Definition DIRENT_BYTES : Z := 32.

(** ** Structures on disk *)

(** [enum Type], by its discriminant: the bytes come from the disk. *)
Definition TDirectory : Z := 1.
Definition TFile : Z := 2.

Record INodeInner := mkInner {
  ty : Z;
  link_count : Z;
  dev : Z;
  sz : Z;
  direct_blocks : list Z;
  indirect_block : Z;
}.

Record DirEnt := mkDirEnt { d_inum : Z; name_len : Z; name : list Z }.

Record SuperBlock := mkSuper {
  magic : Z;
  nblocks : Z;
  ninodes : Z;
  inode_bitmap_block : Z;
  data_bitmap_block : Z;
  inode_table_start : Z;
  inode_table_blocks : Z;
  data_block_start : Z;
}.

(** Little-endian fields. *)
Definition le (bytes v : Z) : list Z := Z_to_little_endian bytes 8 v.
Definition of_le (bs : list Z) : Z := little_endian_to_Z 8 bs.

(** [bs[off..off + n]]. *)
Definition slice (off n : Z) (bs : list Z) : list Z :=
  take (Z.to_nat n) (drop (Z.to_nat off) bs).

(** [dst[off..off + src.len()].copy_from_slice(src)]. *)
Definition splice (off : Z) (src dst : list Z) : list Z :=
  take (Z.to_nat off) dst ++ src ++ drop (Z.to_nat off + length src) dst.

Definition field (off n : Z) (bs : list Z) : Z := of_le (slice off n bs).

(** [inner as *const INodeInner as *const u8]. *)
Definition encode_inode (i : INodeInner) : list Z :=
  le 2 (ty i) ++ le 2 (link_count i) ++ le 4 (dev i) ++ le 4 (sz i) ++
  (direct_blocks i ≫= le 4) ++ le 4 (indirect_block i).

(** [ptr::read_unaligned(p as *const INodeInner)]. *)
Definition decode_inode (bs : list Z) : INodeInner :=
  mkInner (field 0 2 bs) (field 2 2 bs) (field 4 4 bs) (field 8 4 bs)
    ((λ k, field (12 + 4 * k) 4 bs) <$> seqZ 0 12) (field 60 4 bs).

Definition encode_dirent (d : DirEnt) : list Z :=
  le 4 (d_inum d) ++ le 1 (name_len d) ++ name d.

Definition decode_dirent (bs : list Z) : DirEnt :=
  mkDirEnt (field 0 4 bs) (field 4 1 bs) (slice 5 27 bs).

Definition decode_superblock (bs : list Z) : SuperBlock :=
  mkSuper (field 0 4 bs) (field 4 4 bs) (field 8 4 bs) (field 12 4 bs)
    (field 16 4 bs) (field 20 4 bs) (field 24 4 bs) (field 28 4 bs).

(** ** State *)

(** [Arc<INode<BD>>]: the number, and where the shared payload is. *)
Record INode := mkINode { inum : Z; inner : Z }.

Record Vsfs (D : Type) := mkVsfs {
  device : D;
  superblock : SuperBlock;
  inode_cache : gmap Z INode;
  heap : gmap Z INodeInner;
  next_loc : Z;
}.
Arguments mkVsfs {D} _ _ _ _ _.
Arguments device {D} v.
Arguments superblock {D} v.
Arguments inode_cache {D} v.
Arguments heap {D} v.
Arguments next_loc {D} v.

Section vsfs.
Context {D : Type} `{BD : BlockDevice D}.
Implicit Types (v : Vsfs D) (node : INode).

Definition set_device (d : D) v : Vsfs D :=
  mkVsfs d (superblock v) (inode_cache v) (heap v) (next_loc v).
Definition set_cache (c : gmap Z INode) v : Vsfs D :=
  mkVsfs (device v) (superblock v) c (heap v) (next_loc v).
Definition set_inner (l : Z) (i : INodeInner) v : Vsfs D :=
  mkVsfs (device v) (superblock v) (inode_cache v) (<[l := i]> (heap v)) (next_loc v).

(** A device operation inside the filesystem. *)
Definition io {A} (m : M D VfsError A) : M (Vsfs D) VfsError A := zoom device set_device m.

(** [Arc::new(RwLock::new(i))]. *)
Definition alloc_inner (i : INodeInner) : M (Vsfs D) VfsError Z := fun v =>
  (Ok (next_loc v),
   mkVsfs (device v) (superblock v) (inode_cache v) (<[next_loc v := i]> (heap v))
     (next_loc v + 1)).

(** The payload behind [inner.read_lock()]; a handle always has one. *)
Definition get_inner (l : Z) : M (Vsfs D) VfsError INodeInner :=
  let! h := gets heap in lift (unwrap (h !! l)).

(** ** Block lookup *)

(** [INode::data_block]. *)
Definition data_block (i : INodeInner) (logical_block : Z) : M D VfsError Z :=
  let! block :=
    if logical_block <? DIRECT_BLOCKS then
      lift (unwrap (direct_blocks i !! Z.to_nat logical_block))
    else
      let indirect_index := logical_block - DIRECT_BLOCKS in
      if (INDIRECT_BLOCK_ENTRIES <=? indirect_index) || (indirect_block i =? 0)
      then fail Fs
      else
        let pointer_offset := indirect_index * 4 in
        let sector_in_block := pointer_offset / SECTOR_SIZE in
        let sector_offset := pointer_offset mod SECTOR_SIZE in
        let sector := indirect_block i * SECTORS_PER_BLOCK + sector_in_block in
        let! sector_buf := read_sector sector in
        ret (of_le (slice sector_offset 4 sector_buf))
  in
  if block =? 0 then fail Fs else ret block.

(** The block for [logical_block], from the last lookup if it was the same. *)
Definition mapped_data_block (i : INodeInner) (mapped : option (Z * Z)) (logical_block : Z)
    : M D VfsError (Z + VfsError) :=
  match mapped with
  | Some (mapped_logical_block, block) =>
      if mapped_logical_block =? logical_block then ret (inl block)
      else attempt (data_block i logical_block)
  | None => attempt (data_block i logical_block)
  end.

(** ** Reading and writing a file *)

(** [INode::read]'s loop.  [acc] is what is in the buffer so far; every round
    copies at least one byte. *)
Fixpoint read_loop (fuel : nat) (i : INodeInner) (offset remaining : Z)
    (mapped : option (Z * Z)) (acc : list Z) : M D VfsError (list Z) :=
  if remaining <=? 0 then ret acc else
  match fuel with
  | O => diverge
  | S fuel' =>
      let logical_block := offset / BLOCK_SIZE in
      let! r := mapped_data_block i mapped logical_block in
      match r with
      | inr err => if (0 <? length acc)%nat then ret acc else fail err
      | inl block =>
          let block_offset := offset mod BLOCK_SIZE in
          let sector_in_block := block_offset / SECTOR_SIZE in
          let sector_offset := block_offset mod SECTOR_SIZE in
          let sector := block * SECTORS_PER_BLOCK + sector_in_block in
          let! sector_buf := read_sector sector in
          let readable_from_sector := SECTOR_SIZE - sector_offset in
          let to_copy := Z.min readable_from_sector remaining in
          read_loop fuel' i (offset + to_copy) (remaining - to_copy)
            (Some (logical_block, block)) (acc ++ slice sector_offset to_copy sector_buf)
      end
  end.

(** The body of [INode::read] below the lock. *)
Definition read_inner (i : INodeInner) (offset len : Z) : M D VfsError (list Z) :=
  if negb (ty i =? TFile) then fail Fs else
  let file_size := sz i in
  if (file_size <=? offset) || (len =? 0) then ret [] else
  let remaining := Z.min len (file_size - offset) in
  read_loop (Z.to_nat remaining) i offset remaining None [].

(** [INode::write]'s loop; [sector_buf] is the buffer kept across rounds. *)
Fixpoint write_loop (fuel : nat) (i : INodeInner) (buf : list Z) (offset remaining : Z)
    (mapped : option (Z * Z)) (sector_buf : list Z) (total_written : Z) : M D VfsError Z :=
  if remaining <=? 0 then ret total_written else
  match fuel with
  | O => diverge
  | S fuel' =>
      let logical_block := offset / BLOCK_SIZE in
      let! r := mapped_data_block i mapped logical_block in
      match r with
      | inr err => if 0 <? total_written then ret total_written else fail err
      | inl block =>
          let block_offset := offset mod BLOCK_SIZE in
          let sector_in_block := block_offset / SECTOR_SIZE in
          let sector_offset := block_offset mod SECTOR_SIZE in
          let sector := block * SECTORS_PER_BLOCK + sector_in_block in
          let writable_to_sector := SECTOR_SIZE - sector_offset in
          let to_copy := Z.min writable_to_sector remaining in
          let! sector_buf :=
            if negb (to_copy =? SECTOR_SIZE) then read_sector sector else ret sector_buf in
          let sector_buf := splice sector_offset (slice total_written to_copy buf) sector_buf in
          write_sector sector sector_buf ;;;
          write_loop fuel' i buf (offset + to_copy) (remaining - to_copy)
            (Some (logical_block, block)) sector_buf (total_written + to_copy)
      end
  end.

Definition write_inner (i : INodeInner) (offset : Z) (buf : list Z) : M D VfsError Z :=
  if negb (ty i =? TFile) then fail Fs else
  let file_size := sz i in
  if (file_size <=? offset) || (length buf =? 0)%nat then ret 0 else
  let remaining := Z.min (Z.of_nat (length buf)) (file_size - offset) in
  write_loop (Z.to_nat remaining) i buf offset remaining None (replicate 512 0) 0.

(** [VNode::read], [VNode::write] and [VNode::sz] for [INode]. *)
Definition read node (offset len : Z) : M (Vsfs D) VfsError (list Z) :=
  let! i := get_inner (inner node) in io (read_inner i offset len).
Definition write node (offset : Z) (buf : list Z) : M (Vsfs D) VfsError Z :=
  let! i := get_inner (inner node) in io (write_inner i offset buf).
Definition inode_sz node : M (Vsfs D) VfsError Z :=
  let! i := get_inner (inner node) in ret (sz i).

(** ** The inode table *)

(** [Vsfs::read_inode_from_block]. *)
Definition read_inode_from_block (table_start inum : Z) : M D VfsError INodeInner :=
  let inode_byte_offset := table_start * 4096 + inum * INODE_BYTES in
  let inode_sector := inode_byte_offset / 512 in
  let inode_offset := inode_byte_offset mod 512 in
  let! buf := read_sector inode_sector in
  ret (decode_inode (drop (Z.to_nat inode_offset) buf)).

(** [Vsfs::write_inode_to_block]. *)
Definition write_inode_to_block (table_start inum : Z) (i : INodeInner) : M D VfsError unit :=
  let inode_byte_offset := table_start * BLOCK_SIZE + inum * INODE_BYTES in
  let inode_sector := inode_byte_offset / SECTOR_SIZE in
  let inode_offset := inode_byte_offset mod SECTOR_SIZE in
  let bytes := encode_inode i in
  if SECTOR_SIZE <? inode_offset + Z.of_nat (length bytes) then fail Fs else
  let! buf := read_sector inode_sector in
  write_sector inode_sector (splice inode_offset bytes buf).

(** [Vsfs::read_inode].  The cache is checked again after the disk read; with
    one thread the second check finds what the first found. *)
Definition read_inode (inum : Z) : M (Vsfs D) VfsError INode :=
  let! sb := gets superblock in
  let! cache := gets inode_cache in
  match cache !! inum with
  | Some node => ret node
  | None =>
      let! i := io (read_inode_from_block (inode_table_start sb) inum) in
      let! l := alloc_inner i in
      let! cache := gets inode_cache in
      match cache !! inum with
      | None =>
          modify (λ v, set_cache (<[inum := mkINode inum l]> (inode_cache v)) v) ;;;
          ret (mkINode inum l)
      | Some node => ret node
      end
  end.

(** ** Directories *)

(** The loop of [lookup_path_inner] over the entries' indices. *)
Fixpoint lookup_entries (i : INodeInner) (path : list Z) (idxs : list Z)
    : M (Vsfs D) VfsError INode :=
  match idxs with
  | [] => fail VfsNotFound
  | dirent_idx :: idxs' =>
      let dirent_offset := dirent_idx * DIRENT_BYTES in
      let block_idx := dirent_offset / BLOCK_SIZE in
      let block_offset := dirent_offset mod BLOCK_SIZE in
      let! block := io (data_block i block_idx) in
      let sector := block * SECTORS_PER_BLOCK + block_offset / SECTOR_SIZE in
      let! buf := io (read_sector sector) in
      let dirent := decode_dirent (drop (Z.to_nat (block_offset mod SECTOR_SIZE)) buf) in
      if Z.of_nat (length (name dirent)) <? name_len dirent then fail Fs else
      if decide (take (Z.to_nat (name_len dirent)) (name dirent) = path)
      then read_inode (d_inum dirent)
      else lookup_entries i path idxs'
  end.

(** [INode::lookup_path_inner]. *)
Definition lookup_path_inner (i : INodeInner) (path : list Z) : M (Vsfs D) VfsError INode :=
  if negb (ty i =? TDirectory) then fail Fs else
  if negb (sz i mod DIRENT_BYTES =? 0) then fail Fs else
  lookup_entries i path (seqZ 0 (sz i / DIRENT_BYTES)).

(** [Vsfs::write_dirent]. *)
Definition write_dirent (block block_offset : Z) (dirent : DirEnt) : M D VfsError unit :=
  let sector_idx := block_offset / SECTOR_SIZE in
  let sector_offset := block_offset mod SECTOR_SIZE in
  let bytes := encode_dirent dirent in
  if (SECTORS_PER_BLOCK <=? sector_idx) ||
     (SECTOR_SIZE <? sector_offset + Z.of_nat (length bytes))
  then fail Fs
  else
    let sector := block * SECTORS_PER_BLOCK + sector_idx in
    let! buf := read_sector sector in
    write_sector sector (splice sector_offset bytes buf).

(** [path.split(|b| *b == b'/')]. *)
Fixpoint split_slash (path : list Z) : list (list Z) :=
  match path with
  | [] => [[]]
  | b :: path' =>
      if b =? 47 then [] :: split_slash path'
      else match split_slash path' with
           | c :: cs => (b :: c) :: cs
           | [] => [[b]]
           end
  end.

(** [.filter(|p| !p.is_empty())]. *)
Definition components (path : list Z) : list (list Z) :=
  filter (λ p, p ≠ []) (split_slash path).

(** The loop of [INode::open]. *)
Fixpoint open_loop (current : INode) (comps : list (list Z)) : M (Vsfs D) VfsError INode :=
  match comps with
  | [] => ret current
  | path :: comps' =>
      let! i := get_inner (inner current) in
      if ty i =? TFile then fail Fs else
      let! next_inode := lookup_path_inner i path in
      open_loop (if negb (inum current =? inum next_inode) then next_inode else current) comps'
  end.

(** [INode::open]: the node of the new [File], whose offset is 0. *)
Definition open node (path : list Z) : M (Vsfs D) VfsError INode :=
  open_loop node (components path).

(** ** Bitmaps *)

(** The first clear bit of [buf] among [bits]. *)
Fixpoint find_clear (buf : list Z) (bits : list Z) : option Z :=
  match bits with
  | [] => None
  | local_bit :: bits' =>
      if Z.land (buf !!! Z.to_nat (local_bit / 8)) (Z.shiftl 1 (local_bit mod 8)) =? 0
      then Some local_bit else find_clear buf bits'
  end.

(** [buf[bit / 8] |= 1 << (bit % 8)] and [buf[bit / 8] &= !(1 << (bit % 8))]. *)
Definition set_bit (buf : list Z) (bit : Z) : list Z :=
  <[Z.to_nat (bit / 8) := Z.lor (buf !!! Z.to_nat (bit / 8)) (Z.shiftl 1 (bit mod 8))]> buf.
Definition clear_bit (buf : list Z) (bit : Z) : list Z :=
  <[Z.to_nat (bit / 8) :=
      Z.land (buf !!! Z.to_nat (bit / 8)) (not_w 8 (Z.shiftl 1 (bit mod 8)))]> buf.

(** The loop of [allocate_bitmap_bit] over the bitmap's sectors. *)
Fixpoint allocate_in_sectors (bitmap_block start_bit end_bit : Z) (sectors : list Z)
    : M D VfsError Z :=
  match sectors with
  | [] => fail Fs
  | sector_offset :: sectors' =>
      let! buf := read_sector (bitmap_block * SECTORS_PER_BLOCK + sector_offset) in
      let sector_start_bit := sector_offset * (SECTOR_SIZE * 8) in
      let local_start := saturating_sub start_bit sector_start_bit in
      let local_end := Z.min (end_bit - sector_start_bit) (SECTOR_SIZE * 8) in
      match find_clear buf (seqZ local_start (local_end - local_start)) with
      | Some local_bit =>
          write_sector (bitmap_block * SECTORS_PER_BLOCK + sector_offset)
            (set_bit buf local_bit) ;;;
          ret (sector_start_bit + local_bit)
      | None => allocate_in_sectors bitmap_block start_bit end_bit sectors'
      end
  end.

(** [Vsfs::allocate_bitmap_bit]. *)
Definition allocate_bitmap_bit (bitmap_block start_bit end_bit : Z) : M D VfsError Z :=
  let bits_per_sector := SECTOR_SIZE * 8 in
  let start_sector := start_bit / bits_per_sector in
  let end_sector := (end_bit + bits_per_sector - 1) / bits_per_sector in
  if SECTORS_PER_BLOCK <? end_sector then fail Fs else
  allocate_in_sectors bitmap_block start_bit end_bit
    (seqZ start_sector (end_sector - start_sector)).

(** [Vsfs::free_bitmap_bit]. *)
Definition free_bitmap_bit (bitmap_block bit : Z) : M D VfsError unit :=
  let sector_offset := bit / (SECTOR_SIZE * 8) in
  if SECTORS_PER_BLOCK <=? sector_offset then fail Fs else
  let local_bit := bit mod (SECTOR_SIZE * 8) in
  let sector := bitmap_block * SECTORS_PER_BLOCK + sector_offset in
  let! buf := read_sector sector in
  if Z.land (buf !!! Z.to_nat (local_bit / 8)) (Z.shiftl 1 (bit mod 8)) =? 0 then fail Fs else
  write_sector sector (clear_bit buf local_bit).

(** [Vsfs::allocate_inode], [allocate_data_block], [free_inode] and
    [free_data_block]; the bitmap locks are held for the one call. *)
Definition allocate_inode : M (Vsfs D) VfsError Z :=
  let! sb := gets superblock in
  io (allocate_bitmap_bit (inode_bitmap_block sb) 1 (ninodes sb)).

Definition allocate_data_block : M (Vsfs D) VfsError Z :=
  let! sb := gets superblock in
  let! n := lift (sub_ov (nblocks sb) (data_block_start sb)) in
  let! bit := io (allocate_bitmap_bit (data_bitmap_block sb) 0 n) in
  lift (add_ov 32 (data_block_start sb) bit).

Definition free_inode (inum : Z) : M (Vsfs D) VfsError unit :=
  let! sb := gets superblock in
  io (free_bitmap_bit (inode_bitmap_block sb) inum).

Definition free_data_block (block : Z) : M (Vsfs D) VfsError unit :=
  let! sb := gets superblock in
  let! bit := lift (ok_or (checked_sub block (data_block_start sb)) Fs) in
  io (free_bitmap_bit (data_bitmap_block sb) bit).

(** [Vsfs::free_create_allocations]: errors are ignored. *)
Definition free_create_allocations (inum data_block : option Z) : M (Vsfs D) VfsError unit :=
  match inum with
  | Some inum => let! _ := attempt (E' := VfsError) (free_inode inum) in ret tt
  | None => ret tt
  end ;;;
  match data_block with
  | Some block => let! _ := attempt (E' := VfsError) (free_data_block block) in ret tt
  | None => ret tt
  end.

(** ** Creating a file *)

(** [[0; 27]] with the name copied to its front. *)
Definition padded_name (nm : list Z) : list Z := nm ++ replicate (27 - length nm) 0.

Definition with_sz (n : Z) (i : INodeInner) : INodeInner :=
  mkInner (ty i) (link_count i) (dev i) n (direct_blocks i) (indirect_block i).
Definition with_direct_block (k b : Z) (i : INodeInner) : INodeInner :=
  mkInner (ty i) (link_count i) (dev i) (sz i) (<[Z.to_nat k := b]> (direct_blocks i))
    (indirect_block i).

Definition empty_file : INodeInner := mkInner TFile 1 0 0 (replicate 12 0) 0.

(** The block of the new entry: the parent's, or a new one recorded in it. *)
Definition entry_block (block_idx : Z) (updated_parent : INodeInner)
    : M (Vsfs D) VfsError (INodeInner * option Z) :=
  let! old := lift (unwrap (direct_blocks updated_parent !! Z.to_nat block_idx)) in
  if old =? 0 then
    let! block := allocate_data_block in
    ret (with_direct_block block_idx block updated_parent, Some block)
  else ret (updated_parent, None).

(** [create_file] after the parent's update failed: put the old entry and the
    old parent back, and free what was reserved only if that worked. *)
Definition undo_create (parent_inum inum block block_offset : Z) (original_parent : INodeInner)
    (allocated : option Z) : M (Vsfs D) VfsError unit :=
  let! sb := gets superblock in
  let! _ := attempt (E' := VfsError)
    (io (write_dirent block block_offset (mkDirEnt 0 0 (replicate 27 0)))) in
  let! r := attempt (E' := VfsError)
    (io (write_inode_to_block (inode_table_start sb) parent_inum original_parent)) in
  match r with
  | inl _ => free_create_allocations (Some inum) allocated
  | inr _ => ret tt
  end.

(** [create_file] once a block and an inode are reserved: the new inode, the
    entry and the parent are written in this order, then the parent's payload
    and the cache are updated. *)
Definition install_file (parent : INode) (nm : list Z) (new_inum block_idx block_offset : Z)
    (original_parent updated_parent : INodeInner) (allocated : option Z)
    : M (Vsfs D) VfsError INode :=
  let! sb := gets superblock in
  let! r := attempt (io (write_inode_to_block (inode_table_start sb) new_inum empty_file)) in
  match r with
  | inr err => free_create_allocations (Some new_inum) allocated ;;; fail err
  | inl _ =>
    let dirent := mkDirEnt (new_inum mod 2 ^ 32) (Z.of_nat (length nm)) (padded_name nm) in
    let! block := lift (unwrap (direct_blocks updated_parent !! Z.to_nat block_idx)) in
    let! r := attempt (io (write_dirent block block_offset dirent)) in
    match r with
    | inr err => free_create_allocations (Some new_inum) allocated ;;; fail err
    | inl _ =>
      let! r := attempt
        (io (write_inode_to_block (inode_table_start sb) (inum parent) updated_parent)) in
      match r with
      | inr err =>
        undo_create (inum parent) new_inum block block_offset original_parent allocated ;;;
        fail err
      | inl _ =>
        modify (set_inner (inner parent) updated_parent) ;;;
        let! l := alloc_inner empty_file in
        let node := mkINode new_inum l in
        modify (λ v, set_cache (<[new_inum := node]> (inode_cache v)) v) ;;;
        ret node
      end
    end
  end.

(** [Vsfs::create_file]. *)
Definition create_file (parent : INode) (nm : list Z) : M (Vsfs D) VfsError INode :=
  if (length nm =? 0)%nat || (27 <? length nm)%nat then fail Fs else
  let! parent_inner := get_inner (inner parent) in
  if negb (ty parent_inner =? TDirectory) || negb (sz parent_inner mod DIRENT_BYTES =? 0)
  then fail Fs else
  let! found := attempt (lookup_path_inner parent_inner nm) in
  match found with
  | inl _ => fail Fs
  | inr VfsNotFound =>
    let original_parent := parent_inner in
    let! new_sz := lift (ok_or (checked_add 32 (sz original_parent) DIRENT_BYTES) Fs) in
    let updated_parent := with_sz new_sz original_parent in
    let dirent_offset := sz original_parent in
    let block_idx := dirent_offset / BLOCK_SIZE in
    let block_offset := dirent_offset mod BLOCK_SIZE in
    if Z.of_nat (length (direct_blocks updated_parent)) <=? block_idx then fail Fs else
    let! (updated_parent, allocated) := entry_block block_idx updated_parent in
    let! r := attempt allocate_inode in
    match r with
    | inr err => free_create_allocations None allocated ;;; fail err
    | inl new_inum =>
      install_file parent nm new_inum block_idx block_offset original_parent updated_parent
        allocated
    end
  | inr err => fail err
  end.

(** The loop of [INode::create]: the node reached, the last error, and the name
    to create. *)
Fixpoint create_loop (current : INode) (err : option VfsError) (leaf : option (list Z))
    (comps : list (list Z)) : M (Vsfs D) VfsError (INode * option VfsError * option (list Z)) :=
  match comps with
  | [] => ret (current, err, leaf)
  | path :: comps' =>
      match err with
      | Some err => fail err
      | None =>
        let is_leaf := match comps' with [] => true | _ => false end in
        let! i := get_inner (inner current) in
        if ty i =? TFile then fail Fs else
        let! r := attempt (lookup_path_inner i path) in
        match r with
        | inl next_inode =>
            create_loop (if negb (inum current =? inum next_inode) then next_inode else current)
              None leaf comps'
        | inr e =>
            create_loop current (Some e)
              (if decide (e = VfsNotFound) then if is_leaf then Some path else leaf else leaf)
              comps'
        end
      end
  end.

(** [INode::create]. *)
Definition create node (path : list Z) : M (Vsfs D) VfsError INode :=
  let! (current, err, leaf) := create_loop node None None (components path) in
  match err with
  | Some VfsNotFound =>
      let! leaf := lift (ok_or leaf Fs) in
      create_file current leaf
  | _ => fail Fs
  end.

(** ** Mounting *)

(** [initialize]: the superblock is read, checked, and the root inode cached. *)
Definition initialize (d : D) : outcome VfsError (Vsfs D) * D :=
  match read_sector 0 d with
  | (Ok buf, d') =>
      let sb := decode_superblock buf in
      if negb (magic sb =? MAGIC) then (Err Fs, d')
      else
        match read_inode 1 (mkVsfs d' sb ∅ ∅ 0) with
        | (Ok _, v) => (Ok v, device v)
        | (Err e, v) => (Err e, device v)
        | (Panic, v) => (Panic, device v)
        | (Diverge, v) => (Diverge, device v)
        end
  | (Err e, d') => (Err e, d')
  | (Panic, d') => (Panic, d')
  | (Diverge, d') => (Diverge, d')
  end.

(** [Filesystem::root]. *)
Definition root : M (Vsfs D) VfsError INode :=
  let! cache := gets inode_cache in lift (unwrap (cache !! 1)).
End vsfs.

#[export] Instance vsfs_vnode {D} `{BlockDevice D} : VNode (Vsfs D) INode := {|
  vn_open := open; vn_create := create; vn_read := read; vn_write := write; vn_sz := inode_sz;
|}.

(** ** The block device of the tests

    [tests::MemoryBlockDevice]: the disk is a vector of bytes.  A [u8] is a [Z]
    everywhere else. *)

Definition u8 (b : Byte.byte) : Z := Z.of_N (Byte.to_N b).
Definition to_byte (x : Z) : Byte.byte := default Byte.x00 (Byte.of_N (Z.to_N x)).

(** [start..end] of a sector, if it is in the disk: [disk.get(start..end)]. *)
Definition sector_range (n : Z) (disk : list Byte.byte) : option Z :=
  start ← checked_mul 64 n SECTOR_SIZE;
  end_ ← checked_add 64 start SECTOR_SIZE;
  if (0 <=? start) && (end_ <=? Z.of_nat (length disk)) then Some start else None.

Definition disk_read (n : Z) : M (list Byte.byte) VfsError (list Z) :=
  let! disk := gets id in
  let! start := lift (ok_or (sector_range n disk) DeviceIO) in
  ret (u8 <$> take 512 (drop (Z.to_nat start) disk)).

Definition disk_write (n : Z) (buf : list Z) : M (list Byte.byte) VfsError unit :=
  let! disk := gets id in
  let! start := lift (ok_or (sector_range n disk) DeviceIO) in
  modify (λ disk, take (Z.to_nat start) disk ++ (to_byte <$> buf) ++
    drop (Z.to_nat start + length buf) disk).

#[export] Instance memory_device : BlockDevice (list Byte.byte) :=
  {| read_sector := disk_read; write_sector := disk_write |}.
