(* ===== verification/VsfsIO.v ===== *)
(** * VSFS: layout and file contents

    The layout of the structures on disk, and reading and writing the bytes of
    a file, of [vsfs/src/lib.rs].  The block device is any that keeps the
    contract [BlockDeviceOk]. *)

From S2P Require Import Prelude Errors Vfs Vsfs.

(** ** Bytes *)

Lemma le_length n v : 0 ≤ n → length (le n v) = Z.to_nat n.
Proof. intros Hn. pose proof (length_Z_to_little_endian n 8 v Hn). unfold le. lia. Qed.

Lemma le_bytes n v : 0 ≤ n → Forall is_u8 (le n v).
Proof. intros Hn. by apply Z_to_little_endian_bound. Qed.

Lemma of_le_le n v : 0 ≤ n → 0 ≤ v < 2 ^ (8 * n) → of_le (le n v) = v.
Proof.
  intros Hn Hv. unfold of_le, le. rewrite little_endian_to_Z_to_little_endian by done.
  rewrite (Z.mul_comm n 8). by apply Z.mod_small.
Qed.

Lemma le_of_le bs : Forall is_u8 bs → le (Z.of_nat (length bs)) (of_le bs) = bs.
Proof. intros Hb. apply Z_to_little_endian_to_Z; [done..|]. exact Hb. Qed.

Lemma of_le_range bs n : Forall is_u8 bs → Z.of_nat (length bs) = n →
  0 ≤ of_le bs < 2 ^ (n * 8).
Proof. intros Hb <-. by apply little_endian_to_Z_bound. Qed.

Lemma slice_app pre x post off n :
  Z.of_nat (length pre) = off → Z.of_nat (length x) = n → slice off n (pre ++ x ++ post) = x.
Proof.
  intros Ho Hn. unfold slice. rewrite drop_app_length', take_app_length'; [done|lia..].
Qed.

Lemma field_app pre v post off n : 0 ≤ n → Z.of_nat (length pre) = off → 0 ≤ v < 2 ^ (8 * n) →
  field off n (pre ++ le n v ++ post) = v.
Proof.
  intros Hn Ho Hv. unfold field. rewrite slice_app; [by apply of_le_le|done|].
  rewrite le_length; lia.
Qed.

Lemma slice_length off n bs : 0 ≤ off → 0 ≤ n → off + n ≤ Z.of_nat (length bs) →
  length (slice off n bs) = Z.to_nat n.
Proof. intros. unfold slice. rewrite length_take, length_drop. lia. Qed.

Lemma slice_lookup off n bs k : 0 ≤ off → 0 ≤ k < n →
  slice off n bs !! Z.to_nat k = bs !! Z.to_nat (off + k).
Proof.
  intros. unfold slice. rewrite lookup_take_lt, lookup_drop by lia. f_equal. lia.
Qed.

Lemma splice_length off src dst : 0 ≤ off → off + Z.of_nat (length src) ≤ Z.of_nat (length dst) →
  length (splice off src dst) = length dst.
Proof. intros. unfold splice. rewrite !length_app, length_take, length_drop. lia. Qed.

Lemma splice_lookup off src dst k : 0 ≤ off → 0 ≤ k →
  off + Z.of_nat (length src) ≤ Z.of_nat (length dst) →
  splice off src dst !! Z.to_nat k =
    if (off <=? k) && (k <? off + Z.of_nat (length src)) then src !! Z.to_nat (k - off)
    else dst !! Z.to_nat k.
Proof.
  intros Ho Hk Hle. unfold splice.
  destruct (Z.leb_spec off k); simpl.
  - rewrite lookup_app_r by (rewrite length_take; lia). rewrite length_take.
    destruct (Z.ltb_spec k (off + Z.of_nat (length src))).
    + rewrite lookup_app_l by lia. f_equal. lia.
    + rewrite lookup_app_r, lookup_drop by lia. f_equal. lia.
  - rewrite lookup_app_l by (rewrite length_take; lia). rewrite lookup_take_lt; [done|lia].
Qed.

Lemma splice_bytes off src dst : Forall is_u8 src → Forall is_u8 dst → Forall is_u8 (splice off src dst).
Proof.
  intros Hs Hd. unfold splice. rewrite !Forall_app. split_and!; [|done|].
  - by apply Forall_take.
  - by apply Forall_drop.
Qed.

Lemma slice_bytes off n bs : Forall is_u8 bs → Forall is_u8 (slice off n bs).
Proof. intros Hb. by apply Forall_take, Forall_drop. Qed.

(** ** The layout of inodes and directory entries *)

(** The values that the fields of the structures can hold. *)
Record inode_wf (i : INodeInner) : Prop := {
  iw_ty : 0 ≤ ty i < 2 ^ 16;
  iw_link : 0 ≤ link_count i < 2 ^ 16;
  iw_dev : is_u32 (dev i);
  iw_sz : is_u32 (sz i);
  iw_direct : length (direct_blocks i) = 12%nat ∧ Forall is_u32 (direct_blocks i);
  iw_indirect : is_u32 (indirect_block i);
}.

Record dirent_wf (d : DirEnt) : Prop := {
  dw_inum : is_u32 (d_inum d);
  dw_len : is_u8 (name_len d);
  dw_name : length (name d) = 27%nat ∧ Forall is_u8 (name d);
}.

Lemma le4_bind_length l : length (l ≫= le 4) = (4 * length l)%nat.
Proof.
  induction l as [|x l IH]; [done|]. rewrite bind_cons, length_app, IH, le_length by done.
  simpl. lia.
Qed.

Lemma encode_inode_length i : inode_wf i → length (encode_inode i) = 64%nat.
Proof.
  intros [_ _ _ _ [Hl _] _]. unfold encode_inode.
  rewrite !length_app, !le_length, le4_bind_length, Hl by done. done.
Qed.

Lemma encode_inode_bytes i : Forall is_u8 (encode_inode i).
Proof.
  unfold encode_inode. rewrite !Forall_app. split_and!; try by apply le_bytes.
  apply Forall_forall. intros x (b & Hx & _)%list_elem_of_bind.
  pose proof (le_bytes 4 b ltac:(done)) as Hb. rewrite Forall_forall in Hb. auto.
Qed.

(** The direct block pointers, at 12, 16, ... *)
Lemma fields_bind pre l post k :
  Z.of_nat (length pre) = 12 → Forall is_u32 l → 0 ≤ k < Z.of_nat (length l) →
  field (12 + 4 * k) 4 (pre ++ (l ≫= le 4) ++ post) = l !!! Z.to_nat k.
Proof.
  intros Hp Hl Hk.
  rewrite <-(take_drop_middle l (Z.to_nat k) (l !!! Z.to_nat k)) at 1
    by (apply list_lookup_lookup_total_lt; lia).
  rewrite bind_app, bind_cons, <-!app_assoc, (app_assoc pre).
  apply field_app; [done| |].
  - rewrite length_app, le4_bind_length, length_take. lia.
  - rewrite Forall_lookup_total in Hl. apply (Hl (Z.to_nat k)). lia.
Qed.

Lemma decode_encode_inode_app i post : inode_wf i → decode_inode (encode_inode i ++ post) = i.
Proof.
  intros [Ht Hk Hd Hs [Hl Hb] Hi]. destruct i as [t k d s bl ind].
  cbn [ty link_count dev sz direct_blocks indirect_block] in *.
  unfold decode_inode, encode_inode.
  cbn [ty link_count dev sz direct_blocks indirect_block].
  set (bs := (le 2 t ++ _) ++ post).
  assert (E1 : bs = le 2 t ++ le 2 k ++ (le 4 d ++ le 4 s ++ (bl ≫= le 4) ++ le 4 ind ++ post))
    by (unfold bs; by rewrite <-!app_assoc).
  assert (E2 : bs = (le 2 t ++ le 2 k) ++ le 4 d ++ (le 4 s ++ (bl ≫= le 4) ++ le 4 ind ++ post))
    by (unfold bs; by rewrite <-!app_assoc).
  assert (E3 : bs = (le 2 t ++ le 2 k ++ le 4 d) ++ le 4 s ++ ((bl ≫= le 4) ++ le 4 ind ++ post))
    by (unfold bs; by rewrite <-!app_assoc).
  assert (E4 : bs = (le 2 t ++ le 2 k ++ le 4 d ++ le 4 s) ++ (bl ≫= le 4) ++ (le 4 ind ++ post))
    by (unfold bs; by rewrite <-!app_assoc).
  assert (E5 : bs = (le 2 t ++ le 2 k ++ le 4 d ++ le 4 s ++ (bl ≫= le 4)) ++ le 4 ind ++ post)
    by (unfold bs; by rewrite <-!app_assoc).
  f_equal.
  - rewrite E1. by apply (field_app []).
  - rewrite E1. by apply field_app.
  - rewrite E2. by apply field_app.
  - rewrite E3. by apply field_app.
  - rewrite E4. apply list_eq. intros j. rewrite list_lookup_fmap.
    destruct (decide (j < 12)%nat).
    + rewrite lookup_seqZ_lt by lia. cbn [fmap option_fmap option_map].
      rewrite fields_bind by (done || lia).
      rewrite list_lookup_lookup_total_lt by lia. do 2 f_equal. lia.
    + rewrite lookup_seqZ_ge, (lookup_ge_None_2 bl) by lia. done.
  - rewrite E5. apply field_app; [done| |done].
    rewrite !length_app, !le_length, le4_bind_length, Hl by done. done.
Qed.

Lemma encode_dirent_length d : dirent_wf d → length (encode_dirent d) = 32%nat.
Proof.
  intros [_ _ [Hl _]]. unfold encode_dirent. by rewrite !length_app, !le_length, Hl.
Qed.

Lemma encode_dirent_bytes d : dirent_wf d → Forall is_u8 (encode_dirent d).
Proof.
  intros [_ _ [_ Hb]]. unfold encode_dirent. rewrite !Forall_app.
  split_and!; [by apply le_bytes..|done].
Qed.

Lemma decode_encode_dirent_app d post : dirent_wf d → decode_dirent (encode_dirent d ++ post) = d.
Proof.
  intros [Hi Hl [Hn Hb]]. destruct d as [i l n]. cbn [d_inum name_len name] in *.
  unfold decode_dirent, encode_dirent. cbn [d_inum name_len name].
  set (bs := (le 4 i ++ _) ++ post).
  assert (E1 : bs = le 4 i ++ le 1 l ++ (n ++ post)) by (unfold bs; by rewrite <-!app_assoc).
  assert (E2 : bs = (le 4 i ++ le 1 l) ++ n ++ post) by (unfold bs; by rewrite <-!app_assoc).
  f_equal.
  - rewrite E1. by apply (field_app []).
  - rewrite E1. by apply field_app.
  - rewrite E2. apply slice_app; [done|lia].
Qed.

(** The 64 bytes of an inode and the 32 bytes of a directory entry
    determine it: what [write_inode_to_block] and [write_dirent] store is what
    reading the same bytes gives back, for every value the fields can hold, and
    whatever follows on the disk. *)
Theorem layout_roundtrip i d post : inode_wf i → dirent_wf d →
  length (encode_inode i) = 64%nat ∧ decode_inode (encode_inode i ++ post) = i ∧
  length (encode_dirent d) = 32%nat ∧ decode_dirent (encode_dirent d ++ post) = d.
Proof.
  intros Hi Hd. split_and!.
  - by apply encode_inode_length.
  - by apply decode_encode_inode_app.
  - by apply encode_dirent_length.
  - by apply decode_encode_dirent_app.
Qed.

Lemma empty_file_wf : inode_wf empty_file.
Proof. by split; repeat constructor. Qed.

Lemma layout_roundtrip_witness :
  decode_inode (encode_inode empty_file ++ [7]) = empty_file ∧
  decode_dirent (encode_dirent (mkDirEnt 2 1 (padded_name [97])) ++ [7]) =
    mkDirEnt 2 1 (padded_name [97]).
Proof.
  destruct (layout_roundtrip empty_file (mkDirEnt 2 1 (padded_name [97])) [7])
    as (_ & ? & _ & ?); [apply empty_file_wf| |done].
  split; [done..|]. split; [done|]. by repeat constructor.
Defined.

(** ** The bytes of a file

    What the disk says about a file, as functions of the sectors' contents. *)

Section files.
Context {D : Type} `{HD : BlockDeviceOk D}.
Implicit Types (d : D) (i : INodeInner).

(** The disk block of a logical block. *)
Definition block_of d i (logical_block : Z) : option Z :=
  b ← (if logical_block <? 12 then direct_blocks i !! Z.to_nat logical_block
       else
         let k := logical_block - 12 in
         if (1024 <=? k) || (indirect_block i =? 0) then None
         else
           buf ← sector d (indirect_block i * 8 + k * 4 / 512);
           Some (of_le (slice (k * 4 mod 512) 4 buf)));
  if b =? 0 then None else Some b.

(** Byte [k] of the file. *)
Definition byte_at d i (k : Z) : option Z :=
  b ← block_of d i (k / 4096);
  buf ← sector d (b * 8 + k mod 4096 / 512);
  buf !! Z.to_nat (k mod 512).

(** The twelve direct pointers are there, and the blocks that the inode points
    to are on the disk. *)
Definition blocks_ok d i : Prop :=
  length (direct_blocks i) = 12%nat ∧
  (indirect_block i ≠ 0 → ∀ k, 0 ≤ k < 8 → is_Some (sector d (indirect_block i * 8 + k))) ∧
  ∀ lb b, 0 ≤ lb → block_of d i lb = Some b → ∀ k, 0 ≤ k < 8 → is_Some (sector d (b * 8 + k)).

(** Two states of the device with the same contents. *)
Definition same_disk d d' : Prop := ∀ k, sector d' k = sector d k.

#[export] Instance same_disk_equiv : Equivalence same_disk.
Proof.
  split; [by intros d k|intros d d' Hd k; by rewrite Hd|].
  intros d1 d2 d3 H1 H2 k. by rewrite H2, H1.
Qed.

#[export] Instance block_of_proper : Proper (same_disk ==> eq ==> eq ==> eq) block_of.
Proof. intros d d' Hd i ? <- lb ? <-. unfold block_of. by rewrite Hd. Qed.

Lemma byte_at_same d d' i k : same_disk d d' → byte_at d' i k = byte_at d i k.
Proof.
  intros Hd. unfold byte_at. rewrite (block_of_proper d d' Hd i i eq_refl _ _ eq_refl).
  destruct (block_of d' i (k / 4096)); [|done]. simpl. by rewrite Hd.
Qed.

Lemma blocks_ok_same d d' i : same_disk d d' → blocks_ok d i → blocks_ok d' i.
Proof.
  intros Hd (Hl & Hi & Hb). split_and!; [done|intros H0 k Hk; rewrite Hd; auto|].
  intros lb b H0 Hlb k Hk. rewrite Hd.
  rewrite <-(block_of_proper d d' Hd i i eq_refl _ _ eq_refl) in Hlb. by eapply Hb.
Qed.

(** A sector that is read from a good device. *)
Lemma read_sector_ok `{!ReliableDevice D} d n b : sector d n = Some b →
  ∃ d', read_sector n d = (Ok b, d') ∧ same_disk d d'.
Proof.
  intros Hb. destruct (read_sector_live d n) as (b' & d' & Hr); [by eexists|].
  pose proof (read_sector_spec d n) as Hs. rewrite Hr in Hs. destruct Hs as [Hb' Hd].
  exists d'. split; [congruence|done].
Qed.

Lemma data_block_spec `{!ReliableDevice D} d i lb : blocks_ok d i → 0 ≤ lb →
  ∃ d', same_disk d d' ∧
    data_block i lb d = (match block_of d i lb with Some b => Ok b | None => Err Fs end, d').
Proof.
  intros (Hl & Hi & _) H0. unfold data_block, block_of. change DIRECT_BLOCKS with 12.
  change INDIRECT_BLOCK_ENTRIES with 1024. change SECTORS_PER_BLOCK with 8.
  change SECTOR_SIZE with 512. destruct (Z.ltb_spec lb 12).
  - destruct (lookup_lt_is_Some_2 (direct_blocks i) (Z.to_nat lb)) as [b Hb]; [lia|].
    rewrite Hb. unfold bind, lift. simpl. exists d. split; [done|]. by destruct (b =? 0).
  - destruct (Z.leb_spec 1024 (lb - 12)); simpl; [by exists d|].
    destruct (Z.eqb_spec (indirect_block i) 0); simpl; [by exists d|].
    destruct (Hi ltac:(done) ((lb - 12) * 4 / 512)) as [buf Hbuf];
      [Z.div_mod_to_equations; lia|]. rewrite Hbuf.
    destruct (read_sector_ok d _ _ Hbuf) as (d' & Hr & Hd). unfold bind. rewrite Hr. simpl.
    exists d'. split; [done|]. by destruct (_ =? 0).
Qed.

(** The last lookup, when there was one, is still right. *)
Definition mapped_ok d i (mapped : option (Z * Z)) : Prop :=
  match mapped with Some (lb, b) => block_of d i lb = Some b | None => True end.

Lemma mapped_data_block_spec `{!ReliableDevice D} d i mapped lb :
  blocks_ok d i → mapped_ok d i mapped → 0 ≤ lb →
  ∃ d', same_disk d d' ∧
    mapped_data_block i mapped lb d =
      (Ok (match block_of d i lb with Some b => inl b | None => inr Fs end), d').
Proof.
  intros Hb Hm H0. destruct (data_block_spec d i lb Hb H0) as (d' & Hd & Hdb).
  assert (Hatt : attempt (E' := VfsError) (data_block i lb) d =
    (Ok (match block_of d i lb with Some b => inl b | None => inr Fs end), d')).
  { unfold attempt. rewrite Hdb. by destruct (block_of d i lb). }
  unfold mapped_data_block. destruct mapped as [[ml b]|]; [|by exists d'].
  destruct (Z.eqb_spec ml lb) as [->|]; [|by exists d'].
  simpl in Hm. rewrite Hm. by exists d.
Qed.

(** ** Reading *)

(** Where the bytes of one round are. *)
Lemma chunk_position off k : 0 ≤ off → 0 ≤ k → off mod 4096 mod 512 + k < 512 →
  (off + k) / 4096 = off / 4096 ∧ (off + k) mod 4096 / 512 = off mod 4096 / 512 ∧
  (off + k) mod 512 = off mod 4096 mod 512 + k.
Proof. intros. split_and!; Z.div_mod_to_equations; lia. Qed.

Lemma read_loop_spec `{!ReliableDevice D} i fuel : ∀ d off rem mapped acc,
  blocks_ok d i → mapped_ok d i mapped → 0 ≤ off → rem ≤ Z.of_nat fuel →
  ∃ bs d', same_disk d d' ∧
    read_loop fuel i off rem mapped acc d =
      (if decide (acc ++ bs = [] ∧ 0 < rem) then Err Fs else Ok (acc ++ bs), d') ∧
    Z.of_nat (length bs) ≤ Z.max 0 rem ∧
    (∀ k, 0 ≤ k < Z.of_nat (length bs) → byte_at d i (off + k) = bs !! Z.to_nat k) ∧
    (Z.of_nat (length bs) = Z.max 0 rem ∨
     block_of d i ((off + Z.of_nat (length bs)) / 4096) = None).
Proof.
  induction fuel as [|fuel IH]; intros d off rem mapped acc Hb Hm H0 Hf.
  { exists [], d. split; [done|]. cbn [read_loop]. destruct (Z.leb_spec rem 0); [|lia].
    rewrite decide_False, app_nil_r by (intros [_ ?]; lia). simpl. split_and!; [done|lia|lia|lia]. }
  cbn [read_loop]. destruct (Z.leb_spec rem 0).
  { exists [], d. rewrite decide_False, app_nil_r by (intros [_ ?]; lia). simpl.
    split_and!; [done|done|lia|lia|lia]. }
  change BLOCK_SIZE with 4096. change SECTOR_SIZE with 512. change SECTORS_PER_BLOCK with 8.
  destruct (mapped_data_block_spec d i mapped (off / 4096) Hb Hm) as (d1 & Hd1 & Hmd);
    [Z.div_mod_to_equations; lia|]. unfold bind at 1. rewrite Hmd.
  destruct (block_of d i (off / 4096)) as [b|] eqn:Hbo.
  2:{ exists [], d1. split; [done|]. rewrite app_nil_r. simpl. rewrite Z.add_0_r.
      split_and!; [|lia|lia|by right]. destruct acc; [by rewrite decide_True|].
      by rewrite decide_False by (by intros [??]). }
  set (so := off mod 4096 mod 512). set (tc := Z.min (512 - so) rem).
  assert (Hso : 0 ≤ so < 512) by (apply Z.mod_pos_bound; lia).
  pose proof Hb as (_ & _ & Hblk).
  destruct (Hblk (off / 4096) b ltac:(Z.div_mod_to_equations; lia) Hbo (off mod 4096 / 512))
    as [buf Hbuf]; [Z.div_mod_to_equations; lia|].
  destruct (read_sector_ok d1 (b * 8 + off mod 4096 / 512) buf) as (d2 & Hr & Hd2);
    [by rewrite Hd1|].
  unfold bind at 1. rewrite Hr. destruct (sector_len _ _ _ Hbuf) as [Hlen _].
  set (chunk := slice so tc buf).
  assert (Hcl : length chunk = Z.to_nat tc) by (apply slice_length; lia).
  assert (Hd : same_disk d d2) by (by trans d1).
  destruct (IH d2 (off + tc) (rem - tc) (Some (off / 4096, b)) (acc ++ chunk))
    as (bs & d' & Hd' & Hrl & Hbl & Hby & Hend).
  { by apply (blocks_ok_same d). }
  { simpl. by rewrite <-(block_of_proper d d2 Hd i i eq_refl _ _ eq_refl). }
  { lia. }
  { lia. }
  exists (chunk ++ bs), d'. split; [by trans d2|]. rewrite Hrl, <-app_assoc.
  assert (Hne : acc ++ chunk ++ bs ≠ []).
  { intros Hx. apply (f_equal length) in Hx. rewrite !length_app in Hx. simpl in Hx. lia. }
  rewrite !decide_False by naive_solver. rewrite length_app. split_and!; [done|lia| |].
  - intros k Hk. destruct (Z.lt_ge_cases k tc) as [Hlt|Hge].
    + rewrite lookup_app_l by lia. unfold chunk. rewrite slice_lookup by lia.
      unfold byte_at. destruct (chunk_position off k) as (-> & -> & ->); [lia..|].
      rewrite Hbo. simpl. by rewrite Hbuf.
    + rewrite lookup_app_r by lia. rewrite Hcl, <-Z2Nat.inj_sub by lia.
      rewrite <-Hby by lia. rewrite (byte_at_same d d2) by done. f_equal. lia.
  - destruct Hend as [Hend|Hend]; [left; lia|right].
    rewrite (block_of_proper d d2 Hd i i eq_refl _ _ eq_refl), <-Hend. do 2 f_equal. lia.
Qed.

(** ** Writing *)

(** No two logical blocks share a disk block, and none is the block of
    pointers. *)
Definition blocks_distinct d i : Prop :=
  (∀ lb lb' b, 0 ≤ lb → 0 ≤ lb' → block_of d i lb = Some b → block_of d i lb' = Some b → lb = lb') ∧
  (∀ lb b, 0 ≤ lb → block_of d i lb = Some b → indirect_block i ≠ 0 → b ≠ indirect_block i).

(** One sector of a data block is rewritten from offset [off] of the file. *)
Lemma sector_update d d' i b off chunk buf :
  blocks_distinct d i → 0 ≤ off → block_of d i (off / 4096) = Some b →
  sector d (b * 8 + off mod 4096 / 512) = Some buf →
  off mod 4096 mod 512 + Z.of_nat (length chunk) ≤ 512 →
  (∀ k, sector d' k = if decide (k = b * 8 + off mod 4096 / 512)
                      then Some (splice (off mod 4096 mod 512) chunk buf) else sector d k) →
  (∀ lb, 0 ≤ lb → block_of d' i lb = block_of d i lb) ∧
  (∀ k, 0 ≤ k → byte_at d' i k =
     if decide (off ≤ k < off + Z.of_nat (length chunk)) then chunk !! Z.to_nat (k - off)
     else byte_at d i k).
Proof.
  intros [Hinj Hind] H0 Hbo Hbuf Hle Hd'. destruct (sector_len _ _ _ Hbuf) as [Hlen _].
  assert (Hblk : ∀ lb, 0 ≤ lb → block_of d' i lb = block_of d i lb).
  { intros lb Hlb. unfold block_of. destruct (Z.ltb_spec lb 12); [done|].
    destruct (Z.leb_spec 1024 (lb - 12)); [done|]. destruct (Z.eqb_spec (indirect_block i) 0); [done|].
    cbn [orb]. rewrite Hd', decide_False; [done|]. intros Heq.
    apply (Hind (off / 4096) b); [Z.div_mod_to_equations; lia|done..|].
    Z.div_mod_to_equations; lia. }
  split; [done|]. intros k Hk. unfold byte_at.
  rewrite Hblk by (Z.div_mod_to_equations; lia).
  destruct (decide (off ≤ k < off + Z.of_nat (length chunk))) as [Hin|Hout].
  - destruct (chunk_position off (k - off)) as (H1 & H2 & H3); [lia..|].
    replace (off + (k - off)) with k in * by lia. rewrite H1, H2, H3, Hbo. simpl.
    rewrite Hd', decide_True by done. simpl. rewrite splice_lookup by (rewrite ?Hlen; lia || (Z.div_mod_to_equations; lia)).
    rewrite (proj2 (Z.leb_le _ _)), (proj2 (Z.ltb_lt _ _)) by lia. simpl. f_equal. lia.
  - destruct (block_of d i (k / 4096)) as [b'|] eqn:Hb'; [|done]. simpl. rewrite Hd'.
    destruct (decide (b' * 8 + k mod 4096 / 512 = b * 8 + off mod 4096 / 512)) as [Heq|]; [|done].
    assert (b' = b) as -> by (Z.div_mod_to_equations; lia).
    assert (k / 4096 = off / 4096) as Hkq by
      (apply (Hinj _ _ b); [Z.div_mod_to_equations; lia..|done|done]).
    rewrite Heq, Hbuf. simpl.
    rewrite splice_lookup by (rewrite ?Hlen; lia || (Z.div_mod_to_equations; lia)).
    destruct (Z.leb_spec (off mod 4096 mod 512) (k mod 512)); [|done].
    destruct (Z.ltb_spec (k mod 512) (off mod 4096 mod 512 + Z.of_nat (length chunk))); [|done].
    destruct Hout. Z.div_mod_to_equations; lia.
Qed.

Lemma splice_full src dst : length src = length dst → splice 0 src dst = src.
Proof.
  intros Hl. unfold splice. simpl. by rewrite Hl, drop_all, app_nil_r.
Qed.

Lemma write_sector_ok `{!ReliableDevice D} d n b : length b = 512%nat → Forall is_u8 b →
  is_Some (sector d n) → ∃ d', write_sector n b d = (Ok tt, d') ∧
    ∀ k, sector d' k = if decide (k = n) then Some b else sector d k.
Proof.
  intros Hl Hb Hn. destruct (write_sector_live d n b Hl Hn) as (d' & Hw).
  pose proof (write_sector_spec d n b Hl Hb) as Hs. rewrite Hw in Hs.
  exists d'. by destruct Hs.
Qed.

(** The part of a sector that a round replaces: [sector_buf] is only used when
    it was read from the disk. *)
Lemma write_round `{!ReliableDevice D} d n so chunk buf stale :
  sector d n = Some buf → length stale = 512%nat → Forall is_u8 stale → Forall is_u8 chunk →
  0 ≤ so → so + Z.of_nat (length chunk) ≤ 512 →
  ∃ d1 d2 sb, same_disk d d1 ∧
    (if negb (Z.of_nat (length chunk) =? 512) then read_sector n else ret stale) d = (Ok sb, d1) ∧
    splice so chunk sb = splice so chunk buf ∧
    write_sector n (splice so chunk sb) d1 = (Ok tt, d2) ∧
    length (splice so chunk sb) = 512%nat ∧ Forall is_u8 (splice so chunk sb) ∧
    ∀ k, sector d2 k = if decide (k = n) then Some (splice so chunk buf) else sector d k.
Proof.
  intros Hbuf Hsl Hsb Hcb Hso Hle. destruct (sector_len _ _ _ Hbuf) as [Hlen Hbb].
  assert (∃ sb d1, same_disk d d1 ∧
    (if negb (Z.of_nat (length chunk) =? 512) then read_sector n else ret stale) d = (Ok sb, d1) ∧
    splice so chunk sb = splice so chunk buf) as (sb & d1 & Hd1 & Hrd & Heq).
  { destruct (Z.eqb_spec (Z.of_nat (length chunk)) 512).
    - exists stale, d. split_and!; [done..|]. assert (so = 0) as -> by lia.
      by rewrite !splice_full by lia.
    - destruct (read_sector_ok d n buf Hbuf) as (d1 & Hr & Hd1). by exists buf, d1. }
  assert (Hl : length (splice so chunk buf) = 512%nat) by (rewrite splice_length; lia).
  assert (Hb : Forall is_u8 (splice so chunk buf)) by (by apply splice_bytes).
  destruct (write_sector_ok d1 n (splice so chunk buf) Hl Hb) as (d2 & Hw & Hd2);
    [rewrite Hd1; by eexists|].
  exists d1, d2, sb. rewrite Heq. split_and!; try done. intros k. rewrite Hd2.
  by destruct (decide _).
Qed.

(** What a write leaves: the file's bytes from [off] replaced by [new], its
    block map, and every sector outside its data blocks. *)
Record wrote d d' i (off : Z) (new : list Z) : Prop := {
  wr_blocks lb : 0 ≤ lb → block_of d' i lb = block_of d i lb;
  wr_bytes k : 0 ≤ k → byte_at d' i k =
    if decide (off ≤ k < off + Z.of_nat (length new)) then new !! Z.to_nat (k - off)
    else byte_at d i k;
  wr_other x : (∀ lb b j, 0 ≤ lb → block_of d i lb = Some b → 0 ≤ j < 8 → x ≠ b * 8 + j) →
    sector d' x = sector d x;
  wr_range x : is_Some (sector d' x) ↔ is_Some (sector d x);
}.

Lemma wrote_refl d d' i off : same_disk d d' → wrote d d' i off [].
Proof.
  intros Hd. split.
  - intros lb _. by rewrite (block_of_proper d d' Hd i i eq_refl lb lb eq_refl).
  - intros k Hk. rewrite decide_False by (simpl; lia). by apply byte_at_same.
  - intros x _. apply Hd.
  - intros x. by rewrite Hd.
Qed.

Lemma wrote_app d d1 d2 i off new1 new2 : 0 ≤ off → wrote d d1 i off new1 →
  wrote d1 d2 i (off + Z.of_nat (length new1)) new2 → wrote d d2 i off (new1 ++ new2).
Proof.
  intros H0 [Hbl1 Hby1 Ho1 Hr1] [Hbl2 Hby2 Ho2 Hr2]. split.
  - intros lb Hlb. by rewrite Hbl2, Hbl1.
  - intros k Hk. rewrite Hby2, Hby1, length_app by done.
    destruct (decide (off + Z.of_nat (length new1) ≤ k < _)) as [Hin2|Hn2].
    + rewrite decide_True by lia. rewrite lookup_app_r by lia. f_equal. lia.
    + destruct (decide (off ≤ k < off + Z.of_nat (length new1))) as [Hin1|Hn1].
      * rewrite decide_True, lookup_app_l by lia. done.
      * by rewrite decide_False by lia.
  - intros x Hx. rewrite Ho2; [by apply Ho1|]. intros lb b j Hlb Hb. apply (Hx lb); [done|].
    by rewrite <-Hbl1.
  - intros x. by rewrite Hr2, Hr1.
Qed.

Lemma wrote_ok d d' i off new : wrote d d' i off new → blocks_ok d i → blocks_distinct d i →
  blocks_ok d' i ∧ blocks_distinct d' i.
Proof.
  intros [Hbl _ _ Hr] (Hl & Hi & Hb) [Hinj Hind]. split; [split_and!|split].
  - done.
  - intros Hne k Hk. apply Hr. auto.
  - intros lb b Hlb. rewrite Hbl by done. intros Hbo k Hk. apply Hr. by eapply Hb.
  - intros lb lb' b Hlb Hlb'. rewrite !Hbl by done. by apply Hinj.
  - intros lb b Hlb. rewrite Hbl by done. by apply Hind.
Qed.

Lemma write_loop_spec `{!ReliableDevice D} i data fuel : ∀ d off rem mapped stale tw,
  Forall is_u8 data → blocks_ok d i → blocks_distinct d i → mapped_ok d i mapped →
  length stale = 512%nat → Forall is_u8 stale →
  0 ≤ off → 0 ≤ tw → tw + rem ≤ Z.of_nat (length data) → rem ≤ Z.of_nat fuel →
  ∃ n d', write_loop fuel i data off rem mapped stale tw d =
      (if decide (tw + n = 0 ∧ 0 < rem) then Err Fs else Ok (tw + n), d') ∧
    0 ≤ n ≤ Z.max 0 rem ∧ wrote d d' i off (slice tw n data) ∧
    (n = Z.max 0 rem ∨ block_of d i ((off + n) / 4096) = None).
Proof.
  induction fuel as [|fuel IH]; intros d off rem mapped stale tw Hdata Hb Hdi Hm Hsl Hsb H0 Htw Hle Hf.
  { exists 0, d. cbn [write_loop]. destruct (Z.leb_spec rem 0); [|lia].
    rewrite decide_False, Z.add_0_r by lia. split_and!; [done|lia|lia|by apply wrote_refl|lia]. }
  cbn [write_loop]. destruct (Z.leb_spec rem 0).
  { exists 0, d. rewrite decide_False, Z.add_0_r by lia.
    split_and!; [done|lia|lia|by apply wrote_refl|lia]. }
  change BLOCK_SIZE with 4096. change SECTOR_SIZE with 512. change SECTORS_PER_BLOCK with 8.
  destruct (mapped_data_block_spec d i mapped (off / 4096) Hb Hm) as (d1 & Hd1 & Hmd);
    [Z.div_mod_to_equations; lia|]. unfold bind at 1. rewrite Hmd.
  destruct (block_of d i (off / 4096)) as [b|] eqn:Hbo.
  2:{ exists 0, d1. rewrite !Z.add_0_r. split_and!; [|lia|lia|by apply wrote_refl|by right].
      destruct (Z.ltb_spec 0 tw); [by rewrite decide_False by lia|by rewrite decide_True by lia]. }
  set (so := off mod 4096 mod 512). set (tc := Z.min (512 - so) rem).
  assert (Hso : 0 ≤ so < 512) by (apply Z.mod_pos_bound; lia).
  assert (Hcl : length (slice tw tc data) = Z.to_nat tc) by (apply slice_length; lia).
  pose proof Hb as (_ & _ & Hblk).
  destruct (Hblk (off / 4096) b ltac:(Z.div_mod_to_equations; lia) Hbo (off mod 4096 / 512))
    as [buf Hbuf]; [Z.div_mod_to_equations; lia|].
  destruct (write_round d1 (b * 8 + off mod 4096 / 512) so (slice tw tc data) buf stale)
    as (d2 & d3 & sb & Hd2 & Hrd & Hspl & Hw & Hl3 & Hb3 & Hd3);
    [by rewrite Hd1|done|done|by apply slice_bytes|lia|rewrite Hcl; lia|].
  rewrite Hcl, Z2Nat.id in Hrd by lia. unfold bind at 1. rewrite Hrd.
  unfold bind at 1. rewrite Hw.
  assert (Hwr : wrote d d3 i off (slice tw tc data)).
  { destruct (sector_update d d3 i b off (slice tw tc data) buf) as [Hbl Hby]; [done..| | |].
    - fold so. rewrite Hcl. lia.
    - intros k. rewrite Hd3. by rewrite Hd1.
    - split; [done|done| |].
      + intros x Hx. rewrite Hd3, decide_False; [by rewrite Hd1|].
        apply (Hx (off / 4096) b); [Z.div_mod_to_equations; lia|done|Z.div_mod_to_equations; lia].
      + intros x. rewrite Hd3. destruct (decide _) as [->|]; [|by rewrite Hd1].
        rewrite Hbuf. by split. }
  destruct (wrote_ok _ _ _ _ _ Hwr Hb Hdi) as [Hb3' Hdi3].
  destruct (IH d3 (off + tc) (rem - tc) (Some (off / 4096, b)) (splice so (slice tw tc data) sb)
    (tw + tc)) as (n & d' & Hwl & Hn & Hwr' & Hend); [done..| |done|done|lia|lia|lia|lia|].
  { simpl. rewrite (wr_blocks _ _ _ _ _ Hwr); [done|Z.div_mod_to_equations; lia]. }
  exists (tc + n), d'. rewrite Hwl, !decide_False, Z.add_assoc by lia.
  split_and!; [done|lia|lia| |].
  - assert (slice tw (tc + n) data = slice tw tc data ++ slice (tw + tc) n data) as ->.
    { unfold slice. rewrite (Z2Nat.inj_add tw tc), <-drop_drop, take_take_drop by lia.
      f_equal. lia. }
    apply (wrote_app d d3); [done|done|]. by rewrite Hcl, Z2Nat.id by lia.
  - destruct Hend as [Hend|Hend]; [left; lia|right]. rewrite <-Hend, (wr_blocks _ _ _ _ _ Hwr);
      [do 2 f_equal; lia|Z.div_mod_to_equations; lia].
Qed.

(** How many bytes of a transfer of [len] at [off] are inside the file. *)
Definition in_file i (off len : Z) : Z := Z.max 0 (Z.min len (sz i - off)).

(** The file's bytes, and that none of them is in a hole. *)
Definition file_bytes d i : list Z := omap (byte_at d i) (seqZ 0 (sz i)).
Definition stored d i : Prop := 0 ≤ sz i ∧ ∀ k, 0 ≤ k < sz i → is_Some (block_of d i (k / 4096)).

Lemma stored_byte d i k : blocks_ok d i → stored d i → 0 ≤ k < sz i → is_Some (byte_at d i k).
Proof.
  intros (_ & _ & Hb) [_ Hs] Hk. destruct (Hs k Hk) as [b Hbo]. unfold byte_at. rewrite Hbo. simpl.
  destruct (Hb (k / 4096) b ltac:(Z.div_mod_to_equations; lia) Hbo (k mod 4096 / 512)) as [buf Hbuf];
    [Z.div_mod_to_equations; lia|].
  rewrite Hbuf. simpl. apply lookup_lt_is_Some. destruct (sector_len _ _ _ Hbuf) as [-> _].
  pose proof (Z.mod_pos_bound k 512). lia.
Qed.

(** [file_bytes] is the list of the bytes [byte_at]. *)
Lemma omap_seqZ_lookup (f : Z → option Z) n : ∀ m j,
  (∀ k, m ≤ k < m + Z.of_nat n → is_Some (f k)) → (j < n)%nat →
  omap f (seqZ m (Z.of_nat n)) !! j = f (m + Z.of_nat j).
Proof.
  induction n as [|n IH]; intros m j Hf Hj; [lia|].
  rewrite seqZ_cons by lia. replace (Z.pred (Z.of_nat (S n))) with (Z.of_nat n) by lia.
  destruct (Hf m ltac:(lia)) as [x Hx]. simpl. rewrite Hx. destruct j as [|j]; simpl.
  - by rewrite Z.add_0_r.
  - rewrite IH by (lia || (intros; apply Hf; lia)). f_equal. lia.
Qed.

Lemma omap_seqZ_length (f : Z → option Z) n : ∀ m,
  (∀ k, m ≤ k < m + Z.of_nat n → is_Some (f k)) → length (omap f (seqZ m (Z.of_nat n))) = n.
Proof.
  induction n as [|n IH]; intros m Hf; [done|].
  rewrite seqZ_cons by lia. replace (Z.pred (Z.of_nat (S n))) with (Z.of_nat n) by lia.
  destruct (Hf m ltac:(lia)) as [x Hx]. simpl. rewrite Hx. simpl. f_equal.
  apply IH. intros; apply Hf; lia.
Qed.

Lemma file_bytes_length d i : blocks_ok d i → stored d i → Z.of_nat (length (file_bytes d i)) = sz i.
Proof.
  intros Hb Hs. unfold file_bytes. pose proof Hs as [H0 _]. rewrite <-(Z2Nat.id (sz i)) at 1 by done.
  rewrite omap_seqZ_length; [lia|]. intros k Hk. apply stored_byte; [done..|lia].
Qed.

Lemma file_bytes_lookup d i k : blocks_ok d i → stored d i → 0 ≤ k < sz i →
  file_bytes d i !! Z.to_nat k = byte_at d i k.
Proof.
  intros Hb Hs Hk. unfold file_bytes. rewrite <-(Z2Nat.id (sz i)) by lia.
  rewrite omap_seqZ_lookup; [f_equal; lia| |lia].
  intros j Hj. apply stored_byte; [done..|lia].
Qed.

(** Every byte of a list of the file's length decides it. *)
Lemma file_bytes_eq d i l : blocks_ok d i → stored d i → Z.of_nat (length l) = sz i →
  (∀ k, 0 ≤ k < sz i → l !! Z.to_nat k = byte_at d i k) → file_bytes d i = l.
Proof.
  intros Hb Hs Hl Hk. pose proof (file_bytes_length d i Hb Hs). apply list_eq_same_length with (n := length l);
    [done|lia|]. intros j x y Hj Hx Hy.
  pose proof (file_bytes_lookup d i (Z.of_nat j) Hb Hs ltac:(lia)) as E.
  specialize (Hk (Z.of_nat j) ltac:(lia)). rewrite Nat2Z.id in *. congruence.
Qed.

Lemma read_inner_spec `{!ReliableDevice D} d i off len :
  ty i = TFile → blocks_ok d i → 0 ≤ off → 0 ≤ len →
  ∃ bs d', same_disk d d' ∧
    read_inner i off len d =
      (if decide (bs = [] ∧ 0 < in_file i off len) then Err Fs else Ok bs, d') ∧
    Z.of_nat (length bs) ≤ in_file i off len ∧
    (∀ k, 0 ≤ k < Z.of_nat (length bs) → byte_at d i (off + k) = bs !! Z.to_nat k) ∧
    (Z.of_nat (length bs) = in_file i off len ∨
     block_of d i ((off + Z.of_nat (length bs)) / 4096) = None).
Proof.
  intros Hty Hb H0 Hlen. unfold read_inner, in_file. rewrite Hty, Z.eqb_refl. simpl.
  destruct (Z.leb_spec (sz i) off); [|destruct (Z.eqb_spec len 0)]; simpl.
  1,2: exists [], d; rewrite decide_False by (intros [_ ?]; lia); simpl; split_and!; done || lia.
  set (rem := Z.min len (sz i - off)).
  destruct (read_loop_spec i (Z.to_nat rem) d off rem None []) as (bs & d' & Hd & Hr & Hrest);
    [done..|lia|]. exists bs, d'. rewrite Hr. simpl. split_and!; [done| |apply Hrest..].
  replace (Z.max 0 rem) with rem by lia. done.
Qed.

Lemma read_stored `{!ReliableDevice D} d i off len :
  ty i = TFile → blocks_ok d i → stored d i → 0 ≤ off → 0 ≤ len →
  ∃ d', same_disk d d' ∧
    read_inner i off len d = (Ok (take (Z.to_nat len) (drop (Z.to_nat off) (file_bytes d i))), d').
Proof.
  intros Hty Hb Hs H0 Hlen.
  destruct (read_inner_spec d i off len Hty Hb H0 Hlen) as (bs & d' & Hd & Hr & Hle & Hbs & Hend).
  exists d'. split; [done|]. rewrite Hr. pose proof (file_bytes_length d i Hb Hs) as Hfl.
  assert (Hfull : Z.of_nat (length bs) = in_file i off len).
  { destruct Hend as [|Hn]; [done|]. unfold in_file in *.
    destruct (decide (off + Z.of_nat (length bs) < sz i)); [|lia].
    destruct Hs as [_ Hs]. destruct (Hs (off + Z.of_nat (length bs))) as [? Hbo]; [lia|].
    rewrite Hn in Hbo. done. }
  unfold in_file in *. rewrite decide_False by (intros [-> ?]; simpl in Hfull; lia).
  do 2 f_equal. apply list_eq_same_length with (n := length bs); [|done|].
  { rewrite length_take, length_drop. lia. }
  intros j x y Hj Hx Hy. specialize (Hbs (Z.of_nat j) ltac:(lia)). rewrite Nat2Z.id in Hbs.
  rewrite lookup_take_Some, lookup_drop in Hy. destruct Hy as [Hy _].
  pose proof (file_bytes_lookup d i (off + Z.of_nat j) Hb Hs ltac:(lia)) as E.
  replace (Z.to_nat (off + Z.of_nat j)) with (Z.to_nat off + j)%nat in E by lia. congruence.
Qed.

Lemma write_inner_spec `{!ReliableDevice D} d i off buf :
  ty i = TFile → blocks_ok d i → blocks_distinct d i → stored d i → 0 ≤ off → Forall is_u8 buf →
  let n := in_file i off (Z.of_nat (length buf)) in
  ∃ d', write_inner i off buf d = (Ok n, d') ∧ wrote d d' i off (take (Z.to_nat n) buf).
Proof.
  intros Hty Hb Hdi [Hs0 Hs] H0 Hbuf n. unfold write_inner. rewrite Hty, Z.eqb_refl. cbn [negb].
  destruct (Z.leb_spec (sz i) off); [|destruct (Nat.eqb_spec (length buf) 0)]; cbn [orb].
  1,2: exists d; unfold n, in_file; rewrite Z.max_l by lia; split; [done|by apply wrote_refl].
  set (rem := Z.min _ (sz i - off)) in *. assert (Hn : n = rem) by (unfold n, in_file, rem; lia).
  destruct (write_loop_spec i buf (Z.to_nat rem) d off rem None (replicate 512 0) 0)
    as (m & d' & Hw & Hm & Hwr & Hend);
    [done|done|done|done|done|by apply Forall_replicate|done|lia|lia|lia|].
  assert (m = n) as ->.
  { destruct Hend as [|Hend]; [lia|]. destruct (decide (m < rem)); [|lia].
    destruct (Hs (off + m)) as [? Hbo]; [lia|]. by rewrite Hend in Hbo. }
  exists d'. rewrite Hw, decide_False by lia. by split.
Qed.

Lemma wrote_stored d d' i off new : wrote d d' i off new → stored d i → stored d' i.
Proof.
  intros Hw [H0 Hs]. split; [done|]. intros k Hk. rewrite (wr_blocks _ _ _ _ _ Hw); [auto|].
  Z.div_mod_to_equations; lia.
Qed.

Lemma wrote_bytes d d' i off new : wrote d d' i off new → blocks_ok d i → blocks_distinct d i →
  stored d i → 0 ≤ off → off + Z.of_nat (length new) ≤ sz i ∨ new = [] →
  file_bytes d' i = take (Z.to_nat off) (file_bytes d i) ++ new ++
    drop (Z.to_nat off + length new) (file_bytes d i).
Proof.
  intros Hw Hb Hdi Hs H0 Hfit. pose proof (file_bytes_length d i Hb Hs) as Hfl.
  destruct (wrote_ok _ _ _ _ _ Hw Hb Hdi) as [Hb' _].
  apply file_bytes_eq; [done|by eapply wrote_stored| |].
  { rewrite !length_app, length_take, length_drop. destruct Hfit as [Hf| ->]; simpl; lia. }
  intros k Hk. rewrite (wr_bytes _ _ _ _ _ Hw) by lia. destruct (decide (_ ≤ _ < _)) as [Hin|Hout].
  - rewrite lookup_app_r; rewrite length_take; [|lia].
    destruct Hfit as [Hfit| ->]; [|simpl in *; lia].
    rewrite lookup_app_l by lia. f_equal. lia.
  - rewrite <-(file_bytes_lookup d i k) by done. destruct (decide (k < off)).
    + rewrite lookup_app_l by (rewrite length_take; lia). by rewrite lookup_take_lt by lia.
    + destruct (decide (sz i ≤ off)) as [|Hlt]; [lia|].
      rewrite lookup_app_r; rewrite length_take; [|lia].
      rewrite lookup_app_r by lia. rewrite lookup_drop. f_equal. lia.
Qed.

(** The data blocks of [i] are no part of [j]. *)
Definition share_nothing d i j : Prop := ∀ lb b, 0 ≤ lb → block_of d i lb = Some b →
  b ≠ indirect_block j ∧ ∀ lb', 0 ≤ lb' → block_of d j lb' ≠ Some b.

Lemma wrote_elsewhere d d' i j off new : wrote d d' i off new → share_nothing d i j →
  ∀ k, 0 ≤ k → block_of d' j (k / 4096) = block_of d j (k / 4096) ∧ byte_at d' j k = byte_at d j k.
Proof.
  intros Hw Hsh k Hk.
  assert (Hbl : block_of d' j (k / 4096) = block_of d j (k / 4096)).
  { unfold block_of. destruct (Z.ltb_spec (k / 4096) 12); [done|].
    destruct (_ || _) eqn:Ho; [done|]. apply orb_false_iff in Ho as [Ho _]. apply Z.leb_gt in Ho.
    rewrite (wr_other _ _ _ _ _ Hw); [done|]. intros lb b m Hlb Hb Hm.
    destruct (Hsh lb b Hlb Hb) as [Hne _]. Z.div_mod_to_equations; lia. }
  split; [done|]. unfold byte_at. rewrite Hbl.
  destruct (block_of d j (k / 4096)) as [bj|] eqn:Hbj; [|done]. simpl.
  rewrite (wr_other _ _ _ _ _ Hw); [done|]. intros lb b m Hlb Hb Hm.
  destruct (Hsh lb b Hlb Hb) as [_ Hne].
  assert (b ≠ bj) by (intros ->; eapply Hne, Hbj; Z.div_mod_to_equations; lia).
  Z.div_mod_to_equations; lia.
Qed.

(** C23: on a device that serves every request for a sector that it has, a read
    of a regular file whose blocks are on the disk gives the file's bytes from the
    offset, at most as many as the buffer and the size allow, and changes nothing
    on the disk.  It is shorter only where the file has a hole (a block that is not
    allocated) and is then all the bytes before the hole; on such a device it fails
    only when the first byte wanted is in one. *)
Theorem read_returns_file_bytes `{!ReliableDevice D} (v : Vsfs D) node i off len :
  heap v !! inner node = Some i → ty i = TFile → blocks_ok (device v) i → 0 ≤ off → 0 ≤ len →
  ∃ bs d', same_disk (device v) d' ∧
    read node off len v =
      (if decide (bs = [] ∧ 0 < in_file i off len) then Err Fs else Ok bs, set_device d' v) ∧
    Z.of_nat (length bs) ≤ in_file i off len ∧
    (∀ k, 0 ≤ k < Z.of_nat (length bs) →
      byte_at (device v) i (off + k) = bs !! Z.to_nat k) ∧
    (Z.of_nat (length bs) = in_file i off len ∨
     block_of (device v) i ((off + Z.of_nat (length bs)) / 4096) = None).
Proof.
  intros Hi Hty Hb H0 Hl.
  destruct (read_inner_spec (device v) i off len Hty Hb H0 Hl) as (bs & d' & Hd & Hr & Hrest).
  exists bs, d'. split; [done|]. split; [|done].
  unfold read, get_inner, io, zoom, bind, gets, lift. rewrite Hi. simpl. by rewrite Hr.
Qed.

Lemma write_stored `{!ReliableDevice D} (v : Vsfs D) node i off buf :
  heap v !! inner node = Some i → ty i = TFile →
  blocks_ok (device v) i → blocks_distinct (device v) i → stored (device v) i →
  0 ≤ off → Forall is_u8 buf →
  let n := in_file i off (Z.of_nat (length buf)) in
  let old := file_bytes (device v) i in
  ∃ d', write node off buf v = (Ok n, set_device d' v) ∧
    blocks_ok d' i ∧ blocks_distinct d' i ∧ stored d' i ∧
    file_bytes d' i = take (Z.to_nat off) old ++ take (Z.to_nat n) buf ++
      drop (Z.to_nat off + Z.to_nat n) old ∧
    ∀ j, share_nothing (device v) i j → file_bytes d' j = file_bytes (device v) j.
Proof.
  intros Hi Hty Hb Hdi Hs H0 Hbuf n old.
  destruct (write_inner_spec (device v) i off buf Hty Hb Hdi Hs H0 Hbuf) as (d' & Hw & Hwr).
  fold n in Hw, Hwr. destruct (wrote_ok _ _ _ _ _ Hwr Hb Hdi) as [Hb' Hdi'].
  assert (Hlt : length (take (Z.to_nat n) buf) = Z.to_nat n)
    by (rewrite length_take; unfold n, in_file; lia).
  exists d'. split_and!; [|done|done|by eapply wrote_stored| |].
  - unfold write, get_inner, io, zoom, bind, gets, lift. rewrite Hi. simpl. by rewrite Hw.
  - rewrite (wrote_bytes _ _ _ _ _ Hwr Hb Hdi Hs H0); [by rewrite Hlt|]. rewrite Hlt.
    destruct (decide (n = 0)) as [->|]; [by right|left]. unfold n, in_file in *. lia.
  - intros j Hsh. unfold file_bytes. apply list_omap_ext. apply Forall_Forall2_diag, Forall_forall. intros k Hk%elem_of_seqZ.
    apply (wrote_elsewhere _ _ _ _ _ _ Hwr Hsh k). lia.
Qed.

(** C4: a write to a regular file with no holes replaces exactly the bytes of
    the file in the range written and never grows the file: it returns how
    many bytes fit before the end, the rest of the file is as it was, and so
    is every file that shares no block with it. *)
Theorem write_replaces_exactly_the_range `{!ReliableDevice D} (v : Vsfs D) node i off buf :
  heap v !! inner node = Some i → ty i = TFile →
  blocks_ok (device v) i → blocks_distinct (device v) i → stored (device v) i →
  0 ≤ off → Forall is_u8 buf →
  let n := in_file i off (Z.of_nat (length buf)) in
  let old := file_bytes (device v) i in
  ∃ d', write node off buf v = (Ok n, set_device d' v) ∧
    blocks_ok d' i ∧ blocks_distinct d' i ∧ stored d' i ∧
    file_bytes d' i = take (Z.to_nat off) old ++ take (Z.to_nat n) buf ++
      drop (Z.to_nat off + Z.to_nat n) old ∧
    ∀ j, share_nothing (device v) i j → file_bytes d' j = file_bytes (device v) j.
Proof. apply write_stored. Qed.
End files.

(** ** The memory disk keeps the device's contract *)

Lemma u8_range b : is_u8 (u8 b).
Proof. unfold u8, in_width. pose proof (Strings.Byte.to_N_bounded b). lia. Qed.

Lemma u8_to_byte x : is_u8 x → u8 (to_byte x) = x.
Proof.
  intros Hx. unfold in_width in Hx. unfold u8, to_byte.
  destruct (Byte.of_N (Z.to_N x)) as [b|] eqn:Hb.
  - apply Strings.Byte.to_of_N in Hb. simpl. rewrite Hb. lia.
  - apply Strings.Byte.of_N_None_iff in Hb. lia.
Qed.

Lemma u8_to_bytes buf : Forall is_u8 buf → u8 <$> (to_byte <$> buf) = buf.
Proof. induction 1 as [|x l Hx Hl IH]; [done|]. csimpl. by rewrite u8_to_byte, IH. Qed.

Lemma sector_range_Some n disk start : sector_range n disk = Some start →
  start = n * 512 ∧ 0 ≤ n ∧ n * 512 + 512 ≤ Z.of_nat (length disk).
Proof.
  unfold sector_range, checked_mul, checked_add. change SECTOR_SIZE with 512.
  destruct (_ <? _); [|done]. simpl. destruct (_ <? _); [|done]. simpl.
  destruct (Z.leb_spec 0 (n * 512)), (Z.leb_spec (n * 512 + 512) (Z.of_nat (length disk)));
    intros [= <-]. lia.
Qed.

(** Sector [n] of the disk. *)
Definition disk_sector (disk : list Byte.byte) (n : Z) : option (list Z) :=
  start ← sector_range n disk; Some (u8 <$> take 512 (drop (Z.to_nat start) disk)).

Lemma disk_sector_len disk n b : disk_sector disk n = Some b →
  length b = 512%nat ∧ Forall is_u8 b.
Proof.
  unfold disk_sector. destruct (sector_range n disk) as [st|] eqn:Hr; [|done]. intros [= <-].
  apply sector_range_Some in Hr as (-> & ? & ?). split.
  - rewrite length_fmap, length_take, length_drop. lia.
  - apply Forall_fmap, Forall_true. intros x. apply u8_range.
Qed.

Lemma disk_sector_write disk n start buf k : sector_range n disk = Some start →
  length buf = 512%nat → Forall is_u8 buf →
  disk_sector (take (Z.to_nat start) disk ++ (to_byte <$> buf) ++
    drop (Z.to_nat start + length buf) disk) k =
    if decide (k = n) then Some buf else disk_sector disk k.
Proof.
  intros Hr Hl Hb. pose proof (sector_range_Some _ _ _ Hr) as (-> & H0 & Hin).
  set (disk' := _ ++ _).
  assert (Hlen : length disk' = length disk).
  { unfold disk'. rewrite !length_app, length_take, length_drop, length_fmap. lia. }
  unfold disk_sector. replace (sector_range k disk') with (sector_range k disk)
    by (unfold sector_range; by rewrite Hlen).
  destruct (decide (k = n)) as [->|Hne].
  { rewrite Hr. simpl. unfold disk'. rewrite drop_app_length' by (rewrite length_take; lia).
    rewrite take_app_length' by (rewrite length_fmap; lia). by rewrite u8_to_bytes. }
  destruct (sector_range k disk) as [st|] eqn:Hk; [|done]. simpl. do 2 f_equal.
  apply sector_range_Some in Hk as (-> & ? & ?). unfold disk'.
  assert (k < n ∨ n < k) as [?|?] by lia.
  - rewrite drop_app_le by (rewrite length_take; lia).
    rewrite take_app_le by (rewrite length_drop, length_take; lia).
    rewrite skipn_firstn_comm, take_take. f_equal. lia.
  - rewrite app_assoc, drop_app_ge by (rewrite length_app, length_take, length_fmap; lia).
    rewrite drop_drop, length_app, length_take, length_fmap. do 2 f_equal. lia.
Qed.

#[export] Instance memory_device_ok : BlockDeviceOk (list Byte.byte).
Proof.
  refine {| sector := disk_sector |}.
  - apply disk_sector_len.
  - intros d n. cbn. unfold disk_read, disk_sector, bind, gets, lift.
    simpl. by destruct (sector_range n d).
  - intros d n b Hl Hb. cbn. unfold disk_write, bind, gets, lift. simpl.
    destruct (sector_range n d) as [st|] eqn:Hr; simpl.
    + split; [unfold disk_sector; rewrite Hr; by eexists|]. intros k. by apply disk_sector_write.
    + done.
Defined.

#[export] Instance memory_device_reliable : ReliableDevice (list Byte.byte).
Proof.
  split.
  - intros d n [b Hb]. exists b, d. revert Hb. cbn. unfold disk_read, disk_sector, bind, gets, lift.
    simpl. destruct (sector_range n d); [|done]. by intros [= <-].
  - intros d n b Hl [b' Hb]. revert Hb. cbn. unfold disk_write, disk_sector, bind, gets, lift.
    simpl. destruct (sector_range n d); [|done]. by eexists.
Qed.

(** ** VSFS keeps the contract of the VFS

    A regular file is one whose handle has an inode with no holes. *)

Section vsfs_contract.
Context {D : Type} `{HD : BlockDeviceOk D} `{HR : !ReliableDevice D}.

Definition vsfs_regular (v : Vsfs D) (node : INode) : Prop :=
  ∃ i, heap v !! inner node = Some i ∧ ty i = TFile ∧ is_u32 (sz i) ∧
    blocks_ok (device v) i ∧ stored (device v) i.

Definition vsfs_content (v : Vsfs D) (node : INode) : list Z :=
  match heap v !! inner node with Some i => file_bytes (device v) i | None => [] end.

Definition vsfs_same (v v' : Vsfs D) : Prop :=
  same_disk (device v) (device v') ∧ heap v' = heap v.

Lemma stored_same d d' i : same_disk d d' → stored d i → stored d' i.
Proof.
  intros Hd [H0 Hs]. split; [done|]. intros k Hk.
  rewrite <-(block_of_proper d d' Hd i i eq_refl _ _ eq_refl). auto.
Qed.

Lemma file_bytes_same d d' i : same_disk d d' → file_bytes d' i = file_bytes d i.
Proof.
  intros Hd. unfold file_bytes. apply list_omap_ext, Forall_Forall2_diag, Forall_forall.
  intros k _. by apply byte_at_same.
Qed.

#[export] Instance vsfs_vnode_ok : VNodeOk (Vsfs D) INode.
Proof.
  refine {| regular := vsfs_regular; content := vsfs_content; same_files := vsfs_same |}.
  - intros s. by split.
  - intros s1 s2 s3 [? Hh] [? Hh']. split; [by trans (device s2)|congruence].
  - intros s s' n [Hd Hh] (i & Hi & Hty & Hsz & Hb & Hs). split.
    + exists i. rewrite Hh. split_and!; [done..|by eapply blocks_ok_same|by eapply stored_same].
    + unfold vsfs_content. rewrite Hh, Hi. by apply file_bytes_same.
  - intros s n (i & Hi & _ & Hsz & Hb & Hs). unfold vsfs_content. rewrite Hi.
    rewrite file_bytes_length by done. apply Hsz.
  - intros s n (i & Hi & _ & _ & Hb & Hs). exists s. split; [|by split].
    unfold vsfs_content. rewrite Hi, file_bytes_length by done. cbn.
    unfold inode_sz, get_inner, bind, gets, lift. by rewrite Hi.
  - intros s n off len (i & Hi & Hty & _ & Hb & Hs) H0 Hl.
    destruct (read_stored (device s) i off len) as (d' & Hd & Hr); [done..|].
    exists (set_device d' s). unfold vsfs_content. rewrite Hi. split; [|by split]. cbn.
    unfold read, get_inner, io, zoom, bind, gets, lift. rewrite Hi. simpl. by rewrite Hr.
Defined.

(** What is written through an open file is read back.  A write to a
    regular file at the file's offset, a seek back to that offset and a read
    of as many bytes as were written give exactly the bytes written, and leave
    the open file where the write left it. *)
Theorem write_seek_read_back (v : Vsfs D) (f : File INode) i buf :
  heap v !! inner (inode f) = Some i → ty i = TFile → is_u32 (sz i) →
  blocks_ok (device v) i → blocks_distinct (device v) i → stored (device v) i →
  0 ≤ offset f ≤ sz i → Forall is_u8 buf →
  let n := in_file i (offset f) (Z.of_nat (length buf)) in
  ∃ v', (let! (n, f1) := file_write f buf in
         let! f2 := file_seek f1 (Start (offset f)) in
         let! (bs, f3) := file_read f2 n in
         ret (n, bs, f1, f3)) v =
    (Ok (n, take (Z.to_nat n) buf, mkFile (inode f) (offset f + n), mkFile (inode f) (offset f + n)),
     v').
Proof.
  intros Hi Hty Hsz Hb Hdi Hs H0 Hbuf n.
  destruct (write_stored v (inode f) i (offset f) buf) as (d1 & Hw & Hb1 & _ & Hs1 & Hc1 & _);
    [done..|lia|done|]. fold n in Hw, Hc1. unfold in_width in Hsz.
  assert (Hn : 0 ≤ n ∧ offset f + n ≤ sz i ∧ n ≤ Z.of_nat (length buf)) by (unfold n, in_file; lia).
  assert (Hfw : file_write f buf v = (Ok (n, mkFile (inode f) (offset f + n)), set_device d1 v)).
  { unfold file_write. cbn [vn_write vsfs_vnode]. rewrite (bind_ok _ _ _ _ _ Hw).
    unfold bind, lift, add_ov, checked_add. by rewrite (proj2 (Z.ltb_lt _ _)) by lia. }
  rewrite (bind_ok _ _ _ _ _ Hfw).
  assert (Hsz1 : inode_sz (inode f) (set_device d1 v) = (Ok (sz i), set_device d1 v)).
  { unfold inode_sz, get_inner, bind, gets, lift. simpl. by rewrite Hi. }
  assert (Hsk : file_seek (mkFile (inode f) (offset f + n)) (Start (offset f)) (set_device d1 v) =
    (Ok (mkFile (inode f) (offset f)), set_device d1 v)).
  { unfold file_seek. cbn [vn_sz vsfs_vnode inode]. rewrite (bind_ok _ _ _ _ _ Hsz1).
    unfold bind at 1, lift. simpl. rewrite (bind_ok _ _ _ _ _ Hsz1).
    by destruct (Z.ltb_spec (sz i) (offset f)); [lia|]. }
  rewrite (bind_ok _ _ _ _ _ Hsk).
  destruct (read_stored d1 i (offset f) n) as (d2 & Hd2 & Hr); [done..|lia|lia|].
  pose proof (file_bytes_length (device v) i Hb Hs) as Hfl.
  rewrite Hc1, drop_app_length', take_app_length' in Hr
    by (rewrite length_take; lia).
  exists (set_device d2 (set_device d1 v)).
  assert (Hrd : file_read (mkFile (inode f) (offset f)) n (set_device d1 v) =
    (Ok (take (Z.to_nat n) buf, mkFile (inode f) (offset f + n)), set_device d2 (set_device d1 v))).
  { unfold file_read. cbn [vn_read vsfs_vnode inode offset].
    unfold read, get_inner, io, zoom, bind, gets, lift. simpl. rewrite Hi. simpl. rewrite Hr.
    rewrite length_take, Nat.min_l, Z2Nat.id by lia. unfold add_ov, checked_add.
    by rewrite (proj2 (Z.ltb_lt _ _)) by lia. }
  by rewrite (bind_ok _ _ _ _ _ Hrd).
Qed.
End vsfs_contract.

(** ** Concrete disks *)

Definition blocks_okb {D} `{BlockDeviceOk D} (d : D) (i : INodeInner) : bool :=
  let on_disk b := forallb (λ k, bool_decide (is_Some (sector d (b * 8 + k)))) (seqZ 0 8) in
  bool_decide (length (direct_blocks i) = 12%nat) &&
  ((indirect_block i =? 0) || on_disk (indirect_block i)) &&
  forallb (λ lb, match block_of d i lb with Some b => on_disk b | None => true end) (seqZ 0 1036).

Lemma forallb_seqZ (f : Z → bool) m n : forallb f (seqZ m n) = true →
  ∀ k, m ≤ k < m + n → f k = true.
Proof.
  intros Hf%Is_true_true%forallb_True k Hk. rewrite Forall_forall in Hf.
  apply Is_true_true, Hf, elem_of_seqZ. lia.
Qed.

Lemma blocks_okb_ok {D} `{BlockDeviceOk D} (d : D) i : blocks_okb d i = true → blocks_ok d i.
Proof.
  unfold blocks_okb. cbv zeta beta. rewrite !andb_true_iff, orb_true_iff, bool_decide_eq_true, Z.eqb_eq.
  intros [[Hl Hi] Hb]. split_and!; [done| |].
  - intros Hne k Hk. destruct Hi as [|Hi]; [done|]. apply (forallb_seqZ _ _ _ Hi k) in Hk.
    by apply bool_decide_eq_true in Hk.
  - intros lb b Hlb Hbo k Hk. destruct (decide (lb < 1036)).
    + pose proof (forallb_seqZ _ _ _ Hb lb ltac:(lia)) as Hf. cbv beta in Hf. rewrite Hbo in Hf.
      apply (forallb_seqZ _ _ _ Hf k) in Hk. by apply bool_decide_eq_true in Hk.
    + unfold block_of in Hbo. destruct (Z.ltb_spec lb 12); [lia|].
      destruct (Z.leb_spec 1024 (lb - 12)); [done|lia].
Qed.

(** The disk and the inode of the test
    [reads_and_writes_across_direct_indirect_boundary]: the last direct block
    holds [abcd] at its end, the first indirect one [efgh] at its start. *)
Definition boundary_disk : list Byte.byte :=
  to_byte <$> replicate (4096 + 4092) 0 ++ [97; 98; 99; 100] ++
    [3; 0; 0; 0] ++ replicate 4092 0 ++ [101; 102; 103; 104] ++ replicate 4092 0.
Definition boundary_inode : INodeInner :=
  mkInner TFile 1 0 (13 * 4096) (replicate 11 0 ++ [1]) 2.
Definition boundary_fs : Vsfs (list Byte.byte) :=
  mkVsfs boundary_disk (mkSuper MAGIC 4 1 0 0 0 0 1) ∅ {[0 := boundary_inode]} 1.
Definition test_node : INode := mkINode 1 0.

(** The body of the test, with its assertions. *)
Definition boundary_test : M (Vsfs (list Byte.byte)) VfsError unit :=
  let boundary_offset := DIRECT_BLOCKS * BLOCK_SIZE - 4 in
  let direct_tail := 1 * BLOCK_SIZE + BLOCK_SIZE - 4 in
  let indirect_data_start := 3 * BLOCK_SIZE in
  let! read_buf := read test_node boundary_offset 8 in
  assert (bool_decide (read_buf = [97; 98; 99; 100; 101; 102; 103; 104])) ;;;
  let! n := write test_node boundary_offset [65; 66; 67; 68; 69; 70; 71; 72] in
  assert (n =? 8) ;;;
  let! disk := gets device in
  assert (bool_decide (u8 <$> take 4 (drop (Z.to_nat direct_tail) disk) = [65; 66; 67; 68])) ;;;
  assert (bool_decide (u8 <$> take 4 (drop (Z.to_nat indirect_data_start) disk) = [69; 70; 71; 72])).

Lemma boundary_test_passes : (boundary_test boundary_fs).1 = Ok tt.
Proof. vm_compute. reflexivity. Qed.

Lemma read_returns_file_bytes_witness :
  (read test_node (12 * 4096 - 4) 8 boundary_fs).1 = Ok [97; 98; 99; 100; 101; 102; 103; 104] ∧
  ∃ bs d', same_disk (device boundary_fs) d' ∧
    read test_node (12 * 4096 - 4) 8 boundary_fs =
      (if decide (bs = [] ∧ 0 < in_file boundary_inode (12 * 4096 - 4) 8) then Err Fs else Ok bs,
       set_device d' boundary_fs) ∧
    Z.of_nat (length bs) ≤ in_file boundary_inode (12 * 4096 - 4) 8 ∧
    (∀ k, 0 ≤ k < Z.of_nat (length bs) →
      byte_at (device boundary_fs) boundary_inode (12 * 4096 - 4 + k) = bs !! Z.to_nat k) ∧
    (Z.of_nat (length bs) = in_file boundary_inode (12 * 4096 - 4) 8 ∨
     block_of (device boundary_fs) boundary_inode
       ((12 * 4096 - 4 + Z.of_nat (length bs)) / 4096) = None).
Proof.
  split; [vm_compute; reflexivity|].
  assert (Hb : blocks_ok (device boundary_fs) boundary_inode)
    by (apply blocks_okb_ok; vm_compute; reflexivity).
  exact (read_returns_file_bytes boundary_fs test_node boundary_inode (12 * 4096 - 4) 8
    eq_refl eq_refl Hb ltac:(lia) ltac:(lia)).
Defined.

(** A file of ten bytes in the second block of a disk of two. *)
Definition small_disk : list Byte.byte :=
  to_byte <$> replicate 4096 0 ++ [10; 11; 12; 13; 14; 15; 16; 17; 18; 19] ++ replicate 4086 0.
Definition small_inode : INodeInner := mkInner TFile 1 0 10 (1 :: replicate 11 0) 0.
Definition small_fs : Vsfs (list Byte.byte) :=
  mkVsfs small_disk (mkSuper MAGIC 2 1 0 0 0 0 1) ∅ {[0 := small_inode]} 1.

Lemma small_block lb b : 0 ≤ lb → block_of small_disk small_inode lb = Some b → lb = 0 ∧ b = 1.
Proof.
  intros H0. unfold block_of. destruct (Z.ltb_spec lb 12).
  - cbn [direct_blocks small_inode]. destruct (decide (lb = 0)) as [->|]; [simpl; naive_solver|].
    rewrite lookup_cons_ne_0, lookup_replicate_2 by lia. done.
  - by rewrite orb_true_r.
Qed.

Lemma small_ok : blocks_ok small_disk small_inode ∧ blocks_distinct small_disk small_inode ∧
  stored small_disk small_inode.
Proof.
  split; [apply blocks_okb_ok; vm_compute; reflexivity|]. split.
  - split; [|done]. intros lb lb' b H0 H0' Hb Hb'. apply small_block in Hb as [-> _]; [|done].
    by apply small_block in Hb' as [-> _].
  - split; [done|]. cbn [sz small_inode]. intros k Hk. rewrite Z.div_small by lia. by exists 1.
Qed.

Lemma write_replaces_exactly_the_range_witness :
  (write test_node 8 [1; 2; 3] small_fs).1 = Ok 2 ∧
  ∃ d', write test_node 8 [1; 2; 3] small_fs = (Ok 2, set_device d' small_fs) ∧
    file_bytes d' small_inode = [10; 11; 12; 13; 14; 15; 16; 17; 1; 2].
Proof.
  split; [vm_compute; reflexivity|]. destruct small_ok as (Hb & Hdi & Hs).
  assert (Hbuf : Forall is_u8 [1; 2; 3]) by (by repeat constructor).
  assert (Hc : file_bytes (device small_fs) small_inode = [10; 11; 12; 13; 14; 15; 16; 17; 18; 19])
    by (vm_compute; reflexivity).
  destruct (write_replaces_exactly_the_range small_fs test_node small_inode 8 [1; 2; 3]
    eq_refl eq_refl Hb Hdi Hs ltac:(lia) Hbuf) as (d' & Hw & _ & _ & _ & Hby & _).
  exists d'. split; [exact Hw|]. rewrite Hby, Hc. reflexivity.
Defined.

Lemma write_seek_read_back_witness :
  (let! (n, f1) := file_write (mkFile test_node 4) [1; 2; 3] in
   let! f2 := file_seek f1 (Start 4) in
   let! (bs, f3) := file_read f2 n in
   ret (n, bs, f1, f3)) small_fs =
    (Ok (3, [1; 2; 3], mkFile test_node 7, mkFile test_node 7),
     ((let! (n, f1) := file_write (mkFile test_node 4) [1; 2; 3] in
       let! f2 := file_seek f1 (Start 4) in
       let! (bs, f3) := file_read f2 n in
       ret (n, bs, f1, f3)) small_fs : outcome VfsError _ * _).2).
Proof.
  destruct small_ok as (Hb & Hdi & Hs).
  assert (Hbuf : Forall is_u8 [1; 2; 3]) by (by repeat constructor).
  destruct (write_seek_read_back small_fs (mkFile test_node 4) small_inode [1; 2; 3]
    eq_refl eq_refl ltac:(done) Hb Hdi Hs ltac:(cbn; lia) Hbuf) as (v' & Hv).
  cbn [offset] in Hv. rewrite Hv. reflexivity.
Defined.
