(* ===== verification/VsfsDir.v ===== *)
(** * VSFS: bitmaps, directories and file creation

    What [allocate_bitmap_bit] and [free_bitmap_bit] do to a bitmap, what a
    directory lookup finds, and that a file that was created is found again
    ([vsfs/src/lib.rs]).  The model is in Vsfs. *)

From S2P Require Import Prelude Errors Vfs Vsfs VsfsIO.

(** ** Bits of a byte buffer *)

(** Bit [k] of a buffer. *)
Definition bit_at (buf : list Z) (k : Z) : bool := Z.testbit (buf !!! Z.to_nat (k / 8)) (k mod 8).

Lemma land_pow2_zero x i : 0 ≤ i → (Z.land x (Z.shiftl 1 i) =? 0) = negb (Z.testbit x i).
Proof.
  intros Hi. destruct (Z.testbit x i) eqn:Hx; simpl.
  - apply Z.eqb_neq. intros H0. pose proof (f_equal (λ y, Z.testbit y i) H0) as Hb. simpl in Hb.
    rewrite Z.land_spec, Hx, testbit_one_shl, Z.eqb_refl in Hb by done.
    by rewrite Z.bits_0 in Hb.
  - apply Z.eqb_eq. apply Z.bits_inj'. intros j Hj. autorewrite with bits.
    destruct (Z.eqb_spec i j) as [<-|]; [by rewrite Hx|]. by rewrite andb_false_r.
Qed.

Lemma find_clear_spec buf lo n : 0 ≤ lo →
  match find_clear buf (seqZ lo n) with
  | Some k => lo ≤ k < lo + n ∧ bit_at buf k = false ∧ ∀ j, lo ≤ j < k → bit_at buf j = true
  | None => ∀ j, lo ≤ j < lo + n → bit_at buf j = true
  end.
Proof.
  intros Hlo. destruct (decide (n ≤ 0)) as [Hn|Hn].
  { rewrite seqZ_nil by done. simpl. lia. }
  replace n with (Z.of_nat (Z.to_nat n)) by lia. generalize (Z.to_nat n). clear n Hn. intros n.
  revert lo Hlo. induction n as [|n IH]; intros lo Hlo; [rewrite seqZ_nil by lia; simpl; lia|].
  rewrite seqZ_cons by lia. cbn [find_clear].
  rewrite land_pow2_zero by (apply Z.mod_pos_bound; lia). fold (bit_at buf lo).
  destruct (bit_at buf lo) eqn:Hb; simpl negb; cbn iota.
  - specialize (IH (Z.succ lo) ltac:(lia)). replace (Z.pred (Z.of_nat (S n))) with (Z.of_nat n) by lia.
    destruct (find_clear buf _) as [k|].
    + destruct IH as (Hk & Hkb & Hmin). split_and!; [lia|lia|done|].
      intros j Hj. destruct (decide (j = lo)) as [->|]; [done|]. apply Hmin. lia.
    + intros j Hj. destruct (decide (j = lo)) as [->|]; [done|]. apply IH. lia.
  - split_and!; [lia|lia|done|lia].
Qed.

Lemma lookup_total_insert_if (buf : list Z) n m x : (n < length buf)%nat →
  <[n := x]> buf !!! m = if decide (m = n) then x else buf !!! m.
Proof.
  intros Hn. destruct (decide (m = n)) as [->|]; [by apply list_lookup_total_insert_eq|].
  by apply list_lookup_total_insert_ne.
Qed.

Lemma bit_at_upd buf k j f : 0 ≤ k < 8 * Z.of_nat (length buf) → 0 ≤ j →
  bit_at (<[Z.to_nat (k / 8) := f]> buf) j =
    if decide (j / 8 = k / 8) then Z.testbit f (j mod 8) else bit_at buf j.
Proof.
  intros Hk Hj. unfold bit_at. rewrite lookup_total_insert_if by (Z.div_mod_to_equations; lia).
  destruct (decide (Z.to_nat (j / 8) = Z.to_nat (k / 8))), (decide (j / 8 = k / 8)); try done.
  all: exfalso; Z.div_mod_to_equations; lia.
Qed.

Lemma bit_at_set buf k j : 0 ≤ k < 8 * Z.of_nat (length buf) → 0 ≤ j →
  bit_at (set_bit buf k) j = bit_at buf j || (j =? k).
Proof.
  intros Hk Hj. unfold set_bit. rewrite bit_at_upd by done.
  pose proof (Z.mod_pos_bound k 8 ltac:(lia)). pose proof (Z.mod_pos_bound j 8 ltac:(lia)).
  destruct (decide (j / 8 = k / 8)) as [Heq|Hne].
  - autorewrite with bits. unfold bit_at. rewrite Heq. f_equal. apply eq_true_iff_eq.
    rewrite !Z.eqb_eq. Z.div_mod_to_equations; lia.
  - destruct (Z.eqb_spec j k) as [->|]; [done|]. by rewrite orb_false_r.
Qed.

Lemma bit_at_clear buf k j : 0 ≤ k < 8 * Z.of_nat (length buf) → 0 ≤ j → Forall is_u8 buf →
  bit_at (clear_bit buf k) j = bit_at buf j && negb (j =? k).
Proof.
  intros Hk Hj Hb. unfold clear_bit. rewrite bit_at_upd by done.
  pose proof (Z.mod_pos_bound k 8 ltac:(lia)). pose proof (Z.mod_pos_bound j 8 ltac:(lia)).
  destruct (decide (j / 8 = k / 8)) as [Heq|Hne].
  - unfold not_w, bit_at. autorewrite with bits. rewrite Heq. f_equal.
    rewrite (proj2 (Z.ltb_lt _ _)) by lia. simpl. f_equal. apply eq_true_iff_eq.
    rewrite !Z.eqb_eq. Z.div_mod_to_equations; lia.
  - destruct (Z.eqb_spec j k) as [->|]; [done|]. by rewrite andb_true_r.
Qed.

Lemma lookup_total_u8 buf n : Forall is_u8 buf → is_u8 (buf !!! n).
Proof.
  intros Hb. rewrite list_lookup_total_alt. destruct (buf !! n) as [x|] eqn:Hn; simpl.
  - by eapply Forall_lookup_1.
  - by split.
Qed.

Lemma set_bit_bytes buf k : 0 ≤ k → Forall is_u8 buf → Forall is_u8 (set_bit buf k).
Proof.
  intros Hk Hb. apply Forall_insert; [done|]. apply in_width_set_bit; [|by apply lookup_total_u8].
  apply Z.mod_pos_bound. lia.
Qed.

Lemma clear_bit_bytes buf k : Forall is_u8 buf → Forall is_u8 (clear_bit buf k).
Proof.
  intros Hb. apply Forall_insert; [done|]. apply in_width_land_l; [lia|by apply lookup_total_u8].
Qed.

(** ** Bitmaps on the disk *)

Section bitmaps.
Context {D : Type} `{HD : BlockDeviceOk D} `{HR : !ReliableDevice D}.
Implicit Types (d : D) (blk : Z).

Definition on_disk d blk : Prop := ∀ k, 0 ≤ k < 8 → is_Some (sector d (blk * 8 + k)).

(** Bit [k] of the bitmap in block [blk]. *)
Definition bitmap d blk (k : Z) : bool :=
  match sector d (blk * 8 + k / 4096) with
  | Some buf => bit_at buf (k mod 4096)
  | None => false
  end.

(** One bit of a bitmap was written, and nothing else on the disk. *)
Definition bit_written d d' blk (k : Z) (b : bool) : Prop :=
  (∀ j, 0 ≤ j → bitmap d' blk j = if decide (j = k) then b else bitmap d blk j) ∧
  (∀ x, x ≠ blk * 8 + k / 4096 → sector d' x = sector d x) ∧
  ∀ x, is_Some (sector d' x) ↔ is_Some (sector d x).

Lemma bitmap_same d d' blk k : same_disk d d' → bitmap d' blk k = bitmap d blk k.
Proof. intros Hd. unfold bitmap. by rewrite Hd. Qed.

Lemma on_disk_same d d' blk : same_disk d d' → on_disk d blk → on_disk d' blk.
Proof. intros Hd Ho k Hk. rewrite Hd. auto. Qed.

Lemma bit_written_same d d1 d' blk k b : same_disk d d1 →
  bit_written d1 d' blk k b → bit_written d d' blk k b.
Proof.
  intros Hd (Hb & Ho & Hs). split_and!.
  - intros j Hj. rewrite Hb by done. by rewrite (bitmap_same d).
  - intros x Hx. rewrite Ho by done. apply Hd.
  - intros x. by rewrite Hs, Hd.
Qed.

(** Writing back a sector of the bitmap with one bit changed. *)
Lemma bit_sector_write d d1 blk k b buf buf' : same_disk d d1 → 0 ≤ k →
  sector d (blk * 8 + k / 4096) = Some buf → length buf' = 512%nat → Forall is_u8 buf' →
  (∀ j, 0 ≤ j → bit_at buf' j = if decide (j = k mod 4096) then b else bit_at buf j) →
  ∃ d', write_sector (blk * 8 + k / 4096) buf' d1 = (Ok tt, d') ∧ bit_written d d' blk k b.
Proof.
  intros Hd Hk Hbuf Hl Hb Hbits.
  destruct (write_sector_ok d1 (blk * 8 + k / 4096) buf' Hl Hb) as (d' & Hw & Hd');
    [rewrite Hd, Hbuf; by eexists|].
  exists d'. split; [done|]. split_and!.
  - intros j Hj. unfold bitmap. rewrite Hd'. destruct (decide (j = k)) as [->|Hne].
    + rewrite decide_True, Hbits, decide_True by (done || apply Z.mod_pos_bound; lia). done.
    + destruct (decide (blk * 8 + j / 4096 = blk * 8 + k / 4096)) as [Heq|]; [|by rewrite Hd].
      rewrite Heq, Hbuf, Hbits by (apply Z.mod_pos_bound; lia).
      rewrite decide_False; [done|]. Z.div_mod_to_equations; lia.
  - intros x Hx. rewrite Hd', decide_False by done. apply Hd.
  - intros x. rewrite Hd'. destruct (decide _) as [->|]; [|by rewrite Hd].
    rewrite Hbuf. by split.
Qed.

Lemma allocate_in_sectors_spec blk start end_ n : ∀ d s,
  on_disk d blk → 0 ≤ start → start / 4096 ≤ s → s + Z.of_nat n ≤ 8 →
  end_ ≤ (s + Z.of_nat n) * 4096 →
  (∀ j, start ≤ j < Z.min end_ (s * 4096) → bitmap d blk j = true) →
  match allocate_in_sectors blk start end_ (seqZ s (Z.of_nat n)) d with
  | (Ok k, d') => start ≤ k < end_ ∧ bitmap d blk k = false ∧
      (∀ j, start ≤ j < k → bitmap d blk j = true) ∧ bit_written d d' blk k true
  | (Err e, d') => e = Fs ∧ same_disk d d' ∧ ∀ j, start ≤ j < end_ → bitmap d blk j = true
  | _ => False
  end.
Proof.
  induction n as [|n IH]; intros d s Ho H0 Hs Hn He Hpre.
  { rewrite seqZ_nil by lia. simpl. split_and!; [done|done|]. intros j Hj. apply Hpre. lia. }
  assert (H0s : 0 ≤ s) by (Z.div_mod_to_equations; lia).
  rewrite seqZ_cons by lia. cbn [allocate_in_sectors]. change SECTORS_PER_BLOCK with 8.
  change (SECTOR_SIZE * 8) with 4096.
  destruct (Ho s ltac:(lia)) as [buf Hbuf]. destruct (sector_len _ _ _ Hbuf) as [Hl Hb8].
  destruct (read_sector_ok d (blk * 8 + s) buf Hbuf) as (d1 & Hr & Hd1).
  rewrite (bind_ok _ _ _ _ _ Hr). set (lo := saturating_sub start (s * 4096)).
  set (hi := Z.min (end_ - s * 4096) 4096).
  assert (Hlo : lo = Z.max 0 (start - s * 4096)) by done.
  assert (Hbit : ∀ j, 0 ≤ j < 4096 → bitmap d blk (s * 4096 + j) = bit_at buf j).
  { intros j Hj. unfold bitmap. replace ((s * 4096 + j) / 4096) with s by (Z.div_mod_to_equations; lia).
    rewrite Hbuf. f_equal. Z.div_mod_to_equations; lia. }
  pose proof (find_clear_spec buf lo (hi - lo) ltac:(lia)) as Hf.
  destruct (find_clear buf (seqZ lo (hi - lo))) as [k|].
  - destruct Hf as (Hk & Hkb & Hmin).
    assert (Hkd : (s * 4096 + k) / 4096 = s ∧ (s * 4096 + k) mod 4096 = k)
      by (Z.div_mod_to_equations; lia).
    destruct (bit_sector_write d d1 blk (s * 4096 + k) true buf (set_bit buf k)) as (d2 & Hw & Hd2);
      [done|lia|by rewrite (proj1 Hkd)|unfold set_bit; by rewrite length_insert
      |apply set_bit_bytes; [lia|done]| |].
    { intros j Hj. rewrite (proj2 Hkd), bit_at_set by lia.
      destruct (decide (j = k)) as [->|]; [by rewrite Z.eqb_refl, orb_true_r|].
      rewrite (proj2 (Z.eqb_neq _ _)) by done. apply orb_false_r. }
    rewrite (proj1 Hkd) in Hw. rewrite (bind_ok _ _ _ _ _ Hw). simpl.
    split_and!; [lia|lia|by rewrite Hbit by lia| |done].
    intros j Hj. destruct (decide (j < s * 4096)); [apply Hpre; lia|].
    replace j with (s * 4096 + (j - s * 4096)) by lia. rewrite Hbit by lia. apply Hmin. lia.
  - replace (Z.pred (Z.of_nat (S n))) with (Z.of_nat n) by lia.
    specialize (IH d1 (Z.succ s) (on_disk_same _ _ _ Hd1 Ho) H0 ltac:(lia) ltac:(lia) ltac:(lia)).
    assert (Hfull : ∀ j, start ≤ j < Z.min end_ (Z.succ s * 4096) → bitmap d1 blk j = true).
    { intros j Hj. rewrite (bitmap_same d) by done.
      destruct (decide (j < s * 4096)); [apply Hpre; lia|].
      replace j with (s * 4096 + (j - s * 4096)) by lia. rewrite Hbit by lia. apply Hf. lia. }
    specialize (IH Hfull). destruct (allocate_in_sectors _ _ _ _ d1) as [[k|e| |] d']; [| |done..].
    + destruct IH as (Hk & Hkb & Hmin & Hw). rewrite (bitmap_same d) in Hkb by done.
      split_and!; [lia|lia|done| |by eapply bit_written_same].
      intros j Hj. rewrite <-(bitmap_same d d1) by done. auto.
    + destruct IH as (-> & Hd & Hall). split_and!; [done|by trans d1|].
      intros j Hj. rewrite <-(bitmap_same d d1) by done. auto.
Qed.

Lemma allocate_bitmap_bit_spec d blk start end_ : on_disk d blk → 0 ≤ start →
  match allocate_bitmap_bit blk start end_ d with
  | (Ok k, d') => start ≤ k < end_ ∧ end_ ≤ 32768 ∧ bitmap d blk k = false ∧
      (∀ j, start ≤ j < k → bitmap d blk j = true) ∧ bit_written d d' blk k true
  | (Err e, d') => e = Fs ∧ same_disk d d' ∧
      (32768 < end_ ∨ ∀ j, start ≤ j < end_ → bitmap d blk j = true)
  | _ => False
  end.
Proof.
  intros Ho H0. unfold allocate_bitmap_bit. change SECTORS_PER_BLOCK with 8.
  change (SECTOR_SIZE * 8) with 4096. cbv zeta. destruct (Z.ltb_spec 8 ((end_ + 4096 - 1) / 4096)).
  { simpl. split_and!; [done|done|]. left. Z.div_mod_to_equations; lia. }
  set (n := (end_ + 4096 - 1) / 4096 - start / 4096).
  replace (seqZ (start / 4096) n) with (seqZ (start / 4096) (Z.of_nat (Z.to_nat n)))
    by (destruct (decide (0 ≤ n)); [f_equal; lia|rewrite !seqZ_nil by lia; done]).
  destruct (decide (n < 0)) as [Hneg|Hpos].
  { rewrite seqZ_nil by lia. simpl. split_and!; [done|done|]. right.
    intros j Hj. exfalso. unfold n in Hneg. Z.div_mod_to_equations; lia. }
  pose proof (allocate_in_sectors_spec blk start end_ (Z.to_nat n) d (start / 4096)) as Ha.
  assert (He : end_ ≤ (start / 4096 + Z.of_nat (Z.to_nat n)) * 4096)
    by (rewrite Z2Nat.id by lia; unfold n; Z.div_mod_to_equations; lia).
  specialize (Ha Ho H0 ltac:(lia) ltac:(lia) He).
  assert (Hpre : ∀ j, start ≤ j < Z.min end_ (start / 4096 * 4096) → bitmap d blk j = true)
    by (intros j Hj; exfalso; Z.div_mod_to_equations; lia).
  specialize (Ha Hpre). destruct (allocate_in_sectors _ _ _ _ d) as [[k|e| |] d']; [| |done..].
  - destruct Ha as (? & ? & ? & ?). split_and!; [lia|lia| |done..]. Z.div_mod_to_equations; lia.
  - destruct Ha as (? & ? & ?). split_and!; [done..|by right].
Qed.

Lemma free_bitmap_bit_spec d blk k : on_disk d blk → 0 ≤ k →
  match free_bitmap_bit blk k d with
  | (Ok _, d') => k < 32768 ∧ bitmap d blk k = true ∧ bit_written d d' blk k false
  | (Err e, d') => e = Fs ∧ same_disk d d' ∧ (32768 ≤ k ∨ bitmap d blk k = false)
  | _ => False
  end.
Proof.
  intros Ho H0. unfold free_bitmap_bit. change SECTORS_PER_BLOCK with 8.
  change (SECTOR_SIZE * 8) with 4096. cbv zeta. destruct (Z.leb_spec 8 (k / 4096)).
  { simpl. split_and!; [done|done|]. left. Z.div_mod_to_equations; lia. }
  destruct (Ho (k / 4096)) as [buf Hbuf]; [Z.div_mod_to_equations; lia|].
  destruct (sector_len _ _ _ Hbuf) as [Hl Hb8].
  destruct (read_sector_ok d _ buf Hbuf) as (d1 & Hr & Hd1). rewrite (bind_ok _ _ _ _ _ Hr).
  rewrite land_pow2_zero by (apply Z.mod_pos_bound; lia).
  assert (Hbit : Z.testbit (buf !!! Z.to_nat (k mod 4096 / 8)) (k mod 8) = bitmap d blk k).
  { unfold bitmap. rewrite Hbuf. unfold bit_at. f_equal. Z.div_mod_to_equations; lia. }
  rewrite Hbit. destruct (bitmap d blk k) eqn:Hk; [|simpl; by auto].
  destruct (bit_sector_write d d1 blk k false buf (clear_bit buf (k mod 4096))) as (d2 & Hw & Hd2);
    [done|done|done|unfold clear_bit; by rewrite length_insert|by apply clear_bit_bytes| |].
  { intros j Hj. rewrite bit_at_clear by (done || Z.div_mod_to_equations; lia).
    destruct (decide (j = k mod 4096)) as [->|]; [by rewrite Z.eqb_refl, andb_false_r|].
    rewrite (proj2 (Z.eqb_neq _ _)) by done. apply andb_true_r. }
  cbn [negb]. rewrite Hw. split_and!; [Z.div_mod_to_equations; lia|done..].
Qed.
End bitmaps.

(** ** Records in sectors

    Inodes and directory entries are records of fixed size that do not cross a
    sector's end. *)

Section records.
Context {D : Type} `{HD : BlockDeviceOk D} `{HR : !ReliableDevice D}.
Implicit Types (d : D) (blk : Z).

Definition record_at d (x off n : Z) : option (list Z) := slice off n <$> sector d x.

(** [bytes] was written at [off] of sector [x], and nothing else. *)
Definition record_written d d' (x off : Z) (bytes : list Z) : Prop :=
  (∃ buf, sector d x = Some buf ∧ sector d' x = Some (splice off bytes buf)) ∧
  (∀ y, y ≠ x → sector d' y = sector d y) ∧
  ∀ y, is_Some (sector d' y) ↔ is_Some (sector d y).

Lemma slice_splice off bytes buf : 0 ≤ off → off + Z.of_nat (length bytes) ≤ Z.of_nat (length buf) →
  slice off (Z.of_nat (length bytes)) (splice off bytes buf) = bytes.
Proof.
  intros H0 Hl. unfold splice. apply slice_app; [rewrite length_take; lia|done].
Qed.

Lemma slice_splice_ne off bytes buf o n : 0 ≤ off → 0 ≤ o → 0 ≤ n →
  off + Z.of_nat (length bytes) ≤ Z.of_nat (length buf) →
  o + n ≤ off ∨ off + Z.of_nat (length bytes) ≤ o →
  slice o n (splice off bytes buf) = slice o n buf.
Proof.
  intros H0 Ho Hn Hl Hd. apply list_eq. intros k. destruct (decide (Z.of_nat k < n)).
  - rewrite <-(Nat2Z.id k), !slice_lookup, splice_lookup by lia.
    destruct (Z.leb_spec off (o + Z.of_nat k)), (Z.ltb_spec (o + Z.of_nat k) (off + Z.of_nat (length bytes)));
      simpl; done || lia.
  - unfold slice. by rewrite !lookup_take_ge by lia.
Qed.

Lemma record_at_written d d' x off bytes : record_written d d' x off bytes →
  0 ≤ off → off + Z.of_nat (length bytes) ≤ 512 →
  record_at d' x off (Z.of_nat (length bytes)) = Some bytes.
Proof.
  intros [(buf & Hb & Hb') _] H0 Hl. unfold record_at. rewrite Hb'. simpl. f_equal.
  destruct (sector_len _ _ _ Hb) as [Hlen _]. apply slice_splice; [done|lia].
Qed.

Lemma record_at_kept d d' x off bytes y o n : record_written d d' x off bytes →
  0 ≤ off → off + Z.of_nat (length bytes) ≤ 512 → 0 ≤ o → 0 ≤ n →
  y ≠ x ∨ o + n ≤ off ∨ off + Z.of_nat (length bytes) ≤ o →
  record_at d' y o n = record_at d y o n.
Proof.
  intros [(buf & Hb & Hb') [Ho _]] H0 Hl Ho' Hn Hd. unfold record_at.
  destruct (decide (y = x)) as [->|Hne]; [|by rewrite Ho].
  rewrite Hb, Hb'. simpl. f_equal. destruct (sector_len _ _ _ Hb) as [Hlen _].
  apply slice_splice_ne; [done..|lia|]. destruct Hd as [|Hd]; [done|lia].
Qed.

Lemma update_record d x off bytes : is_Some (sector d x) → 0 ≤ off →
  off + Z.of_nat (length bytes) ≤ 512 → Forall is_u8 bytes →
  ∃ d', (let! buf := read_sector x in write_sector x (splice off bytes buf)) d = (Ok tt, d') ∧
    record_written d d' x off bytes.
Proof.
  intros [buf Hb] H0 Hl Hu. destruct (sector_len _ _ _ Hb) as [Hlen Hbu].
  destruct (read_sector_ok d x buf Hb) as (d1 & Hr & Hd1). rewrite (bind_ok _ _ _ _ _ Hr).
  destruct (write_sector_ok d1 x (splice off bytes buf)) as (d' & Hw & Hd');
    [rewrite splice_length; lia|by apply splice_bytes|rewrite Hd1, Hb; by eexists|].
  exists d'. split; [done|]. split_and!.
  - exists buf. split; [done|]. by rewrite Hd', decide_True.
  - intros y Hy. rewrite Hd', decide_False by done. apply Hd1.
  - intros y. rewrite Hd'. destruct (decide _) as [->|]; [|by rewrite Hd1].
    rewrite Hb. by split.
Qed.

(** *** The inode table *)

(** The sector of an inode and the offset in it. *)
Definition inode_sector (its inum : Z) : Z := its * 8 + inum / 8.
Definition inode_offset (inum : Z) : Z := inum mod 8 * 64.

Definition disk_inode d (its inum : Z) : option INodeInner :=
  decode_inode <$> record_at d (inode_sector its inum) (inode_offset inum) 64.

Lemma field_slice off n o m bs : 0 ≤ off → 0 ≤ n → 0 ≤ o → off + n ≤ m →
  field off n (slice o m bs) = field off n (drop (Z.to_nat o) bs).
Proof.
  intros H0 Hn Ho Hm. unfold field. f_equal. unfold slice. rewrite skipn_firstn_comm, take_take.
  f_equal. lia.
Qed.

Lemma decode_inode_slice o bs : 0 ≤ o →
  decode_inode (slice o 64 bs) = decode_inode (drop (Z.to_nat o) bs).
Proof.
  intros Ho. unfold decode_inode. rewrite !field_slice by lia. f_equal.
  apply list_fmap_ext. intros j k Hk. apply lookup_seqZ in Hk as [-> Hk].
  rewrite field_slice by lia. done.
Qed.

Lemma decode_dirent_slice o bs : 0 ≤ o →
  decode_dirent (slice o 32 bs) = decode_dirent (drop (Z.to_nat o) bs).
Proof.
  intros Ho. unfold decode_dirent. rewrite !field_slice by lia. f_equal.
  unfold slice. rewrite skipn_firstn_comm, take_take. f_equal.
Qed.

Lemma inode_position its inum : 0 ≤ its → 0 ≤ inum →
  (its * 4096 + inum * 64) / 512 = inode_sector its inum ∧
  (its * 4096 + inum * 64) mod 512 = inode_offset inum.
Proof. unfold inode_sector, inode_offset. intros. Z.div_mod_to_equations; lia. Qed.

Lemma inode_offset_range inum : 0 ≤ inode_offset inum ≤ 448.
Proof. unfold inode_offset. pose proof (Z.mod_pos_bound inum 8). lia. Qed.

Lemma read_inode_from_block_spec d its n i : 0 ≤ its → 0 ≤ n → disk_inode d its n = Some i →
  ∃ d', read_inode_from_block its n d = (Ok i, d') ∧ same_disk d d'.
Proof.
  intros Hi Hn Hd. unfold read_inode_from_block. change INODE_BYTES with 64.
  destruct (inode_position its n Hi Hn) as [-> ->]. unfold disk_inode, record_at in Hd.
  destruct (sector d (inode_sector its n)) as [buf|] eqn:Hb; [|done]. simpl in Hd. injection Hd as <-.
  destruct (read_sector_ok d _ buf Hb) as (d1 & Hr & Hd1). exists d1.
  rewrite (bind_ok _ _ _ _ _ Hr). split; [|done]. unfold ret. do 2 f_equal.
  by rewrite decode_inode_slice by apply inode_offset_range.
Qed.

Lemma write_inode_to_block_spec d its n i : 0 ≤ its → 0 ≤ n → inode_wf i →
  is_Some (sector d (inode_sector its n)) →
  ∃ d', write_inode_to_block its n i d = (Ok tt, d') ∧
    record_written d d' (inode_sector its n) (inode_offset n) (encode_inode i).
Proof.
  intros Hi Hn Hw Hs. unfold write_inode_to_block. change INODE_BYTES with 64.
  change BLOCK_SIZE with 4096. change SECTOR_SIZE with 512.
  destruct (inode_position its n Hi Hn) as [-> ->]. pose proof (encode_inode_length i Hw) as Hl.
  pose proof (inode_offset_range n). rewrite Hl.
  destruct (Z.ltb_spec 512 (inode_offset n + Z.of_nat 64)); [lia|].
  apply update_record; [done|lia|rewrite Hl; lia|apply encode_inode_bytes].
Qed.
End records.

(** ** Directories *)

Section dirs.
Context {D : Type} `{HD : BlockDeviceOk D} `{HR : !ReliableDevice D}.
Implicit Types (d : D) (i : INodeInner) (v : Vsfs D) (e : DirEnt).

Definition entry_name e : list Z := take (Z.to_nat (name_len e)) (name e).

(** Entry [k] of a directory. *)
Definition dir_entry d i (k : Z) : option DirEnt :=
  b ← block_of d i (k * 32 / 4096);
  decode_dirent <$> record_at d (b * 8 + k * 32 mod 4096 / 512) (k * 32 mod 4096 mod 512) 32.

Definition good_entry d i (k : Z) : Prop :=
  0 ≤ k ∧ ∃ e, dir_entry d i k = Some e ∧ name_len e ≤ 27.

(** A directory of [n] entries. *)
Definition dir_ok d i (n : Z) : Prop :=
  ty i = TDirectory ∧ 0 ≤ n ∧ sz i = n * 32 ∧ blocks_ok d i ∧ ∀ k, 0 ≤ k < n → good_entry d i k.

Definition entries d i (n : Z) : list DirEnt := omap (dir_entry d i) (seqZ 0 n).

(** The first entry with a name. *)
Definition find_name (path : list Z) (es : list DirEnt) : option DirEnt :=
  snd <$> list_find (λ e, entry_name e = path) es.

Lemma find_name_cons path e es : find_name path (e :: es) =
  if decide (entry_name e = path) then Some e else find_name path es.
Proof.
  unfold find_name. simpl. destruct (decide _); [done|].
  destruct (list_find _ es) as [[]|]; done.
Qed.

Lemma decode_name_length bs : (32 ≤ length bs)%nat → length (name (decode_dirent bs)) = 27%nat.
Proof. intros Hl. cbn [name decode_dirent]. rewrite slice_length; lia. Qed.

Lemma dir_entry_same d d' i k : same_disk d d' → dir_entry d' i k = dir_entry d i k.
Proof.
  intros Hd. unfold dir_entry, record_at.
  rewrite (block_of_proper d d' Hd i i eq_refl _ _ eq_refl).
  destruct (block_of d' i (k * 32 / 4096)); simpl; [|done]. by rewrite Hd.
Qed.

Lemma lookup_entries_spec i path idxs : ∀ v,
  blocks_ok (device v) i → Forall (good_entry (device v) i) idxs →
  ∃ d', same_disk (device v) d' ∧ lookup_entries i path idxs v =
    match find_name path (omap (dir_entry (device v) i) idxs) with
    | Some e => read_inode (d_inum e) (set_device d' v)
    | None => (Err VfsNotFound, set_device d' v)
    end.
Proof.
  induction idxs as [|k idxs IH]; intros v Hb Hg.
  { exists (device v). split; [done|]. by destruct v. }
  apply Forall_cons in Hg as [(H0 & e & He & Hn) Hg]. cbn [lookup_entries omap list_omap].
  rewrite He, find_name_cons. change DIRENT_BYTES with 32. change BLOCK_SIZE with 4096.
  change SECTOR_SIZE with 512. change SECTORS_PER_BLOCK with 8. cbv zeta.
  unfold dir_entry in He.
  destruct (data_block_spec (device v) i (k * 32 / 4096) Hb) as (d1 & Hd1 & Hdb);
    [Z.div_mod_to_equations; lia|].
  destruct (block_of (device v) i (k * 32 / 4096)) as [b|] eqn:Hbo; [|done]. simpl in He.
  unfold record_at in He. destruct (sector (device v) _) as [buf|] eqn:Hs; [|done].
  simpl in He. injection He as He. destruct (sector_len _ _ _ Hs) as [Hbl _].
  destruct (read_sector_ok d1 (b * 8 + k * 32 mod 4096 / 512) buf) as (d2 & Hr & Hd2);
    [by rewrite Hd1|].
  unfold io, zoom. unfold bind at 1. rewrite Hdb. unfold bind at 1. cbn [device set_device]. rewrite Hr.
  rewrite <-decode_dirent_slice, He by (apply Z.mod_pos_bound; lia).
  assert (length (name e) = 27%nat) as ->.
  { rewrite <-He. apply decode_name_length. rewrite slice_length; [lia| |lia|];
      pose proof (Z.mod_pos_bound (k * 32 mod 4096) 512); Z.div_mod_to_equations; lia. }
  destruct (Z.ltb_spec (Z.of_nat 27) (name_len e)); [lia|].
  assert (Hd : same_disk (device v) d2) by (by trans d1).
  change (take (Z.to_nat (name_len e)) (name e)) with (entry_name e).
  destruct (decide (entry_name e = path)); [exists d2; by split|].
  destruct (IH (set_device d2 (set_device d1 v))) as (d' & Hd' & Hl).
  - by eapply blocks_ok_same.
  - eapply Forall_impl; [exact Hg|]. intros j (? & e' & ? & ?). split; [done|]. exists e'.
    by rewrite (dir_entry_same (device v)).
  - exists d'. split; [by trans d2|]. rewrite Hl. cbn [device set_device].
    replace (omap (dir_entry d2 i) idxs) with (omap (dir_entry (device v) i) idxs); [done|].
    apply list_omap_ext, Forall_Forall2_diag, Forall_forall. intros j _. symmetry.
    by apply dir_entry_same.
Qed.

Lemma lookup_path_inner_spec i path n v : dir_ok (device v) i n →
  ∃ d', same_disk (device v) d' ∧ lookup_path_inner i path v =
    match find_name path (entries (device v) i n) with
    | Some e => read_inode (d_inum e) (set_device d' v)
    | None => (Err VfsNotFound, set_device d' v)
    end.
Proof.
  intros (Hty & H0 & Hsz & Hb & Hg). unfold lookup_path_inner. rewrite Hty, Hsz.
  change DIRENT_BYTES with 32. rewrite Z.mod_mul, Z.div_mul by lia. simpl.
  apply lookup_entries_spec; [done|]. apply Forall_forall. intros k Hk%elem_of_seqZ. apply Hg. lia.
Qed.

(** *** The inode cache *)

Lemma read_inode_cached n v node : inode_cache v !! n = Some node →
  read_inode n v = (Ok node, v).
Proof. intros Hc. unfold read_inode, bind, gets. by rewrite Hc. Qed.

Lemma read_inode_miss n v i : inode_cache v !! n = None →
  0 ≤ inode_table_start (superblock v) → 0 ≤ n →
  disk_inode (device v) (inode_table_start (superblock v)) n = Some i →
  ∃ d', same_disk (device v) d' ∧ read_inode n v =
    (Ok (mkINode n (next_loc v)),
     mkVsfs d' (superblock v) (<[n := mkINode n (next_loc v)]> (inode_cache v))
       (<[next_loc v := i]> (heap v)) (next_loc v + 1)).
Proof.
  intros Hc Ht Hn Hi.
  destruct (read_inode_from_block_spec (device v) _ n i Ht Hn Hi) as (d1 & Hr & Hd1).
  exists d1. split; [done|]. unfold read_inode, bind, gets, io, zoom, alloc_inner, modify. rewrite Hc, Hr.
  cbn. by rewrite Hc.
Qed.
End dirs.
