(* ===== verification/VsfsCreate.v ===== *)
(** * VSFS: creating a file

    [Vsfs::create_file] on a reliable disk does all of its work or none of it
    ([vsfs/src/lib.rs]): the new entry is the directory's last and the old ones
    stay, the new inode is one that was free, and a failure leaves both bitmaps
    as they were.  The model is in Vsfs. *)

From S2P Require Import Prelude Errors Vfs Vsfs VsfsIO VsfsDir.

Section create.
Context {D : Type} `{HD : BlockDeviceOk D} `{HR : !ReliableDevice D}.
Implicit Types (d : D) (i : INodeInner) (v : Vsfs D) (sb : SuperBlock) (p : INode).

(** ** The layout of a filesystem *)

(** The bitmaps, the inode table and the data blocks do not overlap. *)
Record layout_ok sb : Prop := {
  lo_bitmaps : 0 ≤ inode_bitmap_block sb < data_block_start sb ∧
    0 ≤ data_bitmap_block sb < data_block_start sb ∧
    inode_bitmap_block sb ≠ data_bitmap_block sb;
  lo_table : 0 ≤ inode_table_start sb ∧ 0 ≤ inode_table_blocks sb ∧
    inode_table_start sb + inode_table_blocks sb ≤ data_block_start sb ∧
    ¬ inode_table_start sb ≤ inode_bitmap_block sb < inode_table_start sb + inode_table_blocks sb ∧
    ¬ inode_table_start sb ≤ data_bitmap_block sb < inode_table_start sb + inode_table_blocks sb;
  lo_inodes : 0 ≤ ninodes sb ≤ inode_table_blocks sb * 64 ∧ ninodes sb < 2 ^ 32;
  lo_data : data_block_start sb ≤ nblocks sb < 2 ^ 32;
}.

Definition fs_ok sb d : Prop := layout_ok sb ∧ ∀ x, 0 ≤ x < nblocks sb * 8 → is_Some (sector d x).

(** A block of the data area that is marked as used. *)
Definition used_block sb d (b : Z) : Prop :=
  data_block_start sb ≤ b < nblocks sb ∧ b - data_block_start sb < 32768 ∧
  bitmap d (data_bitmap_block sb) (b - data_block_start sb) = true.

(** A directory of [n] entries in used blocks of its own, none of them behind
    the indirect pointer. *)
Definition directory sb d i (n : Z) : Prop :=
  dir_ok d i n ∧ inode_wf i ∧ indirect_block i = 0 ∧ blocks_distinct d i ∧
  ∀ lb b, 0 ≤ lb → block_of d i lb = Some b → used_block sb d b.

Lemma block_of_direct d i lb : 0 ≤ lb < 12 →
  block_of d i lb = b ← direct_blocks i !! Z.to_nat lb; if b =? 0 then None else Some b.
Proof. intros Hlb. unfold block_of. by rewrite (proj2 (Z.ltb_lt _ _)) by lia. Qed.

Lemma block_of_none d i lb : indirect_block i = 0 → 12 ≤ lb → block_of d i lb = None.
Proof.
  intros Hi Hlb. unfold block_of. rewrite (proj2 (Z.ltb_ge _ _)) by lia.
  by rewrite Hi, orb_true_r.
Qed.

(** Without an indirect block the block map is in the inode alone. *)
Lemma block_of_any d d' i lb : indirect_block i = 0 → 0 ≤ lb → block_of d' i lb = block_of d i lb.
Proof.
  intros Hi Hlb. destruct (decide (lb < 12)); [by rewrite !block_of_direct by lia|].
  by rewrite !block_of_none by (done || lia).
Qed.

(** ** The steps of [create_file] *)

Lemma bitmap_kept d d' blk j : 0 ≤ j < 32768 →
  (∀ k, 0 ≤ k < 8 → sector d' (blk * 8 + k) = sector d (blk * 8 + k)) →
  bitmap d' blk j = bitmap d blk j.
Proof.
  intros Hj Hk. unfold bitmap. rewrite Hk; [done|]. Z.div_mod_to_equations; lia.
Qed.

Lemma allocate_data_block_spec v : fs_ok (superblock v) (device v) →
  let sb := superblock v in
  let bit b := b - data_block_start sb in
  match allocate_data_block v with
  | (Ok b, v') => ∃ d', v' = set_device d' v ∧
      data_block_start sb ≤ b < nblocks sb ∧ bit b < 32768 ∧
      bitmap (device v) (data_bitmap_block sb) (bit b) = false ∧
      bit_written (device v) d' (data_bitmap_block sb) (bit b) true
  | (Err e, v') => ∃ d', v' = set_device d' v ∧ e = Fs ∧ same_disk (device v) d' ∧
      (32768 < bit (nblocks sb) ∨ ∀ b, data_block_start sb ≤ b < nblocks sb →
         bitmap (device v) (data_bitmap_block sb) (bit b) = true)
  | _ => False
  end.
Proof.
  intros [[(Hib & Hdb & _) _ _ [Hn Hn']] Hd] sb bit. fold sb in Hdb, Hn, Hn', Hd.
  unfold allocate_data_block, bind, gets, io, zoom, lift. fold sb.
  unfold sub_ov, checked_sub. rewrite (proj2 (Z.leb_le _ _)) by lia. cbn [unwrap].
  pose proof (allocate_bitmap_bit_spec (device v) (data_bitmap_block sb) 0
    (nblocks sb - data_block_start sb)) as Ha.
  assert (Ho : on_disk (device v) (data_bitmap_block sb)) by (intros k Hk; apply Hd; lia).
  specialize (Ha Ho ltac:(lia)).
  destruct (allocate_bitmap_bit _ _ _ (device v)) as [[k|e| |] d']; [| |done..].
  - destruct Ha as (Hk & Hlim & Hkb & _ & Hw). unfold add_ov, checked_add.
    rewrite (proj2 (Z.ltb_lt _ _)) by lia. cbn [unwrap]. exists d'. unfold bit.
    replace (data_block_start sb + k - data_block_start sb) with k by lia.
    split_and!; [done|lia|lia|lia|done|done].
  - destruct Ha as (-> & Hsame & Hall). exists d'. split_and!; [done|done|done|].
    destruct Hall as [|Hall]; [by left|right]. intros b Hb. apply Hall. unfold bit. lia.
Qed.

Lemma allocate_inode_spec v : fs_ok (superblock v) (device v) →
  let sb := superblock v in
  match allocate_inode v with
  | (Ok n, v') => ∃ d', v' = set_device d' v ∧ 1 ≤ n < ninodes sb ∧ n < 32768 ∧
      bitmap (device v) (inode_bitmap_block sb) n = false ∧
      bit_written (device v) d' (inode_bitmap_block sb) n true
  | (Err e, v') => ∃ d', v' = set_device d' v ∧ e = Fs ∧ same_disk (device v) d' ∧
      (32768 < ninodes sb ∨ ∀ n, 1 ≤ n < ninodes sb →
         bitmap (device v) (inode_bitmap_block sb) n = true)
  | _ => False
  end.
Proof.
  intros [[(Hib & Hdb & _) _ _ [Hn Hn']] Hd] sb. fold sb in Hib, Hn, Hn', Hd.
  unfold allocate_inode, bind, gets, io, zoom. fold sb.
  pose proof (allocate_bitmap_bit_spec (device v) (inode_bitmap_block sb) 1 (ninodes sb)) as Ha.
  assert (Ho : on_disk (device v) (inode_bitmap_block sb)) by (intros k Hk; apply Hd; lia).
  specialize (Ha Ho ltac:(lia)).
  destruct (allocate_bitmap_bit _ _ _ (device v)) as [[k|e| |] d']; [| |done..].
  - destruct Ha as (Hk & Hlim & Hkb & _ & Hw). exists d'. split_and!; [done|lia|lia|lia|done|done].
  - destruct Ha as (-> & Hsame & Hall). exists d'. by split_and!.
Qed.

Lemma fs_ok_kept sb d d' : (∀ x, is_Some (sector d' x) ↔ is_Some (sector d x)) →
  fs_ok sb d → fs_ok sb d'.
Proof. intros Hd [Hl Hs]. split; [done|]. intros x Hx. apply Hd, Hs, Hx. Qed.

(** What the three writes of [install_file] leave on the disk. *)
Record installed sb d d' (pn new blk boff : Z) (up : INodeInner) (e : DirEnt) : Prop := {
  in_data x : data_block_start sb * 8 ≤ x → x ≠ blk * 8 + boff / 512 → sector d' x = sector d x;
  in_slot o : 0 ≤ o → o + 32 ≤ boff mod 512 ∨ boff mod 512 + 32 ≤ o →
    record_at d' (blk * 8 + boff / 512) o 32 = record_at d (blk * 8 + boff / 512) o 32;
  in_entry : record_at d' (blk * 8 + boff / 512) (boff mod 512) 32 = Some (encode_dirent e);
  in_parent : disk_inode d' (inode_table_start sb) pn = Some up;
  in_new : disk_inode d' (inode_table_start sb) new = Some empty_file;
  in_inodes n : 0 ≤ n < inode_table_blocks sb * 64 → n ≠ pn → n ≠ new →
    disk_inode d' (inode_table_start sb) n = disk_inode d (inode_table_start sb) n;
  in_bitmaps j blk' : 0 ≤ j < 32768 →
    blk' = inode_bitmap_block sb ∨ blk' = data_bitmap_block sb → bitmap d' blk' j = bitmap d blk' j;
  in_range x : is_Some (sector d' x) ↔ is_Some (sector d x);
}.

Lemma disk_inode_written d d' its n i : inode_wf i →
  record_written d d' (inode_sector its n) (inode_offset n) (encode_inode i) →
  disk_inode d' its n = Some i.
Proof.
  intros Hw Hr. pose proof (inode_offset_range n). pose proof (encode_inode_length i Hw) as Hl.
  pose proof (record_at_written _ _ _ _ _ Hr ltac:(lia) ltac:(rewrite Hl; lia)) as Hra.
  rewrite Hl in Hra. unfold disk_inode. change 64 with (Z.of_nat 64). rewrite Hra. simpl. f_equal.
  rewrite <-(app_nil_r (encode_inode i)). by apply decode_encode_inode_app.
Qed.

Lemma disk_inode_kept d d' its n m i : inode_wf i → 0 ≤ n → 0 ≤ m → n ≠ m →
  record_written d d' (inode_sector its n) (inode_offset n) (encode_inode i) →
  disk_inode d' its m = disk_inode d its m.
Proof.
  intros Hw Hn Hm Hne Hr. pose proof (inode_offset_range n). pose proof (inode_offset_range m).
  pose proof (encode_inode_length i Hw) as Hl. unfold disk_inode. f_equal.
  apply (record_at_kept _ _ _ _ _ _ _ _ Hr); [lia|rewrite Hl; lia|lia|lia|]. rewrite Hl.
  unfold inode_sector, inode_offset. destruct (decide (n / 8 = m / 8)); [right|left; lia].
  Z.div_mod_to_equations; lia.
Qed.

Lemma disk_inode_away d d' its m x : 0 ≤ m → (∀ y, y ≠ x → sector d' y = sector d y) →
  x ≠ inode_sector its m → disk_inode d' its m = disk_inode d its m.
Proof. intros Hm Ho Hx. unfold disk_inode, record_at. by rewrite Ho. Qed.

Lemma record_at_same d d' x o n : sector d' x = sector d x → record_at d' x o n = record_at d x o n.
Proof. intros Hx. unfold record_at. by rewrite Hx. Qed.

Lemma writes_installed sb d d3 d4 d5 pn new blk boff up e :
  layout_ok sb → inode_wf up → dirent_wf e → 0 ≤ pn < ninodes sb → 0 ≤ new < ninodes sb → pn ≠ new →
  data_block_start sb ≤ blk → 0 ≤ boff < 4096 → boff mod 32 = 0 →
  record_written d d3 (inode_sector (inode_table_start sb) new) (inode_offset new)
    (encode_inode empty_file) →
  record_written d3 d4 (blk * 8 + boff / 512) (boff mod 512) (encode_dirent e) →
  record_written d4 d5 (inode_sector (inode_table_start sb) pn) (inode_offset pn) (encode_inode up) →
  installed sb d d5 pn new blk boff up e.
Proof.
  intros [(? & ? & ?) (? & ? & ? & ? & ?) [? ?] ?] Hup He Hpn Hnew Hne Hblk Hboff Hb32 R3 R4 R5.
  pose proof R3 as (_ & K3 & I3). pose proof R4 as (_ & K4 & I4). pose proof R5 as (_ & K5 & I5).
  pose proof (encode_dirent_length e He) as Hle. set (its := inode_table_start sb) in *.
  set (x := blk * 8 + boff / 512) in *.
  assert (Hsec : ∀ n, 0 ≤ n < inode_table_blocks sb * 64 → its * 8 ≤ inode_sector its n < (its + inode_table_blocks sb) * 8)
    by (intros n Hn; unfold inode_sector; Z.div_mod_to_equations; lia).
  pose proof (Hsec pn ltac:(lia)). pose proof (Hsec new ltac:(lia)).
  assert (Hx : data_block_start sb * 8 ≤ x) by (unfold x; Z.div_mod_to_equations; lia).
  assert (0 ≤ boff mod 512 ∧ boff mod 512 + 32 ≤ 512) by (Z.div_mod_to_equations; lia).
  split; fold its x.
  - intros y Hy Hyx. rewrite K5, K4, K3; [done|lia..].
  - intros o Ho Hd. rewrite (record_at_same d4 d5) by (apply K5; lia).
    rewrite (record_at_kept _ _ _ _ _ _ _ _ R4) by (rewrite ?Hle; lia).
    apply record_at_same, K3. lia.
  - rewrite (record_at_same d4 d5) by (apply K5; lia).
    rewrite <-(record_at_written _ _ _ _ _ R4) by (rewrite ?Hle; lia). by rewrite Hle.
  - by apply (disk_inode_written d4).
  - rewrite (disk_inode_kept d4 d5 its pn new up) by (done || lia).
    rewrite (disk_inode_away d3 d4 its new x) by (done || lia).
    apply (disk_inode_written d); [apply empty_file_wf|done].
  - intros n Hn Hnp Hnn. specialize (Hsec n Hn).
    rewrite (disk_inode_kept d4 d5 its pn n up) by (done || lia).
    rewrite (disk_inode_away d3 d4 its n x) by (done || lia).
    apply (disk_inode_kept _ _ _ new _ empty_file); [apply empty_file_wf|lia|lia|lia|done].
  - intros j b Hj Hb. apply bitmap_kept; [done|]. intros k Hk. rewrite K5, K4, K3; [done|lia..].
  - intros y. by rewrite I5, I4, I3.
Qed.

Lemma write_dirent_spec d blk boff e : dirent_wf e → 0 ≤ boff < 4096 → boff mod 32 = 0 →
  is_Some (sector d (blk * 8 + boff / 512)) →
  ∃ d', write_dirent blk boff e d = (Ok tt, d') ∧
    record_written d d' (blk * 8 + boff / 512) (boff mod 512) (encode_dirent e).
Proof.
  intros He Hb Hb32 Hs. unfold write_dirent. change SECTOR_SIZE with 512.
  change SECTORS_PER_BLOCK with 8. pose proof (encode_dirent_length e He) as Hl. rewrite Hl.
  assert (0 ≤ boff mod 512 ∧ boff mod 512 + 32 ≤ 512 ∧ boff / 512 < 8)
    by (Z.div_mod_to_equations; lia).
  destruct (Z.leb_spec 8 (boff / 512)); [lia|].
  destruct (Z.ltb_spec 512 (boff mod 512 + Z.of_nat 32)); [lia|]. simpl.
  apply update_record; [done|lia|rewrite Hl; lia|by apply encode_dirent_bytes].
Qed.

Definition new_entry (new : Z) (nm : list Z) : DirEnt :=
  mkDirEnt new (Z.of_nat (length nm)) (padded_name nm).

Lemma new_entry_wf new nm : is_u32 new → Forall is_u8 nm → (length nm ≤ 27)%nat →
  dirent_wf (new_entry new nm).
Proof.
  intros Hn Hb Hl. split; cbn [d_inum name_len name new_entry]; [done|unfold in_width; lia|].
  unfold padded_name. rewrite length_app, length_replicate, Forall_app. split_and!; [lia|done|].
  apply Forall_replicate. by split.
Qed.

(** [install_file] succeeds. *)
Lemma install_file_spec v p nm new bidx boff orig up allocated blk :
  fs_ok (superblock v) (device v) → inode_wf up → Forall is_u8 nm → (length nm ≤ 27)%nat →
  0 ≤ inum p < ninodes (superblock v) → 0 ≤ new < ninodes (superblock v) → inum p ≠ new →
  direct_blocks up !! Z.to_nat bidx = Some blk →
  data_block_start (superblock v) ≤ blk < nblocks (superblock v) → 0 ≤ boff < 4096 → boff mod 32 = 0 →
  ∃ d', install_file p nm new bidx boff orig up allocated v =
    (Ok (mkINode new (next_loc v)),
     mkVsfs d' (superblock v) (<[new := mkINode new (next_loc v)]> (inode_cache v))
       (<[next_loc v := empty_file]> (<[inner p := up]> (heap v))) (next_loc v + 1)) ∧
    installed (superblock v) (device v) d' (inum p) new blk boff up (new_entry new nm).
Proof.
  intros [Hl Hd] Hup Hnm Hlen Hp Hnew Hne Hblk Hrng Hb Hb32. pose proof Hl as [_ (Ht0 & Htb & Ht & _) [Hin Hin'] Hnb].
  set (sb := superblock v) in *. set (its := inode_table_start sb) in *.
  assert (Hsec : ∀ n, 0 ≤ n < ninodes sb → 0 ≤ inode_sector its n < nblocks sb * 8)
    by (intros n Hn; unfold inode_sector; Z.div_mod_to_equations; lia).
  assert (He : dirent_wf (new_entry new nm)) by (apply new_entry_wf; [unfold in_width; lia|done..]).
  destruct (write_inode_to_block_spec (device v) its new empty_file) as (d3 & W3 & R3);
    [lia|lia|apply empty_file_wf|apply Hd, Hsec; lia|].
  destruct (write_dirent_spec d3 blk boff (new_entry new nm)) as (d4 & W4 & R4);
    [done..|apply R3, Hd; Z.div_mod_to_equations; lia|].
  destruct (write_inode_to_block_spec d4 its (inum p) up) as (d5 & W5 & R5);
    [lia|lia|done|apply R4, R3, Hd, Hsec; lia|].
  exists d5. split; [|apply (writes_installed sb _ d3 d4); done || lia].
  unfold install_file, bind, gets, attempt, io, zoom, lift, modify, alloc_inner. fold sb its.
  rewrite W3, Hblk. cbn [unwrap device set_device]. rewrite Z.mod_small by lia.
  fold (new_entry new nm). rewrite W4. cbn [device set_device]. by rewrite W5.
Qed.

(** ** The directory afterwards *)

(** Between the state [d] before and [d2], a block for entry [n] of directory
    [i] and an inode were reserved; [up] is the updated directory. *)
Record reserved sb d d2 i up (n blk : Z) : Prop := {
  rs_wf : inode_wf up;
  rs_ty : ty up = TDirectory;
  rs_sz : sz up = (n + 1) * 32;
  rs_indirect : indirect_block up = 0;
  rs_idx : 0 ≤ n * 32 / 4096 < 12;
  rs_direct : direct_blocks up = <[Z.to_nat (n * 32 / 4096) := blk]> (direct_blocks i);
  rs_fresh : direct_blocks i !! Z.to_nat (n * 32 / 4096) = Some blk ∨
    direct_blocks i !! Z.to_nat (n * 32 / 4096) = Some 0 ∧ ¬ used_block sb d blk;
  rs_used : used_block sb d2 blk;
  rs_data x : data_block_start sb * 8 ≤ x → sector d2 x = sector d x;
  rs_bits b : used_block sb d b → used_block sb d2 b;
}.

Lemma reserved_block_of sb d d2 d' i up n blk lb : fs_ok sb d → directory sb d i n →
  reserved sb d d2 i up n blk → 0 ≤ lb →
  block_of d' up lb = if decide (lb = n * 32 / 4096) then Some blk else block_of d i lb.
Proof.
  intros [[(? & ? & ?) _ _ _] _] (_ & Hiw & Hind & _) Hr Hlb.
  destruct (decide (lb < 12)); cycle 1.
  { pose proof (rs_idx _ _ _ _ _ _ _ Hr).
    rewrite decide_False by lia. rewrite !block_of_none; [done|done|lia|apply Hr|lia]. }
  destruct (iw_direct _ Hiw) as [Hlen _]. pose proof (rs_idx _ _ _ _ _ _ _ Hr) as Hidx.
  rewrite !block_of_direct, (rs_direct _ _ _ _ _ _ _ Hr) by lia.
  destruct (decide (lb = n * 32 / 4096)) as [->|Hne].
  - rewrite list_lookup_insert_eq by lia. simpl.
    destruct (rs_used _ _ _ _ _ _ _ Hr) as [? _]. by rewrite (proj2 (Z.eqb_neq _ _)) by lia.
  - by rewrite list_lookup_insert_ne by lia.
Qed.

(** The new block is the block of entry [n] and of no other. *)
Lemma reserved_apart sb d d2 i up n blk lb b : fs_ok sb d → directory sb d i n →
  reserved sb d d2 i up n blk → 0 ≤ lb → block_of d i lb = Some b →
  b = blk ↔ lb = n * 32 / 4096.
Proof.
  intros Hfs Hdir Hr Hlb Hb. pose proof Hdir as (_ & Hiw & Hind & [Hdist _] & Hused).
  pose proof (rs_idx _ _ _ _ _ _ _ Hr) as Hidx. pose proof Hfs as [[(? & ? & ?) _ _ _] _].
  destruct (rs_used _ _ _ _ _ _ _ Hr) as [Hrng _].
  destruct (rs_fresh _ _ _ _ _ _ _ Hr) as [Hsame|[Hz Hnu]].
  - assert (Hbn : block_of d i (n * 32 / 4096) = Some blk).
    { rewrite block_of_direct, Hsame by lia. simpl. by rewrite (proj2 (Z.eqb_neq _ _)) by lia. }
    split; [intros ->; eapply Hdist; [lia|lia|done..]|intros ->; congruence].
  - split.
    + intros ->. exfalso. by eapply Hnu, Hused.
    + intros ->. exfalso. by rewrite block_of_direct, Hz in Hb by lia.
Qed.

Lemma old_entry_kept sb d d2 d5 i up n blk pn new e k : fs_ok sb d → directory sb d i n →
  reserved sb d d2 i up n blk → installed sb d2 d5 pn new blk (n * 32 mod 4096) up e →
  0 ≤ k < n → dir_entry d5 up k = dir_entry d i k.
Proof.
  intros Hfs Hdir Hr Hin Hk. pose proof Hdir as ((_ & _ & _ & _ & Hg) & _ & _ & _ & Hused).
  destruct (Hg k Hk) as (_ & e0 & He0 & _). unfold dir_entry in He0 |- *.
  assert (Hlb : 0 ≤ k * 32 / 4096) by (Z.div_mod_to_equations; lia).
  destruct (block_of d i (k * 32 / 4096)) as [b|] eqn:Hb; [|done].
  rewrite (reserved_block_of sb d d2 d5 i up n blk) by done.
  pose proof (reserved_apart sb d d2 i up n blk _ b Hfs Hdir Hr Hlb Hb) as Hap.
  destruct (Hused _ b Hlb Hb) as [Hrng _].
  set (lb := k * 32 / 4096) in *. set (o := k * 32 mod 4096 mod 512).
  assert (0 ≤ o) by (apply Z.mod_pos_bound; lia).
  assert (Hx : data_block_start sb * 8 ≤ b * 8 + k * 32 mod 4096 / 512)
    by (Z.div_mod_to_equations; lia).
  replace (if decide (lb = n * 32 / 4096) then Some blk else block_of d i lb) with (Some b)
    by (destruct (decide _) as [Heq|]; [f_equal; by apply Hap|done]).
  simpl. f_equal. etrans; [|apply record_at_same, (rs_data _ _ _ _ _ _ _ Hr), Hx].
  destruct (decide (b * 8 + k * 32 mod 4096 / 512 = blk * 8 + n * 32 mod 4096 / 512)) as [Heq|Hne].
  - rewrite Heq. apply (in_slot _ _ _ _ _ _ _ _ _ Hin); [done|].
    assert (b = blk) by (Z.div_mod_to_equations; lia).
    assert (lb = n * 32 / 4096) by (by apply Hap). unfold o, lb in *. Z.div_mod_to_equations; lia.
  - apply record_at_same, (in_data _ _ _ _ _ _ _ _ _ Hin); [done|lia].
Qed.

Lemma new_entry_read sb d d2 d5 i up n blk pn new e : fs_ok sb d → directory sb d i n →
  reserved sb d d2 i up n blk → installed sb d2 d5 pn new blk (n * 32 mod 4096) up e →
  dirent_wf e → dir_entry d5 up n = Some e.
Proof.
  intros Hfs Hdir Hr Hin He. unfold dir_entry.
  rewrite (reserved_block_of sb d d2 d5 i up n blk) by (done || apply Hr).
  rewrite decide_True by done. simpl. rewrite (in_entry _ _ _ _ _ _ _ _ _ Hin). simpl. f_equal.
  rewrite <-(app_nil_r (encode_dirent e)). by apply decode_encode_dirent_app.
Qed.

Lemma used_block_installed sb d2 d5 pn new blk boff up e b :
  installed sb d2 d5 pn new blk boff up e → used_block sb d2 b → used_block sb d5 b.
Proof.
  intros Hin (Hb & Hl & Hbit). split_and!; [lia|lia|done|].
  by rewrite (in_bitmaps _ _ _ _ _ _ _ _ _ Hin) by (lia || auto).
Qed.

Lemma directory_grown sb d d2 d5 i up n blk pn new e : fs_ok sb d → fs_ok sb d5 →
  directory sb d i n → reserved sb d d2 i up n blk →
  installed sb d2 d5 pn new blk (n * 32 mod 4096) up e → dirent_wf e → name_len e ≤ 27 →
  directory sb d5 up (n + 1) ∧ entries d5 up (n + 1) = entries d i n ++ [e].
Proof.
  intros Hfs Hfs5 Hdir Hr Hin He Hnl. pose proof Hdir as ((Hty & Hn & Hsz & Hb & Hg) & _ & _ & _ & Hused).
  assert (Hbo := λ lb, reserved_block_of sb d d2 d5 i up n blk lb Hfs Hdir Hr).
  assert (Hap := λ lb b, reserved_apart sb d d2 i up n blk lb b Hfs Hdir Hr).
  assert (Hold := λ k, old_entry_kept sb d d2 d5 i up n blk pn new e k Hfs Hdir Hr Hin).
  pose proof (new_entry_read sb d d2 d5 i up n blk pn new e Hfs Hdir Hr Hin He) as Hnew.
  assert (Hused5 : ∀ lb b, 0 ≤ lb → block_of d5 up lb = Some b → used_block sb d5 b).
  { intros lb b Hlb. rewrite Hbo by done. intros Hb'. eapply used_block_installed; [exact Hin|].
    destruct (decide _); [injection Hb' as <-; apply Hr|]. by eapply (rs_bits _ _ _ _ _ _ _ Hr), Hused. }
  split; [split_and!|].
  - split_and!; [apply Hr|lia|rewrite (rs_sz _ _ _ _ _ _ _ Hr); lia| |].
    + split_and!; [apply (iw_direct _ (rs_wf _ _ _ _ _ _ _ Hr))| |].
      * by rewrite (rs_indirect _ _ _ _ _ _ _ Hr).
      * intros lb b Hlb Hb' k Hk. destruct (Hused5 lb b Hlb Hb') as [? _].
        destruct Hfs5 as [[(? & ? & ?) _ _ _] Hs]. apply Hs. lia.
    + intros k Hk. split; [lia|]. destruct (decide (k = n)) as [->|]; [by exists e|].
      destruct (Hg k ltac:(lia)) as (_ & e0 & ? & ?). exists e0. by rewrite Hold by lia.
  - apply Hr.
  - apply Hr.
  - split; [|by rewrite (rs_indirect _ _ _ _ _ _ _ Hr)].
    intros lb lb' b Hlb Hlb'. rewrite !Hbo by done. intros E1 E2.
    destruct (decide (lb = n * 32 / 4096)) as [->|H1], (decide (lb' = n * 32 / 4096)) as [->|H2].
    + done.
    + injection E1 as ->. by apply (Hap lb') in E2 as [E2 _]; [rewrite E2|done].
    + injection E2 as ->. by apply (Hap lb) in E1 as [E1 _]; [apply E1|done].
    + pose proof Hdir as (_ & _ & _ & [Hdist _] & _). by eapply Hdist.
  - done.
  - unfold entries. rewrite seqZ_app by lia. rewrite omap_app. f_equal.
    + apply list_omap_ext, Forall_Forall2_diag, Forall_forall. intros k Hk%elem_of_seqZ. apply Hold. lia.
    + rewrite seqZ_cons, Z.add_0_l by lia. simpl. by rewrite Hnew.
Qed.

(** ** Reserving the block and the inode *)

Lemma with_direct_block_wf k b i : inode_wf i → is_u32 b → inode_wf (with_direct_block k b i).
Proof.
  intros [? ? ? ? [? ?] ?] Hb. split; [done..| |done]. cbn [direct_blocks with_direct_block].
  split; [by rewrite length_insert|by apply Forall_insert].
Qed.

Lemma with_sz_wf n i : inode_wf i → is_u32 n → inode_wf (with_sz n i).
Proof. intros [? ? ? ? ? ?] Hn. by split. Qed.

(** No block, or no inode, can be allocated. *)
Definition data_full sb d : Prop :=
  32768 < nblocks sb - data_block_start sb ∨ ∀ b, data_block_start sb ≤ b < nblocks sb →
    bitmap d (data_bitmap_block sb) (b - data_block_start sb) = true.
Definition inodes_full sb d : Prop :=
  32768 < ninodes sb ∨ ∀ n, 1 ≤ n < ninodes sb → bitmap d (inode_bitmap_block sb) n = true.

(** What [entry_block] reserves: [d1] is the disk, [up'] the parent after it. *)
Definition block_reserved sb d d1 (bidx : Z) (up up' : INodeInner) (allocated : option Z) (b : Z) : Prop :=
  match allocated with
  | None => d1 = d ∧ up' = up ∧ direct_blocks up !! Z.to_nat bidx = Some b ∧ b ≠ 0
  | Some b' => b' = b ∧ direct_blocks up !! Z.to_nat bidx = Some 0 ∧ up' = with_direct_block bidx b up ∧
      data_block_start sb ≤ b < nblocks sb ∧ b - data_block_start sb < 32768 ∧
      bitmap d (data_bitmap_block sb) (b - data_block_start sb) = false ∧
      bit_written d d1 (data_bitmap_block sb) (b - data_block_start sb) true
  end.

Lemma entry_block_spec v bidx up : fs_ok (superblock v) (device v) → 0 ≤ bidx < 12 →
  length (direct_blocks up) = 12%nat →
  match entry_block bidx up v with
  | (Ok (up', allocated), v') => ∃ d1 b, v' = set_device d1 v ∧
      block_reserved (superblock v) (device v) d1 bidx up up' allocated b
  | (Err e, v') => data_full (superblock v) (device v) ∧
      ∃ d1, v' = set_device d1 v ∧ same_disk (device v) d1
  | _ => False
  end.
Proof.
  intros Hfs Hb Hl. destruct (lookup_lt_is_Some_2 (direct_blocks up) (Z.to_nat bidx)) as [old Ho]; [lia|].
  unfold entry_block. unfold bind at 1, lift. rewrite Ho. cbn [unwrap].
  destruct (Z.eqb_spec old 0) as [->|Hne].
  - pose proof (allocate_data_block_spec v Hfs) as Ha. unfold bind.
    destruct (allocate_data_block v) as [[b|e| |] v']; [| |done..].
    + destruct Ha as (d1 & -> & Hrng & Hlim & Hbit & Hw). exists d1, b. by split.
    + destruct Ha as (d1 & -> & -> & Hs & Hfull). split; [done|]. by exists d1.
  - exists (device v), old. split; [by destruct v|]. by split_and!.
Qed.

Lemma bit_written_bits d d1 blk k b j : bit_written d d1 blk k b → 0 ≤ j →
  bitmap d blk j = b → bitmap d1 blk j = b.
Proof. intros (Hb & _) Hj Hj1. rewrite Hb by done. by destruct (decide (j = k)). Qed.

Lemma bit_written_other d d1 blk blk' k b j : bit_written d d1 blk k b → 0 ≤ k < 32768 →
  0 ≤ j < 32768 → blk ≠ blk' → bitmap d1 blk' j = bitmap d blk' j.
Proof.
  intros (_ & Ho & _) Hk Hj Hne. apply bitmap_kept; [done|]. intros x Hx. apply Ho.
  Z.div_mod_to_equations; lia.
Qed.

Lemma both_reserved sb d d1 d2 i up n allocated b new : fs_ok sb d → directory sb d i n →
  n * 32 / 4096 < 12 →
  block_reserved sb d d1 (n * 32 / 4096) (with_sz ((n + 1) * 32) i) up allocated b →
  0 ≤ new < 32768 → bit_written d1 d2 (inode_bitmap_block sb) new true →
  reserved sb d d2 i up n b.
Proof.
  intros [[(? & ? & ?) _ _ [? ?]] Hd] ((Hty & Hn & Hsz & _) & Hiw & Hind & Hdist & Hused) Hidx Hr Hnew Hw.
  set (idx := n * 32 / 4096) in *. assert (0 ≤ idx) by (unfold idx; Z.div_mod_to_equations; lia).
  destruct (iw_direct _ Hiw) as [Hlen Hd32].
  assert (Hw32 : inode_wf (with_sz ((n + 1) * 32) i))
    by (apply with_sz_wf; [done|unfold in_width, idx in *; Z.div_mod_to_equations; lia]).
  assert (Hkeep : ∀ b, used_block sb d1 b → used_block sb d2 b).
  { intros b' (? & ? & Hb'). split_and!; [lia|lia|done|].
    rewrite (bit_written_other _ _ _ _ _ _ _ Hw) by (done || lia). done. }
  destruct Hw as (_ & Hwo & _). destruct allocated as [b'|]; simpl in Hr.
  - destruct Hr as (-> & Hz & -> & Hrng & Hlim & Hbit & Hwd). pose proof Hwd as (Hwb & Hwdo & _).
    cbn [direct_blocks with_sz] in Hz.
    assert (Hmono : ∀ b', used_block sb d b' → used_block sb d1 b').
    { intros b' (? & ? & Hb'). split_and!; [lia|lia|done|]. by eapply bit_written_bits; [|lia|]. }
    split; cbn [ty sz indirect_block direct_blocks with_direct_block with_sz]; [|done..| | | |].
    + apply with_direct_block_wf; [done|unfold in_width; lia].
    + right. split; [done|]. intros (_ & _ & Hb'). congruence.
    + apply Hkeep. split_and!; [lia|lia|done|]. rewrite Hwb by lia. by rewrite decide_True.
    + intros x Hx. rewrite Hwo, Hwdo; [done|Z.div_mod_to_equations; lia..].
    + intros b' Hb'. by apply Hkeep, Hmono.
  - destruct Hr as (-> & -> & Hsame & Hb0). cbn [direct_blocks with_sz] in Hsame.
    assert (Hbo : block_of d i idx = Some b).
    { rewrite block_of_direct, Hsame by lia. simpl. by rewrite (proj2 (Z.eqb_neq _ _)). }
    split; cbn [ty sz indirect_block direct_blocks with_sz]; [done..| | | | |].
    + by rewrite list_insert_id.
    + by left.
    + apply Hkeep. by eapply Hused.
    + intros x Hx. apply Hwo. Z.div_mod_to_equations; lia.
    + done.
Qed.

(** The bitmaps are as they were, and so is everything outside the data bitmap. *)
Definition restored sb d d' : Prop :=
  (∀ j, 0 ≤ j < 32768 → bitmap d' (inode_bitmap_block sb) j = bitmap d (inode_bitmap_block sb) j ∧
     bitmap d' (data_bitmap_block sb) j = bitmap d (data_bitmap_block sb) j) ∧
  ∀ x, ¬ data_bitmap_block sb * 8 ≤ x < data_bitmap_block sb * 8 + 8 → sector d' x = sector d x.

Lemma restored_same sb d d' : same_disk d d' → restored sb d d'.
Proof. intros Hd. split; [|intros x _; apply Hd]. intros j _. split; by apply bitmap_same. Qed.

Lemma restored_trans sb d1 d2 d3 : restored sb d1 d2 → restored sb d2 d3 → restored sb d1 d3.
Proof.
  intros [H1 H1'] [H2 H2']. split.
  - intros j Hj. destruct (H1 j Hj), (H2 j Hj). split; congruence.
  - intros x Hx. rewrite H2', H1'; done.
Qed.

Lemma free_reserved v d d1 bidx up up' allocated b :
  fs_ok (superblock v) d → same_disk d1 (device v) →
  block_reserved (superblock v) d d1 bidx up up' allocated b →
  ∃ d', free_create_allocations None allocated v = (Ok tt, set_device d' v) ∧
    restored (superblock v) d d'.
Proof.
  intros [[(Hib & Hdb & Hne) _ _ [Hn Hn']] Hd] Hs Hr. set (sb := superblock v) in *.
  unfold free_create_allocations. unfold bind at 1, ret at 1. destruct allocated as [b'|]; simpl in Hr.
  2:{ destruct Hr as (-> & _). exists (device v). split; [by destruct v|]. by apply restored_same. }
  destruct Hr as (-> & _ & _ & Hrng & Hlim & Hbit & Hw). pose proof Hw as (Hwb & Hwo & Hwi).
  set (k := b - data_block_start sb) in *.
  unfold free_data_block, bind, attempt, gets, lift, io, zoom. fold sb.
  unfold checked_sub. rewrite (proj2 (Z.leb_le _ _)) by lia. cbn [ok_or]. fold k.
  pose proof (free_bitmap_bit_spec (device v) (data_bitmap_block sb) k) as Hf.
  assert (Ho : on_disk (device v) (data_bitmap_block sb))
    by (intros j Hj; rewrite Hs; apply Hwi, Hd; lia).
  assert (Hk1 : bitmap (device v) (data_bitmap_block sb) k = true)
    by (rewrite (bitmap_same d1), Hwb, decide_True by (done || lia); done).
  specialize (Hf Ho ltac:(lia)). destruct (free_bitmap_bit _ k (device v)) as [[[]|e| |] d3]; [| |done..].
  - exists d3. split; [done|]. destruct Hf as (_ & _ & Hf). pose proof Hf as (Hfb & Hfo & _). split.
    + intros j Hj. split.
      * rewrite (bit_written_other _ _ _ _ _ _ _ Hf) by (done || lia).
        rewrite (bitmap_same d1) by done. by rewrite (bit_written_other _ _ _ _ _ _ _ Hw) by (done || lia).
      * rewrite Hfb, (bitmap_same d1), Hwb by (done || lia). by destruct (decide (j = k)) as [->|].
    + intros x Hx. rewrite Hfo, Hs, Hwo; [done|Z.div_mod_to_equations; lia..].
  - destruct Hf as (_ & _ & [|Hf]); [lia|congruence].
Qed.

Lemma directory_same sb d d' i n : same_disk d d' → directory sb d i n → directory sb d' i n.
Proof.
  intros Hd ((Hty & Hn & Hsz & Hb & Hg) & Hiw & Hind & [Hdi Hdi'] & Hused).
  assert (Hbo : ∀ lb, block_of d' i lb = block_of d i lb)
    by (intros lb; symmetry; by apply (block_of_proper d d' Hd i i eq_refl)).
  split_and!; [split_and!|done|done| |].
  - done.
  - done.
  - done.
  - by eapply blocks_ok_same.
  - intros k Hk. destruct (Hg k Hk) as (? & e & ? & ?). split; [done|]. exists e.
    by rewrite (dir_entry_same d).
  - split; intros lb; [intros lb' b|intros b]; rewrite !Hbo; [apply Hdi|apply Hdi'].
  - intros lb b Hlb. rewrite Hbo. intros Hb'. destruct (Hused lb b Hlb Hb') as (? & ? & ?).
    split_and!; [lia|lia|done|]. by rewrite (bitmap_same d).
Qed.

Lemma entries_same d d' i n : same_disk d d' → entries d' i n = entries d i n.
Proof.
  intros Hd. apply list_omap_ext, Forall_Forall2_diag, Forall_forall. intros k _.
  by apply dir_entry_same.
Qed.

(** [read_inode] never changes the disk, and adds at most one new payload. *)
Lemma read_inode_keeps n v : ∃ r d' c h l, read_inode n v = (r, mkVsfs d' (superblock v) c h l) ∧
  same_disk (device v) d' ∧ (∀ k, k < next_loc v → h !! k = heap v !! k) ∧
  match r with Ok _ => True | Err e => e = DeviceIO | _ => False end.
Proof.
  unfold read_inode, bind at 1 2, gets at 1 2. destruct (inode_cache v !! n) as [node|] eqn:Hc.
  { exists (Ok node), (device v), (inode_cache v), (heap v), (next_loc v). by destruct v. }
  unfold read_inode_from_block, bind, io, zoom, gets, alloc_inner, modify.
  pose proof (read_sector_spec (device v)
    ((inode_table_start (superblock v) * 4096 + n * INODE_BYTES) / 512)) as Hr.
  destruct (read_sector _ (device v)) as [[buf|e| |] d']; [| |done..].
  - destruct Hr as [_ Hd].
    cbn [ret superblock device inode_cache heap next_loc set_device set_cache]. rewrite Hc.
    do 5 eexists. split; [reflexivity|]. split; [done|]. split; [|done]. intros k Hk.
    cbn [superblock device inode_cache heap next_loc set_device set_cache].
    by rewrite lookup_insert_ne by lia.
  - destruct Hr as [-> Hd]. by do 5 eexists.
Qed.

(** ** The whole of [create_file] *)

(** [node] was created as entry [n] of the directory [p], whose payload was [i]
    and is now [i']. *)
Record created v v' p i (n : Z) (nm : list Z) (node : INode) i' : Prop := {
  cr_sb : superblock v' = superblock v;
  cr_fs : fs_ok (superblock v) (device v');
  cr_parent : heap v' !! inner p = Some i';
  cr_dir : directory (superblock v) (device v') i' (n + 1);
  cr_entries : entries (device v') i' (n + 1) =
    entries (device v) i n ++ [new_entry (inum node) nm];
  cr_parent_disk : disk_inode (device v') (inode_table_start (superblock v)) (inum p) = Some i';
  cr_node : heap v' !! inner node = Some empty_file;
  cr_node_disk : disk_inode (device v') (inode_table_start (superblock v)) (inum node) =
    Some empty_file;
  cr_cached : inode_cache v' !! inum node = Some node;
  cr_inum : 1 ≤ inum node < ninodes (superblock v) ∧
    bitmap (device v) (inode_bitmap_block (superblock v)) (inum node) = false ∧
    bitmap (device v') (inode_bitmap_block (superblock v)) (inum node) = true;
  cr_inodes m : 0 ≤ m < ninodes (superblock v) → m ≠ inum p → m ≠ inum node →
    disk_inode (device v') (inode_table_start (superblock v)) m =
    disk_inode (device v) (inode_table_start (superblock v)) m;
  cr_blocks b : used_block (superblock v) (device v) b →
    (∀ lb, 0 ≤ lb → block_of (device v) i lb ≠ Some b) →
    used_block (superblock v) (device v') b ∧
    ∀ k, 0 ≤ k < 8 → sector (device v') (b * 8 + k) = sector (device v) (b * 8 + k);
}.

(** The steps after the checks, from disk [d]. *)
Definition reserve_and_install p i n nm : M (Vsfs D) VfsError INode :=
  let! (up, allocated) := entry_block (n * 32 / 4096) (with_sz ((n + 1) * 32) i) in
  let! r := attempt allocate_inode in
  match r with
  | inr err => free_create_allocations None allocated ;;; fail err
  | inl new => install_file p nm new (n * 32 / 4096) (n * 32 mod 4096) i up allocated
  end.

Lemma installed_created v v' p i n nm node d1 d2 up allocated b :
  let sb := superblock v in
  fs_ok sb (device v) → directory sb (device v) i n → n * 32 / 4096 < 12 →
  0 ≤ inum p < ninodes sb → inner p < next_loc v → Forall is_u8 nm → (length nm ≤ 27)%nat →
  block_reserved sb (device v) d1 (n * 32 / 4096) (with_sz ((n + 1) * 32) i) up allocated b →
  1 ≤ inum node < ninodes sb → inum node < 32768 →
  bitmap d1 (inode_bitmap_block sb) (inum node) = false →
  bit_written d1 d2 (inode_bitmap_block sb) (inum node) true →
  inner node = next_loc v → superblock v' = sb →
  heap v' = <[next_loc v := empty_file]> (<[inner p := up]> (heap v)) →
  inode_cache v' !! inum node = Some node →
  installed sb d2 (device v') (inum p) (inum node) b (n * 32 mod 4096) up (new_entry (inum node) nm) →
  created v v' p i n nm node up.
Proof.
  intros sb Hfs Hdir Hidx Hp Hloc Hnm Hlen Hbr Hnew Hlim Hclear Hw Hin Hsb Hh Hc Hinst.
  pose proof Hfs as [Hl Hd]. pose proof Hl as [(? & ? & ?) (? & ? & ? & ? & ?) [? ?] [? ?]].
  pose proof (both_reserved sb (device v) d1 d2 i up n allocated b (inum node) Hfs Hdir Hidx Hbr
    ltac:(lia) Hw) as Hr.
  assert (He : dirent_wf (new_entry (inum node) nm))
    by (apply new_entry_wf; [unfold in_width; lia|done..]).
  (* what the two reservations left alone *)
  assert (Hd1 : (∀ x, ¬ data_bitmap_block sb * 8 ≤ x < data_bitmap_block sb * 8 + 8 →
      sector d1 x = sector (device v) x) ∧ ∀ x, is_Some (sector d1 x) ↔ is_Some (sector (device v) x)).
  { destruct allocated as [b'|]; simpl in Hbr; [|by destruct Hbr as (-> & _)].
    destruct Hbr as (_ & _ & _ & ? & ? & _ & (_ & Ho & Hi)). split; [|done].
    intros x Hx. apply Ho. Z.div_mod_to_equations; lia. }
  destruct Hd1 as [Hd1 Hi1]. pose proof Hw as (Hwb & Hwo & Hwi).
  assert (Hd2 : ∀ x, ¬ data_bitmap_block sb * 8 ≤ x < data_bitmap_block sb * 8 + 8 →
    ¬ inode_bitmap_block sb * 8 ≤ x < inode_bitmap_block sb * 8 + 8 →
    sector d2 x = sector (device v) x).
  { intros x Hx Hx'. rewrite Hwo, Hd1; [done|done|]. Z.div_mod_to_equations; lia. }
  assert (Hfs5 : fs_ok sb (device v')).
  { eapply fs_ok_kept; [|exact Hfs]. intros x. by rewrite (in_range _ _ _ _ _ _ _ _ _ Hinst), Hwi, Hi1. }
  destruct (directory_grown sb (device v) d2 (device v') i up n b _ _ _ Hfs Hfs5 Hdir Hr Hinst He)
    as [Hdir' Hent]; [cbn [name_len new_entry]; lia|].
  split; rewrite ?Hsb; try done.
  - rewrite Hh, lookup_insert_ne by lia. by rewrite lookup_insert_eq.
  - apply Hinst.
  - by rewrite Hh, Hin, lookup_insert_eq.
  - apply Hinst.
  - fold sb. split_and!; [lia|lia| |].
    + rewrite <-Hclear. symmetry. apply bitmap_kept; [lia|]. intros k Hk. apply Hd1. lia.
    + rewrite (in_bitmaps _ _ _ _ _ _ _ _ _ Hinst) by (lia || auto).
      rewrite Hwb, decide_True by lia. done.
  - intros m Hm Hmp Hmn. fold sb in Hm |- *.
    rewrite (in_inodes _ _ _ _ _ _ _ _ _ Hinst) by (done || lia).
    unfold disk_inode, record_at. rewrite Hd2; [done|..]; unfold inode_sector; Z.div_mod_to_equations; lia.
  - intros b' Hb' Hno. fold sb in Hb' |- *. pose proof Hb' as [Hrng _]. split.
    + eapply used_block_installed; [exact Hinst|]. by apply (rs_bits _ _ _ _ _ _ _ Hr).
    + intros k Hk. assert (b' ≠ b).
      { intros ->. destruct (rs_fresh _ _ _ _ _ _ _ Hr) as [Hs|[_ Hnu]]; [|by apply Hnu].
        pose proof (rs_idx _ _ _ _ _ _ _ Hr).
        apply (Hno (n * 32 / 4096)); [lia|]. rewrite block_of_direct, Hs by lia. simpl.
        by rewrite (proj2 (Z.eqb_neq _ _)) by lia. }
      rewrite (in_data _ _ _ _ _ _ _ _ _ Hinst), Hd2; [done|lia|lia|lia|].
      Z.div_mod_to_equations; lia.
Qed.

Lemma reserve_and_install_spec v p i n nm : let sb := superblock v in
  fs_ok sb (device v) → directory sb (device v) i n → n * 32 / 4096 < 12 →
  0 ≤ inum p < ninodes sb → bitmap (device v) (inode_bitmap_block sb) (inum p) = true →
  inum p < 32768 → inner p < next_loc v → Forall is_u8 nm → (length nm ≤ 27)%nat →
  match reserve_and_install p i n nm v with
  | (Ok node, v') => ∃ i', created v v' p i n nm node i'
  | (Err e, v') => (data_full sb (device v) ∨ inodes_full sb (device v)) ∧
      ∃ d', v' = set_device d' v ∧ restored sb (device v) d'
  | _ => False
  end.
Proof.
  intros sb Hfs Hdir Hidx Hp Hpb Hp32 Hloc Hnm Hlen. pose proof Hdir as ((_ & Hn & _) & Hiw & _).
  pose proof Hfs as [[(? & ? & ?) _ _ _] _].
  assert (0 ≤ n * 32 / 4096 ∧ 0 ≤ n * 32 mod 4096 < 4096 ∧ n * 32 mod 4096 mod 32 = 0)
    as (Hidx0 & Hoff & Hoff32) by (Z.div_mod_to_equations; lia).
  destruct (iw_direct _ Hiw) as [Hdl _]. unfold reserve_and_install. unfold bind at 1.
  pose proof (entry_block_spec v (n * 32 / 4096) (with_sz ((n + 1) * 32) i) Hfs ltac:(lia) Hdl) as He.
  destruct (entry_block _ _ v) as [[[up allocated]|e| |] v1]; [| |done..].
  2:{ destruct He as (? & d1 & -> & Hs). split; [by left|]. exists d1. split; [done|].
      by apply restored_same. }
  destruct He as (d1 & b & -> & Hbr).
  assert (Hbits : ∀ j, 0 ≤ j < 32768 →
    bitmap d1 (inode_bitmap_block sb) j = bitmap (device v) (inode_bitmap_block sb) j).
  { intros j Hj. destruct allocated; simpl in Hbr; [|by destruct Hbr as (-> & _)].
    destruct Hbr as (_ & _ & _ & ? & ? & _ & Hw).
    rewrite (bit_written_other _ _ _ _ _ _ _ Hw) by (done || lia). done. }
  assert (Hfs1 : fs_ok sb d1).
  { eapply fs_ok_kept; [|exact Hfs]. destruct allocated; simpl in Hbr; [|by destruct Hbr as (-> & _)].
    by destruct Hbr as (_ & _ & _ & _ & _ & _ & (_ & _ & Hi)). }
  pose proof (allocate_inode_spec (set_device d1 v) Hfs1) as Ha.
  unfold bind at 1, attempt at 1. cbn [superblock device set_device] in Ha. fold sb in Ha.
  destruct (allocate_inode (set_device d1 v)) as [[new|e| |] v2]; [| |done..].
  - destruct Ha as (d2 & -> & Hnew & Hlim & Hclear & Hw).
    pose proof (both_reserved sb (device v) d1 d2 i up n allocated b new Hfs Hdir Hidx Hbr
      ltac:(lia) Hw) as Hr.
    destruct (install_file_spec (set_device d2 v) p nm new (n * 32 / 4096) (n * 32 mod 4096) i up
      allocated b) as (d5 & Hi & Hinst); cbn [superblock device set_device]; fold sb;
      [|apply Hr|done|done|done|lia| | |apply Hr|done|done|].
    + eapply fs_ok_kept, Hfs1. apply Hw.
    + intros Heq. rewrite Hbits, <-Heq, Hpb in Hclear by lia. done.
    + rewrite (rs_direct _ _ _ _ _ _ _ Hr), list_lookup_insert_eq; [done|].
      pose proof (iw_direct _ Hiw) as [? _]. lia.
    + change (set_device d2 (set_device d1 v)) with (set_device d2 v). rewrite Hi. exists up.
      eapply (installed_created v _ p i n nm (mkINode new (next_loc v)) d1 d2 up allocated b);
        cbn [inum inner superblock inode_cache heap device]; done || (by rewrite lookup_insert_eq) || lia.
  - destruct Ha as (d2 & -> & -> & Hs & Hfull).
    destruct (free_reserved (set_device d2 v) (device v) d1 (n * 32 / 4096)
      (with_sz ((n + 1) * 32) i) up allocated b) as (d3 & Hf & Hrest); [done..|].
    change (set_device d2 (set_device d1 v)) with (set_device d2 v).
    rewrite (bind_ok _ _ _ _ _ Hf). split; [right|by exists d3].
    destruct Hfull as [|Hfull]; [by left|]. destruct (decide (32768 < ninodes sb)); [by left|right].
    intros m Hm. rewrite <-Hbits by lia. auto.
Qed.

Lemma created_same v d0 v' p i n nm node i' : same_disk (device v) d0 →
  created (set_device d0 v) v' p i n nm node i' → created v v' p i n nm node i'.
Proof.
  intros Hd [? ? ? ? Hent ? ? ? ? (? & Hbit & ?) Hino Hblk]. cbn [superblock device set_device] in *.
  split; try done.
  - by rewrite Hent, (entries_same (device v)).
  - by rewrite <-(bitmap_same (device v) d0).
  - intros m Hm Hmp Hmn. rewrite Hino by done. unfold disk_inode, record_at. by rewrite Hd.
  - intros b Hb Hno. destruct (Hblk b) as [? Hs].
    + destruct Hb as (? & ? & ?). split_and!; [lia|lia|done|]. by rewrite (bitmap_same (device v)).
    + intros lb Hlb. rewrite <-(block_of_proper (device v) d0 Hd i i eq_refl lb lb eq_refl). auto.
    + split; [done|]. intros k Hk. rewrite Hs by done. apply Hd.
Qed.

Lemma create_file_spec v p i n nm :
  fs_ok (superblock v) (device v) → heap v !! inner p = Some i →
  directory (superblock v) (device v) i n →
  0 ≤ inum p < Z.min 32768 (ninodes (superblock v)) →
  bitmap (device v) (inode_bitmap_block (superblock v)) (inum p) = true →
  inner p < next_loc v → Forall is_u8 nm →
  match create_file p nm v with
  | (Ok node, v') => (1 ≤ length nm ≤ 27)%nat ∧ find_name nm (entries (device v) i n) = None ∧
      ∃ i', created v v' p i n nm node i'
  | (Err e, v') =>
      ((length nm = 0 ∨ 27 < length nm)%nat ∨ is_Some (find_name nm (entries (device v) i n)) ∨
       12 * 4096 ≤ n * 32 ∨ data_full (superblock v) (device v) ∨
       inodes_full (superblock v) (device v)) ∧
      superblock v' = superblock v ∧ heap v' !! inner p = Some i ∧
      restored (superblock v) (device v) (device v')
  | _ => False
  end.
Proof.
  intros Hfs Hi Hdir Hp Hpb Hloc Hnm. set (sb := superblock v) in *.
  pose proof Hdir as ((Hty & Hn & Hsz & Hb & Hg) & Hiw & _ & _ & _).
  unfold create_file. destruct (Nat.eqb_spec (length nm) 0).
  { simpl. split_and!; [by auto..|by apply restored_same]. }
  destruct (Nat.ltb_spec 27 (length nm)).
  { simpl. split_and!; [by auto..|by apply restored_same]. }
  cbn [orb]. unfold get_inner. unfold bind at 1 2, gets, lift at 1. rewrite Hi. cbn [unwrap].
  change DIRENT_BYTES with 32. rewrite Hty, Hsz, Z.mod_mul by lia. cbn [negb orb Z.eqb TDirectory Pos.eqb].
  destruct (lookup_path_inner_spec i nm n v (proj1 Hdir)) as (d0 & Hd0 & Hlk).
  unfold bind at 1, attempt at 1. rewrite Hlk.
  destruct (find_name nm (entries (device v) i n)) as [e|] eqn:Hf.
  { destruct (read_inode_keeps (d_inum e) (set_device d0 v)) as (r & d1 & c & h & l & -> & Hd1 & Hh & Hr).
    assert (Hkeep : heap (mkVsfs d1 (superblock v) c h l) !! inner p = Some i ∧ restored sb (device v) d1).
    { cbn [heap]. rewrite Hh by done. split; [done|]. apply restored_same. by trans d0. }
    destruct Hkeep. destruct r as [node|e'| |]; [| |done..].
    - simpl. split_and!; [by eauto|done..].
    - subst e'. simpl. split_and!; [by eauto|done..]. }
  unfold bind at 1, lift at 1, checked_add. change BLOCK_SIZE with 4096.
  destruct (Z.ltb_spec (n * 32 + 32) (2 ^ 32)); cbn [ok_or].
  2:{ simpl. split_and!; [right; right; left; lia|done|done|by apply restored_same]. }
  destruct (iw_direct _ Hiw) as [Hlen _]. cbn [direct_blocks with_sz]. rewrite Hlen.
  destruct (Z.leb_spec (Z.of_nat 12) (n * 32 / 4096)).
  { simpl. split_and!; [right; right; left; Z.div_mod_to_equations; lia|done|done|by apply restored_same]. }
  replace (n * 32 + 32) with ((n + 1) * 32) by lia. fold (reserve_and_install p i n nm).
  pose proof (reserve_and_install_spec (set_device d0 v) p i n nm) as Hri.
  cbn [superblock device set_device next_loc] in Hri. fold sb in Hri.
  assert (Hfs0 : fs_ok sb d0) by (eapply fs_ok_kept, Hfs; intros x; by rewrite Hd0).
  specialize (Hri Hfs0 (directory_same _ _ _ _ _ Hd0 Hdir) ltac:(lia) ltac:(lia)).
  rewrite (bitmap_same (device v)) in Hri by done.
  specialize (Hri Hpb ltac:(lia) Hloc Hnm ltac:(lia)).
  destruct (reserve_and_install p i n nm (set_device d0 v)) as [[node|e| |] v']; [| |done..].
  - destruct Hri as [i' Hc]. split_and!; [lia|lia|done|]. exists i'. by eapply created_same.
  - destruct Hri as (Hfull & d' & -> & Hrest). split_and!; [|done|done|].
    + right; right; right. unfold data_full, inodes_full in *.
      assert (Hbs := λ blk j, bitmap_same (device v) d0 blk j Hd0).
      destruct Hfull as [[?|Hfull]|[?|Hfull]]; [by auto| |by auto|].
      * left. right. intros b Hb'. rewrite <-Hbs. auto.
      * right. right. intros m Hm. rewrite <-Hbs. auto.
    + eapply restored_trans, Hrest. by apply restored_same.
Qed.

(** C25: creating a file in a directory of a reliable disk is all or nothing.
    On success the name was not in the directory; the new node is an empty file
    whose inode number was free and is now marked used; the directory has one
    entry more, the new one, after the old ones, in memory and on disk alike;
    every other inode and every used block outside the directory is as it was;
    and the disk is still well-formed, so that the next creation finds the
    same guarantees.  It fails only when the name is empty, too long or taken,
    the directory is full, or no block or inode is free; then the directory and
    both bitmaps are as they were.  It never panics. *)
Theorem create_file_all_or_nothing v p i n nm :
  fs_ok (superblock v) (device v) → heap v !! inner p = Some i →
  directory (superblock v) (device v) i n →
  0 ≤ inum p < Z.min 32768 (ninodes (superblock v)) →
  bitmap (device v) (inode_bitmap_block (superblock v)) (inum p) = true →
  inner p < next_loc v → Forall is_u8 nm →
  match create_file p nm v with
  | (Ok node, v') => (1 ≤ length nm ≤ 27)%nat ∧ find_name nm (entries (device v) i n) = None ∧
      ∃ i', created v v' p i n nm node i'
  | (Err e, v') =>
      ((length nm = 0 ∨ 27 < length nm)%nat ∨ is_Some (find_name nm (entries (device v) i n)) ∨
       12 * 4096 ≤ n * 32 ∨ data_full (superblock v) (device v) ∨
       inodes_full (superblock v) (device v)) ∧
      superblock v' = superblock v ∧ heap v' !! inner p = Some i ∧
      restored (superblock v) (device v) (device v')
  | _ => False
  end.
Proof. apply create_file_spec. Qed.

Lemma find_name_app q es e : find_name q (es ++ [e]) =
  match find_name q es with
  | Some e' => Some e'
  | None => if decide (entry_name e = q) then Some e else None
  end.
Proof.
  induction es as [|e' es IH]; simpl; [apply find_name_cons|].
  rewrite !find_name_cons. by destruct (decide (entry_name e' = q)).
Qed.

Lemma entry_name_new new nm : entry_name (new_entry new nm) = nm.
Proof.
  unfold entry_name. cbn [name_len name new_entry]. rewrite Nat2Z.id. unfold padded_name.
  by apply take_app_length'.
Qed.

(** A path of one component. *)
Lemma components_single nm : nm ≠ [] → 47 ∉ nm → components nm = [nm].
Proof.
  intros Hne Hs. assert (Hsp : split_slash nm = [nm]).
  { clear Hne. induction nm as [|b nm IH]; [done|]. apply not_elem_of_cons in Hs as [Hb Hs].
    cbn [split_slash]. rewrite (proj2 (Z.eqb_neq _ _)) by done. by rewrite IH. }
  unfold components. rewrite Hsp. simpl. by destruct nm.
Qed.

(** C26: a file that was created is found again: opening its name from the
    directory gives the very node that [create_file] returned, and looking up
    any other name finds what it found before. *)
Theorem created_file_is_found v p i n nm node v' :
  fs_ok (superblock v) (device v) → heap v !! inner p = Some i →
  directory (superblock v) (device v) i n →
  0 ≤ inum p < Z.min 32768 (ninodes (superblock v)) →
  bitmap (device v) (inode_bitmap_block (superblock v)) (inum p) = true →
  inner p < next_loc v → Forall is_u8 nm → 47 ∉ nm →
  create_file p nm v = (Ok node, v') →
  (∃ d', same_disk (device v') d' ∧ open p nm v' = (Ok node, set_device d' v')) ∧
  ∃ i', heap v' !! inner p = Some i' ∧
    ∀ q, q ≠ nm → find_name q (entries (device v') i' (n + 1)) = find_name q (entries (device v) i n).
Proof.
  intros Hfs Hi Hdir Hp Hpb Hloc Hnm Hslash Hcf.
  pose proof (create_file_spec v p i n nm Hfs Hi Hdir Hp Hpb Hloc Hnm) as Hspec.
  rewrite Hcf in Hspec. destruct Hspec as (Hlen & Hnew & i' & Hc).
  pose proof (cr_dir _ _ _ _ _ _ _ _ Hc) as (Hdok & _). split.
  - destruct (lookup_path_inner_spec i' nm (n + 1) v' Hdok) as (d' & Hd' & Hlk).
    exists d'. split; [done|]. unfold open.
    rewrite components_single by (done || (intros ->; simpl in Hlen; lia)). cbn [open_loop].
    unfold get_inner. unfold bind at 1 2, gets, lift. rewrite (cr_parent _ _ _ _ _ _ _ _ Hc).
    cbn [unwrap]. rewrite (proj1 Hdok). change (TDirectory =? TFile) with false. cbn iota.
    unfold bind. rewrite Hlk, (cr_entries _ _ _ _ _ _ _ _ Hc), find_name_app, Hnew.
    rewrite entry_name_new, decide_True by done. cbn [d_inum new_entry].
    rewrite (read_inode_cached _ _ node) by apply Hc.
    destruct (cr_inum _ _ _ _ _ _ _ _ Hc) as (_ & Hbit & _).
    destruct (Z.eqb_spec (inum p) (inum node)) as [Heq|]; [|done].
    rewrite Heq in Hpb. congruence.
  - exists i'. split; [apply Hc|]. intros q Hq. rewrite (cr_entries _ _ _ _ _ _ _ _ Hc), find_name_app.
    rewrite entry_name_new, decide_False by done. by destruct (find_name q _).
Qed.
End create.

(** ** A freshly formatted disk

    Superblock, bitmaps, inode table and two data blocks; inode 1 is the empty
    root directory. *)

Definition fresh_root : INodeInner := mkInner TDirectory 1 0 0 (replicate 12 0) 0.
Definition fresh_sb : SuperBlock := mkSuper MAGIC 6 8 1 2 3 1 4.
Definition fresh_disk : list Byte.byte :=
  to_byte <$> replicate 4096 0 ++ [3] ++ replicate 4095 0 ++ replicate 4096 0 ++
    replicate 64 0 ++ encode_inode fresh_root ++ replicate 3968 0 ++ replicate 8192 0.
Definition fresh_fs : Vsfs (list Byte.byte) :=
  mkVsfs fresh_disk fresh_sb {[1 := mkINode 1 0]} {[0 := fresh_root]} 1.

Lemma fresh_fs_ok : fs_ok fresh_sb fresh_disk.
Proof.
  split; [split; cbn; lia|]. intros x Hx. cbn in Hx.
  assert (Hall : forallb (λ x, bool_decide (is_Some (sector fresh_disk x))) (seqZ 0 48) = true)
    by (vm_compute; reflexivity).
  pose proof (forallb_seqZ _ _ _ Hall x ltac:(lia)) as Hb. cbv beta in Hb.
  by apply bool_decide_eq_true in Hb.
Qed.

Lemma fresh_block lb : 0 ≤ lb → block_of fresh_disk fresh_root lb = None.
Proof.
  intros Hlb. destruct (decide (lb < 12)).
  - rewrite block_of_direct by lia. cbn [direct_blocks fresh_root].
    by rewrite lookup_replicate_2 by lia.
  - by rewrite block_of_none by (done || lia).
Qed.

Lemma fresh_directory : directory fresh_sb fresh_disk fresh_root 0.
Proof.
  split_and!.
  - split_and!; [done|done|done|apply blocks_okb_ok; vm_compute; reflexivity|]. intros k Hk. lia.
  - by split; repeat constructor.
  - done.
  - split; [|done]. intros lb lb' b Hlb _. by rewrite fresh_block.
  - intros lb b Hlb. by rewrite fresh_block.
Qed.

Lemma create_file_all_or_nothing_witness : ∃ v' i',
  create_file (mkINode 1 0) [97; 98] fresh_fs = (Ok (mkINode 2 1), v') ∧
  created fresh_fs v' (mkINode 1 0) fresh_root 0 [97; 98] (mkINode 2 1) i'.
Proof.
  assert (Hr : (create_file (mkINode 1 0) [97; 98] fresh_fs).1 = Ok (mkINode 2 1))
    by (vm_compute; reflexivity).
  assert (Hbit : bitmap fresh_disk 1 1 = true) by (vm_compute; reflexivity).
  assert (Hnm : Forall is_u8 [97; 98]) by (by repeat constructor).
  pose proof (create_file_all_or_nothing fresh_fs (mkINode 1 0) fresh_root 0 [97; 98] fresh_fs_ok
    eq_refl fresh_directory ltac:(cbn; lia) Hbit ltac:(cbn; lia) Hnm) as Hc.
  destruct (create_file (mkINode 1 0) [97; 98] fresh_fs) as [r v']. cbn [fst] in Hr. subst r.
  destruct Hc as (_ & _ & i' & Hc). by exists v', i'.
Defined.

Lemma created_file_is_found_witness : ∃ v' d',
  create_file (mkINode 1 0) [97; 98] fresh_fs = (Ok (mkINode 2 1), v') ∧
  open (mkINode 1 0) [97; 98] v' = (Ok (mkINode 2 1), set_device d' v').
Proof.
  assert (Hr : (create_file (mkINode 1 0) [97; 98] fresh_fs).1 = Ok (mkINode 2 1))
    by (vm_compute; reflexivity).
  assert (Hbit : bitmap fresh_disk 1 1 = true) by (vm_compute; reflexivity).
  assert (Hnm : Forall is_u8 [97; 98]) by (by repeat constructor).
  assert (Hsl : 47 ∉ [97; 98]) by (apply (bool_decide_unpack _); vm_compute; exact I).
  destruct (create_file (mkINode 1 0) [97; 98] fresh_fs) as [r v'] eqn:Hcf. cbn [fst] in Hr. subst r.
  destruct (created_file_is_found fresh_fs (mkINode 1 0) fresh_root 0 [97; 98] (mkINode 2 1) v'
    fresh_fs_ok eq_refl fresh_directory ltac:(cbn; lia) Hbit ltac:(cbn; lia) Hnm Hsl Hcf)
    as [(d' & _ & Ho) _].
  exists v', d'. by split.
Defined.
