(* ===== verification/MemMgr.v ===== *)
(** * Address spaces of tasks

    [kernel/src/mm/mod.rs] ([MemoryManager]) and [kvm_full_map] of
    [kernel/src/mm/kvm.rs], over the page tables, the frame allocator and the
    page metadata.  The fields behind spin locks are fields of the record: each
    method takes the locks it needs and runs to its end.  TLB flushes have no
    counterpart, since the model translates through the tables in memory. *)

From stdpp Require Import sorting.
From S2P Require Import Prelude Errors Addr Sv39 FrameAllocator PageMeta PageTable PageMap.

(** ** State *)

Definition KERNEL_STACK_PAGES : Z := 16.
Definition GB : Z := Z.shiftl 1 30.

Record VmRegion := mkRegion { r_start : Z; r_end : Z; r_flags : Z }.

Record KernelStackRegion := mkStack { guard : Z; bottom : Z; top : Z }.

Record MemoryManager := mkMm {
  root_pt : Z;
  regions : list VmRegion;
  kernel_stack : KernelStackRegion;
  start_brk : Z;
  brk : Z;
}.

Definition EMPTY : MemoryManager := mkMm 0 [] (mkStack 0 0 0) 0 0.

(** A memory manager and the kernel memory it works on. *)
Record Space := mkSpace { mm : MemoryManager; km : Kmem }.

Definition set_km (k : Kmem) (s : Space) : Space := mkSpace (mm s) k.
Definition set_mm (m : MemoryManager) (s : Space) : Space := mkSpace m (km s).
Definition set_regions (rs : list VmRegion) (m : MemoryManager) : MemoryManager :=
  mkMm (root_pt m) rs (kernel_stack m) (start_brk m) (brk m).
Definition set_kernel_stack (st : KernelStackRegion) (m : MemoryManager) : MemoryManager :=
  mkMm (root_pt m) (regions m) st (start_brk m) (brk m).
Definition set_brk (b : Z) (m : MemoryManager) : MemoryManager :=
  mkMm (root_pt m) (regions m) (kernel_stack m) (start_brk m) b.

Abbreviation MM := (M Space Error).

(** A step of the kernel memory alone. *)
Definition kmem {A} (m : KM A) : MM A := zoom km set_km m.

(** [slice::binary_search_by_key] on a slice sorted by the key: where the key
    is, or where it would be inserted. *)
Fixpoint search (key : Z) (rs : list VmRegion) : nat + nat :=
  match rs with
  | [] => inr O
  | r :: rs' =>
      if r_start r =? key then inl O
      else if key <? r_start r then inr O
      else match search key rs' with inl i => inl (S i) | inr i => inr (S i) end
  end.

(** [Vec::insert]. *)
Definition insert_at {A} (i : nat) (x : A) (l : list A) : list A := take i l ++ x :: drop i l.

(** The region that holds [addr], if the search says where it would be. *)
Definition region_before (i : nat) (addr : Z) (rs : list VmRegion) : option VmRegion :=
  match i with
  | O => None
  | S j => r ← rs !! j; if addr <? r_end r then Some r else None
  end.

Section mm.
Context `{BF : Bitflags}.

(** [zero_frame]. *)
Definition zero_frame (pa : Z) : KM unit :=
  let! ptr := lift (phys_to_virt pa) in write_frame pa (replicate 512 0).

(** [MemoryManager::translate]; the checked conversions to [VirtualAddress]
    included. *)
Definition mm_translate (va : Z) : MM (option Z) :=
  let! s := gets id in
  let! root := lift (phys_to_virt (root_pt (mm s))) in
  let! _ := lift (va_from_raw_unchecked root) in
  let! va' := lift (va_from_raw_unchecked va) in
  lift (translate (mem (km s)) (root_pt (mm s)) va').

(** [MemoryManager::translate_to_kernel]. *)
Definition translate_to_kernel (va : Z) : MM Z :=
  let! r := mm_translate va in
  let! pa := lift (ok_or r Unmapped) in
  lift (phys_to_virt pa).

(** [map_vm] as the memory manager calls it. *)
Definition mm_map_vm (va pa flags : Z) : MM unit :=
  let! s := gets id in
  let! root := lift (phys_to_virt (root_pt (mm s))) in
  let! _ := lift (va_from_raw_unchecked root) in
  let! va' := lift (va_from_raw_unchecked va) in
  let! pa' := lift (pa_from_raw_unchecked pa) in
  kmem (map_vm (root_pt (mm s)) va' pa' flags).

(** [MemoryManager::insert_mapping]. *)
Definition insert_mapping (start end_ flags : Z) : MM unit :=
  let! s := gets id in
  match search start (regions (mm s)) with
  | inl _ => panic
  | inr i =>
      modify (λ s, set_mm (set_regions
        (insert_at i (mkRegion start end_ flags) (regions (mm s))) (mm s)) s)
  end.

(** [MemoryManager::map_page_if_not_exist]. *)
Definition map_page_if_not_exist (addr flags : Z) : MM bool :=
  let! s := gets id in
  match search addr (regions (mm s)) with
  | inl _ => ret false
  | inr i =>
      match region_before i addr (regions (mm s)) with
      | Some _ => ret false
      | None =>
          let! end_ := lift (ok_or (offset_by addr PAGE_SIZE) Overflow) in
          modify (λ s, set_mm (set_regions
            (insert_at i (mkRegion addr end_ flags) (regions (mm s))) (mm s)) s) ;;;
          ret true
      end
  end.

(** [MemoryManager::map_allocate_page]. *)
Definition map_allocate_page (va flags : Z) : MM Z :=
  let! pa := kmem (unwrapped alloc_frame) in
  kmem (zero_frame pa) ;;;
  mm_map_vm va pa flags ;;;
  let! end_ := lift (ok_or (offset_by va PAGE_SIZE) Overflow) in
  insert_mapping va end_ flags ;;;
  kmem (page_add pa) ;;;
  ret pa.

(** [MemoryManager::map_page]. *)
Definition map_page (va flags : Z) : MM unit :=
  let! end_ := lift (ok_or (offset_by va PAGE_SIZE) Overflow) in
  insert_mapping va end_ flags.

(** [MemoryManager::handle_page_fault]. *)
Definition handle_page_fault (fault access_flags : Z) : MM unit :=
  let addr := align_down fault PAGE_SIZE in
  let! s := gets id in
  let! flags :=
    match search addr (regions (mm s)) with
    | inl i => let! r := lift (unwrap (regions (mm s) !! i)) in ret (r_flags r)
    | inr i => lift (ok_or (r_flags <$> region_before i addr (regions (mm s))) Unmapped)
    end in
  if negb (bf_contains flags access_flags) then fail Unmapped else
  let! mapped := mm_translate addr in
  match mapped with
  | Some _ =>
      if bf_contains access_flags PTE_W then
        let! addr' := lift (va_from_raw_unchecked addr) in
        let! root := lift (pa_from_raw_unchecked (root_pt (mm s))) in
        kmem (copy_on_write root addr')
      else fail Unmapped
  | None =>
      let! pa := kmem (unwrapped alloc_frame) in
      kmem (zero_frame pa) ;;;
      mm_map_vm addr pa flags ;;;
      kmem (page_add pa)
  end.

(** The loop of [MemoryManager::brk]; one round per page. *)
Fixpoint brk_loop (fuel : nat) (addr new_mapped_end : Z) : MM unit :=
  if negb (addr <? new_mapped_end) then ret tt else
  match fuel with
  | O => diverge
  | S fuel' =>
      let! _ := map_page_if_not_exist addr (bf_bitor PTE_RW PTE_U) in
      let! addr' := lift (ok_or (offset_by addr PAGE_SIZE) Overflow) in
      brk_loop fuel' addr' new_mapped_end
  end.

(** [MemoryManager::brk]. *)
Definition do_brk (new_brk : Z) : MM Z :=
  let! s := gets id in
  if new_brk <=? start_brk (mm s) then ret (brk (mm s)) else
  if new_brk <? brk (mm s) then
    modify (λ s, set_mm (set_brk new_brk (mm s)) s) ;;; ret new_brk
  else if brk (mm s) <? new_brk then
    let! addr := lift (align_up (brk (mm s)) PAGE_SIZE) in
    let! new_mapped_end := lift (align_up new_brk PAGE_SIZE) in
    brk_loop (Z.to_nat ((new_mapped_end - addr) / PAGE_SIZE)) addr new_mapped_end ;;;
    modify (λ s, set_mm (set_brk new_brk (mm s)) s) ;;; ret new_brk
  else ret (brk (mm s)).

(** [MemoryManager::set_initial_brk]. *)
Definition set_initial_brk (b : Z) : MM unit :=
  modify (λ s, set_mm (mkMm (root_pt (mm s)) (regions (mm s)) (kernel_stack (mm s)) b b) s).

(** The loop of [create_user_stack]: [va] is where the last page was mapped. *)
Fixpoint user_stack_loop (n : nat) (va : Z) : MM Z :=
  match n with
  | O => ret va
  | S n' =>
      let! va' := lift (ok_or (offset_by va PAGE_SIZE) Overflow) in
      let! _ := map_allocate_page va' (bf_bitor PTE_RW PTE_U) in
      user_stack_loop n' va'
  end.

(** [MemoryManager::create_user_stack]. *)
Definition create_user_stack : MM Z :=
  let! va := user_stack_loop 8 0x3fff0000 in
  lift (ok_or (offset_by va (PAGE_SIZE - 0x60)) Overflow).

(** [MemoryManager::create_kernel_stack]. *)
Definition create_kernel_stack : MM Z :=
  let! g := kmem (unwrapped alloc_frame) in
  let! start := kmem (unwrapped alloc_frame) in
  for_each (λ _, let! _ := kmem (unwrapped alloc_frame) in ret tt)
    (seqZ 1 (KERNEL_STACK_PAGES - 1)) ;;;
  let stack_size := KERNEL_STACK_PAGES * PAGE_SIZE in
  let! stack_start_va := lift (phys_to_virt start) in
  let! stack_end_va := lift (ok_or (offset_by stack_start_va stack_size) Overflow) in
  let! kernel_stack_top := lift (unwrap (offset_by start stack_size)) in
  modify (λ s, set_mm (set_kernel_stack (mkStack g stack_start_va stack_end_va) (mm s)) s) ;;;
  ret kernel_stack_top.

(** [MemoryManager::remap_page]. *)
Definition remap_page (va flags : Z) : MM unit :=
  let! s := gets id in
  let! root := lift (phys_to_virt (root_pt (mm s))) in
  let! _ := lift (va_from_raw_unchecked root) in
  let! va' := lift (va_from_raw_unchecked va) in
  kmem (remap_vm (root_pt (mm s)) va' flags).

(** The loop of [free_kernel_stack]. *)
Fixpoint free_stack_loop (fuel : nat) (va top_ : Z) : KM unit :=
  if negb (va <? top_) then ret tt else
  match fuel with
  | O => diverge
  | S fuel' =>
      let! pa := lift (virt_to_phys va) in
      free_frame pa ;;;
      let! va' := lift (unwrap (offset_by va PAGE_SIZE)) in
      free_stack_loop fuel' va' top_
  end.

(** [MemoryManager::free_kernel_stack]. *)
Definition free_kernel_stack : MM unit :=
  let! s := gets id in
  let stack := kernel_stack (mm s) in
  if guard stack =? 0 then assert (root_pt (mm s) =? 0) else
  kmem (free_frame (guard stack)) ;;;
  kmem (free_stack_loop (Z.to_nat ((top stack - bottom stack + 4095) / PAGE_SIZE))
          (bottom stack) (top stack)).

(** The body of [free]'s loop over the regions. *)
Definition free_region (r : VmRegion) : MM unit :=
  if KERNEL_DIRECT_MAPPING_BASE <? r_start r then ret tt else
  let! found := mm_translate (r_start r) in
  match found with
  | Some pa =>
      let! refcount := kmem (unwrapped (page_remove pa)) in
      if refcount =? 0 then kmem (free_frame pa) else ret tt
  | None => ret tt
  end.

(** [MemoryManager::free]. *)
Definition mm_free : MM unit :=
  let! s := gets id in
  for_each free_region (regions (mm s)) ;;;
  free_kernel_stack ;;;
  let! root := lift (pa_from_raw_unchecked (root_pt (mm s))) in
  kmem (traverse_free 3 root).

(** ** Creation and fork *)

(** One 1 GiB page of [kvm_full_map]. *)
Definition kvm_map_gb (root va_base pa_base flags i : Z) : KM unit :=
  let! va := lift (unwrap (offset_by va_base (i * GB))) in
  let! pa := lift (unwrap (offset_by pa_base (i * GB))) in
  let! va' := lift (va_from_raw_unchecked va) in
  let! pa' := lift (pa_from_raw_unchecked pa) in
  map_vm_1g root va' pa' flags.

(** [kvm_full_map]. *)
Definition kvm_full_map (root : Z) : KM unit :=
  let! direct_mapping_size :=
    lift (difference KERNEL_IMAGE_START_VA KERNEL_DIRECT_MAPPING_BASE) in
  assert (direct_mapping_size mod GB =? 0) ;;;
  for_each (kvm_map_gb root KERNEL_DIRECT_MAPPING_BASE 0 PTE_RW)
    (seqZ 0 (direct_mapping_size / GB)) ;;;
  for_each (kvm_map_gb root KERNEL_IMAGE_START_VA KERNEL_IMAGE_START_PA PTE_RWX) (seqZ 0 2).

(** [MemoryManager::new]. *)
Definition mm_new : KM MemoryManager :=
  let! root := unwrapped alloc_frame in
  let! root_va := lift (phys_to_virt root) in
  let! _ := lift (va_from_raw_unchecked root_va) in
  initialize_empty_pt root ;;;
  kvm_full_map root ;;;
  ret (mkMm root [] (kernel_stack EMPTY) (start_brk EMPTY) (brk EMPTY)).

(** Running a method on a memory manager that is not shared yet. *)
Definition on_mm {A} (m : MemoryManager) (f : MM A) : KM (A * MemoryManager) := fun k =>
  match f (mkSpace m k) with
  | (Ok a, s) => (Ok (a, mm s), km s)
  | (Err e, s) => (Err e, km s)
  | (Panic, s) => (Panic, km s)
  | (Diverge, s) => (Diverge, km s)
  end.

(** [MemoryManager::fork]. *)
Definition mm_fork (self : MemoryManager) : KM MemoryManager :=
  let! root := lift (pa_from_raw_unchecked (root_pt self)) in
  let! root' := fork 3 root in
  let! (_, m) := on_mm (mkMm root' (regions self) (mkStack 0 0 0) (start_brk self) (brk self))
    create_kernel_stack in
  ret m.
End mm.

(** ** The regions of an address space

    Every region is one page, and the regions are sorted and disjoint. *)

Definition page_region (r : VmRegion) : Prop :=
  0 ≤ r_start r ∧ r_start r mod 4096 = 0 ∧ r_end r = r_start r + 4096.

Definition before (a b : VmRegion) : Prop := r_end a ≤ r_start b.

Definition pages_ok (rs : list VmRegion) : Prop :=
  StronglySorted before rs ∧ Forall page_region rs.

(** [r] is the region of address [a]. *)
Definition region_of (rs : list VmRegion) (a : Z) (r : VmRegion) : Prop :=
  r ∈ rs ∧ r_start r ≤ a < r_end r.

(** What the two lookups of the code compute from a search. *)
Definition lookup_region (a : Z) (rs : list VmRegion) : option VmRegion :=
  match search a rs with inl i => rs !! i | inr i => region_before i a rs end.

Lemma pages_ok_cons r rs : pages_ok (r :: rs) ↔
  page_region r ∧ (∀ r', r' ∈ rs → before r r') ∧ pages_ok rs.
Proof.
  unfold pages_ok. rewrite Forall_cons. split.
  - intros [Hs [Hr Hf]]. apply StronglySorted_inv in Hs as [Hs Hb]. rewrite Forall_forall in Hb. done.
  - intros (Hr & Hb & Hs & Hf). split; [|done]. constructor; [done|]. by apply Forall_forall.
Qed.

Lemma page_region_bound r : page_region r → r_start r < r_end r.
Proof. intros (? & ? & ->). lia. Qed.

Lemma search_found a rs i : search a rs = inl i → is_Some (rs !! i).
Proof.
  revert i. induction rs as [|r rs IH]; intros i Hs; [done|]. cbn [search] in Hs.
  destruct (_ =? _); [by injection Hs as <-|]. destruct (_ <? _); [done|].
  destruct (search a rs) as [j|]; [|done]. injection Hs as <-. by apply (IH j).
Qed.

(** The binary search of the code finds the region of an address. *)
Lemma lookup_region_spec rs a r : pages_ok rs → lookup_region a rs = Some r ↔ region_of rs a r.
Proof.
  unfold lookup_region, region_of. induction rs as [|r0 rs IH]; intros Hok.
  { simpl. split; [done|]. intros [H _]. by apply not_elem_of_nil in H. }
  apply pages_ok_cons in Hok as (Hr0 & Hb & Hok). specialize (IH Hok). pose proof (page_region_bound _ Hr0).
  rewrite elem_of_cons. cbn [search]. destruct (Z.eqb_spec (r_start r0) a) as [<-|Hne].
  { simpl. split; [intros [= ->]; split; [by left|lia]|]. intros [[->|Hin] Hr]; [done|].
    specialize (Hb r Hin). unfold before in Hb. lia. }
  destruct (Z.ltb_spec a (r_start r0)).
  { simpl. split; [done|]. intros [[->|Hin] Hr]; [lia|]. specialize (Hb r Hin). unfold before in Hb. lia. }
  assert (Hmain : (r ∈ rs ∧ r_start r ≤ a < r_end r) ∨ (a < r_end r0 ∧ r = r0) ↔
    (r = r0 ∨ r ∈ rs) ∧ r_start r ≤ a < r_end r).
  { split; [intros [[Hin Hr]|[Hr ->]]; [by auto|split; [by left|lia]]|].
    intros [[->|Hin] Hr]; [right; split; [lia|done]|by left]. }
  assert (Hlow : a < r_end r0 → search a rs = inr O).
  { intros Ha. destruct rs as [|r1 rs]; [done|]. specialize (Hb r1 ltac:(set_solver)). unfold before in Hb.
    simpl. rewrite (proj2 (Z.eqb_neq _ _)), (proj2 (Z.ltb_lt _ _)) by lia. done. }
  rewrite <-Hmain, <-IH. destruct (search a rs) as [i|i] eqn:Hs.
  - split; [by left|]. intros [?|[Ha _]]; [done|]. by specialize (Hlow Ha).
  - destruct i as [|i]; simpl.
    + destruct (Z.ltb_spec a (r_end r0)); split; naive_solver lia.
    + split; [by left|]. intros [?|[Ha _]]; [done|]. by specialize (Hlow Ha).
Qed.

Lemma insert_at_elem {A} i (x : A) l y : y ∈ insert_at i x l ↔ y = x ∨ y ∈ l.
Proof.
  unfold insert_at. rewrite elem_of_app, elem_of_cons.
  rewrite <-(take_drop i l) at 3. rewrite elem_of_app. naive_solver.
Qed.

(** Inserting a new page where the search says keeps the order. *)
Lemma insert_page_ok rs a i fl : pages_ok rs → 0 ≤ a → a mod 4096 = 0 → search a rs = inr i →
  pages_ok (insert_at i (mkRegion a (a + 4096) fl) rs).
Proof.
  revert i. induction rs as [|r0 rs IH]; intros i Hok Ha Hm Hs.
  { simpl in Hs. injection Hs as <-. apply pages_ok_cons. split_and!; [done|set_solver|done]. }
  pose proof Hok as (Hr0 & Hb & Hok')%pages_ok_cons. cbn [search] in Hs.
  destruct (Z.eqb_spec (r_start r0) a); [done|]. destruct Hr0 as (H0 & Hm0 & He0).
  destruct (Z.ltb_spec a (r_start r0)).
  { injection Hs as <-. apply pages_ok_cons. split_and!; [done| |done]. intros r' Hr'. unfold before. simpl.
    assert (a + 4096 ≤ r_start r0) by (Z.div_mod_to_equations; lia).
    apply elem_of_cons in Hr' as [->|Hr']; [done|]. specialize (Hb r' Hr'). unfold before in Hb. lia. }
  destruct (search a rs) as [j|j] eqn:Hj; [done|]. injection Hs as <-.
  change (insert_at (S j) (mkRegion a (a + 4096) fl) (r0 :: rs)) with (r0 :: insert_at j (mkRegion a (a + 4096) fl) rs).
  apply pages_ok_cons. split_and!; [done| |by apply IH]. intros r' Hr'.
  apply insert_at_elem in Hr' as [->|Hr']; [|by apply Hb]. unfold before. simpl.
  Z.div_mod_to_equations; lia.
Qed.

Lemma region_of_insert rs a i fl : pages_ok rs → a mod 4096 = 0 →
  (∀ r, ¬ region_of rs a r) → ∀ b r,
  region_of (insert_at i (mkRegion a (a + 4096) fl) rs) b r ↔
    region_of rs b r ∨ a ≤ b < a + 4096 ∧ r = mkRegion a (a + 4096) fl.
Proof.
  intros Hok Hm Hno b r. unfold region_of. rewrite insert_at_elem. naive_solver.
Qed.

(** ** [brk] *)

Section brk.
Context `{BF : Bitflags} `{HBF : !BitflagsOk BF}.

Definition user_rw : Z := Z.lor PTE_RW PTE_U.

(** The pages from [lo] to [hi] that had no region now have one. *)
Definition grown (rs rs' : list VmRegion) (lo hi : Z) : Prop :=
  pages_ok rs' ∧ ∀ a r, region_of rs' a r ↔
    region_of rs a r ∨ (∀ r', ¬ region_of rs a r') ∧ lo ≤ a < hi ∧
      r = mkRegion (a - a mod 4096) (a - a mod 4096 + 4096) user_rw.

Definition with_regions (rs : list VmRegion) (s : Space) : Space :=
  set_mm (set_regions rs (mm s)) s.

Lemma grown_refl rs lo : pages_ok rs → grown rs rs lo lo.
Proof. intros Hok. split; [done|]. intros a r. split; [by left|]. intros [?|(_ & ? & _)]; [done|lia]. Qed.

(** Regions are pages: an address is in one exactly if its page is. *)
Lemma region_of_page rs a r : pages_ok rs → 0 ≤ a →
  region_of rs a r ↔ region_of rs (a - a mod 4096) r.
Proof.
  intros [_ Hf] Ha. unfold region_of. split; intros [Hin Hr]; (split; [done|]);
    rewrite Forall_forall in Hf; destruct (Hf r Hin) as (? & ? & ?); Z.div_mod_to_equations; lia.
Qed.

Lemma map_page_if_not_exist_spec s addr : pages_ok (regions (mm s)) →
  0 ≤ addr → addr mod 4096 = 0 → addr + 4096 < 2 ^ 64 →
  ∃ b rs', map_page_if_not_exist addr (bf_bitor PTE_RW PTE_U) s = (Ok b, with_regions rs' s) ∧
    grown (regions (mm s)) rs' addr (addr + 4096).
Proof.
  intros Hok H0 Hm Hlt. unfold map_page_if_not_exist. unfold bind at 1, gets.
  cbn [id]. rewrite bf_bitor_spec. fold user_rw.
  pose proof (λ r, lookup_region_spec (regions (mm s)) addr r Hok) as Hlk. unfold lookup_region in Hlk.
  assert (Hhas : ∀ r0, region_of (regions (mm s)) addr r0 → grown (regions (mm s)) (regions (mm s)) addr (addr + 4096)).
  { intros r0 Hr0. split; [done|]. intros a r. split; [by left|]. intros [?|(Hno & Ha & _)]; [done|].
    exfalso. apply (Hno r0), region_of_page; [done|lia|].
    replace (a - a mod 4096) with addr; [done|]. Z.div_mod_to_equations; lia. }
  assert (Hsame : with_regions (regions (mm s)) s = s) by (by destruct s as [[] ?]).
  destruct (search addr (regions (mm s))) as [i|i] eqn:Hs.
  - exists false, (regions (mm s)). rewrite Hsame. split; [done|].
    destruct (search_found _ _ _ Hs) as [r0 Hr0]. rewrite Hr0 in Hlk. by apply (Hhas r0), Hlk.
  - destruct (region_before i addr (regions (mm s))) as [r0|] eqn:Hr.
    { exists false, (regions (mm s)). rewrite Hsame. split; [done|]. by apply (Hhas r0), Hlk. }
    unfold bind, lift, offset_by, checked_add. change PAGE_SIZE with 4096. cbn [Z.ltb].
    rewrite (proj2 (Z.ltb_ge _ _)), (proj2 (Z.ltb_lt _ _)) by lia. cbn [ok_or].
    eexists _, _. split; [reflexivity|].
    assert (Hno : ∀ r, ¬ region_of (regions (mm s)) addr r) by (intros r Hr'%Hlk; congruence).
    split; [by apply insert_page_ok|]. intros a r. rewrite region_of_insert by done.
    assert (Hpg : addr ≤ a < addr + 4096 → a - a mod 4096 = addr) by (Z.div_mod_to_equations; lia).
    split.
    + intros [?|[Ha ->]]; [by left|right]. rewrite Hpg by done. split_and!; [|lia..|done].
      intros r' Hr'. apply region_of_page in Hr'; [|done|lia]. rewrite Hpg in Hr' by done. by eapply Hno.
    + intros [?|(_ & Ha & ->)]; [by left|right]. by rewrite Hpg.
Qed.

Lemma grown_trans rs rs1 rs2 lo mid hi : lo ≤ mid ≤ hi →
  grown rs rs1 lo mid → grown rs1 rs2 mid hi → grown rs rs2 lo hi.
Proof.
  intros Hle [Hok1 H1] [Hok2 H2]. split; [done|]. intros a r. rewrite H2, H1. split.
  - intros [[?|(? & ? & ?)]|(Hno & ? & ?)]; [by left|right; split_and!; [done|lia..|done]|].
    right. split_and!; [|lia..|done]. intros r' Hr'. apply (Hno r'), H1. by left.
  - intros [?|(Hno & Ha & ->)]; [by auto|]. destruct (decide (a < mid)).
    + left. right. split_and!; [done|lia..|done].
    + right. split_and!; [|lia..|done]. intros r' [?|(_ & ? & _)]%H1; [by eapply Hno|lia].
Qed.

Lemma brk_loop_spec n : ∀ s addr, pages_ok (regions (mm s)) → 0 ≤ addr → addr mod 4096 = 0 →
  addr + Z.of_nat n * 4096 < 2 ^ 64 →
  ∃ rs', brk_loop n addr (addr + Z.of_nat n * 4096) s = (Ok tt, with_regions rs' s) ∧
    grown (regions (mm s)) rs' addr (addr + Z.of_nat n * 4096).
Proof.
  induction n as [|n IH]; intros s addr Hok H0 Hm Hlt.
  { exists (regions (mm s)). cbn [brk_loop]. rewrite Z.add_0_r, Z.ltb_irrefl. simpl. split.
    - by destruct s as [[] ?].
    - by apply grown_refl. }
  cbn [brk_loop]. rewrite (proj2 (Z.ltb_lt _ _)) by lia. cbn [negb].
  destruct (map_page_if_not_exist_spec s addr) as (b & rs1 & Hmp & Hg1); [done..|lia|].
  rewrite (bind_ok _ _ _ _ _ Hmp). unfold bind at 1, lift, offset_by, checked_add.
  change PAGE_SIZE with 4096. rewrite (proj2 (Z.ltb_ge _ _)), (proj2 (Z.ltb_lt _ _)) by lia. cbn [ok_or].
  destruct (IH (with_regions rs1 s) (addr + 4096)) as (rs2 & Hl & Hg2);
    [apply Hg1|lia|Z.div_mod_to_equations; lia|lia|].
  replace (addr + Z.of_nat (S n) * 4096) with (addr + 4096 + Z.of_nat n * 4096) by lia.
  exists rs2. split; [exact Hl|]. eapply grown_trans; [|exact Hg1|exact Hg2]. lia.
Qed.

Definition page_up (x : Z) : Z := (x + 4095) / 4096 * 4096.

Lemma align_up_page {E} a : is_usize a →
  align_up (E := E) a PAGE_SIZE = if a + 4096 <? 2 ^ 64 then Ok (page_up a) else Panic.
Proof.
  intros Ha. change PAGE_SIZE with (2 ^ 12). rewrite align_up_pow2 by (done || lia).
  change (2 ^ 12) with 4096. unfold page_up. by replace (a + 4096 - 1) with (a + 4095) by lia.
Qed.

(** C34: [brk] moves the break of the heap and reserves what lies below it.  A
    target at or below the heap's start only reports the break; a lower target
    is taken and keeps the regions; a higher one gives every page between the
    old and the new break a user read-write region, unless it has one already,
    and keeps all others.  The regions stay sorted, disjoint pages, no memory
    is allocated and no page table changes.  The only other outcome is the
    overflow panic of [align_up], for a target in the last page of the address
    space. *)
Theorem brk_spec s new :
  pages_ok (regions (mm s)) → is_usize (brk (mm s)) → is_usize new →
  match do_brk new s with
  | (Ok b, s') => ∃ rs',
      s' = mkSpace (mkMm (root_pt (mm s)) rs' (kernel_stack (mm s)) (start_brk (mm s)) b) (km s) ∧
      b = (if new <=? start_brk (mm s) then brk (mm s) else new) ∧
      pages_ok rs' ∧
      (if (start_brk (mm s) <? new) && (brk (mm s) <? new)
       then grown (regions (mm s)) rs' (page_up (brk (mm s))) (page_up new)
       else rs' = regions (mm s))
  | (Panic, s') => s' = s ∧ start_brk (mm s) < new ∧ brk (mm s) < new ∧ 2 ^ 64 ≤ new + 4096
  | _ => False
  end.
Proof.
  intros Hok Hold Hnew. unfold do_brk. unfold bind at 1, gets. cbn [id].
  destruct s as [[root rs st sb old] k]. cbn [mm regions brk start_brk root_pt kernel_stack km] in *.
  destruct (Z.leb_spec new sb).
  { simpl. exists rs. rewrite (proj2 (Z.ltb_ge sb new)) by done. done. }
  rewrite (proj2 (Z.ltb_lt sb new)) by done. destruct (Z.ltb_spec new old).
  { simpl. exists rs. rewrite (proj2 (Z.ltb_ge old new)) by lia. done. }
  destruct (Z.ltb_spec old new).
  2:{ simpl. exists rs. assert (new = old) as -> by lia. done. }
  unfold bind at 1, lift. rewrite align_up_page by done.
  destruct (Z.ltb_spec (old + 4096) (2 ^ 64)); [|split_and!; [done|lia..]].
  unfold bind at 1. rewrite align_up_page by done.
  destruct (Z.ltb_spec (new + 4096) (2 ^ 64)); [|split_and!; [done|lia..]].
  unfold page_up. change PAGE_SIZE with 4096.
  set (lo := (old + 4095) / 4096 * 4096). set (hi := (new + 4095) / 4096 * 4096). destruct Hold, Hnew.
  assert (Hlh : lo ≤ hi ∧ 0 ≤ lo ∧ lo mod 4096 = 0 ∧ hi mod 4096 = 0 ∧ hi < 2 ^ 64)
    by (unfold lo, hi; split_and!; Z.div_mod_to_equations; lia).
  destruct Hlh as (? & ? & ? & ? & ?). set (n := Z.to_nat ((hi - lo) / 4096)).
  assert (Hhi : hi = lo + Z.of_nat n * 4096) by (unfold n; Z.div_mod_to_equations; lia).
  destruct (brk_loop_spec n (mkSpace (mkMm root rs st sb old) k) lo) as (rs' & Hl & Hg); [done..|lia|].
  rewrite <-Hhi in Hl, Hg. rewrite (bind_ok _ _ _ _ _ Hl). simpl. exists rs'.
  split_and!; [done|done|apply Hg|exact Hg].
Qed.
End brk.

Lemma brk_spec_witness : ∃ rs',
  do_brk 0x11800 (mkSpace (mkMm 0 [] (mkStack 0 0 0) 0x10000 0x10000) example_kmem) =
    (Ok 0x11800, mkSpace (mkMm 0 rs' (mkStack 0 0 0) 0x10000 0x11800) example_kmem) ∧
  grown [] rs' 0x10000 0x12000.
Proof.
  set (s := mkSpace (mkMm 0 [] (mkStack 0 0 0) 0x10000 0x10000) example_kmem).
  assert (Hok : pages_ok (regions (mm s))) by (split; constructor).
  assert (Ho : (do_brk 0x11800 s).1 = Ok 0x11800) by (vm_compute; reflexivity).
  pose proof (brk_spec s 0x11800 Hok ltac:(cbn; done) ltac:(done)) as Hb.
  destruct (do_brk 0x11800 s) as [r s']. cbn [fst] in Ho. subst r.
  destruct Hb as (rs' & -> & _ & _ & Hg). exists rs'. split; [done|]. exact Hg.
Defined.
