(* ===== verification/MemFault.v ===== *)
(** * Page faults

    [MemoryManager::handle_page_fault] and [map_allocate_page] of
    [kernel/src/mm/mod.rs] on a well-formed address space: demand paging gives
    a private zeroed frame, and a fault on a mapped page is a copy-on-write or
    an error.  The model is in MemMgr. *)

From S2P Require Import Prelude Errors Addr Sv39 FrameAllocator PageMeta PageTable PageMap PageFork MemMgr.

(** An address that no leaf covers has a free slot. *)
Lemma walk_none_unmapped n m : ∀ t q, shape n m t → length q = n →
  Forall (λ i, 0 ≤ i < 512) q → walk m t q = None → unmapped m t q = true.
Proof.
  induction n as [|n IH]; intros t q Hs Hl Hr Hw; [done|].
  destruct q as [|i q]; [done|]. apply Forall_cons in Hr as [Hi Hr]. injection Hl as Hl.
  cbn [walk unmapped] in *. destruct (shape_entry n m t i Hs Hi) as [_ Hsub].
  destruct (is_table (entry m t i)); [|by destruct (is_valid (entry m t i))].
  apply (IH _ q); auto.
Qed.

Lemma align_down_page a : is_usize a → align_down a PAGE_SIZE = a - a mod 4096.
Proof. intros Ha. change PAGE_SIZE with (2 ^ 12). by rewrite align_down_pow2. Qed.

Lemma page_base_ok a : is_u64 a → va_ok a = true →
  is_u64 (a - a mod 4096) ∧ va_ok (a - a mod 4096) = true ∧ (a - a mod 4096) mod 4096 = 0.
Proof.
  intros Ha Hok. assert (Hb : is_u64 (a - a mod 4096)) by (unfold in_width in *; Z.div_mod_to_equations; lia).
  split_and!; [done| |Z.div_mod_to_equations; lia]. rewrite va_ok_spec in Hok |- * by done.
  change (2 ^ 38) with 274877906944 in *. unfold in_width in *.
  change (2 ^ 64) with 18446744073709551616 in *. Z.div_mod_to_equations; lia.
Qed.

Section faults.
Context `{BF : Bitflags} `{HBF : !BitflagsOk BF}.

(** The kernel's view of the root table. *)
Lemma root_mapped k root : aspace k root →
  phys_to_virt (E := Error) root = Ok (root + KERNEL_DIRECT_MAPPING_BASE) ∧
  va_from_raw_unchecked (E := Error) (root + KERNEL_DIRECT_MAPPING_BASE) =
    Ok (root + KERNEL_DIRECT_MAPPING_BASE) ∧
  pa_from_raw_unchecked (E := Error) root = Ok root.
Proof.
  intros (_ & [(Htok & _) _] & _).
  destruct (table_ok_mapped root KERNEL_DIRECT_MAPPING_BASE Htok) as [H1 H2]; [by right|].
  split_and!; [done| |].
  - unfold va_from_raw in H2. unfold va_from_raw_unchecked. by destruct (va_ok _).
  - destruct (table_ok_page_ok _ Htok) as [(? & ? & ?) _]. unfold pa_from_raw_unchecked.
    rewrite (proj2 (Z.leb_le _ _)); [done|]. change PA_MAX with (2 ^ 55 - 1). lia.
Qed.

Lemma mm_translate_spec s va : aspace (km s) (root_pt (mm s)) → 0 ≤ va → va_ok va = true →
  mm_translate va s = (translate (mem (km s)) (root_pt (mm s)) va, s).
Proof.
  intros Has Hva Hok. destruct (root_mapped _ _ Has) as (H1 & H2 & _).
  unfold mm_translate, bind, gets, lift. cbn [id]. rewrite H1, H2.
  unfold va_from_raw_unchecked. by rewrite Hok.
Qed.

(** What a new zeroed page at [base] leaves: [pa] is its frame. *)
Record page_given (k k' : Kmem) (root base flags pa : Z) : Prop := {
  pg_fresh : ¬ held (fa k) pa ∧ held (fa k') pa;
  pg_held x : held (fa k) x → held (fa k') x;
  pg_space : aspace k' root;
  pg_zero : frame (mem k') pa = replicate 512 0;
  pg_rest x : held (fa k) x → x ∉ tables 3 (mem k) root → frame (mem k') x = frame (mem k) x;
  pg_meta : meta_ok k';
  pg_refs a : refs (meta k') a = if decide (a = pa) then 1 else refs (meta k) a;
  pg_translate va : is_u64 va → va_ok va = true → translate (mem k') root va =
    if decide (base ≤ va < base + 4096) then Ok (Some (pa + (va - base)))
    else translate (mem k) root va;
  pg_walk va : is_u64 va → va_ok va = true → walk (mem k') root (path_of va Size4K) =
    if decide (base ≤ va < base + 4096) then Some (leaf_pte pa flags, 0%nat)
    else walk (mem k) root (path_of va Size4K);
  pg_frame : table_ok pa ∧ pa ∉ tables 3 (mem k') root;
  pg_tables x : x ∈ tables 3 (mem k') root → x ∈ tables 3 (mem k) root ∨ ¬ held (fa k) x;
}.

(** [alloc_frame], [zero_frame], [map_vm] and [page::add], in this order. *)
Definition give_page (base flags : Z) : MM unit :=
  let! pa := kmem (unwrapped alloc_frame) in
  kmem (zero_frame pa) ;;;
  mm_map_vm base pa flags ;;;
  kmem (page_add pa).

Lemma give_page_spec s base flags :
  aspace (km s) (root_pt (mm s)) → meta_ok (km s) → is_u64 base → va_ok base = true →
  base mod 4096 = 0 → leaf_flags flags →
  walk (mem (km s)) (root_pt (mm s)) (path_of base Size4K) = None →
  match give_page base flags s with
  | (Ok _, s') => mm s' = mm s ∧ ∃ pa, page_given (km s) (km s') (root_pt (mm s)) base flags pa
  | (Panic, s') => full (fa (km s'))
  | _ => False
  end.
Proof.
  intros Has [Hmw Hm0] Hb Hbok Hbm Hfl Hw. pose proof Has as (Hk & [Hs Hnd] & Hown).
  set (root := root_pt (mm s)) in *. unfold give_page, kmem, zoom, unwrapped. unfold bind at 1.
  pose proof (alloc_frame_spec (km s) Hk) as Ha.
  destruct (alloc_frame (km s)) as [[pa|e| |] k1]; [|by destruct Ha as [-> ?]|done..].
  destruct Ha as (Hmem1 & Hmeta1 & Hk1 & Hpa & Hnh & Hh1).
  destruct (table_ok_mapped pa KERNEL_DIRECT_MAPPING_BASE Hpa) as [Hpv _]; [by right|].
  destruct (table_ok_page_ok _ Hpa) as [Hpok _]. pose proof Hpok as (Hpa0 & Hpa4 & Hpa55).
  assert (Hnt : pa ∉ tables 3 (mem (km s)) root) by (intros Hin; apply Hnh, Hown, Hin).
  unfold bind at 1, zero_frame, bind, lift. unfold phys_to_virt at 1. rewrite Hpv. unfold write_frame, modify.
  set (k2 := set_mem (<[pa:=replicate 512 0]> (mem k1)) k1).
  assert (Hf2 : ∀ x, x ≠ pa → frame (mem k2) x = frame (mem (km s)) x)
    by (intros x Hx; simpl; by rewrite frame_insert_ne, Hmem1).
  destruct (aspace_keep (km s) k2 root Has) as (Has2 & Ht2 & _).
  { by destruct Hk1; split. }
  { intros x Hx. split; [apply Hf2; by intros ->|]. apply Hh1. right. by apply Hown. }
  assert (Hwk : ∀ q, length q = 3%nat → Forall (λ i, 0 ≤ i < 512) q →
    walk (mem k2) root q = walk (mem (km s)) root q).
  { intros q Hq Hr. apply (walk_frame 3); [done..|]. intros x Hx. apply Hf2. by intros ->. }
  pose proof (map_translate_spec k2 root base pa flags KERNEL_DIRECT_MAPPING_BASE Size4K Has2
    ltac:(by right) Hb Hbok Hbm Hpok Hpa4 Hfl) as Hmap.
  assert (Hun : unmapped (mem k2) root (path_of base Size4K) = true).
  { apply (walk_none_unmapped 3); [apply Has2|done|apply path_range|].
    by rewrite Hwk by (done || apply path_range). }
  specialize (Hmap Hun).
  pose proof (map_memory_spec k2 root base pa flags KERNEL_DIRECT_MAPPING_BASE Size4K Has2
    ltac:(by right) Hbm Hpok Hpa4 Hfl Hun) as Hmap2.
  unfold mm_map_vm, kmem, zoom, bind, gets, lift. cbn [id mm set_km km].
  destruct (root_mapped _ _ Has) as (H1 & H2 & _). fold root. rewrite H1, H2.
  unfold va_from_raw_unchecked at 1. rewrite Hbok. unfold pa_from_raw_unchecked.
  rewrite (proj2 (Z.leb_le pa PA_MAX)) by (change PA_MAX with (2 ^ 55 - 1); lia).
  unfold map_vm, map_vm_with_page_size. fold k2.
  destruct (map_memory_with_base root base (Some pa) flags _ Size4K k2) as [[[]|e| |] k3]; [|done..].
  destruct Hmap as (Has3 & (Hmeta3 & Hh3 & Hrest3 & Hnew3) & Htr). destruct Hmap2 as (_ & _ & Hw3). unfold page_add, modify. cbn [mm km set_km].
  split; [done|]. exists pa.
  assert (Hme : meta k3 = meta (km s)) by (by rewrite Hmeta3).
  pose proof (Hm0 pa Hnh) as Hr0.
  assert (Hadd := λ a, refs_add (meta (km s)) pa a Hmw ltac:(lia)). rewrite <-Hme in Hadd.
  split; cbn [fa mem meta set_meta].
  - split; [done|]. apply Hh3, Hh1. by left.
  - intros x Hx. apply Hh3, Hh1. by right.
  - by destruct Has3 as ([] & ? & ?).
  - rewrite Hrest3; [apply frame_insert|apply Hh1; by left|by rewrite Ht2].
  - intros x Hx Hxt. rewrite Hrest3, Hf2; [done| |apply Hh1; by right|by rewrite Ht2].
    intros ->. done.
  - split; [apply (Hadd 0)|]. intros x Hx. cbn [fa meta set_meta] in Hx |- *. rewrite (proj2 (Hadd x)), Hme, decide_False.
    + apply Hm0. intros Hx'. apply Hx, Hh3, Hh1. by right.
    + intros ->. apply Hx, Hh3, Hh1. by left.
  - intros a. rewrite (proj2 (Hadd a)), Hme. destruct (decide (a = pa)) as [->|]; [lia|done].
  - intros va Hva Hvok. specialize (Htr va Hva Hvok). change (bytes Size4K) with 4096 in Htr.
    destruct (decide _); [by destruct Htr|]. destruct Htr as [-> _].
    rewrite !translate_walk by (done || apply Has2 || apply Hva). by rewrite Hwk by (done || apply path_range).
  - intros va Hva Hvok. rewrite Hw3 by (done || apply path_range).
    pose proof (path_prefix base va Size4K Hb Hva Hbok Hvok Hbm) as Hpp. change (bytes Size4K) with 4096 in Hpp.
    destruct (decide (base ≤ va < base + 4096)) as [Hin|Hin].
    + by rewrite decide_True by (by apply Hpp).
    + rewrite decide_False by (by rewrite Hpp). by apply Hwk, path_range.
  - split; [done|]. intros [Hin|Hin]%Hnew3; [by rewrite Ht2 in Hin|]. apply Hin, Hh1. by left.
  - intros x [Hin|Hin]%Hnew3; [left; by rewrite <-Ht2|]. right. intros Hx. apply Hin, Hh1. by right.
Qed.

Lemma handle_page_fault_spec s fault access :
  aspace (km s) (root_pt (mm s)) → meta_ok (km s) → pages_ok (regions (mm s)) →
  Forall (λ r, leaf_flags (r_flags r)) (regions (mm s)) → is_usize fault → va_ok fault = true →
  let base := fault - fault mod 4096 in
  let old := walk (mem (km s)) (root_pt (mm s)) (path_of base Size4K) in
  ((∀ r, region_of (regions (mm s)) fault r → Z.land (r_flags r) access ≠ access) →
     handle_page_fault fault access s = (Err Unmapped, s)) ∧
  ∀ r, region_of (regions (mm s)) fault r → Z.land (r_flags r) access = access →
    (is_Some old → handle_page_fault fault access s =
       if Z.land access PTE_W =? PTE_W then kmem (copy_on_write (root_pt (mm s)) base) s
       else (Err Unmapped, s)) ∧
    (old = None →
       match handle_page_fault fault access s with
       | (Ok _, s') => mm s' = mm s ∧
           ∃ pa, page_given (km s) (km s') (root_pt (mm s)) base (r_flags r) pa
       | (Panic, s') => full (fa (km s'))
       | _ => False
       end).
Proof.
  intros Has Hmeta Hok Hfl Hf Hfok base old. destruct (page_base_ok fault Hf Hfok) as (Hb & Hbok & Hbm).
  fold base in Hb, Hbok, Hbm. pose proof Has as (_ & [Hs _] & _).
  assert (Hrg : ∀ r, region_of (regions (mm s)) fault r ↔ lookup_region base (regions (mm s)) = Some r).
  { intros r. rewrite (lookup_region_spec _ _ _ Hok). apply region_of_page; [done|apply Hf]. }
  assert (Hhp : handle_page_fault fault access s =
    match lookup_region base (regions (mm s)) with
    | None => (Err Unmapped, s)
    | Some r =>
        if negb (bf_contains (r_flags r) access) then (Err Unmapped, s) else
        (let! mapped := mm_translate base in
         match mapped with
         | Some _ => if bf_contains access PTE_W then
             let! addr' := lift (va_from_raw_unchecked base) in
             let! root := lift (pa_from_raw_unchecked (root_pt (mm s))) in
             kmem (copy_on_write root addr') else fail Unmapped
         | None => give_page base (r_flags r)
         end) s
    end).
  { unfold handle_page_fault. rewrite align_down_page by done. fold base.
    unfold bind at 1, gets at 1. cbn [id]. unfold lookup_region.
    destruct (search base (regions (mm s))) as [i|i] eqn:Hsr.
    - destruct (search_found _ _ _ Hsr) as [r ->]. unfold bind at 1 2, lift at 1. cbn [unwrap ret].
      by destruct (bf_contains (r_flags r) access).
    - destruct (region_before i base (regions (mm s))) as [r|]; [|done].
      unfold bind at 1, lift at 1. cbn [ok_or fmap option_fmap option_map].
      by destruct (bf_contains (r_flags r) access). }
  rewrite Hhp. split.
  - intros Hno. destruct (lookup_region base (regions (mm s))) as [r|] eqn:Hl; [|done].
    rewrite bf_contains_spec, (proj2 (Z.eqb_neq _ _)); [done|]. by apply Hno, Hrg.
  - intros r Hr Hacc. apply Hrg in Hr as Hl. rewrite Hl, bf_contains_spec, Hacc, Z.eqb_refl.
    cbn [negb].
    assert (Htr : mm_translate base s = (Ok ((λ '(e, k), ppn_address e + base mod bytes (size_of k)) <$> old), s))
      by (rewrite mm_translate_spec, translate_walk by (done || apply Hb); done).
    rewrite (bind_ok _ _ _ _ _ Htr). split.
    + intros [[e k] ->]. simpl. rewrite bf_contains_spec. destruct (_ =? _); [|done].
      unfold bind, lift, va_from_raw_unchecked. rewrite Hbok.
      destruct (root_mapped _ _ Has) as (_ & _ & ->). done.
    + intros Hold. rewrite Hold. simpl. apply give_page_spec; [done..| |done].
      rewrite Forall_forall in Hfl. apply Hfl, Hr.
Qed.

(** C35: a page fault is resolved by demand paging or copy-on-write, or
    refused.  Without a region for the address that allows the access, the
    answer is [Unmapped] and nothing changes.  If the page is not mapped yet,
    it gets a frame that nobody held, filled with zeros, referenced once and
    mapped with the region's permissions; every other translation, every other
    frame in use outside the tables and every other reference count is kept.
    If it is mapped, a write is handed to [copy_on_write], and any other
    access is refused.  The memory manager's own fields never change. *)
Theorem page_fault_spec s fault access :
  aspace (km s) (root_pt (mm s)) → meta_ok (km s) → pages_ok (regions (mm s)) →
  Forall (λ r, leaf_flags (r_flags r)) (regions (mm s)) → is_usize fault → va_ok fault = true →
  let base := fault - fault mod 4096 in
  let old := walk (mem (km s)) (root_pt (mm s)) (path_of base Size4K) in
  ((∀ r, region_of (regions (mm s)) fault r → Z.land (r_flags r) access ≠ access) →
     handle_page_fault fault access s = (Err Unmapped, s)) ∧
  ∀ r, region_of (regions (mm s)) fault r → Z.land (r_flags r) access = access →
    (is_Some old → handle_page_fault fault access s =
       if Z.land access PTE_W =? PTE_W then kmem (copy_on_write (root_pt (mm s)) base) s
       else (Err Unmapped, s)) ∧
    (old = None →
       match handle_page_fault fault access s with
       | (Ok _, s') => mm s' = mm s ∧
           ∃ pa, page_given (km s) (km s') (root_pt (mm s)) base (r_flags r) pa
       | (Panic, s') => full (fa (km s'))
       | _ => False
       end).
Proof. apply handle_page_fault_spec. Qed.
End faults.

(** ** A first access to the heap *)

Definition example_space : Space :=
  mkSpace (mkMm 0x80200000 [mkRegion 0x10000 0x11000 user_rw] (mkStack 0 0 0) 0x10000 0x11000)
    example_kmem.

Lemma page_fault_spec_witness : ∃ s' pa,
  handle_page_fault 0x10123 PTE_W example_space = (Ok tt, s') ∧
  page_given example_kmem (km s') 0x80200000 0x10000 user_rw pa.
Proof.
  set (r := mkRegion 0x10000 0x11000 user_rw).
  assert (Hm : meta_ok (km example_space)).
  { split; [apply wf_empty|]. intros x _. reflexivity. }
  assert (Hok : pages_ok (regions (mm example_space))).
  { apply pages_ok_cons. split_and!; [done|intros r' Hr'; by apply elem_of_nil in Hr'|split; constructor]. }
  assert (Hfl : Forall (λ r, leaf_flags (r_flags r)) (regions (mm example_space))) by (by repeat constructor).
  assert (Ho : (handle_page_fault 0x10123 PTE_W example_space).1 = Ok tt) by (vm_compute; reflexivity).
  assert (Hw : walk (mem (km example_space)) 0x80200000 (path_of 0x10000 Size4K) = None)
    by (vm_compute; reflexivity).
  destruct (page_fault_spec example_space 0x10123 PTE_W example_aspace Hm Hok Hfl ltac:(done) ltac:(done))
    as [_ Hf].
  destruct (Hf r) as [_ Hg]; [split; [by left|cbn; lia]|reflexivity|]. specialize (Hg Hw).
  destruct (handle_page_fault 0x10123 PTE_W example_space) as [o s']. cbn [fst] in Ho. subst o.
  destruct Hg as (_ & pa & Hg). exists s', pa. split; [reflexivity|exact Hg].
Defined.
