(* ===== verification/Kmalloc.v ===== *)
(** * The kernel heap

    [kmalloc/src/linked_list_allocator.rs]: a list of nodes that tile the
    heap, each a header, padding, a back offset and the data.

    Heap memory is typed: a header is an object of 32 bytes at its address, a
    back offset one of 8 bytes.  A write destroys the objects it overlaps, by
    the allocator and by its clients alike, and an access to an object that is
    not there is an error of its own, [Wild].  That no run reaches it is part
    of what is proved. *)

From S2P Require Import Prelude Addr.

(** ** State *)

Inductive HeapError := Wild.

(** [struct Header]; 32 bytes, aligned to 8. *)
Record Header := mkHeader { h_sz : Z; h_free : bool; h_next : option Z }.
Definition HEADER_SIZE : Z := 32.
Definition HEADER_ALIGN : Z := 8.
Definition USIZE : Z := 8.

(** [struct LinkedListAllocator], and the objects in the heap. *)
Record Heap := mkHeap {
  start_addr : Z;
  end_addr : Z;
  head : Z;
  headers : gmap Z Header;
  backs : gmap Z Z;
}.

Abbreviation HM := (M Heap HeapError).

(** What a write to [[a, a + n)] leaves of the objects. *)
Definition apart (a n k size : Z) : Prop := k + size ≤ a ∨ a + n ≤ k.
#[export] Instance apart_dec a n k size : Decision (apart a n k size).
Proof. unfold apart. apply _. Defined.

Definition clobber (a n : Z) (s : Heap) : Heap :=
  mkHeap (start_addr s) (end_addr s) (head s)
    (filter (λ '(k, _), apart a n k HEADER_SIZE) (headers s))
    (filter (λ '(k, _), apart a n k USIZE) (backs s)).

Definition set_headers (h : gmap Z Header) (s : Heap) : Heap :=
  mkHeap (start_addr s) (end_addr s) (head s) h (backs s).
Definition set_backs (b : gmap Z Z) (s : Heap) : Heap :=
  mkHeap (start_addr s) (end_addr s) (head s) (headers s) b.

Definition put_header (a : Z) (h : Header) (s : Heap) : Heap :=
  let s' := clobber a HEADER_SIZE s in set_headers (<[a := h]> (headers s')) s'.
Definition put_back (a b : Z) (s : Heap) : Heap :=
  let s' := clobber a USIZE s in set_backs (<[a := b]> (backs s')) s'.

Definition read_header (a : Z) : HM Header := fun s => (ok_or (headers s !! a) Wild, s).
Definition read_back (a : Z) : HM Z := fun s => (ok_or (backs s !! a) Wild, s).

(** ** Operations *)

(** [LinkedListAllocator::new]; [None] is [Err(())]. *)
Definition heap_new (start_addr end_addr : Z) : option Heap :=
  lim ← checked_add 64 start_addr HEADER_SIZE;
  if end_addr <? lim then None else
  if start_addr =? 0 then None else
  Some (put_header start_addr (mkHeader (end_addr - start_addr) true None)
    (mkHeap start_addr end_addr start_addr ∅ ∅)).

(** Where the data of a node at [header_start] goes, and how much of the node
    an allocation takes. *)
Definition data_start {E} (header_start align : Z) : outcome E Z :=
  let? x := add_ov 64 header_start HEADER_SIZE in
  let? y := add_ov 64 x USIZE in
  align_up y align.
Definition alloc_size {E} (back_offset sz : Z) : outcome E Z :=
  let? x := add_ov 64 back_offset sz in
  align_up x HEADER_ALIGN.

(** The loop of [alloc] from [cur]; each round goes to the next node. *)
Fixpoint alloc_loop (fuel : nat) (cur sz align : Z) : HM Z :=
  match fuel with
  | O => diverge
  | S fuel' =>
      let! cur_node := read_header cur in
      let! data := lift (data_start cur align) in
      let! back_offset_pos := lift (sub_ov data USIZE) in
      let! back_offset := lift (sub_ov data cur) in
      let! asize := lift (alloc_size back_offset sz) in
      if h_free cur_node && (asize <=? h_sz cur_node) then
        let remaining := h_sz cur_node - asize in
        let! least := lift (align_up (HEADER_SIZE + USIZE + 1) HEADER_ALIGN) in
        (if least <=? remaining then
           modify (put_header cur (mkHeader asize false (h_next cur_node))) ;;;
           modify (put_back back_offset_pos back_offset) ;;;
           modify (put_header (cur + asize) (mkHeader remaining true (h_next cur_node))) ;;;
           modify (put_header cur (mkHeader asize false (Some (cur + asize))))
         else
           modify (put_header cur (mkHeader (h_sz cur_node) false (h_next cur_node))) ;;;
           modify (put_back back_offset_pos back_offset)) ;;;
        ret data
      else
        match h_next cur_node with
        | Some next => alloc_loop fuel' next sz align
        | None => panic
        end
  end.

(** [GlobalAlloc::alloc]; there is a round for each header at most. *)
Definition alloc (sz align : Z) : HM Z :=
  let! s := gets id in alloc_loop (size (headers s)) (head s) sz align.

(** [GlobalAlloc::dealloc]. *)
Definition dealloc (ptr : Z) : HM unit :=
  if ptr - USIZE =? 0 then ret tt else
  let! back_offset := read_back (ptr - USIZE) in
  if ptr - back_offset =? 0 then ret tt else
  let! header := read_header (ptr - back_offset) in
  modify (put_header (ptr - back_offset) (mkHeader (h_sz header) true (h_next header))).

(** The loop of [traverse]: the sum of the sizes. *)
Fixpoint traverse_loop (fuel : nat) (cur total : Z) : HM Z :=
  match fuel with
  | O => diverge
  | S fuel' =>
      let! header := read_header cur in
      let! total' := lift (add_ov 64 total (h_sz header)) in
      match h_next header with
      | Some next => traverse_loop fuel' next total'
      | None => ret total'
      end
  end.

(** [LinkedListAllocator::traverse], without its log. *)
Definition traverse : HM unit :=
  let! s := gets id in
  let! total := traverse_loop (size (headers s)) (head s) 0 in
  if total =? end_addr s - start_addr s then ret tt else panic.

(** ** The nodes of a heap *)

(** A node: its size, and the pointer and the size of the block in it. *)
Record Node := mkNode { n_sz : Z; n_live : option (Z * Z) }.

Definition is_free (n : Node) : bool := match n_live n with None => true | Some _ => false end.

Definition next_of (a : Z) (ns : list Node) : option Z :=
  match ns with [] => None | _ => Some a end.

(** A block in use is inside its node, behind the header and its back offset. *)
Definition live_ok (bk : gmap Z Z) (a : Z) (n : Node) : Prop :=
  match n_live n with
  | None => True
  | Some (p, sz) => a + 40 ≤ p ∧ 0 ≤ sz ∧ p + sz ≤ a + n_sz n ∧ bk !! (p - 8) = Some (p - a)
  end.

(** The nodes [ns] tile [[a, e)]. *)
Fixpoint chain (hd : gmap Z Header) (bk : gmap Z Z) (a : Z) (ns : list Node) (e : Z) : Prop :=
  match ns with
  | [] => a = e
  | n :: ns' =>
      32 ≤ n_sz n ∧ a mod 8 = 0 ∧
      hd !! a = Some (mkHeader (n_sz n) (is_free n) (next_of (a + n_sz n) ns')) ∧
      live_ok bk a n ∧ chain hd bk (a + n_sz n) ns' e
  end.

(** The first node is [a], the last ends at [e]. *)
Fixpoint total (ns : list Node) : Z :=
  match ns with [] => 0 | n :: ns' => n_sz n + total ns' end.

Lemma total_app ns ns' : total (ns ++ ns') = total ns + total ns'.
Proof. induction ns as [|n ns IH]; simpl; lia. Qed.

Lemma chain_end hd bk ns : ∀ a e, chain hd bk a ns e → e = a + total ns ∧ 0 ≤ total ns.
Proof.
  induction ns as [|n ns IH]; intros a e Hc; simpl in *; [lia|].
  destruct Hc as (? & _ & _ & _ & Hc). apply IH in Hc. lia.
Qed.

(** Two heaps with the same objects in [[lo, hi)]. *)
Definition agree (s s' : Heap) (lo hi : Z) : Prop :=
  (∀ k, lo ≤ k → k + 32 ≤ hi → headers s' !! k = headers s !! k) ∧
  (∀ k, lo ≤ k → k + 8 ≤ hi → backs s' !! k = backs s !! k).

Lemma chain_agree s s' ns : ∀ a e, agree s s' a e →
  chain (headers s) (backs s) a ns e → chain (headers s') (backs s') a ns e.
Proof.
  induction ns as [|n ns IH]; intros a e Hag Hc; [done|]. cbn [chain] in *.
  destruct Hc as (Hsz & Hm & Hh & Hl & Hc). pose proof (chain_end _ _ _ _ _ Hc) as [-> Ht].
  destruct Hag as [Hgh Hgb]. split_and!; [done|done| | |].
  - rewrite Hgh; [done|lia|lia].
  - unfold live_ok in *. destruct (n_live n) as [[p z]|]; [|done].
    destruct Hl as (? & ? & ? & Hb). split_and!; [done..|]. rewrite Hgb; [done|lia|lia].
  - apply IH; [|done]. split; intros k ? ?; [apply Hgh|apply Hgb]; lia.
Qed.

Lemma chain_suffix hd bk pre : ∀ a l e, chain hd bk a (pre ++ l) e → chain hd bk (a + total pre) l e.
Proof.
  induction pre as [|n pre IH]; intros a l e Hc; simpl in *; [by rewrite Z.add_0_r|].
  destruct Hc as (_ & _ & _ & _ & Hc). apply IH in Hc. by rewrite Z.add_assoc.
Qed.

Lemma chain_prefix hd bk pre : ∀ a l e, chain hd bk a (pre ++ l) e → 0 ≤ total pre.
Proof.
  induction pre as [|n pre IH]; intros a l e Hc; simpl in *; [lia|].
  destruct Hc as (? & _ & _ & _ & Hc). apply IH in Hc. lia.
Qed.

(** The end of a chain can be replaced by another end that is not empty. *)
Lemma chain_replace s s' pre : ∀ a n post post' e e',
  chain (headers s) (backs s) a (pre ++ n :: post) e → agree s s' a (a + total pre) →
  chain (headers s') (backs s') (a + total pre) post' e' → post' ≠ [] →
  chain (headers s') (backs s') a (pre ++ post') e'.
Proof.
  induction pre as [|x pre IH]; intros a n post post' e e' Hc Hag Hc' Hne; cbn [app chain total] in *.
  { by rewrite Z.add_0_r in Hc'. }
  destruct Hc as (Hsz & Hm & Hh & Hl & Hc). destruct Hag as [Hgh Hgb].
  pose proof (chain_prefix _ _ _ _ _ _ Hc).
  split_and!; [done|done| | |].
  - rewrite Hgh, Hh by lia. do 2 f_equal. destruct pre; [|done]. by destruct post'.
  - unfold live_ok in *. destruct (n_live x) as [[p z]|]; [|done].
    destruct Hl as (? & ? & ? & Hb). split_and!; [done..|]. rewrite Hgb; [done|lia|lia].
  - rewrite Z.add_assoc in Hc'. eapply IH; [done| |done|done].
    split; intros k ? ?; [apply Hgh|apply Hgb]; lia.
Qed.

(** *** Writes *)

Lemma clobber_header a n s k : headers (clobber a n s) !! k =
  if decide (apart a n k 32) then headers s !! k else None.
Proof.
  cbn [headers clobber]. destruct (decide (apart a n k 32)).
  - destruct (headers s !! k) as [h|] eqn:Hk.
    + apply map_lookup_filter_Some. by split.
    + apply map_lookup_filter_None. by left.
  - apply map_lookup_filter_None. right. by intros h _ ?.
Qed.

Lemma clobber_back a n s k : backs (clobber a n s) !! k =
  if decide (apart a n k 8) then backs s !! k else None.
Proof.
  cbn [backs clobber]. destruct (decide (apart a n k 8)).
  - destruct (backs s !! k) as [h|] eqn:Hk.
    + apply map_lookup_filter_Some. by split.
    + apply map_lookup_filter_None. by left.
  - apply map_lookup_filter_None. right. by intros h _ ?.
Qed.

Lemma put_header_header a h s k : headers (put_header a h s) !! k =
  if decide (k = a) then Some h else if decide (apart a 32 k 32) then headers s !! k else None.
Proof.
  unfold put_header, set_headers. cbn [headers]. destruct (decide (k = a)) as [->|Hne].
  - by rewrite lookup_insert_eq.
  - rewrite lookup_insert_ne by done. apply clobber_header.
Qed.

Lemma put_header_back a h s k : backs (put_header a h s) !! k =
  if decide (apart a 32 k 8) then backs s !! k else None.
Proof. apply clobber_back. Qed.

Lemma put_back_header a b s k : headers (put_back a b s) !! k =
  if decide (apart a 8 k 32) then headers s !! k else None.
Proof. apply clobber_header. Qed.

Lemma put_back_back a b s k : backs (put_back a b s) !! k =
  if decide (k = a) then Some b else if decide (apart a 8 k 8) then backs s !! k else None.
Proof.
  unfold put_back, set_backs. cbn [backs]. destruct (decide (k = a)) as [->|Hne].
  - by rewrite lookup_insert_eq.
  - rewrite lookup_insert_ne by done. apply clobber_back.
Qed.

(** Decides the conditions of the lemmas above. *)
Ltac objects :=
  repeat first
    [ rewrite put_header_header | rewrite put_header_back | rewrite put_back_header
    | rewrite put_back_back | rewrite clobber_header | rewrite clobber_back
    | case_decide; unfold apart in *; try lia ].

(** ** Allocation *)

(** Where the data goes in a node at [a], and what the allocation takes. *)
Definition data_at (a k : Z) : Z := (a + 40 + 2 ^ k - 1) / 2 ^ k * 2 ^ k.
Definition taken (a k sz : Z) : Z := (data_at a k - a + sz + 7) / 8 * 8.

(** A layout that cannot overflow the address computations. *)
Definition layout_fits (e sz k : Z) : Prop :=
  0 ≤ k ≤ 62 ∧ 0 ≤ sz < 2 ^ 63 ∧ e + 2 ^ k + 40 < 2 ^ 64.

Lemma data_at_spec a k : 0 ≤ k → a + 40 ≤ data_at a k < a + 40 + 2 ^ k ∧ (2 ^ k | data_at a k).
Proof.
  intros Hk. unfold data_at. assert (Hp : 0 < 2 ^ k) by (by apply Z.pow_pos_nonneg).
  split; [|by apply Z.divide_factor_r]. generalize dependent (2 ^ k). intros p Hp.
  pose proof (Z.div_mod (a + 40 + p - 1) p ltac:(lia)).
  pose proof (Z.mod_pos_bound (a + 40 + p - 1) p Hp). lia.
Qed.

Lemma taken_spec a k sz : 0 ≤ k → 0 ≤ sz →
  data_at a k - a + sz ≤ taken a k sz < data_at a k - a + sz + 8 ∧ taken a k sz mod 8 = 0 ∧
  40 ≤ taken a k sz.
Proof.
  intros Hk Hs. destruct (data_at_spec a k Hk) as [? _]. unfold taken. Z.div_mod_to_equations; lia.
Qed.

(** The data's back offset is aligned as a header is. *)
Lemma data_at_8 a k : a mod 8 = 0 → 0 ≤ k → data_at a k mod 8 = 0.
Proof.
  intros Ha Hk. destruct (decide (k < 3)) as [Hlt|Hge].
  - unfold data_at. assert (k = 0 ∨ k = 1 ∨ k = 2) as [->|[->| ->]] by lia;
      [change (2 ^ 0) with 1|change (2 ^ 1) with 2|change (2 ^ 2) with 4]; Z.div_mod_to_equations; lia.
  - destruct (data_at_spec a k Hk) as [_ [q ->]]. replace (2 ^ k) with (8 * 2 ^ (k - 3)).
    + replace (q * (8 * 2 ^ (k - 3))) with (q * 2 ^ (k - 3) * 8) by lia. by apply Z.mod_mul.
    + change 8 with (2 ^ 3). rewrite <-Z.pow_add_r by lia. f_equal. lia.
Qed.

Lemma data_start_ok {E} a e k sz : 0 ≤ a → a + 32 ≤ e → layout_fits e sz k →
  data_start (E := E) a (2 ^ k) = Ok (data_at a k).
Proof.
  intros Ha He (Hk & Hs & Hf). unfold data_start, add_ov, checked_add. change HEADER_SIZE with 32.
  change USIZE with 8. rewrite (proj2 (Z.ltb_lt (a + 32) _)) by lia. cbn [unwrap obind].
  rewrite (proj2 (Z.ltb_lt (a + 32 + 8) _)) by lia. cbn [unwrap obind].
  replace (a + 32 + 8) with (a + 40) by lia. rewrite align_up_pow2 by (unfold in_width; lia).
  by rewrite (proj2 (Z.ltb_lt _ _)) by lia.
Qed.

Lemma alloc_size_ok {E} a e k sz : 0 ≤ a → a + 32 ≤ e → layout_fits e sz k →
  alloc_size (E := E) (data_at a k - a) sz = Ok (taken a k sz).
Proof.
  intros Ha He (Hk & Hs & Hf). destruct (data_at_spec a k) as [Hd _]; [lia|].
  assert (2 ^ k ≤ 2 ^ 62) by (apply Z.pow_le_mono_r; lia).
  unfold alloc_size, add_ov, checked_add. change HEADER_ALIGN with (2 ^ 3).
  rewrite (proj2 (Z.ltb_lt _ _)) by lia. cbn [unwrap obind].
  rewrite align_up_pow2 by (unfold in_width; lia). change (2 ^ 3) with 8.
  rewrite (proj2 (Z.ltb_lt _ _)) by lia. unfold taken. do 3 f_equal. lia.
Qed.

(** The heap after an allocation in the node at [a]. *)
Definition place (a data asize nsz : Z) (next : option Z) (s : Heap) : Heap :=
  if 48 <=? nsz - asize then
    put_header a (mkHeader asize false (Some (a + asize)))
      (put_header (a + asize) (mkHeader (nsz - asize) true next)
        (put_back (data - 8) (data - a) (put_header a (mkHeader asize false next) s)))
  else put_back (data - 8) (data - a) (put_header a (mkHeader nsz false next) s).

Definition fits (a k sz : Z) (n : Node) : bool := is_free n && (taken a k sz <=? n_sz n).

Lemma alloc_loop_spec s sz k e : ∀ ns a fuel,
  chain (headers s) (backs s) a ns e → ns ≠ [] → 0 ≤ a → (length ns ≤ fuel)%nat →
  layout_fits e sz k →
  (∃ pre n post, ns = pre ++ n :: post ∧ fits (a + total pre) k sz n = true ∧
     alloc_loop fuel a sz (2 ^ k) s =
       (Ok (data_at (a + total pre) k),
        place (a + total pre) (data_at (a + total pre) k) (taken (a + total pre) k sz) (n_sz n)
          (next_of (a + total pre + n_sz n) post) s)) ∨
  (∀ pre n post, ns = pre ++ n :: post → fits (a + total pre) k sz n = false) ∧
  alloc_loop fuel a sz (2 ^ k) s = (Panic, s).
Proof.
  induction ns as [|n ns IH]; intros a fuel Hc Hne Ha Hf Hl; [done|].
  destruct fuel as [|fuel]; [simpl in Hf; lia|]. pose proof Hc as (Hsz & Hm & Hh & _ & Hc').
  pose proof (chain_end _ _ _ _ _ Hc') as [He Ht]. pose proof Hl as (Hk & Hs & _).
  destruct (data_at_spec a k) as [Hd _]; [lia|]. destruct (taken_spec a k sz) as (Hta & _); [lia|lia|].
  assert (Hrun : alloc_loop (S fuel) a sz (2 ^ k) s =
    if fits a k sz n then (Ok (data_at a k), place a (data_at a k) (taken a k sz) (n_sz n) (next_of (a + n_sz n) ns) s)
    else match next_of (a + n_sz n) ns with
         | Some next => alloc_loop fuel next sz (2 ^ k) s
         | None => (Panic, s) end).
  { cbn [alloc_loop]. unfold bind at 1, read_header. rewrite Hh. cbn [ok_or]. unfold bind at 1, lift.
    rewrite (data_start_ok a e k sz) by (done || lia). unfold bind at 1, sub_ov, checked_sub at 1.
    change USIZE with 8. rewrite (proj2 (Z.leb_le 8 _)) by lia. cbn [unwrap].
    unfold bind at 1, checked_sub. rewrite (proj2 (Z.leb_le a _)) by lia. cbn [unwrap].
    unfold bind at 1. rewrite (alloc_size_ok a e) by (done || lia). cbn [h_free h_sz h_next].
    fold (fits a k sz n). unfold fits, place. destruct (is_free n && (taken a k sz <=? n_sz n)).
    - unfold bind, modify, ret. change (align_up (HEADER_SIZE + 8 + 1) HEADER_ALIGN) with (@Ok HeapError Z 48).
      cbv beta iota. by destruct (48 <=? n_sz n - taken a k sz).
    - by destruct (next_of (a + n_sz n) ns). }
  rewrite Hrun. destruct (fits a k sz n) eqn:Hfit.
  { left. exists [], n, ns. cbn [total]. by rewrite Z.add_0_r. }
  destruct ns as [|n' ns].
  { right. split; [|done]. intros pre m post Heq. destruct pre as [|x pre]; [|by destruct pre].
    injection Heq as <- <-. cbn [total]. by rewrite Z.add_0_r. }
  cbn [next_of]. destruct (IH (a + n_sz n) fuel) as [(pre & m & post & Heq & Hm' & Hr)|[Hno Hr]];
    [done|done|lia|simpl in *; lia|done| |].
  - left. exists (n :: pre), m, post. cbn [total app]. rewrite Z.add_assoc, Heq. done.
  - right. split; [|done]. intros pre m post Heq. destruct pre as [|x pre].
    + injection Heq as <- <-. cbn [total]. by rewrite Z.add_0_r.
    + injection Heq as <- Heq. cbn [total]. rewrite Z.add_assoc. by apply (Hno pre m post).
Qed.

(** What an allocation in node [n] at [h] makes of it. *)
Definition split_node (k sz h : Z) (n : Node) : list Node :=
  let used asize := mkNode asize (Some (data_at h k, sz)) in
  if 48 <=? n_sz n - taken h k sz
  then [used (taken h k sz); mkNode (n_sz n - taken h k sz) None]
  else [used (n_sz n)].

Lemma place_agree a data asize nsz next s : 40 ≤ asize ≤ nsz → a + 40 ≤ data ≤ a + asize →
  ∀ lo hi, hi ≤ a ∨ a + nsz ≤ lo → agree s (place a data asize nsz next s) lo hi.
Proof.
  intros Has Hd lo hi Ho. unfold place. destruct (Z.leb_spec 48 (nsz - asize));
    split; intros k Hlo Hhi; objects; done.
Qed.

Lemma place_chain s h k sz n post e :
  chain (headers s) (backs s) h (n :: post) e → 0 ≤ k → 0 ≤ sz → fits h k sz n = true →
  let s' := place h (data_at h k) (taken h k sz) (n_sz n) (next_of (h + n_sz n) post) s in
  chain (headers s') (backs s') h (split_node k sz h n ++ post) e.
Proof.
  intros (Hsz & Hm & Hh & _ & Hc) Hk Hs Hfit s'. apply andb_prop in Hfit as [Hfr Hta%Z.leb_le].
  destruct (data_at_spec h k Hk) as [Hd _]. destruct (taken_spec h k sz Hk Hs) as (Ht & Ht8 & Ht40).
  assert (Hpost : chain (headers s') (backs s') (h + n_sz n) post e).
  { eapply chain_agree, Hc. apply place_agree; lia. }
  unfold split_node. unfold s', place in *. destruct (Z.leb_spec 48 (n_sz n - taken h k sz)).
  - cbn [app chain n_sz n_live is_free live_ok next_of].
    replace (h + taken h k sz + (n_sz n - taken h k sz)) with (h + n_sz n) by lia.
    split_and!; [lia|done|by objects|lia|lia|lia|by objects|lia|Z.div_mod_to_equations; lia|by objects|done|done].
  - cbn [app chain n_sz n_live is_free live_ok next_of].
    split_and!; [lia|done|by objects|lia|lia|lia|by objects|done].
Qed.

(** ** The blocks in use *)

Definition blocks (ns : list Node) : list (Z * Z) := omap n_live ns.

Lemma blocks_bounds hd bk ns : ∀ a e p z, chain hd bk a ns e → (p, z) ∈ blocks ns →
  a + 40 ≤ p ∧ 0 ≤ z ∧ p + z ≤ e.
Proof.
  induction ns as [|n ns IH]; intros a e p z Hc Hin; [by apply elem_of_nil in Hin|].
  destruct Hc as (? & _ & _ & Hl & Hc). pose proof (chain_end _ _ _ _ _ Hc) as [-> ?].
  unfold blocks, live_ok in *. cbn [omap list_omap] in Hin. destruct (n_live n) as [[q y]|].
  - apply elem_of_cons in Hin as [[= <- <-]|Hin]; [lia|]. specialize (IH _ _ _ _ Hc Hin). lia.
  - specialize (IH _ _ _ _ Hc Hin). lia.
Qed.

(** Blocks are apart from each other, and no two have the same address. *)
Lemma blocks_apart hd bk ns : ∀ a e, chain hd bk a ns e → NoDup (blocks ns).*1 ∧
  ∀ p z q y, (p, z) ∈ blocks ns → (q, y) ∈ blocks ns → p ≠ q → p + z ≤ q ∨ q + y ≤ p.
Proof.
  induction ns as [|n ns IH]; intros a e Hc.
  { split; [constructor|]. intros p z q y Hin. by apply elem_of_nil in Hin. }
  destruct Hc as (? & _ & _ & Hl & Hc). destruct (IH _ _ Hc) as [Hnd Hap].
  pose proof (λ p z, blocks_bounds _ _ _ _ _ p z Hc) as Hb.
  unfold blocks, live_ok in *. cbn [omap list_omap]. destruct (n_live n) as [[q0 y0]|]; [|done].
  split.
  - cbn. apply NoDup_cons. split; [|done]. intros ([p z] & Heq & Hin)%list_elem_of_fmap.
    simpl in Heq. subst p. apply Hb in Hin. lia.
  - intros p z q y [[= <- <-]|Hp]%elem_of_cons [[= <- <-]|Hq]%elem_of_cons Hne; [done| | |by eauto].
    + apply Hb in Hq. lia.
    + apply Hb in Hp. lia.
Qed.

Lemma blocks_app ns ns' : blocks (ns ++ ns') = blocks ns ++ blocks ns'.
Proof. apply omap_app. Qed.

Lemma blocks_split k sz h n : is_free n = true →
  blocks (split_node k sz h n) = [(data_at h k, sz)] ∧ blocks [n] = [].
Proof.
  unfold is_free, split_node, blocks. destruct n as [z [|]]; [done|]. cbn.
  by destruct (48 <=? _).
Qed.

(** There is a header for each node. *)
Lemma chain_keys hd bk ns : ∀ a e, chain hd bk a ns e →
  ∃ ks : list Z, length ks = length ns ∧ NoDup ks ∧ (∀ k, k ∈ ks → a ≤ k ∧ is_Some (hd !! k)).
Proof.
  induction ns as [|n ns IH]; intros a e Hc; cbn [chain] in Hc.
  { exists []. split_and!; [done|constructor|]. intros k Hk. by apply elem_of_nil in Hk. }
  destruct Hc as (? & _ & Hh & _ & Hc). destruct (IH _ _ Hc) as (ks & Hl & Hnd & Hks).
  exists (a :: ks). split_and!; [simpl; lia| |].
  - apply NoDup_cons. split; [|done]. intros Hin. apply Hks in Hin. lia.
  - intros k [->|Hk]%elem_of_cons; [split; [done|by rewrite Hh]|]. apply Hks in Hk as [? ?].
    split; [lia|done].
Qed.

Lemma chain_length hd bk ns a e : chain hd bk a ns e → (length ns ≤ size hd)%nat.
Proof.
  intros Hc. destruct (chain_keys _ _ _ _ _ Hc) as (ks & <- & Hnd & Hks).
  rewrite <-size_dom, <-(size_list_to_set (C := gset Z)) by done.
  apply subseteq_size. intros k Hk%elem_of_list_to_set. apply elem_of_dom. by apply Hks.
Qed.

(** The invariant: the nodes tile the heap, and [L] has the blocks in use. *)
Definition heap_inv (start end_ : Z) (s : Heap) (L : gmap Z Z) : Prop :=
  start_addr s = start ∧ end_addr s = end_ ∧ head s = start ∧ 0 < start ∧
  ∃ ns, ns ≠ [] ∧ chain (headers s) (backs s) start ns end_ ∧
    ∀ p z, L !! p = Some z ↔ (p, z) ∈ blocks ns.

Lemma inv_new start end_ s : start mod 8 = 0 → 0 ≤ start → heap_new start end_ = Some s →
  heap_inv start end_ s ∅.
Proof.
  intros Hm H0 Hn. unfold heap_new, checked_add in Hn. change HEADER_SIZE with 32 in Hn.
  destruct (start + 32 <? 2 ^ 64); [|done]. cbn [mbind option_bind] in Hn.
  destruct (Z.ltb_spec end_ (start + 32)); [done|]. destruct (Z.eqb_spec start 0); [done|].
  injection Hn as <-. split_and!; [done|done|done|lia|].
  exists [mkNode (end_ - start) None]. split_and!; [done| |].
  - cbn [chain n_sz n_live is_free live_ok next_of].
    split_and!; [lia|done|objects; done|done|lia].
  - intros p z. cbn. rewrite lookup_empty. split; [done|]. intros Hin. by apply elem_of_nil in Hin.
Qed.

(** A block in use is in a node of its own. *)
Lemma block_node ns p z : (p, z) ∈ blocks ns →
  ∃ pre n post, ns = pre ++ n :: post ∧ n_live n = Some (p, z).
Proof.
  intros (n & Hn & Hp)%list_elem_of_omap. apply list_elem_of_split in Hn as (pre & post & ->). eauto.
Qed.

Lemma inv_alloc start end_ s L sz k : heap_inv start end_ s L → layout_fits end_ sz k →
  (∃ p s', alloc sz (2 ^ k) s = (Ok p, s') ∧ heap_inv start end_ s' (<[p := sz]> L) ∧
     L !! p = None ∧ (2 ^ k | p)) ∨
  (alloc sz (2 ^ k) s = (Panic, s) ∧ ∃ ns, chain (headers s) (backs s) start ns end_ ∧
     ∀ pre n post, ns = pre ++ n :: post → fits (start + total pre) k sz n = false).
Proof.
  intros (Hst & Hen & Hhd & H0 & ns & Hne & Hc & HL) Hl. pose proof Hl as (Hk & Hs & _).
  unfold alloc, bind, gets. cbn [id]. rewrite Hhd.
  destruct (alloc_loop_spec s sz k end_ ns start (size (headers s)) Hc Hne ltac:(lia)
    (chain_length _ _ _ _ _ Hc) Hl) as [(pre & n & post & -> & Hfit & ->)|[Hno ->]]; [|by right; eauto].
  left. pose proof (chain_suffix _ _ _ _ _ _ Hc) as Hcn. set (h := start + total pre) in *.
  set (s' := place _ _ _ _ _ s). exists (data_at h k), s'.
  assert (Hcn' := place_chain s h k sz n post end_ Hcn ltac:(lia) ltac:(lia) Hfit).
  pose proof Hfit as [Hfr Hta%Z.leb_le]%andb_prop. destruct (blocks_split k sz h n Hfr) as [Hb1 Hb0].
  destruct (data_at_spec h k ltac:(lia)) as [Hd Hal].
  destruct (taken_spec h k sz ltac:(lia) ltac:(lia)) as (Ht & _ & Ht40).
  assert (Hc' : chain (headers s') (backs s') start (pre ++ split_node k sz h n ++ post) end_).
  { eapply chain_replace; [exact Hc| |exact Hcn'|unfold split_node; by destruct (48 <=? _)].
    apply place_agree; lia. }
  assert (Hbl : ∀ q, q ∈ blocks (pre ++ split_node k sz h n ++ post) ↔
    q = (data_at h k, sz) ∨ q ∈ blocks (pre ++ n :: post)).
  { intros q. rewrite (cons_middle n), !blocks_app, Hb1, Hb0, !elem_of_app, elem_of_cons, elem_of_nil.
    naive_solver. }
  assert (Hfresh : L !! data_at h k = None).
  { apply eq_None_not_Some. intros [y Hy%HL]. destruct (blocks_apart _ _ _ _ _ Hc') as [Hnd _].
    rewrite (cons_middle n), !blocks_app, Hb0 in Hy. rewrite !blocks_app, Hb1, !fmap_app in Hnd.
    apply NoDup_app in Hnd as (_ & Hnd1 & Hnd2). apply NoDup_app in Hnd2 as (_ & Hnd2 & _).
    rewrite !elem_of_app, elem_of_nil in Hy. destruct Hy as [Hy|[[]|Hy]].
    - apply (Hnd1 (data_at h k)); [by apply (list_elem_of_fmap_2 fst _ _ Hy)|]. apply elem_of_app. left. by left.
    - apply (Hnd2 (data_at h k)); [by left|]. by apply (list_elem_of_fmap_2 fst _ _ Hy). }
  split_and!; [done| |done|done]. split_and!.
  1-3: unfold s', place; by destruct (48 <=? _).
  1: done.
  eexists. split_and!; [|exact Hc'|].
  - destruct pre; [|done]. unfold split_node. by destruct (48 <=? _).
  - intros p z. rewrite Hbl, <-HL, lookup_insert_Some. split.
    + intros [[<- <-]|[_ ?]]; [by left|by right].
    + intros [[= -> ->]|HLp]; [by left|right]. split; [|done]. intros <-. congruence.
Qed.

(** Changing the node of a block in place. *)
Lemma inv_node start end_ s s' L L' pre n n' post :
  heap_inv start end_ s L → chain (headers s) (backs s) start (pre ++ n :: post) end_ →
  start_addr s' = start_addr s → end_addr s' = end_addr s → head s' = head s →
  (∀ lo hi, hi ≤ start + total pre ∨ start + total pre + n_sz n ≤ lo → agree s s' lo hi) →
  n_sz n' = n_sz n → live_ok (backs s') (start + total pre) n' →
  headers s' !! (start + total pre) = Some (mkHeader (n_sz n') (is_free n')
    (next_of (start + total pre + n_sz n') post)) →
  (∀ p z, L' !! p = Some z ↔ (p, z) ∈ blocks (pre ++ n' :: post)) →
  heap_inv start end_ s' L'.
Proof.
  intros (Hst & Hen & Hhd & H0 & _) Hc E1 E2 E3 Hag Hsz Hl Hh HL.
  split_and!; [congruence..|done|]. exists (pre ++ n' :: post). split_and!; [by destruct pre| |done].
  pose proof (chain_suffix _ _ _ _ _ _ Hc) as (? & ? & _ & _ & Hp).
  eapply chain_replace; [exact Hc|apply Hag; lia| |done].
  cbn [chain]. rewrite Hsz in *. split_and!; [done|done|done|done|].
  eapply chain_agree, Hp. apply Hag. lia.
Qed.

Lemma inv_dealloc start end_ s L p z : heap_inv start end_ s L → L !! p = Some z →
  ∃ s', dealloc p s = (Ok tt, s') ∧ heap_inv start end_ s' (delete p L).
Proof.
  intros Hinv HLp. pose proof Hinv as (_ & _ & _ & H0 & ns & _ & Hc & HL).
  apply HL in HLp as Hin. destruct (block_node _ _ _ Hin) as (pre & n & post & -> & Hn).
  pose proof (chain_suffix _ _ _ _ _ _ Hc) as (Hsz & Hm & Hh & Hl & _).
  pose proof (chain_prefix _ _ _ _ _ _ Hc). set (h := start + total pre) in *.
  unfold live_ok in Hl. rewrite Hn in Hl. destruct Hl as (Hp & Hz & Hpz & Hb).
  unfold dealloc, bind, read_back, read_header. change USIZE with 8.
  rewrite (proj2 (Z.eqb_neq _ _)) by lia. rewrite Hb. cbn [ok_or].
  replace (p - (p - h)) with h by lia. rewrite (proj2 (Z.eqb_neq _ _)) by lia.
  rewrite Hh. cbn [ok_or h_sz h_next]. eexists. split; [reflexivity|].
  eapply (inv_node start end_ s _ L _ pre n (mkNode (n_sz n) None) post); try done.
  - intros lo hi Ho. split; intros k ? ?; objects; done.
  - by objects.
  - intros q y. rewrite lookup_delete_Some, HL.
    destruct (blocks_apart _ _ _ _ _ Hc) as [Hnd _].
    rewrite (cons_middle n), (cons_middle (mkNode (n_sz n) None)), !blocks_app in *.
    assert (blocks [n] = [(p, z)]) as Hbn by (unfold blocks; cbn; by rewrite Hn).
    rewrite Hbn in *. rewrite !elem_of_app, elem_of_cons, elem_of_nil.
    rewrite !fmap_app in Hnd. apply NoDup_app in Hnd as (_ & Hnd1 & Hnd2).
    apply NoDup_app in Hnd2 as (_ & Hnd2 & _).
    split; [intros [Hne [?|[[[= <- <-]|[]]|?]]]; by auto|].
    intros [Hq|[[]%elem_of_nil|Hq]]; (split; [|by auto]); intros <-.
    + apply (Hnd1 p); [by apply (list_elem_of_fmap_2 fst _ _ Hq)|]. apply elem_of_app. left. by left.
    + apply (Hnd2 p); [by left|]. by apply (list_elem_of_fmap_2 fst _ _ Hq).
Qed.

(** A client's write inside its block. *)
Lemma inv_write start end_ s L p z a n : heap_inv start end_ s L → L !! p = Some z →
  p ≤ a → a + n ≤ p + z → heap_inv start end_ (clobber a n s) L.
Proof.
  intros Hinv HLp Ha Hn. pose proof Hinv as (_ & _ & _ & H0 & ns & _ & Hc & HL).
  apply HL in HLp as Hin. destruct (block_node _ _ _ Hin) as (pre & m & post & -> & Hm).
  pose proof (chain_suffix _ _ _ _ _ _ Hc) as (Hsz & _ & Hh & Hl & _).
  unfold live_ok in Hl. rewrite Hm in Hl. destruct Hl as (Hp & Hz & Hpz & Hb).
  eapply (inv_node start end_ s _ L L pre m m post); try done.
  - intros lo hi Ho. split; intros k ? ?; objects; done.
  - unfold live_ok. rewrite Hm. split_and!; [done..|]. by objects.
  - by objects.
Qed.

Lemma traverse_loop_spec s e : ∀ ns a fuel t, chain (headers s) (backs s) a ns e → ns ≠ [] →
  (length ns ≤ fuel)%nat → 0 ≤ t → t + (e - a) < 2 ^ 64 →
  traverse_loop fuel a t s = (Ok (t + (e - a)), s).
Proof.
  induction ns as [|n ns IH]; intros a fuel t Hc Hne Hf Ht Hov; [done|].
  destruct fuel as [|fuel]; [simpl in Hf; lia|]. destruct Hc as (Hsz & _ & Hh & _ & Hc).
  pose proof (chain_end _ _ _ _ _ Hc) as [-> Hp].
  cbn [traverse_loop]. unfold bind, read_header, lift, add_ov, checked_add. rewrite Hh.
  cbn [ok_or h_sz h_next]. rewrite (proj2 (Z.ltb_lt _ _)) by lia. cbn [unwrap].
  destruct ns as [|n' ns]; cbn [next_of].
  - cbn [total] in *. unfold ret. do 2 f_equal. lia.
  - rewrite (IH _ fuel) by (done || simpl in *; lia). do 2 f_equal. lia.
Qed.

(** ** Every use of the heap is safe *)

(** The states that calls of the allocator and writes of its clients reach:
    [L] has the size of each block in use by its pointer. *)
Inductive reach (start end_ : Z) : Heap → gmap Z Z → Prop :=
| reach_new s : heap_new start end_ = Some s → reach start end_ s ∅
| reach_alloc s L sz k p s' : reach start end_ s L → layout_fits end_ sz k →
    alloc sz (2 ^ k) s = (Ok p, s') → reach start end_ s' (<[p := sz]> L)
| reach_dealloc s L p sz s' : reach start end_ s L → L !! p = Some sz →
    dealloc p s = (Ok tt, s') → reach start end_ s' (delete p L)
| reach_write s L p sz a n : reach start end_ s L → L !! p = Some sz →
    p ≤ a → a + n ≤ p + sz → reach start end_ (clobber a n s) L.

Lemma reach_inv start end_ s L : start mod 8 = 0 → 0 ≤ start → reach start end_ s L →
  heap_inv start end_ s L.
Proof.
  intros Hm H0. induction 1 as [s Hn|s L sz k p s' _ IH Hl Ha|s L p sz s' _ IH Hp Hd|].
  - by apply inv_new.
  - destruct (inv_alloc _ _ _ _ _ _ IH Hl) as [(p' & s'' & Ha' & Hi & _)|[Ha' _]]; congruence.
  - destruct (inv_dealloc _ _ _ _ _ _ IH Hp) as (s'' & Hd' & Hi). congruence.
  - by eapply inv_write.
Qed.

(** C37: the kernel heap is safe however it is used: starting from an aligned
    heap, after any sequence of allocations, deallocations of blocks in use and
    writes of clients inside their blocks, the blocks in use are inside the
    heap and do not overlap; freeing any of them succeeds; and an allocation
    gives an aligned block that overlaps none of them, or panics without
    touching the heap because no free node is large enough.  The nodes always
    tile the heap, so that the self-check [traverse] passes, and the allocator
    never reads a header or a back offset that is not there. *)
Theorem kmalloc_is_safe start end_ s L :
  start mod 8 = 0 → 0 ≤ start → is_usize end_ → reach start end_ s L →
  traverse s = (Ok tt, s) ∧
  (∀ p z, L !! p = Some z →
     start + 40 ≤ p ∧ p + z ≤ end_ ∧ ∃ s', dealloc p s = (Ok tt, s')) ∧
  (∀ p z q y, L !! p = Some z → L !! q = Some y → p ≠ q → p + z ≤ q ∨ q + y ≤ p) ∧
  ∀ sz k, layout_fits end_ sz k →
    match alloc sz (2 ^ k) s with
    | (Ok p, s') => (2 ^ k | p) ∧ L !! p = None ∧ start + 40 ≤ p ∧ p + sz ≤ end_ ∧
        ∀ q y, L !! q = Some y → p + sz ≤ q ∨ q + y ≤ p
    | (Panic, s') => s' = s ∧ ∃ ns, chain (headers s) (backs s) start ns end_ ∧
        ∀ pre n post, ns = pre ++ n :: post → fits (start + total pre) k sz n = false
    | _ => False
    end.
Proof.
  intros Hm H0 He Hr. pose proof (reach_inv _ _ _ _ Hm H0 Hr) as Hinv.
  assert (Hfacts : ∀ s L, heap_inv start end_ s L →
    (∀ p z, L !! p = Some z → start + 40 ≤ p ∧ p + z ≤ end_) ∧
    ∀ p z q y, L !! p = Some z → L !! q = Some y → p ≠ q → p + z ≤ q ∨ q + y ≤ p).
  { intros s0 L0 (_ & _ & _ & _ & ns & _ & Hc & HL). split.
    - intros p z Hp%HL. destruct (blocks_bounds _ _ _ _ _ _ _ Hc Hp). lia.
    - intros p z q y Hp%HL Hq%HL Hne. by eapply (proj2 (blocks_apart _ _ _ _ _ Hc)). }
  destruct (Hfacts s L Hinv) as [Hb Hap]. split_and!; [| |done|].
  - destruct Hinv as (Hst & Hen & Hhd & Hpos & ns & Hne & Hc & _).
    unfold traverse, bind, gets. cbn [id]. rewrite Hhd, Hst, Hen.
    rewrite (traverse_loop_spec s end_ ns) by (done || (by eapply chain_length) || (destruct He; lia)).
    by rewrite Z.add_0_l, Z.eqb_refl.
  - intros p z Hp. destruct (Hb p z Hp). split_and!; [done..|].
    destruct (inv_dealloc _ _ _ _ _ _ Hinv Hp) as (s' & ? & _). by exists s'.
  - intros sz k Hl. destruct (inv_alloc _ _ _ _ _ _ Hinv Hl) as [(p & s' & -> & Hi & Hn & Ha)|[-> Hno]];
      [|done]. destruct (Hfacts _ _ Hi) as [Hb' Hap'].
    destruct (Hb' p sz) as [? ?]; [apply lookup_insert_eq|]. split_and!; [done..|].
    intros q y Hq. apply (Hap' p sz q y); [apply lookup_insert_eq| |congruence].
    rewrite lookup_insert_ne by congruence. done.
Qed.

(** A heap of 4 KiB with one block in use. *)
Definition example_heap : Heap :=
  match heap_new 0x1000 0x2000 with
  | Some s => (alloc 100 (2 ^ 4) s).2
  | None => mkHeap 0 0 0 ∅ ∅
  end.

Lemma kmalloc_is_safe_witness : ∃ p,
  reach 0x1000 0x2000 example_heap {[p := 100]} ∧
  traverse example_heap = (Ok tt, example_heap) ∧ ∃ s', dealloc p example_heap = (Ok tt, s').
Proof.
  set (s0 := put_header 0x1000 (mkHeader 0x1000 true None) (mkHeap 0x1000 0x2000 0x1000 ∅ ∅)).
  assert (H0 : heap_new 0x1000 0x2000 = Some s0) by reflexivity.
  assert (Hl : layout_fits 0x2000 100 4) by (unfold layout_fits; lia).
  assert (Ha : alloc 100 (2 ^ 4) s0 = (Ok 0x1030, example_heap)) by (vm_compute; reflexivity).
  pose proof (reach_alloc _ _ _ _ _ _ _ _ (reach_new _ _ _ H0) Hl Ha) as Hr.
  exists 0x1030. rewrite insert_empty in Hr. split; [exact Hr|].
  assert (He : is_usize 0x2000) by (unfold in_width; lia).
  assert (Hs : 0 ≤ 0x1000) by lia.
  destruct (kmalloc_is_safe 0x1000 0x2000 example_heap {[0x1030 := 100]} eq_refl Hs He Hr)
    as (Ht & Hb & _). split; [exact Ht|].
  destruct (Hb 0x1030 100 ltac:(apply lookup_singleton_eq)) as (_ & _ & Hd). exact Hd.
Defined.
