(* ===== verification/UserMem.v ===== *)
(** * User memory

    [kernel/src/mm/addr/user_buf.rs] and [user_ptr.rs]: the kernel's copies
    from and to the memory of the current task.  The kernel goes through the
    task's page table, so a copy can fault: the trap handler then asks the
    memory manager ([handle_page_fault]), and the access is tried again, or the
    task is killed.

    The memory management unit is a class.  Its laws are what the privileged
    specification says of a supervisor's access with [SUM] set, for entries
    whose accessed and dirty bits are set, as those of this kernel are. *)

From S2P Require Import Prelude Errors Addr Sv39 FrameAllocator PageMeta PageTable PageMap PageFork MemMgr MemFault.

(** ** Model *)

(** A byte of physical memory: a frame is 512 little-endian words. *)
Definition byte_at (m : gmap Z (list Z)) (pa : Z) : Z :=
  Z.land (Z.shiftr (entry m (pa - pa mod 4096) (pa mod 4096 / 8)) (8 * (pa mod 8))) 255.
Definition set_byte (pa b : Z) (m : gmap Z (list Z)) : gmap Z (list Z) :=
  let t := pa - pa mod 4096 in
  let i := pa mod 4096 / 8 in
  upd t i (Z.lor (Z.ldiff (entry m t i) (Z.shiftl 255 (8 * (pa mod 8))))
             (Z.shiftl b (8 * (pa mod 8)))) m.

(** The physical address of an access, or a page fault. *)
Class Mmu := { mmu : gmap Z (list Z) → Z → Z → Z → option Z }.

Class MmuOk (MU : Mmu) : Prop := {
  mmu_hit m root va acc e k : is_u64 va → va_ok va = true → shape 3 m root →
    acc = PTE_R ∨ acc = PTE_W →
    walk m root (path_of va Size4K) = Some (e, k) → ppn_address e mod bytes (size_of k) = 0 →
    (∀ i, i = 1 ∨ i = 6 ∨ i = 7 ∨ (acc = PTE_W ∧ i = 2) → Z.testbit e i = true) →
    mmu m root va acc = Some (ppn_address e + va mod bytes (size_of k));
  mmu_unmapped m root va acc : is_u64 va → va_ok va = true → shape 3 m root →
    walk m root (path_of va Size4K) = None → mmu m root va acc = None;
  mmu_denied m root va acc e k : is_u64 va → va_ok va = true → shape 3 m root →
    walk m root (path_of va Size4K) = Some (e, k) → Z.land e acc ≠ acc → mmu m root va acc = None;
}.

(** What ends a copy early. *)
Inductive Kill := Killed.

Abbreviation UM := (M Space Kill).

Section usermem.
Context `{BF : Bitflags} {MU : Mmu}.

(** An access by the kernel, with the page faults of [trap_handler] and
    [on_page_fault]. *)
Fixpoint access (fuel : nat) (va acc : Z) : UM Z :=
  let! s := gets id in
  match mmu (mem (km s)) (root_pt (mm s)) va acc with
  | Some pa => ret pa
  | None =>
      match fuel with
      | O => diverge
      | S fuel' =>
          let! r := attempt (handle_page_fault va acc) in
          match r with
          | inl _ => access fuel' va acc
          | inr _ => fail Killed
          end
      end
  end.

(** Two tries are enough: a fault that is resolved is resolved at once. *)
Definition user_load (va : Z) : UM Z :=
  let! pa := access 1 va PTE_R in gets (λ s, byte_at (mem (km s)) pa).
Definition user_store (va b : Z) : UM unit :=
  let! pa := access 1 va PTE_W in
  modify (λ s, set_km (set_mem (set_byte pa b (mem (km s))) (km s)) s).

(** [UserBuf::copy_from_user_until] into a buffer of [n] bytes, from index [i]
    on: the bytes that were copied, and if [should_stop] ended it. *)
Fixpoint buf_copy_from_user_until (n : nat) (addr i : Z) (should_stop : Z → bool) : UM (list Z * bool) :=
  match n with
  | O => ret ([], false)
  | S n' =>
      let! a := lift (add_ov 64 addr i) in
      let! b := user_load a in
      if should_stop b then ret ([], true) else
      let! (bs, stopped) := buf_copy_from_user_until n' addr (i + 1) should_stop in
      ret (b :: bs, stopped)
  end.

(** [UserBuf::copy_from_user]. *)
Definition buf_copy_from_user (n : nat) (addr : Z) : UM (list Z) :=
  let! (bs, _) := buf_copy_from_user_until n addr 0 (λ _, false) in ret bs.

(** [UserBufMut::copy_into_user], from index [i] on. *)
Fixpoint buf_copy_into_user (addr i : Z) (src : list Z) : UM unit :=
  match src with
  | [] => ret tt
  | b :: src' =>
      let! a := lift (add_ov 64 addr i) in
      user_store a b ;;;
      buf_copy_into_user addr (i + 1) src'
  end.

(** [UserPtr::copy_from_user] and [UserPtr::copy_into_user] for a type whose
    values are [n] bytes. *)
Definition ptr_copy_from_user (n : nat) (addr : Z) : UM (list Z) := buf_copy_from_user n addr.
Definition ptr_copy_into_user (addr : Z) (src : list Z) : UM unit := buf_copy_into_user addr 0 src.

(** [UserPtr::<u8>::copy_from_user_many_until]: [should_stop] reads the item
    through the pointer before it is copied. *)
Fixpoint copy_from_user_many_until (n : nat) (cur_ptr : Z) (should_stop : Z → bool) : UM (list Z * bool) :=
  match n with
  | O => ret ([], false)
  | S n' =>
      let! item := user_load cur_ptr in
      if should_stop item then ret ([], true) else
      let! b := user_load cur_ptr in
      let! next := lift (add_ov 64 cur_ptr 1) in
      let! (bs, stopped) := copy_from_user_many_until n' next should_stop in
      ret (b :: bs, stopped)
  end.

(** [UserPtrIterator::next]: the pointer, and the iterator after it. *)
Definition iter_next (cur : Z) : UM (option (Z * Z)) :=
  let! next := lift (match user_ptr_offset 8 cur 1 with Ok n => Ok n | _ => Panic end) in
  match next with
  | None => ret None
  | Some next =>
      let! bs := ptr_copy_from_user 8 cur in
      ret (Some (little_endian_to_Z 8 bs, next))
  end.
End usermem.
