(* ===== verification/UserView.v ===== *)
(** * What a task sees of its memory

    Demand paging and copy-on-write are invisible: a task's memory is a map
    from addresses to bytes, in which a page that was not touched yet is zero.
    A load reads that map and changes nothing of it, a store changes one byte,
    and no frame that another address space shares is written. *)

From S2P Require Import Prelude Errors Addr Sv39 FrameAllocator PageMeta PageTable PageMap PageFork MemMgr MemFault UserMem.

(** ** Bytes *)

Lemma byte_at_bits m pa n : 0 ≤ pa → 0 ≤ n → Z.testbit (byte_at m pa) n =
  Z.testbit (entry m (pa - pa mod 4096) (pa mod 4096 / 8)) (n + 8 * (pa mod 8)) && (n <? 8).
Proof.
  intros Hpa Hn. unfold byte_at. change 255 with (Z.ones 8).
  rewrite Z.land_spec, Z.shiftr_spec, Z.testbit_ones_nonneg by lia. done.
Qed.

Lemma byte_at_set_byte m pa pa' b : 0 ≤ pa → 0 ≤ pa' → is_u8 b →
  length (frame m (pa - pa mod 4096)) = 512%nat →
  byte_at (set_byte pa b m) pa' = if decide (pa' = pa) then b else byte_at m pa'.
Proof.
  intros Hpa Hpa' Hb Hl. apply Z.bits_inj'. intros n Hn. rewrite byte_at_bits by done. unfold set_byte.
  rewrite entry_upd_if by (done || Z.div_mod_to_equations; lia).
  destruct (decide (pa' = pa)) as [->|Hne].
  - rewrite decide_True by done. destruct (Z.ltb_spec n 8) as [Hn8|Hn8].
    + rewrite andb_true_r, Z.lor_spec, Z.ldiff_spec, !Z.shiftl_spec by (Z.div_mod_to_equations; lia).
      change 255 with (Z.ones 8). rewrite Z.testbit_ones_nonneg by lia.
      rewrite Z.add_simpl_r, (proj2 (Z.ltb_lt n 8)) by done. simpl. by rewrite andb_false_r.
    + by rewrite andb_false_r, (testbit_high 8).
  - rewrite byte_at_bits by done. destruct (Z.ltb_spec n 8) as [Hn8|Hn8]; [|by rewrite !andb_false_r].
    rewrite !andb_true_r. destruct (decide _) as [[Ht Hi]|]; [|done].
    rewrite <-Ht, <-Hi. set (w := entry _ _ _). clearbody w.
    assert (pa' mod 8 ≠ pa mod 8) as Hm by (Z.div_mod_to_equations; lia).
    pose proof (Z.mod_pos_bound pa 8) as H1. pose proof (Z.mod_pos_bound pa' 8) as H2.
    rewrite Z.lor_spec, Z.ldiff_spec, !Z.shiftl_spec by lia. change 255 with (Z.ones 8).
    destruct (Z.lt_ge_cases (pa' mod 8) (pa mod 8)).
    + rewrite (Z.testbit_neg_r (Z.ones 8)), (Z.testbit_neg_r b) by lia. simpl. by rewrite andb_true_r, orb_false_r.
    + rewrite Z.testbit_ones_nonneg, (testbit_high 8 b) by (done || lia).
      rewrite (proj2 (Z.ltb_ge _ 8)) by lia. simpl. by rewrite andb_true_r, orb_false_r.
Qed.

Lemma frame_set_byte m pa b x : 0 ≤ pa → x ≠ pa - pa mod 4096 → frame (set_byte pa b m) x = frame m x.
Proof. intros _ Hx. unfold set_byte. by rewrite frame_upd_ne. Qed.

Lemma frame_set_byte_length m pa b x : length (frame (set_byte pa b m) x) = length (frame m x).
Proof.
  unfold set_byte. destruct (decide (x = pa - pa mod 4096)) as [->|].
  - by rewrite frame_upd, length_insert.
  - by rewrite frame_upd_ne.
Qed.

Lemma byte_at_frame m m' pa : frame m' (pa - pa mod 4096) = frame m (pa - pa mod 4096) →
  byte_at m' pa = byte_at m pa.
Proof. intros Hf. unfold byte_at, entry. by rewrite Hf. Qed.

(** ** The view *)

Definition page_of (a : Z) : Z := a - a mod 4096.

Lemma page_of_range a : page_of a ≤ a < page_of a + 4096.
Proof. unfold page_of. Z.div_mod_to_equations; lia. Qed.
Lemma page_of_mod a : page_of a mod 4096 = 0.
Proof. unfold page_of. Z.div_mod_to_equations; lia. Qed.
Lemma page_of_idemp a : page_of (page_of a) = page_of a.
Proof. unfold page_of. Z.div_mod_to_equations; lia. Qed.
Lemma page_of_within a b : page_of a ≤ b < page_of a + 4096 ↔ page_of b = page_of a.
Proof. unfold page_of. Z.div_mod_to_equations; lia. Qed.
Lemma page_of_add p o : p mod 4096 = 0 → 0 ≤ o < 4096 → (p + o) - (p + o) mod 4096 = p ∧ (p + o) mod 4096 = o.
Proof. Z.div_mod_to_equations; lia. Qed.

(** The region of an address, and the leaf that maps its page. *)
Definition region_at (s : Space) (a : Z) : option VmRegion := lookup_region (page_of a) (regions (mm s)).
Definition leaf (s : Space) (a : Z) : option (Z * nat) :=
  walk (mem (km s)) (root_pt (mm s)) (path_of (page_of a) Size4K).

(** The bytes of an address space; a page that has no frame yet is zero. *)
Definition view (s : Space) (a : Z) : option Z :=
  match region_at s a with
  | None => None
  | Some r =>
      match leaf s a with
      | Some (e, _) => Some (byte_at (mem (km s)) (ppn_address e + a mod 4096))
      | None => Some 0
      end
  end.

(** The accesses that succeed. *)
Definition can_read (s : Space) (a : Z) : bool :=
  match region_at s a with
  | None => false
  | Some r =>
      match leaf s a with
      | Some (e, _) => Z.testbit e 1
      | None => Z.testbit (r_flags r) 1
      end
  end.
Definition can_exec (s : Space) (a : Z) : bool :=
  match region_at s a with
  | None => false
  | Some r =>
      match leaf s a with
      | Some (e, _) => Z.testbit e 3
      | None => Z.testbit (r_flags r) 3
      end
  end.
Definition can_write (s : Space) (a : Z) : bool :=
  can_read s a &&
  match region_at s a with
  | None => false
  | Some r =>
      match leaf s a with
      | Some (e, _) => Z.testbit e 2 || Z.testbit (r_flags r) 2
      | None => Z.testbit (r_flags r) 2
      end
  end.

(** The frame of a user page with leaf [e]. *)
Record page_frame (k : Kmem) (root e : Z) : Prop := {
  pf_ok : table_ok (ppn_address e);
  pf_held : held (fa k) (ppn_address e);
  pf_no_table : ppn_address e ∉ tables 3 (mem k) root;
  pf_refs : 1 ≤ refs (meta k) (ppn_address e);
  pf_private : Z.testbit e 2 = true → refs (meta k) (ppn_address e) = 1;
  pf_length : length (frame (mem k) (ppn_address e)) = 512%nat;
  pf_accessed : Z.testbit e 6 = true ∧ Z.testbit e 7 = true;
  pf_user : Z.testbit e 4 = true;
}.

(** An address space: its regions are user pages with frames of their own, and
    a page that can be written has the only reference to its frame. *)
Record uspace (s : Space) : Prop := {
  us_space : aspace (km s) (root_pt (mm s));
  us_meta : meta_ok (km s);
  us_pages : pages_ok (regions (mm s));
  us_flags : Forall (λ r, leaf_flags (r_flags r) ∧ Z.testbit (r_flags r) 4 = true ∧ r_end r ≤ 2 ^ 38)
    (regions (mm s));
  us_mapped r e k : r ∈ regions (mm s) → leaf s (r_start r) = Some (e, k) →
    k = 0%nat ∧ page_frame (km s) (root_pt (mm s)) e;
  us_inj r r' e e' : r ∈ regions (mm s) → r' ∈ regions (mm s) →
    leaf s (r_start r) = Some (e, 0%nat) → leaf s (r_start r') = Some (e', 0%nat) →
    ppn_address e = ppn_address e' → r = r';
}.

(** The frames of a space: its tables and its pages. *)
Definition owns (s : Space) (x : Z) : Prop :=
  x ∈ tables 3 (mem (km s)) (root_pt (mm s)) ∨
  ∃ r e k, r ∈ regions (mm s) ∧ leaf s (r_start r) = Some (e, k) ∧ ppn_address e = x.

(** A frame that others use, too: if it is a page of this space, then it has
    another reference. *)
Definition foreign (s : Space) (x : Z) : Prop :=
  held (fa (km s)) x ∧ x ∉ tables 3 (mem (km s)) (root_pt (mm s)) ∧
  ∀ r e k, r ∈ regions (mm s) → leaf s (r_start r) = Some (e, k) → ppn_address e = x →
    2 ≤ refs (meta (km s)) x.

(** Outside the regions the tables translate as before. *)
Definition outside_kept (s s' : Space) : Prop :=
  ∀ va, is_u64 va → va_ok va = true → region_at s va = None →
    walk (mem (km s')) (root_pt (mm s)) (path_of va Size4K) = walk (mem (km s)) (root_pt (mm s)) (path_of va Size4K).

(** [s'] is [s] with the contents [f]. *)
Record evolves (s s' : Space) (f : Z → option Z) : Prop := {
  ev_mm : mm s' = mm s;
  ev_space : uspace s';
  ev_view a : view s' a = f a;
  ev_read a : can_read s' a = can_read s a;
  ev_write a : can_write s' a = can_write s a;
  ev_exec a : can_exec s' a = can_exec s a;
  ev_foreign x : foreign s x → foreign s' x ∧ frame (mem (km s')) x = frame (mem (km s)) x;
  ev_owns x : foreign s x → owns s' x → owns s x;
  ev_refs x : foreign s x → refs (meta (km s')) x ≤ refs (meta (km s)) x ∧
    (1 ≤ refs (meta (km s)) x → 1 ≤ refs (meta (km s')) x);
  ev_outside : outside_kept s s';
}.

Lemma evolves_refl s : uspace s → evolves s s (view s).
Proof. intros Hu. by split. Qed.

Lemma evolves_trans s s1 s2 f g : evolves s s1 f → evolves s1 s2 g → evolves s s2 g.
Proof.
  intros [Hm1 _ _ Hr1 Hw1 He1 Hf1 Ho1 Hc1 Hout1] [Hm2 Hs2 Hv2 Hr2 Hw2 He2 Hf2 Ho2 Hc2 Hout2].
  split; [congruence|done|done|congruence|congruence|congruence| | | |].
  - intros x [Hx1 Hy1]%Hf1. destruct (Hf2 x Hx1) as [Hx2 Hy2]. split; [done|congruence].
  - intros x Hx Hx2. apply Ho1; [done|]. apply Ho2; [|done]. by apply Hf1.
  - intros x Hx. destruct (Hc1 x Hx) as [H1 H2]. destruct (Hc2 x) as [H3 H4]; [by apply Hf1|]. split; [lia|auto].
  - intros va Hva Hok Hr. rewrite <-(Hout1 va Hva Hok Hr), <-Hm1. apply Hout2; [done..|]. unfold region_at in *. by rewrite Hm1.
Qed.

Lemma evolves_ext s s' f g : evolves s s' f → (∀ a, f a = g a) → evolves s s' g.
Proof. intros [Hm Hs Hv Hr Hw He Hf Ho Hc Hx] Hfg. split; try done. intros a. by rewrite Hv. Qed.

(** ** Regions *)

Lemma region_at_spec s a r : uspace s → 0 ≤ a → region_at s a = Some r ↔
  r ∈ regions (mm s) ∧ r_start r = page_of a.
Proof.
  intros Hu Ha. pose proof (us_pages s Hu) as Hok. unfold region_at. rewrite (lookup_region_spec _ _ _ Hok).
  unfold region_of. destruct Hok as [_ Hf]. rewrite Forall_forall in Hf. split.
  - intros [Hin Hr]. split; [done|]. destruct (Hf r Hin) as (? & ? & ?). pose proof (page_of_mod a).
    Z.div_mod_to_equations; lia.
  - intros [Hin Hr]. split; [done|]. destruct (Hf r Hin) as (? & ? & ?). lia.
Qed.

Lemma region_at_range s a r : uspace s → region_at s a = Some r →
  0 ≤ page_of a ∧ 0 ≤ a < 2 ^ 38 ∧ is_u64 a ∧ va_ok a = true ∧ is_u64 (page_of a) ∧ va_ok (page_of a) = true ∧
  r ∈ regions (mm s) ∧ r_start r = page_of a ∧ leaf_flags (r_flags r) ∧ Z.testbit (r_flags r) 4 = true.
Proof.
  intros Hu Hr. pose proof (us_pages s Hu) as Hok. pose proof Hr as Hr'. unfold region_at in Hr'.
  rewrite (lookup_region_spec _ _ _ Hok) in Hr'. destruct Hr' as [Hin Hrange].
  destruct Hok as [_ Hf]. rewrite Forall_forall in Hf. destruct (Hf r Hin) as (H0 & Hm & Hend).
  pose proof (us_flags s Hu) as Hfl. rewrite Forall_forall in Hfl. destruct (Hfl r Hin) as (Hlf & Hus & H38).
  pose proof (page_of_range a). pose proof (page_of_mod a) as Hpm.
  assert (r_start r = page_of a) as Hst by (Z.div_mod_to_equations; lia).
  assert (0 ≤ page_of a ∧ 0 ≤ a < 2 ^ 38) as [Hp0 Ha] by lia. change (2 ^ 38) with 274877906944 in *.
  assert (is_u64 a ∧ is_u64 (page_of a)) as [Hu1 Hu2] by (unfold in_width; lia).
  assert (∀ x, is_u64 x → 0 ≤ x < 274877906944 → va_ok x = true) as Hvo
    by (intros x Hx Hlt; apply va_ok_spec; [done|]; left; change (2 ^ 38) with 274877906944; lia).
  repeat (split; [done || (apply Hvo; done || lia)|]). done.
Qed.

Lemma leaf_region s a r : uspace s → region_at s a = Some r → leaf s (r_start r) = leaf s a.
Proof.
  intros Hu Hr. destruct (region_at_range s a r Hu Hr) as (_ & _ & _ & _ & _ & _ & _ & Hst & _).
  unfold leaf. by rewrite Hst, page_of_idemp.
Qed.

Lemma region_self s r : uspace s → r ∈ regions (mm s) →
  region_at s (r_start r) = Some r ∧ page_of (r_start r) = r_start r.
Proof.
  intros Hu Hr. pose proof (us_pages s Hu) as [_ Hf]. rewrite Forall_forall in Hf. destruct (Hf r Hr) as (? & Hm & _).
  assert (page_of (r_start r) = r_start r) as Hpo by (unfold page_of; rewrite Hm; lia).
  split; [|done]. apply region_at_spec; [done..|]. by rewrite Hpo.
Qed.

(** ** A page that gets a frame *)

(** The leaf [e'] replaces that of page [p], with the same contents; the other
    pages keep their leaves and frames. *)
Record page_replaced (s s' : Space) (p e' flags : Z) : Prop := {
  pr_mm : mm s' = mm s;
  pr_space : aspace (km s') (root_pt (mm s));
  pr_meta : meta_ok (km s');
  pr_leaf a r : region_at s a = Some r →
    leaf s' a = if decide (page_of a = p) then Some (e', 0%nat) else leaf s a;
  pr_frame : page_frame (km s') (root_pt (mm s)) e';
  pr_view a : page_of a = p → Some (byte_at (mem (km s')) (ppn_address e' + a mod 4096)) =
    match leaf s a with
    | Some (e, _) => Some (byte_at (mem (km s)) (ppn_address e + a mod 4096))
    | None => Some 0
    end;
  pr_read a : page_of a = p → Z.testbit e' 1 =
    match leaf s a with Some (e, _) => Z.testbit e 1 | None => Z.testbit flags 1 end;
  pr_exec a : page_of a = p → Z.testbit e' 3 =
    match leaf s a with Some (e, _) => Z.testbit e 3 | None => Z.testbit flags 3 end;
  pr_write a : page_of a = p → Z.testbit e' 2 || Z.testbit flags 2 =
    match leaf s a with Some (e, _) => Z.testbit e 2 || Z.testbit flags 2 | None => Z.testbit flags 2 end;
  pr_others r e : r ∈ regions (mm s) → r_start r ≠ p → leaf s (r_start r) = Some (e, 0%nat) →
    page_frame (km s') (root_pt (mm s)) e ∧ frame (mem (km s')) (ppn_address e) = frame (mem (km s)) (ppn_address e) ∧
    ppn_address e ≠ ppn_address e' ∧ refs (meta (km s')) (ppn_address e) = refs (meta (km s)) (ppn_address e);
  pr_foreign x : foreign s x → held (fa (km s')) x ∧ x ∉ tables 3 (mem (km s')) (root_pt (mm s)) ∧
    frame (mem (km s')) x = frame (mem (km s)) x ∧ x ≠ ppn_address e' ∧
    refs (meta (km s')) x ≤ refs (meta (km s)) x ∧
    (1 ≤ refs (meta (km s)) x → 1 ≤ refs (meta (km s')) x);
  pr_outside : outside_kept s s';
}.

Lemma page_byte m m' x o : frame m' x = frame m x → x mod 4096 = 0 → 0 ≤ o < 4096 →
  byte_at m' (x + o) = byte_at m (x + o).
Proof. intros Hf Hx Ho. apply byte_at_frame. destruct (page_of_add x o Hx Ho) as [-> _]. done. Qed.

Lemma page_replaced_evolves s s' p e' r0 : uspace s → r0 ∈ regions (mm s) → r_start r0 = p →
  page_replaced s s' p e' (r_flags r0) → evolves s s' (view s).
Proof.
  intros Hu Hr0 Hp [Hmm Hsp Hme Hleaf Hfr Hview Hread Hexec Hwrite Hothers Hforeign Hout].
  pose proof (λ r, region_self s r Hu) as Hreg.
  assert (Hlr : ∀ r, r ∈ regions (mm s) →
    leaf s' (r_start r) = if decide (r_start r = p) then Some (e', 0%nat) else leaf s (r_start r)).
  { intros r Hr. destruct (Hreg r Hr) as [H1 H2]. rewrite (Hleaf _ _ H1), H2. done. }
  assert (Hra : ∀ a, region_at s' a = region_at s a) by (intros a; unfold region_at; by rewrite Hmm).
  assert (Hr0' : ∀ a r, region_at s a = Some r → page_of a = p → r = r0).
  { intros a r Hr Hpa. destruct (Hreg r0 Hr0) as [H1 H2]. unfold region_at in H1, Hr. rewrite H2, Hp in H1. rewrite Hpa in Hr.
    congruence. }
  assert (uspace s') as Hu'.
  { split; rewrite ?Hmm; [done|done|apply Hu|apply Hu| |].
    - intros r e k Hr. rewrite Hlr by done. destruct (decide (r_start r = p)); [by intros [= <- <-]|].
      intros Hl. destruct (us_mapped s Hu r e k Hr Hl) as [-> _]. split; [done|]. by apply (Hothers r e).
    - intros r r' e1 e2 Hr Hr'. rewrite !Hlr by done.
      destruct (decide (r_start r = p)) as [H1|H1], (decide (r_start r' = p)) as [H2|H2].
      + intros _ _ _. destruct (Hreg r Hr) as [Ha1 Hb1], (Hreg r' Hr') as [Ha2 Hb2].
        rewrite (Hr0' _ _ Ha1), (Hr0' _ _ Ha2); congruence.
      + intros [= <-] Hl2 Heq. destruct (Hothers r' e2 Hr' H2 Hl2) as (_ & _ & Hne & _). congruence.
      + intros Hl1 [= <-] Heq. destruct (Hothers r e1 Hr H1 Hl1) as (_ & _ & Hne & _). congruence.
      + by apply us_inj. }
  split; [done|done| | | | | | |by intros x (_ & _ & _ & _ & ? & ?)%Hforeign|done].
  - intros a. unfold view. rewrite Hra. destruct (region_at s a) as [r|] eqn:Hr; [|done].
    rewrite (Hleaf a r Hr). destruct (decide (page_of a = p)) as [Hpa|Hpa]; [by apply Hview|].
    destruct (leaf s a) as [[e k]|] eqn:Hl; [|done].
    destruct (region_at_range s a r Hu Hr) as (_ & _ & _ & _ & _ & _ & Hrin & Hst & _).
    assert (leaf s (r_start r) = Some (e, k)) as Hl' by (by rewrite (leaf_region s a r)).
    destruct (us_mapped s Hu r e k Hrin Hl') as [-> Hpf].
    destruct (Hothers r e Hrin ltac:(congruence) Hl') as (_ & Hsame & _). f_equal. apply page_byte; [done| |].
    + apply Hpf.
    + apply Z.mod_pos_bound. lia.
  - intros a. unfold can_read. rewrite Hra. destruct (region_at s a) as [r|] eqn:Hr; [|done].
    rewrite (Hleaf a r Hr). destruct (decide (page_of a = p)) as [Hpa|Hpa]; [|done].
    rewrite (Hr0' a r Hr Hpa). by apply Hread.
  - intros a. unfold can_write, can_read. rewrite Hra. destruct (region_at s a) as [r|] eqn:Hr; [|done].
    rewrite (Hleaf a r Hr). destruct (decide (page_of a = p)) as [Hpa|Hpa]; [|done].
    rewrite (Hr0' a r Hr Hpa), (Hread a Hpa), (Hwrite a Hpa). done.
  - intros a. unfold can_exec. rewrite Hra. destruct (region_at s a) as [r|] eqn:Hr; [|done].
    rewrite (Hleaf a r Hr). destruct (decide (page_of a = p)) as [Hpa|Hpa]; [|done].
    rewrite (Hr0' a r Hr Hpa). by apply Hexec.
  - intros x Hx. destruct (Hforeign x Hx) as (H1 & H2 & H3 & H4 & _). split; [|done]. split; [done|]. rewrite Hmm. split; [done|].
    intros r e k Hr. rewrite Hlr by done. destruct (decide (r_start r = p)); [by intros [= <- <-] ?|].
    intros Hl Heq. destruct (us_mapped s Hu r e k Hr Hl) as [-> _].
    destruct (Hothers r e Hr ltac:(done) Hl) as (_ & _ & _ & Href). rewrite <-Heq in *. rewrite Href.
    destruct Hx as (_ & _ & Hx). by apply (Hx r e 0%nat).
  - intros x Hx Hox. destruct (Hforeign x Hx) as (_ & H2 & _ & H4 & _). destruct Hox as [Ht|(r & e & k & Hr & Hl & He)].
    { by rewrite Hmm in Ht. }
    rewrite Hmm in Hr. rewrite Hlr in Hl by done. right. exists r, e, k.
    destruct (decide (r_start r = p)); [|done]. injection Hl as <- <-. congruence.
Qed.

(** ** Page faults *)

Lemma leaf_pte_frame k k' root base flags pa : page_given k k' root base flags pa → leaf_flags flags → Z.testbit flags 4 = true →
  page_frame k' root (leaf_pte pa flags) ∧ ppn_address (leaf_pte pa flags) = pa.
Proof.
  intros Hg Hfl Hus. pose proof (pg_frame _ _ _ _ _ _ Hg) as [Hok Hnt].
  destruct (table_ok_page_ok pa Hok) as [Hpok _].
  destruct (leaf_pte_spec pa flags Hpok Hfl) as (_ & Hppn & _ & Hbits). split; [|done].
  split; rewrite ?Hppn; [done|apply (pg_fresh _ _ _ _ _ _ Hg)|done| | | | |].
  - rewrite (pg_refs _ _ _ _ _ _ Hg), decide_True by done. lia.
  - intros _. by rewrite (pg_refs _ _ _ _ _ _ Hg), decide_True by done.
  - rewrite (pg_zero _ _ _ _ _ _ Hg). by rewrite length_replicate.
  - rewrite !Hbits by lia. by rewrite !orb_true_r.
  - rewrite Hbits by lia. by rewrite Hus.
Qed.

Lemma byte_at_zero m x o : frame m x = replicate 512 0 → x mod 4096 = 0 → 0 ≤ o < 4096 → byte_at m (x + o) = 0.
Proof.
  intros Hf Hx Ho. unfold byte_at, entry. destruct (page_of_add x o Hx Ho) as [-> ->]. rewrite Hf.
  rewrite lookup_total_replicate_2 by (Z.div_mod_to_equations; lia). by rewrite Z.shiftr_0_l.
Qed.

(** Demand paging. *)
Lemma page_given_replaced s s' a r pa : uspace s → region_at s a = Some r → leaf s a = None → mm s' = mm s →
  page_given (km s) (km s') (root_pt (mm s)) (page_of a) (r_flags r) pa →
  page_replaced s s' (page_of a) (leaf_pte pa (r_flags r)) (r_flags r).
Proof.
  intros Hu Hr Hl Hmm Hg. destruct (region_at_range s a r Hu Hr) as (_ & _ & _ & _ & Hb & Hbok & Hrin & Hst & Hfl & Hus).
  destruct (leaf_pte_frame _ _ _ _ _ _ Hg Hfl Hus) as [Hpf Hppn].
  pose proof (pg_frame _ _ _ _ _ _ Hg) as [Hok Hnt]. destruct (table_ok_page_ok pa Hok) as [Hpok _].
  destruct (leaf_pte_spec pa (r_flags r) Hpok Hfl) as (_ & _ & _ & Hbits).
  assert (∀ b, page_of b = page_of a → leaf s b = None) as Hnone by (intros b Hpb; unfold leaf in *; by rewrite Hpb).
  destruct (pg_fresh _ _ _ _ _ _ Hg) as [Hfresh _].
  split; [done|apply Hg|apply Hg| |done| | | | | | |]; rewrite ?Hppn.
  - intros b rb Hrb. destruct (region_at_range s b rb Hu Hrb) as (_ & _ & _ & _ & Hpb & Hpbok & _).
    unfold leaf at 1. rewrite Hmm, (pg_walk _ _ _ _ _ _ Hg) by done.
    pose proof (page_of_within a (page_of b)) as Hw. rewrite page_of_idemp in Hw.
    destruct (decide (page_of b = page_of a)) as [Heq|Hne].
    + by rewrite decide_True by (by apply Hw).
    + by rewrite decide_False by (by rewrite Hw).
  - intros b Hpb. rewrite (Hnone b Hpb). f_equal. apply byte_at_zero; [apply Hg|apply Hok|].
    apply Z.mod_pos_bound. lia.
  - intros b Hpb. rewrite (Hnone b Hpb), Hbits by lia. simpl. by rewrite !orb_false_r.
  - intros b Hpb. rewrite (Hnone b Hpb), Hbits by lia. simpl. by rewrite !orb_false_r.
  - intros b Hpb. rewrite (Hnone b Hpb), Hbits by lia. simpl. rewrite !orb_false_r. apply orb_diag.
  - intros r' e Hr' Hne Hl'. destruct (us_mapped s Hu r' e 0 Hr' Hl') as [_ [H1 H2 H3 H4 H5 H6 H7 H8]].
    assert (ppn_address e ≠ pa) as Hnpa by (intros Heq; by rewrite Heq in H2).
    pose proof (pg_rest _ _ _ _ _ _ Hg _ H2 H3) as Hrest.
    assert (refs (meta (km s')) (ppn_address e) = refs (meta (km s)) (ppn_address e)) as Href
      by (by rewrite (pg_refs _ _ _ _ _ _ Hg), decide_False).
    split_and!; [|done..]. split; rewrite ?Href, ?Hrest; try done; [by apply Hg|].
    intros [?|?]%(pg_tables _ _ _ _ _ _ Hg); done.
  - intros x (Hx1 & Hx2 & _). assert (x ≠ pa) by (by intros ->).
    rewrite (pg_refs _ _ _ _ _ _ Hg), decide_False by done.
    split_and!; [by apply Hg| |by apply (pg_rest _ _ _ _ _ _ Hg)|done..].
    intros [?|?]%(pg_tables _ _ _ _ _ _ Hg); done.
  - intros va Hva Hvok Hnr. rewrite (pg_walk _ _ _ _ _ _ Hg) by done. rewrite decide_False; [done|].
    rewrite page_of_within. intros Heq. unfold region_at in *. congruence.
Qed.

(** Copy-on-write. *)
Lemma cow_replaced s a r e : uspace s → region_at s a = Some r → leaf s a = Some (e, 0%nat) →
  Z.testbit (r_flags r) 2 = true →
  match copy_on_write (root_pt (mm s)) (page_of a) (km s) with
  | (Ok _, k') => ∃ e', page_replaced s (set_km k' s) (page_of a) e' (r_flags r) ∧
      Z.testbit e' 2 = true ∧ Z.testbit e' 1 = Z.testbit e 1
  | (Panic, k') => full (fa k')
  | _ => False
  end.
Proof.
  intros Hu Hr Hl HW. destruct (region_at_range s a r Hu Hr) as (_ & _ & _ & _ & Hb & Hbok & Hrin & Hst & Hfl & Hus).
  assert (leaf s (r_start r) = Some (e, 0%nat)) as Hlr by (by rewrite (leaf_region s a r)).
  destruct (us_mapped s Hu r e 0 Hrin Hlr) as [_ Hpf]. pose proof Hpf as [Hok Hheld Hnt Href _ Hlen [H6 H7] H4].
  pose proof (us_space s Hu) as Has. pose proof Has as (_ & [Hs _] & Hown). unfold leaf in Hl. rewrite walk_locate in Hl.
  destruct (locate _ _ (path_of (page_of a) Size4K)) as [[[t i] k]|] eqn:Hloc; [|done].
  cbn [fmap option_fmap option_map] in Hl. injection Hl as He ->.
  destruct (locate_spec 3 _ _ (path_of (page_of a) Size4K) t i 0 Hs eq_refl (path_range _ _) Hloc)
    as (Htin & _ & _ & Hleaf & Heok & _). rewrite <-He in Hok, Hheld, Hnt, Href.
  pose proof (copy_on_write_walk (km s) (root_pt (mm s)) (page_of a) t i Has (us_meta s Hu) Hloc Hok Hheld Hnt Href) as Hc.
  destruct (copy_on_write _ _ _) as [[[]|er| |] k']; [|done..].
  destruct Hc as (new & Hnh & Hnok & Has' & Hme' & Htab & _ & Hwalk & Hcopy & Hrest & Hrefs & Hh').
  destruct (cow_pte_spec _ new Hleaf Heok Hnok) as (_ & _ & Hppn & Hbits). rewrite He in *.
  set (e' := set_flags (with_address e new) PTE_W) in *. exists e'. split; [|split; rewrite Hbits by lia; [by rewrite orb_true_r|by rewrite orb_false_r]].
  assert (∀ x, held (fa (km s)) x → x ∉ tables 3 (mem (km s)) (root_pt (mm s)) →
    frame (mem k') x = frame (mem (km s)) x) as Hsame.
  { intros x Hx Hxt. apply Hrest; [by intros ->|by intros ->]. }
  assert (∀ b, page_of b = page_of a → leaf s b = Some (e, 0%nat)) as Hle.
  { intros b Hpb. unfold leaf. rewrite Hpb, walk_locate, Hloc. simpl. by rewrite He. }
  split; cbn [km mm set_km]; [done|done|done| | | | | | | | |].
  - intros b rb Hrb. destruct (region_at_range s b rb Hu Hrb) as (_ & _ & _ & _ & Hpb & Hpbok & _).
    unfold leaf at 1. cbn [km mm set_km]. rewrite Hwalk.
    pose proof (path_of_page _ _ Hpb Hb Hpbok Hbok) as Hpp. pose proof (page_of_mod a). pose proof (page_of_mod b).
    assert (page_of b / 4096 = page_of a / 4096 ↔ page_of b = page_of a) as Hdiv by (Z.div_mod_to_equations; lia).
    rewrite Hdiv in Hpp. destruct (decide (page_of b = page_of a)) as [Heq|Hne].
    + by rewrite decide_True by (by apply Hpp).
    + by rewrite decide_False by (by rewrite Hpp).
  - split; rewrite ?Hppn; [done|by apply Hh'; left| | | | | |].
    + rewrite Htab. intros Hin. by apply Hnh, Hown.
    + rewrite Hrefs, decide_True by done. lia.
    + intros _. by rewrite Hrefs, decide_True by done.
    + by rewrite Hcopy.
    + rewrite !Hbits, H6, H7 by lia. done.
    + rewrite Hbits, H4 by lia. done.
  - intros b Hpb. rewrite (Hle b Hpb), Hppn. f_equal. unfold byte_at, entry.
    assert (0 ≤ b mod 4096 < 4096) as Hbo by (apply Z.mod_pos_bound; lia).
    destruct (page_of_add new (b mod 4096) ltac:(apply Hnok) Hbo) as [-> ->].
    destruct (page_of_add (ppn_address e) (b mod 4096) ltac:(apply Hok) Hbo) as [-> ->].
    rewrite Hcopy. do 2 f_equal. f_equal. pose proof Hnok as (_ & Hn0 & _). pose proof Hok as (_ & Ho0 & _).
    Z.div_mod_to_equations; lia.
  - intros b Hpb. rewrite (Hle b Hpb), Hbits by lia. by rewrite orb_false_r.
  - intros b Hpb. rewrite (Hle b Hpb), Hbits by lia. by rewrite orb_false_r.
  - intros b Hpb. rewrite (Hle b Hpb), HW. by rewrite !orb_true_r.
  - intros r' e1 Hr' Hne Hl1. destruct (us_mapped s Hu r' e1 0 Hr' Hl1) as [_ [K1 K2 K3 K4 K5 K6 K7 K8]].
    assert (ppn_address e1 ≠ new) as Hn1 by (intros Heq; by rewrite Heq in K2).
    assert (ppn_address e1 ≠ ppn_address e) as Hn2.
    { intros Heq. apply Hne. rewrite (us_inj s Hu r' r e1 e Hr' Hrin Hl1 Hlr Heq). done. }
    assert (refs (meta k') (ppn_address e1) = refs (meta (km s)) (ppn_address e1)) as Hre
      by (by rewrite Hrefs, !decide_False).
    rewrite Hppn. split_and!; [|by apply Hsame|done|done].
    split; rewrite ?Hre, ?Htab, ?(Hsame _ K2 K3); try done. apply Hh'. right. by split.
  - intros x (Hx1 & Hx2 & Hx3). assert (x = ppn_address e → 2 ≤ refs (meta (km s)) x) as H2r
      by (intros ->; by apply (Hx3 r e 0%nat)).
    assert (x ≠ new) by (by intros ->). rewrite Hppn, Htab, Hrefs, decide_False by done.
    split_and!; [|done|by apply Hsame|done|by destruct (decide _); lia|].
    + apply Hh'. right. split; [done|]. intros ->. specialize (H2r eq_refl). lia.
    + destruct (decide (x = ppn_address e)) as [Heq|]; [specialize (H2r Heq); lia|done].
  - intros va Hva Hvok Hnr. cbn [km set_km]. rewrite Hwalk, decide_False; [done|].
    rewrite (path_of_page _ _ Hva Hb Hvok Hbok). intros Heq. assert (page_of va = page_of a) as Hpg.
    { pose proof (page_of_mod a). unfold page_of in *. Z.div_mod_to_equations; lia. }
    unfold region_at in *. congruence.
Qed.

Section access.
Context `{BF : Bitflags} `{HBF : !BitflagsOk BF} {MU : Mmu} {HMU : MmuOk MU}.

(** A mode of access that [can_read] or [can_write] allows. *)
Definition allowed (s : Space) (a acc : Z) : Prop :=
  (acc = PTE_R ∧ can_read s a = true) ∨ (acc = PTE_W ∧ can_write s a = true).

(** The leaf [e] lets the access through. *)
Definition leaf_allows (e acc : Z) : bool := Z.testbit e 1 && ((acc =? PTE_R) || Z.testbit e 2).

Lemma allowed_region s a acc : allowed s a acc → ∃ r, region_at s a = Some r ∧ can_read s a = true ∧
  (acc = PTE_R ∨ acc = PTE_W) ∧
  (acc = PTE_W → match leaf s a with
                 | Some (e, _) => Z.testbit e 2 || Z.testbit (r_flags r) 2 = true
                 | None => Z.testbit (r_flags r) 2 = true end).
Proof.
  unfold allowed, can_write. destruct (region_at s a) as [r|] eqn:Hr.
  2:{ unfold can_read. rewrite Hr. intros [[_ ?]|[_ ?]]; done. }
  intros [[-> H]|[-> H]]; exists r; [by split_and!; [..|left|]|].
  apply andb_true_iff in H as [H1 H2]. split_and!; [done|done|by right|]. intros _. by destruct (leaf s a) as [[e k]|].
Qed.

Lemma land_flag f i : 0 ≤ i → Z.testbit f i = true → Z.land f (Z.shiftl 1 i) = Z.shiftl 1 i.
Proof.
  intros Hi Hf. apply Z.bits_inj'. intros n Hn. autorewrite with bits.
  destruct (Z.eqb_spec i n) as [<-|]; [by rewrite Hf|]. by rewrite andb_false_r.
Qed.

(** The region allows an access that the leaf does not let through. *)
Lemma denied_flags s a acc r : allowed s a acc → region_at s a = Some r →
  (∀ e k, leaf s a = Some (e, k) → leaf_allows e acc = false) →
  Z.land (r_flags r) acc = acc ∧ (is_Some (leaf s a) → acc = PTE_W ∧ Z.testbit (r_flags r) 2 = true).
Proof.
  intros Hal Hr Hdeny. destruct (allowed_region s a acc Hal) as (r' & Hr' & Hcr & Hacc & Hw).
  assert (r' = r) as -> by congruence. unfold can_read in Hcr. rewrite Hr in Hcr.
  destruct (leaf s a) as [[e k]|] eqn:Hl.
  - specialize (Hdeny e k eq_refl). unfold leaf_allows in Hdeny. rewrite Hcr in Hdeny.
    destruct Hacc as [->| ->]; [done|]. specialize (Hw eq_refl). change (PTE_W =? PTE_R) with false in Hdeny.
    cbn [andb orb] in Hdeny. rewrite Hdeny in Hw. split; [by apply land_flag|done].
  - split; [|by intros [? ?]]. destruct Hacc as [->| ->]; apply land_flag; auto; lia.
Qed.

(** A fault on an allowed access is resolved: the page is given a frame, or
    copied. *)
Lemma fault_resolved s a acc : uspace s → allowed s a acc →
  (∀ e k, leaf s a = Some (e, k) → leaf_allows e acc = false) →
  match handle_page_fault a acc s with
  | (Ok _, s') => evolves s s' (view s) ∧ ∃ e, leaf s' a = Some (e, 0%nat) ∧ leaf_allows e acc = true
  | (Panic, s') => full (fa (km s'))
  | _ => False
  end.
Proof.
  intros Hu Hal Hdeny. destruct (allowed_region s a acc Hal) as (r & Hr & Hcr & Hacc & Hw).
  destruct (region_at_range s a r Hu Hr) as (_ & Ha & Hau & Haok & _ & _ & Hrin & Hst & Hfl & Hus).
  pose proof (us_flags s Hu) as Hfls. rewrite Forall_and in Hfls. destruct Hfls as [Hfls _].
  destruct (denied_flags s a acc r Hal Hr Hdeny) as [Hland Hcow].
  destruct (handle_page_fault_spec s a acc (us_space s Hu) (us_meta s Hu) (us_pages s Hu) Hfls Hau Haok) as [_ Hf].
  change (a - a mod 4096) with (page_of a) in Hf. destruct (Hf r) as [Hmapped Hunmapped]; [|done|].
  { apply region_of_page; [apply Hu|lia|]. apply lookup_region_spec; [apply Hu|]. done. }
  unfold can_read in Hcr. rewrite Hr in Hcr. unfold leaf_allows. destruct (leaf s a) as [[e k]|] eqn:Hl.
  - destruct (Hcow (mk_is_Some _ _ eq_refl)) as [-> HW].
    rewrite Hmapped by (by exists (e, k)). change (Z.land PTE_W PTE_W =? PTE_W) with true. cbn iota.
    assert (leaf s (r_start r) = Some (e, k)) as Hlr by (by rewrite (leaf_region s a r)).
    destruct (us_mapped s Hu r e k Hrin Hlr) as [-> _].
    pose proof (cow_replaced s a r e Hu Hr Hl HW) as Hc. unfold kmem, zoom.
    destruct (copy_on_write _ _ _) as [[[]|er| |] k']; [|done..]. destruct Hc as (e' & Hrep & H2 & H1).
    split; [by apply (page_replaced_evolves s _ (page_of a) e' r)|]. exists e'.
    rewrite (pr_leaf _ _ _ _ _ Hrep a r Hr), decide_True by done. split; [done|]. by rewrite H1, Hcr, H2, orb_true_r.
  - specialize (Hunmapped Hl). destruct (handle_page_fault a acc s) as [[[]|er| |] s']; [|done..].
    destruct Hunmapped as (Hmm & pa & Hg). pose proof (page_given_replaced s s' a r pa Hu Hr Hl Hmm Hg) as Hrep.
    split; [by apply (page_replaced_evolves s _ (page_of a) (leaf_pte pa (r_flags r)) r)|]. eexists.
    rewrite (pr_leaf _ _ _ _ _ Hrep a r Hr), decide_True by done. split; [done|].
    rewrite (pr_read _ _ _ _ _ Hrep a eq_refl), Hl, Hcr.
    destruct (pg_frame _ _ _ _ _ _ Hg) as [Hok _]. destruct (table_ok_page_ok pa Hok) as [Hpok _].
    destruct (leaf_pte_spec pa (r_flags r) Hpok Hfl) as (_ & _ & _ & Hbits). rewrite Hbits by lia.
    destruct Hacc as [->| ->]; [done|]. by rewrite (Hw eq_refl).
Qed.

(** A leaf that lets the access through. *)
Lemma mmu_leaf s a acc e r : uspace s → region_at s a = Some r → acc = PTE_R ∨ acc = PTE_W →
  leaf s a = Some (e, 0%nat) → leaf_allows e acc = true →
  mmu (mem (km s)) (root_pt (mm s)) a acc = Some (ppn_address e + a mod 4096).
Proof.
  intros Hu Hr Hacc Hl He. destruct (region_at_range s a r Hu Hr) as (_ & _ & Hau & Haok & Hb & Hbok & Hrin & Hst & _).
  assert (leaf s (r_start r) = Some (e, 0%nat)) as Hlr by (by rewrite (leaf_region s a r)).
  destruct (us_mapped s Hu r e 0 Hrin Hlr) as [_ [(_ & Hal & _) _ _ _ _ _ [H6 H7] _]].
  assert (path_of a Size4K = path_of (page_of a) Size4K) as Hpath.
  { apply path_of_page; [done..|]. unfold page_of. Z.div_mod_to_equations; lia. }
  unfold leaf_allows in He. apply andb_true_iff in He as [H1 H2].
  apply (mmu_hit (MU := MU) _ _ a acc e 0); [done|done|apply (us_space s Hu)|done|by rewrite Hpath|done|].
  intros i [->|[->|[->|[-> ->]]]]; try done.
Qed.

Lemma mmu_stops s a acc r : uspace s → region_at s a = Some r → acc = PTE_R ∨ acc = PTE_W → can_read s a = true →
  (∀ e k, leaf s a = Some (e, k) → leaf_allows e acc = false) →
  mmu (mem (km s)) (root_pt (mm s)) a acc = None.
Proof.
  intros Hu Hr Hacc Hcr Hdeny. destruct (region_at_range s a r Hu Hr) as (_ & _ & Hau & Haok & Hb & Hbok & _).
  pose proof (us_space s Hu) as (_ & [Hs _] & _).
  assert (path_of a Size4K = path_of (page_of a) Size4K) as Hpath.
  { apply path_of_page; [done..|]. unfold page_of. Z.div_mod_to_equations; lia. }
  unfold can_read in Hcr. rewrite Hr in Hcr. destruct (leaf s a) as [[e k]|] eqn:Hl.
  - specialize (Hdeny e k eq_refl). unfold leaf_allows in Hdeny. rewrite Hcr in Hdeny.
    destruct Hacc as [->| ->]; [done|]. change (PTE_W =? PTE_R) with false in Hdeny. cbn [andb orb] in Hdeny.
    apply (mmu_denied (MU := MU) _ _ a PTE_W e k); [done..|by rewrite Hpath|].
    intros Heq%(f_equal (λ z, Z.testbit z 2)). rewrite Z.land_spec, Hdeny in Heq. done.
  - apply (mmu_unmapped (MU := MU)); [done..|]. by rewrite Hpath.
Qed.

(** An allowed access finds the byte's place. *)
Lemma access_spec s a acc : uspace s → allowed s a acc →
  match access 1 a acc s with
  | (Ok pa, s') => evolves s s' (view s) ∧
      ∃ e, leaf s' a = Some (e, 0%nat) ∧ leaf_allows e acc = true ∧ pa = ppn_address e + a mod 4096
  | (Panic, s') => full (fa (km s'))
  | _ => False
  end.
Proof.
  intros Hu Hal. destruct (allowed_region s a acc Hal) as (r & Hr & Hcr & Hacc & _).
  assert ((∃ e, leaf s a = Some (e, 0%nat) ∧ leaf_allows e acc = true) ∨
    ∀ e k, leaf s a = Some (e, k) → leaf_allows e acc = false) as [(e & Hl & He)|Hdeny].
  { destruct (leaf s a) as [[e k]|] eqn:Hl; [|by right].
    destruct (region_at_range s a r Hu Hr) as (_ & _ & _ & _ & _ & _ & Hrin & Hst & _).
    assert (leaf s (r_start r) = Some (e, k)) as Hlr by (by rewrite (leaf_region s a r)).
    destruct (us_mapped s Hu r e k Hrin Hlr) as [-> _]. destruct (leaf_allows e acc) eqn:He; [left; by eauto|].
    right. by intros ? ? [= <- <-]. }
  - cbn [access]. unfold bind at 1, gets. cbn [id]. rewrite (mmu_leaf s a acc e r) by done.
    split; [by apply evolves_refl|]. by exists e.
  - cbn [access]. unfold bind at 1, gets. cbn [id]. rewrite (mmu_stops s a acc r) by done. unfold bind at 1, attempt.
    pose proof (fault_resolved s a acc Hu Hal Hdeny) as Hf.
    destruct (handle_page_fault a acc s) as [[[]|er| |] s']; [|done..]. destruct Hf as [Hev (e & Hl & He)].
    unfold bind, gets. cbn [id].
    assert (region_at s' a = Some r) as Hr' by (unfold region_at in *; by rewrite (ev_mm _ _ _ Hev)).
    rewrite (mmu_leaf s' a acc e r) by (done || apply Hev). split; [done|]. by exists e.
Qed.

(** ** Loads and stores *)

Lemma can_read_view s a : can_read s a = true → is_Some (view s a).
Proof. unfold can_read, view. destruct (region_at s a); [|done]. destruct (leaf s a) as [[e k]|]; by eauto. Qed.

Lemma load_spec s a : uspace s → can_read s a = true →
  match user_load a s with
  | (Ok b, s') => view s a = Some b ∧ evolves s s' (view s)
  | (Panic, s') => full (fa (km s'))
  | _ => False
  end.
Proof.
  intros Hu Hcr. unfold user_load, bind. pose proof (access_spec s a PTE_R Hu ltac:(by left)) as Ha.
  destruct (access 1 a PTE_R s) as [[pa|er| |] s']; [|done..]. destruct Ha as (Hev & e & Hl & _ & ->). unfold gets.
  split; [|done]. rewrite <-(ev_view _ _ _ Hev). unfold view.
  destruct (allowed_region s a PTE_R ltac:(by left)) as (r & Hr & _).
  assert (region_at s' a = Some r) as -> by (unfold region_at in *; by rewrite (ev_mm _ _ _ Hev)). by rewrite Hl.
Qed.

(** A byte of a page is not in a table. *)
Lemma set_byte_leaf s a r e b x : uspace s → region_at s a = Some r → leaf s a = Some (e, 0%nat) →
  leaf (set_km (set_mem (set_byte (ppn_address e + a mod 4096) b (mem (km s))) (km s)) s) x = leaf s x.
Proof.
  intros Hu Hr Hl. destruct (region_at_range s a r Hu Hr) as (_ & _ & _ & _ & _ & _ & Hrin & Hst & _).
  assert (leaf s (r_start r) = Some (e, 0%nat)) as Hlr by (by rewrite (leaf_region s a r)).
  destruct (us_mapped s Hu r e 0 Hrin Hlr) as [_ [(Hx0 & Hxm & _) _ Hnt _ _ _ _ _]].
  assert (Ho : 0 ≤ a mod 4096 < 4096) by (apply Z.mod_pos_bound; lia).
  destruct (page_of_add (ppn_address e) (a mod 4096) Hxm Ho) as [Hpg _].
  unfold leaf. cbn [km mm set_km mem set_mem]. apply (walk_frame 3); [done|apply path_range|apply (us_space s Hu)|].
  intros y Hy. apply frame_set_byte; [lia|]. rewrite Hpg. by intros ->.
Qed.

(** A byte of a page that nobody else has. *)
Lemma set_byte_evolves s a r e b : uspace s → region_at s a = Some r → leaf s a = Some (e, 0%nat) →
  refs (meta (km s)) (ppn_address e) = 1 → is_u8 b →
  evolves s (set_km (set_mem (set_byte (ppn_address e + a mod 4096) b (mem (km s))) (km s)) s)
    (λ x, if decide (x = a) then Some b else view s x).
Proof.
  intros Hu Hr Hl Hone Hb. set (s' := set_km _ s).
  destruct (region_at_range s a r Hu Hr) as (_ & _ & _ & _ & _ & _ & Hrin & Hst & _).
  assert (leaf s (r_start r) = Some (e, 0%nat)) as Hlr by (by rewrite (leaf_region s a r)).
  destruct (us_mapped s Hu r e 0 Hrin Hlr) as [_ [Hok Hheld Hnt Href Hpriv Hlen Had Hus]].
  pose proof Hok as (Hx0 & Hxm & _). assert (Ho : 0 ≤ a mod 4096 < 4096) by (apply Z.mod_pos_bound; lia).
  destruct (page_of_add (ppn_address e) (a mod 4096) Hxm Ho) as [Hpg _].
  assert (Hfr : ∀ x, x ≠ ppn_address e → frame (mem (km s')) x = frame (mem (km s)) x).
  { intros x Hx. cbn [s' km set_km mem set_mem]. apply frame_set_byte; [lia|]. by rewrite Hpg. }
  pose proof (us_space s Hu) as Has. pose proof Has as (Hk & [Hs _] & Hown).
  destruct (aspace_keep (km s) (km s') (root_pt (mm s)) Has) as (Has' & Htab & _); [by destruct Hk; split| |].
  { intros x Hx. split; [apply Hfr; by intros ->|by apply Hown]. }
  pose proof (λ x, set_byte_leaf s a r e b x Hu Hr Hl) as Hleaf.
  assert (Hlen' : ∀ x, length (frame (mem (km s')) x) = length (frame (mem (km s)) x))
    by (intros x; apply frame_set_byte_length).
  assert (uspace s') as Hu'.
  { split; [done|apply Hu|apply Hu|apply Hu| |].
    - intros r' e' k Hr'. rewrite Hleaf. intros Hl'. destruct (us_mapped s Hu r' e' k Hr' Hl') as [-> [? ? ? ? ? ? ? ?]].
      split; [done|]. change (mm s') with (mm s). split; try done; [by rewrite Htab|by rewrite Hlen'].
    - intros r1 r2 e1 e2 H1 H2. rewrite !Hleaf. by apply us_inj. }
  split; [done|done| | | | | | |done|].
  - intros x. unfold view. rewrite Hleaf. change (region_at s' x) with (region_at s x).
    destruct (decide (x = a)) as [->|Hne].
    + rewrite Hr, Hl. cbn [s' km set_km mem set_mem]. by rewrite byte_at_set_byte, decide_True by (done || lia || by rewrite Hpg).
    + destruct (region_at s x) as [rx|] eqn:Hrx; [|done]. destruct (leaf s x) as [[ex k]|] eqn:Hlx; [|done].
      destruct (region_at_range s x rx Hu Hrx) as (_ & _ & _ & _ & _ & _ & Hrxin & Hstx & _).
      assert (leaf s (r_start rx) = Some (ex, k)) as Hlrx by (by rewrite (leaf_region s x rx)).
      destruct (us_mapped s Hu rx ex k Hrxin Hlrx) as [-> [(Hex0 & Hexm & _) _ _ _ _ _ _ _]].
      assert (Hox : 0 ≤ x mod 4096 < 4096) by (apply Z.mod_pos_bound; lia).
      cbn [s' km set_km mem set_mem]. rewrite byte_at_set_byte, decide_False; try done; [|lia|lia|by rewrite Hpg].
      intros Heq. apply Hne. assert (ppn_address ex = ppn_address e ∧ x mod 4096 = a mod 4096) as [H1 H2]
        by (Z.div_mod_to_equations; lia).
      pose proof (us_inj s Hu rx r ex e Hrxin Hrin Hlrx Hlr H1) as ->. rewrite Hst in Hstx. unfold page_of in Hstx. lia.
  - intros x. unfold can_read. by rewrite Hleaf.
  - intros x. unfold can_write, can_read. by rewrite Hleaf.
  - intros x. unfold can_exec. by rewrite Hleaf.
  - intros x (Hx1 & Hx2 & Hx3). split.
    + split; [done|]. cbn [mm s' set_km]. rewrite Htab. split; [done|]. intros r' e' k Hr'. rewrite Hleaf. by apply Hx3.
    + apply Hfr. intros ->. specialize (Hx3 r e 0%nat Hrin Hlr eq_refl). lia.
  - intros x _ [Hx|(r' & e' & k & Hr' & Hl' & Hx)].
    + cbn [mm s' set_km] in Hx. rewrite Htab in Hx. by left.
    + right. exists r', e', k. by rewrite <-Hleaf.
  - intros va _ _ _. apply (walk_frame 3); [done|apply path_range|done|]. intros y Hy. apply Hfr. by intros ->.
Qed.

Lemma store_spec s a b : uspace s → can_write s a = true → is_u8 b →
  match user_store a b s with
  | (Ok _, s') => evolves s s' (λ x, if decide (x = a) then Some b else view s x)
  | (Panic, s') => full (fa (km s'))
  | _ => False
  end.
Proof.
  intros Hu Hcw Hb. unfold user_store, bind. pose proof (access_spec s a PTE_W Hu ltac:(by right)) as Ha.
  destruct (access 1 a PTE_W s) as [[pa|er| |] s']; [|done..]. destruct Ha as (Hev & e & Hl & He & ->). unfold modify.
  destruct (allowed_region s a PTE_W ltac:(by right)) as (r & Hr & _).
  assert (region_at s' a = Some r) as Hr' by (unfold region_at in *; by rewrite (ev_mm _ _ _ Hev)).
  unfold leaf_allows in He. apply andb_true_iff in He as [_ He].
  destruct (region_at_range _ a r (ev_space _ _ _ Hev) Hr') as (_ & _ & _ & _ & _ & _ & Hrin & _).
  destruct (us_mapped _ (ev_space _ _ _ Hev) r e 0 Hrin) as [_ Hpf]; [by rewrite (leaf_region _ a r) by (done || apply Hev)|].
  eapply evolves_trans; [exact Hev|].
  eapply evolves_ext; [by eapply set_byte_evolves; [apply Hev|done|done|by apply (pf_private _ _ _ Hpf)|done]|].
  intros x. cbn. by rewrite (ev_view _ _ _ Hev).
Qed.

(** ** Copies *)

(** [f] with [bs] from address [a] on. *)
Definition patched (f : Z → option Z) (a : Z) (bs : list Z) (x : Z) : option Z :=
  if decide (a ≤ x < a + Z.of_nat (length bs)) then bs !! Z.to_nat (x - a) else f x.

Lemma patched_nil f a x : patched f a [] x = f x.
Proof. unfold patched. rewrite decide_False; [done|]. simpl. lia. Qed.

Lemma patched_cons f a b bs x :
  patched (λ y, if decide (y = a) then Some b else f y) (a + 1) bs x = patched f a (b :: bs) x.
Proof.
  unfold patched. rewrite length_cons. destruct (decide (x = a)) as [->|Hne].
  - rewrite decide_False, decide_True by lia. by rewrite Z.sub_diag.
  - destruct (decide (a + 1 ≤ x < a + 1 + Z.of_nat (length bs))) as [H|H].
    + rewrite decide_True by lia. rewrite lookup_cons_ne_0 by lia. f_equal. lia.
    + by rewrite decide_False by lia.
Qed.

Lemma copy_into_spec src : ∀ s addr i, uspace s → 0 ≤ addr → 0 ≤ i →
  addr + i + Z.of_nat (length src) ≤ 2 ^ 64 → Forall is_u8 src →
  (∀ j, 0 ≤ j < Z.of_nat (length src) → can_write s (addr + i + j) = true) →
  match buf_copy_into_user addr i src s with
  | (Ok _, s') => evolves s s' (patched (view s) (addr + i) src)
  | (Panic, s') => full (fa (km s'))
  | _ => False
  end.
Proof.
  induction src as [|b src IH]; intros s addr i Hu Ha Hi Hov Hb Hw; cbn [buf_copy_into_user].
  { eapply evolves_ext; [by apply evolves_refl|]. intros x. by rewrite patched_nil. }
  rewrite length_cons in Hov, Hw. apply Forall_cons in Hb as [Hb Hbs].
  unfold bind at 1, lift, add_ov, checked_add. rewrite (proj2 (Z.ltb_lt _ _)) by lia. cbn [unwrap].
  unfold bind. pose proof (store_spec s (addr + i) b Hu ltac:(rewrite <-(Z.add_0_r (addr + i)); apply Hw; lia) Hb) as Hst.
  destruct (user_store (addr + i) b s) as [[[]|er| |] s1]; [|done..].
  assert (Hw1 : ∀ j, 0 ≤ j < Z.of_nat (length src) → can_write s1 (addr + (i + 1) + j) = true).
  { intros j Hj. rewrite (ev_write _ _ _ Hst).
    replace (addr + (i + 1) + j) with (addr + i + (j + 1)) by lia. apply Hw. lia. }
  specialize (IH s1 addr (i + 1) (ev_space _ _ _ Hst) Ha ltac:(lia) ltac:(lia) Hbs Hw1).
  destruct (buf_copy_into_user addr (i + 1) src s1) as [[[]|er| |] s2]; [|done..].
  eapply evolves_trans; [exact Hst|]. eapply evolves_ext; [exact IH|].
  intros x. rewrite <-patched_cons. replace (addr + (i + 1)) with (addr + i + 1) by lia.
  unfold patched. destruct (decide _); [done|]. apply (ev_view _ _ _ Hst).
Qed.

(** [bs] is what a copy of at most [n] bytes from [a] on reads before a byte
    that [stop] accepts; [stopped] says if there was one. *)
Definition read_until (s : Space) (a : Z) (n : nat) (stop : Z → bool) (bs : list Z) (stopped : bool) : Prop :=
  (∀ j b, bs !! j = Some b → view s (a + Z.of_nat j) = Some b ∧ stop b = false) ∧
  if stopped then (length bs < n)%nat ∧ ∃ b, view s (a + Z.of_nat (length bs)) = Some b ∧ stop b = true
  else length bs = n.

(** The bytes that such a copy looks at can be read. *)
Definition readable_until (s : Space) (a : Z) (n : nat) (stop : Z → bool) : Prop :=
  ∀ j, 0 ≤ j < Z.of_nat n →
    (∀ j', 0 ≤ j' < j → ∃ b, view s (a + j') = Some b ∧ stop b = false) → can_read s (a + j) = true.

Lemma readable_until_head s a n stop : readable_until s a (S n) stop → can_read s a = true.
Proof. intros Hr. rewrite <-(Z.add_0_r a). apply Hr; lia. Qed.

Lemma readable_until_tail s s' a n stop b : readable_until s a (S n) stop → view s a = Some b → stop b = false →
  (∀ x, view s' x = view s x) → (∀ x, can_read s' x = can_read s x) → readable_until s' (a + 1) n stop.
Proof.
  intros Hr Hb Hst Hv Hc j Hj Hpre. rewrite Hc. replace (a + 1 + j) with (a + (j + 1)) by lia. apply Hr; [lia|].
  intros j' Hj'. destruct (decide (j' = 0)) as [->|]; [exists b; by rewrite Z.add_0_r|].
  destruct (Hpre (j' - 1) ltac:(lia)) as (b' & Hb' & ?). exists b'. rewrite Hv in Hb'. split; [|done]. rewrite <-Hb'. f_equal. lia.
Qed.

Lemma read_until_cons s s' a n stop b bs stopped : view s a = Some b → stop b = false → (∀ x, view s' x = view s x) →
  read_until s' (a + 1) n stop bs stopped → read_until s a (S n) stop (b :: bs) stopped.
Proof.
  intros Hb Hst Hv [Hbs Hend]. split.
  - intros [|j] b' Hj; cbn in Hj; [injection Hj as <-; by rewrite Z.add_0_r|].
    destruct (Hbs j b' Hj) as [H1 H2]. rewrite Hv in H1. split; [|done]. rewrite <-H1. f_equal. lia.
  - rewrite length_cons. destruct stopped; [|lia]. destruct Hend as (Hlt & b' & H1 & H2). split; [lia|].
    exists b'. rewrite Hv in H1. split; [|done]. rewrite <-H1. f_equal. lia.
Qed.

Lemma copy_from_spec n : ∀ s addr i stop, uspace s → 0 ≤ addr → 0 ≤ i → addr + i + Z.of_nat n ≤ 2 ^ 64 →
  readable_until s (addr + i) n stop →
  match buf_copy_from_user_until n addr i stop s with
  | (Ok (bs, stopped), s') => evolves s s' (view s) ∧ read_until s (addr + i) n stop bs stopped
  | (Panic, s') => full (fa (km s'))
  | _ => False
  end.
Proof.
  induction n as [|n IH]; intros s addr i stop Hu Ha Hi Hov Hr; cbn [buf_copy_from_user_until].
  { split; [by apply evolves_refl|]. by split; [intros j b Hj|]. }
  unfold bind at 1, lift, add_ov, checked_add. rewrite (proj2 (Z.ltb_lt _ _)) by lia. cbn [unwrap].
  unfold bind at 1. pose proof (load_spec s (addr + i) Hu (readable_until_head _ _ _ _ Hr)) as Hld.
  destruct (user_load (addr + i) s) as [[b|er| |] s1]; [|done..]. destruct Hld as [Hb Hev].
  destruct (stop b) eqn:Hst.
  { split; [done|]. split; [by intros j b' Hj|]. split; [simpl; lia|]. exists b. by rewrite Z.add_0_r. }
  pose proof (readable_until_tail s s1 _ n stop b Hr Hb Hst (ev_view _ _ _ Hev) (ev_read _ _ _ Hev)) as Hr1.
  rewrite <-Z.add_assoc in Hr1. specialize (IH s1 addr (i + 1) stop (ev_space _ _ _ Hev) Ha ltac:(lia) ltac:(lia) Hr1).
  unfold bind. destruct (buf_copy_from_user_until n addr (i + 1) stop s1) as [[[bs stopped]|er| |] s2]; [|done..].
  destruct IH as [Hev2 Hru]. split.
  - eapply evolves_trans; [exact Hev|]. eapply evolves_ext; [exact Hev2|]. apply Hev.
  - rewrite Z.add_assoc in Hru. by eapply read_until_cons; [..|exact Hru]; [| |apply Hev].
Qed.

Lemma copy_many_spec n : ∀ s cur stop, uspace s → 0 ≤ cur → cur + Z.of_nat n < 2 ^ 64 →
  readable_until s cur n stop →
  match copy_from_user_many_until n cur stop s with
  | (Ok (bs, stopped), s') => evolves s s' (view s) ∧ read_until s cur n stop bs stopped
  | (Panic, s') => full (fa (km s'))
  | _ => False
  end.
Proof.
  induction n as [|n IH]; intros s cur stop Hu Ha Hov Hr; cbn [copy_from_user_many_until].
  { split; [by apply evolves_refl|]. by split; [intros j b Hj|]. }
  unfold bind at 1. pose proof (load_spec s cur Hu (readable_until_head _ _ _ _ Hr)) as Hld.
  destruct (user_load cur s) as [[b|er| |] s1]; [|done..]. destruct Hld as [Hb Hev].
  destruct (stop b) eqn:Hst.
  { split; [done|]. split; [by intros j b' Hj|]. split; [simpl; lia|]. exists b. by rewrite Z.add_0_r. }
  unfold bind at 1. pose proof (load_spec s1 cur (ev_space _ _ _ Hev)) as Hld2.
  rewrite (ev_read _ _ _ Hev) in Hld2. specialize (Hld2 (readable_until_head _ _ _ _ Hr)).
  destruct (user_load cur s1) as [[b2|er| |] s2]; [|done..]. destruct Hld2 as [Hb2 Hev2].
  rewrite (ev_view _ _ _ Hev), Hb in Hb2. injection Hb2 as <-.
  assert (Hev3 : evolves s s2 (view s)) by (eapply evolves_trans; [exact Hev|]; eapply evolves_ext; [exact Hev2|]; apply Hev).
  unfold bind at 1, lift, add_ov, checked_add. rewrite (proj2 (Z.ltb_lt _ _)) by lia. cbn [unwrap].
  pose proof (readable_until_tail s s2 _ n stop b Hr Hb Hst (ev_view _ _ _ Hev3) (ev_read _ _ _ Hev3)) as Hr1.
  specialize (IH s2 (cur + 1) stop (ev_space _ _ _ Hev3) ltac:(lia) ltac:(lia) Hr1).
  unfold bind. destruct (copy_from_user_many_until n (cur + 1) stop s2) as [[[bs stopped]|er| |] s3]; [|done..].
  destruct IH as [Hev4 Hru]. split.
  - eapply evolves_trans; [exact Hev3|]. eapply evolves_ext; [exact Hev4|]. apply Hev3.
  - by eapply read_until_cons; [..|exact Hru]; [| |apply Hev3].
Qed.

(** C6: a copy into user memory that the task may write puts exactly the bytes
    there, whatever of the range had a frame, was shared after a fork or was
    never touched; the rest of the task's memory, and every frame that others
    have references to, stay as they were.  A copy from there then gives the
    bytes back and changes nothing.  Both return, unless no frame is left for a
    page. *)
Theorem user_copies_are_faithful s addr src : uspace s → 0 ≤ addr →
  addr + Z.of_nat (length src) ≤ 2 ^ 64 → Forall is_u8 src →
  (∀ j, 0 ≤ j < Z.of_nat (length src) → can_write s (addr + j) = true) →
  match buf_copy_into_user addr 0 src s with
  | (Ok _, s') => evolves s s' (patched (view s) addr src) ∧
      match buf_copy_from_user (length src) addr s' with
      | (Ok bs, s2) => bs = src ∧ evolves s' s2 (view s')
      | (Panic, s2) => full (fa (km s2))
      | _ => False
      end
  | (Panic, s') => full (fa (km s'))
  | _ => False
  end.
Proof.
  intros Hu Ha Hov Hb Hw. pose proof (copy_into_spec src s addr 0 Hu Ha ltac:(done)) as Hin.
  rewrite Z.add_0_r in Hin. specialize (Hin Hov Hb Hw).
  destruct (buf_copy_into_user addr 0 src s) as [[[]|er| |] s']; [|done..]. split; [done|].
  pose proof (copy_from_spec (length src) s' addr 0 (λ _, false) (ev_space _ _ _ Hin) Ha ltac:(done)) as Hout.
  rewrite Z.add_0_r in Hout. specialize (Hout Hov). unfold buf_copy_from_user, bind.
  destruct (buf_copy_from_user_until _ _ _ _ s') as [[[bs stopped]|er| |] s2].
  2-4: apply Hout; intros j Hj _; rewrite (ev_read _ _ _ Hin); specialize (Hw j Hj); unfold can_write in Hw;
    by apply andb_true_iff in Hw as [? _].
  destruct Hout as [Hev [Hbs Hend]].
  { intros j Hj _. rewrite (ev_read _ _ _ Hin). specialize (Hw j Hj). unfold can_write in Hw.
    by apply andb_true_iff in Hw as [? _]. }
  split; [|done]. destruct stopped; [by destruct Hend as (_ & b & _ & ?)|].
  apply list_eq_same_length with (length src); [done..|]. intros j b b' Hj Hbj Hbj'.
  destruct (Hbs j b Hbj) as [Hv _]. rewrite (ev_view _ _ _ Hin) in Hv. unfold patched in Hv.
  rewrite decide_True in Hv by lia. replace (Z.to_nat (addr + Z.of_nat j - addr)) with j in Hv by lia. congruence.
Qed.
End access.

(** ** The translation of the specification *)

#[export] Instance sv39_mmu : Mmu := {
  mmu m root va acc :=
    match walk m root (path_of va Size4K) with
    | Some (e, k) =>
        if Z.testbit e 1 && (Z.land e acc =? acc) then Some (ppn_address e + va mod bytes (size_of k)) else None
    | None => None
    end;
}.

#[export] Instance sv39_mmu_ok : MmuOk sv39_mmu.
Proof.
  split; cbn [mmu sv39_mmu].
  - intros m root va acc e k _ _ _ Hacc -> _ Hb. rewrite (Hb 1) by auto.
    rewrite (proj2 (Z.eqb_eq _ _)); [done|]. destruct Hacc as [->| ->]; apply land_flag; try lia; apply Hb; auto.
  - by intros m root va acc _ _ _ ->.
  - intros m root va acc e k _ _ _ -> Hne. by rewrite (proj2 (Z.eqb_neq _ _) Hne), andb_false_r.
Qed.

Lemma example_uspace : uspace example_space.
Proof.
  split.
  - apply example_aspace.
  - split; [apply wf_empty|]. intros x _. reflexivity.
  - apply pages_ok_cons. split_and!; [done|intros r' Hr'; by apply elem_of_nil in Hr'|split; constructor].
  - apply Forall_singleton. by split.
  - intros r e k ->%list_elem_of_singleton. by vm_compute.
  - intros r r' e e' ->%list_elem_of_singleton ->%list_elem_of_singleton. done.
Qed.

Lemma user_copies_are_faithful_witness : ∃ s',
  buf_copy_into_user 0x10123 0 [1; 2; 3] example_space = (Ok tt, s') ∧
  view s' 0x10124 = Some 2 ∧ view s' 0x10126 = Some 0 ∧
  (buf_copy_from_user 3 0x10123 s').1 = Ok [1; 2; 3].
Proof.
  assert (Hok : (buf_copy_into_user 0x10123 0 [1; 2; 3] example_space).1 = Ok tt ∧
    (buf_copy_from_user 3 0x10123 (buf_copy_into_user 0x10123 0 [1; 2; 3] example_space).2).1 = Ok [1; 2; 3])
    by (vm_compute; split; reflexivity).
  pose proof (user_copies_are_faithful example_space 0x10123 [1; 2; 3] example_uspace ltac:(done) ltac:(done)
    ltac:(repeat constructor; done)) as H.
  destruct (buf_copy_into_user 0x10123 0 [1; 2; 3] example_space) as [o s']. cbn [fst snd] in Hok.
  destruct Hok as [-> Hback]. exists s'. split; [done|]. destruct H as [Hev _].
  { intros j Hj. assert (j = 0 ∨ j = 1 ∨ j = 2) as [->|[->| ->]] by (cbn in Hj; lia); vm_compute; reflexivity. }
  rewrite !(ev_view _ _ _ Hev). split; [vm_compute; reflexivity|]. split; [vm_compute; reflexivity|done].
Defined.
