(* ===== verification/ForkView.v ===== *)
(** * Parent and child after a fork

    [MemoryManager::fork]: the child starts with the parent's memory, and from
    then on neither sees what the other writes, although they share frames. *)

From S2P Require Import Prelude Errors Addr Sv39 FrameAllocator PageMeta PageTable PageMap PageFork MemMgr MemFault UserMem UserView.

(** Two spaces over the same memory: the frames of the one are foreign to the
    other. *)
Definition apart (p c : Space) : Prop := ∀ x, owns p x → foreign c x.

Record pair_ok (mp mc : MemoryManager) (k : Kmem) : Prop := {
  po_parent : uspace (mkSpace mp k);
  po_child : uspace (mkSpace mc k);
  po_apart : apart (mkSpace mp k) (mkSpace mc k);
  po_apart' : apart (mkSpace mc k) (mkSpace mp k);
}.

(** ** What one of them does leaves the other as it is *)

Section other.
Context (mp mc : MemoryManager) (k k' : Kmem) (f : Z → option Z).
Context (Hpair : pair_ok mp mc k) (Hev : evolves (mkSpace mc k) (mkSpace mc k') f).
Let p := mkSpace mp k.
Let p' := mkSpace mp k'.

Lemma owned_kept x : owns p x → frame (mem k') x = frame (mem k) x ∧ held (fa k') x.
Proof.
  intros Hx. apply (po_apart _ _ _ Hpair) in Hx. destruct (ev_foreign _ _ _ Hev x Hx) as [(Hh & _) Hf]. done.
Qed.

Lemma other_tables : aspace k' (root_pt mp) ∧
  tables 3 (mem k') (root_pt mp) = tables 3 (mem k) (root_pt mp) ∧ ∀ a, leaf p' a = leaf p a.
Proof.
  pose proof (us_space _ (po_parent _ _ _ Hpair)) as Has. cbn [km mm] in Has.
  pose proof (us_space _ (ev_space _ _ _ Hev)) as (Hk & _).
  destruct (aspace_keep k k' (root_pt mp) Has Hk) as (Has' & Ht & _).
  { intros x Hx. apply owned_kept. by left. }
  split; [done|]. split; [done|]. intros a. unfold leaf, p, p'. cbn [km mm].
  apply (walk_frame 3); [done|apply path_range|apply Has|]. intros x Hx. apply owned_kept. by left.
Qed.

Lemma other_owns x : owns p' x ↔ owns p x.
Proof. destruct other_tables as (_ & Ht & Hl). unfold owns, p, p' in *. cbn [km mm] in *. rewrite Ht. by setoid_rewrite Hl. Qed.

Lemma other_page r e : r ∈ regions mp → leaf p (r_start r) = Some (e, 0%nat) → page_frame k' (root_pt mp) e.
Proof.
  intros Hr Hl. destruct other_tables as (_ & Ht & _).
  destruct (us_mapped _ (po_parent _ _ _ Hpair) r e 0 Hr Hl) as [_ [H1 H2 H3 H4 H5 H6 H7 H8]]. cbn [km mm] in *.
  assert (owns p (ppn_address e)) as Ho by (right; by exists r, e, 0%nat).
  destruct (owned_kept _ Ho) as [Hf Hh].
  destruct (ev_refs _ _ _ Hev _ (po_apart _ _ _ Hpair _ Ho)) as [Hle Hge]. cbn [km] in *.
  split; [done|done|by rewrite Ht|by apply Hge| |by rewrite Hf|done|done].
  intros HW. specialize (H5 HW). specialize (Hge ltac:(lia)). lia.
Qed.

Lemma other_space : uspace p'.
Proof.
  destruct other_tables as (Has' & _ & Hl). pose proof (po_parent _ _ _ Hpair) as Hp.
  split; [done|apply (us_meta _ (ev_space _ _ _ Hev))|apply Hp|apply Hp| |].
  - intros r e n Hr. rewrite Hl. intros Hle. destruct (us_mapped _ Hp r e n Hr Hle) as [-> _]. split; [done|].
    by apply (other_page r).
  - intros r r' e e' Hr Hr'. rewrite !Hl. by apply (us_inj _ Hp).
Qed.

Lemma other_view a : view p' a = view p a.
Proof.
  destruct other_tables as (_ & _ & Hl). unfold view. change (region_at p' a) with (region_at p a).
  destruct (region_at p a) as [r|] eqn:Hr; [|done]. rewrite Hl. destruct (leaf p a) as [[e n]|] eqn:Hle; [|done].
  pose proof (po_parent _ _ _ Hpair) as Hp.
  destruct (region_at_range p a r Hp Hr) as (_ & _ & _ & _ & _ & _ & Hrin & _).
  assert (leaf p (r_start r) = Some (e, n)) as Hlr by (by rewrite (leaf_region p a r)).
  destruct (us_mapped _ Hp r e n Hrin Hlr) as [-> [(_ & Hm & _) _ _ _ _ _ _ _]]. f_equal. apply page_byte; [|done|].
  - apply owned_kept. right. by exists r, e, 0%nat.
  - apply Z.mod_pos_bound. lia.
Qed.

Lemma other_perms a : can_read p' a = can_read p a ∧ can_write p' a = can_write p a.
Proof. destruct other_tables as (_ & _ & Hl). unfold can_write, can_read. by rewrite !Hl. Qed.

Lemma other_pair : pair_ok mp mc k'.
Proof.
  pose proof (ev_space _ _ _ Hev) as Hc'. split; [apply other_space|done| |].
  - intros x Hx. apply other_owns in Hx. by apply (ev_foreign _ _ _ Hev), (po_apart _ _ _ Hpair).
  - intros x Hx. assert (held (fa k') x) as Hh.
    { destruct Hx as [Hx|(r & e & n & Hr & Hl & <-)]; [by apply (us_space _ Hc')|].
      destruct (us_mapped _ Hc' r e n Hr Hl) as [_ Hpf]. apply Hpf. }
    assert (owns p x → foreign (mkSpace mc k') x ∧ foreign p x) as Hboth.
    { intros Ho. pose proof (po_apart _ _ _ Hpair x Ho) as Hfc. split; [by apply (ev_foreign _ _ _ Hev)|].
      by apply (po_apart' _ _ _ Hpair), (ev_owns _ _ _ Hev). }
    destruct other_tables as (_ & Ht & Hl). split; [done|]. cbn [mm km]. rewrite Ht. split.
    + intros Hin. destruct Hboth as [_ (_ & Hn & _)]; [by left|]. done.
    + intros r e n Hr. fold p'. rewrite Hl. intros Hle Hp. destruct Hboth as [(_ & Hnt & Hrefs) _]; [right; by exists r, e, n|].
      destruct Hx as [Hx|(r' & e' & n' & Hr' & Hl' & He')]; [done|]. by apply (Hrefs r' e' n').
Qed.
End other.

(** ** The kernel stack of the child *)

(** Only frames are taken from the allocator. *)
Definition only_allocs (k k' : Kmem) : Prop :=
  kwf k' ∧ mem k' = mem k ∧ meta k' = meta k ∧ ∀ x, held (fa k) x → held (fa k') x.

Lemma only_allocs_refl k : kwf k → only_allocs k k.
Proof. intros Hk. by split_and!. Qed.

Lemma only_allocs_trans k k1 k2 : only_allocs k k1 → only_allocs k1 k2 → only_allocs k k2.
Proof. intros (? & ? & ? & ?) (? & ? & ? & ?). split_and!; [done|congruence|congruence|auto]. Qed.

Lemma unwrapped_alloc {E} k : kwf k →
  match unwrapped (E' := E) alloc_frame k with
  | (Ok pa, k') => only_allocs k k' ∧ table_ok pa
  | (Panic, k') => full (fa k')
  | _ => False
  end.
Proof.
  intros Hk. unfold unwrapped. pose proof (alloc_frame_spec k Hk) as Ha.
  destruct (alloc_frame k) as [[pa|e| |] k']; [|by destruct Ha as [-> ?]|done..].
  destruct Ha as (Hm & Hme & Hk' & Hpa & _ & Hh). split; [|done]. split_and!; [done..|]. intros x Hx. apply Hh. by right.
Qed.

Lemma stack_alloc_loop_spec (l : list Z) : ∀ s : Space, kwf (km s) →
  match for_each (λ _, let! _ := kmem (unwrapped alloc_frame) in ret tt) l s with
  | (Ok _, s') => mm s' = mm s ∧ only_allocs (km s) (km s')
  | (Panic, s') => full (fa (km s'))
  | _ => False
  end.
Proof.
  induction l as [|z l IH]; intros s Hk; cbn [for_each].
  { split; [done|]. by apply only_allocs_refl. }
  unfold bind at 1 2, kmem, zoom. pose proof (unwrapped_alloc (E := Error) (km s) Hk) as Ha.
  destruct (unwrapped alloc_frame (km s)) as [[pa|e| |] k']; [|done..]. destruct Ha as [Ha _]. cbn [ret].
  specialize (IH (set_km k' s) ltac:(apply Ha)). unfold kmem, zoom in IH.
  destruct (for_each _ l (set_km k' s)) as [[[]|e| |] s']; [|done..]. destruct IH as [Hmm Hal].
  split; [by rewrite Hmm|]. by eapply only_allocs_trans.
Qed.

Lemma create_kernel_stack_spec (s : Space) : kwf (km s) →
  match create_kernel_stack s with
  | (Ok _, s') => (∃ st, mm s' = set_kernel_stack st (mm s)) ∧ only_allocs (km s) (km s')
  | (Err e, _) => e = Overflow
  | (Panic, s') => full (fa (km s'))
  | (Diverge, _) => False
  end.
Proof.
  intros Hk. unfold create_kernel_stack. unfold bind at 1, kmem at 1, zoom at 1.
  pose proof (unwrapped_alloc (E := Error) (km s) Hk) as Ha.
  destruct (unwrapped alloc_frame (km s)) as [[g|e| |] k1]; [|done..]. destruct Ha as [Ha1 _].
  unfold bind at 1, kmem at 1, zoom at 1. cbn [km set_km].
  pose proof (unwrapped_alloc (E := Error) k1 ltac:(apply Ha1)) as Ha.
  destruct (unwrapped alloc_frame k1) as [[start|e| |] k2]; [|done..]. destruct Ha as [Ha2 Hst]. cbn [set_km mm].
  pose proof (only_allocs_trans _ _ _ Ha1 Ha2) as Ha. unfold bind at 1.
  pose proof (stack_alloc_loop_spec (seqZ 1 (KERNEL_STACK_PAGES - 1)) (mkSpace (mm s) k2) ltac:(apply Ha2)) as Hloop.
  destruct (for_each _ _ _) as [[[]|e| |] s3]; [|done..]. destruct Hloop as [Hmm Ha3].
  destruct (table_ok_mapped start KERNEL_DIRECT_MAPPING_BASE Hst) as [Hpv _]; [by right|].
  unfold bind at 1, lift at 1. unfold phys_to_virt. rewrite Hpv. unfold bind at 1, lift at 1.
  destruct (offset_by (start + KERNEL_DIRECT_MAPPING_BASE) _) as [end_|] eqn:Hend; [|done]. cbn [ok_or].
  unfold bind at 1, lift at 1.
  assert (offset_by start (KERNEL_STACK_PAGES * PAGE_SIZE) = Some (start + KERNEL_STACK_PAGES * PAGE_SIZE)) as ->.
  { destruct Hst as (? & _ & ?). unfold offset_by, checked_add in *.
    change (KERNEL_STACK_PAGES * PAGE_SIZE) with 65536 in *. cbn [Z.ltb Z.compare] in *.
    rewrite (proj2 (Z.ltb_lt _ _)); [done|]. change KERNEL_DIRECT_MAPPING_BASE with 0xffffffd600000000 in *.
    change (2 ^ 64) with 18446744073709551616 in *. lia. }
  cbn [unwrap]. unfold bind, modify, ret. cbn [mm km set_mm]. rewrite Hmm.
  split; [by eexists|]. by eapply only_allocs_trans.
Qed.

(** ** References *)

Definition occ (x : Z) (l : list Z) : Z := Z.of_nat (length (filter (λ y, y = x) l)).

Lemma occ_cons x y l : occ x (y :: l) = occ x l + if decide (y = x) then 1 else 0.
Proof. unfold occ. rewrite filter_cons. destruct (decide (y = x)); cbn [length]; lia. Qed.

Lemma occ_elem x l : x ∈ l → 1 ≤ occ x l.
Proof.
  induction l as [|y l IH]; [by intros ?%not_elem_of_nil|]. rewrite occ_cons.
  intros [->|Hx]%elem_of_cons; [rewrite decide_True by done; unfold occ; lia|]. specialize (IH Hx). destruct (decide _); lia.
Qed.

Lemma occ_not_elem x l : x ∉ l → occ x l = 0.
Proof.
  induction l as [|y l IH]; [done|]. intros [Hne Hx]%not_elem_of_cons. rewrite occ_cons, decide_False by done.
  rewrite IH by done. lia.
Qed.

Lemma refs_add_all l : ∀ t, PageMeta.wf t → (∀ x, refs t x + occ x l < 2 ^ 16) →
  PageMeta.wf (add_all t l) ∧ ∀ x, refs (add_all t l) x = refs t x + occ x l.
Proof.
  unfold add_all. induction l as [|y l IH]; intros t Hwf Hlt; cbn [foldl].
  { split; [done|]. intros x. unfold occ. cbn. lia. }
  assert (refs t y < 2 ^ 16 - 1) as Hy.
  { specialize (Hlt y). rewrite occ_cons, decide_True in Hlt by done. unfold occ in Hlt. lia. }
  assert (∀ x, refs (PageMeta.add y t) x = refs t x + if decide (y = x) then 1 else 0) as Hrefs.
  { intros x. destruct (refs_add t y x Hwf Hy) as [_ ->]. destruct (decide (x = y)), (decide (y = x)); by subst || lia. }
  destruct (IH (PageMeta.add y t)) as [Hwf' H].
  - by apply (refs_add t y y).
  - intros x. rewrite Hrefs. specialize (Hlt x). rewrite occ_cons in Hlt. lia.
  - split; [done|]. intros x. rewrite H, Hrefs, occ_cons. lia.
Qed.

(** Leaves for users are among the pages that get a reference. *)
Lemma walk_user_pages n m : ∀ t q e k, length q = n → shape n m t → Forall (λ i, 0 ≤ i < 512) q →
  walk m t q = Some (e, k) → is_leaf e = true → is_user e = true → ppn_address e ∈ user_pages n m t.
Proof.
  induction n as [|n IH]; intros t q e k Hq Hs Hr Hw Hl Hu; [by destruct q|].
  destruct q as [|i q]; [done|]. apply Forall_cons in Hr as [Hi Hr]. injection Hq as Hq. cbn [walk] in Hw.
  destruct (shape_entry n m t i Hs Hi) as [_ Hsub]. cbn [user_pages]. apply list_elem_of_bind. exists (entry m t i).
  assert (entry m t i ∈ frame m t) as Hin.
  { apply list_elem_of_lookup. exists (Z.to_nat i). apply list_lookup_lookup_total_lt. destruct Hs as (_ & -> & _). lia. }
  split; [|done]. destruct (is_table (entry m t i)) eqn:Ht; [by eapply IH; eauto|].
  destruct (is_valid (entry m t i)); [|done]. injection Hw as <- _. rewrite Hl, Hu. by apply list_elem_of_singleton.
Qed.

(** ** The two spaces after [fork] *)

(** A leaf of a user page without its W bit. *)
Lemma cow_bits e i : is_u64 e → 0 ≤ i → i ≠ 2 → Z.testbit (cow e) i = Z.testbit e i.
Proof.
  intros Hu Hi Hne. unfold cow. destruct (_ && _ && _); [|done].
  rewrite testbit_unset_W by done. by rewrite (proj2 (Z.eqb_neq i 2)), andb_true_r.
Qed.

(** What [fork] needs: leaves that stay leaves without W, pages in use, and
    reference counts that do not overflow. *)
Definition forkable (s : Space) : Prop :=
  let pages := user_pages 3 (mem (km s)) (root_pt (mm s)) in
  rx_tables 3 (mem (km s)) (root_pt (mm s)) ∧
  (∀ x, refs (meta (km s)) x + occ x pages < 2 ^ 16) ∧ ∀ x, x ∈ pages → held (fa (km s)) x.

(** One of the two spaces after the fork of [s]: its tables are the old ones,
    or new. *)
Record fork_side (s : Space) (m' : MemoryManager) (k' : Kmem) : Prop := {
  fs_regions : regions m' = regions (mm s);
  fs_space : aspace k' (root_pt m');
  fs_meta : meta k' = add_all (meta (km s)) (user_pages 3 (mem (km s)) (root_pt (mm s)));
  fs_held x : held (fa (km s)) x → held (fa k') x;
  fs_frames x : held (fa (km s)) x → x ∉ tables 3 (mem (km s)) (root_pt (mm s)) →
    frame (mem k') x = frame (mem (km s)) x;
  fs_tables x : x ∈ tables 3 (mem k') (root_pt m') →
    x ∈ tables 3 (mem (km s)) (root_pt (mm s)) ∨ ¬ held (fa (km s)) x;
  fs_walk va : 0 ≤ va → walk (mem k') (root_pt m') (path_of va Size4K) =
    (λ '(e, n), (cow e, n)) <$> walk (mem (km s)) (root_pt (mm s)) (path_of va Size4K);
}.

Section forked.
Context (s : Space) (Hu : uspace s) (Hfk : forkable s).
Context (m' : MemoryManager) (k' : Kmem) (Hside : fork_side s m' k').
Let root := root_pt (mm s).
Let pages := user_pages 3 (mem (km s)) root.
Let c := mkSpace m' k'.

Lemma forked_refs : PageMeta.wf (meta k') ∧ ∀ x, refs (meta k') x = refs (meta (km s)) x + occ x pages.
Proof. rewrite (fs_meta _ _ _ Hside). apply refs_add_all; [apply (us_meta s Hu)|apply Hfk]. Qed.

Lemma forked_region a : region_at c a = region_at s a.
Proof. unfold region_at, c. cbn [mm]. by rewrite (fs_regions _ _ _ Hside). Qed.

Lemma forked_leaf a r : region_at s a = Some r → leaf c a = (λ '(e, n), (cow e, n)) <$> leaf s a.
Proof. intros Hr. destruct (region_at_range s a r Hu Hr) as (H0 & _). unfold leaf, c. cbn [km mm]. by apply Hside. Qed.

Lemma region_start r : r ∈ regions (mm s) → region_at s (r_start r) = Some r.
Proof.
  intros Hr. pose proof (us_pages s Hu) as [_ Hf]. rewrite Forall_forall in Hf. destruct (Hf r Hr) as (H0 & Hm & _).
  apply region_at_spec; [done|done|]. split; [done|]. unfold page_of. lia.
Qed.

(** A page of the parent and its leaf after the fork. *)
Lemma forked_page r e n : r ∈ regions (mm s) → leaf s (r_start r) = Some (e, n) →
  n = 0%nat ∧ page_frame (km s) root e ∧ ppn_address (cow e) = ppn_address e ∧ Z.testbit (cow e) 2 = false ∧
  ppn_address e ∈ pages ∧ (∀ i, 0 ≤ i → i ≠ 2 → Z.testbit (cow e) i = Z.testbit e i) ∧
  frame (mem k') (ppn_address e) = frame (mem (km s)) (ppn_address e).
Proof.
  intros Hr Hl. destruct (us_mapped s Hu r e n Hr Hl) as [-> Hpf]. pose proof Hpf as [H1 H2 H3 H4 H5 H6 H7 H8].
  pose proof (us_space s Hu) as (_ & [Hs _] & _). unfold leaf in Hl.
  destruct (walk_ok 3 _ _ (path_of (page_of (r_start r)) Size4K) _ _ Hs (proj1 Hfk) eq_refl (path_range _ _) Hl) as (Hleaf & Hok & Hrxe).
  destruct (cow_spec e Hok Hrxe) as (_ & _ & Hp & _ & _ & Hw).
  assert (is_user e = true) as Hue by (by rewrite is_user_bit).
  split_and!; [done|done|done| | | |by apply Hside].
  - specialize (Hw Hleaf Hue). by rewrite is_writable_bit in Hw.
  - by eapply walk_user_pages; [| |apply path_range|exact Hl| |].
  - intros i Hi Hne. apply cow_bits; [apply Hok|done|done].
Qed.

Lemma forked_space : uspace c.
Proof.
  destruct forked_refs as [Hwf Hrefs].
  assert (∀ r, r ∈ regions (mm s) → leaf c (r_start r) = (λ '(e, n), (cow e, n)) <$> leaf s (r_start r)) as Hlr
    by (intros r Hr; by eapply forked_leaf, region_start).
  split; unfold c; cbn [mm km]; rewrite ?(fs_regions _ _ _ Hside); [apply Hside| |apply Hu|apply Hu| |].
  - split; [done|]. intros x Hx. rewrite Hrefs. assert (¬ held (fa (km s)) x) as Hn by (intros Hh; apply Hx; by apply (fs_held _ _ _ Hside)).
    rewrite (proj2 (us_meta s Hu) x Hn), occ_not_elem; [done|]. intros Hin. by apply Hn, Hfk.
  - intros r e n Hr. fold c. rewrite (Hlr r Hr). destruct (leaf s (r_start r)) as [[e0 n0]|] eqn:Hl; [|done].
    intros [= <- <-]. destruct (forked_page r e0 n0 Hr Hl) as (-> & Hpf & Hp & HW & Hin & Hb & Hf). split; [done|].
    destruct Hpf as [H1 H2 H3 H4 H5 H6 H7 H8]. split; rewrite ?Hp; [done|by apply (fs_held _ _ _ Hside)| | | |by rewrite Hf| |].
    + by intros [?|?]%(fs_tables _ _ _ Hside).
    + rewrite Hrefs. unfold occ. lia.
    + by rewrite HW.
    + by rewrite !Hb by lia.
    + by rewrite Hb by lia.
  - intros r r' e e' Hr Hr'. fold c. rewrite (Hlr r Hr), (Hlr r' Hr').
    destruct (leaf s (r_start r)) as [[e0 n0]|] eqn:Hl; [|done]. destruct (leaf s (r_start r')) as [[e1 n1]|] eqn:Hl1; [|done].
    intros [= <- ->] [= <- ->]. destruct (forked_page r e0 0 Hr Hl) as (_ & _ & -> & _).
    destruct (forked_page r' e1 0 Hr' Hl1) as (_ & _ & -> & _). by apply (us_inj s Hu).
Qed.

Lemma forked_view a : view c a = view s a.
Proof.
  unfold view. rewrite forked_region. destruct (region_at s a) as [r|] eqn:Hr; [|done]. rewrite (forked_leaf a r Hr).
  destruct (leaf s a) as [[e n]|] eqn:Hl; [|done]. cbn [fmap option_fmap option_map].
  destruct (region_at_range s a r Hu Hr) as (_ & _ & _ & _ & _ & _ & Hrin & _).
  destruct (forked_page r e n Hrin) as (_ & Hpf & Hp & _ & _ & _ & Hf); [by rewrite (leaf_region s a r)|].
  rewrite Hp. f_equal. apply page_byte; [done|apply Hpf|]. apply Z.mod_pos_bound. lia.
Qed.

Lemma forked_read a : can_read c a = can_read s a.
Proof.
  unfold can_read. rewrite forked_region. destruct (region_at s a) as [r|] eqn:Hr; [|done]. rewrite (forked_leaf a r Hr).
  destruct (leaf s a) as [[e n]|] eqn:Hl; [|done]. cbn [fmap option_fmap option_map].
  destruct (region_at_range s a r Hu Hr) as (_ & _ & _ & _ & _ & _ & Hrin & _).
  destruct (forked_page r e n Hrin) as (_ & _ & _ & _ & _ & Hb & _); [by rewrite (leaf_region s a r)|]. by apply Hb.
Qed.

(** After a fork the regions alone say what can be written. *)
Lemma forked_write a : can_write c a = can_read s a &&
  match region_at s a with Some r => Z.testbit (r_flags r) 2 | None => false end.
Proof.
  unfold can_write. rewrite forked_read, forked_region. f_equal. destruct (region_at s a) as [r|] eqn:Hr; [|done].
  rewrite (forked_leaf a r Hr). destruct (leaf s a) as [[e n]|] eqn:Hl; [|done]. cbn [fmap option_fmap option_map].
  destruct (region_at_range s a r Hu Hr) as (_ & _ & _ & _ & _ & _ & Hrin & _).
  destruct (forked_page r e n Hrin) as (_ & _ & _ & -> & _); [by rewrite (leaf_region s a r)|]. done.
Qed.

(** Its frames are its tables and the old pages. *)
Lemma forked_owns x : owns c x → x ∈ tables 3 (mem k') (root_pt m') ∨
  (held (fa (km s)) x ∧ x ∉ tables 3 (mem (km s)) root ∧ 2 ≤ refs (meta k') x).
Proof.
  intros [Hx|(r & e & n & Hr & Hl & Hx)]; [by left|right]. unfold c in Hr. cbn [mm] in Hr. rewrite (fs_regions _ _ _ Hside) in Hr.
  rewrite (forked_leaf _ r (region_start r Hr)) in Hl. destruct (leaf s (r_start r)) as [[e0 n0]|] eqn:Hl0; [|done].
  injection Hl as <- <-. destruct (forked_page r e0 n0 Hr Hl0) as (_ & Hpf & Hp & _ & Hin & _). rewrite Hp in Hx. subst x.
  split_and!; [apply Hpf|apply Hpf|]. destruct forked_refs as [_ ->]. pose proof (occ_elem _ _ Hin). pose proof (pf_refs _ _ _ Hpf). lia.
Qed.

(** A frame of the old memory that one of the two has was the parent's. *)
Lemma forked_owned x : owns c x → held (fa (km s)) x → owns s x.
Proof.
  intros [Hx|(r & e & n & Hr & Hl & Hx)] Hh; [destruct (fs_tables _ _ _ Hside x Hx); [by left|done]|right].
  unfold c in Hr. cbn [mm] in Hr. rewrite (fs_regions _ _ _ Hside) in Hr.
  rewrite (forked_leaf _ r (region_start r Hr)) in Hl. destruct (leaf s (r_start r)) as [[e0 n0]|] eqn:Hl0; [|done].
  injection Hl as <- <-. destruct (forked_page r e0 n0 Hr Hl0) as (_ & _ & Hp & _). rewrite Hp in Hx. by exists r, e0, n0.
Qed.
End forked.

Lemma fork_pair s mp mc k' : uspace s → forkable s → fork_side s mp k' → fork_side s mc k' →
  (∀ x, x ∈ tables 3 (mem k') (root_pt mp) → held (fa (km s)) x) →
  (∀ x, x ∈ tables 3 (mem k') (root_pt mc) → ¬ held (fa (km s)) x) → pair_ok mp mc k'.
Proof.
  intros Hu Hfk Hp Hc Hpt Hct. split; [by eapply forked_space|by eapply forked_space| |].
  - intros x Hx. apply (forked_owns s Hu Hfk mp k' Hp) in Hx as [Hx|(Hh & Hn & Hr)].
    + split; [by apply (fs_held _ _ _ Hp), Hpt|]. split; [intros Hin; by apply (Hct x), Hpt|].
      intros r e n Hr Hl He. destruct (forked_owns s Hu Hfk mc k' Hc x) as [Ht|(_ & Ht & _)]; [right; by exists r, e, n| |].
      * by destruct (Hct x Ht); apply Hpt.
      * by destruct (fs_tables _ _ _ Hp x Hx) as [?|Hnh]; [|destruct Hnh; apply Hpt].
    + split; [by apply (fs_held _ _ _ Hp)|]. split; [intros Hin; by apply (Hct x)|]. by intros.
  - intros x Hx. apply (forked_owns s Hu Hfk mc k' Hc) in Hx as [Hx|(Hh & Hn & Hr)].
    + split; [by apply (fs_space _ _ _ Hc)|]. split; [intros Hin; by apply (Hct x), Hpt|].
      intros r e n Hr Hl He. destruct (forked_owns s Hu Hfk mp k' Hp x) as [Ht|(Ht & _ & _)]; [right; by exists r, e, n| |].
      * by destruct (Hct x Hx); apply Hpt.
      * by destruct (Hct x Hx).
    + split; [by apply (fs_held _ _ _ Hc)|]. split; [|by intros]. intros Hin.
      by destruct (fs_tables _ _ _ Hp x Hin) as [?|Hnh].
Qed.

Section fork.
Context `{BF : Bitflags} `{HBF : !BitflagsOk BF} {MU : Mmu} {HMU : MmuOk MU}.

(** [fork] and the stack make the two sides. *)
Lemma mm_fork_sides s : uspace s → forkable s →
  match mm_fork (mm s) (km s) with
  | (Ok m', k') =>
      start_brk m' = start_brk (mm s) ∧ brk m' = brk (mm s) ∧ fork_side s (mm s) k' ∧ fork_side s m' k' ∧
      (∀ x, x ∈ tables 3 (mem k') (root_pt (mm s)) → held (fa (km s)) x) ∧
      (∀ x, x ∈ tables 3 (mem k') (root_pt m') → ¬ held (fa (km s)) x)
  | (Err e, _) => e = Overflow
  | (Panic, k') => full (fa k')
  | (Diverge, _) => False
  end.
Proof.
  intros Hu (Hrx & Hcnt & Hheld). pose proof (us_space s Hu) as Has. unfold mm_fork. unfold bind at 1, lift at 1.
  destruct (root_mapped _ _ Has) as (_ & _ & ->). unfold bind at 1.
  pose proof (fork_space (km s) (root_pt (mm s)) Has Hrx) as Hf.
  pose proof Has as (Hk & [Hs Hnd] & Hown). pose proof (fork_spec 3 (km s) (root_pt (mm s)) Hk Hs Hnd Hown Hrx) as Hfs.
  destruct (fork 3 (root_pt (mm s)) (km s)) as [[child|e| |] k1]; [|done..].
  destruct Hf as (Hasp & Hasc & Hnew & Htab & Hframe & Hmeta & Hva).
  set (m0 := mkMm child (regions (mm s)) (mkStack 0 0 0) (start_brk (mm s)) (brk (mm s))).
  unfold bind, on_mm. pose proof (create_kernel_stack_spec (mkSpace m0 k1) ltac:(apply Hasp)) as Hst.
  destruct (create_kernel_stack (mkSpace m0 k1)) as [[top|e| |] s2]; [|done..].
  destruct Hst as ([st Hmm] & Hk2 & Hmem & Hme & Hh). cbn [mm km] in *. rewrite Hmm. set (k' := km s2) in *.
  assert (∀ root, aspace k1 root → aspace k' root ∧ tables 3 (mem k') root = tables 3 (mem k1) root) as Hkeep.
  { intros root Hr. destruct (aspace_keep k1 k' root Hr Hk2) as (? & ? & _); [|done].
    intros x Hx. rewrite Hmem. split; [done|]. by apply Hh, Hr. }
  destruct (Hkeep _ Hasp) as [Hasp' Htp], (Hkeep _ Hasc) as [Hasc' Htc].
  assert (∀ x, held (fa (km s)) x → held (fa k') x) as Hhk by (intros x Hx; by apply Hh, (fk_held _ _ _ _ _ Hfs)).
  split_and!; [done|done| | |by rewrite Htp, Htab|by cbn [root_pt set_kernel_stack m0]; rewrite Htc].
  - split; [done|done|by rewrite Hme|done|by rewrite Hmem|rewrite Htp, Htab; auto|].
    intros va Hv. rewrite Hmem. by destruct (Hva va Hv) as (_ & _ & _ & -> & _).
  - split; cbn [root_pt set_kernel_stack m0 regions]; [done|done|by rewrite Hme|done|by rewrite Hmem|rewrite Htc; auto|].
    intros va Hv. rewrite Hmem. destruct (Hva va Hv) as (_ & _ & -> & -> & _). done.
Qed.

(** ** Any sequence of accesses *)

(** Loads and stores of the two, with what each of them wrote put into its own
    contents. *)
Inductive pair_step (mp mc : MemoryManager) : Kmem * (Z → option Z) * (Z → option Z) →
    Kmem * (Z → option Z) * (Z → option Z) → Prop :=
| parent_stores k k' vp vc a b : can_write (mkSpace mp k) a = true → is_u8 b →
    user_store a b (mkSpace mp k) = (Ok tt, mkSpace mp k') →
    pair_step mp mc (k, vp, vc) (k', λ x, if decide (x = a) then Some b else vp x, vc)
| child_stores k k' vp vc a b : can_write (mkSpace mc k) a = true → is_u8 b →
    user_store a b (mkSpace mc k) = (Ok tt, mkSpace mc k') →
    pair_step mp mc (k, vp, vc) (k', vp, λ x, if decide (x = a) then Some b else vc x)
| parent_loads k k' vp vc a b : can_read (mkSpace mp k) a = true →
    user_load a (mkSpace mp k) = (Ok b, mkSpace mp k') → pair_step mp mc (k, vp, vc) (k', vp, vc)
| child_loads k k' vp vc a b : can_read (mkSpace mc k) a = true →
    user_load a (mkSpace mc k) = (Ok b, mkSpace mc k') → pair_step mp mc (k, vp, vc) (k', vp, vc).

(** The contents are as each of the two expects. *)
Definition pair_views (mp mc : MemoryManager) (st : Kmem * (Z → option Z) * (Z → option Z)) : Prop :=
  let '(k, vp, vc) := st in
  pair_ok mp mc k ∧ (∀ a, view (mkSpace mp k) a = vp a) ∧ ∀ a, view (mkSpace mc k) a = vc a.

Lemma pair_ok_sym mp mc k : pair_ok mp mc k → pair_ok mc mp k.
Proof. by intros []. Qed.

Lemma pair_step_views mp mc st st' : pair_views mp mc st → pair_step mp mc st st' → pair_views mp mc st'.
Proof.
  intros Hv Hstep. destruct Hstep as [k k' vp vc a b Hw Hb Ho|k k' vp vc a b Hw Hb Ho|k k' vp vc a b Hw Ho|k k' vp vc a b Hw Ho];
    destruct Hv as (Hok & Hp & Hc).
  - pose proof (store_spec _ a b (po_parent _ _ _ Hok) Hw Hb) as Hs. rewrite Ho in Hs.
    pose proof (pair_ok_sym _ _ _ Hok) as Hok'. split_and!.
    + by apply pair_ok_sym, (other_pair mc mp k k' _ Hok' Hs).
    + intros x. rewrite (ev_view _ _ _ Hs). by rewrite Hp.
    + intros x. by rewrite (other_view mc mp k k' _ Hok' Hs).
  - pose proof (store_spec _ a b (po_child _ _ _ Hok) Hw Hb) as Hs. rewrite Ho in Hs. split_and!.
    + by apply (other_pair mp mc k k' _ Hok Hs).
    + intros x. by rewrite (other_view mp mc k k' _ Hok Hs).
    + intros x. rewrite (ev_view _ _ _ Hs). by rewrite Hc.
  - pose proof (load_spec _ a (po_parent _ _ _ Hok) Hw) as Hs. rewrite Ho in Hs. destruct Hs as [_ Hs].
    pose proof (pair_ok_sym _ _ _ Hok) as Hok'. split_and!.
    + by apply pair_ok_sym, (other_pair mc mp k k' _ Hok' Hs).
    + intros x. by rewrite (ev_view _ _ _ Hs).
    + intros x. by rewrite (other_view mc mp k k' _ Hok' Hs).
  - pose proof (load_spec _ a (po_child _ _ _ Hok) Hw) as Hs. rewrite Ho in Hs. destruct Hs as [_ Hs]. split_and!.
    + by apply (other_pair mp mc k k' _ Hok Hs).
    + intros x. by rewrite (other_view mp mc k k' _ Hok Hs).
    + intros x. by rewrite (ev_view _ _ _ Hs).
Qed.

Lemma pair_steps_views mp mc st st' : rtc (pair_step mp mc) st st' → pair_views mp mc st → pair_views mp mc st'.
Proof. induction 1 as [|x y z Hxy _ IH]; [done|]. intros Hx. by eapply IH, pair_step_views. Qed.

(** C1: after [MemoryManager::fork] the child has the parent's memory, and the
    parent keeps it.  Whatever the two then load and store, in any order, each
    sees its own stores and none of the other's, although the pages are shared
    until they are written.  After the fork a page can be written exactly when
    its region allows it. *)
Theorem fork_isolates s : uspace s → forkable s →
  match mm_fork (mm s) (km s) with
  | (Ok m', k') =>
      regions m' = regions (mm s) ∧ start_brk m' = start_brk (mm s) ∧ brk m' = brk (mm s) ∧
      (∀ a m, m = mm s ∨ m = m' → can_read (mkSpace m k') a = can_read s a ∧
        can_write (mkSpace m k') a = can_read s a &&
          match region_at s a with Some r => Z.testbit (r_flags r) 2 | None => false end) ∧
      ∀ k vp vc, rtc (pair_step (mm s) m') (k', view s, view s) (k, vp, vc) →
        ∀ a, view (mkSpace (mm s) k) a = vp a ∧ view (mkSpace m' k) a = vc a
  | (Err e, _) => e = Overflow
  | (Panic, k') => full (fa k')
  | (Diverge, _) => False
  end.
Proof.
  intros Hu Hfk. pose proof (mm_fork_sides s Hu Hfk) as Hf.
  destruct (mm_fork (mm s) (km s)) as [[m'|e| |] k']; [|done..]. destruct Hf as (Hsb & Hb & Hp & Hc & Hpt & Hct).
  split_and!; [apply Hc|done|done| |].
  - intros a m [->| ->]; (split; [by eapply forked_read|by eapply forked_write]).
  - intros k vp vc Hsteps. assert (pair_views (mm s) m' (k, vp, vc)) as (_ & H1 & H2); [|by intros a; split].
    assert (pair_views (mm s) m' (k', view s, view s)) as Hinit.
    { split_and!; [by eapply fork_pair|intros a; by eapply forked_view|intros a; by eapply forked_view]. }
    by apply (pair_steps_views _ _ _ _ Hsteps).
Qed.
End fork.

(** ** A fork of the example *)

(** The example space after its first byte was written. *)
Definition example_user : Space := (user_store 0x10000 7 example_space).2.

Lemma example_user_space : uspace example_user ∧ view example_user 0x10000 = Some 7.
Proof.
  assert (Hw : can_write example_space 0x10000 = true) by (vm_compute; reflexivity).
  pose proof (store_spec example_space 0x10000 7 example_uspace Hw ltac:(done)) as Hs. unfold example_user.
  assert (Ho : (user_store 0x10000 7 example_space).1 = Ok tt) by (vm_compute; reflexivity).
  destruct (user_store 0x10000 7 example_space) as [o s']. cbn [fst snd] in *. subst o.
  split; [apply Hs|]. by rewrite (ev_view _ _ _ Hs).
Qed.

Lemma example_user_forkable : forkable example_user.
Proof.
  assert (Hp : user_pages 3 (mem (km example_user)) (root_pt (mm example_user)) = [0x80201000])
    by (vm_compute; reflexivity).
  assert (Hm : meta (km example_user) = {[ 0x80201000 := 1 ]}) by (vm_compute; reflexivity).
  unfold forkable. rewrite Hp. split; [apply rx_tables_check; vm_compute; reflexivity|]. split.
  - intros x. rewrite Hm, occ_cons. change (occ x []) with 0. unfold refs. destruct (decide (0x80201000 = x)) as [<-|Hne].
    + by rewrite lookup_singleton_eq.
    + by rewrite lookup_singleton_ne.
  - intros x ->%list_elem_of_singleton.
    destruct (us_mapped _ (proj1 example_user_space) (mkRegion 0x10000 0x11000 user_rw)
      (leaf_pte 0x80201000 user_rw) 0) as [_ Hpf]; [by left|vm_compute; reflexivity|].
    exact (pf_held _ _ _ Hpf).
Qed.

(** The child writes, and the parent still sees the old byte. *)
Lemma fork_isolates_witness : ∃ m' k' k vc, mm_fork (mm example_user) (km example_user) = (Ok m', k') ∧
  user_store 0x10000 9 (mkSpace m' k') = (Ok tt, mkSpace m' k) ∧
  view (mkSpace (mm example_user) k) 0x10000 = Some 7 ∧ view (mkSpace m' k) 0x10000 = vc ∧ vc = Some 9.
Proof.
  pose proof (fork_isolates example_user (proj1 example_user_space) example_user_forkable) as H.
  assert (Hok : match mm_fork (mm example_user) (km example_user) with
    | (Ok m', k') => (user_store 0x10000 9 (mkSpace m' k')).1 = Ok tt ∧
        can_write (mkSpace m' k') 0x10000 = true ∧ mm (user_store 0x10000 9 (mkSpace m' k')).2 = m'
    | _ => False end) by (vm_compute; split_and!; reflexivity).
  destruct (mm_fork (mm example_user) (km example_user)) as [[m'|e| |] k']; [|done..].
  destruct Hok as (Ho & Hw & Hmm). destruct H as (_ & _ & _ & _ & H).
  destruct (user_store 0x10000 9 (mkSpace m' k')) as [o [m2 k]] eqn:Hst. cbn [fst snd mm] in *. subst o m2.
  destruct (H k (view example_user) (λ x, if decide (x = 0x10000) then Some 9 else view example_user x)) with (a := 0x10000)
    as [H1 H2].
  { apply rtc_once. by apply child_stores. }
  exists m', k', k, (Some 9). rewrite H1. split_and!; [done|done|apply example_user_space|done|done].
Defined.
