(* ===== verification/CowProg.v ===== *)
(** * The copy-on-write program

    [userspace/zig/shell/src/bin/spawned_prog.zig], a program that tests [fork]
    from user space, on the address spaces of the kernel: two pages, a child that
    writes one of them, and a parent that waits for it.  [volatile] accesses are
    loads and stores of user memory with their page faults.  The child's memory is
    still there when the parent goes on: the reaper frees it later. *)

From stdpp Require Import strings.
From S2P Require Import Prelude Errors Addr Sv39 FrameAllocator PageMeta PageTable PageMap PageFork MemMgr MemFault UserMem UserView ForkView.

(** ** Model *)

(** How a process ends: its exit code and its last message. *)
Inductive Verdict := Exits (code : Z) (message : string).

Section model.
Context `{BF : Bitflags} {MU : Mmu}.
Context (page0 page1 : Z).

(** [page0.* == v0 and page1.* == v1]. *)
Definition pages_hold (v0 v1 : Z) : UM bool :=
  let! x := user_load page0 in
  if x =? v0 then let! y := user_load page1 in ret (y =? v1) else ret false.

Definition fail_with (message : string) : UM Verdict := ret (Exits 1 message).

Definition prog_setup : UM unit := user_store page0 0x11 ;;; user_store page1 0x22.

(** The branch of the child. *)
Definition prog_child : UM Verdict :=
  let! ok := pages_hold 0x11 0x22 in
  if negb ok then fail_with "child inherited incorrect data" else
  user_store page0 0x33 ;;;
  user_store page0 0x44 ;;;
  let! ok := pages_hold 0x44 0x22 in
  if negb ok then fail_with "child CoW write failed" else
  ret (Exits 0 "child: CoW write passed").

(** The parent, from the exit code of its child on. *)
Definition prog_parent (child_code : Z) : UM Verdict :=
  if negb (child_code =? 0) then fail_with "child failed" else
  let! ok := pages_hold 0x11 0x22 in
  if negb ok then fail_with "parent data was modified by child" else
  user_store page0 0x55 ;;;
  let! x := user_load page0 in
  if negb (x =? 0x55) then fail_with "parent CoW write failed" else
  ret (Exits 0 "parent: CoW isolation passed").

(** What another address space does with the memory they share. *)
Definition in_space {A} (m : MemoryManager) (op : UM A) : UM A := λ s,
  let (o, s') := op (mkSpace m (km s)) in (o, mkSpace (mm s) (km s')).

(** [main]: the verdicts of the child, if there is one, and of the parent, which
    waits, so the child runs first. *)
Definition spawned_prog : UM (option Verdict * Verdict) :=
  prog_setup ;;;
  let! child := λ s, match mm_fork (mm s) (km s) with
    | (Ok m, k) => (Ok (Some m), mkSpace (mm s) k)
    | (Err _, k) => (Ok None, mkSpace (mm s) k)
    | (Panic, k) => (Panic, mkSpace (mm s) k)
    | (Diverge, k) => (Diverge, mkSpace (mm s) k)
    end in
  match child with
  | None => let! w := fail_with "fork failed" in ret (None, w)
  | Some child =>
      let! v := in_space child prog_child in
      let 'Exits code _ := v in
      let! w := prog_parent code in
      ret (Some v, w)
  end.
End model.

(** ** The program passes *)

Section proof.
Context `{BF : Bitflags} `{HBF : !BitflagsOk BF} {MU : Mmu} {HMU : MmuOk MU}.
Context (page0 page1 : Z) (Hne : page0 ≠ page1).

(** The two pages are the program's, and hold [v0] and [v1]. *)
Record holding (s : Space) (v0 v1 : Z) : Prop := {
  hg_space : uspace s;
  hg_write a : a = page0 ∨ a = page1 → can_read s a = true ∧ can_write s a = true;
  hg_page0 : view s page0 = Some v0;
  hg_page1 : view s page1 = Some v1;
}.

(** An operation that runs as [P] says, unless there is no frame left. *)
Definition runs {A} (op : UM A) (s : Space) (P : A → Space → Prop) : Prop :=
  match op s with
  | (Ok a, s') => P a s'
  | (Panic, s') => full (fa (km s'))
  | _ => False
  end.

Lemma runs_bind {A B} (op : UM A) (f : A → UM B) s P Q :
  runs op s P → (∀ a s', P a s' → runs (f a) s' Q) → runs (bind op f) s Q.
Proof. unfold runs, bind. intros H Hf. destruct (op s) as [[a|e| |] s']; [by apply Hf|done..]. Qed.

Lemma runs_mono {A} (op : UM A) s (P Q : A → Space → Prop) : runs op s P → (∀ a s', P a s' → Q a s') → runs op s Q.
Proof. unfold runs. intros H HPQ. destruct (op s) as [[a|e| |] s']; auto. Qed.

(** What the accesses make of the address space. *)
Definition after (s : Space) (v0 v1 : Z) (s' : Space) : Prop := ∃ f, evolves s s' f ∧ holding s' v0 v1.

Lemma after_trans s s1 s2 v0 v1 w0 w1 : after s v0 v1 s1 → after s1 w0 w1 s2 → after s w0 w1 s2.
Proof. intros (f & Hf & _) (g & Hg & Hh). exists g. split; [by eapply evolves_trans|done]. Qed.

Lemma load_holding s v0 v1 a : holding s v0 v1 → a = page0 ∨ a = page1 →
  runs (user_load a) s (λ b s', view s a = Some b ∧ after s v0 v1 s').
Proof.
  intros [Hu Hw H0 H1] Ha. unfold runs. pose proof (load_spec s a Hu (proj1 (Hw a Ha))) as Hl.
  destruct (user_load a s) as [[b|e| |] s']; [|done..]. destruct Hl as [Hb Hev]. split; [done|]. exists (view s). split; [done|].
  split; [apply Hev|intros a' Ha'; rewrite (ev_read _ _ _ Hev), (ev_write _ _ _ Hev); by apply Hw|by rewrite (ev_view _ _ _ Hev)..].
Qed.

Lemma store_holding s v0 v1 a b : holding s v0 v1 → a = page0 ∨ a = page1 → is_u8 b →
  runs (user_store a b) s (λ _ s', after s (if decide (a = page0) then b else v0) (if decide (a = page1) then b else v1) s').
Proof.
  intros [Hu Hw H0 H1] Ha Hb. unfold runs. pose proof (store_spec s a b Hu (proj2 (Hw a Ha)) Hb) as Hl.
  destruct (user_store a b s) as [[[]|e| |] s']; [|done..]. eexists. split; [exact Hl|].
  split; [apply Hl|intros a' Ha'; rewrite (ev_read _ _ _ Hl), (ev_write _ _ _ Hl); by apply Hw|rewrite (ev_view _ _ _ Hl)..].
  all: repeat case_decide; congruence.
Qed.

Lemma pages_hold_holding s v0 v1 : holding s v0 v1 → runs (pages_hold page0 page1 v0 v1) s (λ b s', b = true ∧ after s v0 v1 s').
Proof.
  intros Hh. eapply runs_bind; [apply load_holding; [done|by left]|]. intros x s1 [Hx H1]. rewrite (hg_page0 _ _ _ Hh) in Hx.
  injection Hx as <-. rewrite Z.eqb_refl. destruct H1 as (f & Hf & Hh1).
  eapply runs_bind; [apply (load_holding _ _ _ _ Hh1); by right|]. intros y s2 [Hy H2]. rewrite (hg_page1 _ _ _ Hh1) in Hy.
  injection Hy as <-. unfold runs, ret. rewrite Z.eqb_refl. split; [done|]. eapply after_trans; [|exact H2]. by exists f.
Qed.

Lemma store_page0 s v0 v1 b : holding s v0 v1 → is_u8 b → runs (user_store page0 b) s (λ _ s', after s b v1 s').
Proof.
  intros Hh Hb. pose proof (store_holding s v0 v1 page0 b Hh ltac:(by left) Hb) as H.
  by rewrite decide_True, (decide_False (P := page0 = page1)) in H by done.
Qed.

Lemma prog_child_passes s : holding s 0x11 0x22 →
  runs (prog_child page0 page1) s (λ v s', v = Exits 0 "child: CoW write passed" ∧ ∃ f, evolves s s' f).
Proof.
  intros Hh. eapply runs_bind; [by apply pages_hold_holding|]. intros ? s1 [-> (f1 & E1 & H1)]. cbn [negb].
  eapply runs_bind; [by apply (store_page0 _ _ _ _ H1)|]. intros _ s2 (f2 & E2 & H2).
  eapply runs_bind; [by apply (store_page0 _ _ _ _ H2)|]. intros _ s3 (f3 & E3 & H3).
  eapply runs_bind; [by apply pages_hold_holding|]. intros ? s4 [-> (f4 & E4 & H4)]. cbn [negb]. unfold runs, ret. split; [done|].
  exists f4. do 3 (eapply evolves_trans; [eassumption|]). done.
Qed.

Lemma prog_parent_passes s : holding s 0x11 0x22 →
  runs (prog_parent page0 page1 0) s (λ v _, v = Exits 0 "parent: CoW isolation passed").
Proof.
  intros Hh. unfold prog_parent. cbn [Z.eqb negb]. eapply runs_bind; [by apply pages_hold_holding|]. intros ? s1 [-> (f1 & E1 & H1)]. cbn [negb].
  eapply runs_bind; [by apply (store_page0 _ _ _ _ H1)|]. intros _ s2 (f2 & E2 & H2).
  eapply runs_bind; [apply (load_holding _ _ _ _ H2); by left|]. intros x s3 [Hx _]. rewrite (hg_page0 _ _ _ H2) in Hx. by injection Hx as <-.
Qed.

Lemma prog_setup_holding s v0 v1 : holding s v0 v1 → runs (prog_setup page0 page1) s (λ _ s', after s 0x11 0x22 s').
Proof.
  intros Hh. eapply runs_bind; [by apply (store_page0 _ _ _ 0x11 Hh)|]. intros _ s1 (f & E & H).
  pose proof (store_holding s1 0x11 v1 page1 0x22 H ltac:(by right) ltac:(done)) as Hs.
  rewrite decide_False, decide_True in Hs by done. eapply runs_mono; [exact Hs|]. intros u s2 H2. eapply after_trans; [|exact H2]. by exists f.
Qed.

(** One of the two after the fork. *)
Lemma forked_holding s m k : uspace s → forkable s → fork_side s m k → holding s 0x11 0x22 →
  (∀ a, a = page0 ∨ a = page1 → ∃ r, region_at s a = Some r ∧ Z.testbit (r_flags r) 2 = true) → holding (mkSpace m k) 0x11 0x22.
Proof.
  intros Hu Hfk Hs [_ Hw H0 H1] Hr. split; [by eapply forked_space| |by erewrite forked_view..].
  intros a Ha. erewrite forked_read, forked_write by done. rewrite (proj1 (Hw a Ha)). destruct (Hr a Ha) as (r & -> & ->). done.
Qed.

(** The parent after what the child did. *)
Lemma parent_holding mp mc k k' f v0 v1 : pair_ok mp mc k → evolves (mkSpace mc k) (mkSpace mc k') f →
  holding (mkSpace mp k) v0 v1 → holding (mkSpace mp k') v0 v1.
Proof.
  intros Hp He [_ Hw H0 H1]. split; [apply (other_pair mp mc k k' f Hp He)| |by rewrite (other_view mp mc k k' f Hp He)..].
  intros a Ha. destruct (other_perms mp mc k k' f Hp He a) as [-> ->]. by apply Hw.
Qed.

(** The program that tests copy-on-write passes on this kernel: in an address space
    with two pages that it may write, it never says that something failed, unless
    [fork] itself is refused or the frames run out. *)
Theorem cow_program_passes s v0 v1 : holding s v0 v1 →
  (∀ a, a = page0 ∨ a = page1 → ∃ r, region_at s a = Some r ∧ Z.testbit (r_flags r) 2 = true) →
  (∀ s1, prog_setup page0 page1 s = (Ok tt, s1) → forkable s1) →
  runs (spawned_prog page0 page1) s (λ v _,
    v = (Some (Exits 0 "child: CoW write passed"), Exits 0 "parent: CoW isolation passed") ∨ v = (None, Exits 1 "fork failed")).
Proof.
  intros Hh Hr Hfk. unfold runs, spawned_prog. unfold bind at 1. pose proof (prog_setup_holding s v0 v1 Hh) as Hset. unfold runs in Hset.
  destruct (prog_setup page0 page1 s) as [[[]|e| |] s1]; [|done..]. specialize (Hfk s1 eq_refl). destruct Hset as (f & Hev & Hh1).
  pose proof (mm_fork_sides s1 (hg_space _ _ _ Hh1) Hfk) as Hsides. unfold bind at 1.
  destruct (mm_fork (mm s1) (km s1)) as [[m'|e| |] k']; [|by right|done..]. destruct Hsides as (_ & _ & Hp & Hc & Hpt & Hct).
  assert (Hr1 : ∀ a, a = page0 ∨ a = page1 → ∃ r, region_at s1 a = Some r ∧ Z.testbit (r_flags r) 2 = true)
    by (intros a Ha; unfold region_at; rewrite (ev_mm _ _ _ Hev); by apply Hr).
  pose proof (fork_pair s1 _ _ _ (hg_space _ _ _ Hh1) Hfk Hp Hc Hpt Hct) as Hpair.
  pose proof (prog_child_passes _ (forked_holding s1 m' k' (hg_space _ _ _ Hh1) Hfk Hc Hh1 Hr1)) as Hchild. unfold runs in Hchild.
  unfold bind at 1, in_space. cbn [km mm]. destruct (prog_child page0 page1 (mkSpace m' k')) as [[v|e| |] [m2 k2]]; [|done..].
  destruct Hchild as [-> (g & Hg)]. pose proof (ev_mm _ _ _ Hg) as Hm. cbn [mm] in Hm. subst m2. cbn [km].
  pose proof (prog_parent_passes _ (parent_holding _ _ _ _ _ _ _ Hpair Hg
    (forked_holding s1 (mm s1) k' (hg_space _ _ _ Hh1) Hfk Hp Hh1 Hr1))) as Hpar. unfold runs in Hpar.
  unfold bind. destruct (prog_parent page0 page1 0 (mkSpace (mm s1) k2)) as [[w|e| |] s3]; [|done..]. subst w. by left.
Qed.
End proof.

(** A run in an address space with two pages. *)
Definition two_pages : Space :=
  mkSpace (set_regions (regions (mm example_space) ++ [mkRegion 0x11000 0x12000 user_rw]) (mm example_space)) (km example_space).

Example cow_program_runs : (spawned_prog 0x10000 0x11000 two_pages).1 =
  Ok (Some (Exits 0 "child: CoW write passed"), Exits 0 "parent: CoW isolation passed").
Proof. vm_compute. reflexivity. Qed.
