(* ===== verification/KernelMap.v ===== *)
(** * The kernel's part of every address space

    [kernel/src/mm/kvm.rs]: the boot sequence that turns paging on, and
    [kvm_full_map], which puts the kernel's direct mapping and its image in a
    root table.  [MemoryManager::new] calls it for every task, so that a trap
    needs no other page table. *)

From S2P Require Import Prelude Errors Kmalloc Addr Sv39 FrameAllocator PageMeta PageTable PageMap PageFork MemMgr MemFault.

(** ** Model *)

Abbreviation KB := (Z.shiftl 1 10).

Section boot.
Context `{BF : Bitflags}.

(** The loop that maps the kernel's text at its physical address. *)
Fixpoint map_text (n : nat) (root text_start : Z) : KM unit :=
  match n with
  | O => ret tt
  | S n' =>
      let! va := lift (va_from_raw_unchecked text_start) in
      let! pa := lift (pa_from_raw_unchecked text_start) in
      map_vm_early root va pa PTE_RWX ;;;
      let! next := lift (unwrap (offset_by text_start 0x1000)) in
      map_text n' root next
  end.

(** [kernel_allocator::init]. *)
Definition kernel_allocator_init (start_addr end_addr : Z) : KM Heap :=
  lift (unwrap (heap_new start_addr end_addr)).

(** The frames of the kernel's heap. *)
Definition alloc_heap : KM Heap :=
  let! start_addr := unwrapped alloc_frame in
  for_each (λ _, unwrapped alloc_frame ;;; ret tt) (seqZ 0 46) ;;;
  let! end_addr := unwrapped alloc_frame in
  let! start_va := lift (phys_to_virt start_addr) in
  let! end_va := lift (phys_to_virt end_addr) in
  let! end_va' := lift (add_ov 64 end_va 4096) in
  kernel_allocator_init start_va end_va'.

(** [early_init], from the addresses of the linker's symbols: the value it
    leaves in [KERNEL_ROOT_PAGE_TABLE] and the heap.  The two writes to the
    processor's registers, [satp] and the stack pointer, are not part of it. *)
Definition early_init (text_start_sym text_end_sym kernel_end_sym : Z) : KM (Z * Heap) :=
  modify (λ s, set_fa (FrameAllocator.init (kernel_text_virt_to_phys_raw kernel_end_sym) (fa s)) s) ;;;
  let! root_pt_pa := unwrapped alloc_frame in
  let! _ := lift (va_from_raw_unchecked root_pt_pa) in
  initialize_empty_pt root_pt_pa ;;;
  let text_end := kernel_text_virt_to_phys_raw text_end_sym in
  let text_start := kernel_text_virt_to_phys_raw text_start_sym in
  let! size := lift (sub_ov text_end text_start) in
  let n_text_pages := size / KB + 1 in
  kvm_full_map root_pt_pa ;;;
  map_text (Z.to_nat n_text_pages) root_pt_pa text_start ;;;
  let! heap := alloc_heap in
  let! root_va := lift (phys_to_virt root_pt_pa) in
  ret (root_va, heap).
End boot.

(** ** The kernel's entries of a root table *)

Definition kernel_entry (j : Z) : Z :=
  if j <? 510 then leaf_pte ((j - 344) * GB) PTE_RW
  else leaf_pte (KERNEL_IMAGE_START_PA + (j - 510) * GB) PTE_RWX.

Definition kernel_mapped (m : gmap Z (list Z)) (root : Z) : Prop :=
  ∀ j, 344 ≤ j < 512 → entry m root j = kernel_entry j.

(** The physical address of a kernel address. *)
Definition kernel_pa (va : Z) : Z :=
  if va <? KERNEL_IMAGE_START_VA then va - KERNEL_DIRECT_MAPPING_BASE
  else KERNEL_IMAGE_START_PA + (va - KERNEL_IMAGE_START_VA).

Section map.
Context `{BF : Bitflags} `{HBF : !BitflagsOk BF}.

(** A run of 1 GiB pages into empty entries of the root. *)
Section gb.
Context (root vb pb flags n : Z).
Context (Hvb : vb mod GB = 0) (Hvlo : 2 ^ 64 - 2 ^ 38 ≤ vb) (Hvhi : vb + n * GB ≤ 2 ^ 64).
Context (Hpb : pb mod GB = 0) (Hphi : pb + n * GB < 2 ^ 54).

Lemma gb_address i : 0 ≤ i < n →
  offset_by vb (i * GB) = Some (vb + i * GB) ∧ offset_by pb (i * GB) = Some (pb + i * GB) ∧
  va_from_raw_unchecked (E := Error) (vb + i * GB) = Ok (vb + i * GB) ∧
  pa_from_raw_unchecked (E := Error) (pb + i * GB) = Ok (pb + i * GB) ∧
  vpn_2 (vb + i * GB) = vpn_2 vb + i ∧ 0 ≤ vpn_2 vb ∧ vpn_2 vb + i < 512.
Proof.
  clear HBF BF. intros Hi. change GB with 1073741824 in *. change (2 ^ 64) with 18446744073709551616 in *.
  change (2 ^ 38) with 274877906944 in *. change (2 ^ 54) with 18014398509481984 in *.
  assert (va_ok (vb + i * 1073741824) = true) as Hok.
  { apply va_ok_spec; [split; lia|]. right. lia. }
  unfold offset_by, checked_add, va_from_raw_unchecked, pa_from_raw_unchecked.
  rewrite !(proj2 (Z.ltb_ge _ _)) by lia. rewrite !(proj2 (Z.ltb_lt _ _)) by lia. rewrite Hok.
  rewrite (proj2 (Z.leb_le _ _)) by (change PA_MAX with (36028797018963968 - 1); lia).
  destruct (vpn_div (vb + i * 1073741824)) as (-> & _). destruct (vpn_div vb) as (-> & _).
  change (2 ^ 30) with 1073741824. rewrite Z.div_add by lia.
  split_and!; [done..| | |]; Z.div_mod_to_equations; lia.
Qed.

Lemma kvm_map_gb_spec i s : 0 ≤ i < n → length (frame (mem s) root) = 512%nat →
  entry (mem s) root (vpn_2 vb + i) = 0 →
  kvm_map_gb root vb pb flags i s =
    (Ok tt, set_mem (upd root (vpn_2 vb + i) (leaf_pte (pb + i * GB) flags) (mem s)) s).
Proof.
  intros Hi Hl He. destruct (gb_address i Hi) as (H1 & H2 & H3 & H4 & H5 & H6 & H7).
  unfold kvm_map_gb, map_vm_1g. rewrite H1, H2. unfold bind, lift. cbn [unwrap].
  rewrite H3, H4, map_memory_path. unfold bind.
  assert (∀ b, b mod GB = 0 → (b + i * GB) mod bytes Size1G = 0) as Hm.
  { intros b Hb. change (bytes Size1G) with GB. by rewrite Z.mod_add by done. }
  rewrite check_alignment_ok by auto. cbn [path_of map_path]. rewrite H5.
  apply map_leaf_fresh; [done|lia|done|]. specialize (Hm pb Hpb). change (bytes Size1G) with 1073741824 in Hm.
  Z.div_mod_to_equations; lia.
Qed.

(** The entries after the pages from [k] on. *)
Lemma kvm_loop_spec c : ∀ k s, 0 ≤ k → k + Z.of_nat c ≤ n → length (frame (mem s) root) = 512%nat →
  (∀ i, k ≤ i < k + Z.of_nat c → entry (mem s) root (vpn_2 vb + i) = 0) →
  ∃ m', for_each (kvm_map_gb root vb pb flags) (seqZ k (Z.of_nat c)) s = (Ok tt, set_mem m' s) ∧
    length (frame m' root) = 512%nat ∧ (∀ x, x ≠ root → frame m' x = frame (mem s) x) ∧
    ∀ j, 0 ≤ j < 512 → entry m' root j =
      if decide (k ≤ j - vpn_2 vb < k + Z.of_nat c) then leaf_pte (pb + (j - vpn_2 vb) * GB) flags
      else entry (mem s) root j.
Proof.
  induction c as [|c IH]; intros k s Hk Hn Hl He.
  { exists (mem s). split_and!; [by destruct s|done|done|].
    intros j Hj. rewrite decide_False by lia. done. }
  rewrite seqZ_cons by lia. replace (Z.pred (Z.of_nat (S c))) with (Z.of_nat c) by lia.
  destruct (gb_address k ltac:(lia)) as (_ & _ & _ & _ & _ & H6 & H7).
  cbn [for_each]. unfold bind. rewrite kvm_map_gb_spec by (done || lia || (apply He; lia)).
  destruct (IH (Z.succ k) (set_mem (upd root (vpn_2 vb + k) (leaf_pte (pb + k * GB) flags) (mem s)) s))
    as (m' & -> & Hl' & Hf & Hm); [lia|lia| | |].
  - cbn [mem set_mem]. by rewrite frame_upd, length_insert.
  - intros i Hi. cbn [mem set_mem]. rewrite entry_upd_ne by lia. apply He. lia.
  - exists m'. rewrite set_mem_set_mem. split_and!; [done|done| |].
    + intros x Hx. rewrite Hf by done. cbn [mem set_mem]. by apply frame_upd_ne.
    + intros j Hj. rewrite Hm by done. cbn [mem set_mem].
      destruct (decide (j = vpn_2 vb + k)) as [->|Hne].
      * rewrite decide_False, decide_True by lia. rewrite entry_upd by (done || lia). do 2 f_equal. lia.
      * rewrite entry_upd_ne by lia.
        destruct (decide (k ≤ j - vpn_2 vb < k + Z.of_nat (S c))); [by rewrite decide_True by lia|by rewrite decide_False by lia].
Qed.
End gb.

(** [kvm_full_map] fills the upper entries of an empty root. *)
Lemma kvm_full_map_spec root s : frame (mem s) root = empty_table →
  ∃ m', kvm_full_map root s = (Ok tt, set_mem m' s) ∧ length (frame m' root) = 512%nat ∧
    (∀ x, x ≠ root → frame m' x = frame (mem s) x) ∧
    kernel_mapped m' root ∧ ∀ j, 0 ≤ j < 344 → entry m' root j = 0.
Proof.
  intros Hf. assert (length (frame (mem s) root) = 512%nat) as Hl by (by rewrite Hf).
  assert (He : ∀ j, 0 ≤ j < 512 → entry (mem s) root j = 0) by (intros j Hj; by apply entry_empty_table).
  unfold kvm_full_map. change (difference (E := Error) KERNEL_IMAGE_START_VA KERNEL_DIRECT_MAPPING_BASE) with (@Ok Error _ (166 * GB)).
  unfold bind at 1, lift at 1. change (166 * GB mod GB =? 0) with true. change (166 * GB / GB) with (Z.of_nat 166).
  unfold bind at 1, assert, ret at 1.
  assert (vpn_2 KERNEL_DIRECT_MAPPING_BASE = 344) as Hv1 by done.
  assert (vpn_2 KERNEL_IMAGE_START_VA = 510) as Hv2 by done.
  destruct (kvm_loop_spec root KERNEL_DIRECT_MAPPING_BASE 0 PTE_RW 166 ltac:(done) ltac:(done) ltac:(done)
    ltac:(done) eq_refl 166 0 s ltac:(done) ltac:(done) Hl) as (m1 & Ho1 & Hl1 & Hf1 & Hm1).
  { intros i Hi. apply He. rewrite Hv1. lia. }
  unfold bind. rewrite Ho1, Hv1 in *.
  destruct (kvm_loop_spec root KERNEL_IMAGE_START_VA KERNEL_IMAGE_START_PA PTE_RWX 2 ltac:(done) ltac:(done) ltac:(done)
    ltac:(done) eq_refl 2 0 (set_mem m1 s) ltac:(done) ltac:(done) Hl1) as (m2 & Ho2 & Hl2 & Hf2 & Hm2).
  { intros i Hi. cbn [mem set_mem]. rewrite Hv2, Hm1 by lia. rewrite decide_False by lia. apply He. lia. }
  rewrite Hv2 in *. cbn [mem set_mem] in *. exists m2. split_and!; [by rewrite <-(set_mem_set_mem m2 m1)|done| | |].
  - intros x Hx. by rewrite Hf2, Hf1.
  - intros j Hj. rewrite Hm2, Hm1 by lia. unfold kernel_entry. destruct (Z.ltb_spec j 510).
    + rewrite decide_False, decide_True by lia. done.
    + by rewrite decide_True by lia.
  - intros j Hj. rewrite Hm2, Hm1 by lia. rewrite !decide_False by lia. apply He. lia.
Qed.

(** ** What the kernel's entries translate *)

Lemma GB_pow : GB = 2 ^ 30.
Proof. done. Qed.

Lemma kernel_entry_spec j : 344 ≤ j < 512 →
  is_leaf (kernel_entry j) = true ∧ entry_ok (kernel_entry j) ∧
  ppn_address (kernel_entry j) = (if j <? 510 then (j - 344) * GB else KERNEL_IMAGE_START_PA + (j - 510) * GB) ∧
  ∀ i, 0 ≤ i < 8 → Z.testbit (kernel_entry j) i =
    bool_decide (i ∈ [0; 1; 2; 6; 7]) || (i =? 3) && (510 <=? j).
Proof.
  intros Hj. unfold kernel_entry. change GB with 1073741824. change KERNEL_IMAGE_START_PA with 2147483648.
  assert (Hx : ∀ b i, (b =? i) = bool_decide (i = b)).
  { intros b i. destruct (Z.eqb_spec b i), (bool_decide_reflect (i = b)); congruence. }
  destruct (Z.ltb_spec j 510).
  - destruct (leaf_pte_spec ((j - 344) * 1073741824) PTE_RW) as (H1 & H2 & H3 & H4).
    { unfold page_ok. change (2 ^ 30) with 1073741824. change (2 ^ 55) with 36028797018963968. Z.div_mod_to_equations; lia. }
    { by split. }
    split_and!; [done..|]. intros i Hi. rewrite H4 by lia. rewrite (proj2 (Z.leb_gt _ _)) by lia.
    assert (i = 0 ∨ i = 1 ∨ i = 2 ∨ i = 3 ∨ i = 4 ∨ i = 5 ∨ i = 6 ∨ i = 7) as Hc by lia.
    by destruct Hc as [->|[->|[->|[->|[->|[->|[->| ->]]]]]]].
  - destruct (leaf_pte_spec (2147483648 + (j - 510) * 1073741824) PTE_RWX) as (H1 & H2 & H3 & H4).
    { unfold page_ok. change (2 ^ 30) with 1073741824. change (2 ^ 55) with 36028797018963968. Z.div_mod_to_equations; lia. }
    { by split. }
    split_and!; [done..|]. intros i Hi. rewrite H4 by lia. rewrite (proj2 (Z.leb_le _ _)) by lia.
    assert (i = 0 ∨ i = 1 ∨ i = 2 ∨ i = 3 ∨ i = 4 ∨ i = 5 ∨ i = 6 ∨ i = 7) as Hc by lia.
    by destruct Hc as [->|[->|[->|[->|[->|[->|[->| ->]]]]]]].
Qed.

(** The index of a kernel address in the root. *)
Lemma kernel_vpn va : KERNEL_DIRECT_MAPPING_BASE ≤ va < 2 ^ 64 → is_u64 va ∧ va_ok va = true ∧
  344 ≤ vpn_2 va < 512 ∧ (vpn_2 va <? 510) = (va <? KERNEL_IMAGE_START_VA) ∧
  va mod GB = va - KERNEL_DIRECT_MAPPING_BASE - (vpn_2 va - 344) * GB.
Proof.
  intros Hva. destruct (vpn_div va) as (-> & _). unfold KERNEL_DIRECT_MAPPING_BASE, KERNEL_IMAGE_START_VA in *.
  change GB with 1073741824. change (2 ^ 30) with 1073741824.
  assert (is_u64 va) as Hu by (split; lia). change (2 ^ 64) with 18446744073709551616 in *.
  split; [done|]. split; [apply va_ok_spec; [done|right; change (2 ^ 64 - 2 ^ 38) with 18446743798831644672; lia]|].
  assert (Hd : (va / 1073741824) mod 512 = va / 1073741824 - 17179868672)
    by (symmetry; apply (Z.mod_unique_pos _ _ 33554431); Z.div_mod_to_equations; lia).
  rewrite Hd. split; [Z.div_mod_to_equations; lia|]. split; [|Z.div_mod_to_equations; lia].
  destruct (Z.ltb_spec va 18446744071562067968);
    [apply Z.ltb_lt|apply Z.ltb_ge]; Z.div_mod_to_equations; lia.
Qed.

Lemma kernel_walk m root va : kernel_mapped m root → KERNEL_DIRECT_MAPPING_BASE ≤ va < 2 ^ 64 →
  walk m root (path_of va Size4K) = Some (kernel_entry (vpn_2 va), 2%nat).
Proof.
  intros Hk Hva. destruct (kernel_vpn va Hva) as (_ & _ & Hj & _). cbn [path_of walk].
  rewrite (Hk (vpn_2 va) Hj). destruct (kernel_entry_spec _ Hj) as (Hl & _).
  assert (is_table (kernel_entry (vpn_2 va)) = false) as Hnt by (unfold is_table; by rewrite Hl, andb_false_r).
  cbn zeta. by rewrite Hnt, (not_table _ Hnt), Hl.
Qed.

Lemma kernel_translate m root va : shape 3 m root → kernel_mapped m root →
  KERNEL_DIRECT_MAPPING_BASE ≤ va < 2 ^ 64 → translate m root va = Ok (Some (kernel_pa va)).
Proof.
  intros Hs Hk Hva. destruct (kernel_vpn va Hva) as (Hu & _ & Hj & Hc & Hm).
  rewrite translate_walk, kernel_walk by (done || apply Hu). cbn [fmap option_fmap option_map size_of].
  destruct (kernel_entry_spec _ Hj) as (_ & _ & -> & _). rewrite Hc. change (bytes Size1G) with GB. rewrite Hm.
  unfold kernel_pa. do 2 f_equal. destruct (va <? KERNEL_IMAGE_START_VA); [lia|].
  change KERNEL_DIRECT_MAPPING_BASE with (KERNEL_IMAGE_START_VA - 166 * GB). lia.
Qed.

(** ** A root without tables below it *)

Lemma aspace_leaves s root : kwf s → held (fa s) root → table_ok root → length (frame (mem s) root) = 512%nat →
  (∀ j, 0 ≤ j < 512 → entry_ok (entry (mem s) root j) ∧ is_table (entry (mem s) root j) = false) →
  aspace s root ∧ tables 3 (mem s) root = [root].
Proof.
  intros Hk Hh Hok Hl He.
  assert (Hall : Forall (λ e, entry_ok e ∧ is_table e = false) (frame (mem s) root)).
  { apply Forall_lookup. intros j e Hj. assert (j < 512)%nat by (rewrite <-Hl; by eapply lookup_lt_Some).
    specialize (He (Z.of_nat j) ltac:(lia)). unfold entry in He. rewrite Nat2Z.id in He.
    by rewrite (list_lookup_total_correct _ _ _ Hj) in He. }
  assert (Ht : tables 3 (mem s) root = [root]).
  { rewrite tables_S. f_equal. clear -Hall. induction Hall as [|e l [_ He] _ IH]; [done|].
    cbn. unfold below at 1. by rewrite He. }
  split; [|done]. split_and!; [done| |].
  - split; [|rewrite Ht; apply NoDup_singleton]. split_and!; [done..|].
    eapply Forall_impl; [exact Hall|]. intros e [? Hne]. split; [done|]. by rewrite Hne.
  - intros x. rewrite Ht. by intros ->%list_elem_of_singleton.
Qed.

(** A root with the kernel's entries and no others. *)
Record kernel_only (k : Kmem) (root : Z) : Prop := {
  ko_space : aspace k root;
  ko_tables : tables 3 (mem k) root = [root];
  ko_kernel : kernel_mapped (mem k) root;
  ko_user j : 0 ≤ j < 344 → entry (mem k) root j = 0;
}.

Lemma kvm_full_map_kernel_only root s : kwf s → held (fa s) root → table_ok root →
  frame (mem s) root = empty_table →
  ∃ m', kvm_full_map root s = (Ok tt, set_mem m' s) ∧ kernel_only (set_mem m' s) root ∧
    ∀ x, x ≠ root → frame m' x = frame (mem s) x.
Proof.
  intros Hk Hh Hok Hf. destruct (kvm_full_map_spec root s Hf) as (m' & -> & Hl & Hrest & Hker & Hu).
  exists m'. split; [done|]. split; [|done].
  destruct (aspace_leaves (set_mem m' s) root) as [Has Ht]; [by destruct Hk; split|done|done|done| |by split].
  intros j Hj. cbn [mem set_mem]. destruct (Z.lt_ge_cases j 344).
  - rewrite Hu by lia. split; [apply entry_ok_0|done].
  - rewrite Hker by lia. destruct (kernel_entry_spec j) as (Hlf & He & _); [lia|]. split; [done|].
    unfold is_table. by rewrite Hlf, andb_false_r.
Qed.

(** [MemoryManager::new]: a root of its own with the kernel in it. *)
Lemma mm_new_spec s : kwf s →
  match mm_new s with
  | (Ok m, s') => m = mkMm (root_pt m) [] (mkStack 0 0 0) 0 0 ∧ kernel_only s' (root_pt m) ∧
      ¬ held (fa s) (root_pt m) ∧ (∀ x, held (fa s') x ↔ x = root_pt m ∨ held (fa s) x) ∧
      (∀ x, x ≠ root_pt m → frame (mem s') x = frame (mem s) x) ∧ meta s' = meta s
  | (Panic, s') => full (fa s')
  | _ => False
  end.
Proof.
  intros Hk. unfold mm_new, unwrapped. unfold bind at 1. pose proof (alloc_frame_spec s Hk) as Ha.
  destruct (alloc_frame s) as [[root|e| |] s1]; [|by destruct Ha as [-> ?]|done..].
  destruct Ha as (Hmem & Hmeta & Hk1 & Hok & Hnh & Hh).
  destruct (table_ok_mapped root KERNEL_DIRECT_MAPPING_BASE Hok) as [H1 H2]; [by right|].
  assert (H3 : va_from_raw_unchecked (E := Error) (root + KERNEL_DIRECT_MAPPING_BASE) =
    Ok (root + KERNEL_DIRECT_MAPPING_BASE))
    by (unfold va_from_raw in H2; unfold va_from_raw_unchecked; by destruct (va_ok _)).
  unfold bind at 1, lift at 1, phys_to_virt. rewrite H1. unfold bind at 1, lift at 1. rewrite H3.
  unfold initialize_empty_pt, write_frame, modify. unfold bind at 1.
  set (s2 := set_mem (<[root:=empty_table]> (mem s1)) s1).
  destruct (kvm_full_map_kernel_only root s2) as (m' & Ho & Hko & Hrest);
    [by destruct Hk1; split|by apply Hh; left|done|by apply frame_insert|].
  unfold bind. rewrite Ho. unfold ret. cbn [root_pt kernel_stack start_brk brk EMPTY].
  split_and!; [done|done|done|done| |done].
  intros x Hx. cbn [mem set_mem s2]. rewrite Hrest by done. cbn [mem set_mem s2]. by rewrite frame_insert_ne, Hmem.
Qed.

(** ** Boot

    Nothing is freed before [early_init] is done, so the frames in use are the
    first [n]. *)

Definition used (k : Kmem) (n : Z) : Prop :=
  kwf k ∧ 0 ≤ n ≤ capacity (fa k) ∧ ∀ j, 0 ≤ j < capacity (fa k) → in_use (fa k) j = (j <? n).

Lemma used_held k n x : used k n → held (fa k) x ↔ ∃ j, 0 ≤ j < n ∧ x = frame_addr (fa k) j.
Proof.
  intros (_ & Hn & Hu). unfold held. split.
  - intros (j & Hj & -> & Hb). exists j. rewrite Hu in Hb by done. apply Z.ltb_lt in Hb. split; [lia|done].
  - intros (j & Hj & ->). exists j. split_and!; [lia|lia|done|]. rewrite Hu by lia. apply Z.ltb_lt; lia.
Qed.

(** [k'] has [n'] frames in use of the same memory. *)
Definition used_more (k k' : Kmem) (n n' : Z) : Prop :=
  used k' n' ∧ start_addr (fa k') = start_addr (fa k) ∧ capacity (fa k') = capacity (fa k) ∧ n ≤ n'.

Lemma used_not_full k n : used k n → n < capacity (fa k) → ¬ full (fa k).
Proof.
  intros (_ & Hn & Hu) Hlt Hf. specialize (Hf n ltac:(lia)). rewrite Hu in Hf by lia.
  apply Z.ltb_lt in Hf. lia.
Qed.

Lemma used_more_trans k k1 k2 n n1 n2 : used_more k k1 n n1 → used_more k1 k2 n1 n2 → used_more k k2 n n2.
Proof. intros (? & ? & ? & ?) (? & ? & ? & ?). split_and!; [done|congruence|congruence|lia]. Qed.

Lemma alloc_used {E} k n : used k n → n < capacity (fa k) →
  ∃ k', unwrapped (E' := E) alloc_frame k = (Ok (frame_addr (fa k) n), k') ∧ used_more k k' n (n + 1) ∧
    mem k' = mem k ∧ meta k' = meta k ∧ table_ok (frame_addr (fa k) n) ∧ ¬ held (fa k) (frame_addr (fa k) n).
Proof.
  intros Hus Hlt. pose proof Hus as (Hk & Hn & Hu). pose proof (alloc_frame_spec k Hk) as Hs.
  pose proof (alloc_cases (fa k) (kwf_fa k Hk)) as Hc.
  unfold unwrapped, alloc_frame, zoom in *.
  destruct (FrameAllocator.alloc (fa k)) as [[a|e| |] fa']; [| |done..].
  2: { destruct Hc as (_ & -> & Hf). by destruct (used_not_full k n). }
  destruct Hc as (j & Hj & -> & Hfree & Hlow & Hu' & Hst & Hcap & Hwf').
  assert (j = n) as ->.
  { rewrite Hu in Hfree by lia. apply Z.ltb_ge in Hfree. destruct (Z.lt_ge_cases n j); [|lia].
    specialize (Hlow n ltac:(lia)). rewrite Hu in Hlow by lia. apply Z.ltb_lt in Hlow. lia. }
  destruct Hs as (_ & _ & Hk' & Hok & Hnh & _). eexists. split; [done|]. split_and!; [|done..].
  split_and!; [|done|done|lia]. split_and!; [done|cbn [fa set_fa]; lia|cbn [fa set_fa]; lia|].
  intros i Hi. cbn [fa set_fa] in *. rewrite Hu', Hu by lia.
  destruct (Z.eqb_spec i n), (Z.ltb_spec i n), (Z.ltb_spec i (n + 1)); lia || done.
Qed.

Lemma used_fa k k' n : fa k' = fa k → used k n → used k' n.
Proof.
  intros Hfa ([] & Hn & Hu). unfold used. rewrite Hfa. split_and!; [|lia|lia|done]. split; by rewrite Hfa.
Qed.

(** [map_leaf] allocates nothing, and a step down at most one frame. *)
Lemma map_leaf_fa t i pa flags k : fa (map_leaf t i pa flags k).2 = fa k.
Proof.
  unfold map_leaf, bind, get_entry, gets, lift, set_entry, modify, ret, panic. destruct (is_valid (entry (mem k) t i) && _); [done|].
  destruct (is_valid _); [done|]. destruct pa as [pa|]; [|done]. by destruct (set_physical_address _ _).
Qed.

Lemma next_table_used t i base k n : used k n → n < capacity (fa k) →
  ∃ n', used_more k (get_or_create_next_table t i base k).2 n n' ∧ n' ≤ n + 1.
Proof.
  intros Hus Hlt. destruct (alloc_used (E := Error) k n Hus Hlt) as (k1 & Ha & Hmore & _).
  assert (Hself : used_more k k n n) by (split_and!; [done..|lia]).
  assert (Hfa : ∀ k', fa k' = fa k → ∃ n', used_more k k' n n' ∧ n' ≤ n + 1).
  { intros k' He. exists n. split; [|lia]. split_and!; [by eapply used_fa|by rewrite He|by rewrite He|lia]. }
  assert (Hfa1 : ∀ k', fa k' = fa k1 → ∃ n', used_more k k' n n' ∧ n' ≤ n + 1).
  { intros k' He. exists (n + 1). split; [|lia]. destruct Hmore as (? & ? & ? & ?).
    split_and!; [by eapply used_fa|by rewrite He|by rewrite He|lia]. }
  unfold get_or_create_next_table, bind, get_entry, gets, lift.
  destruct (is_valid (entry (mem k) t i)).
  { destruct (is_leaf _); [by apply Hfa|]. destruct (physical_address _); [|by apply Hfa..].
    destruct (add_ov _ _ _); by apply Hfa. }
  rewrite Ha. destruct (add_ov _ _ _) as [raw|e| |]; [|by apply Hfa1..].
  destruct (unwrap _) as [v|e| |]; [|by apply Hfa1..]. unfold write_frame, modify, set_entry, ret.
  destruct (pa_from_raw_unchecked _) as [pa|e| |]; [|by apply Hfa1..].
  destruct (set_physical_address _ _) as [e|er| |]; by apply Hfa1.
Qed.

Lemma map_4k_used root va pa flags base k n : used k n → n + 1 < capacity (fa k) →
  ∃ n', used_more k (map_memory_with_base root va (Some pa) flags base Size4K k).2 n n' ∧ n' ≤ n + 2.
Proof.
  intros Hus Hlt. assert (Hself : ∃ n', used_more k k n n' ∧ n' ≤ n + 2)
    by (exists n; split; [split_and!; [done..|lia]|lia]).
  unfold map_memory_with_base. unfold bind at 1.
  assert (Hchk : (check_mapping_alignment va (Some pa) Size4K k).2 = k).
  { unfold check_mapping_alignment, bind, assert, ret, panic. destruct (_ =? 0); [|done]. by destruct (is_4k_page_aligned pa). }
  destruct (check_mapping_alignment va (Some pa) Size4K k) as [[[]|e| |] k0]; cbn [snd] in Hchk; subst k0; [|done..].
  unfold bind at 1. destruct (next_table_used root (vpn_2 va) base k n Hus ltac:(lia)) as (n1 & H1 & Hn1).
  destruct (get_or_create_next_table root (vpn_2 va) base k) as [[l1|e| |] k1]; cbn [snd] in H1;
    [|exists n1; split; [done|lia]..].
  pose proof H1 as (Hu1 & _ & Hc1 & _). unfold bind.
  destruct (next_table_used l1 (vpn_1 va) base k1 n1 Hu1 ltac:(lia)) as (n2 & H2 & Hn2).
  assert (Hc : used_more k (get_or_create_next_table l1 (vpn_1 va) base k1).2 n n2) by (by eapply used_more_trans).
  destruct (get_or_create_next_table l1 (vpn_1 va) base k1) as [[l0|e| |] k2]; cbn [snd] in Hc;
    exists n2; (split; [|lia]); [|done..].
  pose proof (map_leaf_fa l0 (vpn_0 va) (Some pa) flags k2) as Hfa. destruct Hc as (Hu2 & Hs2 & Hc2 & ?).
  split_and!; [by eapply used_fa|by rewrite Hfa|by rewrite Hfa|done].
Qed.

(** A text page, and all of them. *)
Lemma map_text_page root a k n : aspace k root → used k n → n + 2 < capacity (fa k) →
  0 ≤ a → a + 4096 ≤ 2 ^ 38 → a mod 4096 = 0 → walk (mem k) root (path_of a Size4K) = None →
  va_from_raw_unchecked (E := Error) a = Ok a ∧ pa_from_raw_unchecked (E := Error) a = Ok a ∧
  ∃ k' n', map_vm_early root a a PTE_RWX k = (Ok tt, k') ∧ aspace k' root ∧
    used_more k k' n n' ∧ n' ≤ n + 2 ∧
    ∀ va, is_u64 va → va_ok va = true → walk (mem k') root (path_of va Size4K) =
      if decide (a ≤ va < a + 4096) then Some (leaf_pte a PTE_RWX, 0%nat)
      else walk (mem k) root (path_of va Size4K).
Proof.
  intros Has Hus Hcap Ha0 Ha Hm Hw. change (2 ^ 38) with 274877906944 in Ha.
  assert (is_u64 a) as Hu by (split; [lia|change (2 ^ 64) with 18446744073709551616; lia]).
  assert (va_ok a = true) as Hok by (apply va_ok_spec; [done|left; change (2 ^ 38) with 274877906944; lia]).
  assert (page_ok a) as Hpok.
  { unfold page_ok. change (2 ^ 30) with 1073741824. change (2 ^ 55) with 36028797018963968. lia. }
  split; [unfold va_from_raw_unchecked; by rewrite Hok|]. split.
  { unfold pa_from_raw_unchecked. rewrite (proj2 (Z.leb_le _ _)); [done|].
    change PA_MAX with (36028797018963968 - 1). lia. }
  pose proof Has as (_ & [Hs _] & _). unfold map_vm_early.
  pose proof (map_memory_spec k root a a PTE_RWX 0 Size4K Has ltac:(by left) Hm Hpok Hm ltac:(done)
    (walk_none_unmapped 3 _ root (path_of a Size4K) Hs eq_refl (path_range _ _) Hw)) as Hmap.
  destruct (map_4k_used root a a PTE_RWX 0 k n Hus ltac:(lia)) as (n' & Hmore & Hn').
  destruct (map_memory_with_base root a (Some a) PTE_RWX 0 Size4K k) as [[[]|e| |] k']; [|done| |done].
  2: { destruct Hmore as (Hu' & _ & Hc & _). cbn [snd] in *. destruct (used_not_full k' n' Hu'); [lia|done]. }
  destruct Hmap as (Has' & _ & Hw'). exists k', n'. split_and!; [done|done|done|lia|].
  intros va Hva Hvok. rewrite Hw' by (done || apply path_range).
  pose proof (path_prefix a va Size4K Hu Hva Hok Hvok Hm) as Hpp. change (bytes Size4K) with 4096 in Hpp.
  destruct (decide (a ≤ va < a + 4096)) as [Hin|Hin]; [by rewrite decide_True by (by apply Hpp)|].
  by rewrite decide_False by (by rewrite Hpp).
Qed.

Lemma map_text_spec c : ∀ root a k n, aspace k root → used k n → n + 2 * Z.of_nat c < capacity (fa k) →
  0 ≤ a → a + Z.of_nat c * 4096 ≤ 2 ^ 38 → a mod 4096 = 0 →
  (∀ va, a ≤ va < a + Z.of_nat c * 4096 → walk (mem k) root (path_of va Size4K) = None) →
  ∃ k' n', map_text c root a k = (Ok tt, k') ∧ aspace k' root ∧ used_more k k' n n' ∧
    n' ≤ n + 2 * Z.of_nat c ∧
    ∀ va, is_u64 va → va_ok va = true → walk (mem k') root (path_of va Size4K) =
      if decide (a ≤ va < a + Z.of_nat c * 4096) then Some (leaf_pte (va - va mod 4096) PTE_RWX, 0%nat)
      else walk (mem k) root (path_of va Size4K).
Proof.
  induction c as [|c IH]; intros root a k n Has Hus Hcap Ha0 Ha Hm Hw.
  { exists k, n. split_and!; [done|done| |lia|intros; by rewrite decide_False by lia]. split_and!; [done..|lia]. }
  destruct (map_text_page root a k n Has Hus ltac:(lia) Ha0 ltac:(lia) Hm ltac:(apply Hw; lia))
    as (H1 & H2 & k1 & n1 & H3 & Has1 & Hmore1 & Hn1 & Hw1).
  cbn [map_text]. unfold bind, lift. rewrite H1, H2, H3. unfold offset_by, checked_add.
  change (0x1000 <? 0) with false. change (2 ^ 38) with 274877906944 in *.
  rewrite (proj2 (Z.ltb_lt (a + _) _)) by (change (2 ^ 64) with 18446744073709551616; lia). cbn [unwrap].
  change 0x1000 with 4096. pose proof Hmore1 as (Hus1 & _ & Hc1 & _).
  destruct (IH root (a + 4096) k1 n1 Has1 Hus1 ltac:(lia) ltac:(lia) ltac:(lia)) as (k2 & n2 & H4 & Has2 & Hmore2 & Hn2 & Hw2).
  { Z.div_mod_to_equations; lia. }
  { intros va Hva. rewrite Hw1, decide_False by lia || (split; [lia|change (2 ^ 64) with 18446744073709551616; lia]) ||
      (apply va_ok_spec; [split; [lia|change (2 ^ 64) with 18446744073709551616; lia]|left; change (2 ^ 38) with 274877906944; lia]).
    apply Hw. lia. }
  exists k2, n2. split_and!; [done|done|by eapply used_more_trans|lia|].
  intros va Hva Hvok. rewrite Hw2, Hw1 by done.
  destruct (decide (a ≤ va < a + 4096)) as [Hin|Hin].
  - rewrite decide_False, decide_True by lia. do 3 f_equal. Z.div_mod_to_equations; lia.
  - destruct (decide (a + 4096 ≤ va < a + 4096 + Z.of_nat c * 4096)) as [Hin'|Hin'];
      [by rewrite decide_True by lia|by rewrite decide_False by lia].
Qed.

Lemma alloc_many_used (l : list Z) : ∀ k n, used k n → n + Z.of_nat (length l) ≤ capacity (fa k) →
  ∃ k', for_each (E := Error) (λ _, unwrapped alloc_frame ;;; ret tt) l k = (Ok tt, k') ∧
    used_more k k' n (n + Z.of_nat (length l)) ∧ mem k' = mem k.
Proof.
  induction l as [|x l IH]; intros k n Hus Hn; cbn [length] in *.
  { exists k. split_and!; [done| |done]. rewrite Z.add_0_r. split_and!; [done..|lia]. }
  destruct (alloc_used (E := Error) k n Hus ltac:(lia)) as (k1 & Ho & Hmore & Hmem & _).
  pose proof Hmore as (Hus1 & _ & Hc1 & _). destruct (IH k1 (n + 1) Hus1 ltac:(lia)) as (k2 & Ho2 & Hmore2 & Hmem2).
  exists k2. cbn [for_each]. unfold bind. rewrite Ho. unfold ret. split_and!; [done| |congruence].
  replace (n + Z.of_nat (S (length l))) with (n + 1 + Z.of_nat (length l)) by lia. by eapply used_more_trans.
Qed.

(** The heap is 48 frames in a row. *)
Lemma alloc_heap_spec k n : used k n → n + 48 < capacity (fa k) →
  ∃ heap k', alloc_heap k = (Ok heap, k') ∧ used_more k k' n (n + 48) ∧ mem k' = mem k ∧
    let start_va := frame_addr (fa k) n + KERNEL_DIRECT_MAPPING_BASE in
    heap_new start_va (start_va + 48 * 4096) = Some heap.
Proof.
  intros Hus Hn. destruct (alloc_used (E := Error) k n Hus ltac:(lia)) as (k1 & Ho1 & Hm1 & Hmem1 & _ & Hok1 & _).
  pose proof Hm1 as (Hus1 & Hs1 & Hc1 & _).
  destruct (alloc_many_used (seqZ 0 46) k1 (n + 1) Hus1) as (k2 & Ho2 & Hm2 & Hmem2); [rewrite length_seqZ; lia|].
  rewrite length_seqZ in Hm2. change (Z.of_nat (Z.to_nat 46)) with 46 in Hm2. pose proof Hm2 as (Hus2 & Hs2 & Hc2 & _).
  destruct (alloc_used (E := Error) k2 (n + 1 + 46) Hus2 ltac:(lia)) as (k3 & Ho3 & Hm3 & Hmem3 & _ & Hok3 & _).
  assert (Hf3 : frame_addr (fa k2) (n + 1 + 46) = frame_addr (fa k) n + 47 * 4096)
    by (unfold frame_addr; rewrite Hs2, Hs1; lia).
  rewrite Hf3 in *. destruct Hok1 as (H0 & _ & Hb), Hok3 as (_ & _ & Hb3).
  pose proof Hus2 as ([_ _ Htop] & _). unfold frame_addr in *. rewrite Hs2, Hs1, Hc2, Hc1 in Htop.
  unfold KERNEL_DIRECT_MAPPING_BASE in *. set (a := FrameAllocator.start_addr (fa k) + n * 4096) in *.
  unfold alloc_heap. rewrite (bind_ok _ _ _ _ _ Ho1), (bind_ok _ _ _ _ _ Ho2), (bind_ok _ _ _ _ _ Ho3).
  unfold kernel_allocator_init, phys_to_virt, KERNEL_DIRECT_MAPPING_BASE, bind, lift, add_ov, checked_add.
  rewrite !(proj2 (Z.ltb_lt _ _)) by lia. cbn [unwrap].
  rewrite (proj2 (Z.ltb_lt _ _)) by lia. cbn [unwrap].
  replace (a + 47 * 4096 + 0xffffffd600000000 + 4096) with (a + 0xffffffd600000000 + 48 * 4096) by lia.
  unfold heap_new, checked_add, HEADER_SIZE. rewrite (proj2 (Z.ltb_lt _ _)) by lia. cbn [mbind option_bind].
  rewrite (proj2 (Z.ltb_ge _ _)), (proj2 (Z.eqb_neq _ _)) by lia.
  eexists _, k3. split_and!; [done| |congruence|done].
  replace (n + 48) with (n + 1 + 46 + 1) by lia. by eapply used_more_trans, used_more_trans.
Qed.

Lemma text_phys_range x : 0 ≤ x → 0 ≤ kernel_text_virt_to_phys_raw x < 2 ^ 32.
Proof.
  intros Hx. unfold kernel_text_virt_to_phys_raw. rewrite (land_low_mask x 32) by done.
  by apply Z.mod_pos_bound.
Qed.

Lemma used_fresh s start : pages (fa s) = replicate 64 0 → 0 ≤ start < 2 ^ 32 → start mod 4096 = 0 →
  used (set_fa (FrameAllocator.init start (fa s)) s) 0.
Proof.
  intros Hp Hs Hm. unfold used, FrameAllocator.init. cbn [fa set_fa]. rewrite Hp.
  assert (Hcap : capacity (mkFA start (replicate 64 0)) = 4096) by done.
  change (2 ^ 32) with 4294967296 in Hs.
  split_and!; [|lia|lia|].
  - split; cbn [fa set_fa FrameAllocator.start_addr]; rewrite ?Hcap; [|done|unfold KERNEL_DIRECT_MAPPING_BASE; change (2 ^ 64) with 18446744073709551616; lia].
    split; cbn [FrameAllocator.start_addr pages]; [by apply Forall_replicate|lia|rewrite Hcap; change (2 ^ 64) with 18446744073709551616; lia].
  - intros j Hj. unfold in_use. cbn [pages]. rewrite lookup_total_replicate_2 by (Z.div_mod_to_equations; lia).
    rewrite Z.testbit_0_l. symmetry. apply Z.ltb_ge. lia.
Qed.

(** No user address is mapped in a table with the kernel's entries only. *)
Lemma kernel_only_low k root va : kernel_only k root → 0 ≤ va < 2 ^ 38 →
  walk (mem k) root (path_of va Size4K) = None.
Proof.
  intros Hko Hva. cbn [path_of walk]. destruct (vpn_div va) as (Hv & _).
  rewrite (ko_user _ _ Hko (vpn_2 va)); [done|]. rewrite Hv. change (2 ^ 30) with 1073741824.
  change (2 ^ 38) with 274877906944 in *. rewrite Z.mod_small; Z.div_mod_to_equations; lia.
Qed.

(** The steps up to the kernel's entries. *)
Lemma boot_root s root : pages (fa s) = replicate 64 0 → 0 ≤ root < 2 ^ 32 → root mod 4096 = 0 →
  let s0 := set_fa (FrameAllocator.init root (fa s)) s in
  ∃ k1 k3, unwrapped (E' := Error) alloc_frame s0 = (Ok root, k1) ∧
    kvm_full_map root (set_mem (<[root := empty_table]> (mem k1)) k1) = (Ok tt, k3) ∧
    kernel_only k3 root ∧ used k3 1 ∧ FrameAllocator.start_addr (fa k3) = root ∧ capacity (fa k3) = 4096.
Proof.
  intros Hfresh Hr Hm s0. pose proof (used_fresh s root Hfresh Hr Hm) as Hu0. fold s0 in Hu0.
  assert (Hcap0 : capacity (fa s0) = 4096)
    by (unfold s0, FrameAllocator.init, capacity; cbn [fa set_fa pages]; by rewrite Hfresh).
  destruct (alloc_used (E := Error) s0 0 Hu0 ltac:(lia)) as (k1 & Ho1 & Hm1 & _ & _ & Hok & _).
  assert (Hroot : frame_addr (fa s0) 0 = root) by (unfold frame_addr, s0; simpl; lia). rewrite Hroot in *.
  destruct Hm1 as (Hu1 & Hs1 & Hc1 & _). set (k2 := set_mem (<[root := empty_table]> (mem k1)) k1).
  assert (Hu2 : used k2 1) by (by apply (used_fa k1)).
  destruct (kvm_full_map_kernel_only root k2) as (m' & Ho3 & Hko & _).
  { apply Hu2. }
  { rewrite (used_held _ _ _ Hu2). exists 0. split; [lia|]. unfold frame_addr. cbn [fa set_mem k2]. rewrite Hs1. simpl. lia. }
  { done. }
  { apply frame_insert. }
  exists k1, (set_mem m' k2). split_and!; [done|done|done|by apply (used_fa k2)| |]; cbn [fa set_mem k2];
    [by rewrite Hs1|by rewrite Hc1].
Qed.

Lemma low_va_ok va : 0 ≤ va < 2 ^ 38 → is_u64 va ∧ va_ok va = true.
Proof.
  intros Hva. change (2 ^ 38) with 274877906944 in Hva.
  assert (is_u64 va) by (split; [lia|change (2 ^ 64) with 18446744073709551616; lia]).
  split; [done|]. apply va_ok_spec; [done|]. left. change (2 ^ 38) with 274877906944. lia.
Qed.

Lemma text_translate m root va : shape 3 m root → 0 ≤ va < 2 ^ 38 →
  walk m root (path_of va Size4K) = Some (leaf_pte (va - va mod 4096) PTE_RWX, 0%nat) →
  translate m root va = Ok (Some va) ∧
  ∃ e, walk m root (path_of va Size4K) = Some (e, 0%nat) ∧ Z.land e PTE_RWX = PTE_RWX.
Proof.
  intros Hs Hva Hw. change (2 ^ 38) with 274877906944 in Hva.
  destruct (leaf_pte_spec (va - va mod 4096) PTE_RWX) as (_ & Hppn & _ & Hbits).
  { unfold page_ok. change (2 ^ 30) with 1073741824. change (2 ^ 55) with 36028797018963968. Z.div_mod_to_equations; lia. }
  { by split. }
  rewrite translate_walk, Hw by (done || lia). cbn [fmap option_fmap option_map size_of]. rewrite Hppn.
  split; [do 2 f_equal; change (bytes Size4K) with 4096; lia|]. eexists. split; [done|].
  apply Z.bits_inj'. intros i Hi. rewrite Z.land_spec. destruct (Z.lt_ge_cases i 8).
  - rewrite Hbits by lia. by destruct (Z.testbit PTE_RWX i); rewrite ?andb_false_r.
  - rewrite (testbit_high 8 PTE_RWX i) by done. by rewrite andb_false_r.
Qed.

(** The steps of [early_init]: the root table, the text, the heap. *)
Lemma early_init_run s ts te ke :
  let text_start := kernel_text_virt_to_phys_raw ts in
  let text_end := kernel_text_virt_to_phys_raw te in
  let root := kernel_text_virt_to_phys_raw ke in
  let c := (text_end - text_start) / KB + 1 in
  0 ≤ ts → 0 ≤ te → 0 ≤ ke → pages (fa s) = replicate 64 0 →
  text_start mod 4096 = 0 → text_start ≤ text_end ≤ text_start + 2000 * 1024 → root mod 4096 = 0 →
  ∃ k3 k4 k5 n4 heap, early_init ts te ke s = (Ok (root + KERNEL_DIRECT_MAPPING_BASE, heap), k5) ∧
    kernel_only k3 root ∧ FrameAllocator.start_addr (fa k3) = root ∧ capacity (fa k3) = 4096 ∧
    aspace k4 root ∧ used_more k3 k4 1 n4 ∧ n4 ≤ 1 + 2 * c ∧
    (∀ va, is_u64 va → va_ok va = true → walk (mem k4) root (path_of va Size4K) =
       if decide (text_start ≤ va < text_start + c * 4096) then Some (leaf_pte (va - va mod 4096) PTE_RWX, 0%nat)
       else walk (mem k3) root (path_of va Size4K)) ∧
    used_more k4 k5 n4 (n4 + 48) ∧ mem k5 = mem k4 ∧
    heap_new (frame_addr (fa k4) n4 + KERNEL_DIRECT_MAPPING_BASE) (frame_addr (fa k4) n4 + KERNEL_DIRECT_MAPPING_BASE + 48 * 4096) = Some heap.
Proof.
  intros text_start text_end root c Hts Hte Hke Hfresh Htm Hsz Hrm.
  pose proof (text_phys_range ts Hts) as Ht1. pose proof (text_phys_range ke Hke) as Hr1. fold text_start in Ht1. fold root in Hr1.
  destruct (boot_root s root Hfresh Hr1 Hrm) as (k1 & k3 & Ho1 & Ho3 & Hko & Hu3 & Hs3 & Hc3).
  assert (Hc : Z.of_nat (Z.to_nat c) = c ∧ 1 ≤ c ≤ 2001) by (unfold c; change KB with 1024; split; [rewrite Z2Nat.id|]; Z.div_mod_to_equations; lia).
  destruct Hc as [Hcn Hc]. change (2 ^ 32) with 4294967296 in *.
  destruct (map_text_spec (Z.to_nat c) root text_start k3 1 (ko_space _ _ Hko) Hu3) as (k4 & n4 & Ho4 & Has4 & Hm4 & Hn4 & Hw4);
    [lia|lia|change (2 ^ 38) with 274877906944; lia|done| |].
  { intros va Hva. apply kernel_only_low; [done|]. change (2 ^ 38) with 274877906944. lia. }
  rewrite Hcn in Hn4, Hw4. pose proof Hm4 as (Hu4 & _ & Hc4 & _).
  destruct (alloc_heap_spec k4 n4 Hu4) as (heap & k5 & Ho5 & Hm5 & Hmem5 & Hheap); [lia|].
  exists k3, k4, k5, n4, heap. split; [|by split_and!].
  unfold early_init. fold text_start text_end root. unfold bind at 1, modify at 1. rewrite (bind_ok _ _ _ _ _ Ho1).
  unfold bind at 1, lift at 1, va_from_raw_unchecked. rewrite (proj2 (low_va_ok root ltac:(change (2 ^ 38) with 274877906944; lia))).
  unfold bind at 1, initialize_empty_pt, write_frame, modify.
  unfold bind at 1, lift at 1, sub_ov, checked_sub. rewrite (proj2 (Z.leb_le _ _)) by lia. cbn [unwrap].
  rewrite (bind_ok _ _ _ _ _ Ho3), (bind_ok _ _ _ _ _ Ho4), (bind_ok _ _ _ _ _ Ho5).
  unfold bind, lift, phys_to_virt, add_ov, checked_add, KERNEL_DIRECT_MAPPING_BASE.
  by rewrite (proj2 (Z.ltb_lt _ _)) by (change (2 ^ 64) with 18446744073709551616; lia).
Qed.

(** C19: boot.  From a fresh frame allocator, [early_init] builds a root table
    in the first frame after the kernel image that maps the whole direct
    mapping and the image, and the kernel's text at its physical address, so
    the instruction after the switch to it can be fetched.  The heap gets 48
    frames in a row, as the code assumes, and none of them is a table. *)
Theorem early_init_spec s ts te ke :
  let text_start := kernel_text_virt_to_phys_raw ts in
  let text_end := kernel_text_virt_to_phys_raw te in
  let root := kernel_text_virt_to_phys_raw ke in
  0 ≤ ts → 0 ≤ te → 0 ≤ ke → pages (fa s) = replicate 64 0 →
  text_start mod 4096 = 0 → text_start ≤ text_end ≤ text_start + 2000 * 1024 → root mod 4096 = 0 →
  ∃ heap h s', early_init ts te ke s = (Ok (root + KERNEL_DIRECT_MAPPING_BASE, heap), s') ∧
    aspace s' root ∧
    (∀ va, KERNEL_DIRECT_MAPPING_BASE ≤ va < 2 ^ 64 → translate (mem s') root va = Ok (Some (kernel_pa va))) ∧
    (∀ va, text_start ≤ va ≤ text_end → translate (mem s') root va = Ok (Some va) ∧
       ∃ e, walk (mem s') root (path_of va Size4K) = Some (e, 0%nat) ∧ Z.land e PTE_RWX = PTE_RWX) ∧
    heap_new (h + KERNEL_DIRECT_MAPPING_BASE) (h + KERNEL_DIRECT_MAPPING_BASE + 48 * 4096) = Some heap ∧
    (∀ i, 0 ≤ i < 48 → held (fa s') (h + i * 4096) ∧ h + i * 4096 ∉ tables 3 (mem s') root) ∧
    ∀ x, held (fa s') x → root ≤ x.
Proof.
  intros text_start text_end root Hts Hte Hke Hfresh Htm Hsz Hrm.
  pose proof (text_phys_range ts Hts) as Ht1. pose proof (text_phys_range te Hte) as Ht2.
  pose proof (text_phys_range ke Hke) as Hr1. fold text_start in Ht1. fold text_end in Ht2. fold root in Hr1.
  destruct (early_init_run s ts te ke Hts Hte Hke Hfresh Htm Hsz Hrm) as (k3 & k4 & k5 & n4 & heap & E & Hko & Hs3 & Hc3 & Has4 & Hm4 & Hn4 & Hw4 & Hm5 & Hmem5 & Hheap).
  fold text_start text_end root in E, Hko, Hs3, Has4, Hn4, Hw4. set (c := (text_end - text_start) / KB + 1) in *.
  assert (Hc : 1 ≤ c ≤ 2001 ∧ text_end < text_start + c * 4096) by (unfold c; change KB with 1024; Z.div_mod_to_equations; lia).
  change (2 ^ 32) with 4294967296 in *. pose proof Hm4 as (Hu4 & Hs4 & Hc4 & _).
  pose proof Hm5 as (Hu5 & Hs5 & Hc5 & _). exists heap, (frame_addr (fa k4) n4), k5.
  assert (Hown : ∀ x, x ∈ tables 3 (mem k5) root → held (fa k4) x) by (rewrite Hmem5; apply Has4).
  assert (Hheld : ∀ x, held (fa k5) x ↔ ∃ j, 0 ≤ j < n4 + 48 ∧ x = root + j * 4096).
  { intros x. rewrite (used_held _ _ _ Hu5). unfold frame_addr. by rewrite Hs5, Hs4, Hs3. }
  pose proof (proj1 (proj1 (proj2 Has4))) as Hs4'.
  split; [|split; [|split; [|split; [|split; [done|split]]]]].
  - exact E.
  - destruct Has4 as (_ & Hwf & Hown4). split_and!; [apply Hu5|by rewrite Hmem5|].
    intros x Hx. apply Hheld. apply Hown in Hx. rewrite (used_held _ _ _ Hu4) in Hx.
    destruct Hx as (j & Hj & ->). exists j. unfold frame_addr. rewrite Hs4, Hs3. split; [lia|done].
  - intros va Hva. rewrite Hmem5. destruct (kernel_vpn va Hva) as (Hv & Hvok & _).
    rewrite <-(kernel_translate (mem k3) root va); [|apply (ko_space _ _ Hko)|apply Hko|done].
    rewrite !translate_walk by (apply Hv || apply (ko_space _ _ Hko) || done). rewrite Hw4, decide_False by (done || (unfold KERNEL_DIRECT_MAPPING_BASE in Hva; lia)). done.
  - intros va Hva. rewrite Hmem5. apply text_translate; [done|change (2 ^ 38) with 274877906944; lia|].
    destruct (low_va_ok va) as [Hv Hvok]; [change (2 ^ 38) with 274877906944; lia|].
    by rewrite Hw4, decide_True by (done || lia).
  - intros i Hi. assert (frame_addr (fa k4) n4 + i * 4096 = root + (n4 + i) * 4096) as ->
      by (unfold frame_addr; rewrite Hs4, Hs3; lia). split.
    + apply Hheld. exists (n4 + i). destruct Hu4 as (_ & ? & _). split; [lia|done].
    + intros Hx%Hown. rewrite (used_held _ _ _ Hu4) in Hx. destruct Hx as (j & Hj & Heq).
      unfold frame_addr in Heq. rewrite Hs4, Hs3 in Heq. lia.
  - intros x Hx. apply Hheld in Hx as (j & Hj & ->). lia.
Qed.
End map.

Lemma early_init_spec_witness : ∃ heap h s',
  early_init 0xffffffff80200000 0xffffffff80210000 0xffffffff80300000 (mkKmem (FrameAllocator.new 64 0) ∅ ∅) =
    (Ok (0x80300000 + KERNEL_DIRECT_MAPPING_BASE, heap), s') ∧
  translate (mem s') 0x80300000 0xffffffff80200abc = Ok (Some 0x80200abc) ∧
  translate (mem s') 0x80300000 0x80200abc = Ok (Some 0x80200abc) ∧
  heap_new (h + KERNEL_DIRECT_MAPPING_BASE) (h + KERNEL_DIRECT_MAPPING_BASE + 48 * 4096) = Some heap.
Proof.
  pose proof (early_init_spec (mkKmem (FrameAllocator.new 64 0) ∅ ∅) 0xffffffff80200000 0xffffffff80210000
    0xffffffff80300000 ltac:(done) ltac:(done) ltac:(done) eq_refl eq_refl ltac:(vm_compute; split; discriminate) eq_refl) as Hex.
  change (kernel_text_virt_to_phys_raw 0xffffffff80200000) with 0x80200000 in Hex.
  change (kernel_text_virt_to_phys_raw 0xffffffff80210000) with 0x80210000 in Hex.
  change (kernel_text_virt_to_phys_raw 0xffffffff80300000) with 0x80300000 in Hex.
  destruct Hex as (heap & h & s' & Ho & _ & Hk & Ht & Hh & _). exists heap, h, s'.
  assert (Hk1 : translate (mem s') 0x80300000 0xffffffff80200abc = Ok (Some 0x80200abc)).
  { exact (Hk 0xffffffff80200abc ltac:(unfold KERNEL_DIRECT_MAPPING_BASE; lia)). }
  pose proof (proj1 (Ht 0x80200abc ltac:(lia))) as Ht1. exact (conj Ho (conj Hk1 (conj Ht1 Hh))).
Defined.
