(* ===== verification/TaskSpace.v ===== *)
(** * The address space of a task

    The invariant of every address space the kernel makes: the kernel is mapped
    in it, and what is mapped for the user is what its regions say.  Each
    operation of [MemoryManager] ([kernel/src/mm/mod.rs]) that adds pages is
    described by what it does to the contents. *)

From S2P Require Import Prelude Errors Addr Sv39 FrameAllocator PageMeta PageTable PageMap PageFork MemMgr MemFault UserMem UserView ForkView KernelMap.

(** ** The invariant *)

(** The leaf of an address. *)
Definition leaf_of (s : Space) (va : Z) : option (Z * nat) :=
  walk (mem (km s)) (root_pt (mm s)) (path_of va Size4K).

Definition rx_flags (fl : Z) : bool := Z.testbit fl 1 || Z.testbit fl 3.

Record tspace (s : Space) : Prop := {
  ts_user : uspace s;
  ts_kernel : kernel_mapped (mem (km s)) (root_pt (mm s));
  ts_low va e k : is_u64 va → va_ok va = true → va < KERNEL_DIRECT_MAPPING_BASE →
    leaf_of s va = Some (e, k) → is_Some (region_at s va) ∧ rx_flags e = true;
  ts_rx : Forall (λ r, rx_flags (r_flags r) = true) (regions (mm s));
}.

(** ** Walks of the kernel's addresses *)

Lemma walk_top m t i j k e : walk m t [i; j; k] = Some (e, 2%nat) → entry m t i = e.
Proof.
  cbn [walk length]. destruct (is_table (entry m t i)); [|destruct (is_valid _); congruence].
  destruct (is_table (entry m (ppn_address (entry m t i)) j)); [|destruct (is_valid _); congruence].
  destruct (is_table _); [done|]. destruct (is_valid _); congruence.
Qed.

(** The kernel's part is there if its addresses translate. *)
Lemma kernel_mapped_walk m m' root : kernel_mapped m root →
  (∀ va, KERNEL_DIRECT_MAPPING_BASE ≤ va < 2 ^ 64 →
     walk m' root (path_of va Size4K) = walk m root (path_of va Size4K)) → kernel_mapped m' root.
Proof.
  intros Hk Hw j Hj. set (va := KERNEL_DIRECT_MAPPING_BASE + (j - 344) * GB).
  assert (Hva : KERNEL_DIRECT_MAPPING_BASE ≤ va < 2 ^ 64).
  { unfold va. change GB with 1073741824. unfold KERNEL_DIRECT_MAPPING_BASE. change (2 ^ 64) with 18446744073709551616. lia. }
  destruct (kernel_vpn va Hva) as (_ & _ & Hv & _ & Hm).
  assert (vpn_2 va = j) as Hvj.
  { unfold va in Hm at 2. assert (0 ≤ va mod GB < GB) by (by apply Z.mod_pos_bound). change GB with 1073741824 in *. lia. }
  specialize (Hw va Hva). rewrite (kernel_walk m root va Hk Hva), Hvj in Hw. apply walk_top in Hw. by rewrite Hvj in Hw.
Qed.

Lemma region_low s va r : uspace s → region_at s va = Some r → 0 ≤ va < 2 ^ 38 ∧ va < KERNEL_DIRECT_MAPPING_BASE.
Proof.
  intros Hu Hr. destruct (region_at_range s va r Hu Hr) as (_ & Ha & _). split; [done|].
  unfold KERNEL_DIRECT_MAPPING_BASE. change (2 ^ 38) with 274877906944 in Ha. lia.
Qed.

Lemma kernel_no_region s va : uspace s → KERNEL_DIRECT_MAPPING_BASE ≤ va → region_at s va = None.
Proof.
  intros Hu Hva. destruct (region_at s va) as [r|] eqn:Hr; [|done]. destruct (region_low s va r Hu Hr). lia.
Qed.

(** What keeps the tables outside the regions keeps the invariant. *)
Lemma tspace_transfer s s' : tspace s → uspace s' → root_pt (mm s') = root_pt (mm s) →
  (∀ r, r ∈ regions (mm s) → r ∈ regions (mm s')) → Forall (λ r, rx_flags (r_flags r) = true) (regions (mm s')) →
  (∀ va, is_u64 va → va_ok va = true → region_at s' va = None → leaf_of s' va = leaf_of s va) →
  (∀ va r e k, region_at s' va = Some r → leaf_of s' va = Some (e, k) → rx_flags e = true) → tspace s'.
Proof.
  intros [Hu Hker Hlow Hrx] Hu' Hroot Hsub Hrx' Hout Hin. split; [done| | |done].
  - rewrite Hroot. apply (kernel_mapped_walk (mem (km s))); [done|]. intros va Hva.
    destruct (kernel_vpn va Hva) as (Hv & Hvok & _). pose proof (Hout va Hv Hvok) as H. unfold leaf_of in H.
    rewrite Hroot in H. apply H, kernel_no_region; [done|lia].
  - intros va e k Hva Hvok Hlt Hl. destruct (region_at s' va) as [r|] eqn:Hr.
    { split; [by eexists|]. by eapply Hin. }
    rewrite Hout in Hl by done. destruct (Hlow va e k Hva Hvok Hlt Hl) as [[r Hr0] ?]. exfalso.
    apply region_at_spec in Hr0 as [Hr1 Hr2]; [|done|apply Hva].
    assert (region_at s' va = Some r) by (apply region_at_spec; [done|apply Hva|by auto]). congruence.
Qed.

(** The leaf of an address is that of its page. *)
Lemma leaf_of_page s va : is_u64 va → va_ok va = true → leaf_of s va = leaf s va.
Proof.
  intros Hva Hok. unfold leaf_of, leaf. destruct (page_base_ok va Hva Hok) as (Hb & Hbok & _).
  assert (path_of va Size4K = path_of (page_of va) Size4K) as ->; [|done].
  apply path_of_page; [done..|]. unfold page_of. Z.div_mod_to_equations; lia.
Qed.

Lemma leaf_rx s a r e k : tspace s → region_at s a = Some r → leaf s a = Some (e, k) → rx_flags e = true.
Proof.
  intros Ht Hr Hl. destruct (region_at_range s a r (ts_user s Ht) Hr) as (_ & _ & Ha & Hok & _).
  destruct (region_low s a r (ts_user s Ht) Hr) as [_ Hlow]. rewrite <-(leaf_of_page s a Ha Hok) in Hl.
  by apply (ts_low s Ht a e k).
Qed.

(** A page can be read or executed. *)
Lemma rx_access s a r : tspace s → region_at s a = Some r → can_read s a || can_exec s a = true.
Proof.
  intros Ht Hr. unfold can_read, can_exec. rewrite Hr. destruct (leaf s a) as [[e k]|] eqn:Hl; [by eapply leaf_rx|].
  pose proof (ts_rx s Ht) as Hrx. rewrite Forall_forall in Hrx. apply Hrx.
  by destruct (region_at_range s a r (ts_user s Ht) Hr) as (_ & _ & _ & _ & _ & _ & ? & _).
Qed.

(** Whatever a task does with its memory keeps the invariant. *)
Lemma evolves_tspace s s' f : tspace s → evolves s s' f → tspace s'.
Proof.
  intros Ht Hev. pose proof (ev_mm _ _ _ Hev) as Hmm.
  assert (Hra : ∀ a, region_at s' a = region_at s a) by (intros a; unfold region_at; by rewrite Hmm).
  apply (tspace_transfer s); rewrite ?Hmm; [done|apply Hev|done|done|apply Ht| |].
  - intros va Hva Hok Hr. rewrite Hra in Hr. unfold leaf_of. rewrite Hmm. by apply Hev.
  - intros va r e k Hr Hl. destruct (region_at_range s' va r (ev_space _ _ _ Hev) Hr) as (_ & _ & Hva & Hok & _).
    rewrite leaf_of_page in Hl by done. pose proof (rx_access s va r Ht ltac:(by rewrite <-Hra)) as Hx.
    rewrite <-(ev_read _ _ _ Hev), <-(ev_exec _ _ _ Hev) in Hx. unfold can_read, can_exec in Hx. by rewrite Hr, Hl in Hx.
Qed.

(** ** New regions *)

(** A page that may be added to the space. *)
Definition new_region (s : Space) (r : VmRegion) : Prop :=
  leaf_flags (r_flags r) ∧ Z.testbit (r_flags r) 4 = true ∧ rx_flags (r_flags r) = true ∧
  r_end r ≤ 2 ^ 38 ∧ region_at s (r_start r) = None.

Section more.
Context (s : Space) (rs' : list VmRegion) (Ht : tspace s) (Hok : pages_ok rs').
Context (Hsub : ∀ r, r ∈ regions (mm s) → r ∈ rs') (Hnew : ∀ r, r ∈ rs' → r ∈ regions (mm s) ∨ new_region s r).
Let s' := with_regions rs' s.

Lemma more_start r : r ∈ rs' → 0 ≤ r_start r ∧ page_of (r_start r) = r_start r.
Proof.
  intros Hr. destruct Hok as [_ Hf]. rewrite Forall_forall in Hf. destruct (Hf r Hr) as (H0 & Hm & _).
  split; [done|]. unfold page_of. lia.
Qed.

Lemma more_leaf r : r ∈ rs' → r ∈ regions (mm s) ∨ leaf s (r_start r) = None.
Proof.
  intros Hr. destruct (Hnew r Hr) as [?|(_ & _ & _ & Hend & Hno)]; [by left|right].
  destruct (more_start r Hr) as [H0 _]. destruct Hok as [_ Hf]. rewrite Forall_forall in Hf. destruct (Hf r Hr) as (_ & _ & He).
  assert (Hlt : 0 ≤ r_start r < 2 ^ 38) by lia. destruct (low_va_ok _ Hlt) as [Hv Hvok].
  rewrite <-leaf_of_page by done. destruct (leaf_of s (r_start r)) as [[e k]|] eqn:Hl; [|done].
  destruct (ts_low s Ht (r_start r) e k Hv Hvok) as [[? ?] _]; [|done|congruence].
  unfold KERNEL_DIRECT_MAPPING_BASE. change (2 ^ 38) with 274877906944 in Hlt. lia.
Qed.

Lemma more_uspace : uspace s'.
Proof.
  destruct (ts_user s Ht) as [H1 H2 H3 H4 H5 H6]. split; [done|done|done| | |].
  - apply Forall_forall. intros r Hr. rewrite Forall_forall in H4.
    destruct (Hnew r Hr) as [?|(? & ? & _ & ? & _)]; [by apply H4|done].
  - intros r e k Hr Hl. change (leaf s' (r_start r)) with (leaf s (r_start r)) in Hl.
    destruct (more_leaf r Hr) as [?|?]; [by apply (H5 r)|congruence].
  - intros r1 r2 e1 e2 Hr1 Hr2 Hl1 Hl2. change (leaf s (r_start r1) = Some (e1, 0%nat)) in Hl1.
    change (leaf s (r_start r2) = Some (e2, 0%nat)) in Hl2.
    destruct (more_leaf r1 Hr1) as [?|?]; [|congruence]. destruct (more_leaf r2 Hr2) as [?|?]; [|congruence].
    by apply (H6 r1 r2 e1 e2).
Qed.

Lemma more_region a r : region_at s a = Some r → region_at s' a = Some r.
Proof.
  intros Hr. destruct (region_at_range s a r (ts_user s Ht) Hr) as (_ & Ha & _ & _ & _ & _ & Hin & Hst & _).
  apply region_at_spec; [apply more_uspace|lia|]. split; [by apply Hsub|done].
Qed.

Lemma more_tspace : tspace s'.
Proof.
  apply (tspace_transfer s); [done|apply more_uspace|done|done| |done|].
  - apply Forall_forall. intros r Hr. pose proof (ts_rx s Ht) as Hrx. rewrite Forall_forall in Hrx.
    destruct (Hnew r Hr) as [?|(_ & _ & ? & _)]; [by apply Hrx|done].
  - intros va r e k Hr Hl. destruct (region_at_range s' va r more_uspace Hr) as (_ & Hva & Hv & Hvok & _).
    change (leaf_of s va = Some (e, k)) in Hl. apply (ts_low s Ht va e k Hv Hvok); [|done].
    unfold KERNEL_DIRECT_MAPPING_BASE. change (2 ^ 38) with 274877906944 in Hva. lia.
Qed.

(** The new pages are zero and the others as before. *)
Lemma more_view a : view s' a =
  match region_at s a with
  | Some _ => view s a
  | None => match region_at s' a with Some _ => Some 0 | None => None end
  end.
Proof.
  destruct (region_at s a) as [r|] eqn:Hr.
  { unfold view. by rewrite (more_region a r Hr), Hr. }
  unfold view. destruct (region_at s' a) as [r|] eqn:Hr'; [|done].
  destruct (region_at_range s' a r more_uspace Hr') as (_ & Ha & _ & _ & _ & _ & Hin & Hst & _).
  destruct (more_leaf r Hin) as [Hold|Hnone].
  - assert (region_at s a = Some r); [|congruence]. apply region_at_spec; [apply Ht|lia|done].
  - rewrite <-(leaf_region s' a r more_uspace Hr'). by change (leaf s' (r_start r)) with (leaf s (r_start r)); rewrite Hnone.
Qed.
End more.

(** ** Spaces that grow *)

(** [s'] has the pages of [s] and maybe more, with the contents [f]; the frames
    of others are as they were. *)
Record grows_to (s s' : Space) (f : Z → option Z) : Prop := {
  gt_space : tspace s';
  gt_root : root_pt (mm s') = root_pt (mm s);
  gt_view a : view s' a = f a;
  gt_old a r : region_at s a = Some r → region_at s' a = Some r ∧ (can_read s a = true → can_read s' a = true) ∧
    (can_write s a = true → can_write s' a = true) ∧ (can_exec s a = true → can_exec s' a = true);
  gt_foreign x : foreign s x → foreign s' x ∧ frame (mem (km s')) x = frame (mem (km s)) x;
}.

Lemma grows_to_refl s : tspace s → grows_to s s (view s).
Proof. intros Ht. by split. Qed.

Lemma grows_to_trans s s1 s2 f g : grows_to s s1 f → grows_to s1 s2 g → grows_to s s2 g.
Proof.
  intros [_ Hr1 _ Ho1 Hf1] [Ht2 Hr2 Hv2 Ho2 Hf2]. split; [done|congruence|done| |].
  - intros a r Hr. destruct (Ho1 a r Hr) as (H1 & ? & ? & ?). destruct (Ho2 a r H1) as (? & ? & ? & ?).
    split_and!; auto.
  - intros x [H1 E1]%Hf1. destruct (Hf2 x H1) as [? E2]. split; [done|congruence].
Qed.

Lemma grows_to_ext s s' f g : grows_to s s' f → (∀ a, f a = g a) → grows_to s s' g.
Proof. intros [? ? Hv ? ?] Hfg. split; try done. intros a. by rewrite Hv. Qed.

Lemma evolves_grows s s' f : tspace s → evolves s s' f → grows_to s s' f.
Proof.
  intros Ht Hev. split; [by eapply evolves_tspace|by rewrite (ev_mm _ _ _ Hev)|apply Hev| |apply Hev].
  intros a r Hr. split; [unfold region_at; by rewrite (ev_mm _ _ _ Hev)|].
  by rewrite (ev_read _ _ _ Hev), (ev_write _ _ _ Hev), (ev_exec _ _ _ Hev).
Qed.

(** One more page, without a frame yet. *)
Section add_page.
Context (s : Space) (va flags : Z) (Ht : tspace s).
Context (Hm : va mod 4096 = 0) (Hr : 0 ≤ va ∧ va + 4096 ≤ 2 ^ 38) (Hno : region_at s va = None).
Context (Hfl : leaf_flags flags) (Hus : Z.testbit flags 4 = true) (Hrx : rx_flags flags = true).
Let r := mkRegion va (va + 4096) flags.

Lemma add_page_search : ∃ i, search va (regions (mm s)) = inr i ∧ region_before i va (regions (mm s)) = None.
Proof.
  unfold region_at in Hno. replace (page_of va) with va in Hno by (unfold page_of; lia).
  unfold lookup_region in Hno. destruct (search va (regions (mm s))) as [i|i] eqn:Hs; [|by exists i].
  destruct (search_found _ _ _ Hs) as [r' Hr']. congruence.
Qed.

Section at_index.
Context (i : nat) (Hi : search va (regions (mm s)) = inr i).
Let rs' := insert_at i r (regions (mm s)).
Let s' := with_regions rs' s.

Lemma add_page_hyps : pages_ok rs' ∧ (∀ r', r' ∈ regions (mm s) → r' ∈ rs') ∧
  ∀ r', r' ∈ rs' → r' ∈ regions (mm s) ∨ new_region s r'.
Proof.
  split; [|split].
  - apply insert_page_ok; [apply (us_pages s (ts_user s Ht))|lia|done|done].
  - intros r' Hr'. apply insert_at_elem. by right.
  - intros r' [->|?]%insert_at_elem; [right|by left]. split; [done|]. split; [done|]. split; [done|]. split; [simpl; lia|done].
Qed.

Lemma add_page_tspace : tspace s'.
Proof. destruct add_page_hyps as (H1 & H2 & H3). by apply more_tspace. Qed.

Lemma add_page_region a : 0 ≤ a → region_at s' a = if decide (page_of a = va) then Some r else region_at s a.
Proof.
  intros Ha. destruct add_page_hyps as (H1 & H2 & H3). pose proof (more_uspace s rs' Ht H1 H3) as Hu'. fold s' in Hu'.
  destruct (decide (page_of a = va)) as [Hp|Hp].
  - apply region_at_spec; [done..|]. split; [|done]. apply insert_at_elem. by left.
  - destruct (region_at s a) as [r0|] eqn:Hr0; [by apply more_region|].
    destruct (region_at s' a) as [r1|] eqn:Hr1; [|done]. exfalso.
    apply region_at_spec in Hr1 as [[->|Hin]%insert_at_elem Hst]; [|..|done|done]; [by rewrite <-Hst in Hp|].
    assert (region_at s a = Some r1); [|congruence]. apply region_at_spec; [apply Ht|done|done].
Qed.

Lemma add_page_grows : grows_to s s' (λ a, if decide (page_of a = va) then Some 0 else view s a).
Proof.
  destruct add_page_hyps as (H1 & H2 & H3). pose proof add_page_tspace as Ht'. split; [done|done| | |].
  - intros a. unfold s'. rewrite (more_view s rs' Ht H1 H2 H3). fold s'.
    destruct (Z.lt_ge_cases a 0) as [Ha|Ha].
    + assert (page_of a < 0) by (pose proof (page_of_range a); lia).
      assert (Hneg : ∀ t, tspace t → region_at t a = None).
      { intros t Htt. destruct (region_at t a) as [r0|] eqn:Hr0; [|done].
        destruct (region_at_range t a r0 (ts_user t Htt) Hr0) as (? & _). lia. }
      rewrite !Hneg, decide_False by (done || lia). unfold view. by rewrite Hneg.
    + rewrite add_page_region by done. destruct (decide (page_of a = va)) as [Hp|Hp].
      * assert (region_at s a = None) as ->; [|done]. unfold region_at in *. rewrite Hp.
        replace va with (page_of va); [done|]. unfold page_of. lia.
      * unfold view. destruct (region_at s a) as [r0|]; [|done]. done.
  - intros a r0 Hr0. pose proof (more_region s rs' Ht H1 H2 H3 a r0 Hr0) as Hr1. fold s' in Hr1. split; [done|].
    unfold can_write, can_read, can_exec. rewrite Hr0, Hr1. done.
  - intros x (Hx1 & Hx2 & Hx3). split; [|done]. split; [done|]. split; [done|].
    intros r0 e k Hr0 Hl He. change (leaf s (r_start r0) = Some (e, k)) in Hl.
    destruct (more_leaf s rs' Ht H1 H3 r0 Hr0) as [?|?]; [by apply (Hx3 r0 e k)|congruence].
Qed.
End at_index.
End add_page.

(** ** Pages with a frame *)

(** The page of [a] has a frame that nobody else has. *)
Definition private (s : Space) (a : Z) : Prop :=
  ∃ e, leaf s a = Some (e, 0%nat) ∧ refs (meta (km s)) (ppn_address e) = 1.

Definition all_private (s : Space) : Prop := ∀ a r, region_at s a = Some r → private s a.

Section allocate.
Context `{BF : Bitflags} `{HBF : !BitflagsOk BF}.

(** [map_allocate_page] is a new region and then a page for it. *)
Lemma map_allocate_page_split s va flags i :
  search va (regions (mm s)) = inr i → 0 ≤ va → va + 4096 < 2 ^ 64 →
  let s1 := with_regions (insert_at i (mkRegion va (va + 4096) flags) (regions (mm s))) s in
  match give_page va flags s1 with
  | (Ok _, s2) => ∃ pa, map_allocate_page va flags s = (Ok pa, mkSpace (mm s1) (km s2))
  | (Err e, s2) => ∃ s3, map_allocate_page va flags s = (Err e, s3)
  | (Panic, s2) => ∃ s3, map_allocate_page va flags s = (Panic, s3) ∧ km s3 = km s2
  | (Diverge, s2) => ∃ s3, map_allocate_page va flags s = (Diverge, s3)
  end.
Proof.
  intros Hi H0 Hlt s1. unfold give_page, map_allocate_page.
  assert (Ho : offset_by va PAGE_SIZE = Some (va + 4096)).
  { unfold offset_by, checked_add. change PAGE_SIZE with 4096. cbn [Z.ltb Z.compare]. by rewrite (proj2 (Z.ltb_lt _ _)). }
  unfold bind, kmem, zoom, zero_frame, mm_map_vm, insert_mapping, gets, lift, page_add, write_frame, modify, kmem, zoom, bind.
  change (km s1) with (km s). cbn [id].
  destruct (unwrapped alloc_frame (km s)) as [[pa|e| |] k1]; [|by eexists..].
  cbn [set_km km mm]. destruct (phys_to_virt pa) as [ptr|e| |]; [|by eexists..]. cbn [set_km km mm].
  change (root_pt (mm s1)) with (root_pt (mm s)).
  destruct (phys_to_virt (root_pt (mm s))) as [root|e| |]; [|by eexists..].
  destruct (va_from_raw_unchecked root) as [root'|e| |]; [|by eexists..].
  destruct (va_from_raw_unchecked va) as [va'|e| |]; [|by eexists..].
  destruct (pa_from_raw_unchecked pa) as [pa'|e| |]; [|by eexists..].
  destruct (map_vm _ va' pa' flags _) as [[[]|e| |] k2]; [|by eexists..].
  cbn [set_km km mm]. rewrite Ho. cbn [ok_or]. rewrite Hi. by eexists.
Qed.

(** A frame for a page of a region. *)
Lemma give_page_evolves s va r : uspace s → region_at s va = Some r → page_of va = va → leaf s va = None →
  match give_page va (r_flags r) s with
  | (Ok _, s') => evolves s s' (view s) ∧ (∃ pa, leaf s' va = Some (leaf_pte pa (r_flags r), 0%nat)) ∧
      (∀ a ra, region_at s a = Some ra → page_of a ≠ va → leaf s' a = leaf s a) ∧
      ∀ a ra, region_at s a = Some ra → page_of a = va ∨ private s a → private s' a
  | (Panic, s') => full (fa (km s'))
  | _ => False
  end.
Proof.
  intros Hu Hr Hpv Hl. destruct (region_at_range s va r Hu Hr) as (_ & _ & Hv & Hvok & _ & _ & Hin & Hst & Hfl & Hus).
  pose proof (page_of_mod va) as Hm. rewrite Hpv in Hm. pose proof Hl as Hw. unfold leaf in Hw. rewrite Hpv in Hw.
  pose proof (give_page_spec s va (r_flags r) (us_space _ Hu) (us_meta _ Hu) Hv Hvok Hm Hfl Hw) as Hg.
  destruct (give_page va (r_flags r) s) as [[[]|e| |] s']; [|done..]. destruct Hg as (Hmm & pa & Hg).
  rewrite <-Hpv in Hg at 1. pose proof (page_given_replaced s s' va r pa Hu Hr Hl Hmm Hg) as Hrep. rewrite Hpv in Hrep, Hst.
  assert (Hleaf : ∀ a ra, region_at s a = Some ra → page_of a = va → leaf s' a = Some (leaf_pte pa (r_flags r), 0%nat)).
  { intros a ra Hra Hpa. by rewrite (pr_leaf _ _ _ _ _ Hrep a ra Hra), decide_True. }
  destruct (leaf_pte_frame _ _ _ _ _ _ Hg Hfl Hus) as [_ Hppn].
  split; [by apply (page_replaced_evolves s s' va (leaf_pte pa (r_flags r)) r)|]. split; [exists pa; by eapply Hleaf|]. split.
  { intros a ra Hra Hne. by rewrite (pr_leaf _ _ _ _ _ Hrep a ra Hra), decide_False. }
  intros a ra Hra Hor. destruct (decide (page_of a = va)) as [Hpa|Hpa].
  - exists (leaf_pte pa (r_flags r)). split; [by eapply Hleaf|].
    by rewrite Hppn, (pg_refs _ _ _ _ _ _ Hg), decide_True.
  - destruct Hor as [?|(e & Hle & Hone)]; [done|]. exists e.
    rewrite (pr_leaf _ _ _ _ _ Hrep a ra Hra), decide_False by done. split; [done|].
    destruct (region_at_range s a ra Hu Hra) as (_ & _ & _ & _ & _ & _ & Hina & Hsta & _).
    destruct (pr_others _ _ _ _ _ Hrep ra e Hina) as (_ & _ & _ & ->); [congruence|by rewrite (leaf_region s a ra)|done].
Qed.

Lemma map_allocate_page_spec s va flags : tspace s → va mod 4096 = 0 → 0 ≤ va → va + 4096 ≤ 2 ^ 38 →
  region_at s va = None → leaf_flags flags → Z.testbit flags 4 = true → rx_flags flags = true →
  match map_allocate_page va flags s with
  | (Ok _, s') => grows_to s s' (λ a, if decide (page_of a = va) then Some 0 else view s a) ∧
      (∀ a, 0 ≤ a → region_at s' a =
         if decide (page_of a = va) then Some (mkRegion va (va + 4096) flags) else region_at s a) ∧
      (∃ rs, mm s' = set_regions rs (mm s)) ∧
      (∃ pa, leaf s' va = Some (leaf_pte pa flags, 0%nat)) ∧
      (∀ a r, region_at s a = Some r → leaf s' a = leaf s a) ∧ (all_private s → all_private s')
  | (Panic, s') => full (fa (km s'))
  | _ => False
  end.
Proof.
  intros Ht Hm H0 Hle Hno Hfl Hus Hrx.
  destruct (add_page_search s va Hm Hno) as (i & Hi & _).
  pose proof (map_allocate_page_split s va flags i Hi H0 ltac:(change (2 ^ 38) with 274877906944 in Hle; lia)) as Hsplit.
  cbv zeta in Hsplit.
  set (s1 := with_regions (insert_at i (mkRegion va (va + 4096) flags) (regions (mm s))) s) in *.
  pose proof (add_page_tspace s va flags Ht Hm (conj H0 Hle) Hno Hfl Hus Hrx i Hi) as Ht1. fold s1 in Ht1.
  pose proof (add_page_region s va flags Ht Hm (conj H0 Hle) Hno Hfl Hus Hrx i Hi) as Hreg1. fold s1 in Hreg1.
  pose proof (add_page_grows s va flags Ht Hm (conj H0 Hle) Hno Hfl Hus Hrx i Hi) as Hg1. fold s1 in Hg1.
  assert (Hpv : page_of va = va) by (unfold page_of; lia).
  assert (Hr1 : region_at s1 va = Some (mkRegion va (va + 4096) flags)) by (by rewrite Hreg1, decide_True).
  destruct (low_va_ok va ltac:(lia)) as [Hv Hvok].
  assert (Hl1 : leaf s1 va = None).
  { destruct (add_page_hyps s va flags Ht Hm (conj H0 Hle) Hno Hfl Hus Hrx i Hi) as (P1 & _ & P3).
    destruct (more_leaf s _ Ht P1 P3 (mkRegion va (va + 4096) flags)) as [Hin|Hn]; [by apply insert_at_elem; left| |exact Hn].
    exfalso. assert (region_at s va = Some (mkRegion va (va + 4096) flags)); [|congruence].
    apply region_at_spec; [apply Ht|done|done]. }
  pose proof (give_page_evolves s1 va _ (ts_user _ Ht1) Hr1 Hpv Hl1) as Hgive. cbn [r_flags] in Hgive.
  destruct (give_page va flags s1) as [[[]|e| |] s2]; [|done| |done].
  2: { destruct Hsplit as (s3 & -> & ->). done. }
  destruct Hsplit as (pa & ->). destruct Hgive as (Hev & Hleaf & Hsame & Hpriv). rewrite <-(ev_mm _ _ _ Hev).
  replace (mkSpace (mm s2) (km s2)) with s2 by (by destruct s2).
  assert (Hra : ∀ a, region_at s2 a = region_at s1 a) by (intros a; unfold region_at; by rewrite (ev_mm _ _ _ Hev)).
  split; [|split; [|split; [|split; [done|split]]]].
  - eapply grows_to_trans; [exact Hg1|]. eapply grows_to_ext; [by apply evolves_grows|]. apply (gt_view _ _ _ Hg1).
  - intros a Ha. by rewrite Hra, Hreg1.
  - eexists. rewrite (ev_mm _ _ _ Hev). done.
  - intros a ra Hra0. destruct (gt_old _ _ _ Hg1 a ra Hra0) as [Hra1 _]. rewrite (Hsame a ra Hra1); [done|].
    intros Hpa. unfold region_at in Hno, Hra0. rewrite Hpa in Hra0. rewrite Hpv in Hno. congruence.
  - intros Hall a ra Hra2. rewrite Hra in Hra2. apply (Hpriv a ra Hra2).
    destruct (decide (page_of a = va)) as [|Hne]; [by left|right].
    destruct (region_at_range s1 a ra (ts_user _ Ht1) Hra2) as (_ & Ha & _).
    rewrite Hreg1, decide_False in Hra2 by (done || lia). exact (Hall a ra Hra2).
Qed.

(** A leaf that is rewritten in place. *)
Lemma leaf_rewrite_walk k root va t i e' : aspace k root →
  locate (mem k) root (path_of va Size4K) = Some (t, i, 0%nat) → is_leaf e' = true → entry_ok e' →
  let k' := set_mem (upd t i e' (mem k)) k in
  aspace k' root ∧ tables 3 (mem k') root = tables 3 (mem k) root ∧
  (∀ va', walk (mem k') root (path_of va' Size4K) =
     if decide (path_of va' Size4K = path_of va Size4K) then Some (e', 0%nat)
     else walk (mem k) root (path_of va' Size4K)) ∧
  ∀ x, x ∉ tables 3 (mem k) root → frame (mem k') x = frame (mem k) x.
Proof.
  intros Has Hl He' Hok'. pose proof Has as (_ & [Hs Hnd] & _). cbn zeta.
  destruct (leaf_rewrite k root va t i 0 e' Has Hl He' Hok') as (Has' & Ht & Hloc). cbn [mem set_mem] in *.
  destruct (locate_spec 3 _ root (path_of va Size4K) t i 0 Hs eq_refl (path_range va _) Hl) as (Hin & Hlen & Hi & _).
  split; [done|]. split; [done|]. split.
  - intros va'. rewrite !walk_locate, Hloc.
    destruct (locate (mem k) root (path_of va' Size4K)) as [[[t' j] n]|] eqn:Hl'; cbn [fmap option_fmap option_map].
    2:{ rewrite decide_False; [done|]. intros Hp. rewrite Hp, Hl in Hl'. discriminate. }
    destruct (locate_spec 3 _ root (path_of va' Size4K) t' j n Hs eq_refl (path_range va' _) Hl') as (_ & _ & Hj & _).
    rewrite entry_upd_if by (done || lia).
    destruct (decide (path_of va' Size4K = path_of va Size4K)) as [Hp|Hp].
    + rewrite Hp, Hl in Hl'. simplify_eq. by rewrite decide_True by done.
    + rewrite decide_False; [done|]. intros [-> ->]. apply Hp.
      symmetry. by apply (locate_inj 3 (mem k) root _ _ t i n); [..|apply path_range|apply path_range| |].
  - intros x Hx. apply frame_upd_ne. by intros ->.
Qed.

(** More permissions for the page of [va]: its leaf [e] becomes [e']. *)
Record regranted (s s' : Space) (va e e' : Z) : Prop := {
  rg_mm : mm s' = mm s;
  rg_fa : fa (km s') = fa (km s);
  rg_meta : meta (km s') = meta (km s);
  rg_space : aspace (km s') (root_pt (mm s));
  rg_tables : tables 3 (mem (km s')) (root_pt (mm s)) = tables 3 (mem (km s)) (root_pt (mm s));
  rg_leaf a : is_u64 a → va_ok a = true → leaf_of s' a = if decide (page_of a = va) then Some (e', 0%nat) else leaf_of s a;
  rg_frames x : x ∉ tables 3 (mem (km s)) (root_pt (mm s)) → frame (mem (km s')) x = frame (mem (km s)) x;
  rg_ppn : ppn_address e' = ppn_address e;
  rg_bits i : 0 ≤ i < 8 → Z.testbit e i = true → Z.testbit e' i = true;
}.

Section regrant.
Context (s s' : Space) (va e e' : Z) (r : VmRegion) (Ht : tspace s) (Hr : region_at s va = Some r).
Context (Hpv : page_of va = va) (Hl : leaf s va = Some (e, 0%nat)) (Hone : refs (meta (km s)) (ppn_address e) = 1).
Context (Hrg : regranted s s' va e e').
Let Hu := ts_user s Ht.
Let Hmm := rg_mm _ _ _ _ _ Hrg.

Lemma regrant_region a : region_at s' a = region_at s a.
Proof. unfold region_at. by rewrite Hmm. Qed.

Lemma regrant_leaf a ra : region_at s a = Some ra →
  leaf s' a = if decide (page_of a = va) then Some (e', 0%nat) else leaf s a.
Proof.
  intros Hra. destruct (region_at_range s a ra Hu Hra) as (_ & _ & Ha & Hok & _).
  rewrite <-!leaf_of_page by done. by apply Hrg.
Qed.

Lemma regrant_start ra : ra ∈ regions (mm s) →
  leaf s' (r_start ra) = if decide (r_start ra = va) then Some (e', 0%nat) else leaf s (r_start ra).
Proof. intros Hin. destruct (region_self s ra Hu Hin) as [H1 H2]. by rewrite (regrant_leaf _ _ H1), H2. Qed.

(** The old leaf has the same frame. *)
Lemma regrant_old a ra e1 n : region_at s a = Some ra → leaf s' a = Some (e1, n) →
  ∃ e0, leaf s a = Some (e0, n) ∧ ppn_address e0 = ppn_address e1 ∧
    (∀ i, 0 ≤ i < 8 → Z.testbit e0 i = true → Z.testbit e1 i = true) ∧ (e1 = e0 ∨ e0 = e ∧ e1 = e').
Proof.
  intros Hra. rewrite (regrant_leaf a ra Hra). destruct (decide (page_of a = va)) as [Hpa|].
  - intros Heq. injection Heq as H1 H2. subst e1 n. exists e. split; [unfold leaf in *; by rewrite Hpa, <-Hpv|].
    split; [by rewrite (rg_ppn _ _ _ _ _ Hrg)|]. split; [apply Hrg|by right].
  - intros ->. exists e1. by split_and!; [..|left].
Qed.

Lemma regrant_page ra e1 n : ra ∈ regions (mm s) → leaf s' (r_start ra) = Some (e1, n) →
  n = 0%nat ∧ page_frame (km s') (root_pt (mm s)) e1.
Proof.
  intros Hin Hl1. destruct (region_self s ra Hu Hin) as [H1 _].
  destruct (regrant_old _ _ _ _ H1 Hl1) as (e0 & Hl0 & Hp & Hb & Hor).
  destruct (us_mapped s Hu ra e0 n Hin Hl0) as [-> [K1 K2 K3 K4 K5 K6 [K7 K8] K9]]. split; [done|].
  pose proof (rg_fa _ _ _ _ _ Hrg) as Hfa. pose proof (rg_meta _ _ _ _ _ Hrg) as Hme.
  pose proof (rg_tables _ _ _ _ _ Hrg) as Htab. pose proof (rg_frames _ _ _ _ _ Hrg) as Hfr.
  split; rewrite <-?Hp, ?Hfa, ?Hme, ?Htab, ?Hfr by done; try done.
  - destruct Hor as [->|[-> ->]]; [done|]. by intros _.
  - split; by apply Hb.
  - by apply Hb.
Qed.

Lemma regrant_uspace : uspace s'.
Proof.
  destruct (us_meta s Hu) as [M1 M2]. split; rewrite ?Hmm; [apply Hrg| |apply Hu|apply Hu|apply regrant_page|].
  - split; rewrite (rg_meta _ _ _ _ _ Hrg); [done|]. by rewrite (rg_fa _ _ _ _ _ Hrg).
  - intros r1 r2 e1 e2 H1 H2 L1 L2 Hq. destruct (region_self s r1 Hu H1) as [R1 _], (region_self s r2 Hu H2) as [R2 _].
    destruct (regrant_old _ _ _ _ R1 L1) as (f1 & ? & ? & _), (regrant_old _ _ _ _ R2 L2) as (f2 & ? & ? & _).
    apply (us_inj s Hu r1 r2 f1 f2); [done..|congruence].
Qed.

Lemma regrant_tspace : tspace s'.
Proof.
  apply (tspace_transfer s); rewrite ?Hmm; [done|apply regrant_uspace|done|done|apply Ht| |].
  - intros a Ha Hok Hno. rewrite (rg_leaf _ _ _ _ _ Hrg) by done. rewrite decide_False; [done|].
    intros Hpa. rewrite regrant_region in Hno. unfold region_at in *. rewrite Hpa, <-Hpv in Hno. congruence.
  - intros a ra e1 n Hra Hl1. destruct (region_at_range s' a ra regrant_uspace Hra) as (_ & _ & Ha & Hok & _).
    rewrite leaf_of_page in Hl1 by done. rewrite regrant_region in Hra.
    destruct (regrant_old _ _ _ _ Hra Hl1) as (e0 & Hl0 & _ & Hb & _). pose proof (leaf_rx s a ra e0 n Ht Hra Hl0) as Hx.
    unfold rx_flags in *. apply orb_true_iff in Hx as [Hx|Hx]; apply Hb in Hx; [|lia| |lia]; rewrite Hx; [done|apply orb_true_r].
Qed.

Lemma regrant_leaf_inv a ra e0 n : region_at s a = Some ra → leaf s a = Some (e0, n) →
  ∃ e1, leaf s' a = Some (e1, n) ∧ ppn_address e1 = ppn_address e0 ∧
    ∀ i, 0 ≤ i < 8 → Z.testbit e0 i = true → Z.testbit e1 i = true.
Proof.
  intros Hra Hl0. rewrite (regrant_leaf a ra Hra). destruct (decide (page_of a = va)) as [Hpa|]; [|by exists e0].
  exists e'. assert (leaf s a = leaf s va) as Heq by (unfold leaf; by rewrite Hpa, Hpv).
  rewrite Heq, Hl in Hl0. injection Hl0 as <- <-. split; [done|]. split; apply Hrg.
Qed.

Lemma regrant_none a ra : region_at s a = Some ra → leaf s a = None → leaf s' a = None.
Proof.
  intros Hra Hn. rewrite (regrant_leaf a ra Hra), decide_False; [done|]. intros Hpa.
  unfold leaf in *. rewrite Hpa, <-Hpv in Hn. congruence.
Qed.

Lemma regrant_view a : view s' a = view s a.
Proof.
  unfold view. rewrite regrant_region. destruct (region_at s a) as [ra|] eqn:Hra; [|done].
  destruct (leaf s a) as [[e0 n]|] eqn:Hl0; [|by rewrite (regrant_none a ra)].
  destruct (regrant_leaf_inv a ra e0 n Hra Hl0) as (e1 & -> & -> & _).
  destruct (region_at_range s a ra Hu Hra) as (_ & _ & _ & _ & _ & _ & Hin & Hst & _).
  destruct (us_mapped s Hu ra e0 n Hin) as [_ [Hok _ Hnt _ _ _ _ _]]; [by rewrite (leaf_region s a ra)|].
  f_equal. apply page_byte; [by apply Hrg|apply Hok|]. apply Z.mod_pos_bound. lia.
Qed.

Lemma regrant_grows : grows_to s s' (view s).
Proof.
  split; [apply regrant_tspace|by rewrite Hmm|apply regrant_view| |].
  - intros a ra Hra. split; [by rewrite regrant_region|].
    unfold can_write, can_read, can_exec. rewrite regrant_region, Hra.
    destruct (leaf s a) as [[e0 n]|] eqn:Hl0; [|by rewrite (regrant_none a ra)].
    destruct (regrant_leaf_inv a ra e0 n Hra Hl0) as (e1 & -> & _ & Hb). split_and!; [by apply Hb| |by apply Hb].
    intros [H1 H2]%andb_true_iff. apply andb_true_iff. split; [by apply Hb|].
    apply orb_true_iff in H2 as [H2|H2]; [by rewrite (Hb 2)|by rewrite H2, orb_true_r].
  - intros x (Hx1 & Hx2 & Hx3). split; [|by apply Hrg]. split; [by rewrite (rg_fa _ _ _ _ _ Hrg)|].
    rewrite Hmm, (rg_tables _ _ _ _ _ Hrg), (rg_meta _ _ _ _ _ Hrg). split; [done|]. intros ra e1 n Hin Hl1 Hx.
    destruct (region_self s ra Hu Hin) as [H1 _]. destruct (regrant_old _ _ _ _ H1 Hl1) as (e0 & Hl0 & Hp & _).
    apply (Hx3 ra e0 n); [done..|congruence].
Qed.

Lemma regrant_private : all_private s → all_private s'.
Proof.
  intros Hall a ra Hra. rewrite regrant_region in Hra. destruct (Hall a ra Hra) as (e0 & Hl0 & H1).
  destruct (regrant_leaf_inv a ra e0 0 Hra Hl0) as (e1 & Hl1 & Hp & _). exists e1. split; [done|].
  by rewrite Hp, (rg_meta _ _ _ _ _ Hrg).
Qed.
End regrant.

(** [remap_page] on a page that nobody shares. *)
Lemma remap_page_spec s va flags r : tspace s → region_at s va = Some r → page_of va = va →
  private s va → 0 ≤ flags < 256 →
  ∃ s', remap_page va flags s = (Ok tt, s') ∧ mm s' = mm s ∧ grows_to s s' (view s) ∧
    (all_private s → all_private s') ∧ (∃ e, leaf s' va = Some (e, 0%nat) ∧ Z.land e flags = flags) ∧
    ∀ a ra, region_at s a = Some ra → page_of a ≠ va → leaf s' a = leaf s a.
Proof.
  intros Ht Hr Hpv (e & Hl & Hone) Hfl. pose proof (ts_user s Ht) as Hu. pose proof (us_space s Hu) as Has.
  pose proof Has as (_ & [Hs _] & _). destruct (region_at_range s va r Hu Hr) as (_ & _ & Hv & Hvok & _).
  destruct (root_mapped _ _ Has) as (H1 & H2 & _). unfold remap_page, bind, gets, lift. cbn [id]. rewrite H1, H2.
  unfold va_from_raw_unchecked. rewrite Hvok. unfold kmem, zoom, remap_vm. rewrite remap_locate by (done || by right).
  pose proof Hl as Hw. unfold leaf in Hw. rewrite Hpv, walk_locate in Hw.
  destruct (locate _ _ (path_of va Size4K)) as [[[t i] k]|] eqn:Hloc; [|done].
  cbn [fmap option_fmap option_map] in Hw. injection Hw as He ->.
  destruct (locate_spec 3 _ _ (path_of va Size4K) t i 0 Hs eq_refl (path_range _ _) Hloc) as (_ & Hlen & Hi & Hleaf & Hok & _).
  rewrite map_leaf_existing by done. rewrite He in *. set (fl := Z.lor _ PTE_D).
  destruct (set_flags_leaf e flags Hleaf Hok Hfl) as (Hleaf' & Hok' & Hppn). fold fl in Hleaf', Hok', Hppn.
  destruct (leaf_rewrite_walk (km s) (root_pt (mm s)) va t i (set_flags e fl) Has Hloc Hleaf' Hok') as (Has' & Htab & Hwalk & Hfr).
  set (k' := set_mem _ (km s)) in *. eexists. split; [done|].
  assert (regranted s (set_km k' s) va e (set_flags e fl)) as Hrg.
  { split; try done.
    - intros a Ha Haok. unfold leaf_of. cbn [km mm set_km]. rewrite Hwalk.
      pose proof (path_of_page a va Ha Hv Haok Hvok) as Hpp.
      assert (a / 4096 = va / 4096 ↔ page_of a = va) as Hdiv
        by (rewrite <-Hpv at 2; unfold page_of; Z.div_mod_to_equations; lia).
      rewrite Hdiv in Hpp. destruct (decide (page_of a = va)); [by rewrite decide_True by (by apply Hpp)|].
      by rewrite decide_False by (by rewrite Hpp).
    - intros j Hj Hb. unfold set_flags. by rewrite Z.lor_spec, Hb. }
  split; [done|]. split; [by eapply regrant_grows|]. split; [by eapply regrant_private|].
  split.
  2: { intros a ra Hra Hne. by rewrite (regrant_leaf s _ va e _ Ht Hrg a ra Hra), decide_False. }
  exists (set_flags e fl). split; [by rewrite (regrant_leaf s _ va e _ Ht Hrg va r Hr), decide_True|].
  unfold set_flags, fl. apply Z.bits_inj'. intros n Hn. rewrite Z.land_spec, !Z.lor_spec.
  by destruct (Z.testbit flags n); rewrite ?andb_false_r, ?orb_true_r.
Qed.

End allocate.

(** ** New spaces *)

Lemma kernel_only_unmapped k root va : kernel_only k root → is_u64 va → va_ok va = true →
  va < KERNEL_DIRECT_MAPPING_BASE → walk (mem k) root (path_of va Size4K) = None.
Proof.
  intros Hko Hva Hok Hlt. apply va_ok_spec in Hok; [|done]. destruct Hva as [H0 _].
  destruct (decide (va < 2 ^ 38)); [by apply kernel_only_low|]. destruct Hok as [?|Hok]; [done|].
  cbn [path_of walk]. destruct (vpn_div va) as (Hv & _). rewrite (ko_user _ _ Hko (vpn_2 va)); [done|]. rewrite Hv.
  change (2 ^ 30) with 1073741824. change (2 ^ 64) with 18446744073709551616 in Hok.
  change (2 ^ 38) with 274877906944 in *. unfold KERNEL_DIRECT_MAPPING_BASE in Hlt. Z.div_mod_to_equations; lia.
Qed.

(** [MemoryManager::new] makes a space in which only the kernel is mapped. *)
Lemma mm_new_tspace `{BF : Bitflags, HBF : !BitflagsOk BF} k : kwf k → meta_ok k →
  match mm_new k with
  | (Ok m, k') => m = mkMm (root_pt m) [] (mkStack 0 0 0) 0 0 ∧ tspace (mkSpace m k') ∧
      (∀ x, held (fa k') x ↔ x = root_pt m ∨ held (fa k) x) ∧ ¬ held (fa k) (root_pt m) ∧
      (∀ x, x ≠ root_pt m → frame (mem k') x = frame (mem k) x) ∧ meta k' = meta k ∧
      ∀ x, held (fa k) x → foreign (mkSpace m k') x
  | (Panic, k') => full (fa k')
  | _ => False
  end.
Proof.
  intros Hk [Hw Hm]. pose proof (mm_new_spec k Hk) as H. destruct (mm_new k) as [[m|e| |] k']; [|done..].
  destruct H as (Heq & Hko & Hnh & Hh & Hf & Hmeta). assert (Hrs : regions m = []) by (by rewrite Heq).
  split_and!; [done| |done|done|done|done|].
  2: { intros x Hx. split; [apply Hh; by right|]. cbn [mm km]. rewrite (ko_tables _ _ Hko), Hrs.
       split; [by intros ->%list_elem_of_singleton|by intros ? ? ? ?%not_elem_of_nil]. }
  split; cbn [mm km]; rewrite ?Hrs.
  - split; cbn [mm km]; rewrite ?Hrs; [apply Hko| |exact (conj (Sorted.SSorted_nil _) (Forall_nil_2 _))|done|by intros ? ? ? ?%not_elem_of_nil|by intros ? ? ? ? ?%not_elem_of_nil].
    split; [by rewrite Hmeta|]. intros x Hx. rewrite Hmeta. apply Hm. intros Hx'. apply Hx, Hh. by right.
  - apply Hko.
  - intros va e i Hva Hok Hlt. unfold leaf_of. cbn [mm km]. by rewrite (kernel_only_unmapped _ _ _ Hko Hva Hok Hlt).
  - done.
Qed.

(** ** Changes elsewhere *)

(** Whatever happens in frames that were not in use leaves a space as it was. *)
Lemma owns_held s x : uspace s → owns s x → held (fa (km s)) x.
Proof.
  intros Hu [Hx|(r & e & n & Hr & Hle & <-)].
  - pose proof (us_space _ Hu) as (_ & _ & Hown). by apply Hown.
  - by destruct (us_mapped _ Hu r e n Hr Hle) as [_ []].
Qed.

Section kept.
Context (s : Space) (k' : Kmem) (Hu : uspace s) (Hk : kwf k') (Hmeta : meta k' = meta (km s)).
Context (Hheld : ∀ x, held (fa (km s)) x → held (fa k') x).
Context (Hkeep : ∀ x, owns s x → frame (mem k') x = frame (mem (km s)) x).
Let s' := mkSpace (mm s) k'.

Lemma kept_owned x : x ∈ tables 3 (mem (km s)) (root_pt (mm s)) → frame (mem k') x = frame (mem (km s)) x.
Proof. intros Hx. apply Hkeep. by left. Qed.

Lemma kept_tables : aspace k' (root_pt (mm s)) ∧
  tables 3 (mem k') (root_pt (mm s)) = tables 3 (mem (km s)) (root_pt (mm s)) ∧ ∀ a, leaf s' a = leaf s a.
Proof.
  pose proof (us_space _ Hu) as Has. pose proof Has as (_ & [Hs _] & Hown).
  destruct (aspace_keep (km s) k' (root_pt (mm s)) Has Hk) as (Has' & Htab & _); [by auto using kept_owned|].
  split; [done|]. split; [done|]. intros a. unfold leaf. apply (walk_frame 3); [done|apply path_range|done|]. apply kept_owned.
Qed.

Lemma kept_leaf_of a : leaf_of s' a = leaf_of s a.
Proof.
  pose proof (us_space _ Hu) as (_ & [Hs _] & Hown). unfold leaf_of.
  apply (walk_frame 3); [done|apply path_range|done|]. apply kept_owned.
Qed.

Lemma kept_page r e n : r ∈ regions (mm s) → leaf s (r_start r) = Some (e, n) → frame (mem k') (ppn_address e) = frame (mem (km s)) (ppn_address e).
Proof. intros Hr Hl. apply Hkeep. right. by exists r, e, n. Qed.

Lemma kept_user : uspace s'.
Proof.
  destruct kept_tables as (Has & Htab & Hl). destruct (us_meta _ Hu) as [Hw Hz].
  split; cbn [mm km s']; [done| |apply Hu|apply Hu| |].
  - split; rewrite Hmeta; [done|]. intros x Hx. apply Hz. by intros ?%Hheld.
  - intros r e n Hr. fold s'. rewrite Hl. intros Hle. pose proof (kept_page r e n Hr Hle) as Hp.
    destruct (us_mapped _ Hu r e n Hr Hle) as [-> [H1 H2 H3 H4 H5 H6 H7 H8]].
    split; [done|]. split; rewrite ?Htab, ?Hmeta; auto. by rewrite Hp.
  - intros r r' e e' Hr Hr'. fold s'. rewrite !Hl. by apply (us_inj _ Hu).
Qed.

Lemma kept_view a : view s' a = view s a.
Proof.
  destruct kept_tables as (_ & _ & Hl). unfold view. change (region_at s' a) with (region_at s a).
  destruct (region_at s a) as [r|] eqn:Hr; [|done]. rewrite Hl. destruct (leaf s a) as [[e n]|] eqn:Hle; [|done].
  destruct (region_at_range s a r Hu Hr) as (_ & _ & _ & _ & _ & _ & Hrin & _).
  assert (Hle' : leaf s (r_start r) = Some (e, n)) by (by rewrite (leaf_region s a r)).
  destruct (us_mapped _ Hu r e n Hrin Hle') as [-> [(_ & Hm & _) Hh _ _ _ _ _ _]].
  f_equal. apply page_byte; [by eapply kept_page|done|]. apply Z.mod_pos_bound. lia.
Qed.

Lemma kept_can a : can_read s' a = can_read s a ∧ can_write s' a = can_write s a ∧ can_exec s' a = can_exec s a.
Proof. destruct kept_tables as (_ & _ & Hl). unfold can_write, can_read, can_exec. by rewrite !Hl. Qed.

Lemma kept_owns x : owns s' x ↔ owns s x.
Proof.
  destruct kept_tables as (_ & Htab & Hl). unfold owns. cbn [mm km s']. rewrite Htab.
  split; (intros [Hx|(r & e & n & Hr & Hle & Hp)]; [by left|right; exists r, e, n; split; [done|split; [|done]]]).
  - by rewrite <-Hl.
  - fold s'. by rewrite Hl.
Qed.

Lemma kept_foreign x : foreign s x → foreign s' x.
Proof.
  destruct kept_tables as (_ & Htab & Hl). intros (Hx1 & Hx2 & Hx3). split; [by apply Hheld|]. cbn [km mm s']. rewrite Htab.
  split; [done|]. intros r e n Hr. fold s'. rewrite Hl. intros Hle Hp. cbn [km s']. rewrite Hmeta. by apply (Hx3 r e n).
Qed.

Lemma kept_grows : tspace s → (∀ x, held (fa (km s)) x → frame (mem k') x = frame (mem (km s)) x) → grows_to s s' (view s).
Proof.
  intros Ht Hall. split; [|done|apply kept_view| |].
  - apply (tspace_transfer s); try done; [apply kept_user|apply Ht|intros va _ _ _; apply kept_leaf_of|].
    intros va r e n Hr. rewrite kept_leaf_of. intros Hle. destruct (region_at_range s va r Hu Hr) as (_ & _ & Hva & Hok & _).
    rewrite leaf_of_page in Hle by done. by eapply leaf_rx.
  - intros a r Hr. split; [done|]. destruct (kept_can a) as (-> & -> & ->). done.
  - intros x Hx. split; [by apply kept_foreign|]. by apply Hall, Hx.
Qed.
End kept.
