(* ===== verification/Elf.v ===== *)
(** * Executables

    [kernel/src/exec/elf.rs]: reading the headers of an ELF file through the
    VFS, and loading its segments into a new address space.

    The [elf] crate is a class: its parsers of the identification, of the rest
    of the file header and of a program header, and the ranges of the fields
    they give.  The constants are those of the ELF specification. *)

From S2P Require Import Prelude Errors Vfs Addr Sv39 FrameAllocator PageMeta PageTable PageMap PageFork MemMgr MemFault UserMem UserView ForkView KernelMap TaskSpace.

(** ** The crate *)

Definition EI_NIDENT : Z := 16.
Definition ELF64_EHDR_TAILSIZE : Z := 48.
Definition PN_XNUM : Z := 0xffff.
Definition ET_EXEC : Z := 2.
Definition PT_LOAD : Z := 1.
Definition PF_X : Z := 1.
Definition PF_W : Z := 2.
Definition PF_R : Z := 4.

(** [elf::file::FileHeader] and [elf::segment::ProgramHeader], the fields the
    kernel reads. *)
Record FileHeader (C : Type) := mkFileHeader {
  class : C; e_type : Z; e_entry : Z; e_phoff : Z; e_phentsize : Z; e_phnum : Z;
}.
Arguments class {C} _.
Arguments e_type {C} _.
Arguments e_entry {C} _.
Arguments e_phoff {C} _.
Arguments e_phentsize {C} _.
Arguments e_phnum {C} _.
Arguments mkFileHeader {C} _ _ _ _ _ _.

Record ProgramHeader := mkProgramHeader {
  p_type : Z; p_flags : Z; p_offset : Z; p_vaddr : Z; p_filesz : Z; p_memsz : Z;
}.

Class ElfCrate := {
  ElfClass : Type;
  Ident : Type;
  parse_ident : list Z → option Ident;
  parse_tail : Ident → list Z → option (FileHeader ElfClass);
  parse_at : ElfClass → Z → list Z → option ProgramHeader;
}.

Class ElfCrateOk (EC : ElfCrate) : Prop := {
  parse_tail_ok i bs h : parse_tail i bs = Some h →
    in_width 16 (e_type h) ∧ is_u64 (e_entry h) ∧ is_u64 (e_phoff h) ∧
    in_width 16 (e_phentsize h) ∧ in_width 16 (e_phnum h);
  parse_at_ok c o bs ph : parse_at c o bs = Some ph →
    is_u32 (p_type ph) ∧ is_u32 (p_flags ph) ∧ is_u64 (p_offset ph) ∧ is_u64 (p_vaddr ph) ∧
    is_u64 (p_filesz ph) ∧ is_u64 (p_memsz ph);
}.

(** ** Errors *)

Inductive ElfError :=
| Unsupported | SizeOverflow | NoProgramHeadersFound | InvalidProgramHeader | InvalidVirtualAddress | Parse.

(** [impl IntoError for Error], and [From<T> for error::Error]. *)
Definition elf_to_errno (e : ElfError) : Errno :=
  match e with
  | SizeOverflow => EOverflow
  | Unsupported | NoProgramHeadersFound | InvalidProgramHeader | InvalidVirtualAddress | Parse => ENoExec
  end.
Definition error_of_elf (e : ElfError) : Error := EErrno (elf_to_errno e).

(** ** Model *)

Section elf.
Context {S N : Type} `{HV : VNode S N} `{EC : ElfCrate} `{BF : Bitflags}.

(** What a load works on: the filesystems, and the new address space. *)
Record Load := mkLoad { l_fs : S; l_sp : Space }.

Abbreviation LM := (M Load Error).

(** A call into the VFS, with [?] on its result, and one into the memory manager. *)
Definition vfs_op {A} (op : M S VfsError A) : LM A := fun s =>
  match op (l_fs s) with
  | (Ok a, f) => (Ok a, mkLoad f (l_sp s))
  | (Err e, f) => (Err (error_of_vfs e), mkLoad f (l_sp s))
  | (Panic, f) => (Panic, mkLoad f (l_sp s))
  | (Diverge, f) => (Diverge, mkLoad f (l_sp s))
  end.
Definition mm_op {A} (op : MM A) : LM A := zoom l_sp (λ sp s, mkLoad (l_fs s) sp) op.

(** The loop of [read_exact_at]: the bytes still to read are [len]. *)
Fixpoint read_exact_loop (fuel : nat) (exec : File N) (len : Z) : LM (list Z * File N) :=
  if negb (0 <? len) then ret ([], exec) else
  match fuel with
  | O => diverge
  | Datatypes.S fuel' =>
      let! (bs, exec') := vfs_op (file_read exec len) in
      if Z.of_nat (length bs) =? 0 then fail (error_of_vfs Fs) else
      let! (bs', exec'') := read_exact_loop fuel' exec' (len - Z.of_nat (length bs)) in
      ret (bs ++ bs', exec'')
  end.

(** [read_exact_at]: the bytes of the buffer, and the file after it. *)
Definition read_exact_at (exec : File N) (offset len : Z) : LM (list Z * File N) :=
  let! exec' := vfs_op (file_seek exec (Start offset)) in
  read_exact_loop (Z.to_nat len) exec' len.

(** [Elf::read_elf_header]. *)
Definition read_elf_header (file : File N) : LM (FileHeader ElfClass * File N) :=
  let! (ident_buf, file) := read_exact_at file 0 EI_NIDENT in
  let! ident := lift (ok_or (parse_ident ident_buf) (error_of_vfs Fs)) in
  let! (tail_buf, file) := read_exact_at file EI_NIDENT ELF64_EHDR_TAILSIZE in
  let! header := lift (ok_or (parse_tail ident tail_buf) (error_of_vfs Fs)) in
  ret (header, file).

(** The loop of [read_program_headers]. *)
Fixpoint parse_program_headers (header : FileHeader ElfClass) (ph_buf : list Z) (idxs : list Z)
    : outcome Error (list ProgramHeader) :=
  match idxs with
  | [] => Ok []
  | i :: idxs' =>
      let? off := mul_ov 16 i (e_phentsize header) in
      let? ph := ok_or (parse_at (class header) off ph_buf) (error_of_elf Parse) in
      if p_memsz ph <? p_filesz ph then Err (error_of_elf InvalidProgramHeader) else
      let? phs := parse_program_headers header ph_buf idxs' in
      Ok (ph :: phs)
  end.

(** The checks before it: the size of the table. *)
Definition program_headers_size (header : FileHeader ElfClass) : outcome Error Z :=
  if (e_phoff header =? 0) || (e_phnum header =? 0) then Err (error_of_elf NoProgramHeadersFound) else
  if e_phnum header =? PN_XNUM then Err (error_of_elf Unsupported) else
  ok_or (checked_mul 16 (e_phentsize header) (e_phnum header)) (error_of_elf SizeOverflow).

(** [Elf::read_program_headers]. *)
Definition read_program_headers (file : File N) (header : FileHeader ElfClass)
    : LM (list ProgramHeader * File N) :=
  let! ph_size := lift (program_headers_size header) in
  let! (ph_buf, file) := read_exact_at file (e_phoff header) ph_size in
  let! phdrs := lift (parse_program_headers header ph_buf (seqZ 0 (e_phnum header))) in
  ret (phdrs, file).

(** [Elf::load_from_file]; [open] is [crate::vfs::open]. *)
Definition load_from_file (open : list Z → M S VfsError (File N)) (path : list Z)
    : LM (File N * FileHeader ElfClass * list ProgramHeader) :=
  let! file := vfs_op (open path) in
  let! (header, file) := read_elf_header file in
  if negb (e_type header =? ET_EXEC) then fail (error_of_elf Unsupported) else
  let! (program_headers, file) := read_program_headers file header in
  ret (file, header, program_headers).

(** [convert_elf_flag_to_pte]. *)
Definition convert_elf_flag_to_pte (elf_flag : Z) : Z :=
  let flags := PTE_U in
  let flags := if negb (Z.land elf_flag PF_R =? 0) then bf_bitor flags PTE_R else flags in
  let flags := if negb (Z.land elf_flag PF_W =? 0) then bf_bitor flags PTE_W else flags in
  if negb (Z.land elf_flag PF_X =? 0) then bf_bitor flags PTE_X else flags.

(** The loop of [load_executable] over the pages of a segment; [mapped_pages]
    has the flags of the pages mapped so far. *)
Fixpoint map_segment (fuel : nat) (va end_ flags : Z) (mapped_pages : gmap Z Z) : LM (gmap Z Z) :=
  if negb (va <? end_) then ret mapped_pages else
  match fuel with
  | O => diverge
  | Datatypes.S fuel' =>
      let! mapped_pages :=
        match mapped_pages !! va with
        | None => mm_op (map_allocate_page va flags) ;;; ret (<[va := flags]> mapped_pages)
        | Some old =>
            let new_flags := bf_bitor old flags in
            mm_op (remap_page va new_flags) ;;; ret (<[va := new_flags]> mapped_pages)
        end in
      let! next := lift (ok_or (offset_by va PAGE_SIZE) Overflow) in
      map_segment fuel' next end_ flags mapped_pages
  end.

(** [ptr::copy_nonoverlapping] of bytes to a physical address. *)
Fixpoint set_bytes (pa : Z) (bs : list Z) (m : gmap Z (list Z)) : gmap Z (list Z) :=
  match bs with
  | [] => m
  | b :: bs' => set_bytes (pa + 1) bs' (set_byte pa b m)
  end.
Definition poke (pa : Z) (bs : list Z) : MM unit :=
  modify (λ s, set_km (set_mem (set_bytes pa bs (mem (km s))) (km s)) s).

(** The loop of [load_executable] over the bytes of a segment. *)
Fixpoint copy_segment (fuel : nat) (file : File N) (ph : ProgramHeader) (copied : Z) : LM (File N) :=
  if negb (copied <? p_filesz ph) then ret file else
  match fuel with
  | O => diverge
  | Datatypes.S fuel' =>
      let! copy_vaddr := lift (ok_or (checked_add 64 (p_vaddr ph) copied) (error_of_elf SizeOverflow)) in
      let page_va := align_down copy_vaddr PAGE_SIZE in
      let page_offset := copy_vaddr - page_va in
      let! found := mm_op (mm_translate page_va) in
      let! page_pa := lift (unwrap found) in
      let copy_len := Z.min (PAGE_SIZE - page_offset) (p_filesz ph - copied) in
      let! off := lift (add_ov 64 (p_offset ph) copied) in
      let! (buf, file) := read_exact_at file off copy_len in
      let! ptr := lift (phys_to_virt page_pa) in
      let! ptr := lift (add_ov 64 ptr page_offset) in
      mm_op (poke (page_pa + page_offset) buf) ;;;
      copy_segment fuel' file ph (copied + copy_len)
  end.

(** The body of [load_executable]'s loop over the program headers. *)
Definition load_segment (file : File N) (ph : ProgramHeader) (mapped_pages : gmap Z Z) (max_end : Z)
    : LM (File N * gmap Z Z * Z) :=
  if negb (p_type ph =? PT_LOAD) then ret (file, mapped_pages, max_end) else
  let! file_end := lift (ok_or (checked_add 64 (p_offset ph) (p_filesz ph)) (error_of_elf SizeOverflow)) in
  let! sz := vfs_op (vn_sz (inode file)) in
  if sz <? file_end then fail (error_of_elf InvalidProgramHeader) else
  let aligned_vaddr := align_down (p_vaddr ph) PAGE_SIZE in
  let! vaddr_end := lift (ok_or (offset_by (p_vaddr ph) (as_isize (p_memsz ph))) Overflow) in
  let! aligned_vaddr_end := lift (align_up vaddr_end PAGE_SIZE) in
  let max_end := Z.max max_end aligned_vaddr_end in
  let flags := convert_elf_flag_to_pte (p_flags ph) in
  let! mapped_pages :=
    map_segment (Z.to_nat ((aligned_vaddr_end - aligned_vaddr) / PAGE_SIZE + 1)) aligned_vaddr aligned_vaddr_end
      flags mapped_pages in
  let! file := copy_segment (Z.to_nat (p_filesz ph / PAGE_SIZE + 2)) file ph 0 in
  ret (file, mapped_pages, max_end).

Fixpoint load_segments (file : File N) (phs : list ProgramHeader) (mapped_pages : gmap Z Z) (max_end : Z) : LM Z :=
  match phs with
  | [] => ret max_end
  | ph :: phs' =>
      let! (file, mapped_pages, max_end) := load_segment file ph mapped_pages max_end in
      load_segments file phs' mapped_pages max_end
  end.

(** [load_executable]. *)
Definition load_executable (open : list Z → M S VfsError (File N)) (path : list Z) : LM Z :=
  let! (file, header, program_headers) := load_from_file open path in
  let! max_aligned_vaddr_end := load_segments file program_headers ∅ 0 in
  mm_op (set_initial_brk max_aligned_vaddr_end) ;;;
  ret (e_entry header).
End elf.
