(* ===== verification/ElfLoad.v ===== *)
(** * Loading executables

    What [kernel/src/exec/elf.rs] computes, over any filesystem that meets the
    contract of the VFS: the headers are a function of the file's bytes, and the
    address space gets the bytes and the permissions its segments ask for. *)

From S2P Require Import Prelude Errors Vfs Addr Sv39 FrameAllocator PageMeta PageTable PageMap PageFork MemMgr MemFault UserMem UserView ForkView KernelMap TaskSpace Elf.

(** ** Parsing as a function of the bytes *)

(** [len] bytes from [off], or what [read_exact_at] reports. *)
Definition slice_exact (data : list Z) (off len : Z) : outcome Error (list Z) :=
  if Z.of_nat (length data) <? off then Err (error_of_vfs OutOfBounds) else
  if Z.of_nat (length data) <? off + len then Err (error_of_vfs Fs) else
  Ok (take (Z.to_nat len) (drop (Z.to_nat off) data)).

Section elf.
Context {S N : Type} `{HV : VNode S N} `{HO : !VNodeOk S N} `{EC : ElfCrate} `{HEC : !ElfCrateOk EC}.

Definition parse_elf (data : list Z) : outcome Error (FileHeader ElfClass * list ProgramHeader) :=
  let? ident_buf := slice_exact data 0 EI_NIDENT in
  let? ident := ok_or (parse_ident ident_buf) (error_of_vfs Fs) in
  let? tail_buf := slice_exact data EI_NIDENT ELF64_EHDR_TAILSIZE in
  let? header := ok_or (parse_tail ident tail_buf) (error_of_vfs Fs) in
  if negb (e_type header =? ET_EXEC) then Err (error_of_elf Unsupported) else
  let? ph_size := program_headers_size header in
  let? ph_buf := slice_exact data (e_phoff header) ph_size in
  let? phs := parse_program_headers header ph_buf (seqZ 0 (e_phnum header)) in
  Ok (header, phs).

(** The offsets of the program headers are in the range the size was checked for. *)
Lemma program_headers_total h bs idxs sz : in_width 16 (e_phentsize h) →
  program_headers_size h = Ok sz → Forall (λ i, 0 ≤ i < e_phnum h) idxs →
  ∃ r, parse_program_headers h bs idxs = match r with inl phs => Ok phs | inr e => Err e end.
Proof.
  intros [Hw _] Hsz Hf. assert (e_phentsize h * e_phnum h < 2 ^ 16) as Hlt.
  { unfold program_headers_size, checked_mul in Hsz. repeat (case_match; [done|]). by destruct (Z.ltb_spec (e_phentsize h * e_phnum h) (2 ^ 16)). }
  induction Hf as [|i idxs Hi _ [r IH]]; cbn [parse_program_headers]; [by exists (inl [])|].
  unfold mul_ov, checked_mul. rewrite (proj2 (Z.ltb_lt _ _)) by nia. cbn [unwrap obind].
  destruct (parse_at _ _ _) as [ph|]; [|by eexists (inr _)]. cbn [ok_or obind].
  destruct (_ <? _); [by eexists (inr _)|]. rewrite IH. destruct r; [by eexists (inl _)|by eexists (inr _)].
Qed.

(** Parsing ends, with headers or an error. *)
Lemma parse_elf_total data : parse_elf data ≠ Panic ∧ parse_elf data ≠ Diverge.
Proof.
  assert (Hsl : ∀ off len, ∃ r, slice_exact data off len = match r with inl x => Ok x | inr e => Err e end).
  { intros. unfold slice_exact. repeat destruct (_ <? _); first [by eexists (inr _)|by eexists (inl _)]. }
  unfold parse_elf. destruct (Hsl 0 EI_NIDENT) as [[ib|e] ->]; [|done]. cbn [obind].
  destruct (parse_ident ib) as [i|]; [|done]. cbn [ok_or obind].
  destruct (Hsl EI_NIDENT ELF64_EHDR_TAILSIZE) as [[tb|e] ->]; [|done]. cbn [obind].
  destruct (parse_tail i tb) as [h|] eqn:Hh; [|done]. cbn [ok_or obind]. destruct (negb _); [done|].
  destruct (parse_tail_ok _ _ _ Hh) as (_ & _ & _ & Hes & _).
  destruct (program_headers_size h) as [sz|e| |] eqn:Hsz; [|done|..].
  2,3: unfold program_headers_size in Hsz; repeat (case_match; [done|]); by destruct (checked_mul _ _ _).
  cbn [obind]. destruct (Hsl (e_phoff h) sz) as [[pb|e] ->]; [|done]. cbn [obind].
  destruct (program_headers_total h pb (seqZ 0 (e_phnum h)) sz Hes Hsz) as [[phs|e] ->]; [|done|done].
  apply Forall_forall. intros x Hx%elem_of_seqZ. lia.
Qed.

(** ** Reading *)

Implicit Types (s : Load (S := S)) (f : File N).

Lemma seek_start s f off : regular (l_fs s) (inode f) → 0 ≤ off →
  ∃ fs', same_files (l_fs s) fs' ∧ vfs_op (file_seek f (Start off)) s =
    (if Z.of_nat (length (content (l_fs s) (inode f))) <? off then Err (error_of_vfs OutOfBounds)
     else Ok (mkFile (inode f) off), mkLoad fs' (l_sp s)).
Proof.
  intros Hr Ho. destruct (vn_sz_spec _ _ Hr) as (s1 & H1 & Hs1). destruct (same_files_spec _ _ _ Hs1 Hr) as [Hr1 Hc1].
  destruct (vn_sz_spec _ _ Hr1) as (s2 & H2 & Hs2). exists s2. split; [by eapply same_files_trans|].
  unfold vfs_op, file_seek. rewrite (bind_ok _ _ _ _ _ H1). unfold bind at 1, lift. cbn [ok_or].
  rewrite (bind_ok _ _ _ _ _ H2), Hc1. by destruct (_ <? off).
Qed.

Lemma read_once s f len : regular (l_fs s) (inode f) → 0 ≤ offset f ≤ Z.of_nat (length (content (l_fs s) (inode f))) → 0 ≤ len →
  let bs := take (Z.to_nat len) (drop (Z.to_nat (offset f)) (content (l_fs s) (inode f))) in
  ∃ fs', same_files (l_fs s) fs' ∧ vfs_op (file_read f len) s =
    (Ok (bs, mkFile (inode f) (offset f + Z.of_nat (length bs))), mkLoad fs' (l_sp s)).
Proof.
  intros Hr Ho Hl bs. destruct (vn_read_spec _ _ (offset f) len Hr) as (s1 & H1 & Hs1); [lia..|]. fold bs in H1.
  exists s1. split; [done|]. unfold vfs_op, file_read. rewrite (bind_ok _ _ _ _ _ H1).
  pose proof (content_len _ _ Hr) as Hlen. change (2 ^ 32) with 4294967296 in Hlen.
  assert (Z.of_nat (length bs) ≤ Z.of_nat (length (content (l_fs s) (inode f)))) by (unfold bs; rewrite length_take, length_drop; lia).
  unfold bind, lift, add_ov, checked_add. rewrite (proj2 (Z.ltb_lt _ _)) by (change (2 ^ 64) with 18446744073709551616; lia). done.
Qed.

Lemma read_exact_at_spec s f off len : regular (l_fs s) (inode f) → 0 ≤ off → 0 ≤ len →
  ∃ fs', same_files (l_fs s) fs' ∧ read_exact_at f off len s =
    (let? bs := slice_exact (content (l_fs s) (inode f)) off len in Ok (bs, mkFile (inode f) (off + len)),
     mkLoad fs' (l_sp s)).
Proof.
  intros Hr Ho Hl. destruct (seek_start s f off Hr Ho) as (s1 & Hs1 & Hsk). unfold read_exact_at.
  destruct (same_files_spec _ _ _ Hs1 Hr) as [Hr1 Hc1]. unfold slice_exact. unfold bind. rewrite Hsk.
  set (data := content (l_fs s) (inode f)) in *. destruct (Z.ltb_spec (Z.of_nat (length data)) off); [by exists s1|].
  destruct (decide (len = 0)) as [->|Hne].
  { exists s1. split; [done|]. rewrite (proj2 (Z.ltb_ge _ _)) by lia. cbn. by rewrite Z.add_0_r. }
  destruct (read_once (mkLoad s1 (l_sp s)) (mkFile (inode f) off) len Hr1) as (s2 & Hs2 & Hrd); [|done|].
  { cbn [offset inode l_fs]. rewrite Hc1. fold data. lia. }
  cbn [inode offset l_fs l_sp] in Hs2, Hrd. rewrite Hc1 in Hrd. fold data in Hrd.
  set (bs := take _ _) in *. assert (Hbs : length bs = (Z.to_nat len `min` (length data - Z.to_nat off))%nat)
    by (unfold bs; by rewrite length_take, length_drop).
  destruct (Z.to_nat len) as [|fuel] eqn:Hfu; [lia|]. cbn [read_exact_loop]. rewrite (proj2 (Z.ltb_lt 0 len)) by lia. cbn [negb].
  unfold bind at 1. rewrite Hrd. destruct (Z.eqb_spec (Z.of_nat (length bs)) 0) as [Hz|Hnz].
  { exists s2. rewrite (proj2 (Z.ltb_lt _ _)) by lia. split; [by eapply same_files_trans|done]. }
  destruct (Z.ltb_spec (Z.of_nat (length data)) (off + len)) as [Hlt|Hge].
  - destruct fuel as [|fuel]; [lia|]. cbn [read_exact_loop]. rewrite (proj2 (Z.ltb_lt 0 _)) by lia. cbn [negb].
    destruct (same_files_spec _ _ _ Hs2 Hr1) as [Hr2 Hc2]. cbn [inode] in Hc2.
    destruct (read_once (mkLoad s2 (l_sp s)) (mkFile (inode f) (off + Z.of_nat (length bs))) (len - Z.of_nat (length bs)) Hr2)
      as (s3 & Hs3 & Hrd3); [cbn [offset inode l_fs]; rewrite Hc2, Hc1; fold data; lia|lia|].
    cbn [inode offset l_fs l_sp] in Hs3, Hrd3. rewrite Hc2, Hc1 in Hrd3. fold data in Hrd3.
    rewrite (drop_ge data) in Hrd3 by lia. rewrite take_nil in Hrd3. unfold bind. rewrite Hrd3. cbn.
    exists s3. split; [by eapply same_files_trans, same_files_trans|done].
  - exists s2. split; [by eapply same_files_trans|]. unfold bind.
    assert (Z.of_nat (length bs) = len) as -> by lia.
    assert (read_exact_loop fuel (mkFile (inode f) (off + len)) (len - len) (mkLoad s2 (l_sp s)) =
      (Ok ([], mkFile (inode f) (off + len)), mkLoad s2 (l_sp s))) as -> by (rewrite Z.sub_diag; by destruct fuel).
    cbn. by rewrite app_nil_r.
Qed.

(** [load_from_file] on an open file. *)
Lemma load_from_file_spec open path s f fs1 : open path (l_fs s) = (Ok f, fs1) → regular fs1 (inode f) →
  ∃ fs' o, same_files fs1 fs' ∧ load_from_file open path s =
    (let? (h, phs) := parse_elf (content fs1 (inode f)) in Ok (mkFile (inode f) o, h, phs), mkLoad fs' (l_sp s)).
Proof.
  intros Hop Hr. unfold load_from_file, parse_elf. unfold bind at 1. unfold vfs_op at 1. rewrite Hop.
  set (data := content fs1 (inode f)). unfold read_elf_header.
  destruct (read_exact_at_spec (mkLoad fs1 (l_sp s)) f 0 EI_NIDENT Hr) as (s1 & Hs1 & H1); [done..|].
  cbn [l_fs l_sp] in *. destruct (same_files_spec _ _ _ Hs1 Hr) as [Hr1 Hc1]. fold data in H1.
  unfold bind at 1 2. rewrite H1. destruct (slice_exact data 0 EI_NIDENT) as [ib|e| |]; [|by exists s1, 0..]. cbn [obind].
  unfold bind at 1, lift at 1. destruct (parse_ident ib) as [ident|]; [|by exists s1, 0]. cbn [ok_or obind].
  destruct (read_exact_at_spec (mkLoad s1 (l_sp s)) (mkFile (inode f) (0 + EI_NIDENT)) EI_NIDENT ELF64_EHDR_TAILSIZE Hr1)
    as (s2 & Hs2 & H2); [done..|]. cbn [l_fs l_sp inode] in *. rewrite Hc1 in H2. fold data in H2.
  pose proof (same_files_trans _ _ _ Hs1 Hs2) as Hs12. destruct (same_files_spec _ _ _ Hs12 Hr) as [Hr2 Hc2].
  unfold bind at 1. rewrite H2. destruct (slice_exact data EI_NIDENT _) as [tb|e| |]; [|by exists s2, 0..]. cbn [obind].
  unfold bind at 1, lift at 1. destruct (parse_tail ident tb) as [h|] eqn:Hpt; [|by exists s2, 0]. cbn [ok_or obind].
  destruct (parse_tail_ok _ _ _ Hpt) as (_ & _ & [Hpo _] & [Hes _] & [Hpn _]). unfold ret at 1.
  destruct (negb (e_type h =? ET_EXEC)); [by exists s2, 0|].
  unfold read_program_headers. unfold bind at 1 2, lift at 1. destruct (program_headers_size h) as [sz|e| |] eqn:Hsz; [|by exists s2, 0..].
  cbn [obind]. assert (0 ≤ sz) as Hsz0.
  { unfold program_headers_size, checked_mul in Hsz. repeat (case_match; [done|]). destruct (_ <? _); [|done].
    injection Hsz as <-. lia. }
  destruct (read_exact_at_spec (mkLoad s2 (l_sp s)) (mkFile (inode f) (EI_NIDENT + ELF64_EHDR_TAILSIZE)) (e_phoff h) sz Hr2)
    as (s3 & Hs3 & H3); [done..|]. cbn [l_fs l_sp inode] in *. rewrite Hc2 in H3. fold data in H3.
  pose proof (same_files_trans _ _ _ Hs12 Hs3) as Hs13.
  unfold bind at 1. rewrite H3. destruct (slice_exact data (e_phoff h) sz) as [pb|e| |]; [|by exists s3, 0..]. cbn [obind].
  unfold bind at 1, lift at 1. destruct (parse_program_headers h pb _) as [phs|e| |]; [|by exists s3, 0..]. by eexists s3, _.
Qed.
End elf.

(** ** Pages *)

Definition only_regions (m m' : MemoryManager) : Prop := ∃ rs, m' = set_regions rs m.

Lemma only_regions_trans m m1 m2 : only_regions m m1 → only_regions m1 m2 → only_regions m m2.
Proof. intros [rs1 ->] [rs2 ->]. by exists rs2. Qed.

(** What the flags of a segment allow at [a]. *)
Definition grants (s : Space) (a flags : Z) : Prop :=
  (Z.testbit flags 1 = true → can_read s a = true) ∧ (Z.testbit flags 3 = true → can_exec s a = true) ∧
  (Z.testbit flags 1 = true → Z.testbit flags 2 = true → can_write s a = true).

Lemma grants_leaf s a r e flags : region_at s a = Some r → leaf s a = Some (e, 0%nat) → Z.land e flags = flags →
  grants s a flags.
Proof.
  intros Hr Hl He. assert (Hb : ∀ i, Z.testbit flags i = true → Z.testbit e i = true).
  { intros i Hi. rewrite <-He, Z.land_spec in Hi. by apply andb_true_iff in Hi as [? _]. }
  unfold grants, can_write, can_read, can_exec. rewrite Hr, Hl. split_and!; auto.
  intros H1 H2. by rewrite (Hb 1), (Hb 2).
Qed.

Lemma grants_grows s s' f a r flags : grows_to s s' f → region_at s a = Some r → grants s a flags → grants s' a flags.
Proof.
  intros Hg Hr (H1 & H2 & H3). destruct (gt_old _ _ _ Hg a r Hr) as (_ & ? & ? & ?). split_and!; auto.
Qed.

(** The address space while segments are loaded, with the pages mapped so far. *)
Record loaded (s : Space) (pages : gmap Z Z) : Prop := {
  ld_space : tspace s;
  ld_private : all_private s;
  ld_pages a : 0 ≤ a → is_Some (region_at s a) ↔ is_Some (pages !! page_of a);
  ld_keys va fl : pages !! va = Some fl → 0 ≤ va ∧ page_of va = va;
  ld_flags va fl : pages !! va = Some fl → 0 ≤ fl < 256 ∧
    ∃ e, leaf s va = Some (e, 0%nat) ∧ Z.land e fl = fl;
}.

(** The flags of a segment make a leaf for the user. *)
Definition segment_flags (flags : Z) : Prop :=
  leaf_flags flags ∧ Z.testbit flags 4 = true ∧ rx_flags flags = true.

Section pages.
Context {S N : Type} `{HV : VNode S N} `{BF : Bitflags} `{HBF : !BitflagsOk BF}.

(** The page [va] of a segment. *)
Definition map_segment_page (va flags : Z) (mapped_pages : gmap Z Z) : M (Load (S := S)) Error (gmap Z Z) :=
  match mapped_pages !! va with
  | None => mm_op (map_allocate_page va flags) ;;; ret (<[va := flags]> mapped_pages)
  | Some old =>
      let new_flags := bf_bitor old flags in
      mm_op (remap_page va new_flags) ;;; ret (<[va := new_flags]> mapped_pages)
  end.

Lemma lor_flags a b : 0 ≤ a < 256 → 0 ≤ b < 256 → 0 ≤ Z.lor a b < 256.
Proof.
  intros Ha Hb. assert (in_width 8 (Z.lor a b)) as H; [|exact H]. apply in_width_bits; [done|apply Z.lor_nonneg; lia|].
  intros i Hi. rewrite Z.lor_spec, !(testbit_high 8) by done. done.
Qed.

Lemma land_lor_l e a b : Z.land e (Z.lor a b) = Z.lor a b → Z.land e b = b.
Proof.
  intros H. apply Z.bits_inj'. intros i Hi. apply (f_equal (λ z, Z.testbit z i)) in H.
  rewrite Z.land_spec, Z.lor_spec in H. rewrite Z.land_spec.
  destruct (Z.testbit e i), (Z.testbit a i), (Z.testbit b i); done.
Qed.

(** The contents after the pages from [lo] to [hi] have been mapped. *)
Definition zero_filled (f : Z → option Z) (lo hi a : Z) : option Z :=
  if decide (lo ≤ a < hi) then Some (default 0 (f a)) else f a.

(** What mapping a run of pages leaves. *)
Record pages_mapped (s s' : Load (S := S)) (pages pages' : gmap Z Z) (lo hi flags : Z) : Prop := {
  pm_fs : l_fs s' = l_fs s;
  pm_loaded : loaded (l_sp s') pages';
  pm_regions : only_regions (mm (l_sp s)) (mm (l_sp s'));
  pm_grows : grows_to (l_sp s) (l_sp s') (zero_filled (view (l_sp s)) lo hi);
  pm_grants a : lo ≤ a < hi → grants (l_sp s') a flags;
  pm_keys va : is_Some (pages' !! va) ↔ is_Some (pages !! va) ∨ (lo ≤ va < hi ∧ page_of va = va);
}.

Lemma page_range va a : page_of va = va → va ≤ a < va + 4096 ↔ page_of a = va.
Proof. intros Hv. rewrite <-Hv at 1 2. rewrite page_of_within, Hv. done. Qed.

Lemma loaded_region s pages va fl : loaded s pages → pages !! va = Some fl → ∃ r, region_at s va = Some r.
Proof.
  intros Hl Hp. destruct (ld_keys _ _ Hl va fl Hp) as [H0 Hpv].
  destruct (proj2 (ld_pages _ _ Hl va H0)) as [r Hr]; [rewrite Hpv; by eexists|]. by exists r.
Qed.

Lemma map_fresh_page_spec s pages va flags : loaded (l_sp s) pages → va mod 4096 = 0 → 0 ≤ va → va + 4096 ≤ 2 ^ 38 →
  segment_flags flags → pages !! va = None →
  match mm_op (map_allocate_page va flags) s with
  | (Ok _, s') => pages_mapped s s' pages (<[va := flags]> pages) va (va + 4096) flags
  | (Panic, s') => full (fa (km (l_sp s')))
  | _ => False
  end.
Proof.
  intros Hld Hm H0 Hle (Hfl & Hus & Hrx) Hp. assert (Hpv : page_of va = va) by (unfold page_of; lia).
  pose proof Hld as [Ht Hpr Hpg Hk Hf].
  assert (Hno : region_at (l_sp s) va = None).
  { destruct (region_at (l_sp s) va) eqn:Hr; [|done]. destruct (proj1 (Hpg va H0)) as [fl Hfl']; [by eexists|].
    rewrite Hpv in Hfl'. congruence. }
  unfold mm_op, zoom. pose proof (map_allocate_page_spec (l_sp s) va flags Ht Hm H0 Hle Hno Hfl Hus Hrx) as Hma.
  destruct (map_allocate_page va flags (l_sp s)) as [[pa|e| |] sp']; [|done..].
  destruct Hma as (Hg & Hreg & Hrs & (pa' & Hlf) & Hsame & Hpriv).
  assert (Hland : Z.land (leaf_pte pa' flags) flags = flags).
  { apply Z.bits_inj'. intros i Hi. unfold leaf_pte, set_flags. rewrite Z.land_spec, !Z.lor_spec.
    by destruct (Z.testbit flags i); rewrite ?orb_true_r, ?andb_false_r. }
  assert (Hleaf : ∀ a, page_of a = va → leaf sp' a = leaf sp' va) by (intros a Ha; unfold leaf; by rewrite Ha, Hpv).
  split; cbn [l_fs l_sp]; [done| |done| | |].
  - split; [apply Hg|by apply Hpriv| | |].
    + intros a Ha. rewrite Hreg by done. destruct (decide (page_of a = va)) as [->|Hne].
      * rewrite lookup_insert_eq. split; by eexists.
      * rewrite lookup_insert_ne by done. by apply Hpg.
    + intros va' fl [[<- <-]|[Hne Hl']]%lookup_insert_Some; [done|]. by apply (Hk va' fl).
    + intros va' fl [[<- <-]|[Hne Hl']]%lookup_insert_Some; [split; [apply Hfl|by eexists]|].
      destruct (Hf va' fl Hl') as (? & e & He & ?). split; [done|]. exists e.
      destruct (loaded_region _ _ _ _ Hld Hl') as [r Hr]. by rewrite (Hsame va' r Hr).
  - eapply grows_to_ext; [exact Hg|]. intros a. unfold zero_filled.
    pose proof (page_range va a Hpv) as Hpr'. destruct (decide (page_of a = va)) as [Ha|Ha].
    + rewrite decide_True by (by apply Hpr'). unfold view, region_at in *. by rewrite Ha, <-Hpv, Hno.
    + by rewrite decide_False by (by rewrite Hpr').
  - intros a Ha. apply (page_range va a Hpv) in Ha as Hpa. eapply grants_leaf; [|by rewrite Hleaf|done].
    by rewrite Hreg, decide_True by (done || lia).
  - intros va'. rewrite lookup_insert_is_Some. split.
    + intros [<-|[_ ?]]; [right; split; [lia|done]|by left].
    + intros [?|[Hr Hp']]; [|left; by apply (page_range va va' Hpv) in Hr; congruence].
      destruct (decide (va = va')); [by left|by right].
Qed.

Lemma map_again_page_spec s pages va flags old : loaded (l_sp s) pages → 0 ≤ flags < 256 → pages !! va = Some old →
  match mm_op (remap_page va (Z.lor old flags)) s with
  | (Ok _, s') => pages_mapped s s' pages (<[va := Z.lor old flags]> pages) va (va + 4096) flags
  | _ => False
  end.
Proof.
  intros Hld Hfl Hp. pose proof Hld as [Ht Hpr Hpg Hk Hf]. destruct (Hk va old Hp) as [H0 Hpv].
  destruct (Hf va old Hp) as (Hold & _). destruct (loaded_region _ _ _ _ Hld Hp) as [r Hr].
  destruct (remap_page_spec (l_sp s) va (Z.lor old flags) r Ht Hr Hpv (Hpr va r Hr) (lor_flags _ _ Hold Hfl))
    as (sp' & Ho & Hmm & Hg & Hpriv & (e & Hle & Hland) & Hsame).
  unfold mm_op, zoom. rewrite Ho.
  assert (Hleaf : ∀ a, page_of a = va → leaf sp' a = Some (e, 0%nat)) by (intros a Ha; unfold leaf in *; by rewrite Ha, <-Hpv).
  assert (Hra : ∀ a, region_at sp' a = region_at (l_sp s) a) by (intros a; unfold region_at; by rewrite Hmm).
  assert (Hrp : ∀ a, page_of a = va → region_at (l_sp s) a = Some r) by (intros a Ha; unfold region_at in *; by rewrite Ha, <-Hpv).
  split; cbn [l_fs l_sp]; [done| | | | |].
  - split; [apply Hg|by apply Hpriv| | |].
    + intros a Ha. rewrite Hra, lookup_insert_is_Some. rewrite Hpg by done. split.
      * intros ?. destruct (decide (va = page_of a)); [by left|by right].
      * intros [<-|[_ ?]]; [by eexists|done].
    + intros va' fl [[<- <-]|[Hne Hl']]%lookup_insert_Some; [done|]. by apply (Hk va' fl).
    + intros va' fl [[<- <-]|[Hne Hl']]%lookup_insert_Some.
      * split; [by apply lor_flags|]. exists e. split; [by apply Hleaf|done].
      * destruct (Hf va' fl Hl') as (? & e' & He & ?). split; [done|]. exists e'. split; [|done].
        destruct (loaded_region _ _ _ _ Hld Hl') as [r' Hr']. destruct (Hk va' fl Hl') as [_ Hpv'].
        rewrite (Hsame va' r' Hr'); [done|congruence].
  - exists (regions (mm (l_sp s))). rewrite Hmm. by destruct (mm (l_sp s)).
  - eapply grows_to_ext; [exact Hg|]. intros a. unfold zero_filled.
    pose proof (page_range va a Hpv) as Hpr'. destruct (decide (va ≤ a < va + 4096)) as [Ha|Ha]; [|done].
    apply Hpr' in Ha. unfold view. rewrite (Hrp a Ha). by destruct (leaf (l_sp s) a) as [[? ?]|].
  - intros a Ha. apply (page_range va a Hpv) in Ha. eapply grants_leaf; [by rewrite Hra, Hrp|by apply Hleaf|].
    by eapply land_lor_l.
  - intros va'. rewrite lookup_insert_is_Some. split.
    + intros [<-|[_ ?]]; [left; by eexists|by left].
    + intros [?|[Hr' Hp']]; [|left; by apply (page_range va va' Hpv) in Hr'; congruence].
      destruct (decide (va = va')); [by left|by right].
Qed.

Lemma pages_mapped_refl s pages lo flags : loaded (l_sp s) pages → pages_mapped s s pages pages lo lo flags.
Proof.
  intros Hld. split; [done|done| | | |].
  - exists (regions (mm (l_sp s))). by destruct (mm (l_sp s)).
  - eapply grows_to_ext; [apply grows_to_refl, Hld|]. intros a. unfold zero_filled. by rewrite decide_False by lia.
  - lia.
  - intros va. split; [by left|]. intros [?|[? _]]; [done|lia].
Qed.

Lemma pages_mapped_trans s s1 s2 pages pages1 pages2 lo mid hi flags : lo ≤ mid ≤ hi → 0 ≤ lo → page_of lo = lo →
  pages_mapped s s1 pages pages1 lo mid flags → pages_mapped s1 s2 pages1 pages2 mid hi flags →
  pages_mapped s s2 pages pages2 lo hi flags.
Proof.
  intros Hle H0 Hlo [Hf1 Hl1 Hr1 Hg1 Ha1 Hk1] [Hf2 Hl2 Hr2 Hg2 Ha2 Hk2].
  split; [congruence|done|by eapply only_regions_trans| | |].
  - eapply grows_to_ext; [by eapply grows_to_trans|]. intros a. unfold zero_filled at 1.
    rewrite (gt_view _ _ _ Hg1). unfold zero_filled. repeat case_decide; done || lia.
  - intros a Ha. destruct (Z.lt_ge_cases a mid); [|by apply Ha2; lia].
    destruct (proj2 (ld_pages _ _ Hl1 a ltac:(lia))) as [r Hr].
    { apply Hk1. right. rewrite page_of_idemp. split; [|done]. unfold page_of in *. Z.div_mod_to_equations; lia. }
    eapply grants_grows; [exact Hg2|exact Hr|]. apply Ha1. lia.
  - intros va. rewrite Hk2, Hk1. split; [intros [[?|[? ?]]|[? ?]]|intros [?|[? ?]]]; auto.
    + right. split; [lia|done].
    + right. split; [lia|done].
    + destruct (Z.lt_ge_cases va mid); [left; right|right]; (split; [lia|done]).
Qed.

(** All pages of a segment. *)
Lemma map_segment_spec c : ∀ s pages va flags fuel, loaded (l_sp s) pages → va mod 4096 = 0 → 0 ≤ va →
  va + Z.of_nat c * 4096 ≤ 2 ^ 38 → segment_flags flags → (c < fuel)%nat →
  match map_segment fuel va (va + Z.of_nat c * 4096) flags pages s with
  | (Ok pages', s') => pages_mapped s s' pages pages' va (va + Z.of_nat c * 4096) flags
  | (Panic, s') => full (fa (km (l_sp s')))
  | _ => False
  end.
Proof.
  induction c as [|c IH]; intros s pages va flags fuel Hld Hm H0 Hle Hfl Hfuel.
  { destruct fuel as [|fuel]; [lia|]. cbn [map_segment]. rewrite Z.add_0_r, Z.ltb_irrefl. by apply pages_mapped_refl. }
  destruct fuel as [|fuel]; [lia|]. cbn [map_segment]. rewrite (proj2 (Z.ltb_lt _ _)) by lia. cbn [negb].
  change (2 ^ 38) with 274877906944 in *.
  assert (Hone : match map_segment_page va flags pages s with
    | (Ok pages', s') => pages_mapped s s' pages pages' va (va + 4096) flags
    | (Panic, s') => full (fa (km (l_sp s')))
    | _ => False end).
  { unfold map_segment_page. destruct (pages !! va) as [old|] eqn:Hp.
    - rewrite bf_bitor_spec. pose proof (map_again_page_spec s pages va flags old Hld (proj1 (proj1 Hfl)) Hp) as H.
      unfold bind. destruct (mm_op _ s) as [[[]|e| |] s']; done.
    - pose proof (map_fresh_page_spec s pages va flags Hld Hm H0 ltac:(change (2 ^ 38) with 274877906944; lia) Hfl Hp) as H.
      unfold bind. destruct (mm_op _ s) as [[[]|e| |] s']; done. }
  change (match pages !! va with None => _ | Some _ => _ end) with (map_segment_page va flags pages).
  unfold bind at 1. destruct (map_segment_page va flags pages s) as [[pages1|e| |] s1]; [|done..].
  unfold bind at 1, lift, offset_by, checked_add. change PAGE_SIZE with 4096. cbn [Z.ltb Z.compare].
  rewrite (proj2 (Z.ltb_lt _ _)) by (change (2 ^ 64) with 18446744073709551616; lia). cbn [ok_or].
  specialize (IH s1 pages1 (va + 4096) flags fuel (pm_loaded _ _ _ _ _ _ _ Hone)).
  replace (va + Z.of_nat (Datatypes.S c) * 4096) with (va + 4096 + Z.of_nat c * 4096) by lia.
  specialize (IH ltac:(Z.div_mod_to_equations; lia) ltac:(lia) ltac:(lia) Hfl ltac:(lia)).
  destruct (map_segment fuel (va + 4096) _ flags pages1 s1) as [[pages2|e| |] s2]; [|done..].
  eapply pages_mapped_trans; [..|exact Hone|exact IH]; [lia|done|unfold page_of; lia].
Qed.
End pages.

(** ** Bytes *)

Lemma patched_ext f g a bs x : (∀ y, f y = g y) → patched f a bs x = patched g a bs x.
Proof. intros H. unfold patched. by rewrite H. Qed.

(** The kernel's writes to a page through the direct mapping. *)
Lemma poke_spec bs : ∀ s a r e, uspace s → region_at s a = Some r → leaf s a = Some (e, 0%nat) →
  refs (meta (km s)) (ppn_address e) = 1 → a mod 4096 + Z.of_nat (length bs) ≤ 4096 → Forall is_u8 bs →
  ∃ s', poke (ppn_address e + a mod 4096) bs s = (Ok tt, s') ∧ evolves s s' (patched (view s) a bs) ∧
    (∀ x, leaf s' x = leaf s x) ∧ meta (km s') = meta (km s).
Proof.
  induction bs as [|b bs IH]; intros s a r e Hu Hr Hl Hone Hle Hb.
  { exists s. split; [by destruct s as [? []]|]. split; [|done].
    eapply evolves_ext; [by apply evolves_refl|]. intros x. by rewrite patched_nil. }
  apply Forall_cons in Hb as [Hb Hbs]. cbn [length] in Hle.
  pose proof (set_byte_evolves s a r e b Hu Hr Hl Hone Hb) as Hev.
  pose proof (λ x, set_byte_leaf s a r e b x Hu Hr Hl) as Hleaf.
  set (s1 := set_km _ s) in *. assert (Hmm : mm s1 = mm s) by done.
  destruct bs as [|b' bs'].
  { exists s1. split; [done|]. split; [|by split]. eapply evolves_ext; [exact Hev|]. intros x.
    by rewrite <-patched_cons, patched_nil. }
  assert (Hmod : (a + 1) mod 4096 = a mod 4096 + 1 ∧ page_of (a + 1) = page_of a).
  { cbn [length] in Hle. unfold page_of. Z.div_mod_to_equations; lia. }
  destruct Hmod as [Hmod Hpg].
  destruct (IH s1 (a + 1) r e (ev_space _ _ _ Hev)) as (s2 & Ho & Hev2 & Hl2 & Hm2).
  - unfold region_at in *. by rewrite Hpg, Hmm.
  - rewrite Hleaf. unfold leaf in *. by rewrite Hpg.
  - done.
  - lia.
  - done.
  - exists s2. rewrite Hmod, Z.add_assoc in Ho. split; [exact Ho|]. split.
    + eapply evolves_trans; [exact Hev|]. eapply evolves_ext; [exact Hev2|]. intros x.
      rewrite <-(patched_cons _ a b (b' :: bs')). apply patched_ext, Hev.
    + split; [|by rewrite Hm2]. intros x. by rewrite Hl2, Hleaf.
Qed.

Lemma patched_app f a bs bs' x : patched (patched f a bs) (a + Z.of_nat (length bs)) bs' x = patched f a (bs ++ bs') x.
Proof.
  unfold patched. rewrite length_app. repeat case_decide; try lia; try done.
  - rewrite lookup_app_r by lia. f_equal. lia.
  - by rewrite lookup_app_l by lia.
Qed.

Lemma loaded_poke s pages a bs : loaded s pages → 0 ≤ a → is_Some (pages !! page_of a) →
  a mod 4096 + Z.of_nat (length bs) ≤ 4096 → Forall is_u8 bs →
  ∃ e s', leaf s a = Some (e, 0%nat) ∧ table_ok (ppn_address e) ∧ poke (ppn_address e + a mod 4096) bs s = (Ok tt, s') ∧
    mm s' = mm s ∧ loaded s' pages ∧ grows_to s s' (patched (view s) a bs) ∧ ∀ x, leaf s' x = leaf s x.
Proof.
  intros Hld Ha Hp Hle Hb. pose proof Hld as [Ht Hpr Hpg Hk Hf]. destruct (proj2 (Hpg a Ha) Hp) as [r Hr].
  destruct (Hpr a r Hr) as (e & Hl & Hone). pose proof (ts_user s Ht) as Hu.
  destruct (region_at_range s a r Hu Hr) as (_ & _ & _ & _ & _ & _ & Hrin & Hst & _).
  destruct (us_mapped s Hu r e 0 Hrin) as [_ [Hok _ _ _ _ _ _ _]]; [by rewrite (leaf_region s a r)|].
  destruct (poke_spec bs s a r e Hu Hr Hl Hone Hle Hb) as (s' & Ho & Hev & Hleaf & Hme).
  exists e, s'. split; [done|]. split; [done|]. split; [done|]. split; [apply Hev|].
  assert (Hra : ∀ x, region_at s' x = region_at s x) by (intros x; unfold region_at; by rewrite (ev_mm _ _ _ Hev)).
  split; [|split; [by apply evolves_grows|done]]. split; [by eapply evolves_tspace| | |done|].
  - intros x rx Hrx. rewrite Hra in Hrx. destruct (Hpr x rx Hrx) as (ex & ? & ?). exists ex. by rewrite Hleaf, Hme.
  - intros x Hx. rewrite Hra. by apply Hpg.
  - intros va fl Hva. destruct (Hf va fl Hva) as (? & ex & ? & ?). split; [done|]. exists ex. by rewrite Hleaf.
Qed.

(** The bytes of a file that go to a segment, from [c] on. *)
Definition segment_bytes (data : list Z) (ph : ProgramHeader) (c : Z) : list Z :=
  take (Z.to_nat (p_filesz ph - c)) (drop (Z.to_nat (p_offset ph + c)) data).

(** A segment that fits the file and the user's half of the addresses, and that
    asks for read or execute access: an entry with neither is not a leaf. *)
Record segment_ok (data : list Z) (ph : ProgramHeader) : Prop := {
  so_vaddr : 0 ≤ p_vaddr ph;
  so_offset : 0 ≤ p_offset ph;
  so_filesz : 0 ≤ p_filesz ph ≤ p_memsz ph;
  so_file : p_offset ph + p_filesz ph ≤ Z.of_nat (length data);
  so_memory : p_vaddr ph + p_memsz ph ≤ 2 ^ 38;
  so_flags : Z.testbit (p_flags ph) 0 || Z.testbit (p_flags ph) 2 = true;
}.

Section segments.
Context {S N : Type} `{HV : VNode S N} `{HO : !VNodeOk S N} `{BF : Bitflags} `{HBF : !BitflagsOk BF}.
Context (data : list Z) (Hdata : Forall is_u8 data).

(** The page a byte goes to. *)
Lemma translate_loaded (s : Space) pages a : loaded s pages → 0 ≤ a → is_Some (pages !! page_of a) →
  ∃ e, leaf s a = Some (e, 0%nat) ∧ mm_translate (page_of a) s = (Ok (Some (ppn_address e)), s).
Proof.
  intros Hld Ha Hp. pose proof Hld as [Ht Hpr Hpg _ _]. destruct (proj2 (Hpg a Ha) Hp) as [r Hr].
  destruct (Hpr a r Hr) as (e & Hl & _). exists e. split; [done|]. pose proof (ts_user s Ht) as Hu.
  destruct (region_at_range s a r Hu Hr) as (H0 & _ & _ & _ & Hb & Hbok & _).
  rewrite mm_translate_spec by (done || apply (us_space s Hu)).
  rewrite translate_walk by (done || apply (us_space s Hu)). unfold leaf in Hl. rewrite Hl.
  cbn [fmap option_fmap option_map size_of]. change (bytes Size4K) with 4096. by rewrite (page_of_mod a), Z.add_0_r.
Qed.

(** One round of the loop. *)
Lemma copy_segment_step fuel (s : Load (S := S)) (f : File N) ph c pages : loaded (l_sp s) pages → regular (l_fs s) (inode f) →
  content (l_fs s) (inode f) = data → segment_ok data ph → 0 ≤ c < p_filesz ph → is_Some (pages !! page_of (p_vaddr ph + c)) →
  let n := Z.min (4096 - (p_vaddr ph + c) mod 4096) (p_filesz ph - c) in
  ∃ fs' sp', copy_segment (Datatypes.S fuel) f ph c s =
      copy_segment fuel (mkFile (inode f) (p_offset ph + c + n)) ph (c + n) (mkLoad fs' sp') ∧
    same_files (l_fs s) fs' ∧ mm sp' = mm (l_sp s) ∧ loaded sp' pages ∧
    grows_to (l_sp s) sp' (patched (view (l_sp s)) (p_vaddr ph + c) (take (Z.to_nat n) (drop (Z.to_nat (p_offset ph + c)) data))).
Proof.
  intros Hld Hr Hc [Hv Ho Hf Hfl Hme _] Hcr Hpage n. cbn [copy_segment]. rewrite (proj2 (Z.ltb_lt _ _)) by lia. cbn [negb].
  change (2 ^ 38) with 274877906944 in Hme. set (a := p_vaddr ph + c) in *.
  unfold bind at 1, lift at 1, checked_add. fold a. rewrite (proj2 (Z.ltb_lt a _)) by (change (2 ^ 64) with 18446744073709551616; lia).
  cbn [ok_or]. assert (Ha : is_usize a) by (split; [lia|change (2 ^ 64) with 18446744073709551616; lia]).
  rewrite (align_down_page a Ha). change (a - a mod 4096) with (page_of a).
  assert (Hoff : a - page_of a = a mod 4096) by (unfold page_of; lia). rewrite Hoff.
  pose proof (Z.mod_pos_bound a 4096 ltac:(lia)) as Hmod. change PAGE_SIZE with 4096. fold n.
  assert (Hn : 1 ≤ n ∧ a mod 4096 + n ≤ 4096 ∧ c + n ≤ p_filesz ph) by lia.
  destruct (translate_loaded (l_sp s) pages a Hld ltac:(lia) Hpage) as (e & Hle & Htr).
  unfold bind at 1, mm_op at 1, zoom at 1. rewrite Htr. unfold bind at 1, lift at 1. cbn [unwrap].
  pose proof (content_len _ _ Hr) as Hclen. rewrite Hc in Hclen. change (2 ^ 32) with 4294967296 in Hclen.
  unfold bind at 1, lift at 1, add_ov at 1, checked_add at 1.
  rewrite (proj2 (Z.ltb_lt _ _)) by (change (2 ^ 64) with 18446744073709551616; lia). cbn [unwrap].
  replace (mkLoad (l_fs s) (l_sp s)) with s by (by destruct s).
  destruct (read_exact_at_spec s f (p_offset ph + c) n Hr ltac:(lia) ltac:(lia)) as (fs' & Hs1 & Hrd). rewrite Hc in Hrd.
  unfold bind at 1. rewrite Hrd. unfold slice_exact. rewrite !(proj2 (Z.ltb_ge _ _)) by lia. cbn [obind].
  set (bs := take _ _). assert (Hbl : Z.of_nat (length bs) = n) by (unfold bs; rewrite length_take, length_drop; lia).
  destruct (loaded_poke (l_sp s) pages a bs Hld ltac:(lia) Hpage ltac:(lia) ltac:(by apply Forall_take, Forall_drop))
    as (e' & sp' & Hle' & Hok & Hpk & Hmm & Hld' & Hg & _). assert (e' = e) as -> by congruence.
  destruct (table_ok_mapped _ KERNEL_DIRECT_MAPPING_BASE Hok) as [Hadd _]; [by right|].
  unfold bind at 1, lift at 1, phys_to_virt. rewrite Hadd. unfold bind at 1, lift at 1, add_ov, checked_add.
  rewrite (proj2 (Z.ltb_lt _ _)); [|destruct Hok as (? & ? & ?); unfold KERNEL_DIRECT_MAPPING_BASE in *;
    change (2 ^ 64) with 18446744073709551616 in *; Z.div_mod_to_equations; lia].
  cbn [unwrap]. unfold bind at 1, mm_op at 1, zoom at 1. cbn [l_sp l_fs]. rewrite Hpk. by exists fs', sp'.
Qed.

Lemma copy_segment_spec fuel : ∀ (s : Load (S := S)) (f : File N) ph c pages, loaded (l_sp s) pages → regular (l_fs s) (inode f) →
  content (l_fs s) (inode f) = data → segment_ok data ph → 0 ≤ c ≤ p_filesz ph →
  (∀ a, p_vaddr ph ≤ a < p_vaddr ph + p_filesz ph → is_Some (pages !! page_of a)) →
  c = p_filesz ph ∨ (p_vaddr ph + c) mod 4096 + (p_filesz ph - c) ≤ Z.of_nat fuel * 4096 →
  ∃ f' s', copy_segment fuel f ph c s = (Ok f', s') ∧ inode f' = inode f ∧ same_files (l_fs s) (l_fs s') ∧
    mm (l_sp s') = mm (l_sp s) ∧ loaded (l_sp s') pages ∧
    grows_to (l_sp s) (l_sp s') (patched (view (l_sp s)) (p_vaddr ph + c) (segment_bytes data ph c)).
Proof.
  induction fuel as [|fuel IH]; intros s f ph c pages Hld Hr Hc Hsok Hcr Hpages Hfuel.
  all: destruct (Z.eq_dec c (p_filesz ph)) as [->|Hne];
    [exists f, s; cbn [copy_segment]; rewrite Z.ltb_irrefl; split_and!; try done; [apply same_files_refl|];
     eapply grows_to_ext; [apply grows_to_refl, Hld|]; intros x; unfold segment_bytes; rewrite Z.sub_diag; by rewrite patched_nil|].
  { destruct Hfuel as [?|Hfu]; [done|]. pose proof (Z.mod_pos_bound (p_vaddr ph + c) 4096). lia. }
  destruct Hfuel as [?|Hfu]; [done|]. pose proof (Z.mod_pos_bound (p_vaddr ph + c) 4096 ltac:(lia)) as Hmod.
  destruct (copy_segment_step fuel s f ph c pages Hld Hr Hc Hsok ltac:(lia) ltac:(apply Hpages; lia))
    as (fs' & sp' & Hstep & Hs1 & Hmm & Hld' & Hg). rewrite Hstep. clear Hstep.
  set (n := Z.min _ _) in *. pose proof (so_offset _ _ Hsok). pose proof (so_file _ _ Hsok).
  destruct (same_files_spec _ _ _ Hs1 Hr) as [Hr1 Hc1].
  destruct (IH (mkLoad fs' sp') (mkFile (inode f) (p_offset ph + c + n)) ph (c + n) pages Hld' Hr1) as (f2 & s2 & Ho2 & Hi2 & Hs2 & Hmm2 & Hld2 & Hg2);
    [by cbn [l_fs inode]; rewrite Hc1|done|lia|done| |].
  { destruct (Z.eq_dec (c + n) (p_filesz ph)); [by left|right]. unfold n in *. Z.div_mod_to_equations; lia. }
  exists f2, s2. split; [exact Ho2|]. split; [done|]. split; [by eapply same_files_trans|].
  split; [by rewrite Hmm2|]. split; [done|]. eapply grows_to_trans; [exact Hg|]. eapply grows_to_ext; [exact Hg2|].
  intros x. cbn [l_sp]. rewrite (patched_ext _ _ _ _ _ (gt_view _ _ _ Hg)). set (bs := take (Z.to_nat n) _).
  replace (p_vaddr ph + (c + n)) with (p_vaddr ph + c + Z.of_nat (length bs))
    by (unfold bs; rewrite length_take, length_drop; lia).
  rewrite patched_app. f_equal. unfold bs, segment_bytes.
  replace (Z.to_nat (p_offset ph + (c + n))) with (Z.to_nat (p_offset ph + c) + Z.to_nat n)%nat by lia.
  rewrite <-drop_drop. replace (Z.to_nat (p_filesz ph - c)) with (Z.to_nat n + Z.to_nat (p_filesz ph - (c + n)))%nat by lia.
  apply take_take_drop.
Qed.

(** The flags of a segment's pages. *)
Lemma land_bit x i : 0 ≤ i → (Z.land x (2 ^ i) =? 0) = negb (Z.testbit x i).
Proof.
  intros Hi. destruct (Z.testbit x i) eqn:Hb.
  - apply Z.eqb_neq. intros H. apply (f_equal (λ z, Z.testbit z i)) in H.
    by rewrite Z.land_spec, Hb, Z.pow2_bits_true, Z.testbit_0_l in H.
  - apply Z.eqb_eq, Z.bits_inj'. intros n Hn. rewrite Z.land_spec, Z.testbit_0_l.
    destruct (Z.eq_dec n i) as [->|]; [by rewrite Hb|]. by rewrite Z.pow2_bits_false, andb_false_r by done.
Qed.

Lemma convert_flags_spec fl : Z.testbit fl 0 || Z.testbit fl 2 = true →
  let flags := convert_elf_flag_to_pte fl in
  segment_flags flags ∧ Z.testbit flags 1 = Z.testbit fl 2 ∧ Z.testbit flags 2 = Z.testbit fl 1 ∧
  Z.testbit flags 3 = Z.testbit fl 0.
Proof.
  intros Hrx flags. unfold flags, convert_elf_flag_to_pte, segment_flags.
  change PF_R with (2 ^ 2). change PF_W with (2 ^ 1). change PF_X with (2 ^ 0).
  rewrite (land_bit fl 2), (land_bit fl 1), (land_bit fl 0), !negb_involutive, !bf_bitor_spec by done.
  destruct (Z.testbit fl 0), (Z.testbit fl 1), (Z.testbit fl 2); try done; by split_and!.
Qed.

(** The contents after a segment, and after all of them. *)
Definition segment_view (f : Z → option Z) (ph : ProgramHeader) : Z → option Z :=
  if p_type ph =? PT_LOAD then
    patched (zero_filled f (page_of (p_vaddr ph)) (page_up (p_vaddr ph + p_memsz ph))) (p_vaddr ph) (segment_bytes data ph 0)
  else f.

Lemma page_up_range x : x ≤ page_up x < x + 4096 ∧ page_up x mod 4096 = 0.
Proof. unfold page_up. Z.div_mod_to_equations; lia. Qed.

(** What loading a segment leaves. *)
Record segment_loaded (s s' : Load (S := S)) (pages pages' : gmap Z Z) (ph : ProgramHeader) : Prop := {
  sl_files : same_files (l_fs s) (l_fs s');
  sl_regions : only_regions (mm (l_sp s)) (mm (l_sp s'));
  sl_loaded : loaded (l_sp s') pages';
  sl_grows : grows_to (l_sp s) (l_sp s') (segment_view (view (l_sp s)) ph);
  sl_grants a : p_type ph = PT_LOAD → p_vaddr ph ≤ a < p_vaddr ph + p_memsz ph →
    is_Some (region_at (l_sp s') a) ∧ grants (l_sp s') a (convert_elf_flag_to_pte (p_flags ph));
  sl_keys va : is_Some (pages' !! va) ↔ is_Some (pages !! va) ∨
    p_type ph = PT_LOAD ∧ page_of (p_vaddr ph) ≤ va < page_up (p_vaddr ph + p_memsz ph) ∧ page_of va = va;
}.

Lemma segment_loaded_skip s pages ph : loaded (l_sp s) pages → p_type ph ≠ PT_LOAD → segment_loaded s s pages pages ph.
Proof.
  intros Hld Hne. split; [apply same_files_refl| |done| |done|].
  - exists (regions (mm (l_sp s))). by destruct (mm (l_sp s)).
  - unfold segment_view. rewrite (proj2 (Z.eqb_neq _ _)) by done. apply grows_to_refl, Hld.
  - intros va. split; [by left|]. by intros [?|[? _]].
Qed.

(** The checks, and the two loops from the segment's first page to its last. *)
Lemma load_segment_checks s (f : File N) ph pages mx : regular (l_fs s) (inode f) →
  content (l_fs s) (inode f) = data → p_type ph = PT_LOAD → segment_ok data ph →
  let lo := page_of (p_vaddr ph) in
  let hi := page_up (p_vaddr ph + p_memsz ph) in
  ∃ fs1, same_files (l_fs s) fs1 ∧ load_segment f ph pages mx s =
    (let! pages' := map_segment (Z.to_nat ((hi - lo) / PAGE_SIZE + 1)) lo hi (convert_elf_flag_to_pte (p_flags ph)) pages in
     let! f' := copy_segment (Z.to_nat (p_filesz ph / PAGE_SIZE + 2)) f ph 0 in
     ret (f', pages', Z.max mx hi)) (mkLoad fs1 (l_sp s)).
Proof.
  intros Hr Hc Hpt [Hv Ho Hf Hfl Hme Hrx]. unfold load_segment. rewrite (proj2 (Z.eqb_eq _ _) Hpt). cbn [negb].
  change (2 ^ 38) with 274877906944 in Hme.
  pose proof (content_len _ _ Hr) as Hclen. rewrite Hc in Hclen. change (2 ^ 32) with 4294967296 in Hclen.
  unfold bind at 1, lift at 1, checked_add. rewrite (proj2 (Z.ltb_lt _ _)) by (change (2 ^ 64) with 18446744073709551616; lia). cbn [ok_or].
  destruct (vn_sz_spec _ _ Hr) as (fs1 & Hsz & Hs1). rewrite Hc in Hsz. unfold bind at 1, vfs_op at 1. rewrite Hsz.
  rewrite (proj2 (Z.ltb_ge _ _)) by lia. exists fs1. split; [done|].
  set (en := p_vaddr ph + p_memsz ph) in *. unfold bind at 1, lift at 1, offset_by, as_isize.
  rewrite (proj2 (Z.ltb_lt (p_memsz ph) _)) by (change (2 ^ 63) with 9223372036854775808; lia).
  rewrite (proj2 (Z.ltb_ge _ _)) by lia. unfold checked_add. fold en.
  rewrite (proj2 (Z.ltb_lt en _)) by (change (2 ^ 64) with 18446744073709551616; lia). cbn [ok_or].
  unfold bind at 1, lift at 1. rewrite align_up_page by (split; [lia|change (2 ^ 64) with 18446744073709551616; lia]).
  rewrite (proj2 (Z.ltb_lt (en + 4096) _)) by (change (2 ^ 64) with 18446744073709551616; lia).
  by rewrite align_down_page by (split; [lia|change (2 ^ 64) with 18446744073709551616; lia]).
Qed.

Lemma load_segment_spec s (f : File N) ph pages mx : loaded (l_sp s) pages → regular (l_fs s) (inode f) →
  content (l_fs s) (inode f) = data → (p_type ph = PT_LOAD → segment_ok data ph) →
  match load_segment f ph pages mx s with
  | (Ok (f', pages', mx'), s') => inode f' = inode f ∧ segment_loaded s s' pages pages' ph ∧
      mx' = if p_type ph =? PT_LOAD then Z.max mx (page_up (p_vaddr ph + p_memsz ph)) else mx
  | (Panic, s') => full (fa (km (l_sp s')))
  | _ => False
  end.
Proof.
  intros Hld Hr Hc Hsok. destruct (Z.eqb_spec (p_type ph) PT_LOAD) as [Hpt|Hne].
  2: { unfold load_segment. rewrite (proj2 (Z.eqb_neq _ _) Hne). split; [done|]. split; [by apply segment_loaded_skip|done]. }
  specialize (Hsok Hpt). pose proof Hsok as [Hv Ho Hf Hfl Hme Hrx]. change (2 ^ 38) with 274877906944 in Hme.
  destruct (load_segment_checks s f ph pages mx Hr Hc Hpt Hsok) as (fs1 & Hs1 & ->).
  set (en := p_vaddr ph + p_memsz ph) in *. set (lo := page_of (p_vaddr ph)).
  pose proof (page_of_range (p_vaddr ph)) as Hlo. pose proof (page_of_mod (p_vaddr ph)) as Hlom. fold lo in Hlo, Hlom.
  destruct (page_up_range en) as [Hhi Hhim]. destruct (convert_flags_spec (p_flags ph) Hrx) as (Hseg & _).
  set (c := Z.to_nat ((page_up en - lo) / PAGE_SIZE)).
  assert (Hend : page_up en = lo + Z.of_nat c * 4096) by (unfold c; change PAGE_SIZE with 4096; Z.div_mod_to_equations; lia).
  assert (Hlim : lo + Z.of_nat c * 4096 ≤ 2 ^ 38)
    by (rewrite <-Hend; change (2 ^ 38) with (67108864 * 4096); Z.div_mod_to_equations; lia).
  pose proof (map_segment_spec c (mkLoad fs1 (l_sp s)) pages lo (convert_elf_flag_to_pte (p_flags ph))
    (Z.to_nat ((page_up en - lo) / PAGE_SIZE + 1)) Hld Hlom ltac:(unfold lo, page_of; Z.div_mod_to_equations; lia) Hlim Hseg) as Hmap.
  rewrite <-Hend in Hmap. specialize (Hmap ltac:(unfold c; change PAGE_SIZE with 4096; Z.div_mod_to_equations; lia)).
  unfold bind at 1. destruct (map_segment _ lo (page_up en) _ pages _) as [[pages1|e| |] s1]; [|done..].
  destruct Hmap as [Hfs1 Hld1 Hrs1 Hg1 Hgr1 Hk1]. cbn [l_fs l_sp] in *.
  destruct (same_files_spec _ _ _ Hs1 Hr) as [Hr1 Hc1].
  assert (Hpg : ∀ a, p_vaddr ph ≤ a < en → lo ≤ page_of a < page_up en).
  { intros a Ha. unfold lo, page_of in *. Z.div_mod_to_equations; lia. }
  destruct (copy_segment_spec (Z.to_nat (p_filesz ph / PAGE_SIZE + 2)) s1 f ph 0 pages1 Hld1)
    as (f2 & s2 & Ho2 & Hi2 & Hs2 & Hmm2 & Hld2 & Hg2); [by rewrite Hfs1|by rewrite Hfs1, Hc1|done|lia| | |].
  { intros a Ha. apply Hk1. right. rewrite page_of_idemp. split; [|done]. apply Hpg. unfold en. lia. }
  { right. change PAGE_SIZE with 4096. rewrite Z.add_0_r. Z.div_mod_to_equations; lia. }
  unfold bind. rewrite Ho2. split; [done|]. split; [|done]. rewrite Z.add_0_r in Hg2. split; [| |done| | |].
  - rewrite Hfs1 in Hs2. by eapply same_files_trans.
  - rewrite Hmm2. done.
  - eapply grows_to_trans; [exact Hg1|]. eapply grows_to_ext; [exact Hg2|]. intros x. unfold segment_view.
    rewrite (proj2 (Z.eqb_eq _ _) Hpt). apply patched_ext, Hg1.
  - intros a _ Ha. destruct (proj2 (ld_pages _ _ Hld1 a ltac:(lia))) as [r Hra].
    { apply Hk1. right. rewrite page_of_idemp. split; [by apply Hpg|done]. }
    split; [eexists; by apply (gt_old _ _ _ Hg2)|]. eapply grants_grows; [exact Hg2|exact Hra|]. apply Hgr1. lia.
  - intros va. rewrite Hk1. split; [intros [?|[? ?]]|intros [?|(_ & ? & ?)]]; auto.
Qed.

(** ** All segments *)

Definition image (phs : list ProgramHeader) (f : Z → option Z) : Z → option Z := foldl segment_view f phs.

Definition image_end (phs : list ProgramHeader) (mx : Z) : Z :=
  foldl (λ m ph, if p_type ph =? PT_LOAD then Z.max m (page_up (p_vaddr ph + p_memsz ph)) else m) mx phs.

(** An address in a page of a segment. *)
Definition in_image (phs : list ProgramHeader) (a : Z) : Prop :=
  ∃ ph, ph ∈ phs ∧ p_type ph = PT_LOAD ∧ page_of (p_vaddr ph) ≤ a < page_up (p_vaddr ph + p_memsz ph).

Lemma in_image_cons ph phs a : in_image (ph :: phs) a ↔
  p_type ph = PT_LOAD ∧ page_of (p_vaddr ph) ≤ a < page_up (p_vaddr ph + p_memsz ph) ∨ in_image phs a.
Proof.
  split.
  - intros (ph' & [->|Hin]%elem_of_cons & ?); [by left|right; by exists ph'].
  - intros [?|(ph' & Hin & ?)]; [exists ph|exists ph']; (split; [apply elem_of_cons; auto|done]).
Qed.

Lemma image_ext phs : ∀ f g, (∀ a, f a = g a) → ∀ a, image phs f a = image phs g a.
Proof.
  unfold image. induction phs as [|ph phs IH]; intros f g Hfg a; cbn [foldl]; [done|]. apply IH.
  intros x. unfold segment_view. destruct (_ =? _); [|done]. apply patched_ext. intros y. unfold zero_filled. by rewrite Hfg.
Qed.

Record image_loaded (s s' : Load (S := S)) (pages pages' : gmap Z Z) (phs : list ProgramHeader) : Prop := {
  il_files : same_files (l_fs s) (l_fs s');
  il_regions : only_regions (mm (l_sp s)) (mm (l_sp s'));
  il_loaded : loaded (l_sp s') pages';
  il_grows : grows_to (l_sp s) (l_sp s') (image phs (view (l_sp s)));
  il_grants ph a : ph ∈ phs → p_type ph = PT_LOAD → p_vaddr ph ≤ a < p_vaddr ph + p_memsz ph →
    is_Some (region_at (l_sp s') a) ∧ grants (l_sp s') a (convert_elf_flag_to_pte (p_flags ph));
  il_keys va : is_Some (pages' !! va) ↔ is_Some (pages !! va) ∨ in_image phs va ∧ page_of va = va;
}.

Lemma load_segments_spec phs : ∀ s (f : File N) pages mx, loaded (l_sp s) pages → regular (l_fs s) (inode f) →
  content (l_fs s) (inode f) = data → Forall (λ ph, p_type ph = PT_LOAD → segment_ok data ph) phs →
  match load_segments f phs pages mx s with
  | (Ok mx', s') => mx' = image_end phs mx ∧ ∃ pages', image_loaded s s' pages pages' phs
  | (Panic, s') => full (fa (km (l_sp s')))
  | _ => False
  end.
Proof.
  induction phs as [|ph phs IH]; intros s f pages mx Hld Hr Hc Hok; cbn [load_segments].
  { split; [done|]. exists pages. split; [apply same_files_refl| |done|by apply grows_to_refl, Hld| |].
    - exists (regions (mm (l_sp s))). by destruct (mm (l_sp s)).
    - by intros ph a ?%not_elem_of_nil.
    - intros va. split; [by left|]. by intros [?|[(ph & ?%not_elem_of_nil & _) _]]. }
  apply Forall_cons in Hok as [Hok1 Hok]. unfold bind. pose proof (load_segment_spec s f ph pages mx Hld Hr Hc Hok1) as H1.
  destruct (load_segment f ph pages mx s) as [[[[f1 pages1] mx1]|e| |] s1]; [|done..].
  destruct H1 as (Hi & [Hs1 Hrs1 Hld1 Hg1 Hgr1 Hk1] & ->). destruct (same_files_spec _ _ _ Hs1 Hr) as [Hr1 Hc1].
  specialize (IH s1 f1 pages1 (if p_type ph =? PT_LOAD then Z.max mx (page_up (p_vaddr ph + p_memsz ph)) else mx) Hld1).
  rewrite Hi in IH. specialize (IH Hr1 ltac:(by rewrite Hc1) Hok).
  destruct (load_segments f1 phs pages1 _ s1) as [[mx'|e| |] s2]; [|done..].
  destruct IH as (-> & pages2 & [Hs2 Hrs2 Hld2 Hg2 Hgr2 Hk2]). split; [done|]. exists pages2. split; [by eapply same_files_trans|by eapply only_regions_trans|done| | |].
  - eapply grows_to_trans; [exact Hg1|]. eapply grows_to_ext; [exact Hg2|]. apply (image_ext phs _ (segment_view _ ph)), Hg1.
  - intros ph' a [->|Hin]%elem_of_cons Hpt Ha; [|by apply (Hgr2 ph')].
    destruct (Hgr1 a Hpt Ha) as [[r Hra] Hgr]. split; [eexists; by apply (gt_old _ _ _ Hg2)|by eapply grants_grows].
  - intros va. rewrite Hk2, Hk1, in_image_cons. tauto.
Qed.
End segments.

Section executable.
Context {S N : Type} `{HV : VNode S N} `{HO : !VNodeOk S N} `{EC : ElfCrate} `{HEC : !ElfCrateOk EC}.
Context `{BF : Bitflags} `{HBF : !BitflagsOk BF}.

(** Nothing of this depends on the break or the kernel's stack. *)
Lemma same_fields s s' : km s' = km s → root_pt (mm s') = root_pt (mm s) → regions (mm s') = regions (mm s) →
  (∀ pages, loaded s pages → loaded s' pages) ∧ (tspace s → grows_to s s' (view s)) ∧
  ∀ a fl, grants s a fl → grants s' a fl.
Proof.
  destruct s as [[root rs ? ? ?] k], s' as [[root' rs' ? ? ?] k']. cbn [km mm root_pt regions]. intros -> -> ->.
  assert (Ht : ∀ m m', root_pt m' = root_pt m → regions m' = regions m → tspace (mkSpace m k) → tspace (mkSpace m' k)).
  { intros [] [] E1 E2 [[? ? ? ? ? ?] ? ? ?]. cbn in E1, E2. subst. split; [by split|done|done|done]. }
  split; [|split].
  - intros pages [Hts ? ? ? ?]. split; try done. by refine (Ht _ _ _ _ Hts).
  - intros Hts. split; try done. by refine (Ht _ _ _ _ Hts).
  - done.
Qed.

Lemma loaded_empty s : tspace s → regions (mm s) = [] → loaded s ∅.
Proof.
  intros Ht Hrs. assert (Hno : ∀ a, region_at s a = None) by (intros a; unfold region_at; by rewrite Hrs).
  split; [done| | |done|done].
  - intros a r. by rewrite Hno.
  - intros a _. rewrite Hno, lookup_empty. split; by intros [? ?].
Qed.

Lemma load_executable_ok open path s f fs1 h phs : tspace (l_sp s) → regions (mm (l_sp s)) = [] →
  open path (l_fs s) = (Ok f, fs1) → regular fs1 (inode f) → Forall is_u8 (content fs1 (inode f)) →
  let data := content fs1 (inode f) in
  parse_elf data = Ok (h, phs) → Forall (λ ph, p_type ph = PT_LOAD → segment_ok data ph) phs →
  match load_executable open path s with
  | (Ok entry, s') => entry = e_entry h ∧ same_files fs1 (l_fs s') ∧
      (∃ rs, mm (l_sp s') = mkMm (root_pt (mm (l_sp s))) rs (kernel_stack (mm (l_sp s))) (image_end phs 0) (image_end phs 0)) ∧
      (∃ pages, loaded (l_sp s') pages ∧ ∀ va, is_Some (pages !! va) ↔ in_image phs va ∧ page_of va = va) ∧
      grows_to (l_sp s) (l_sp s') (image data phs (λ _, None)) ∧
      ∀ ph a, ph ∈ phs → p_type ph = PT_LOAD → p_vaddr ph ≤ a < p_vaddr ph + p_memsz ph →
        grants (l_sp s') a (convert_elf_flag_to_pte (p_flags ph))
  | (Panic, s') => full (fa (km (l_sp s')))
  | _ => False
  end.
Proof.
  intros Ht Hrs Hop Hr Hd data Hpe Hok. unfold load_executable.
  destruct (load_from_file_spec open path s f fs1 Hop Hr) as (fs2 & o & Hs2 & Hlf). fold data in Hlf. rewrite Hpe in Hlf.
  cbn [obind] in Hlf. unfold bind at 1. rewrite Hlf. destruct (same_files_spec _ _ _ Hs2 Hr) as [Hr2 Hc2].
  pose proof (load_segments_spec data Hd phs (mkLoad fs2 (l_sp s)) (mkFile (inode f) o) ∅ 0 (loaded_empty _ Ht Hrs) Hr2 Hc2 Hok) as Hl.
  unfold bind at 1. destruct (load_segments _ phs ∅ 0 _) as [[mx|e| |] s1]; [|done..].
  destruct Hl as (-> & pages & [Hs1 [rs Hrs1] Hld1 Hg1 Hgr1 Hk1]). cbn [l_fs l_sp] in *.
  unfold bind, mm_op, zoom, set_initial_brk, modify, ret. cbn [l_fs l_sp]. set (sp2 := set_mm _ (l_sp s1)).
  destruct (same_fields (l_sp s1) sp2) as (Hld2 & Hg2 & Hgr2); [done..|].
  split; [done|]. split; [by eapply same_files_trans|]. split; [exists rs; by unfold sp2; cbn [mm set_mm]; rewrite Hrs1|].
  split; [|split].
  - exists pages. split; [by apply Hld2|]. intros va. rewrite Hk1, lookup_empty.
    split; [intros [[? ?]|?]; done|by right].
  - eapply grows_to_trans; [exact Hg1|]. eapply grows_to_ext; [apply Hg2, Hld1|]. intros a. rewrite (gt_view _ _ _ Hg1).
    apply image_ext. intros x. unfold view, region_at. by rewrite Hrs.
  - intros ph a Hin Hpt Ha. apply Hgr2. by apply (Hgr1 ph).
Qed.

(** C24: [Elf::load_from_file], which seeks in the file and reads it piece by
    piece through the VFS, computes the same headers and the same errors as
    [parse_elf] computes from the file's bytes.  It changes no file and no
    memory. *)
Theorem load_from_file_is_parse_elf open path s : (∀ f fs1, open path (l_fs s) = (Ok f, fs1) → regular fs1 (inode f)) →
  match open path (l_fs s) with
  | (Ok f, fs1) => ∃ fs' o, same_files fs1 fs' ∧ load_from_file open path s =
      (let? (h, phs) := parse_elf (content fs1 (inode f)) in Ok (mkFile (inode f) o, h, phs), mkLoad fs' (l_sp s))
  | (Err e, fs1) => load_from_file open path s = (Err (error_of_vfs e), mkLoad fs1 (l_sp s))
  | (Panic, fs1) => load_from_file open path s = (Panic, mkLoad fs1 (l_sp s))
  | (Diverge, fs1) => load_from_file open path s = (Diverge, mkLoad fs1 (l_sp s))
  end.
Proof.
  intros Hr. destruct (open path (l_fs s)) as [[f|e| |] fs1] eqn:Hop.
  - by apply load_from_file_spec, Hr.
  - unfold load_from_file, vfs_op, bind. by rewrite Hop.
  - unfold load_from_file, vfs_op, bind. by rewrite Hop.
  - unfold load_from_file, vfs_op, bind. by rewrite Hop.
Qed.

End executable.

(** ** An executable

    A parser of the 64-bit little-endian format that has the fields of the
    specification where it says they are. *)

Definition field (off len : nat) (bs : list Z) : Z := little_endian_to_Z 8 (take len (drop off bs)).

Definition elf64_ident (bs : list Z) : option unit :=
  if decide (take 6 bs = [0x7f; 0x45; 0x4c; 0x46; 2; 1]) then Some tt else None.
Definition elf64_tail (bs : list Z) : option (FileHeader unit) :=
  if decide (Forall is_u8 bs) then
    Some (mkFileHeader tt (field 0 2 bs) (field 8 8 bs) (field 16 8 bs) (field 38 2 bs) (field 40 2 bs))
  else None.
Definition elf64_at (off : Z) (bs : list Z) : option ProgramHeader :=
  let ph := drop (Z.to_nat off) bs in
  if decide (Forall is_u8 ph ∧ 56 ≤ length ph)%nat then
    Some (mkProgramHeader (field 0 4 ph) (field 4 4 ph) (field 8 8 ph) (field 16 8 ph) (field 32 8 ph) (field 40 8 ph))
  else None.

#[export] Instance elf64 : ElfCrate :=
  {| parse_ident := elf64_ident; parse_tail := λ _, elf64_tail; parse_at := λ _, elf64_at |}.

Lemma field_range off len bs : Forall is_u8 bs → 0 ≤ field off len bs < 2 ^ (Z.of_nat len * 8).
Proof.
  intros Hbs. unfold field. set (x := take len _).
  assert (Forall (λ b, 0 ≤ b < 2 ^ 8) x) as Hx by (by apply Forall_take, Forall_drop).
  pose proof (little_endian_to_Z_bound 8 x ltac:(done) Hx) as Hb. split; [lia|].
  eapply Z.lt_le_trans; [apply Hb|]. apply Z.pow_le_mono_r; [done|]. unfold x. rewrite length_take. lia.
Qed.

#[export] Instance elf64_ok : ElfCrateOk elf64.
Proof.
  split.
  - intros i bs h. cbn [parse_tail elf64]. unfold elf64_tail. case_decide as Hbs; [|done]. intros [= <-].
    cbn [e_type e_entry e_phoff e_phentsize e_phnum]. split_and!; first [exact (field_range _ 2 _ Hbs)|exact (field_range _ 8 _ Hbs)].
  - intros c o bs ph. cbn [parse_at elf64]. unfold elf64_at. case_decide as Hbs; [|done]. intros [= <-].
    destruct Hbs as [Hbs _]. cbn [p_type p_flags p_offset p_vaddr p_filesz p_memsz].
    split_and!; first [exact (field_range _ 4 _ Hbs)|exact (field_range _ 8 _ Hbs)].
Qed.

(** One segment at [0x10f00] with two bytes in the file, 512 in memory, and a second page. *)
Definition example_elf : list Z :=
  [0x7f; 0x45; 0x4c; 0x46; 2; 1] ++ replicate 10 0 ++
  Z_to_little_endian 2 8 2 ++ replicate 6 0 ++ Z_to_little_endian 8 8 0x10f00 ++ Z_to_little_endian 8 8 64 ++
  replicate 14 0 ++ Z_to_little_endian 2 8 56 ++ Z_to_little_endian 2 8 1 ++ replicate 6 0 ++
  Z_to_little_endian 4 8 1 ++ Z_to_little_endian 4 8 6 ++ Z_to_little_endian 8 8 120 ++ Z_to_little_endian 8 8 0x10f00 ++
  replicate 8 0 ++ Z_to_little_endian 8 8 2 ++ Z_to_little_endian 8 8 512 ++ replicate 8 0 ++ [7; 9].
Definition example_phdr : ProgramHeader := mkProgramHeader 1 6 120 0x10f00 2 512.

(** A file system whose only file it is, and a new address space. *)
Definition open_only (path : list Z) : M (list Z) VfsError (File unit) := ret (mkFile tt 0).
Definition example_kmem : Kmem := mkKmem (FrameAllocator.new 64 0x80200000) ∅ ∅.
Definition example_new : Space :=
  match mm_new example_kmem with (Ok m, k) => mkSpace m k | (_, k) => mkSpace EMPTY k end.
Definition example_load : Load := mkLoad example_elf example_new.

Lemma example_kmem_ok : kwf example_kmem ∧ meta_ok example_kmem.
Proof.
  split; [split|split; [apply PageMeta.wf_empty|done]]; [|done|by vm_compute].
  split; [by apply Forall_replicate|by vm_compute..].
Qed.

Lemma example_new_ok : tspace example_new ∧ regions (mm example_new) = [].
Proof.
  pose proof (mm_new_tspace example_kmem (proj1 example_kmem_ok) (proj2 example_kmem_ok)) as H. unfold example_new.
  assert (Ho : match mm_new example_kmem with (Ok _, _) => true | _ => false end = true) by (vm_compute; reflexivity).
  destruct (mm_new example_kmem) as [[m|e| |] k]; [|done..]. destruct H as (Heq & Hts & _). split; [done|by rewrite Heq].
Qed.

Lemma load_from_file_is_parse_elf_witness :
  ∃ fs' o, load_from_file open_only [] example_load =
    (Ok (mkFile tt o, mkFileHeader tt 2 0x10f00 64 56 1, [example_phdr]), mkLoad fs' example_new).
Proof.
  pose proof (load_from_file_is_parse_elf open_only [] example_load) as H. cbn [open_only ret example_load l_fs l_sp] in H.
  destruct H as (fs' & o & _ & Hl); [by intros f fs1 [= <- <-]|]. exists fs', o. rewrite Hl.
  assert (Hp : parse_elf (content example_elf tt) = Ok (mkFileHeader tt 2 0x10f00 64 56 1, [example_phdr]))
    by (vm_compute; reflexivity).
  unfold inode. by rewrite Hp.
Defined.

