(* ===== verification/InitStack.v ===== *)
(** * The first stack of a task

    [create_initial_stack] of [kernel/src/task/task.rs] on the stack that
    [MemoryManager::create_user_stack] makes: the arguments of a program as it
    finds them when it starts. *)

From S2P Require Import Prelude Errors Vfs Addr Sv39 FrameAllocator PageMeta PageTable PageMap PageFork MemMgr MemFault UserMem UserView ForkView KernelMap TaskSpace Elf ElfLoad.

(** ** Model *)

(** [argv.iter().map(|arg| arg.len() + 1).sum::<usize>()]. *)
Fixpoint sum_lens (argv : list (list Z)) (sum : Z) : outcome Error Z :=
  match argv with
  | [] => Ok sum
  | arg :: argv' =>
      let? n := add_ov 64 (Z.of_nat (length arg)) 1 in
      let? sum := add_ov 64 sum n in
      sum_lens argv' sum
  end.

(** A write through a kernel pointer into the direct mapping. *)
Definition kernel_write (ptr : Z) (bs : list Z) : MM unit := poke (ptr - KERNEL_DIRECT_MAPPING_BASE) bs.

(** The kernel's pointer to [va] of the stack's page. *)
Definition stack_ptr (align stack_top stack_top_kernel va : Z) : outcome Error Z :=
  let? d := difference va stack_top in
  let? p := ok_or (offset_by stack_top_kernel d) Overflow in
  kernel_ptr_new align p.

(** The loop that copies the strings, from the last to the first: the pointers
    in the order they are pushed. *)
Fixpoint push_strings (stack_top stack_top_kernel string_cursor : Z) (args : list (list Z)) : MM (list Z) :=
  match args with
  | [] => ret []
  | arg :: args' =>
      let! n := lift (add_ov 64 (Z.of_nat (length arg)) 1) in
      let! string_cursor := lift (ok_or (offset_by string_cursor (- as_isize n)) Overflow) in
      let! string_ptr := lift (stack_ptr 1 stack_top stack_top_kernel string_cursor) in
      kernel_write string_ptr arg ;;;
      kernel_write (string_ptr + Z.of_nat (length arg)) [0] ;;;
      let! ptrs := push_strings stack_top stack_top_kernel string_cursor args' in
      ret (string_cursor :: ptrs)
  end.

(** Writes of [usize]s, one after the other. *)
Fixpoint write_words (ptr : Z) (ws : list Z) : MM unit :=
  match ws with
  | [] => ret tt
  | w :: ws' => kernel_write ptr (Z_to_little_endian 8 8 w) ;;; write_words (ptr + 8) ws'
  end.

(** [create_initial_stack]. *)
Definition create_initial_stack (user_sp : Z) (argv : list (list Z)) : MM Z :=
  let stack_top := user_sp in
  let stack_page_start := align_down stack_top PAGE_SIZE in
  let! stack_top_kernel := unwrapped (translate_to_kernel user_sp) in
  let! strings_len := lift (sum_lens argv 0) in
  let! words := lift (add_ov 64 (1 + Z.of_nat (length argv)) 1) in
  let! words_len := lift (mul_ov 64 words 8) in
  let! stack_len := lift (add_ov 64 strings_len words_len) in
  let! room := lift (difference stack_top stack_page_start) in
  assert (stack_len <=? room mod 2 ^ 64) ;;;
  let! sp := lift (ok_or (offset_by stack_top (- as_isize stack_len)) Overflow) in
  let final_sp := align_down sp 16 in
  assert (stack_page_start <=? final_sp) ;;;
  let! ptrs := push_strings stack_top stack_top_kernel stack_top (reverse argv) in
  let argv_user_ptrs := reverse ptrs in
  let! frame_ptr := lift (stack_ptr 8 stack_top stack_top_kernel final_sp) in
  write_words frame_ptr [Z.of_nat (length argv)] ;;;
  write_words (frame_ptr + 8) argv_user_ptrs ;;;
  write_words (frame_ptr + 8 * (1 + Z.of_nat (length argv))) [0] ;;;
  ret final_sp.

(** ** What a program finds *)

(** The strings, each with its terminator, and where they start. *)
Definition strings (argv : list (list Z)) : list Z := concat ((λ arg, arg ++ [0]) <$> argv).
Fixpoint arg_ptrs (base : Z) (argv : list (list Z)) : list Z :=
  match argv with
  | [] => []
  | arg :: argv' => base :: arg_ptrs (base + Z.of_nat (length arg) + 1) argv'
  end.

Definition words_bytes (ws : list Z) : list Z := concat (Z_to_little_endian 8 8 <$> ws).

Definition strings_at (top : Z) (argv : list (list Z)) : Z := top - Z.of_nat (length (strings argv)).
Definition stack_size (argv : list (list Z)) : Z := Z.of_nat (length (strings argv)) + (Z.of_nat (length argv) + 2) * 8.
Definition initial_sp (top : Z) (argv : list (list Z)) : Z := (top - stack_size argv) / 16 * 16.

(** [argc], the pointers to the arguments, and a null pointer. *)
Definition argv_frame (top : Z) (argv : list (list Z)) : list Z :=
  words_bytes ([Z.of_nat (length argv)] ++ arg_ptrs (strings_at top argv) argv ++ [0]).

(** The contents of the memory with the strings below [top] and the frame below them. *)
Definition with_args (f : Z → option Z) (top : Z) (argv : list (list Z)) : Z → option Z :=
  patched (patched f (strings_at top argv) (strings argv)) (initial_sp top argv) (argv_frame top argv).

(** ** Lemmas on the layout *)

Lemma strings_cons arg argv : strings (arg :: argv) = (arg ++ [0]) ++ strings argv.
Proof. done. Qed.

Lemma strings_snoc argv arg : strings (argv ++ [arg]) = strings argv ++ arg ++ [0].
Proof. unfold strings. rewrite fmap_app, concat_app. cbn. by rewrite app_nil_r. Qed.

Lemma strings_length_snoc argv arg :
  Z.of_nat (length (strings (argv ++ [arg]))) = Z.of_nat (length (strings argv)) + Z.of_nat (length arg) + 1.
Proof. rewrite strings_snoc, !length_app. cbn. lia. Qed.

Lemma arg_ptrs_snoc argv arg : ∀ base,
  arg_ptrs base (argv ++ [arg]) = arg_ptrs base argv ++ [base + Z.of_nat (length (strings argv))].
Proof.
  induction argv as [|a argv IH]; intros base; cbn [arg_ptrs app]; [by rewrite Z.add_0_r|].
  rewrite IH, strings_cons, !length_app. cbn [length]. do 3 f_equal. lia.
Qed.

Lemma arg_ptrs_length argv : ∀ base, length (arg_ptrs base argv) = length argv.
Proof. induction argv as [|a argv IH]; intros base; cbn [arg_ptrs length]; [done|]. by rewrite IH. Qed.

Lemma words_bytes_length ws : Z.of_nat (length (words_bytes ws)) = 8 * Z.of_nat (length ws).
Proof.
  unfold words_bytes. induction ws as [|w ws IH]; [done|]. cbn [fmap list_fmap concat].
  rewrite length_app, Nat2Z.inj_add, IH, length_Z_to_little_endian by done. cbn [length]. lia.
Qed.

Lemma strings_u8 argv : Forall (Forall is_u8) argv → Forall is_u8 (strings argv).
Proof.
  intros H. unfold strings. apply Forall_concat, Forall_fmap. eapply Forall_impl; [exact H|].
  intros arg Harg. apply Forall_app. split; [done|]. by repeat constructor.
Qed.

Lemma word_u8 w : Forall is_u8 (Z_to_little_endian 8 8 w).
Proof. by apply Z_to_little_endian_bound. Qed.

(** A patch below another one. *)
Lemma patched_below f a bs bs' x : patched (patched f (a + Z.of_nat (length bs)) bs') a bs x = patched f a (bs ++ bs') x.
Proof.
  unfold patched. rewrite length_app. repeat case_decide; try lia; try done.
  - by rewrite lookup_app_l by lia.
  - rewrite lookup_app_r by lia. f_equal. lia.
Qed.

Lemma sum_lens_spec argv : ∀ sum, 0 ≤ sum < 2 ^ 64 →
  let n := sum + Z.of_nat (length (strings argv)) in
  sum_lens argv sum = if n <? 2 ^ 64 then Ok n else Panic.
Proof.
  induction argv as [|arg argv IH]; intros sum Hs n; cbn [sum_lens].
  { unfold n. cbn [strings fmap list_fmap concat length]. rewrite Z.add_0_r.
    by rewrite (proj2 (Z.ltb_lt _ _)) by apply Hs. }
  assert (Hn : n = sum + (Z.of_nat (length arg) + 1) + Z.of_nat (length (strings argv)))
    by (unfold n; rewrite strings_cons, !length_app; cbn [length]; lia).
  unfold add_ov, checked_add. destruct (Z.ltb_spec (Z.of_nat (length arg) + 1) (2 ^ 64)).
  2: { cbn [unwrap obind]. by rewrite (proj2 (Z.ltb_ge _ _)) by lia. }
  cbn [unwrap obind]. destruct (Z.ltb_spec (sum + (Z.of_nat (length arg) + 1)) (2 ^ 64)).
  2: { cbn [unwrap obind]. by rewrite (proj2 (Z.ltb_ge _ _)) by lia. }
  cbn [unwrap obind]. rewrite IH by lia. cbv zeta. by rewrite <-Hn.
Qed.

Lemma as_isize_small x : x < 2 ^ 63 → as_isize x = x.
Proof. intros Hx. unfold as_isize. by rewrite (proj2 (Z.ltb_lt _ _)). Qed.

(** ** Writing to the stack's page *)

Section stack.
Context `{BF : Bitflags} `{HBF : !BitflagsOk BF}.
Context (s0 : Space) (mapped : gmap Z Z) (top e : Z).
Context (Hld0 : loaded s0 mapped) (Htop : 0 ≤ top < 2 ^ 38) (Hpage : is_Some (mapped !! page_of top)).
Context (Hl0 : leaf s0 top = Some (e, 0%nat)).

(** The kernel's address of the top of the stack. *)
Let kt : Z := ppn_address e + top mod 4096 + KERNEL_DIRECT_MAPPING_BASE.

(** The space after some writes, with the contents [f]. *)
Record written (s : Space) (f : Z → option Z) : Prop := {
  wr_mm : mm s = mm s0;
  wr_loaded : loaded s mapped;
  wr_grows : grows_to s0 s f;
  wr_leaf : leaf s top = Some (e, 0%nat);
}.

Lemma written_refl : written s0 (view s0).
Proof. split; try done. apply grows_to_refl, Hld0. Qed.

Lemma written_ext s f g : written s f → (∀ a, f a = g a) → written s g.
Proof. intros [? ? ? ?] Hfg. split; try done. by eapply grows_to_ext. Qed.

Lemma stack_write s f va bs : written s f → page_of top ≤ va → va + Z.of_nat (length bs) ≤ page_of top + 4096 →
  Forall is_u8 bs → bs ≠ [] ∨ va < page_of top + 4096 →
  ∃ s', kernel_write (kt + (va - top)) bs s = (Ok tt, s') ∧ written s' (patched f va bs).
Proof.
  intros [Hmm Hld Hg Hl] Hlo Hhi Hb Hne. assert (Hva : va < page_of top + 4096)
    by (destruct Hne as [Hne|?]; [|done]; destruct bs; [done|cbn [length] in Hhi; lia]).
  assert (Hp : page_of va = page_of top ∧ 0 ≤ page_of top) by (unfold page_of in *; Z.div_mod_to_equations; lia).
  destruct Hp as [Hp Hp0].
  destruct (loaded_poke s mapped va bs Hld ltac:(lia) ltac:(by rewrite Hp) ltac:(rewrite <-Hp in Hhi; unfold page_of in Hhi; lia) Hb)
    as (e' & s' & Hl' & _ & Ho & Hmm' & Hld' & Hg' & Hleaf).
  assert (e' = e) as -> by (unfold leaf in *; rewrite Hp in Hl'; congruence).
  exists s'. unfold kernel_write, kt.
  assert (ppn_address e + top mod 4096 + KERNEL_DIRECT_MAPPING_BASE + (va - top) - KERNEL_DIRECT_MAPPING_BASE =
    ppn_address e + va mod 4096) as -> by (unfold page_of in Hp; lia).
  split; [done|]. split; [congruence|done| |by rewrite Hleaf].
  eapply grows_to_trans; [exact Hg|]. eapply grows_to_ext; [exact Hg'|]. intros x. apply patched_ext, Hg.
Qed.

Lemma frame_table_ok : table_ok (ppn_address e).
Proof.
  destruct (loaded_poke s0 mapped top [] Hld0 ltac:(lia) Hpage) as (e' & s' & Hl' & Hok & _); [|done|].
  - cbn [length]. Z.div_mod_to_equations; lia.
  - assert (e' = e) as -> by congruence. done.
Qed.

(** The pointers stay in the page. *)
Lemma stack_ptr_spec align va : page_of top ≤ va ≤ top → align = 1 ∨ align = 8 ∧ va mod 8 = 0 →
  stack_ptr align top kt va = Ok (kt + (va - top)).
Proof.
  intros Hva Hal. destruct frame_table_ok as (Ht0 & Htm & Ht1). change (2 ^ 38) with 274877906944 in Htop.
  change (2 ^ 64) with 18446744073709551616 in Ht1.
  assert (Hr : 0 ≤ page_of top ∧ 0 ≤ top mod 4096 < 4096 ∧ page_of top = top - top mod 4096)
    by (unfold page_of; Z.div_mod_to_equations; lia).
  assert (Hkt : 0 < kt + (va - top) < 2 ^ 64).
  { unfold kt, KERNEL_DIRECT_MAPPING_BASE in *. change (2 ^ 64) with 18446744073709551616. Z.div_mod_to_equations; lia. }
  unfold stack_ptr, difference. rewrite !as_isize_small by (change (2 ^ 63) with 9223372036854775808; lia).
  assert ((- 2 ^ 63 <=? va - top) && (va - top <? 2 ^ 63) = true) as ->.
  { apply andb_true_iff. change (2 ^ 63) with 9223372036854775808. split; [apply Z.leb_le|apply Z.ltb_lt]; lia. }
  cbn [obind]. assert (offset_by kt (va - top) = Some (kt + (va - top))) as ->.
  { unfold offset_by, checked_sub, checked_add. destruct (Z.ltb_spec (va - top) 0).
    - rewrite (proj2 (Z.leb_le _ _)) by lia. f_equal. lia.
    - by rewrite (proj2 (Z.ltb_lt _ _)) by lia. }
  cbn [ok_or obind]. unfold kernel_ptr_new. rewrite (proj2 (Z.eqb_neq _ _)) by lia.
  assert ((kt + (va - top)) mod align = 0) as ->; [|done]. destruct Hal as [->|[-> Hm]]; [apply Z.mod_1_r|].
  unfold kt, KERNEL_DIRECT_MAPPING_BASE in *. Z.div_mod_to_equations; lia.
Qed.

Lemma top_page : 0 ≤ page_of top ≤ top ∧ top < page_of top + 4096.
Proof. clear -Htop. unfold page_of. Z.div_mod_to_equations; lia. Qed.

(** One string with its terminator. *)
Lemma push_string s f c arg : written s f → page_of top ≤ c - (Z.of_nat (length arg) + 1) → c ≤ top → Forall is_u8 arg →
  let c' := c - (Z.of_nat (length arg) + 1) in
  ∃ s', (kernel_write (kt + (c' - top)) arg ;;; kernel_write (kt + (c' - top) + Z.of_nat (length arg)) [0]) s = (Ok tt, s') ∧
    written s' (patched f c' (arg ++ [0])).
Proof.
  intros Hw Hlo Hc Hb c'. pose proof top_page.
  destruct (stack_write s f c' arg Hw ltac:(lia) ltac:(lia) Hb ltac:(right; lia)) as (s1 & H1 & Hw1).
  destruct (stack_write s1 _ (c' + Z.of_nat (length arg)) [0] Hw1 ltac:(lia) ltac:(cbn [length]; lia)
    ltac:(by repeat constructor) ltac:(by left)) as (s2 & H2 & Hw2).
  exists s2. unfold bind. rewrite H1.
  assert (kt + (c' + Z.of_nat (length arg) - top) = kt + (c' - top) + Z.of_nat (length arg)) as <- by lia.
  split; [exact H2|]. eapply written_ext; [exact Hw2|]. intros x. apply patched_app.
Qed.

Lemma push_strings_spec args : ∀ s f c, written s f → page_of top ≤ c - Z.of_nat (length (strings (reverse args))) →
  c ≤ top → Forall (Forall is_u8) args →
  let base := c - Z.of_nat (length (strings (reverse args))) in
  ∃ s' ptrs, push_strings top kt c args s = (Ok ptrs, s') ∧ reverse ptrs = arg_ptrs base (reverse args) ∧
    written s' (patched f base (strings (reverse args))).
Proof.
  induction args as [|arg args IH]; intros s f c Hw Hlo Hc Hb base; cbn [push_strings].
  { exists s, []. split; [done|]. split; [done|]. eapply written_ext; [exact Hw|]. intros x. symmetry. apply patched_nil. }
  apply Forall_cons in Hb as [Hb1 Hb]. unfold base in *. rewrite reverse_cons in *. rewrite strings_length_snoc in *.
  pose proof top_page. change (2 ^ 38) with 274877906944 in Htop.
  set (c' := c - (Z.of_nat (length arg) + 1)). unfold bind at 1, lift at 1, add_ov, checked_add.
  rewrite (proj2 (Z.ltb_lt _ _)) by (change (2 ^ 64) with 18446744073709551616; lia). cbn [unwrap].
  rewrite as_isize_small by (change (2 ^ 63) with 9223372036854775808; lia).
  assert (offset_by c (- (Z.of_nat (length arg) + 1)) = Some c') as Hoff.
  { unfold offset_by, checked_sub. rewrite (proj2 (Z.ltb_lt _ 0)) by lia. rewrite (proj2 (Z.leb_le _ _)) by lia.
    unfold c'. f_equal. lia. }
  unfold bind at 1, lift at 1. rewrite Hoff. cbn [ok_or].
  unfold bind at 1, lift at 1. rewrite stack_ptr_spec by (lia || by left).
  destruct (push_string s f c arg Hw ltac:(lia) Hc Hb1) as (s1 & H1 & Hw1). fold c' in H1, Hw1.
  destruct (IH s1 _ c' Hw1 ltac:(lia) ltac:(lia) Hb) as (s2 & ptrs & H2 & Hptrs & Hw2).
  set (n := Z.of_nat (length (strings (reverse args)))) in *.
  exists s2, (c' :: ptrs). split; [|split].
  - unfold bind in H1. unfold bind. destruct (kernel_write (kt + (c' - top)) arg s) as [[]]; [|done..].
    by rewrite H1, H2.
  - rewrite reverse_cons, Hptrs, arg_ptrs_snoc. f_equal; [f_equal; lia|f_equal; lia].
  - eapply written_ext; [exact Hw2|]. intros x. rewrite strings_snoc, <-(patched_below f _ (strings (reverse args))). fold n.
    assert (c - (n + Z.of_nat (length arg) + 1) = c' - n) as -> by lia. by rewrite Z.sub_add.
Qed.

(** A run of words. *)
Lemma write_words_spec ws : ∀ s f va, written s f → page_of top ≤ va → va + 8 * Z.of_nat (length ws) ≤ page_of top + 4096 →
  ∃ s', write_words (kt + (va - top)) ws s = (Ok tt, s') ∧ written s' (patched f va (words_bytes ws)).
Proof.
  induction ws as [|w ws IH]; intros s f va Hw Hlo Hhi; cbn [write_words].
  { exists s. split; [done|]. eapply written_ext; [exact Hw|]. intros x. symmetry. apply patched_nil. }
  cbn [length] in Hhi. assert (Hlen : length (Z_to_little_endian 8 8 w) = 8%nat) by (apply Nat2Z.inj; by rewrite length_Z_to_little_endian).
  destruct (stack_write s f va (Z_to_little_endian 8 8 w) Hw Hlo ltac:(lia) (word_u8 w) ltac:(right; lia)) as (s1 & H1 & Hw1).
  destruct (IH s1 _ (va + 8) Hw1 ltac:(lia) ltac:(lia)) as (s2 & H2 & Hw2).
  exists s2. unfold bind. rewrite H1. assert (kt + (va + 8 - top) = kt + (va - top) + 8) as <- by lia.
  split; [done|]. eapply written_ext; [exact Hw2|]. intros x. change 8 with (Z.of_nat 8). rewrite <-Hlen at 1. apply patched_app.
Qed.
End stack.

Section initial.
Context `{BF : Bitflags} `{HBF : !BitflagsOk BF}.

Lemma translate_to_kernel_spec (s : Space) mapped va : loaded s mapped → 0 ≤ va < 2 ^ 38 → is_Some (mapped !! page_of va) →
  ∃ e, leaf s va = Some (e, 0%nat) ∧
    translate_to_kernel va s = (Ok (ppn_address e + va mod 4096 + KERNEL_DIRECT_MAPPING_BASE), s).
Proof.
  intros Hld Hva Hp. destruct (loaded_poke s mapped va [] Hld ltac:(lia) Hp) as (e & s' & Hl & Hok & _); [|done|].
  { cbn [length]. Z.div_mod_to_equations; lia. }
  exists e. split; [done|]. destruct (low_va_ok va Hva) as [Hv Hvok]. pose proof (us_space s (ts_user s (ld_space _ _ Hld))) as Has.
  unfold translate_to_kernel. unfold bind at 1. rewrite mm_translate_spec by (done || apply Hva).
  rewrite translate_walk by (done || apply Has || apply Hva). rewrite <-leaf_of_page in Hl by done. unfold leaf_of in Hl. rewrite Hl.
  cbn [fmap option_fmap option_map size_of ok_or]. unfold bind, lift, phys_to_virt, add_ov, checked_add.
  change (bytes Size4K) with 4096. destruct Hok as (H0 & Hm & Ht). change (2 ^ 64) with 18446744073709551616 in *.
  rewrite (proj2 (Z.ltb_lt _ _)); [done|]. unfold KERNEL_DIRECT_MAPPING_BASE in *. Z.div_mod_to_equations; lia.
Qed.

Lemma align_16 x : 0 ≤ x < 2 ^ 38 → align_down x 16 = x / 16 * 16.
Proof.
  intros Hx. change (2 ^ 38) with 274877906944 in Hx. change 16 with (2 ^ 4) at 1.
  rewrite align_down_pow2 by (lia || (unfold in_width; change (2 ^ 64) with 18446744073709551616; lia)).
  change (2 ^ 4) with 16. Z.div_mod_to_equations; lia.
Qed.

(** The frame is written in three parts. *)
Lemma argv_frame_parts f top argv sp x :
  patched (patched (patched f sp (words_bytes [Z.of_nat (length argv)]))
      (sp + 8) (words_bytes (arg_ptrs (strings_at top argv) argv)))
    (sp + 8 * (1 + Z.of_nat (length argv))) (words_bytes [0]) x = patched f sp (argv_frame top argv) x.
Proof.
  assert (H1 : ∀ w, Z.of_nat (length (words_bytes [w])) = 8) by (intros w; by rewrite words_bytes_length).
  rewrite <-(H1 (Z.of_nat (length argv))) at 1.
  rewrite (patched_ext _ _ _ _ _ (λ y, patched_app f sp _ _ y)).
  replace (sp + 8 * (1 + Z.of_nat (length argv))) with (sp + Z.of_nat (length (words_bytes [Z.of_nat (length argv)] ++
    words_bytes (arg_ptrs (strings_at top argv) argv)))).
  - rewrite patched_app. unfold argv_frame, words_bytes. rewrite !fmap_app, !concat_app. by rewrite <-app_assoc.
  - rewrite length_app, Nat2Z.inj_add, !words_bytes_length, arg_ptrs_length. cbn [length]. lia.
Qed.

(** The writes, once there is room. *)
Definition write_stack (top kt : Z) (argv : list (list Z)) : MM Z :=
  let! ptrs := push_strings top kt top (reverse argv) in
  let! frame_ptr := lift (stack_ptr 8 top kt (initial_sp top argv)) in
  write_words frame_ptr [Z.of_nat (length argv)] ;;;
  write_words (frame_ptr + 8) (reverse ptrs) ;;;
  write_words (frame_ptr + 8 * (1 + Z.of_nat (length argv))) [0] ;;;
  ret (initial_sp top argv).

Lemma create_initial_stack_checks top argv kt s : translate_to_kernel top s = (Ok kt, s) → 0 ≤ top < 2 ^ 38 →
  create_initial_stack top argv s = if stack_size argv <=? top mod 4096 then write_stack top kt argv s else (Panic, s).
Proof.
  intros Htr Htop. set (n := Z.of_nat (length (strings argv))).
  assert (Hsz : stack_size argv = n + (Z.of_nat (length argv) + 2) * 8) by done.
  change (2 ^ 38) with 274877906944 in Htop. assert (Hmod : 0 ≤ top mod 4096 < 4096 ∧ top mod 4096 ≤ top) by (Z.div_mod_to_equations; lia).
  unfold create_initial_stack. rewrite align_down_page by (split; [lia|change (2 ^ 64) with 18446744073709551616; lia]).
  unfold bind at 1, unwrapped. rewrite Htr. unfold bind at 1, lift at 1. rewrite sum_lens_spec by done. cbv zeta.
  rewrite Z.add_0_l. fold n. unfold add_ov, checked_add, mul_ov, checked_mul.
  change (2 ^ 64) with 18446744073709551616.
  destruct (Z.ltb_spec n 18446744073709551616) as [Hn|Hn]; [|by rewrite (proj2 (Z.leb_gt _ _)) by lia].
  unfold bind at 1, lift at 1. destruct (Z.ltb_spec (1 + Z.of_nat (length argv) + 1) 18446744073709551616);
    [|by rewrite (proj2 (Z.leb_gt _ _)) by lia]. cbn [unwrap].
  unfold bind at 1, lift at 1. destruct (Z.ltb_spec ((1 + Z.of_nat (length argv) + 1) * 8) 18446744073709551616);
    [|by rewrite (proj2 (Z.leb_gt _ _)) by lia]. cbn [unwrap].
  unfold bind at 1, lift at 1.
  replace (n + (1 + Z.of_nat (length argv) + 1) * 8) with (stack_size argv) by lia.
  destruct (Z.ltb_spec (stack_size argv) 18446744073709551616); [|by rewrite (proj2 (Z.leb_gt _ _)) by lia]. cbn [unwrap].
  unfold difference. change (2 ^ 63) with 9223372036854775808.
  unfold bind at 1, lift at 1. rewrite !as_isize_small by (change (2 ^ 63) with 9223372036854775808; lia).
  replace (top - (top - top mod 4096)) with (top mod 4096) by lia.
  rewrite (proj2 (Z.leb_le _ _)), (proj2 (Z.ltb_lt (top mod 4096) 9223372036854775808)) by lia. cbn [andb].
  rewrite (Z.mod_small (top mod 4096)) by lia. unfold bind at 1, assert at 1.
  destruct (Z.leb_spec (stack_size argv) (top mod 4096)) as [Hle|]; [|done].
  rewrite as_isize_small by (change (2 ^ 63) with 9223372036854775808; lia). unfold bind at 1, lift at 1, offset_by, checked_sub.
  rewrite (proj2 (Z.ltb_lt _ 0)), (proj2 (Z.leb_le _ _)) by lia. cbn [ok_or].
  rewrite Z.abs_opp, Z.abs_eq by lia. rewrite align_16 by (change (2 ^ 38) with 274877906944; lia).
  unfold bind at 1, assert at 1. rewrite (proj2 (Z.leb_le _ _)) by (Z.div_mod_to_equations; lia). done.
Qed.

Lemma create_initial_stack_ok s mapped top argv : loaded s mapped → 0 ≤ top < 2 ^ 38 → is_Some (mapped !! page_of top) →
  Forall (Forall is_u8) argv → stack_size argv ≤ top mod 4096 →
  ∃ s', create_initial_stack top argv s = (Ok (initial_sp top argv), s') ∧ mm s' = mm s ∧ loaded s' mapped ∧
    grows_to s s' (with_args (view s) top argv).
Proof.
  intros Hld Htop Hp Hb Hfit. destruct (translate_to_kernel_spec s mapped top Hld Htop Hp) as (e & Hl & Htr).
  rewrite (create_initial_stack_checks _ _ _ _ Htr Htop), (proj2 (Z.leb_le _ _) Hfit).
  set (n := Z.of_nat (length (strings argv))). assert (Hsz : stack_size argv = n + (Z.of_nat (length argv) + 2) * 8) by done.
  assert (Hsp : page_of top ≤ initial_sp top argv ≤ top - stack_size argv ∧ initial_sp top argv mod 8 = 0).
  { unfold initial_sp, page_of. Z.div_mod_to_equations; lia. }
  pose proof (top_page top Htop) as Hpg. set (sp := initial_sp top argv) in *. set (kt := _ + KERNEL_DIRECT_MAPPING_BASE).
  destruct (push_strings_spec s mapped top e Hld Htop Hp Hl (reverse argv) s (view s) top) as (s1 & ptrs & H1 & Hptrs & Hw1);
    rewrite ?reverse_involutive; [by apply written_refl|unfold page_of; lia|lia|by apply Forall_reverse|].
  rewrite reverse_involutive in Hptrs, Hw1. fold n in Hptrs, Hw1. fold kt in H1.
  destruct (write_words_spec s mapped top e Htop Hp [Z.of_nat (length argv)] s1 _ sp Hw1) as (s2 & H2 & Hw2); [lia|cbn [length]; lia|].
  destruct (write_words_spec s mapped top e Htop Hp (reverse ptrs) s2 _ (sp + 8) Hw2) as (s3 & H3 & Hw3);
    [lia|rewrite Hptrs, arg_ptrs_length; lia|].
  destruct (write_words_spec s mapped top e Htop Hp [0] s3 _ (sp + 8 * (1 + Z.of_nat (length argv))) Hw3)
    as (s4 & H4 & Hw4); [lia|cbn [length]; lia|].
  rewrite Hptrs in Hw4. apply (written_ext _ _ _ _ _ _ (with_args (view s) top argv)) in Hw4; [|intros x; apply argv_frame_parts].
  exists s4. split; [|split; [apply Hw4|split; apply Hw4]]. fold kt in H2, H3, H4.
  unfold write_stack. rewrite (bind_ok _ _ _ _ _ H1). fold sp. unfold bind at 1, lift.
  pose proof (stack_ptr_spec s mapped top e Hld Htop Hp Hl 8 sp ltac:(lia) ltac:(right; split; [done|apply Hsp])) as Hptr.
  fold kt in Hptr. rewrite Hptr.
  rewrite (bind_ok _ _ _ _ _ H2). replace (kt + (sp + 8 - top)) with (kt + (sp - top) + 8) in H3 by lia.
  rewrite (bind_ok _ _ _ _ _ H3). replace (kt + (sp + 8 * (1 + Z.of_nat (length argv)) - top)) with
    (kt + (sp - top) + 8 * (1 + Z.of_nat (length argv))) in H4 by lia. by rewrite (bind_ok _ _ _ _ _ H4).
Qed.
End initial.

(** ** The user's stack *)

Definition STACK_BOTTOM : Z := 0x3fff1000.
Definition STACK_END : Z := 0x3fff9000.
Definition STACK_TOP : Z := 0x3fff8fa0.

Section user_stack.
Context `{BF : Bitflags} `{HBF : !BitflagsOk BF}.

Definition stack_flags : Z := bf_bitor PTE_RW PTE_U.

Lemma stack_flags_ok : segment_flags stack_flags ∧ Z.testbit stack_flags 1 = true ∧ Z.testbit stack_flags 2 = true.
Proof. unfold stack_flags. rewrite bf_bitor_spec. by vm_compute. Qed.

Definition stack_mapped (s s' : Space) (pages pages' : gmap Z Z) (lo hi : Z) : Prop :=
  pages_mapped (S := unit) (mkLoad tt s) (mkLoad tt s') pages pages' lo hi stack_flags.

Lemma user_stack_loop_spec n : ∀ s pages va, loaded s pages → va mod 4096 = 0 → 0 ≤ va →
  va + 4096 + Z.of_nat n * 4096 ≤ 2 ^ 38 →
  (∀ p, va + 4096 ≤ p < va + 4096 + Z.of_nat n * 4096 → pages !! p = None) →
  match user_stack_loop n va s with
  | (Ok va', s') => va' = va + Z.of_nat n * 4096 ∧
      ∃ pages', stack_mapped s s' pages pages' (va + 4096) (va + 4096 + Z.of_nat n * 4096)
  | (Panic, s') => full (fa (km s'))
  | _ => False
  end.
Proof.
  induction n as [|n IH]; intros s pages va Hld Hm H0 Hle Hno; cbn [user_stack_loop].
  { split; [lia|]. exists pages. unfold stack_mapped. rewrite Z.add_0_r. by apply pages_mapped_refl. }
  change (2 ^ 38) with 274877906944 in *. unfold bind at 1, lift at 1, offset_by, checked_add. change (PAGE_SIZE <? 0) with false.
  change PAGE_SIZE with 4096. rewrite (proj2 (Z.ltb_lt _ _)) by (change (2 ^ 64) with 18446744073709551616; lia). cbn [ok_or].
  pose proof (map_fresh_page_spec (mkLoad tt s) pages (va + 4096) stack_flags Hld ltac:(Z.div_mod_to_equations; lia) ltac:(lia)
    ltac:(change (2 ^ 38) with 274877906944; lia) (proj1 stack_flags_ok) (Hno (va + 4096) ltac:(lia))) as H1.
  unfold mm_op, zoom in H1. cbn [l_sp l_fs] in H1. unfold bind. fold stack_flags.
  destruct (map_allocate_page (va + 4096) stack_flags s) as [[pa|e| |] s1]; [|done..].
  assert (Hno1 : ∀ p, va + 4096 + 4096 ≤ p < va + 4096 + 4096 + Z.of_nat n * 4096 → <[va + 4096 := stack_flags]> pages !! p = None).
  { intros p Hp. rewrite lookup_insert_ne by lia. apply Hno. lia. }
  specialize (IH s1 _ (va + 4096) (pm_loaded _ _ _ _ _ _ _ H1) ltac:(Z.div_mod_to_equations; lia) ltac:(lia) ltac:(lia) Hno1).
  destruct (user_stack_loop n (va + 4096) s1) as [[va'|e| |] s2]; [|done..]. destruct IH as [-> [pages' H2]].
  split; [lia|]. exists pages'. unfold stack_mapped.
  replace (va + 4096 + Z.of_nat (S n) * 4096) with (va + 4096 + 4096 + Z.of_nat n * 4096) by lia.
  eapply pages_mapped_trans; [| | |exact H1|exact H2]; [lia|lia|]. unfold page_of. Z.div_mod_to_equations; lia.
Qed.

(** Eight pages, and the stack pointer near the end of the last one. *)
Lemma create_user_stack_spec s pages : loaded s pages → (∀ p, STACK_BOTTOM ≤ p < STACK_END → pages !! p = None) →
  match create_user_stack s with
  | (Ok sp, s') => sp = STACK_TOP ∧ ∃ pages', stack_mapped s s' pages pages' STACK_BOTTOM STACK_END
  | (Panic, s') => full (fa (km s'))
  | _ => False
  end.
Proof.
  intros Hld Hno. unfold create_user_stack, bind.
  pose proof (user_stack_loop_spec 8 s pages 0x3fff0000 Hld eq_refl ltac:(done) ltac:(done) Hno) as H.
  destruct (user_stack_loop 8 0x3fff0000 s) as [[va|e| |] s']; [|done..]. destruct H as [-> [pages' H]].
  split; [done|]. by exists pages'.
Qed.
End user_stack.
