(* ===== verification/InOrder.v ===== *)
(** * Frames in order

    The frame allocator hands out the first free frame.  As long as none is
    freed, the frames in use are the first ones, and every step that makes a
    new address space ([kernel/src/mm/mod.rs], [kernel/src/exec/elf.rs]) takes
    the next ones: this is what makes the frames of a kernel stack contiguous. *)

From S2P Require Import Prelude Errors Kmalloc Vfs Addr Sv39 FrameAllocator PageMeta PageTable PageMap PageFork MemMgr MemFault UserMem UserView ForkView KernelMap TaskSpace Elf ElfLoad InitStack.

(** ** Steps that keep a relation *)

Section keeps.
Context {S : Type} (R : relation S) `{!PreOrder R}.

(** From the state before to the state after, however the step ends. *)
Definition keeps {E A} (m : M S E A) : Prop := ∀ s, R s (m s).2.

Context {E A B : Type}.

Lemma keeps_ret (a : A) : keeps (ret (E := E) a).
Proof. intros s. done. Qed.
Lemma keeps_lift (o : outcome E A) : keeps (lift o).
Proof. intros s. done. Qed.
Lemma keeps_gets (f : S → A) : keeps (gets (E := E) f).
Proof. intros s. done. Qed.
Lemma keeps_fail (e : E) : keeps (fail (A := A) e).
Proof. intros s. done. Qed.
Lemma keeps_panic : keeps (panic (E := E) (A := A)).
Proof. intros s. done. Qed.
Lemma keeps_diverge : keeps (diverge (E := E) (A := A)).
Proof. intros s. done. Qed.
Lemma keeps_assert b : keeps (assert (E := E) b).
Proof. intros s. by destruct b. Qed.
Lemma keeps_bind (m : M S E A) (k : A → M S E B) : keeps m → (∀ a, keeps (k a)) → keeps (bind m k).
Proof.
  intros Hm Hk s. unfold bind. specialize (Hm s). destruct (m s) as [[a|e| |] s']; try done.
  by etrans; [|apply Hk].
Qed.
Lemma keeps_unwrapped (m : M S E A) : keeps m → keeps (unwrapped (E' := E) m).
Proof. intros Hm s. specialize (Hm s). unfold unwrapped. by destruct (m s) as [[] s']. Qed.
Lemma keeps_attempt {E'} (m : M S E A) : keeps m → keeps (attempt (E' := E') m).
Proof. intros Hm s. specialize (Hm s). unfold attempt. by destruct (m s) as [[] s']. Qed.
Lemma keeps_for_each (f : A → M S E unit) xs : (∀ x, keeps (f x)) → keeps (for_each f xs).
Proof.
  intros Hf. induction xs as [|x xs IH]; cbn [for_each]; [intros s; done|].
  intros s. unfold bind. specialize (Hf x s). destruct (f x s) as [[a|e| |] s']; try done. by etrans; [|apply IH].
Qed.
End keeps.

(** ** Frames *)

(** Every frame has its 512 words. *)
Definition wide (k : Kmem) : Prop := ∀ x, length (frame (mem k) x) = 512%nat.

(** If the frames in use are the first ones, then so they are afterwards; and
    frames keep their size. *)
Definition packs (k k' : Kmem) : Prop :=
  (∀ n, used k n → ∃ n', used_more k k' n n') ∧ (wide k → wide k').

#[export] Instance packs_preorder : PreOrder packs.
Proof.
  split.
  - intros k. split; [|done]. intros n Hn. exists n. split_and!; [done..|lia].
  - intros k k1 k2 [H1 W1] [H2 W2]. split; [|auto]. intros n Hn. destruct (H1 n Hn) as [n1 Hn1].
    destruct (H2 n1 (proj1 Hn1)) as [n2 Hn2]. exists n2. by eapply used_more_trans.
Qed.

Lemma packs_same k k' : fa k' = fa k → (wide k → wide k') → packs k k'.
Proof.
  intros Hfa Hw. split; [|done]. intros n (Hk & Hn & Hu). exists n. unfold used_more, used. rewrite Hfa.
  split_and!; try done; [|lia..]. destruct Hk. split; by rewrite Hfa.
Qed.

(** Writes of words and of bytes. *)
Lemma upd_wide t i e k : wide k → wide (set_mem (upd t i e (mem k)) k).
Proof.
  intros Hw x. cbn [mem set_mem]. destruct (decide (x = t)) as [->|].
  - unfold upd. by rewrite frame_insert, length_insert.
  - unfold upd. by rewrite frame_insert_ne.
Qed.

Lemma frame_wide pa ws k : length ws = 512%nat → wide k → wide (set_mem (<[pa := ws]> (mem k)) k).
Proof.
  intros Hl Hw x. cbn [mem set_mem]. destruct (decide (x = pa)) as [->|]; [by rewrite frame_insert|by rewrite frame_insert_ne].
Qed.

Lemma set_bytes_wide bs : ∀ pa k, wide k → wide (set_mem (set_bytes pa bs (mem k)) k).
Proof.
  induction bs as [|b bs IH]; intros pa k Hw; cbn [set_bytes]; [by destruct k|].
  apply (IH (pa + 1) (set_mem (set_byte pa b (mem k)) k)). by apply upd_wide.
Qed.

Abbreviation kmem_packs := (keeps packs).
Abbreviation space_packs := (keeps (λ s s' : Space, packs (km s) (km s'))).

Create HintDb keeps discriminated.
#[export] Hint Constants Opaque : keeps.

(** One rule, chosen by the head of the computation. *)
Ltac keep_step :=
  match goal with
  | |- keeps _ (bind _ _) => apply keeps_bind; [exact _| |intros ?]
  | |- keeps _ (ret _) => apply keeps_ret; exact _
  | |- keeps _ (lift _) => apply keeps_lift; exact _
  | |- keeps _ (gets _) => apply keeps_gets; exact _
  | |- keeps _ (fail _) => apply keeps_fail; exact _
  | |- keeps _ panic => apply keeps_panic; exact _
  | |- keeps _ diverge => apply keeps_diverge; exact _
  | |- keeps _ (assert _) => apply keeps_assert; exact _
  | |- keeps _ (for_each _ _) => apply keeps_for_each; [exact _|intros ?]
  | |- keeps _ (match _ with _ => _ end) => case_match
  | |- keeps _ _ => solve [eauto with keeps]
  | |- keeps _ (unwrapped _) => apply keeps_unwrapped
  | |- keeps _ (attempt _) => apply keeps_attempt
  end.
Ltac keep_steps := repeat keep_step.

Lemma alloc_frame_packs {E} : kmem_packs (unwrapped (E' := E) alloc_frame).
Proof.
  intros k. split.
  2: { unfold unwrapped, alloc_frame, zoom. by destruct (FrameAllocator.alloc (fa k)) as [[] ?]. }
  intros n Hn. destruct (decide (n < capacity (fa k))) as [Hlt|Hge].
  - destruct (alloc_used (E := E) k n Hn Hlt) as (k' & -> & Hm & _). by exists (n + 1).
  - pose proof Hn as (Hk & Hr & Hu). pose proof (alloc_cases (fa k) (kwf_fa k Hk)) as Ha.
    unfold unwrapped, alloc_frame, zoom. destruct (FrameAllocator.alloc (fa k)) as [[pa|e| |] fa']; [| |done..].
    + destruct Ha as (j & Hj & _ & Hf & _). rewrite Hu in Hf by done. apply Z.ltb_ge in Hf. lia.
    + destruct Ha as (_ & -> & _). exact (proj1 (packs_same k (set_fa (fa k) k) eq_refl id) n Hn).
Qed.

#[export] Hint Resolve alloc_frame_packs : keeps.

Section steps.
Context `{BF : Bitflags}.

Lemma set_entry_packs t i e : kmem_packs (set_entry t i e).
Proof. intros k. apply packs_same; [done|]. apply upd_wide. Qed.
Lemma write_zeros_packs pa : kmem_packs (write_frame pa empty_table).
Proof. intros k. apply packs_same; [done|]. by apply frame_wide. Qed.
Lemma page_add_packs pa : kmem_packs (page_add pa).
Proof. intros k. by apply packs_same. Qed.
#[local] Hint Resolve set_entry_packs write_zeros_packs page_add_packs : keeps.

Lemma map_leaf_packs t i pa flags : kmem_packs (map_leaf t i pa flags).
Proof. unfold map_leaf, get_entry. keep_steps. Qed.
Lemma next_table_packs t i base : kmem_packs (get_or_create_next_table t i base).
Proof. unfold get_or_create_next_table, get_entry. keep_steps. Qed.
#[local] Hint Resolve map_leaf_packs next_table_packs : keeps.

Lemma map_memory_packs root va pa flags base ps : kmem_packs (map_memory_with_base root va pa flags base ps).
Proof. unfold map_memory_with_base, check_mapping_alignment. keep_steps. Qed.
Lemma remap_vm_packs root va flags : kmem_packs (remap_vm root va flags).
Proof. unfold remap_vm, remap_memory_with_base, get_entry. keep_steps. Qed.
#[local] Hint Resolve map_memory_packs remap_vm_packs : keeps.

Lemma kvm_full_map_packs root : kmem_packs (kvm_full_map root).
Proof. unfold kvm_full_map, kvm_map_gb, map_vm_1g. keep_steps. Qed.
#[local] Hint Resolve kvm_full_map_packs : keeps.

Lemma mm_new_packs : kmem_packs mm_new.
Proof. unfold mm_new, initialize_empty_pt. keep_steps. Qed.

Lemma copy_frame_packs src dst : kmem_packs (copy_frame src dst).
Proof. intros k. apply packs_same; [done|]. intros Hw. by apply frame_wide. Qed.
#[local] Hint Resolve copy_frame_packs : keeps.

Lemma fork_packs fuel : ∀ root, kmem_packs (fork fuel root).
Proof. induction fuel as [|fuel IH]; intros root; cbn [fork]; unfold fork_entry, get_entry; keep_steps. Qed.

(** ** Address spaces *)

Lemma kmem_op_packs {A} (op : KM A) : kmem_packs op → space_packs (kmem op).
Proof. intros Hop s. unfold kmem, zoom. specialize (Hop (km s)). by destruct (op (km s)) as [? ?]. Qed.

Lemma mm_packs f : space_packs (modify (E := Error) (λ s, set_mm (f s) s)).
Proof. intros s. by apply packs_same. Qed.
Lemma poke_packs pa bs : space_packs (poke pa bs).
Proof. intros s. apply packs_same; [done|]. apply set_bytes_wide. Qed.
#[local] Hint Resolve kmem_op_packs mm_packs poke_packs : keeps.

#[local] Instance space_preorder : PreOrder (λ s s' : Space, packs (km s) (km s')).
Proof. split; [by intros s|intros s s1 s2; apply packs_preorder]. Qed.

Lemma zero_frame_packs pa : kmem_packs (zero_frame pa).
Proof. unfold zero_frame. change (replicate 512 0) with empty_table. keep_steps. Qed.
#[local] Hint Resolve zero_frame_packs : keeps.

Lemma map_allocate_page_packs va flags : space_packs (map_allocate_page va flags).
Proof. unfold map_allocate_page, mm_map_vm, insert_mapping, map_vm, map_vm_with_page_size. keep_steps. Qed.
Lemma remap_page_packs va flags : space_packs (remap_page va flags).
Proof. unfold remap_page. keep_steps. Qed.
#[local] Hint Resolve map_allocate_page_packs remap_page_packs : keeps.

Lemma user_stack_loop_packs n : ∀ va, space_packs (user_stack_loop n va).
Proof. induction n as [|n IH]; intros va; cbn [user_stack_loop]; keep_steps. Qed.
#[local] Hint Resolve user_stack_loop_packs : keeps.

Lemma create_user_stack_packs : space_packs create_user_stack.
Proof. unfold create_user_stack. keep_steps. Qed.

Lemma push_strings_packs args : ∀ top kt c, space_packs (push_strings top kt c args).
Proof. induction args as [|arg args IH]; intros top kt c; cbn [push_strings]; unfold kernel_write; keep_steps. Qed.
Lemma write_words_packs ws : ∀ ptr, space_packs (write_words ptr ws).
Proof. induction ws as [|w ws IH]; intros ptr; cbn [write_words]; unfold kernel_write; keep_steps. Qed.
#[local] Hint Resolve push_strings_packs write_words_packs : keeps.

Lemma create_initial_stack_packs sp argv : space_packs (create_initial_stack sp argv).
Proof. unfold create_initial_stack, translate_to_kernel, mm_translate. keep_steps. Qed.

(** ** Loading *)

Section loading.
Context {S N : Type} `{HV : VNode S N} `{EC : ElfCrate}.

Abbreviation load_packs := (keeps (λ s s' : Load (S := S), packs (km (l_sp s)) (km (l_sp s')))).

#[local] Instance load_preorder : PreOrder (λ s s' : Load (S := S), packs (km (l_sp s)) (km (l_sp s'))).
Proof. split; [by intros s|intros s s1 s2; apply packs_preorder]. Qed.

Lemma vfs_op_packs {A} (op : M S VfsError A) : load_packs (vfs_op op).
Proof. intros s. unfold vfs_op. by destruct (op (l_fs s)) as [[] ?]. Qed.
Lemma mm_op_packs {A} (op : MM A) : space_packs op → load_packs (mm_op op).
Proof. intros Hop s. unfold mm_op, zoom. specialize (Hop (l_sp s)). by destruct (op (l_sp s)) as [? ?]. Qed.
#[local] Hint Resolve vfs_op_packs mm_op_packs : keeps.

Lemma read_exact_loop_packs fuel : ∀ (f : File N) len, load_packs (read_exact_loop fuel f len).
Proof. induction fuel as [|fuel IH]; intros f len; cbn [read_exact_loop]; keep_steps. Qed.
#[local] Hint Resolve read_exact_loop_packs : keeps.
Lemma read_exact_at_packs (f : File N) off len : load_packs (read_exact_at f off len).
Proof. unfold read_exact_at. keep_steps. Qed.
#[local] Hint Resolve read_exact_at_packs : keeps.
Lemma load_from_file_packs open path : load_packs (load_from_file open path).
Proof. unfold load_from_file, read_elf_header, read_program_headers. keep_steps. Qed.
#[local] Hint Resolve load_from_file_packs : keeps.

Lemma map_segment_packs fuel : ∀ va end_ flags pages, load_packs (map_segment fuel va end_ flags pages).
Proof. induction fuel as [|fuel IH]; intros va end_ flags pages; cbn [map_segment]; keep_steps. Qed.
Lemma mm_translate_packs va : space_packs (mm_translate va).
Proof. unfold mm_translate. keep_steps. Qed.
#[local] Hint Resolve map_segment_packs mm_translate_packs : keeps.
Lemma copy_segment_packs fuel : ∀ (f : File N) ph c, load_packs (copy_segment fuel f ph c).
Proof. induction fuel as [|fuel IH]; intros f ph c; cbn [copy_segment]; keep_steps. Qed.
#[local] Hint Resolve copy_segment_packs : keeps.
Lemma load_segments_packs phs : ∀ (f : File N) pages mx, load_packs (load_segments f phs pages mx).
Proof. induction phs as [|ph phs IH]; intros f pages mx; cbn [load_segments]; unfold load_segment; keep_steps. Qed.
#[local] Hint Resolve load_segments_packs : keeps.
Lemma load_executable_packs open path : load_packs (load_executable (N := N) open path).
Proof. unfold load_executable, set_initial_brk. keep_steps. Qed.
End loading.
End steps.

(** ** Kernel stacks *)

Lemma alloc_next {E} k n : used k n →
  match unwrapped (E' := E) alloc_frame k with
  | (Ok pa, k') => pa = frame_addr (fa k) n ∧ used_more k k' n (n + 1) ∧ mem k' = mem k ∧ meta k' = meta k ∧ table_ok pa ∧
      n < capacity (fa k)
  | (Panic, k') => full (fa k')
  | _ => False
  end.
Proof.
  intros Hn. destruct (decide (n < capacity (fa k))) as [Hlt|Hge].
  - destruct (alloc_used (E := E) k n Hn Hlt) as (k' & -> & Hm & Hmem & Hmeta & Hok & _). done.
  - pose proof Hn as (Hk & Hr & Hu). pose proof (unwrapped_alloc (E := E) k Hk) as Ha.
    destruct (unwrapped alloc_frame k) as [[pa|e| |] k'] eqn:Ho; [|done..]. exfalso.
    pose proof (alloc_cases (fa k) (kwf_fa k Hk)) as Hc. unfold unwrapped, alloc_frame, zoom in Ho.
    destruct (FrameAllocator.alloc (fa k)) as [[a|e| |] fa']; [|done..].
    destruct Hc as (j & Hj & _ & Hf & _). rewrite Hu in Hf by done. apply Z.ltb_ge in Hf. lia.
Qed.

Lemma stack_loop_in_order (l : list Z) : ∀ (s : Space) n, used (km s) n →
  match for_each (λ _, let! _ := kmem (unwrapped alloc_frame) in ret tt) l s with
  | (Ok _, s') => mm s' = mm s ∧ used_more (km s) (km s') n (n + Z.of_nat (length l)) ∧ mem (km s') = mem (km s) ∧
      meta (km s') = meta (km s)
  | (Panic, s') => full (fa (km s'))
  | _ => False
  end.
Proof.
  induction l as [|z l IH]; intros s n Hn; cbn [for_each].
  { cbn [length]. rewrite Z.add_0_r. by split_and!. }
  unfold bind at 1 2, kmem, zoom. pose proof (alloc_next (E := Error) (km s) n Hn) as Ha.
  destruct (unwrapped alloc_frame (km s)) as [[pa|e| |] k']; [|done..]. destruct Ha as (_ & Hm & Hmem & Hmeta & _ & _). cbn [ret].
  specialize (IH (set_km k' s) (n + 1) (proj1 Hm)). unfold kmem, zoom in IH.
  destruct (for_each _ l (set_km k' s)) as [[[]|e| |] s']; [|done..]. destruct IH as (Hmm & Hm2 & Hmem2 & Hmeta2).
  cbn [km mm set_km] in *. split; [done|]. split; [|split; congruence].
  replace (n + Z.of_nat (length (z :: l))) with (n + 1 + Z.of_nat (length l)) by (cbn [length]; lia).
  by eapply used_more_trans.
Qed.

(** The seventeen frames of a kernel stack with its guard are the next ones.  The
    end of the stack overflows only if the stack takes the last frame, at the end of
    the address space. *)
Lemma create_kernel_stack_in_order s n : used (km s) n →
  match create_kernel_stack s with
  | (Ok pa, s') => pa = frame_addr (fa (km s)) (n + 17) ∧
      mm s' = set_kernel_stack (mkStack (frame_addr (fa (km s)) n) (frame_addr (fa (km s)) (n + 1) + KERNEL_DIRECT_MAPPING_BASE)
        (pa + KERNEL_DIRECT_MAPPING_BASE)) (mm s) ∧
      used_more (km s) (km s') n (n + 17) ∧ mem (km s') = mem (km s) ∧ meta (km s') = meta (km s) ∧
      pa + KERNEL_DIRECT_MAPPING_BASE < 2 ^ 64 ∧ 0 ≤ frame_addr (fa (km s)) (n + 16) ∧ frame_addr (fa (km s)) (n + 16) mod 4096 = 0
  | (Err e, s') => e = Overflow ∧ full (fa (km s'))
  | (Panic, s') => full (fa (km s'))
  | (Diverge, _) => False
  end.
Proof.
  intros Hn. unfold create_kernel_stack. unfold bind at 1, kmem at 1, zoom at 1.
  pose proof (alloc_next (E := Error) (km s) n Hn) as Ha.
  destruct (unwrapped alloc_frame (km s)) as [[g|e| |] k1]; [|done..]. destruct Ha as (-> & (Hu1 & Hs1 & Hc1 & _) & Hmem1 & Hmeta1 & _ & _).
  unfold bind at 1, kmem at 1, zoom at 1. cbn [km set_km].
  pose proof (alloc_next (E := Error) k1 (n + 1) Hu1) as Ha.
  destruct (unwrapped alloc_frame k1) as [[start|e| |] k2]; [|done..].
  destruct Ha as (Hst & (Hu2 & Hs2 & Hc2 & _) & Hmem2 & Hmeta2 & Hok & _). cbn [set_km mm].
  unfold bind at 1. pose proof (stack_loop_in_order (seqZ 1 (KERNEL_STACK_PAGES - 1)) (mkSpace (mm s) k2) (n + 1 + 1) Hu2) as Hl.
  destruct (for_each _ _ _) as [[[]|e| |] s3]; [|done..]. destruct Hl as (Hmm & (Hu3 & Hs3 & Hc3 & _) & Hmem3 & Hmeta3).
  cbn [mm km] in *. change (Z.of_nat (length (seqZ 1 (KERNEL_STACK_PAGES - 1)))) with 15 in Hu3.
  destruct (table_ok_mapped start KERNEL_DIRECT_MAPPING_BASE Hok) as [Hpv _]; [by right|].
  unfold bind at 1, lift at 1. unfold phys_to_virt. rewrite Hpv. unfold bind at 1, lift at 1.
  assert (Hfr : start = frame_addr (fa (km s)) (n + 1)) by (rewrite Hst; unfold frame_addr; by rewrite Hs1).
  destruct Hok as (Hok0 & Hokm & Hok1).
  destruct (offset_by (start + KERNEL_DIRECT_MAPPING_BASE) _) as [end_|] eqn:Hend; unfold offset_by, checked_add in *;
    change (KERNEL_STACK_PAGES * PAGE_SIZE) with 65536 in *; cbn [Z.ltb Z.compare] in *;
    destruct (Z.ltb_spec (start + KERNEL_DIRECT_MAPPING_BASE + 65536) (2 ^ 64)) as [Hlt|Hge]; [|done|done|].
  2: { cbn [ok_or]. split; [done|]. pose proof Hu3 as (Hk3 & Hr3 & Huse). pose proof (kwf_top _ Hk3) as Htop. intros j Hj. rewrite Huse by done.
       apply Z.ltb_lt. rewrite Hs3, Hs2, Hs1 in Htop. unfold frame_addr in Hfr. lia. }
  cbn [ok_or]. injection Hend as <-. unfold bind at 1, lift at 1.
  rewrite (proj2 (Z.ltb_lt (start + 65536) _)) by (unfold KERNEL_DIRECT_MAPPING_BASE in *; lia). cbn [unwrap].
  unfold bind, modify, ret. cbn [mm km set_mm]. rewrite Hmm.
  assert (Htop : start + 65536 = frame_addr (fa (km s)) (n + 17)) by (rewrite Hfr; unfold frame_addr; lia).
  split; [done|]. split; [by rewrite <-Hfr; do 2 f_equal; lia|]. split; [|split; [congruence|split; [congruence|]]].
  - replace (n + 1 + 1 + 15) with (n + 17) in Hu3 by lia. split; [done|]. split; [congruence|]. split; [congruence|lia].
  - replace (frame_addr (fa (km s)) (n + 16)) with (start + 61440) by (rewrite Hfr; unfold frame_addr; lia).
    split; [lia|]. split; [lia|]. Z.div_mod_to_equations; lia.
Qed.

(** ** The frames of a forked task *)

Section fork.
Context `{BF : Bitflags} `{HBF : !BitflagsOk BF}.

(** The last frame of the child's kernel stack is in no table of the two. *)
Lemma mm_fork_in_order (s : Space) n : uspace s → forkable s → used (km s) n → wide (km s) →
  match mm_fork (mm s) (km s) with
  | (Ok m', k') => ∃ x, top (kernel_stack m') = x + 4096 + KERNEL_DIRECT_MAPPING_BASE ∧ 0 ≤ x ∧ x mod 4096 = 0 ∧
      top (kernel_stack m') < 2 ^ 64 ∧ held (fa k') x ∧ ¬ held (fa (km s)) x ∧
      x ∉ tables 3 (mem k') (root_pt (mm s)) ∧ x ∉ tables 3 (mem k') (root_pt m') ∧ wide k'
  | (Err e, k') => e = Overflow ∧ full (fa k')
  | _ => True
  end.
Proof.
  intros Hu (Hrx & _) Hn Hw. pose proof (us_space s Hu) as Has. unfold mm_fork. unfold bind at 1, lift at 1.
  destruct (root_mapped _ _ Has) as (_ & _ & ->). unfold bind at 1.
  pose proof (fork_space (km s) (root_pt (mm s)) Has Hrx) as Hf. pose proof (fork_packs 3 (root_pt (mm s)) (km s)) as [Hpk Hwk].
  destruct (fork 3 (root_pt (mm s)) (km s)) as [[child|e| |] k1]; [|done..]. cbn [snd] in *.
  destruct Hf as (Hasp & Hasc & _). destruct (Hpk n Hn) as (n1 & Hu1 & Hs1 & _ & Hle). specialize (Hwk Hw).
  set (m0 := mkMm child (regions (mm s)) (mkStack 0 0 0) (start_brk (mm s)) (brk (mm s))).
  unfold bind, on_mm. pose proof (create_kernel_stack_in_order (mkSpace m0 k1) n1 Hu1) as Hst.
  destruct (create_kernel_stack (mkSpace m0 k1)) as [[pa|e| |] s2]; [|done..].
  destruct Hst as (Hpa & Hmm & (Hu2 & Hs2 & _) & Hmem & _ & Hlt & H0 & Hm). cbn [mm km] in *.
  exists (frame_addr (fa k1) (n1 + 16)). rewrite Hmm. cbn [kernel_stack set_kernel_stack top root_pt m0].
  assert (Hx : ∀ y, held (fa k1) y → y ≠ frame_addr (fa k1) (n1 + 16)).
  { intros y (j & Hj & ->)%(used_held _ _ _ Hu1). unfold frame_addr. lia. }
  split; [rewrite Hpa; unfold frame_addr; lia|]. split; [done|]. split; [done|]. split; [done|]. rewrite Hmem.
  split_and!.
  - apply (used_held _ _ _ Hu2). exists (n1 + 16). destruct Hu1 as (_ & ? & _). unfold frame_addr. rewrite Hs2. split; [lia|done].
  - intros (j & Hj & Heq)%(used_held _ _ _ Hn). unfold frame_addr in Heq. rewrite Hs1 in Heq. lia.
  - intros Hin. by apply (Hx _ (proj2 (proj2 Hasp) _ Hin)).
  - intros Hin. by apply (Hx _ (proj2 (proj2 Hasc) _ Hin)).
  - intros y. rewrite Hmem. apply Hwk.
Qed.
End fork.
