(* ===== verification/Registers.v ===== *)
(** * Control registers

    The register types of [riscv/src/registers] as values of a [usize], and the
    one that selects the page table in [kernel/src/arch/riscv/mmu].  Reading and
    writing the registers themselves is assembly. *)

From S2P Require Import Prelude Errors Sv39.

(** ** Model *)

(** [self.0 |= mask], and a field that is cleared with a mask and set. *)
Definition bit_set (mask reg : Z) : Z := Z.lor reg mask.
Definition field_set (mask shift v reg : Z) : Z := Z.lor (Z.land reg (not_w 64 mask)) (Z.shiftl v shift).

(** [Sstatus]. *)
Abbreviation SUM_MASK := (Z.shiftl 1 18).
Abbreviation SPP_SHIFT := 8.
Definition SPP_MASK : Z := Z.shiftl 1 SPP_SHIFT.
Abbreviation SSTATUS_SIE_MASK := (Z.shiftl 1 1).
Abbreviation SPIE_MASK := (Z.shiftl 1 5).

Inductive SstatusSpp := SppU | SppS.
Definition spp_bits (p : SstatusSpp) : Z := match p with SppU => 0 | SppS => 1 end.

Definition set_spp (p : SstatusSpp) (r : Z) : Z := field_set SPP_MASK SPP_SHIFT (spp_bits p) r.
Definition sstatus_set_sie (r : Z) : Z := bit_set SSTATUS_SIE_MASK r.
Definition set_spie (r : Z) : Z := bit_set SPIE_MASK r.
Definition unset_sie (r : Z) : Z := Z.land r (not_w 64 SSTATUS_SIE_MASK).
Definition set_sum (r : Z) : Z := bit_set SUM_MASK r.
Definition enable_user_page_access (r : Z) : Z := set_sum r.
Definition enable_user_mode (r : Z) : Z := set_spp SppU r.
Definition enable_supervisor_interrupts (r : Z) : Z := sstatus_set_sie (set_spie r).
Definition disable_supervisor_interrupts (r : Z) : Z := unset_sie r.

(** [Sie]. *)
Abbreviation LCOFIE_MASK := (Z.shiftl 1 13).
Abbreviation SEIE_MASK := (Z.shiftl 1 9).
Abbreviation STIE_MASK := (Z.shiftl 1 5).
Abbreviation SSIE_MASK := (Z.shiftl 1 1).
Definition set_lcofie (r : Z) : Z := bit_set LCOFIE_MASK r.
Definition set_seie (r : Z) : Z := bit_set SEIE_MASK r.
Definition set_stie (r : Z) : Z := bit_set STIE_MASK r.
Definition set_ssie (r : Z) : Z := bit_set SSIE_MASK r.
Definition enable_external_interrupts (r : Z) : Z := set_seie r.
Definition enable_timer_interrupt (r : Z) : Z := set_stie r.

(** [Mstatus]. *)
Inductive MstatusMpp := MppU | MppS | MppM.
Definition mpp_bits (p : MstatusMpp) : Z := match p with MppU => 0 | MppS => 1 | MppM => 3 end.
Abbreviation MPP_SHIFT := 11.
Abbreviation MPP_MASK := (Z.shiftl 3 MPP_SHIFT).
Definition set_mpp (p : MstatusMpp) (r : Z) : Z := field_set MPP_MASK MPP_SHIFT (mpp_bits p) r.
Definition enable_supervisor_mode (r : Z) : Z := set_mpp MppS r.
Definition mstatus_set_sie (r : Z) : Z := bit_set (Z.shiftl 1 1) r.

(** [Mcounteren] and [Menvcfg]. *)
Definition set_ir (r : Z) : Z := bit_set (Z.shiftl 1 2) r.
Definition set_tm (r : Z) : Z := bit_set (Z.shiftl 1 1) r.
Definition set_cy (r : Z) : Z := bit_set (Z.shiftl 1 0) r.
Definition set_stce (r : Z) : Z := bit_set (Z.shiftl 1 63) r.

(** [Mideleg::delegate_all], and the same of [Medeleg]. *)
Definition delegate_all (r : Z) : Z := usize_MAX.

(** [Pmpcfg]. *)
Inductive PmpAmm := AmmOff | AmmTor | AmmNa4 | AmmNapot.
Definition amm_bits (a : PmpAmm) : Z := match a with AmmOff => 0 | AmmTor => 1 | AmmNa4 => 2 | AmmNapot => 3 end.
Abbreviation AMM_SHIFT := 3.
Abbreviation AMM_MASK := (Z.shiftl 1 AMM_SHIFT).
Definition set_readable (r : Z) : Z := bit_set 1 r.
Definition set_writable (r : Z) : Z := bit_set (Z.shiftl 1 1) r.
Definition set_executable (r : Z) : Z := bit_set (Z.shiftl 1 2) r.
Definition set_amm (a : PmpAmm) (r : Z) : Z := field_set AMM_MASK AMM_SHIFT (amm_bits a) r.
Definition enable_tor (r : Z) : Z := set_amm AmmTor r.

(** [Satp]. *)
Inductive SatpMode := Bare | ModeSv39 | ModeSv48 | ModeSv57 | ModeSv64.
Definition mode_bits (m : SatpMode) : Z :=
  match m with Bare => 0 | ModeSv39 => 8 | ModeSv48 => 9 | ModeSv57 => 10 | ModeSv64 => 11 end.
Abbreviation MODE_SHIFT := 60.
Abbreviation MODE_MASK := (Z.shiftl 15 MODE_SHIFT).
Definition SATP_PPN_MASK : Z := Z.shiftl 1 44 - 1.
Definition set_mode (m : SatpMode) (r : Z) : Z := field_set MODE_MASK MODE_SHIFT (mode_bits m) r.
Definition set_ppn (ppn r : Z) : Z :=
  Z.lor (Z.land r (not_w 64 SATP_PPN_MASK)) (Z.land (Z.shiftr ppn 12) SATP_PPN_MASK).

(** [pa_to_satp], and the value [set_root_page_table_pa] writes. *)
Definition pa_to_satp (root_table : Z) : Z := set_ppn root_table (set_mode ModeSv39 0).

(** [Sstatus] of a new task's trap frame, and what [setup_unpriviledged_mode]
    and [enable_interrupts] make of the register. *)
Definition user_sstatus : Z := enable_user_page_access (set_spie (enable_user_mode 0)).
Definition unpriviledged_sstatus (r : Z) : Z := enable_user_page_access (enable_user_mode r).
Definition interrupts_sie : Z := enable_timer_interrupt (enable_external_interrupts 0).

(** The addresses of [plic.rs]. *)
Abbreviation UART0_IRQ := 10.
Definition PLIC : Z := 0x0c000000 + 0xffffffd600000000.
Definition plic_priority (irq : Z) : Z := PLIC + irq * 4.
Definition plic_senable (hart : Z) : Z := PLIC + 0x2080 + hart * 0x100.
Definition plic_spriority (hart : Z) : Z := PLIC + 0x201000 + hart * 0x2000.
Definition plic_sclaim (hart : Z) : Z := PLIC + 0x201004 + hart * 0x2000.

(** [plic_init_uart], on a memory of device registers. *)
Definition plic_init_uart (hart : Z) (regs : gmap Z Z) : gmap Z Z :=
  let regs := <[plic_priority UART0_IRQ := 1]> regs in
  let old := default 0 (regs !! plic_senable hart) in
  let regs := <[plic_senable hart := Z.lor old (Z.shiftl 1 UART0_IRQ)]> regs in
  <[plic_spriority hart := 0]> regs.

(** ** Fields *)

Lemma not_w_testbit m i : 0 ≤ i < 64 → Z.testbit (not_w 64 m) i = negb (Z.testbit m i).
Proof.
  intros Hi. unfold not_w. autorewrite with bits. by rewrite (proj2 (Z.ltb_lt _ _)) by lia.
Qed.

(** A field of [n] bits is replaced, and nothing else. *)
Lemma field_set_testbit n shift v r i : 0 ≤ n → 0 ≤ shift → 0 ≤ v < 2 ^ n → 0 ≤ i < 64 →
  Z.testbit (field_set (Z.shiftl (Z.ones n) shift) shift v r) i =
    if decide (shift ≤ i < shift + n) then Z.testbit v (i - shift) else Z.testbit r i.
Proof.
  intros Hn Hs Hv Hi. unfold field_set. rewrite Z.lor_spec, Z.land_spec, not_w_testbit by done.
  rewrite !Z.shiftl_spec by lia. destruct (decide (shift ≤ i < shift + n)).
  - rewrite Z.ones_spec_low by lia. by rewrite andb_false_r.
  - destruct (Z.lt_ge_cases i shift).
    + rewrite !(Z.testbit_neg_r _ (i - shift)) by lia. by rewrite andb_true_r, orb_false_r.
    + rewrite Z.ones_spec_high by lia. rewrite (testbit_high n v) by (done || lia). by rewrite andb_true_r, orb_false_r.
Qed.

(** The value for [satp] selects Sv39 and the table it is made for, with
    address space 0: the hardware's reading of its three fields gives back the
    physical address.  A new task's [sstatus] returns to user mode with
    interrupts on and lets the kernel read user pages, and replacing the
    previous privilege in [sstatus] or [mstatus] changes that field alone. *)
Theorem register_values_spec pa r : 0 ≤ pa < 2 ^ 56 → pa mod 4096 = 0 → is_u64 r →
  Z.shiftr (pa_to_satp pa) 60 = 8 ∧ Z.land (Z.shiftr (pa_to_satp pa) 44) 0xffff = 0 ∧
  Z.land (pa_to_satp pa) SATP_PPN_MASK * 4096 = pa ∧
  (∀ i, 0 ≤ i < 64 → Z.testbit user_sstatus i = bool_decide (i = 5 ∨ i = 18)) ∧
  (∀ p i, 0 ≤ i < 64 → Z.testbit (set_spp p r) i = if decide (i = 8) then Z.testbit (spp_bits p) 0 else Z.testbit r i) ∧
  ∀ p, Z.land (Z.shiftr (set_mpp p r) 11) 3 = mpp_bits p ∧
    ∀ i, 0 ≤ i < 64 → ¬ 11 ≤ i < 13 → Z.testbit (set_mpp p r) i = Z.testbit r i.
Proof.
  intros Hpa Hm Hr. assert (Hsatp : pa_to_satp pa = Z.lor (Z.shiftl 8 60) (pa / 4096)).
  { unfold pa_to_satp, set_ppn. change (Z.land (set_mode ModeSv39 0) (not_w 64 SATP_PPN_MASK)) with (Z.shiftl 8 60).
    unfold SATP_PPN_MASK. change (Z.shiftl 1 44 - 1) with (Z.ones 44). rewrite Z.land_ones, Z.shiftr_div_pow2 by done.
    change (2 ^ 12) with 4096. rewrite Z.mod_small; [done|]. change (2 ^ 56) with 72057594037927936 in Hpa.
    change (2 ^ 44) with 17592186044416. Z.div_mod_to_equations; lia. }
  assert (Hq : 0 ≤ pa / 4096 < 2 ^ 44).
  { change (2 ^ 56) with 72057594037927936 in Hpa. change (2 ^ 44) with 17592186044416. Z.div_mod_to_equations; lia. }
  assert (Hhi : ∀ n, 44 ≤ n → Z.shiftr (pa / 4096) n = 0).
  { intros n Hn. rewrite Z.shiftr_div_pow2 by lia. apply Z.div_small. split; [lia|].
    apply (Z.lt_le_trans _ (2 ^ 44)); [lia|]. by apply Z.pow_le_mono_r. }
  split_and!.
  - by rewrite Hsatp, Z.shiftr_lor, Hhi.
  - by rewrite Hsatp, Z.shiftr_lor, Hhi.
  - rewrite Hsatp, Z.land_lor_distr_l. change (Z.land (Z.shiftl 8 60) SATP_PPN_MASK) with 0. rewrite Z.lor_0_l.
    change SATP_PPN_MASK with (Z.ones 44). rewrite Z.land_ones, Z.mod_small by done. Z.div_mod_to_equations; lia.
  - intros i Hi. change user_sstatus with (Z.lor (2 ^ 5) (2 ^ 18)). rewrite Z.lor_spec, !Z.pow2_bits_eqb by done.
    repeat case_bool_decide; lia.
  - intros p i Hi. unfold set_spp, SPP_MASK. change (Z.shiftl 1 SPP_SHIFT) with (Z.shiftl (Z.ones 1) SPP_SHIFT).
    rewrite field_set_testbit by (done || by destruct p). change SPP_SHIFT with 8.
    destruct (decide (i = 8)) as [->|]; [by destruct p|]. by rewrite decide_False by lia.
  - intros p. unfold set_mpp. change (Z.shiftl 3 MPP_SHIFT) with (Z.shiftl (Z.ones 2) MPP_SHIFT).
    assert (Hb : 0 ≤ mpp_bits p < 2 ^ 2) by (by destruct p). split.
    + change 3 with (Z.ones 2). apply Z.bits_inj'. intros i Hi. rewrite Z.land_spec, Z.shiftr_spec by done.
      destruct (Z.lt_ge_cases i 2).
      * rewrite Z.ones_spec_low, andb_true_r, field_set_testbit by (done || lia).
        change MPP_SHIFT with 11. rewrite decide_True by lia. f_equal. lia.
      * rewrite Z.ones_spec_high, andb_false_r by lia. symmetry. by apply (testbit_high 2).
    + intros i Hi Hne. rewrite field_set_testbit by done. change MPP_SHIFT with 11. by rewrite decide_False by lia.
Qed.

(** [Pmpcfg::set_amm] clears one bit of a field that has two, so a mode set
    before shows through: switching off an entry that was [Napot] leaves it
    [Na4]. *)
Theorem amm_is_not_cleared : Z.land (Z.shiftr (set_amm AmmOff (set_amm AmmNapot 0)) 3) 3 = amm_bits AmmNa4.
Proof. reflexivity. Qed.

Lemma register_values_spec_witness : Z.land (pa_to_satp 0x80201000) SATP_PPN_MASK * 4096 = 0x80201000 ∧
  Z.land (Z.shiftr (set_mpp MppS (2 ^ 64 - 1)) 11) 3 = 1.
Proof.
  destruct (register_values_spec 0x80201000 (2 ^ 64 - 1) ltac:(done) eq_refl ltac:(done)) as (_ & _ & H & _ & _ & Hm).
  split; [exact H|exact (proj1 (Hm MppS))].
Defined.
