(* ===== verification/ArchMem.v ===== *)
(** * The memory model of the architecture

    The trait [MemoryModel] of [kernel/src/arch/mod.rs] as a class, its
    implementation for [Riscv] in [kernel/src/arch/riscv/mod.rs] as an instance
    over the page tables, and what the kernel may rely on behind the trait. *)

From S2P Require Import Prelude Errors Addr Sv39 FrameAllocator PageMeta PageTable PageMap PageFork MemMgr MemFault Registers.

(** ** The trait *)

(** Addresses are the numbers behind [VirtualAddress] and [PhysicalAddress]; [St]
    is what the methods work on. *)
Module Arch.
Class MemoryModel (St : Type) := {
  set_root_page_table_pa : Z → M St Error unit;
  set_root_page_table : Z → M St Error unit;
  get_root_page_table : M St Error Z;
  initialize_empty_pt : Z → M St Error unit;
  map_vm_early : Z → Z → Z → Z → M St Error unit;
  map_vm : Z → Z → Z → Z → M St Error unit;
  map_vm_with_page_size : Z → Z → Z → Z → PageSize → M St Error unit;
  map_vm_2m : Z → Z → Z → Z → M St Error unit;
  map_vm_1g : Z → Z → Z → Z → M St Error unit;
  remap_vm : Z → Z → Z → M St Error unit;
  translate : Z → Z → M St Error (option Z);
  traverse_free : Z → M St Error unit;
  fork : Z → M St Error Z;
  copy_on_write : Z → Z → M St Error unit;
}.
End Arch.

(** ** [Riscv] *)

(** The memory, and the hart's [satp]. *)
Record Mapped := mkMapped { m_kmem : Kmem; m_satp : Z }.
Definition set_m_kmem (k : Kmem) (s : Mapped) : Mapped := mkMapped k (m_satp s).
Definition set_m_satp (v : Z) (s : Mapped) : Mapped := mkMapped (m_kmem s) v.

Section riscv.
Context `{BF : Bitflags}.

Definition tables_op {A} (op : KM A) : M Mapped Error A := zoom m_kmem set_m_kmem op.

(** The frame behind a pointer: one into the direct mapping, or, during the boot,
    one into memory that is mapped to itself. *)
Definition frame_behind (ptr : Z) : Z := if KERNEL_DIRECT_MAPPING_BASE <=? ptr then ptr - KERNEL_DIRECT_MAPPING_BASE else ptr.

(** [as_ptr_mut().as_mut().unwrap()]. *)
Definition table_behind (root_pt : Z) : M Mapped Error Z := if root_pt =? 0 then panic else ret (frame_behind root_pt).

#[export] Instance Riscv : Arch.MemoryModel Mapped := {|
  Arch.set_root_page_table_pa pa := modify (set_m_satp (pa_to_satp pa));
  Arch.set_root_page_table val := modify (set_m_satp val);
  Arch.get_root_page_table := gets m_satp;
  Arch.initialize_empty_pt root_pt := tables_op (initialize_empty_pt (frame_behind root_pt));
  Arch.map_vm_early root_pt va pa flags := let! t := table_behind root_pt in tables_op (map_vm_early t va pa flags);
  Arch.map_vm root_pt va pa flags := let! t := table_behind root_pt in tables_op (map_vm t va pa flags);
  Arch.map_vm_with_page_size root_pt va pa flags page_size :=
    let! t := table_behind root_pt in tables_op (map_vm_with_page_size t va pa flags page_size);
  Arch.map_vm_2m root_pt va pa flags := let! t := table_behind root_pt in tables_op (map_vm_2m t va pa flags);
  Arch.map_vm_1g root_pt va pa flags := let! t := table_behind root_pt in tables_op (map_vm_1g t va pa flags);
  Arch.remap_vm root_pt va flags := let! t := table_behind root_pt in tables_op (remap_vm t va flags);
  Arch.translate root_pt va :=
    let! t := table_behind root_pt in
    let! s := gets m_kmem in
    lift (translate (mem s) t va);
  Arch.traverse_free root_pt := tables_op (traverse_free 3 root_pt);
  Arch.fork root_pt := tables_op (fork 3 root_pt);
  Arch.copy_on_write root_pt addr := tables_op (copy_on_write root_pt addr);
|}.
End riscv.

(** ** What the trait promises

    [space s root] says that the page table behind the pointer [root] is in
    order, and [room s] that the frame allocator is not exhausted. *)

Definition page (va : Z) : Prop := is_u64 va ∧ va_ok va = true ∧ va mod 4096 = 0.

Class MemoryModelOk (St : Type) {MM : Arch.MemoryModel St} := {
  space : St → Z → Prop;
  exhausted : St → Prop;
  translate_total s root va : space s root → is_u64 va → va_ok va = true → ∃ r, Arch.translate root va s = (Ok r, s);
  map_then_lookup s root va pa flags : space s root → page va → page_ok pa → leaf_flags flags → Arch.translate root va s = (Ok None, s) →
    match Arch.map_vm root va pa flags s with
    | (Ok _, s') => space s' root ∧ ∀ va', is_u64 va' → va_ok va' = true →
        (Arch.translate root va' s').1 = if decide (va ≤ va' < va + 4096) then Ok (Some (pa + (va' - va))) else (Arch.translate root va' s).1
    | (Panic, s') => exhausted s'
    | _ => False
    end;
}.

(** A client of the trait: pages one after the other. *)
Definition map_pages {St} {MM : Arch.MemoryModel St} (root flags : Z) (l : list (Z * Z)) : M St Error unit :=
  for_each (λ x, Arch.map_vm root x.1 x.2 flags) l.

(** Where the pages of [l] put an address. *)
Definition in_pages (l : list (Z * Z)) (va : Z) : option Z :=
  (λ x, x.2 + (va - x.1)) <$> head (filter (λ x, x.1 ≤ va < x.1 + 4096) l).

Section client.
Context {St : Type} {MM : Arch.MemoryModel St} {OK : MemoryModelOk St}.

Lemma map_pages_spec flags root l : leaf_flags flags → NoDup l.*1 → ∀ s : St, space s root →
  Forall (λ x, page x.1 ∧ page_ok x.2 ∧ Arch.translate root x.1 s = (Ok None, s)) l →
  match map_pages root flags l s with
  | (Ok _, s') => space s' root ∧ ∀ va, is_u64 va → va_ok va = true →
      (Arch.translate root va s').1 = match in_pages l va with Some pa => Ok (Some pa) | None => (Arch.translate root va s).1 end
  | (Panic, s') => exhausted s'
  | _ => False
  end.
Proof.
  intros Hfl. induction l as [|[va pa] l IH]; intros Hnd s Hs Hl; [done|]. cbn [map_pages for_each fst snd fmap list_fmap] in *.
  apply NoDup_cons in Hnd as [Hn Hnd]. apply Forall_cons in Hl as [(Hpg & Hpa & Ht) Hl]. cbn [fst snd] in *.
  unfold bind at 1. pose proof (map_then_lookup s root va pa flags Hs Hpg Hpa Hfl Ht) as Hm.
  destruct (Arch.map_vm root va pa flags s) as [[[]|e| |] s1]; [|done..]. destruct Hm as [Hs1 Hv].
  assert (Hapart : ∀ x, x ∈ l → page x.1 → ¬ va ≤ x.1 < va + 4096).
  { intros x Hx (_ & _ & Hx4). destruct Hpg as (_ & _ & Hv4). assert (x.1 ≠ va) by (intros E; apply Hn; rewrite <-E; by apply list_elem_of_fmap_2).
    Z.div_mod_to_equations; lia. }
  assert (Hl1 : Forall (λ x, page x.1 ∧ page_ok x.2 ∧ Arch.translate root x.1 s1 = (Ok None, s1)) l).
  { rewrite Forall_forall in Hl |- *. intros x Hx. destruct (Hl x Hx) as (Hp & Hpa' & Hx0). split; [done|]. split; [done|].
    destruct (translate_total s1 root x.1 Hs1) as (r & Hr); [apply Hp..|]. rewrite Hr. pose proof (Hv x.1 ltac:(apply Hp) ltac:(apply Hp)) as E.
    rewrite decide_False in E by (by apply Hapart). rewrite Hr, Hx0 in E. cbn [fst] in E. congruence. }
  specialize (IH Hnd s1 Hs1 Hl1). fold (map_pages (MM := MM) root flags l). destruct (map_pages root flags l s1) as [[[]|e| |] s2]; [|done..]. destruct IH as [Hs2 Hv2].
  split; [done|]. intros va' Hu Hok. rewrite Hv2, Hv by done. unfold in_pages. rewrite filter_cons. cbn [fst snd]. destruct (decide (va ≤ va' < va + 4096)) as [Hin|Hout].
  - cbn [head fmap option_fmap option_map fst snd]. destruct (filter _ l) as [|x l'] eqn:Ef; [done|]. exfalso.
    assert (x ∈ filter (λ x, x.1 ≤ va' < x.1 + 4096) l) as Hx by (rewrite Ef; left). apply list_elem_of_filter in Hx as [Hr Hx].
    rewrite Forall_forall in Hl. destruct (Hl x Hx) as (Hp & _). apply (Hapart x Hx Hp). destruct Hp as (_ & _ & ?). destruct Hpg as (_ & _ & ?).
    Z.div_mod_to_equations; lia.
  - done.
Qed.
End client.

(** ** [Riscv] keeps the promise *)

Section promise.
Context `{BF : Bitflags} {HBF : BitflagsOk BF}.

(** The table behind [root] is a well-formed address space. *)
Definition riscv_space (s : Mapped) (root : Z) : Prop := KERNEL_DIRECT_MAPPING_BASE < root ∧ aspace (m_kmem s) (frame_behind root).

Lemma behind root s : KERNEL_DIRECT_MAPPING_BASE < root → table_behind root s = (Ok (frame_behind root), s).
Proof. intros Hr. unfold table_behind. rewrite (proj2 (Z.eqb_neq _ _)); [done|]. unfold KERNEL_DIRECT_MAPPING_BASE in Hr. lia. Qed.

Lemma walk_unmapped n m : ∀ t path, shape n m t → length path = n → (0 < n)%nat → Forall (λ i, 0 ≤ i < 512) path → walk m t path = None → unmapped m t path = true.
Proof.
  induction n as [|n IH]; intros t path Hs Hl Hn Hp; [lia|]. destruct path as [|i path]; [done|]. apply Forall_cons in Hp as [Hi Hp]. cbn [walk unmapped].
  destruct (shape_entry n m t i Hs Hi) as [_ Hsub]. destruct (is_table (entry m t i)); [|by destruct (is_valid _)].
  specialize (Hsub eq_refl). destruct n as [|n]; [done|]. apply IH; [done|by injection Hl|lia|done].
Qed.

Lemma riscv_translate s root va : KERNEL_DIRECT_MAPPING_BASE < root →
  Arch.translate root va s = (translate (mem (m_kmem s)) (frame_behind root) va, s).
Proof. intros Hr. cbn [Arch.translate Riscv]. unfold bind. by rewrite behind. Qed.

#[export] Instance Riscv_ok : MemoryModelOk Mapped.
Proof.
  refine {| space := riscv_space; exhausted s := full (fa (m_kmem s)) |}.
  - intros s root va [Hr (_ & [Hsh _] & _)] Hu Hok. rewrite riscv_translate by done. rewrite translate_walk by (done || apply Hu). eauto.
  - intros s root va pa flags [Hr Ha] (Hu & Hok & Hm) Hpa Hfl Ht. rewrite riscv_translate in Ht by done. injection Ht as Ht.
    assert (Hun : unmapped (mem (m_kmem s)) (frame_behind root) (path_of va Size4K) = true).
    { destruct Ha as (_ & [Hsh _] & _). rewrite translate_walk in Ht by (done || apply Hu).
      apply (walk_unmapped 3); [done|done|lia|apply path_range|]. by destruct (walk _ _ _) as [[]|]. }
    pose proof (map_translate_spec (m_kmem s) (frame_behind root) va pa flags KERNEL_DIRECT_MAPPING_BASE Size4K Ha (or_intror eq_refl) Hu Hok Hm Hpa
      ltac:(apply Hpa) Hfl Hun) as Hmap.
    cbn [Arch.map_vm Riscv]. unfold bind at 1. rewrite behind by done. unfold tables_op, zoom, map_vm, map_vm_with_page_size.
    destruct (map_memory_with_base _ _ _ _ _ _ (m_kmem s)) as [[[]|e| |] k']; [|done..]. destruct Hmap as (Ha' & _ & Hv).
    split; [by split|]. intros va' Hu' Hok'. rewrite !riscv_translate by done. cbn [fst m_kmem set_m_kmem]. specialize (Hv va' Hu' Hok').
    change (bytes Size4K) with 4096 in Hv. destruct (decide _); apply Hv.
Defined.
End promise.

(** The calls of the memory manager are calls of the trait, with the pointer to
    its root table. *)
Section manager.
Context `{BF : Bitflags} {HBF : BitflagsOk BF}.

Definition through {A} (op : M Mapped Error A) (satp : Z) (s : Space) : outcome Error A * Space :=
  let '(o, s') := op (mkMapped (km s) satp) in (o, mkSpace (mm s) (m_kmem s')).

Lemma root_pointer pa : table_ok pa → 0 < pa → phys_to_virt (E := Error) pa = Ok (pa + KERNEL_DIRECT_MAPPING_BASE) ∧
  va_from_raw_unchecked (E := Error) (pa + KERNEL_DIRECT_MAPPING_BASE) = Ok (pa + KERNEL_DIRECT_MAPPING_BASE) ∧
  KERNEL_DIRECT_MAPPING_BASE < pa + KERNEL_DIRECT_MAPPING_BASE ∧ frame_behind (pa + KERNEL_DIRECT_MAPPING_BASE) = pa.
Proof.
  intros (H0 & _ & Ht) Hp. split_and!.
  - unfold phys_to_virt, add_ov, checked_add. by rewrite (proj2 (Z.ltb_lt _ _)) by lia.
  - unfold va_from_raw_unchecked. assert (va_ok (pa + KERNEL_DIRECT_MAPPING_BASE) = true) as ->; [|done].
    apply va_ok_spec; [split; [unfold KERNEL_DIRECT_MAPPING_BASE; lia|done]|]. right. unfold KERNEL_DIRECT_MAPPING_BASE.
    change (2 ^ 64 - 2 ^ 38) with 18446743798831644672. lia.
  - lia.
  - unfold frame_behind. rewrite (proj2 (Z.leb_le _ _)) by lia. lia.
Qed.

Lemma manager_uses_the_trait s satp va pa flags : table_ok (root_pt (mm s)) → 0 < root_pt (mm s) → va_ok va = true → pa ≤ PA_MAX →
  mm_translate va s = through (Arch.translate (root_pt (mm s) + KERNEL_DIRECT_MAPPING_BASE) va) satp s ∧
  mm_map_vm va pa flags s = through (Arch.map_vm (root_pt (mm s) + KERNEL_DIRECT_MAPPING_BASE) va pa flags) satp s.
Proof.
  intros Hr H0 Hva Hpa. destruct (root_pointer _ Hr H0) as (E1 & E2 & Hlt & Hb).
  assert (Ev : va_from_raw_unchecked (E := Error) va = Ok va) by (unfold va_from_raw_unchecked; by rewrite Hva).
  assert (Ep : pa_from_raw_unchecked (E := Error) pa = Ok pa) by (unfold pa_from_raw_unchecked; by rewrite (proj2 (Z.leb_le _ _) Hpa)).
  split.
  - unfold mm_translate, through, bind, gets, lift, id. rewrite E1, E2, Ev. rewrite riscv_translate, Hb by done. cbn [m_kmem]. by destruct s.
  - unfold mm_map_vm, through, bind, gets, lift, id. rewrite E1, E2, Ev, Ep. cbn [Arch.map_vm Riscv]. unfold bind. rewrite behind, Hb by done.
    unfold kmem, tables_op, zoom. cbn [m_kmem]. destruct (map_vm _ _ _ _ (km s)) as [o k']. done.
Qed.
End manager.
