(* ===== verification/Ksync.v ===== *)
(** * Locks

    [ksync/src/spin_lock.rs] and [ksync/src/rw_lock.rs], for any number of
    threads.  A thread is at a point of the lock's code between two atomic
    accesses; an event lets one thread make one atomic access, and a schedule
    is a list of events.  Memory is sequentially consistent here, which the
    acquire and release orderings of the code give for data that is only
    touched under the lock.  A weak compare-exchange may also fail
    spuriously. *)

From S2P Require Import Prelude.

(** ** Threads at program points *)

Section threads.
Context {P : Type} `{EqDecision P}.
Implicit Types (ps : list P) (p q x : P).

Definition at_point p ps : nat := length (filter (λ q, q = p) ps).

Lemma at_point_app p ps ps' : at_point p (ps ++ ps') = (at_point p ps + at_point p ps')%nat.
Proof. unfold at_point. by rewrite list_basics.list.filter_app, length_app. Qed.

Lemma at_point_cons p x ps :
  at_point p (x :: ps) = ((if decide (x = p) then 1 else 0) + at_point p ps)%nat.
Proof. unfold at_point. rewrite filter_cons. by destruct (decide (x = p)). Qed.

(** Moving one thread changes the counts of the two points. *)
Lemma at_point_insert p ps i x y : ps !! i = Some x →
  (at_point p (<[i := y]> ps) + (if decide (x = p) then 1 else 0) =
   at_point p ps + (if decide (y = p) then 1 else 0))%nat.
Proof.
  intros Hi. rewrite insert_take_drop by (by eapply lookup_lt_Some).
  rewrite <-(take_drop_middle ps i x Hi) at 3. rewrite !at_point_app, !at_point_cons. lia.
Qed.

Lemma at_point_pos p ps i : ps !! i = Some p → (1 ≤ at_point p ps)%nat.
Proof.
  intros Hi. unfold at_point. assert (Hin : p ∈ filter (λ q, q = p) ps).
  { apply list_elem_of_filter. split; [done|]. by eapply list_elem_of_lookup_2. }
  destruct (filter _ ps); [by apply elem_of_nil in Hin|simpl; lia].
Qed.

(** Two threads at a point count for two. *)
Lemma at_point_two p ps i j : ps !! i = Some p → ps !! j = Some p → i ≠ j →
  (2 ≤ at_point p ps)%nat.
Proof.
  intros Hi Hj Hne. destruct (decide (at_point p ps = 1)%nat) as [H1|]; cycle 1.
  { pose proof (at_point_pos p ps i Hi). lia. }
  exfalso. rewrite <-(take_drop_middle ps i p Hi) in H1, Hj.
  pose proof (lookup_lt_Some _ _ _ Hi) as Hl.
  rewrite at_point_app, at_point_cons, decide_True in H1 by done.
  assert (Hti : length (take i ps) = i) by (rewrite length_take; lia).
  destruct (decide (j < i)%nat).
  - rewrite lookup_app_l in Hj by lia. pose proof (at_point_pos p _ j Hj). lia.
  - rewrite lookup_app_r, Hti in Hj by lia. destruct (j - i)%nat as [|m] eqn:Hm; [lia|].
    pose proof (at_point_pos p _ m Hj). lia.
Qed.

Lemma at_point_le p ps : (at_point p ps ≤ length ps)%nat.
Proof. apply length_filter. Qed.

Lemma at_point_replicate p q n : p ≠ q → at_point p (replicate n q) = 0%nat.
Proof.
  intros Hne. induction n as [|n IH]; [done|]. cbn [replicate].
  by rewrite at_point_cons, decide_False, IH by done.
Qed.
End threads.

(** ** [SpinLock] *)

Inductive spin_pc := SIdle | SSpin | SLocked.
#[export] Instance spin_pc_eq_dec : EqDecision spin_pc.
Proof. solve_decision. Defined.

Section spin.
Context {T : Type}.

Record SpinLock := mkSpin { flag : bool; spin_data : T }.

(** What a thread can do next: call [lock], try the compare-exchange (which
    may fail though the flag is clear), write through the guard, drop it. *)
Inductive spin_event := SLock | STry (spurious : bool) | SWrite (x : T) | SDrop.

Definition spin_new (x : T) : SpinLock := mkSpin false x.

(** [SpinLock::lock] and the guard's [drop] and [deref_mut], one access at a
    time. *)
Definition spin_step (pc : spin_pc) (ev : spin_event) (l : SpinLock) : option (spin_pc * SpinLock) :=
  match pc, ev with
  | SIdle, SLock => Some (SSpin, l)
  | SSpin, STry spurious =>
      if flag l || spurious then Some (SSpin, l) else Some (SLocked, mkSpin true (spin_data l))
  | SLocked, SWrite x => Some (SLocked, mkSpin (flag l) x)
  | SLocked, SDrop => Some (SIdle, mkSpin false (spin_data l))
  | _, _ => None
  end.

(** The lock with its threads, under a schedule. *)
Fixpoint spin_run (sched : list (nat * spin_event)) (s : list spin_pc * SpinLock)
    : option (list spin_pc * SpinLock) :=
  match sched with
  | [] => Some s
  | (i, ev) :: sched' =>
      pc ← s.1 !! i;
      '(pc', l') ← spin_step pc ev s.2;
      spin_run sched' (<[i := pc']> s.1, l')
  end.

Definition spin_inv (s : list spin_pc * SpinLock) : Prop :=
  at_point SLocked s.1 = if flag s.2 then 1%nat else 0%nat.

Lemma spin_step_inv ps l i pc ev pc' l' : spin_inv (ps, l) → ps !! i = Some pc →
  spin_step pc ev l = Some (pc', l') → spin_inv (<[i := pc']> ps, l').
Proof.
  unfold spin_inv. cbn [fst snd]. intros Hinv Hi Hs.
  pose proof (at_point_insert SLocked ps i pc pc' Hi) as Hc.
  destruct pc, ev; simpl in Hs; try done.
  - injection Hs as <- <-. simpl in *. lia.
  - destruct (flag l) eqn:Hf, spurious; simpl in Hs; injection Hs as <- <-; simpl in *; rewrite ?Hf; lia.
  - injection Hs as <- <-. simpl in *. lia.
  - injection Hs as <- <-. pose proof (at_point_pos _ _ _ Hi). simpl in *. destruct (flag l); lia.
Qed.

Lemma spin_run_inv sched : ∀ s s', spin_inv s → spin_run sched s = Some s' → spin_inv s'.
Proof.
  induction sched as [|[i ev] sched IH]; intros [ps l] s' Hinv Hr; [by injection Hr as <-|].
  cbn [spin_run fst snd] in Hr. destruct (ps !! i) as [pc|] eqn:Hi; [|done]. simpl in Hr.
  destruct (spin_step pc ev l) as [[pc' l']|] eqn:Hs; [|done]. simpl in Hr.
  eapply IH, Hr. by eapply spin_step_inv.
Qed.

(** C40: whatever the schedule, at most one thread holds a spin lock, the data
    changes only by the write of a thread that holds it, and as long as no
    thread holds it a waiting thread gets it with its next compare-exchange
    that does not fail spuriously. *)
Theorem spin_lock_excludes n (x : T) sched ps l :
  spin_run sched (replicate n SIdle, spin_new x) = Some (ps, l) →
  (∀ i j, ps !! i = Some SLocked → ps !! j = Some SLocked → i = j) ∧
  (∀ i pc ev pc' l', ps !! i = Some pc → spin_step pc ev l = Some (pc', l') →
     pc = SLocked ∨ spin_data l' = spin_data l) ∧
  (∀ i, (∀ j, ps !! j ≠ Some SLocked) → ps !! i = Some SSpin →
     spin_step SSpin (STry false) l = Some (SLocked, mkSpin true (spin_data l))).
Proof.
  intros Hr. assert (Hinv : spin_inv (ps, l)).
  { eapply spin_run_inv, Hr. unfold spin_inv. simpl. by apply at_point_replicate. }
  unfold spin_inv in Hinv. simpl in Hinv. split_and!.
  - intros i j Hi Hj. destruct (decide (i = j)); [done|].
    pose proof (at_point_two _ _ i j Hi Hj). destruct (flag l); lia.
  - intros i pc ev pc' l' Hi Hs. destruct pc; [right|right|by left]; destruct ev; simpl in Hs; simplify_eq; [done|].
    by destruct (flag l || spurious); simplify_eq.
  - intros i Hno _. destruct (flag l) eqn:Hf; simpl; [|by rewrite Hf].
    exfalso. unfold at_point in Hinv. destruct (filter (λ q, q = SLocked) ps) as [|q qs] eqn:Hq; [done|].
    assert (Hin : q ∈ filter (λ q, q = SLocked) ps) by (rewrite Hq; by left).
    apply list_elem_of_filter in Hin as [-> [m Hm]%list_elem_of_lookup]. by eapply Hno.
Qed.
End spin.
Arguments SpinLock : clear implicits.
Arguments spin_event : clear implicits.

Lemma spin_lock_excludes_witness :
  spin_run [(0%nat, SLock); (1%nat, SLock); (0%nat, STry false); (1%nat, STry false);
      (0%nat, SWrite 7)]
    (replicate 2 SIdle, spin_new 5) = Some ([SLocked; SSpin], mkSpin true 7) ∧
  (∀ i j, [SLocked; SSpin] !! i = Some SLocked → [SLocked; SSpin] !! j = Some SLocked → i = j).
Proof.
  assert (Hr : spin_run [(0%nat, SLock); (1%nat, SLock); (0%nat, STry false); (1%nat, STry false);
      (0%nat, SWrite 7)]
    (replicate 2 SIdle, spin_new 5) = Some ([SLocked; SSpin], mkSpin true 7)) by reflexivity.
  split; [exact Hr|]. exact (proj1 (spin_lock_excludes 2 5 _ _ _ Hr)).
Defined.

(** ** [RwLock] *)

Definition NO_LOCK_HELD : Z := 0.
Definition WRITE_LOCK_HELD : Z := usize_MAX.

Inductive rw_pc :=
| RIdle | RSpin | RLoaded (readers : Z) | RReading | RPanicked | WSpin | WWriting.
#[export] Instance rw_pc_eq_dec : EqDecision rw_pc.
Proof. solve_decision. Defined.

Section rw.
Context {T : Type}.

Record RwLock := mkRw { readers : Z; rw_data : T }.

Inductive rw_event :=
| RLock | RLoad | RCas (spurious : bool) | RDrop | WLock | WCas | WWrite (x : T) | WDrop.

Definition rw_new (x : T) : RwLock := mkRw 0 x.

(** [read_lock] is a load, the assertion and a compare-exchange; [write_lock]
    is a compare-exchange; the guards release with [fetch_sub], which wraps,
    and with a store. *)
Definition rw_step (pc : rw_pc) (ev : rw_event) (l : RwLock) : option (rw_pc * RwLock) :=
  match pc, ev with
  | RIdle, RLock => Some (RSpin, l)
  | RSpin, RLoad =>
      if readers l =? usize_MAX then Some (RSpin, l)
      else if readers l <? WRITE_LOCK_HELD - 1 then Some (RLoaded (readers l), l)
      else Some (RPanicked, l)
  | RLoaded r, RCas spurious =>
      if negb (readers l =? r) || spurious then Some (RSpin, l)
      else Some (RReading, mkRw (r + 1) (rw_data l))
  | RReading, RDrop => Some (RIdle, mkRw ((readers l - 1) mod 2 ^ 64) (rw_data l))
  | RIdle, WLock => Some (WSpin, l)
  | WSpin, WCas =>
      if readers l =? NO_LOCK_HELD then Some (WWriting, mkRw WRITE_LOCK_HELD (rw_data l))
      else Some (WSpin, l)
  | WWriting, WWrite x => Some (WWriting, mkRw (readers l) x)
  | WWriting, WDrop => Some (RIdle, mkRw NO_LOCK_HELD (rw_data l))
  | _, _ => None
  end.

Fixpoint rw_run (sched : list (nat * rw_event)) (s : list rw_pc * RwLock)
    : option (list rw_pc * RwLock) :=
  match sched with
  | [] => Some s
  | (i, ev) :: sched' =>
      pc ← s.1 !! i;
      '(pc', l') ← rw_step pc ev s.2;
      rw_run sched' (<[i := pc']> s.1, l')
  end.

(** The counter says who holds the lock. *)
Definition rw_inv (s : list rw_pc * RwLock) : Prop :=
  Z.of_nat (length s.1) < usize_MAX - 1 ∧ at_point RPanicked s.1 = 0%nat ∧
  (∀ i r, s.1 !! i = Some (RLoaded r) → r < usize_MAX - 1) ∧
  (readers s.2 = usize_MAX ∧ at_point WWriting s.1 = 1%nat ∧ at_point RReading s.1 = 0%nat ∨
   readers s.2 = Z.of_nat (at_point RReading s.1) ∧ at_point WWriting s.1 = 0%nat).

Lemma rw_step_inv ps l i pc ev pc' l' : rw_inv (ps, l) → ps !! i = Some pc →
  rw_step pc ev l = Some (pc', l') → rw_inv (<[i := pc']> ps, l').
Proof.
  intros (Hlen & Hpan & Hld & Hinv) Hi Hs. unfold rw_inv. cbn [fst snd] in *. rewrite length_insert.
  split; [done|]. pose proof (at_point_insert RPanicked ps i pc pc' Hi) as Hcp.
  pose proof (at_point_insert WWriting ps i pc pc' Hi) as Hcw.
  pose proof (at_point_insert RReading ps i pc pc' Hi) as Hcr.
  pose proof (at_point_le RReading ps) as Hle.
  unfold usize_MAX in *. change (2 ^ 64) with 18446744073709551616 in *.
  assert (Hl : (∀ r, pc' = RLoaded r → r < 18446744073709551616 - 1 - 1) →
    ∀ j r, <[i:=pc']> ps !! j = Some (RLoaded r) → r < 18446744073709551616 - 1 - 1).
  { intros Hp j r [(_ & Heq & _)|[_ Hj]]%list_lookup_insert_Some; [by apply Hp|by eapply Hld]. }
  destruct pc, ev; simpl in Hs; try done.
  - injection Hs as <- <-. simpl in *. split_and!; [lia|by apply Hl|lia].
  - injection Hs as <- <-. simpl in *. split_and!; [lia|by apply Hl|lia].
  - unfold WRITE_LOCK_HELD, usize_MAX in Hs. change (2 ^ 64) with 18446744073709551616 in Hs.
    destruct (Z.eqb_spec (readers l) (18446744073709551616 - 1));
      [|destruct (Z.ltb_spec (readers l) (18446744073709551616 - 1 - 1))];
      injection Hs as <- <-; simpl in *; (split_and!; [lia| |lia]); apply Hl; intros r ?; simplify_eq; done.
  - pose proof (Hld i readers0 Hi).
    destruct (Z.eqb_spec (readers l) readers0) as [<-|], spurious; simpl in Hs; injection Hs as <- <-;
      simpl in *; (split_and!; [lia|by apply Hl|lia]).
  - pose proof (at_point_pos _ _ _ Hi). injection Hs as <- <-. simpl in *.
    split_and!; [lia|by apply Hl|]. right. rewrite Z.mod_small by lia. lia.
  - destruct (Z.eqb_spec (readers l) NO_LOCK_HELD); injection Hs as <- <-;
      unfold NO_LOCK_HELD, WRITE_LOCK_HELD, usize_MAX in *; cbn [readers] in *; simpl in *; (split_and!; [lia|by apply Hl|lia]).
  - injection Hs as <- <-. simpl in *. split_and!; [lia|by apply Hl|lia].
  - pose proof (at_point_pos _ _ _ Hi). injection Hs as <- <-. simpl in *.
    split_and!; [lia|by apply Hl|]. right. unfold NO_LOCK_HELD. lia.
Qed.

Lemma rw_run_inv sched : ∀ s s', rw_inv s → rw_run sched s = Some s' → rw_inv s'.
Proof.
  induction sched as [|[i ev] sched IH]; intros [ps l] s' Hinv Hr; [by injection Hr as <-|].
  cbn [rw_run fst snd] in Hr. destruct (ps !! i) as [pc|] eqn:Hi; [|done]. simpl in Hr.
  destruct (rw_step pc ev l) as [[pc' l']|] eqn:Hs; [|done]. simpl in Hr.
  eapply IH, Hr. by eapply rw_step_inv.
Qed.

(** Whatever the schedule of fewer than [usize::MAX - 1] threads, a writer
    of a reader-writer lock is alone: while a thread holds a write guard no
    other holds a guard of either kind, so readers see data that does not
    change under them.  The counter is the number of read guards, or
    [usize::MAX] for a write guard; the assertion of [read_lock] never fails;
    and when no guard is held a waiting writer's next compare-exchange
    succeeds. *)
Theorem rw_lock_excludes n (x : T) sched ps l :
  Z.of_nat n < usize_MAX - 1 →
  rw_run sched (replicate n RIdle, rw_new x) = Some (ps, l) →
  (∀ i j, ps !! i = Some WWriting → i ≠ j → ps !! j ≠ Some WWriting ∧ ps !! j ≠ Some RReading) ∧
  (∀ i j pc ev pc' l', ps !! i = Some RReading → ps !! j = Some pc →
     rw_step pc ev l = Some (pc', l') → rw_data l' = rw_data l) ∧
  (∀ i, ps !! i ≠ Some RPanicked) ∧
  readers l = (if (0 <? at_point WWriting ps)%nat then usize_MAX
               else Z.of_nat (at_point RReading ps)) ∧
  (at_point WWriting ps = 0%nat → at_point RReading ps = 0%nat →
     rw_step WSpin WCas l = Some (WWriting, mkRw usize_MAX (rw_data l))).
Proof.
  intros Hn Hr. assert (Hinv : rw_inv (ps, l)).
  { eapply rw_run_inv, Hr. unfold rw_inv. cbn [fst snd]. rewrite length_replicate, !at_point_replicate by done.
    split_and!; [done|done| |by right]. intros i r Hi. apply lookup_replicate_1 in Hi as [? _]. done. }
  destruct Hinv as (_ & Hpan & _ & Hcnt). cbn [fst snd] in *. split_and!.
  - intros i j Hi Hne. pose proof (at_point_pos _ _ _ Hi). split; intros Hj.
    + pose proof (at_point_two _ _ i j Hi Hj Hne). lia.
    + pose proof (at_point_pos _ _ _ Hj). lia.
  - intros i j pc ev pc' l' Hi Hj Hs. pose proof (at_point_pos _ _ _ Hi).
    destruct pc, ev; simpl in Hs; try done;
      repeat (match type of Hs with context [if ?b then _ else _] => destruct b end);
      try (by injection Hs as <- <-).
    pose proof (at_point_pos _ _ _ Hj). lia.
  - intros i Hi. pose proof (at_point_pos _ _ _ Hi). lia.
  - destruct (Nat.ltb_spec 0 (at_point WWriting ps)); lia.
  - intros Hw0 Hr0. cbn [rw_step]. rewrite (proj2 (Z.eqb_eq _ _)); [done|]. unfold NO_LOCK_HELD. lia.
Qed.
End rw.
Arguments RwLock : clear implicits.
Arguments rw_event : clear implicits.

Lemma rw_lock_excludes_witness :
  (∀ i, [RReading; RReading; WSpin] !! i ≠ Some RPanicked) ∧
  readers (mkRw 2 5) = 2.
Proof.
  assert (Hr : rw_run [(0%nat, RLock); (1%nat, RLock); (2%nat, WLock); (0%nat, RLoad);
      (1%nat, RLoad); (0%nat, RCas false); (1%nat, RCas false); (1%nat, RLoad);
      (1%nat, RCas false); (2%nat, WCas)]
    (replicate 3 RIdle, rw_new 5) = Some ([RReading; RReading; WSpin], mkRw 2 5)) by reflexivity.
  destruct (rw_lock_excludes 3 5 _ _ _ ltac:(unfold usize_MAX; lia) Hr) as (_ & _ & Hp & Hc & _).
  split; [exact Hp|exact Hc].
Defined.
