(* ===== verification/Mount.v ===== *)
(** * The mount table

    [kernel/src/vfs/mod.rs].  A mounted filesystem is any implementation of
    the [Filesystem] trait: a handle [F] whose root is a node of the [VNode]
    class, over a system state [S].  The [BTreeMap] of mounts is the list of
    its entries in the order of iteration. *)

From S2P Require Import Prelude Errors Vfs Vsfs.

Section mounts.
Context {S F N : Type} `{VNode S N}.

(** [Filesystem::root], and [vsfs::initialize] for the block device. *)
Context (fs_root : F → M S VfsError N) (fs_initialize : M S VfsError F).

(** The kernel's mounts and everything the filesystems work on. *)
Record Mounts := mkMounts { file_systems : list (list Z * F); fs_state : S }.

Definition set_state (s : S) (m : Mounts) : Mounts := mkMounts (file_systems m) s.
Definition fs_op {A} (op : M S VfsError A) : M Mounts VfsError A := zoom fs_state set_state op.

(** ** Model *)

(** [slice::starts_with] and [slice::strip_prefix]. *)
Fixpoint strip_prefix (prefix l : list Z) : option (list Z) :=
  match prefix, l with
  | [], _ => Some l
  | x :: prefix', y :: l' => if x =? y then strip_prefix prefix' l' else None
  | _ :: _, [] => None
  end.
Definition starts_with (prefix l : list Z) : bool :=
  match strip_prefix prefix l with Some _ => true | None => false end.

Definition slash : list Z := [47].

(** [is_mount_prefix]. *)
Definition is_mount_prefix (mount path : list Z) : bool :=
  if decide (mount = slash) then starts_with slash path
  else bool_decide (path = mount) ||
    (starts_with mount path && bool_decide (path !! length mount = Some 47)).

(** [max_by_key]: the last of the entries with the longest path. *)
Fixpoint longest (acc : option (list Z * F)) (ms : list (list Z * F)) : option (list Z * F) :=
  match ms with
  | [] => acc
  | m :: ms' =>
      longest (match acc with
               | Some a => if (length m.1 <? length a.1)%nat then acc else Some m
               | None => Some m
               end) ms'
  end.

(** [find_mount]. *)
Definition find_mount (mounts : list (list Z * F)) (path : list Z) : option (list Z * F) :=
  longest None (filter (λ m, is_mount_prefix m.1 path = true) mounts).

(** The path below the mount point, in [resolve_path]. *)
Definition relative_path (mount_path path : list Z) : list Z :=
  if decide (mount_path = slash) then default path (strip_prefix slash path)
  else default [] (strip_prefix slash (default path (strip_prefix mount_path path))).

(** [resolve_path]. *)
Definition resolve_path (path : list Z) : M Mounts VfsError (F * list Z) :=
  let! mounts := gets file_systems in
  let! (mount_path, fs) := lift (ok_or (find_mount mounts path) Fs) in
  ret (fs, relative_path mount_path path).

(** [open] and [create]. *)
Definition mount_open (path : list Z) : M Mounts VfsError (File N) :=
  let! (fs, relative_path) := resolve_path path in
  let! root := fs_op (fs_root fs) in
  let! node := fs_op (vn_open root relative_path) in
  ret (mkFile node 0).
Definition mount_create (path : list Z) : M Mounts VfsError (File N) :=
  let! (fs, relative_path) := resolve_path path in
  let! root := fs_op (fs_root fs) in
  let! node := fs_op (vn_create root relative_path) in
  ret (mkFile node 0).

(** The order of the keys, and [VacantEntry::insert]. *)
Fixpoint lex_ltb (p q : list Z) : bool :=
  match p, q with
  | _, [] => false
  | [], _ :: _ => true
  | x :: p', y :: q' => (x <? y) || ((x =? y) && lex_ltb p' q')
  end.
Fixpoint entry_insert (path : list Z) (fs : F) (ms : list (list Z * F)) : list (list Z * F) :=
  match ms with
  | [] => [(path, fs)]
  | m :: ms' =>
      if lex_ltb m.1 path then m :: entry_insert path fs ms' else (path, fs) :: m :: ms'
  end.

(** [mount], for the one kind of filesystem there is. *)
Definition mount (path : list Z) : M Mounts VfsError unit :=
  let! fs := fs_op fs_initialize in
  let! mounts := gets file_systems in
  if decide (path ∈ mounts.*1) then fail AlreadyMounted
  else modify (λ m, mkMounts (entry_insert path fs (file_systems m)) (fs_state m)).

(** ** Paths *)

Lemma strip_prefix_Some prefix l rest : strip_prefix prefix l = Some rest ↔ l = prefix ++ rest.
Proof.
  revert l. induction prefix as [|x prefix IH]; intros l; simpl; [split; congruence|].
  destruct l as [|y l]; [done|]. destruct (Z.eqb_spec x y) as [->|Hne].
  - rewrite IH. split; [by intros ->|by intros [= ->]].
  - split; [done|]. congruence.
Qed.

Lemma starts_with_spec prefix l : starts_with prefix l = true ↔ ∃ rest, l = prefix ++ rest.
Proof.
  unfold starts_with. destruct (strip_prefix prefix l) as [rest|] eqn:Hs.
  - apply strip_prefix_Some in Hs as ->. split; [by eauto|done].
  - split; [done|]. intros [rest Hr]. apply strip_prefix_Some in Hr. congruence.
Qed.

(** A mount point is a prefix that ends at a component's end. *)
Lemma is_mount_prefix_spec mount path : mount ≠ slash →
  is_mount_prefix mount path = true ↔ path = mount ∨ ∃ rest, path = mount ++ 47 :: rest.
Proof.
  intros Hne. unfold is_mount_prefix. rewrite decide_False by done.
  rewrite orb_true_iff, andb_true_iff, !bool_decide_eq_true, starts_with_spec. split.
  - intros [?|[[rest ->] Hl]]; [by left|right]. rewrite lookup_app_r, Nat.sub_diag in Hl by done.
    destruct rest as [|c rest]; [done|]. injection Hl as ->. by exists rest.
  - intros [?|[rest ->]]; [by left|right]. split; [by eexists|].
    by rewrite lookup_app_r, Nat.sub_diag by done.
Qed.

(** Splitting at a slash splits the components. *)
Lemma split_slash_app a b : ∃ x xs y ys, split_slash a = xs ++ [x] ∧ split_slash b = y :: ys ∧
  split_slash (a ++ 47 :: b) = xs ++ x :: y :: ys.
Proof.
  destruct (split_slash b) as [|y ys] eqn:Hb.
  { exfalso. destruct b as [|c b]; [done|]. simpl in Hb. destruct (c =? 47); [done|].
    by destruct (split_slash b). }
  induction a as [|c a IH].
  { exists [], [], y, ys. simpl. by rewrite Hb. }
  destruct IH as (x & xs & y' & ys' & Ha & [= <- <-] & Hab). cbn [split_slash app]. rewrite Ha, Hab.
  destruct (c =? 47).
  - by exists x, ([] :: xs), y, ys.
  - destruct xs as [|x0 xs]; simpl.
    + by exists (c :: x), [], y, ys.
    + by exists x, ((c :: x0) :: xs), y, ys.
Qed.

Lemma components_app a b : components (a ++ 47 :: b) = components a ++ components b.
Proof.
  destruct (split_slash_app a b) as (x & xs & y & ys & Ha & Hb & Hab). unfold components.
  rewrite Ha, Hb, Hab. change (xs ++ x :: y :: ys) with (xs ++ [x] ++ (y :: ys)).
  rewrite app_assoc. apply list_basics.list.filter_app.
Qed.

(** ** Resolution *)

(** [path] is the mount point or lies below it. *)
Definition covers (mount path : list Z) : Prop :=
  (mount = slash ∧ ∃ rest, path = 47 :: rest) ∨
  (mount ≠ slash ∧ (path = mount ∨ ∃ rest, path = mount ++ 47 :: rest)).

Lemma is_mount_prefix_covers mount path : is_mount_prefix mount path = true ↔ covers mount path.
Proof.
  unfold covers. destruct (decide (mount = slash)) as [->|Hne].
  - unfold is_mount_prefix. rewrite decide_True, starts_with_spec by done.
    split; [by left|]. intros [[_ ?]|[? _]]; done.
  - rewrite is_mount_prefix_spec by done. split; [by right|]. intros [[? _]|[_ ?]]; done.
Qed.

(** A path is the mount point's components, then those of the relative path. *)
Lemma relative_path_components mount path : covers mount path →
  components path = components mount ++ components (relative_path mount path).
Proof.
  unfold relative_path. intros [[-> [rest ->]]|[Hne Hc]].
  - rewrite decide_True by done. cbn. by destruct (decide _).
  - rewrite decide_False by done. destruct Hc as [->|[rest ->]].
    + rewrite (proj2 (strip_prefix_Some mount mount [])) by by rewrite app_nil_r.
      cbn. by rewrite app_nil_r.
    + rewrite (proj2 (strip_prefix_Some mount _ _)) by done. cbn. apply components_app.
Qed.

(** Two mount points of the same length that cover a path are the same. *)
Lemma covers_same_length p q path : covers p path → covers q path → length p = length q → p = q.
Proof.
  assert (∀ m, covers m path → ∃ rest, path = m ++ rest) as Hpre.
  { intros m [[-> [rest ->]]|[_ [->|[rest ->]]]]; [by exists rest| |by eexists].
    exists []. by rewrite app_nil_r. }
  intros [r1 Hp]%Hpre [r2 Hq]%Hpre Hl. rewrite Hp in Hq. by apply app_inj_1 in Hq as [-> _].
Qed.

Lemma longest_spec acc ms : match longest acc ms with
  | Some m => (m ∈ ms ∨ acc = Some m) ∧ (∀ m', m' ∈ ms ∨ acc = Some m' → (length m'.1 ≤ length m.1)%nat)
  | None => acc = None ∧ ms = []
  end.
Proof.
  revert acc. induction ms as [|m ms IH]; intros acc; simpl.
  { destruct acc; [|done]. split; [by right|]. set_solver by lia. }
  specialize (IH (match acc with
    | Some a => if (length m.1 <? length a.1)%nat then acc else Some m | None => Some m end)).
  destruct (longest _ ms) as [r|].
  - destruct IH as [Hin Hmax]. destruct acc as [a|]; [destruct (Nat.ltb_spec (length m.1) (length a.1))|].
    + split; [set_solver|]. intros m' [[->|?]%elem_of_cons|?]; [|by auto..].
      specialize (Hmax a (or_intror eq_refl)). lia.
    + split; [set_solver|]. intros m' [[->|?]%elem_of_cons|[= ->]]; [by auto..|].
      specialize (Hmax m (or_intror eq_refl)). lia.
    + split; [set_solver|]. intros m' [[->|?]%elem_of_cons|?]; by auto.
  - destruct IH as [Ha _]. destruct acc as [a|]; [by destruct (_ <? _)%nat|done].
Qed.

(** The entry that serves a path. *)
Definition serves (mounts : list (list Z * F)) (path : list Z) (m : list Z * F) : Prop :=
  m ∈ mounts ∧ covers m.1 path ∧
  ∀ m', m' ∈ mounts → covers m'.1 path → m' = m ∨ (length m'.1 < length m.1)%nat.

Lemma nodup_keys (ms : list (list Z * F)) p f f' :
  NoDup ms.*1 → (p, f) ∈ ms → (p, f') ∈ ms → f' = f.
Proof.
  intros Hnd [i Hi]%list_elem_of_lookup [j Hj]%list_elem_of_lookup.
  assert (i = j) as ->; [|congruence].
  eapply NoDup_lookup; [done| |]; rewrite list_lookup_fmap.
  - by rewrite Hi.
  - by rewrite Hj.
Qed.

Lemma find_mount_spec mounts path : NoDup mounts.*1 → match find_mount mounts path with
  | Some m => serves mounts path m
  | None => ∀ m, m ∈ mounts → ¬ covers m.1 path
  end.
Proof.
  intros Hnd. unfold find_mount, serves.
  pose proof (longest_spec None (filter (λ m, is_mount_prefix m.1 path = true) mounts)) as Hl.
  destruct (longest _ _) as [m|].
  - destruct Hl as [[[Hp Hin]%list_elem_of_filter|?] Hmax]; [|done].
    apply is_mount_prefix_covers in Hp. split_and!; [done..|]. intros m' Hin' Hp'.
    assert (length m'.1 ≤ length m.1)%nat as Hle.
    { apply Hmax. left. apply list_elem_of_filter. by rewrite is_mount_prefix_covers. }
    destruct (decide (length m'.1 = length m.1)) as [He|]; [left|right; lia].
    apply (covers_same_length _ _ path) in He; [|done..]. destruct m as [p f], m' as [p' f'].
    simpl in He. subst p'. f_equal. by apply (nodup_keys mounts p).
  - destruct Hl as [_ Hl]. intros m Hin Hc. apply (not_elem_of_nil m). rewrite <-Hl.
    apply list_elem_of_filter. by rewrite is_mount_prefix_covers.
Qed.

Lemma entry_insert_perm path fs ms : entry_insert path fs ms ≡ₚ (path, fs) :: ms.
Proof.
  induction ms as [|m ms IH]; simpl; [done|]. destruct (lex_ltb m.1 path); [|done].
  rewrite IH. apply Permutation_swap.
Qed.
Lemma resolve_path_serves (m : Mounts) path mp fs : NoDup (file_systems m).*1 →
  serves (file_systems m) path (mp, fs) →
  resolve_path path m = (Ok (fs, relative_path mp path), m).
Proof.
  intros Hnd (Hin & Hc & Hmax). pose proof (find_mount_spec _ path Hnd) as Hf.
  unfold resolve_path, bind, gets, lift. destruct (find_mount _ _) as [[mp' fs']|].
  - destruct Hf as (Hin' & Hc' & Hmax'). destruct (Hmax _ Hin' Hc') as [[= -> ->]|]; [done|].
    destruct (Hmax' _ Hin Hc) as [[= -> ->]|]; [done|]. simpl in *. lia.
  - by destruct (Hf _ Hin).
Qed.

(** An absolute path goes to the mount with the longest mount point above
    it, whatever the order of the table: that entry is the only one of its
    length, and the path handed to its root is what is left, component by
    component.  Without such a mount the error is [Fs]; resolution changes
    nothing. *)
Theorem resolve_path_spec (m : Mounts) path : NoDup (file_systems m).*1 →
  (∃ mount fs rel, resolve_path path m = (Ok (fs, rel), m) ∧
    serves (file_systems m) path (mount, fs) ∧
    components path = components mount ++ components rel) ∨
  (resolve_path path m = (Err Fs, m) ∧ ∀ e, e ∈ file_systems m → ¬ covers e.1 path).
Proof.
  intros Hnd. pose proof (find_mount_spec (file_systems m) path Hnd) as Hf.
  unfold resolve_path, bind, gets, lift. destruct (find_mount _ _) as [[mp fs]|].
  - left. exists mp, fs, (relative_path mp path). split_and!; [done..|].
    apply relative_path_components, Hf.
  - by right.
Qed.

(** [mount] refuses a path that has a filesystem, leaving the table as it
    is; otherwise the table has exactly one more entry, and the new filesystem
    serves every path below the mount point that no deeper mount covers. *)
Theorem mount_spec (m : Mounts) path fs s : NoDup (file_systems m).*1 →
  fs_initialize (fs_state m) = (Ok fs, s) →
  if decide (path ∈ (file_systems m).*1)
  then mount path m = (Err AlreadyMounted, mkMounts (file_systems m) s)
  else ∃ m', mount path m = (Ok tt, m') ∧ fs_state m' = s ∧
    file_systems m' ≡ₚ (path, fs) :: file_systems m ∧ NoDup (file_systems m').*1 ∧
    ∀ p, covers path p → (∀ e, e ∈ file_systems m → covers e.1 p → (length e.1 ≤ length path)%nat) →
      resolve_path p m' = (Ok (fs, relative_path path p), m').
Proof.
  intros Hnd Hi. unfold mount, fs_op, zoom, bind, gets, modify, fail. rewrite Hi. cbn -[resolve_path].
  destruct (decide _) as [|Hn]; [done|]. eexists. split; [done|]. cbn -[resolve_path].
  pose proof (entry_insert_perm path fs (file_systems m)) as Hp.
  assert (NoDup (entry_insert path fs (file_systems m)).*1) as Hnd'.
  { rewrite Hp. cbn. by constructor. }
  split_and!; [done..|]. intros p Hc Hdeep.
  assert (serves (entry_insert path fs (file_systems m)) p (path, fs)) as Hs.
  { split_and!; [by rewrite Hp; left|done|]. intros e. rewrite Hp.
    intros [->|Hin]%elem_of_cons Hce; [by left|right]. specialize (Hdeep e Hin Hce). simpl.
    destruct (decide (length e.1 = length path)) as [He|]; [|lia].
    destruct Hn. rewrite <-(covers_same_length _ _ p Hce Hc He). by apply list_elem_of_fmap_2. }
  by apply resolve_path_serves.
Qed.
End mounts.

(** ** Witnesses: filesystems that are numbers, on "/" and "/mnt" *)

Definition example_mounts : Mounts (S := nat) (F := nat) :=
  mkMounts [(slash, 0%nat); ([47; 109; 110; 116], 1%nat)] 7%nat.
Definition next_fs : M nat VfsError nat := λ n, (Ok n, Datatypes.S n).

Lemma example_mounts_nodup : NoDup (file_systems example_mounts).*1.
Proof. apply (bool_decide_eq_true (NoDup _)). by vm_compute. Defined.

(** "/mnt/a" is "a" of the second filesystem. *)
Lemma resolve_path_spec_witness :
  resolve_path [47; 109; 110; 116; 47; 97] example_mounts = (Ok (1%nat, [97]), example_mounts).
Proof.
  destruct (resolve_path_spec example_mounts [47; 109; 110; 116; 47; 97] example_mounts_nodup)
    as [(mp & fs & rel & H & _)|[H _]]; [|by vm_compute in H].
  rewrite H. by vm_compute in H; injection H as <- <-.
Defined.

(** Mounting on "/mnt/a". *)
Lemma mount_spec_witness : ∃ m',
  mount next_fs [47; 109; 110; 116; 47; 97] example_mounts = (Ok tt, m').
Proof.
  pose proof (mount_spec next_fs example_mounts [47; 109; 110; 116; 47; 97] 7%nat 8%nat
    example_mounts_nodup eq_refl) as H.
  destruct (decide _) as [Hd|_].
  - exfalso. by apply (bool_decide_eq_true_2 (_ ∈ _)) in Hd; vm_compute in Hd.
  - destruct H as (m' & H & _). by exists m'.
Defined.
