(* ===== verification/FileTable.v ===== *)
(** * Open files of a task

    [kernel/src/task/file_table.rs].  A [FileRef] is an [Arc<SpinLock<File>>]:
    a location in a store of open files, which the tables of a forked family
    share. *)

From S2P Require Import Prelude Errors Vfs.

Section file_table.
Context {N : Type}.

(** The open files of the system, by location. *)
Abbreviation Files := (list (File N)).

(** [FileTable], of optional [FileRef]s. *)
Abbreviation FileTable := (list (option nat)).

(** ** Model *)

(** [FileRef::new]. *)
Definition file_ref_new (file : File N) (fs : Files) : nat * Files := (length fs, fs ++ [file]).

(** The first slot of [iter_mut().enumerate()] that is [None]. *)
Fixpoint first_none (t : FileTable) : option nat :=
  match t with
  | [] => None
  | None :: _ => Some 0%nat
  | Some _ :: t' => S <$> first_none t'
  end.

(** [FileTable::add_file]. *)
Definition add_file (file : File N) (t : FileTable) (fs : Files) : nat * FileTable * Files :=
  let '(r, fs') := file_ref_new file fs in
  match first_none t with
  | Some i => (i, <[i := Some r]> t, fs')
  | None => (length t, t ++ [Some r], fs')
  end.

(** [FileTable::init], with the node of [Console::as_file]. *)
Definition file_table_init (console : N) (fs : Files) : FileTable * Files :=
  let '(a, fs) := file_ref_new (mkFile console 0) fs in
  let '(b, fs) := file_ref_new (mkFile console 0) fs in
  let '(c, fs) := file_ref_new (mkFile console 0) fs in
  ([Some a; Some b; Some c], fs).

(** [FileTable::get_file]. *)
Definition get_file (fd : Z) (t : FileTable) : option nat := mjoin (t !! Z.to_nat fd).

(** [FileTable::close_file]: [Option::take] on the slot. *)
Definition close_file (fd : Z) (t : FileTable) : option nat * FileTable :=
  match t !! Z.to_nat fd with
  | Some r => (r, <[Z.to_nat fd := None]> t)
  | None => (None, t)
  end.

(** [FileTable::destroy]. *)
Definition destroy (t : FileTable) : FileTable := [].

(** ** Descriptors *)

Implicit Types (t : FileTable) (fs : Files).

(** What descriptor [fd] refers to. *)
Definition fd_file (fd : nat) t fs : option (File N) := mjoin (t !! fd) ≫= λ r, fs !! r.

(** Every reference of a table is to an open file of the store. *)
Definition refs_ok t fs : Prop := ∀ r, Some r ∈ t → (r < length fs)%nat.

Lemma first_none_spec t : match first_none t with
  | Some i => t !! i = Some None ∧ ∀ j, (j < i)%nat → ∃ r, t !! j = Some (Some r)
  | None => ∀ j, (j < length t)%nat → ∃ r, t !! j = Some (Some r)
  end.
Proof.
  induction t as [|[r|] t IH]; simpl; [lia| |by split; [done|lia]].
  destruct (first_none t) as [i|]; simpl.
  - destruct IH as [Hi Hlt]. split; [done|]. intros [|j] Hj; [by exists r|]. apply Hlt. lia.
  - intros [|j] Hj; [by exists r|]. apply IH. lia.
Qed.

(** The slot that [add_file] fills, whether it exists or not. *)
Lemma add_file_slot file t fs fd t' fs' : add_file file t fs = (fd, t', fs') →
  fs' = fs ++ [file] ∧ mjoin (t !! fd) = None ∧
  (∀ j, (j < fd)%nat → ∃ r, t !! j = Some (Some r)) ∧
  t' !! fd = Some (Some (length fs)) ∧ ∀ j, j ≠ fd → t' !! j = t !! j.
Proof.
  unfold add_file, file_ref_new. pose proof (first_none_spec t) as Hf.
  destruct (first_none t) as [i|]; intros [= <- <- <-]; (split; [done|]).
  - destruct Hf as [Hi Hlt]. pose proof (lookup_lt_Some _ _ _ Hi). split_and!.
    + by rewrite Hi.
    + done.
    + by apply list_lookup_insert_eq.
    + intros j Hj. by rewrite list_lookup_insert_ne.
  - split_and!.
    + by rewrite lookup_ge_None_2.
    + done.
    + by rewrite lookup_app_r, Nat.sub_diag.
    + intros j Hj. destruct (decide (j < length t)%nat); [by rewrite lookup_app_l|].
      rewrite !lookup_ge_None_2; [done|lia|]. rewrite length_app. simpl. lia.
Qed.

Lemma refs_lookup fs t fd r : refs_ok t fs → t !! fd = Some (Some r) → is_Some (fs !! r).
Proof. intros Hok Hl. apply lookup_lt_is_Some_2, Hok. by apply list_elem_of_lookup_2 in Hl. Qed.

(** [add_file] gives the lowest descriptor that is not in use.  The
    descriptor then refers to the new file, every other descriptor of the
    table, and every descriptor of another table over the same store, refers to
    what it did; closing it gives the file back and frees the descriptor. *)
Theorem add_file_spec file t fs u fd t' fs' :
  refs_ok t fs → refs_ok u fs → add_file file t fs = (fd, t', fs') →
  fd_file fd t fs = None ∧ (∀ j, (j < fd)%nat → is_Some (fd_file j t fs)) ∧
  refs_ok t' fs' ∧ fd_file fd t' fs' = Some file ∧
  (∀ j, j ≠ fd → fd_file j t' fs' = fd_file j t fs) ∧
  (∀ j, fd_file j u fs' = fd_file j u fs) ∧
  (∃ r, close_file (Z.of_nat fd) t' = (Some r, <[fd := None]> t') ∧ fs' !! r = Some file) ∧
  get_file (Z.of_nat fd) (close_file (Z.of_nat fd) t').2 = None.
Proof.
  intros Ht Hu Ha. destruct (add_file_slot _ _ _ _ _ _ Ha) as (-> & Hn & Hlt & Hfd & Hne).
  pose proof (lookup_lt_Some _ _ _ Hfd) as Hlen.
  assert (∀ v j, refs_ok v fs → fd_file j v (fs ++ [file]) = fd_file j v fs) as Hext.
  { intros v j Hv. unfold fd_file. destruct (v !! j) as [[r|]|] eqn:Hj; [|done..]. simpl.
    destruct (refs_lookup _ _ _ _ Hv Hj) as [x Hx]. rewrite Hx. by apply lookup_app_l_Some. }
  assert ((fs ++ [file]) !! length fs = Some file) as Hnew.
  { by rewrite lookup_app_r, Nat.sub_diag. }
  unfold close_file, get_file. rewrite !Nat2Z.id, Hfd. cbn [snd]. split_and!.
  - unfold fd_file. by rewrite Hn.
  - intros j Hj. destruct (Hlt j Hj) as [r Hr]. unfold fd_file. rewrite Hr.
    by apply (refs_lookup fs t j).
  - intros r [j Hj]%list_elem_of_lookup. rewrite length_app. simpl.
    destruct (decide (j = fd)) as [->|Hjf]; [rewrite Hfd in Hj; injection Hj as <-; lia|].
    rewrite Hne in Hj by done. apply list_elem_of_lookup_2, Ht in Hj. lia.
  - unfold fd_file. by rewrite Hfd.
  - intros j Hj. rewrite <-(Hext t j Ht). unfold fd_file. by rewrite Hne.
  - intros j. by apply Hext.
  - by eexists.
  - by rewrite list_lookup_insert_eq.
Qed.
End file_table.

(** Descriptor 1 was closed; the table of a forked child still has it. *)
Lemma add_file_spec_witness :
  let fs := [mkFile 5%nat 0; mkFile 6%nat 3; mkFile 7%nat 0] in
  fd_file 1 (add_file (mkFile 9%nat 0) [Some 0%nat; None; Some 2%nat] fs).1.2
    (add_file (mkFile 9%nat 0) [Some 0%nat; None; Some 2%nat] fs).2 = Some (mkFile 9%nat 0).
Proof.
  intros fs.
  assert (refs_ok [Some 0%nat; None; Some 2%nat] fs) as Ht.
  { intros r Hr. unfold fs. simpl. set_solver by lia. }
  assert (refs_ok [Some 0%nat; Some 1%nat; Some 2%nat] fs) as Hu.
  { intros r Hr. unfold fs. simpl. set_solver by lia. }
  by destruct (add_file_spec (mkFile 9%nat 0) [Some 0%nat; None; Some 2%nat] fs
    [Some 0%nat; Some 1%nat; Some 2%nat] 1 _ _ Ht Hu eq_refl) as (_ & _ & _ & ? & _).
Defined.
