(* ===== verification/TaskPool.v ===== *)
(** * The task pool

    [kernel/src/task/table.rs], [kernel/src/task/id.rs] and
    [kernel/src/task/wait.rs].  The [slab] crate is a class: its operations, and
    the part of its documentation that the pool relies on.  A task is an
    [Arc<Task>], any type with a [Pid]. *)

From S2P Require Import Prelude.

(** ** The slab crate *)

(** [Slab<T>]; [slab_remove] gives [None] where the crate panics. *)
Class Slab (T : Type) := {
  slab : Type;
  slab_with_capacity : Z → slab;
  slab_len : slab → Z;
  slab_capacity : slab → Z;
  slab_insert : T → slab → nat * slab;
  slab_get : nat → slab → option T;
  slab_remove : nat → slab → option (T * slab);
}.

(** What its documentation says: a new slab is empty and has the room it was
    asked for, [insert] takes a vacant key and does not reallocate while there
    is room, [get] finds what is stored, and [remove] vacates a key. *)
Class SlabOk (T : Type) `{Slab T} := {
  slab_with_capacity_spec n : slab_len (slab_with_capacity n) = 0 ∧
    n ≤ slab_capacity (slab_with_capacity n) ∧ ∀ k, slab_get k (slab_with_capacity n) = None;
  slab_insert_spec x s k s' : slab_insert x s = (k, s') →
    slab_get k s = None ∧ slab_len s' = slab_len s + 1 ∧
    (slab_len s < slab_capacity s → slab_capacity s' = slab_capacity s) ∧
    ∀ j, slab_get j s' = if decide (j = k) then Some x else slab_get j s;
  slab_remove_spec k s x : slab_get k s = Some x → ∃ s', slab_remove k s = Some (x, s') ∧
    slab_len s' = slab_len s - 1 ∧ slab_capacity s' = slab_capacity s ∧
    ∀ j, slab_get j s' = if decide (j = k) then None else slab_get j s;
}.

(** ** Model *)

(** [Pid::create_next]: [fetch_add] wraps around. *)
Definition create_next : M Z Empty_set Z :=
  λ counter, (Ok counter, (counter + 1) mod 2 ^ 64).

(** [WaitStatus] and [RawWaitStatus::from]; [e as u8] keeps the bits of an
    [i8]. *)
Inductive WaitStatus := WExited (e : Z).
Definition raw_wait_status (w : WaitStatus) : Z :=
  match w with WExited e => Z.shiftl (e mod 2 ^ 8) 8 end.

Definition MAX_TASK_PER_SLAB : Z := 100.

Section pool.
Context {T : Type} `{Slab T} (task_pid : T → Z).

(** [TaskPoolInner]. *)
Record TaskPool := mkPool { slabs : list slab; pid_to_idx : gmap Z (nat * nat) }.

Definition empty_pool : TaskPool := mkPool [] ∅.

Abbreviation PM := (M TaskPool Empty_set).

(** [slabs.iter().position(|slab| slab.len() < slab.capacity())]. *)
Fixpoint position_room (ss : list slab) : option nat :=
  match ss with
  | [] => None
  | s :: ss' => if slab_len s <? slab_capacity s then Some 0%nat else S <$> position_room ss'
  end.

(** [add_task]. *)
Definition add_task (task : T) : PM T :=
  let! ss := gets slabs in
  let! slab_idx :=
    match position_room ss with
    | Some i => ret i
    | None =>
        modify (λ p, mkPool (slabs p ++ [slab_with_capacity MAX_TASK_PER_SLAB]) (pid_to_idx p)) ;;;
        ret (length ss)
    end in
  let! ss := gets slabs in
  let! s := lift (unwrap (ss !! slab_idx)) in
  assert (slab_len s <? slab_capacity s) ;;;
  let '(task_idx, s') := slab_insert task s in
  modify (λ p, mkPool (<[slab_idx := s']> (slabs p))
                      (<[task_pid task := (slab_idx, task_idx)]> (pid_to_idx p))) ;;;
  ret task.

(** [get_task]. *)
Definition get_task (pid : Z) : PM (option T) :=
  let! p := gets id in
  match pid_to_idx p !! pid with
  | None => ret None
  | Some (slab_idx, idx) =>
      let! s := lift (unwrap (slabs p !! slab_idx)) in
      ret (slab_get idx s)
  end.

(** [remove_task]. *)
Definition remove_task (pid : Z) : PM (option T) :=
  let! p := gets id in
  match pid_to_idx p !! pid with
  | None => ret None
  | Some (slab_idx, idx) =>
      modify (λ p, mkPool (slabs p) (delete pid (pid_to_idx p))) ;;;
      let! s := lift (unwrap (slabs p !! slab_idx)) in
      let! (task, s') := lift (unwrap (slab_remove idx s)) in
      modify (λ p, mkPool (<[slab_idx := s']> (slabs p)) (pid_to_idx p)) ;;;
      ret (Some task)
  end.

(** ** A pool is a map from pids to tasks *)

(** What is stored at an index pair. *)
Definition at_idx (ss : list slab) (ij : nat * nat) : option T :=
  ss !! ij.1 ≫= slab_get ij.2.

(** [p] holds exactly the tasks of [m], each under its pid and at an index of
    its own. *)
Definition represents (p : TaskPool) (m : gmap Z T) : Prop :=
  (∀ pid, m !! pid = pid_to_idx p !! pid ≫= at_idx (slabs p)) ∧
  (∀ pid ij, pid_to_idx p !! pid = Some ij →
     ∃ t, at_idx (slabs p) ij = Some t ∧ task_pid t = pid) ∧
  (∀ ij t, at_idx (slabs p) ij = Some t → pid_to_idx p !! task_pid t = Some ij).

(** An operation of the pool, and of a map. *)
Inductive pool_op := PAdd (t : T) | PGet (pid : Z) | PRemove (pid : Z).

Definition pool_do (o : pool_op) : PM (option T) :=
  match o with
  | PAdd t => let! t := add_task t in ret (Some t)
  | PGet pid => get_task pid
  | PRemove pid => remove_task pid
  end.
Fixpoint pool_run (os : list pool_op) : PM (list (option T)) :=
  match os with
  | [] => ret []
  | o :: os' => let! r := pool_do o in let! rs := pool_run os' in ret (r :: rs)
  end.

Definition map_do (o : pool_op) (m : gmap Z T) : option T * gmap Z T :=
  match o with
  | PAdd t => (Some t, <[task_pid t := t]> m)
  | PGet pid => (m !! pid, m)
  | PRemove pid => (m !! pid, delete pid m)
  end.
Fixpoint map_run (os : list pool_op) (m : gmap Z T) : list (option T) * gmap Z T :=
  match os with
  | [] => ([], m)
  | o :: os' => let '(r, m) := map_do o m in let '(rs, m) := map_run os' m in (r :: rs, m)
  end.

(** No task is added under a pid that is in use. *)
Fixpoint fresh_adds (os : list pool_op) (m : gmap Z T) : bool :=
  match os with
  | [] => true
  | o :: os' =>
      match o with PAdd t => bool_decide (m !! task_pid t = None) | _ => true end &&
      fresh_adds os' (map_do o m).2
  end.

Context `{!SlabOk T}.

Lemma position_room_spec ss i : position_room ss = Some i →
  ∃ s, ss !! i = Some s ∧ slab_len s < slab_capacity s.
Proof.
  revert i. induction ss as [|s ss IH]; intros i; simpl; [done|].
  destruct (Z.ltb_spec (slab_len s) (slab_capacity s)).
  - intros [= <-]. by exists s.
  - intros (j & Hj & ->)%fmap_Some. by apply IH.
Qed.

Lemma at_idx_new ss n ij : at_idx (ss ++ [slab_with_capacity n]) ij = at_idx ss ij.
Proof.
  unfold at_idx. destruct ij as [i j]. simpl. rewrite lookup_app.
  destruct (ss !! i) as [s|] eqn:Hs; [done|]. simpl.
  destruct (i - length ss)%nat as [|n']; simpl; [|done].
  apply slab_with_capacity_spec.
Qed.

Lemma at_idx_update ss i s s' k o ij : ss !! i = Some s →
  (∀ j, slab_get j s' = if decide (j = k) then o else slab_get j s) →
  at_idx (<[i := s']> ss) ij = if decide (ij = (i, k)) then o else at_idx ss ij.
Proof.
  intros Hs Hg. unfold at_idx. destruct ij as [i' j]. simpl.
  pose proof (lookup_lt_Some _ _ _ Hs). destruct (decide (i' = i)) as [->|Hne].
  - rewrite list_lookup_insert_eq, Hs by done. simpl. rewrite Hg.
    destruct (decide (j = k)) as [->|]; [by rewrite decide_True|].
    rewrite decide_False; [done|congruence].
  - rewrite list_lookup_insert_ne by done. rewrite decide_False; [done|congruence].
Qed.

(** Storing a task where there is room, after a new slab where there is none. *)
Lemma add_task_slot t p : ∃ ss i s k s',
  add_task t p = (Ok t, mkPool (<[i := s']> ss) (<[task_pid t := (i, k)]> (pid_to_idx p))) ∧
  (∀ ij, at_idx ss ij = at_idx (slabs p) ij) ∧ ss !! i = Some s ∧
  slab_len s < slab_capacity s ∧ slab_insert t s = (k, s').
Proof.
  unfold add_task, bind, gets, modify, ret, assert, lift.
  destruct (position_room (slabs p)) as [i|] eqn:Hr; cbn [slabs pid_to_idx].
  - destruct (position_room_spec _ _ Hr) as (s & Hs & Hlt). rewrite Hs. cbn [unwrap].
    rewrite (proj2 (Z.ltb_lt _ _) Hlt). destruct (slab_insert t s) as [k s'] eqn:Hi.
    by exists (slabs p), i, s, k, s'.
  - set (s := slab_with_capacity MAX_TASK_PER_SLAB). set (ss := slabs p ++ [s]).
    assert (ss !! length (slabs p) = Some s) as Hs.
    { unfold ss. by rewrite lookup_app_r, Nat.sub_diag. }
    destruct (slab_with_capacity_spec MAX_TASK_PER_SLAB) as (Hl & Hc & _). fold s in Hl, Hc.
    unfold MAX_TASK_PER_SLAB in Hc. rewrite Hs. cbn [unwrap].
    rewrite (proj2 (Z.ltb_lt (slab_len s) (slab_capacity s))) by lia.
    destruct (slab_insert t s) as [k s'] eqn:Hi. exists ss, (length (slabs p)), s, k, s'.
    split_and!; [done| |done|lia|done]. intros ij. apply at_idx_new.
Qed.

Lemma add_task_represents t p m : represents p m → m !! task_pid t = None →
  ∃ p', add_task t p = (Ok t, p') ∧ represents p' (<[task_pid t := t]> m).
Proof.
  intros (HA & HB & HC) Hf. destruct (add_task_slot t p) as (ss & i & s & k & s' & -> & Hss & Hs & _ & Hi).
  eexists. split; [done|]. apply slab_insert_spec in Hi as (Hnone & _ & _ & Hg).
  pose proof (at_idx_update ss i s s' k (Some t)) as Hat. unfold represents. cbn [slabs pid_to_idx].
  assert (pid_to_idx p !! task_pid t = None) as Hn.
  { rewrite HA in Hf. destruct (pid_to_idx p !! task_pid t) as [ij|] eqn:E; [|done].
    destruct (HB _ _ E) as (t' & Ht' & _). simpl in Hf. congruence. }
  assert (∀ pid ij, pid_to_idx p !! pid = Some ij → ij ≠ (i, k)) as Hvac.
  { intros pid ij E ->. destruct (HB _ _ E) as (t' & Ht' & _). rewrite <-Hss in Ht'.
    unfold at_idx in Ht'. simpl in Ht'. rewrite Hs in Ht'. simpl in Ht'. congruence. }
  split_and!.
  - intros pid. destruct (decide (pid = task_pid t)) as [->|Hne].
    + rewrite !lookup_insert_eq. simpl. rewrite (Hat _ Hs Hg). by rewrite decide_True.
    + rewrite !lookup_insert_ne, HA by done. destruct (pid_to_idx p !! pid) as [ij|] eqn:E; [|done].
      simpl. rewrite (Hat _ Hs Hg), decide_False by by eapply Hvac. by rewrite Hss.
  - intros pid ij. rewrite lookup_insert_Some. intros [[<- <-]|[Hne E]].
    + exists t. by rewrite (Hat _ Hs Hg), decide_True.
    + rewrite (Hat _ Hs Hg), decide_False, Hss by by eapply Hvac. by apply HB.
  - intros ij t'. rewrite (Hat _ Hs Hg). destruct (decide _) as [->|Hne].
    + intros [= ->]. by rewrite lookup_insert_eq.
    + rewrite Hss. intros E%HC. rewrite lookup_insert_ne; [done|]. congruence.
Qed.

Lemma get_task_represents pid p m : represents p m → get_task pid p = (Ok (m !! pid), p).
Proof.
  intros (HA & HB & _). unfold get_task, bind, gets, lift, ret. cbn [id]. rewrite HA.
  destruct (pid_to_idx p !! pid) as [[i k]|] eqn:E; [|done].
  destruct (HB _ _ E) as (t & Ht & _). simpl. unfold at_idx in *. cbn [fst snd] in *.
  by destruct (slabs p !! i).
Qed.

Lemma remove_task_represents pid p m : represents p m →
  ∃ p', remove_task pid p = (Ok (m !! pid), p') ∧ represents p' (delete pid m).
Proof.
  intros (HA & HB & HC). unfold remove_task, bind, gets, lift, ret, modify. cbn [id].
  pose proof (HA pid) as Hp. destruct (pid_to_idx p !! pid) as [[i k]|] eqn:E; rewrite Hp.
  2: { eexists. split; [done|]. rewrite delete_id by done. done. }
  destruct (HB _ _ E) as (t & Ht & Htp). simpl. rewrite Ht. unfold at_idx in Ht. cbn [fst snd] in *.
  destruct (slabs p !! i) as [s|] eqn:Hs; [|done]. cbn [unwrap mbind option_bind] in *.
  destruct (slab_remove_spec k s t Ht) as (s' & -> & _ & _ & Hg). cbn [unwrap].
  eexists. split; [done|]. unfold represents. cbn [slabs pid_to_idx].
  pose proof (λ ij, at_idx_update (slabs p) i s s' k None ij Hs Hg) as Hat. split_and!.
  - intros pid'. destruct (decide (pid' = pid)) as [->|Hne]; [by rewrite !lookup_delete_eq|].
    rewrite !lookup_delete_ne, HA by done. destruct (pid_to_idx p !! pid') as [ij|] eqn:E'; [|done].
    simpl. rewrite Hat. case_decide as Hij; [|done]. subst ij.
    destruct (HB _ _ E') as (t' & Ht' & <-). apply HC in Ht' as ?.
    unfold at_idx in Ht'. simpl in Ht'. rewrite Hs in Ht'. simpl in Ht'. congruence.
  - intros pid' ij [Hne E']%lookup_delete_Some. destruct (HB _ _ E') as (t' & Ht' & <-).
    exists t'. rewrite Hat. case_decide as Hij; [|done]. subst ij.
    unfold at_idx in Ht'. simpl in Ht'. rewrite Hs in Ht'. simpl in Ht'. congruence.
  - intros ij t'. rewrite Hat. case_decide as Hij; [done|]. intros E'%HC.
    rewrite lookup_delete_ne; [done|]. congruence.
Qed.

Lemma pool_do_represents o p m : represents p m →
  match o with PAdd t => m !! task_pid t = None | _ => True end →
  ∃ p', pool_do o p = (Ok (map_do o m).1, p') ∧ represents p' (map_do o m).2.
Proof.
  intros Hp Hf. destruct o as [t|pid|pid]; cbn [pool_do map_do fst snd].
  - destruct (add_task_represents t p m Hp Hf) as (p' & Ha & Hp').
    exists p'. by rewrite (bind_ok _ _ _ _ _ Ha).
  - exists p. by rewrite (get_task_represents pid p m Hp).
  - by apply remove_task_represents.
Qed.

Lemma empty_represents : represents empty_pool ∅.
Proof.
  split_and!; cbn [slabs pid_to_idx empty_pool].
  - intros pid. by rewrite !lookup_empty.
  - intros pid ij. by rewrite lookup_empty.
  - by intros [i k] t.
Qed.

(** C39: the pool is a map from pids to tasks.  Any sequence of additions (under
    pids not in use), lookups and removals on a new pool returns, for every
    operation, what it returns on a map; in particular nothing panics: the slab
    chosen has room, and the indices stay valid as slabs are added and slots
    reused. *)
Theorem pool_refines_map os : fresh_adds os ∅ = true →
  ∃ p, pool_run os empty_pool = (Ok (map_run os ∅).1, p) ∧ represents p (map_run os ∅).2.
Proof.
  generalize empty_represents. generalize (∅ : gmap Z T) as m. generalize empty_pool as p.
  induction os as [|o os IH]; intros p m Hp Hf; cbn [pool_run map_run] in *; [by exists p|].
  apply andb_true_iff in Hf as [Ho Hf].
  destruct (pool_do_represents o p m) as (p1 & Hd & Hp1); [done| |].
  { by destruct o; [apply bool_decide_eq_true in Ho|..]. }
  destruct (IH p1 _ Hp1 Hf) as (p2 & Hr & Hp2). exists p2.
  rewrite (bind_ok _ _ _ _ _ Hd), (bind_ok _ _ _ _ _ Hr).
  destruct (map_do o m) as [r m1]. cbn [fst snd] in *. by destruct (map_run os m1).
Qed.
End pool.

(** ** Witness: a slab that is a list of slots *)

Record list_slab (T : Type) := mkListSlab { slots : list (option T); room : Z }.
Arguments mkListSlab {T} slots room.
Arguments slots {T} l.
Arguments room {T} l.

Definition used {T} (l : list (option T)) : Z := Z.of_nat (length (omap id l)).
Fixpoint fill {T} (x : T) (l : list (option T)) : nat * list (option T) :=
  match l with
  | None :: l' => (0%nat, Some x :: l')
  | Some y :: l' => let '(k, l'') := fill x l' in (S k, Some y :: l'')
  | [] => (0%nat, [Some x])
  end.

#[export] Instance list_slab_ops T : Slab T := {
  slab := list_slab T;
  slab_with_capacity n := mkListSlab [] n;
  slab_len s := used (slots s);
  slab_capacity s := room s;
  slab_insert x s :=
    let '(k, l) := fill x (slots s) in
    (k, mkListSlab l (if used (slots s) <? room s then room s else 2 * room s + 1));
  slab_get k s := mjoin (slots s !! k);
  slab_remove k s := x ← mjoin (slots s !! k); Some (x, mkListSlab (<[k := None]> (slots s)) (room s));
}.

Lemma used_cons {T} (o : option T) l :
  used (o :: l) = (match o with Some _ => 1 | None => 0 end) + used l.
Proof. unfold used. destruct o; cbn [omap list_omap id length]; lia. Qed.

Lemma fill_spec {T} (x : T) l : mjoin (l !! (fill x l).1) = None ∧
  used (fill x l).2 = used l + 1 ∧
  ∀ j, mjoin ((fill x l).2 !! j) = if decide (j = (fill x l).1) then Some x else mjoin (l !! j).
Proof.
  induction l as [|[y|] l (H1 & H2 & H3)]; simpl.
  - split_and!; [done..|]. by intros [|j].
  - destruct (fill x l) as [k l']. simpl in *. split_and!; [done| |].
    + rewrite !used_cons. lia.
    + intros [|j]; simpl; [done|]. rewrite H3. repeat case_decide; congruence.
  - split_and!; [done| |by intros [|j]]. rewrite !used_cons. lia.
Qed.

Lemma used_take {T} (l : list (option T)) k x :
  l !! k = Some (Some x) → used (<[k := None]> l) = used l - 1.
Proof.
  revert k. induction l as [|o l IH]; intros [|k] Hk; [done..| |]; cbn in Hk.
  - injection Hk as ->. change (<[0%nat := None]> (Some x :: l)) with (None :: l).
    rewrite !used_cons. lia.
  - change (<[S k := None]> (o :: l)) with (o :: <[k := None]> l). rewrite !used_cons, (IH k Hk). lia.
Qed.

#[export] Instance list_slab_ok T : SlabOk T.
Proof.
  split.
  - intros n. by split_and!.
  - intros x s k s'. cbn. destruct (fill_spec x (slots s)) as (H1 & H2 & H3).
    destruct (fill x (slots s)) as [k' l]. intros [= <- <-]. cbn in *. split_and!; [done..| |done].
    intros Hlt. by rewrite (proj2 (Z.ltb_lt _ _) Hlt).
  - intros k s x. cbn. destruct (slots s !! k) as [[y|]|] eqn:Hk; [|done..]. intros [= ->].
    eexists. split; [done|]. cbn. split_and!; [by eapply used_take|done|].
    intros j. pose proof (lookup_lt_Some _ _ _ Hk). case_decide as Hj.
    + subst j. by rewrite list_lookup_insert_eq.
    + by rewrite list_lookup_insert_ne.
Qed.

(** Two tasks, one removed and its slot reused; tasks are pairs of a pid and a
    name. *)
Lemma pool_refines_map_witness :
  (pool_run (T := Z * Z) fst [PAdd (1, 10); PAdd (2, 20); PRemove 1; PAdd (3, 30); PGet 3; PGet 1]
     empty_pool).1 =
  Ok [Some (1, 10); Some (2, 20); Some (1, 10); Some (3, 30); Some (3, 30); None].
Proof.
  destruct (pool_refines_map (T := Z * Z) fst
    [PAdd (1, 10); PAdd (2, 20); PRemove 1; PAdd (3, 30); PGet 3; PGet 1] eq_refl) as (p & -> & _).
  reflexivity.
Defined.
