(* ===== verification/Sched.v ===== *)
(** * Tasks and the scheduler

    [kernel/src/sched] and the life cycle of tasks in
    [kernel/src/task/task.rs], over the per-core contexts of
    [kernel/src/percpu.rs].  An [Arc<Task>] or [Weak<Task>] is the task's pid:
    [tasks] is the objects, and the task pool, which is a map from pids to tasks
    ([TaskPool]), is the set of pids it holds.

    A function that the hart runs takes the task it runs as: [me] is the task
    the [tp] register points to, where [load_core_ctx] starts.  A function that
    may switch returns the task [tp] points to afterwards. *)

From S2P Require Import Prelude Errors Sv39 PageTable MemMgr FileTable TaskPool.

(** ** State *)

Inductive TaskState := Sleeping | Running | Ready | Blocked | Zombie | Exited.
#[export] Instance TaskState_eq_dec : EqDecision TaskState.
Proof. solve_decision. Defined.

(** [Task] with its [TaskRuntime] and the core pointer of its [ThreadInfo]. *)
Record Task := mkTask {
  t_state : TaskState;
  t_parent : option Z;
  t_children : list Z;
  t_exit_code : Z;
  t_wake_up_at : Z;
  t_core : option nat;
  t_files : list (option nat);
  t_mm : MemoryManager;
}.

Definition set_t_state (st : TaskState) (t : Task) : Task :=
  mkTask st (t_parent t) (t_children t) (t_exit_code t) (t_wake_up_at t) (t_core t) (t_files t) (t_mm t).
Definition set_t_children (cs : list Z) (t : Task) : Task :=
  mkTask (t_state t) (t_parent t) cs (t_exit_code t) (t_wake_up_at t) (t_core t) (t_files t) (t_mm t).
Definition set_t_exit_code (e : Z) (t : Task) : Task :=
  mkTask (t_state t) (t_parent t) (t_children t) e (t_wake_up_at t) (t_core t) (t_files t) (t_mm t).
Definition set_t_wake_up_at (w : Z) (t : Task) : Task :=
  mkTask (t_state t) (t_parent t) (t_children t) (t_exit_code t) w (t_core t) (t_files t) (t_mm t).
Definition set_t_core (c : option nat) (t : Task) : Task :=
  mkTask (t_state t) (t_parent t) (t_children t) (t_exit_code t) (t_wake_up_at t) c (t_files t) (t_mm t).
Definition set_t_files (f : list (option nat)) (t : Task) : Task :=
  mkTask (t_state t) (t_parent t) (t_children t) (t_exit_code t) (t_wake_up_at t) (t_core t) f (t_mm t).
Definition set_t_mm (m : MemoryManager) (t : Task) : Task :=
  mkTask (t_state t) (t_parent t) (t_children t) (t_exit_code t) (t_wake_up_at t) (t_core t) (t_files t) m.

(** [PerCoreContext] with its [PerCoreScheduler], its [ReaperTaskCtx] and the
    timer of the hart.  The heap of sleeping tasks is the list of its nodes in
    the order they come out. *)
Record Core := mkCore {
  runqueue : list Z;
  sleeping : list (Z * Z);
  last_entrance : Z;
  current : Z;
  idle : Z;
  reaper : Z;
  cleanup_queue : list Z;
  timer : Z;
}.

Definition set_runqueue (q : list Z) (k : Core) : Core :=
  mkCore q (sleeping k) (last_entrance k) (current k) (idle k) (reaper k) (cleanup_queue k) (timer k).
Definition set_sleeping (q : list (Z * Z)) (k : Core) : Core :=
  mkCore (runqueue k) q (last_entrance k) (current k) (idle k) (reaper k) (cleanup_queue k) (timer k).
Definition set_current (p now : Z) (k : Core) : Core :=
  mkCore (runqueue k) (sleeping k) now p (idle k) (reaper k) (cleanup_queue k) (timer k).
Definition set_cleanup_queue (q : list Z) (k : Core) : Core :=
  mkCore (runqueue k) (sleeping k) (last_entrance k) (current k) (idle k) (reaper k) q (timer k).
Definition set_core_timer (w : Z) (k : Core) : Core :=
  mkCore (runqueue k) (sleeping k) (last_entrance k) (current k) (idle k) (reaper k) (cleanup_queue k) w.

(** The kernel: the tasks, the cores, the [GlobalScheduler], the clock and the
    kernel memory. *)
Record Sys := mkSys {
  tasks : gmap Z Task;
  pool : gset Z;
  cores : list Core;
  last_rq_hart_idx : nat;
  irq_wait_queue : gmap Z (list Z);
  waiting_tasks : gset Z;
  now : Z;
  memory : Kmem;
}.

Definition set_tasks (ts : gmap Z Task) (s : Sys) : Sys :=
  mkSys ts (pool s) (cores s) (last_rq_hart_idx s) (irq_wait_queue s) (waiting_tasks s) (now s) (memory s).
Definition set_pool (p : gset Z) (s : Sys) : Sys :=
  mkSys (tasks s) p (cores s) (last_rq_hart_idx s) (irq_wait_queue s) (waiting_tasks s) (now s) (memory s).
Definition set_cores (ks : list Core) (s : Sys) : Sys :=
  mkSys (tasks s) (pool s) ks (last_rq_hart_idx s) (irq_wait_queue s) (waiting_tasks s) (now s) (memory s).
Definition set_last_rq (i : nat) (s : Sys) : Sys :=
  mkSys (tasks s) (pool s) (cores s) i (irq_wait_queue s) (waiting_tasks s) (now s) (memory s).
Definition set_irq_wait (q : gmap Z (list Z)) (s : Sys) : Sys :=
  mkSys (tasks s) (pool s) (cores s) (last_rq_hart_idx s) q (waiting_tasks s) (now s) (memory s).
Definition set_waiting (w : gset Z) (s : Sys) : Sys :=
  mkSys (tasks s) (pool s) (cores s) (last_rq_hart_idx s) (irq_wait_queue s) w (now s) (memory s).
Definition set_now (n : Z) (s : Sys) : Sys :=
  mkSys (tasks s) (pool s) (cores s) (last_rq_hart_idx s) (irq_wait_queue s) (waiting_tasks s) n (memory s).
Definition set_memory (m : Kmem) (s : Sys) : Sys :=
  mkSys (tasks s) (pool s) (cores s) (last_rq_hart_idx s) (irq_wait_queue s) (waiting_tasks s) (now s) m.

Abbreviation SM := (M Sys Error).

(** Reading and changing a task or a core. *)
Definition task_of (p : Z) : SM Task := λ s, (unwrap (tasks s !! p), s).
Definition on_task (p : Z) (f : Task → Task) : SM unit :=
  modify (λ s, set_tasks (alter f p (tasks s)) s).
Definition set_task_state (p : Z) (st : TaskState) : SM unit := on_task p (set_t_state st).
Definition core_of (c : nat) : SM Core := λ s, (unwrap (cores s !! c), s).
Definition on_core (c : nat) (f : Core → Core) : SM unit :=
  modify (λ s, set_cores (alter f c (cores s)) s).

(** ** Core contexts and time *)

(** [load_core_ctx] and [load_core_ctx_mut]: the core the task was placed on. *)
Definition load_core_ctx (me : Z) : SM nat :=
  let! t := task_of me in lift (unwrap (t_core t)).

Abbreviation CPU_HERTZ := 10000000.

(** [Architecture::nanos_to_ticks]. *)
Definition nanos_to_ticks (nanos : Z) : outcome Error Z :=
  let? x := mul_ov 64 nanos CPU_HERTZ in Ok (x / 1000000000).

(** [init_per_core_scheduler] in the core context that [setup_core] makes. *)
Definition setup_core (idle_task reaper_task : Z) : Core :=
  mkCore [reaper_task] [] 0 idle_task idle_task reaper_task [] 0.

(** [core_boot_entry], up to the call of [schedule]: the two kernel tasks learn
    their core, and the timer is set. *)
Definition core_ready (c : nat) : SM unit :=
  let! k := core_of c in
  on_task (idle k) (set_t_core (Some c)) ;;;
  on_task (reaper k) (set_t_core (Some c)) ;;;
  let! time := gets now in
  let! ticks := lift (nanos_to_ticks (32 * 1000000)) in
  let! w := lift (add_ov 64 time ticks) in
  on_core c (set_core_timer w).

(** [Weak::upgrade]: some [Arc] of the task is left, in the pool or on a core. *)
Definition core_refs (k : Core) : list Z :=
  current k :: idle k :: reaper k :: runqueue k ++ cleanup_queue k.
Definition upgrade (s : Sys) (p : Z) : bool :=
  bool_decide (p ∈ pool s) || bool_decide (p ∈ cores s ≫= core_refs).

(** ** Scheduling *)

(** The loop of [schedule]: stale entries are dropped. *)
Fixpoint pop_ready (ts : gmap Z Task) (rq : list Z) : option Z * list Z :=
  match rq with
  | [] => (None, [])
  | p :: rq' =>
      if bool_decide (t_state <$> ts !! p = Some Ready) then (Some p, rq') else pop_ready ts rq'
  end.

(** [schedule]. *)
Definition schedule (me : Z) : SM Z :=
  let! c := load_core_ctx me in
  let! k := core_of c in
  let! s := gets id in
  let '(next_task, rq) := pop_ready (tasks s) (runqueue k) in
  on_core c (set_runqueue rq) ;;;
  match next_task with
  | Some new_task =>
      set_task_state new_task Running ;;;
      let! cur := task_of (current k) in
      (if negb (current k =? idle k) && bool_decide (t_state cur = Running) then
         set_task_state (current k) Ready ;;;
         on_core c (set_runqueue (rq ++ [current k]))
       else if negb (current k =? idle k) && bool_decide (t_state cur = Ready) then
         on_core c (set_runqueue (rq ++ [current k]))
       else ret tt) ;;;
      let! time := gets now in
      on_core c (set_current new_task time) ;;;
      ret new_task
  | None =>
      let! cur := task_of (current k) in
      if bool_decide (t_state cur = Ready) || bool_decide (t_state cur = Running) then
        set_task_state (current k) Running ;;;
        ret me
      else
        set_task_state (idle k) Running ;;;
        let! time := gets now in
        on_core c (set_current (idle k) time) ;;;
        ret (idle k)
  end.

(** [core_boot_entry] on the hart of the core [c], as its idle task: it goes on
    with the task that [schedule] gives, [idle_task_main] if that is itself. *)
Definition core_boot (c : nat) : SM Z :=
  core_ready c ;;;
  let! k := core_of c in
  schedule (idle k).

(** [enqueue_new_task]. *)
Definition enqueue_new_task (p : Z) : SM unit :=
  let! s := gets id in
  let idx := if (length (cores s) <=? last_rq_hart_idx s + 1)%nat then 0%nat
             else (last_rq_hart_idx s + 1)%nat in
  modify (set_last_rq idx) ;;;
  let! k := core_of idx in
  on_task p (set_t_core (Some idx)) ;;;
  on_core idx (set_runqueue (runqueue k ++ [p])).

(** [SleepingTasks::push]. *)
Fixpoint sleep_insert (node : Z * Z) (l : list (Z * Z)) : list (Z * Z) :=
  match l with
  | [] => [node]
  | x :: l' => if node.1 <? x.1 then node :: l else x :: sleep_insert node l'
  end.

(** [SleepingTasks::with_tasks_to_wake_up], with the callback of
    [on_timer_interrupt]; the result says if some task woke up. *)
Fixpoint wake_up (c : nat) (time : Z) (l : list (Z * Z)) (woke : bool) : SM bool :=
  match l with
  | [] => on_core c (set_sleeping []) ;;; ret woke
  | (sleep_until, p) :: l' =>
      if sleep_until <=? time then
        let! s := gets id in
        if upgrade s p then
          set_task_state p Ready ;;;
          on_core c (λ k, set_runqueue (runqueue k ++ [p]) k) ;;;
          wake_up c time l' true
        else wake_up c time l' woke
      else on_core c (set_sleeping l) ;;; ret woke
  end.

(** [on_timer_interrupt]. *)
Definition on_timer_interrupt (me : Z) : SM Z :=
  let! c := load_core_ctx me in
  let! current_time := gets now in
  let! k := core_of c in
  let last_entrance := last_entrance k in
  let! some_task_woke_up := wake_up c current_time (sleeping k) false in
  let! time := gets now in
  let! ticks := lift (nanos_to_ticks (8 * 1000000)) in
  let! w := lift (add_ov 64 time ticks) in
  on_core c (set_core_timer w) ;;;
  let! slice_over :=
    if negb (current k =? idle k) then
      let! ran := lift (sub_ov current_time last_entrance) in
      let! slice := lift (nanos_to_ticks (32 * 1000000)) in
      ret (slice <? ran)
    else ret false in
  let! k' := core_of c in
  if slice_over || some_task_woke_up ||
     ((current k =? idle k) && negb (bool_decide (runqueue k' = [])))
  then schedule me else ret me.

(** [on_external_irq]. *)
Definition on_external_irq (irq : Z) : SM unit :=
  let! s := gets id in
  match irq_wait_queue s !! irq with
  | None | Some [] => ret tt
  | Some (p :: queue) =>
      modify (set_irq_wait (<[irq := queue]> (irq_wait_queue s))) ;;;
      if upgrade s p then
        set_task_state p Ready ;;;
        enqueue_new_task p
      else ret tt
  end.

(** [block_on_external_irq] up to its call of [schedule], and all of it. *)
Definition block_irq_enqueue (me irq : Z) : SM unit :=
  let! c := load_core_ctx me in
  let! k := core_of c in
  set_task_state (current k) Blocked ;;;
  modify (λ s, set_irq_wait
    (<[irq := default [] (irq_wait_queue s !! irq) ++ [current k]]> (irq_wait_queue s)) s).
Definition block_on_external_irq (me irq : Z) : SM Z :=
  block_irq_enqueue me irq ;;; schedule me.

(** [block_on_wait]: [None] where it returns [false], and otherwise the task
    the hart goes on with.  The closure gives [inl] when there is no need to
    block. *)
Definition block_on_wait {R} (me task : Z) (should_block : SM (R + unit)) : SM (R + Z) :=
  let! b := should_block in
  match b with
  | inl r => ret (inl r)
  | inr _ =>
      modify (λ s, set_waiting ({[task]} ∪ waiting_tasks s) s) ;;;
      let! tp := schedule me in
      ret (inr tp)
  end.

(** [enqueue_for_reaper]. *)
Definition enqueue_for_reaper (me task : Z) : SM unit :=
  let! c := load_core_ctx me in
  on_core c (λ k, set_cleanup_queue (cleanup_queue k ++ [task]) k).

(** [on_task_exit]; [task::get_task] is the test for the pool. *)
Definition on_task_exit (me task : Z) : SM Z :=
  let! t := task_of task in
  let! s := gets id in
  match t_parent t with
  | Some parent =>
      if decide (parent ∈ pool s) then
        if decide (parent ∈ waiting_tasks s) then
          modify (set_waiting (waiting_tasks s ∖ {[parent]})) ;;;
          set_task_state parent Ready ;;;
          enqueue_new_task parent
        else ret tt
      else enqueue_for_reaper me task
  | None => enqueue_for_reaper me task
  end ;;;
  schedule me.

(** The wake-up time of [sleep_current_task]. *)
Definition wake_time (time time_ms : Z) : outcome Error Z :=
  let? ticks := nanos_to_ticks (default 0 (checked_mul 64 time_ms 1000000)) in
  Ok (default 0 (checked_add 64 time ticks)).

(** [sleep_current_task]. *)
Definition sleep_current_task (me time_ms : Z) : SM Z :=
  let! c := load_core_ctx me in
  let! k := core_of c in
  set_task_state (current k) Sleeping ;;;
  let! time := gets now in
  let! w := lift (wake_time time time_ms) in
  on_task (current k) (set_t_wake_up_at w) ;;;
  on_core c (λ k', set_sleeping (sleep_insert (w, current k) (sleeping k')) k') ;;;
  schedule me.

(** ** The life cycle of a task *)

(** [exit]. *)
Definition exit (me task exit_code : Z) : SM Z :=
  let! t := task_of task in
  if bool_decide (t_state t = Exited) then ret me else
  on_task task (set_t_exit_code exit_code) ;;;
  set_task_state task Zombie ;;;
  on_task task (λ t, set_t_files (destroy (t_files t)) t) ;;;
  on_task task (set_t_children []) ;;;
  on_task_exit me task.

(** The last steps of [fork] and [spawn]: the parent learns of the child, the
    task goes into the pool and is enqueued. *)
Definition publish (parent : option Z) (pid : Z) (task : Task) : SM unit :=
  match parent with
  | Some p => on_task p (λ t, set_t_children (t_children t ++ [pid]) t)
  | None => ret tt
  end ;;;
  modify (λ s, set_pool ({[pid]} ∪ pool s) (set_tasks (<[pid := task]> (tasks s)) s)) ;;;
  enqueue_new_task pid.

(** The index that [reap_zombie_child] looks for. *)
Fixpoint zombie_position (s : Sys) (children : list Z) : option nat :=
  match children with
  | [] => None
  | p :: children' =>
      if bool_decide (p ∈ pool s) && bool_decide (t_state <$> tasks s !! p = Some Zombie)
      then Some 0%nat else S <$> zombie_position s children'
  end.

(** [reap_zombie_child]. *)
Definition reap_zombie_child (me task : Z) : SM (option (Z * Z)) :=
  let! t := task_of task in
  let! s := gets id in
  match zombie_position s (t_children t) with
  | None => ret None
  | Some i =>
      let! child := lift (unwrap (t_children t !! i)) in
      on_task task (set_t_children (delete i (t_children t))) ;;;
      if decide (child ∈ pool s) then
        set_task_state child Exited ;;;
        let! ct := task_of child in
        enqueue_for_reaper me child ;;;
        ret (Some (child, t_exit_code ct))
      else ret None
  end.

(** [wait] until it returns or blocks; then [wait_resume] is the rest, which
    runs when the task is scheduled again. *)
Definition wait (me task : Z) : SM (Z * Z + Z) :=
  let! t := task_of task in
  if decide (t_children t = []) then fail (EErrno EChild) else
  set_task_state task Blocked ;;;
  let! r := block_on_wait me task
    (let! r := reap_zombie_child me task in
     ret (match r with Some r => inl r | None => inr tt end)) in
  match r with
  | inl r => set_task_state task Running ;;; ret (inl r)
  | inr tp => ret (inr tp)
  end.
Definition wait_resume (me task : Z) : SM (Z * Z) :=
  let! r := reap_zombie_child me task in lift (unwrap r).

Section with_memory.
Context `{BF : Bitflags}.

(** A method of a task's memory manager. *)
Definition task_mm {A} (task : Z) (f : MM A) : SM A :=
  let! t := task_of task in
  λ s, let '(o, sp) := f (mkSpace (t_mm t) (memory s)) in
       (o, set_tasks (alter (set_t_mm (mm sp)) task (tasks s)) (set_memory (km sp) s)).

(** [cleanup]. *)
Definition cleanup (task : Z) : SM unit :=
  set_task_state task Exited ;;;
  task_mm task mm_free ;;;
  modify (λ s, set_pool (pool s ∖ {[task]}) s).

(** The body of [reaper_task_main]'s loop. *)
Fixpoint clean_loop (me : Z) (fuel : nat) : SM unit :=
  let! c := load_core_ctx me in
  let! k := core_of c in
  match cleanup_queue k with
  | [] => ret tt
  | t :: q =>
      match fuel with
      | O => diverge
      | S fuel' => on_core c (set_cleanup_queue q) ;;; cleanup t ;;; clean_loop me fuel'
      end
  end.
Definition reaper_round (me : Z) : SM Z :=
  let! c := load_core_ctx me in
  let! k := core_of c in
  clean_loop me (length (cleanup_queue k)) ;;;
  sleep_current_task me 5000.

(** [on_page_fault]. *)
Definition on_page_fault (me task faulting_address access_flags : Z) : SM Z :=
  let! r := attempt (task_mm task (handle_page_fault faulting_address access_flags)) in
  match r with
  | inl _ => ret me
  | inr _ => exit me task (-1)
  end.
End with_memory.
