(* ===== verification/TaskNew.v ===== *)
(** * New tasks

    [create_kernel_task], [fork] and [spawn] of [kernel/src/task/task.rs], with
    the trap frames of [kernel/src/arch/riscv/trap/trap_frame.rs] and the
    contexts of [kernel/src/arch/riscv/context.rs].

    A trap frame is in the kernel's memory, at the top of the task's kernel
    stack; a word of it is a word of a frame.  What a [Task] has beside what the
    scheduler uses is a [Thread]. *)

From S2P Require Import Prelude Errors Kmalloc Vfs Addr Sv39 FrameAllocator PageMeta PageTable PageMap PageFork MemMgr MemFault UserMem UserView ForkView KernelMap TaskSpace Elf ElfLoad InitStack InOrder Registers FileTable TaskPool Sched.

(** ** Trap frames and contexts *)

(** [TrapFrame]. *)
Record TrapFrame := mkTrapFrame {
  tf_ra : Z; tf_sp : Z; tf_gp : Z; tf_tp : Z; tf_t0 : Z; tf_t1 : Z; tf_t2 : Z; tf_s0 : Z; tf_s1 : Z;
  tf_a0 : Z; tf_a1 : Z; tf_a2 : Z; tf_a3 : Z; tf_a4 : Z; tf_a5 : Z; tf_a6 : Z; tf_a7 : Z;
  tf_s2 : Z; tf_s3 : Z; tf_s4 : Z; tf_s5 : Z; tf_s6 : Z; tf_s7 : Z; tf_s8 : Z; tf_s9 : Z; tf_s10 : Z; tf_s11 : Z;
  tf_t3 : Z; tf_t4 : Z; tf_t5 : Z; tf_t6 : Z;
  tf_sepc : Z; tf_scause : Z; tf_sstatus : Z;
}.

(** Its words in memory: it is [repr(C)]. *)
Definition tf_words (t : TrapFrame) : list Z :=
  [tf_ra t; tf_sp t; tf_gp t; tf_tp t; tf_t0 t; tf_t1 t; tf_t2 t; tf_s0 t; tf_s1 t;
   tf_a0 t; tf_a1 t; tf_a2 t; tf_a3 t; tf_a4 t; tf_a5 t; tf_a6 t; tf_a7 t;
   tf_s2 t; tf_s3 t; tf_s4 t; tf_s5 t; tf_s6 t; tf_s7 t; tf_s8 t; tf_s9 t; tf_s10 t; tf_s11 t;
   tf_t3 t; tf_t4 t; tf_t5 t; tf_t6 t; tf_sepc t; tf_scause t; tf_sstatus t].

(** The index of the words that the kernel uses one by one. *)
Definition A0 : Z := 9.
Definition SEPC : Z := 31.
Definition SCAUSE : Z := 32.

Definition TRAP_FRAME_SIZE : Z := 272.

(** [TrapFrame::initialize]. *)
Definition tf_initialize (instruction_ptr stack_ptr user_tp : Z) : TrapFrame :=
  mkTrapFrame 0 stack_ptr 0 user_tp 0 0 0 0 0  0 0 0 0 0 0 0 0  0 0 0 0 0 0 0 0 0 0  0 0 0 0
    instruction_ptr 0 user_sstatus.

(** [Context]: the saved registers [s0] to [s11] are a list. *)
Record Context := mkContext { c_ra : Z; c_sp : Z; c_s : list Z }.

(** [Context::initialize]. *)
Definition context_initialize (entry kernel_sp : Z) : Context := mkContext entry kernel_sp (replicate 12 0).

(** The rest of a [Task]: [ThreadInfo], the trap frame and the context. *)
Record Thread := mkThread { user_sp : Z; kernel_sp : Z; trap_frame : Z; context : Context }.

(** ** Words of kernel memory *)

(** The word behind a kernel pointer into the direct mapping. *)
Definition word_at (ptr : Z) (m : gmap Z (list Z)) : Z :=
  let pa := ptr - KERNEL_DIRECT_MAPPING_BASE in entry m (pa - pa mod 4096) (pa mod 4096 / 8).
Definition set_word (ptr w : Z) (m : gmap Z (list Z)) : gmap Z (list Z) :=
  let pa := ptr - KERNEL_DIRECT_MAPPING_BASE in upd (pa - pa mod 4096) (pa mod 4096 / 8) w m.

(** [n] words, read and written. *)
Definition words_at (ptr : Z) (n : nat) (m : gmap Z (list Z)) : list Z :=
  (λ i, word_at (ptr + 8 * i) m) <$> seqZ 0 (Z.of_nat n).
Fixpoint set_words (ptr : Z) (ws : list Z) (m : gmap Z (list Z)) : gmap Z (list Z) :=
  match ws with
  | [] => m
  | w :: ws' => set_words (ptr + 8) ws' (set_word ptr w m)
  end.

(** ** The kernel *)

Section kernel.
Context {S N : Type} `{HV : VNode S N} `{EC : ElfCrate} `{BF : Bitflags}.

(** [crate::vfs::open], the console's node, and [trap_resume]. *)
Context (vfs_open : list Z → M S VfsError (File N)) (console : N) (trap_resume_ptr : Z).

(** The tasks, the filesystems, the open files, the counter of pids, and the
    kernel's heap, of which the buffers of system calls are taken. *)
Record Kernel := mkKernel {
  k_sys : Sys;
  k_fs : S;
  k_files : list (File N);
  k_threads : gmap Z Thread;
  k_pids : Z;
  k_heap : Heap;
}.

Abbreviation KN := (M Kernel Error).

Definition set_sys (x : Sys) (s : Kernel) : Kernel := mkKernel x (k_fs s) (k_files s) (k_threads s) (k_pids s) (k_heap s).
Definition set_fs (x : S) (s : Kernel) : Kernel := mkKernel (k_sys s) x (k_files s) (k_threads s) (k_pids s) (k_heap s).
Definition set_files (x : list (File N)) (s : Kernel) : Kernel := mkKernel (k_sys s) (k_fs s) x (k_threads s) (k_pids s) (k_heap s).
Definition set_threads (x : gmap Z Thread) (s : Kernel) : Kernel := mkKernel (k_sys s) (k_fs s) (k_files s) x (k_pids s) (k_heap s).
Definition set_pids (x : Z) (s : Kernel) : Kernel := mkKernel (k_sys s) (k_fs s) (k_files s) (k_threads s) x (k_heap s).
Definition set_heap (x : Heap) (s : Kernel) : Kernel := mkKernel (k_sys s) (k_fs s) (k_files s) (k_threads s) (k_pids s) x.

Definition sys_op {A} (op : SM A) : KN A := zoom k_sys set_sys op.
Definition kmem_op {A} (op : KM A) : KN A := sys_op (zoom memory set_memory op).
Definition on_mem (f : gmap Z (list Z) → gmap Z (list Z)) : KN unit :=
  kmem_op (modify (λ k, set_mem (f (mem k)) k)).

(** A step on a memory manager that is not shared yet. *)
Definition with_mm {A} (m : MemoryManager) (op : M Load Error A) : KN (A * MemoryManager) := fun s =>
  match op (mkLoad (k_fs s) (mkSpace m (memory (k_sys s)))) with
  | (o, l) =>
      (let? a := o in Ok (a, mm (l_sp l)),
       set_sys (set_memory (km (l_sp l)) (k_sys s)) (set_fs (l_fs l) s))
  end.

(** [Pid::create_next]. *)
Definition next_pid : KN Z := fun s => (Ok (k_pids s), set_pids ((k_pids s + 1) mod 2 ^ 64) s).

(** [FileTable::init]. *)
Definition new_file_table : KN (list (option nat)) :=
  let! fs := gets k_files in
  let '(t, fs') := file_table_init console fs in
  modify (set_files fs') ;;; ret t.

(** [TaskRuntime] and the state of a new task. *)
Definition new_task (parent : option Z) (files : list (option nat)) (m : MemoryManager) : Task :=
  mkTask Ready parent [] (-1) 0 None files m.

(** [task::add_task] on the fields that the scheduler does not use. *)
Definition add_thread (pid : Z) (t : Thread) : KN unit :=
  modify (λ s, set_threads (<[pid := t]> (k_threads s)) s).

(** [create_kernel_task]. *)
Definition create_kernel_task (entry : Z) : KN Z :=
  let! m := kmem_op mm_new in
  let! (pa, m) := with_mm m (mm_op create_kernel_stack) in
  let! kernel_sp := lift (phys_to_virt pa) in
  let! pid := next_pid in
  let! files := new_file_table in
  add_thread pid (mkThread 0 kernel_sp 0 (context_initialize entry kernel_sp)) ;;;
  sys_op (modify (λ s, set_pool ({[pid]} ∪ pool s) (set_tasks (<[pid := new_task None files m]> (tasks s)) s))) ;;;
  ret pid.

(** The first half of [spawn]: the program in a new address space. *)
Definition spawn_image (path : list Z) (argv : list (list Z)) : KN (Z * Z * MemoryManager) :=
  let! m := kmem_op mm_new in
  let! (entry_va, m) := with_mm m (load_executable vfs_open path) in
  let! (sp, m) := with_mm m (mm_op create_user_stack) in
  let! (sp, m) := with_mm m (mm_op (create_initial_stack sp argv)) in
  ret (entry_va, sp, m).

(** [spawn]. *)
Definition spawn (path : list Z) (argv : list (list Z)) (parent : option Z) : KN Z :=
  let! (entry_va, sp, m) := spawn_image path argv in
  let! (pa, m) := with_mm m (mm_op create_kernel_stack) in
  let! kernel_stack_top := lift (phys_to_virt pa) in
  let! trap_frame_addr := lift (sub_ov kernel_stack_top TRAP_FRAME_SIZE) in
  let! tf := lift (kernel_ptr_new 8 trap_frame_addr) in
  on_mem (set_words tf (tf_words (tf_initialize entry_va sp 0xcafebabe))) ;;;
  let! pid := next_pid in
  let! files := new_file_table in
  add_thread pid (mkThread sp kernel_stack_top tf (context_initialize trap_resume_ptr trap_frame_addr)) ;;;
  sys_op (publish parent pid (new_task parent files m)) ;;;
  ret pid.

(** [fork], by the task [me]. *)
Definition task_fork (me : Z) : KN Z :=
  let! c := sys_op (load_core_ctx me) in
  let! k := sys_op (core_of c) in
  let task := current k in
  let! t := sys_op (task_of task) in
  let! th := (λ s, (unwrap (k_threads s !! task), s)) in
  let! m := kmem_op (mm_fork (t_mm t)) in
  let kernel_stack_top := top (kernel_stack m) in
  let! trap_frame_addr := lift (sub_ov kernel_stack_top TRAP_FRAME_SIZE) in
  let! tf := lift (kernel_ptr_new 8 trap_frame_addr) in
  let! before := gets (λ s, mem (memory (k_sys s))) in
  on_mem (set_words tf (words_at (trap_frame th) 34 before)) ;;;
  on_mem (set_word (tf + 8 * A0) 0) ;;;
  let! pid := next_pid in
  add_thread pid (mkThread (user_sp th) kernel_stack_top tf (context_initialize trap_resume_ptr trap_frame_addr)) ;;;
  sys_op (publish (Some task) pid (new_task (Some task) (t_files t) m)) ;;;
  ret pid.
End kernel.

(** ** Words, read and written *)

(** The page of a kernel address. *)
Definition kernel_page (q : Z) : Z := q - KERNEL_DIRECT_MAPPING_BASE - (q - KERNEL_DIRECT_MAPPING_BASE) mod 4096.

Lemma word_at_set_word p p' w m : length (frame m (kernel_page p)) = 512%nat → p mod 8 = 0 → p' mod 8 = 0 →
  word_at p' (set_word p w m) = if decide (p' = p) then w else word_at p' m.
Proof.
  intros Hw Hp Hp'. unfold kernel_page in Hw. unfold word_at, set_word. set (a := p - _). set (a' := p' - _).
  assert (a mod 8 = 0 ∧ a' mod 8 = 0) as [Ha Ha'] by (unfold a, a', KERNEL_DIRECT_MAPPING_BASE; Z.div_mod_to_equations; lia).
  rewrite entry_upd_if by (done || (Z.div_mod_to_equations; lia)).
  destruct (decide (p' = p)) as [->|Hne]; [by rewrite decide_True|]. rewrite decide_False; [done|].
  assert (a ≠ a') by (unfold a, a'; lia). intros [? ?]. Z.div_mod_to_equations; lia.
Qed.

Lemma set_word_frame p w m x : (∀ y, length (frame m y) = 512%nat) →
  (∀ y, length (frame (set_word p w m) y) = 512%nat) ∧
  (p - KERNEL_DIRECT_MAPPING_BASE - (p - KERNEL_DIRECT_MAPPING_BASE) mod 4096 ≠ x → frame (set_word p w m) x = frame m x).
Proof.
  intros Hw. split.
  - intros y. exact (upd_wide _ _ _ (mkKmem (FrameAllocator.new 0 0) m ∅) Hw y).
  - intros Hne. unfold set_word, upd. by rewrite frame_insert_ne by congruence.
Qed.

(** A run of words is there after it is written, and the rest is as before. *)
Lemma set_words_spec ws : ∀ p m, (∀ x, length (frame m x) = 512%nat) → p mod 8 = 0 →
  (∀ q, q mod 8 = 0 → word_at q (set_words p ws m) =
    if decide (p ≤ q < p + 8 * Z.of_nat (length ws)) then ws !!! Z.to_nat ((q - p) / 8) else word_at q m) ∧
  (∀ x, length (frame (set_words p ws m) x) = 512%nat) ∧
  ∀ x, (∀ q, p ≤ q < p + 8 * Z.of_nat (length ws) →
         q - KERNEL_DIRECT_MAPPING_BASE - (q - KERNEL_DIRECT_MAPPING_BASE) mod 4096 ≠ x) →
    frame (set_words p ws m) x = frame m x.
Proof.
  induction ws as [|w ws IH]; intros p m Hw Hp; cbn [set_words length].
  { split; [|done]. intros q _. by rewrite decide_False by lia. }
  destruct (IH (p + 8) (set_word p w m)) as (H1 & H2 & H3); [by apply set_word_frame|Z.div_mod_to_equations; lia|].
  split; [|split; [done|]].
  - intros q Hq. rewrite H1 by done. rewrite word_at_set_word by done.
    destruct (decide (q = p)) as [->|Hne].
    + rewrite decide_False, decide_True by lia. by rewrite Z.sub_diag.
    + destruct (decide (p + 8 ≤ q < p + 8 + 8 * Z.of_nat (length ws))).
      * rewrite decide_True by lia. replace (Z.to_nat ((q - p) / 8)) with (S (Z.to_nat ((q - (p + 8)) / 8)))
          by (Z.div_mod_to_equations; lia). done.
      * rewrite decide_False; [done|]. Z.div_mod_to_equations; lia.
  - intros x Hx. rewrite H3 by (intros q Hq; apply Hx; lia). apply set_word_frame; [done|]. apply Hx. lia.
Qed.

Lemma words_at_set_words ws p m : (∀ x, length (frame m x) = 512%nat) → p mod 8 = 0 →
  words_at p (length ws) (set_words p ws m) = ws.
Proof.
  intros Hw Hp. destruct (set_words_spec ws p m Hw Hp) as (H1 & _). unfold words_at. apply list_eq. intros i.
  rewrite list_lookup_fmap. destruct (decide (i < length ws)%nat) as [Hi|Hi].
  - rewrite lookup_seqZ_lt by lia. cbn [fmap option_fmap option_map]. rewrite H1 by (Z.div_mod_to_equations; lia).
    rewrite decide_True by lia. replace (Z.to_nat ((p + 8 * (0 + Z.of_nat i) - p) / 8)) with i by (Z.div_mod_to_equations; lia).
    symmetry. by apply list_lookup_lookup_total_lt.
  - rewrite lookup_seqZ_ge, lookup_ge_None_2 by lia. done.
Qed.

Lemma words_at_ext p n m m' : (∀ i, 0 ≤ i < Z.of_nat n → word_at (p + 8 * i) m' = word_at (p + 8 * i) m) →
  words_at p n m' = words_at p n m.
Proof. intros H. unfold words_at. apply list_fmap_ext. intros j i Hi%lookup_seqZ. apply H. lia. Qed.

Lemma word_at_frame q m m' : frame m' (kernel_page q) = frame m (kernel_page q) → word_at q m' = word_at q m.
Proof. intros H. unfold word_at, entry. fold (kernel_page q). by rewrite H. Qed.

Lemma words_at_insert p n i w m : length (frame m (kernel_page (p + 8 * Z.of_nat i))) = 512%nat → p mod 8 = 0 → (i < n)%nat →
  words_at p n (set_word (p + 8 * Z.of_nat i) w m) = <[i := w]> (words_at p n m).
Proof.
  intros Hw Hp Hi. apply list_eq. intros j. unfold words_at. rewrite list_lookup_fmap.
  destruct (decide (j < n)%nat) as [Hj|Hj].
  - rewrite lookup_seqZ_lt by lia. cbn [fmap option_fmap option_map].
    rewrite word_at_set_word by (done || (Z.div_mod_to_equations; lia)).
    destruct (decide (j = i)) as [->|Hne].
    + rewrite decide_True by lia. rewrite list_lookup_insert_eq; [done|]. rewrite length_fmap, length_seqZ. lia.
    + rewrite decide_False by lia. rewrite list_lookup_insert_ne by done. by rewrite list_lookup_fmap, lookup_seqZ_lt by lia.
  - rewrite lookup_seqZ_ge by lia. symmetry. apply lookup_ge_None_2. rewrite length_insert, length_fmap, length_seqZ. lia.
Qed.

Lemma words_at_length p n m : length (words_at p n m) = n.
Proof. unfold words_at. rewrite length_fmap, length_seqZ. lia. Qed.

(** ** Publishing a task *)

(** The core the next task goes to. *)
Definition next_core (s : Sys) : nat :=
  if (length (cores s) <=? last_rq_hart_idx s + 1)%nat then 0%nat else (last_rq_hart_idx s + 1)%nat.

Lemma enqueue_new_task_ok p s k : cores s !! next_core s = Some k →
  enqueue_new_task p s = (Ok tt, set_cores (alter (set_runqueue (runqueue k ++ [p])) (next_core s) (cores s))
    (set_tasks (alter (set_t_core (Some (next_core s))) p (tasks s)) (set_last_rq (next_core s) s))).
Proof.
  intros Hk. unfold enqueue_new_task. unfold bind at 1, gets, id. fold (next_core s). unfold bind at 1, modify at 1.
  unfold bind at 1, core_of. cbn [cores set_last_rq]. rewrite Hk. done.
Qed.

Lemma publish_ok parent pid task s : cores s ≠ [] →
  ∃ c k s', publish parent pid task s = (Ok tt, s') ∧ cores s !! c = Some k ∧
    tasks s' = <[pid := set_t_core (Some c) task]>
      (match parent with Some p => alter (λ t, set_t_children (t_children t ++ [pid]) t) p (tasks s) | None => tasks s end) ∧
    pool s' = {[pid]} ∪ pool s ∧ cores s' = alter (set_runqueue (runqueue k ++ [pid])) c (cores s) ∧ memory s' = memory s.
Proof.
  intros Hne. assert (is_Some (cores s !! next_core s)) as [k Hk].
  { apply lookup_lt_is_Some. unfold next_core. destruct (Nat.leb_spec (length (cores s)) (last_rq_hart_idx s + 1)); [|lia].
    destruct (cores s); [done|cbn [length]; lia]. }
  exists (next_core s), k. unfold publish.
  set (ts := match parent with Some p => alter _ p (tasks s) | None => tasks s end).
  set (s1 := set_pool ({[pid]} ∪ pool s) (set_tasks (<[pid := task]> ts) s)).
  exists (set_cores (alter (set_runqueue (runqueue k ++ [pid])) (next_core s) (cores s))
    (set_tasks (alter (set_t_core (Some (next_core s))) pid (tasks s1)) (set_last_rq (next_core s) s1))).
  split_and!; try done.
  - pose proof (enqueue_new_task_ok pid s1 k Hk) as He. unfold bind. destruct parent; exact He.
  - cbn [tasks set_cores set_tasks s1 set_pool set_last_rq]. by rewrite alter_insert_eq.
Qed.
