(* ===== verification/Spawn.v ===== *)
(** * A spawned program

    What [spawn] of [kernel/src/task/task.rs] leaves for the program it starts,
    from the file's bytes to the registers in the trap frame. *)

From S2P Require Import Prelude Errors Kmalloc Vfs Addr Sv39 FrameAllocator PageMeta PageTable PageMap PageFork MemMgr MemFault UserMem UserView ForkView KernelMap TaskSpace Elf ElfLoad InitStack InOrder Registers FileTable TaskPool Sched TaskNew.

(** [MemoryManager::new] needs one frame. *)
Lemma mm_new_not_full `{BF : Bitflags, HBF : !BitflagsOk BF} k : kwf k → ¬ full (fa k) →
  match mm_new k with (Ok _, _) => True | _ => False end.
Proof.
  intros Hk Hnf. unfold mm_new, unwrapped. unfold bind at 1. pose proof (alloc_frame_spec k Hk) as Ha.
  destruct (alloc_frame k) as [[root|e| |] s1]; [|by destruct Ha as [_ ?]|done..].
  destruct Ha as (_ & _ & Hk1 & Hok & _ & Hh).
  destruct (table_ok_mapped root KERNEL_DIRECT_MAPPING_BASE Hok) as [H1 H2]; [by right|].
  assert (H3 : va_from_raw_unchecked (E := Error) (root + KERNEL_DIRECT_MAPPING_BASE) = Ok (root + KERNEL_DIRECT_MAPPING_BASE))
    by (unfold va_from_raw in H2; unfold va_from_raw_unchecked; by destruct (va_ok _)).
  unfold bind at 1, lift at 1, phys_to_virt. rewrite H1. unfold bind at 1, lift at 1. rewrite H3.
  unfold initialize_empty_pt, write_frame, modify. unfold bind at 1.
  destruct (kvm_full_map_kernel_only root (set_mem (<[root:=empty_table]> (mem s1)) s1)) as (m' & Ho & _);
    [by destruct Hk1; split|by apply Hh; left|done|by apply frame_insert|].
  unfold bind. by rewrite Ho.
Qed.

Section spawn.
Context {S N : Type} `{HV : VNode S N} `{HO : !VNodeOk S N} `{EC : ElfCrate} `{HEC : !ElfCrateOk EC}.
Context `{BF : Bitflags} `{HBF : !BitflagsOk BF}.
Context (vfs_open : list Z → M S VfsError (File N)) (console : N) (trap_resume_ptr : Z).

Abbreviation Kernel := (Kernel (S := S) (N := N)).

(** What the program needs: its file is an executable whose segments lie in the
    file and in the user's addresses below or above the stack, and the
    arguments fit in the last page of the stack. *)
Record spawnable (s : Kernel) (path : list Z) (argv : list (list Z)) (f : File N) (fs : S)
    (h : FileHeader ElfClass) (phs : list ProgramHeader) : Prop := {
  sp_mem : kwf (memory (k_sys s));
  sp_meta : meta_ok (memory (k_sys s));
  sp_open : vfs_open path (k_fs s) = (Ok f, fs);
  sp_regular : regular fs (inode f);
  sp_bytes : Forall is_u8 (content fs (inode f));
  sp_parse : parse_elf (content fs (inode f)) = Ok (h, phs);
  sp_segments : Forall (λ ph, p_type ph = PT_LOAD → segment_ok (content fs (inode f)) ph) phs;
  sp_stack va : STACK_BOTTOM ≤ va < STACK_END → ¬ in_image phs va;
  sp_args : Forall (Forall is_u8) argv;
  sp_fits : stack_size argv ≤ 4000;
}.

(** The memory of the program. *)
Definition program_memory (data : list Z) (phs : list ProgramHeader) (argv : list (list Z)) : Z → option Z :=
  with_args (zero_filled (image data phs (λ _, None)) STACK_BOTTOM STACK_END) STACK_TOP argv.

(** The address space of the program, over the memory [k'], made from [k]. *)
Record program_space (k k' : Kmem) (m : MemoryManager) (data : list Z) (phs : list ProgramHeader)
    (argv : list (list Z)) : Prop := {
  ps_space : tspace (mkSpace m k');
  ps_view a : view (mkSpace m k') a = program_memory data phs argv a;
  ps_segment ph a : ph ∈ phs → p_type ph = PT_LOAD → p_vaddr ph ≤ a < p_vaddr ph + p_memsz ph →
    grants (mkSpace m k') a (convert_elf_flag_to_pte (p_flags ph));
  ps_stack a : STACK_BOTTOM ≤ a < STACK_END → can_read (mkSpace m k') a = true ∧ can_write (mkSpace m k') a = true;
  ps_brk : start_brk m = image_end phs 0 ∧ brk m = image_end phs 0;
  ps_others x : held (fa k) x → foreign (mkSpace m k') x ∧ frame (mem k') x = frame (mem k) x;
}.

(** A step of a new memory manager, on the kernel's state. *)
Lemma with_mm_ok {A} m (op : M Load Error A) (s : Kernel) a l :
  op (mkLoad (k_fs s) (mkSpace m (memory (k_sys s)))) = (Ok a, l) →
  with_mm m op s = (Ok (a, mm (l_sp l)), set_sys (set_memory (km (l_sp l)) (k_sys s)) (set_fs (l_fs l) s)).
Proof. intros H. unfold with_mm. by rewrite H. Qed.

Lemma with_mm_panic {A} m (op : M Load Error A) (s : Kernel) l :
  op (mkLoad (k_fs s) (mkSpace m (memory (k_sys s)))) = (Panic, l) →
  with_mm m op s = (Panic, set_sys (set_memory (km (l_sp l)) (k_sys s)) (set_fs (l_fs l) s)).
Proof. intros H. unfold with_mm. by rewrite H. Qed.

(** The stack and the arguments, after the segments. *)
Lemma stack_and_args sp pages phs argv fs : loaded sp pages →
  (∀ va, is_Some (pages !! va) ↔ in_image phs va ∧ page_of va = va) →
  (∀ va, STACK_BOTTOM ≤ va < STACK_END → ¬ in_image phs va) →
  Forall (Forall is_u8) argv → stack_size argv ≤ 4000 →
  match (let! p := mm_op create_user_stack in mm_op (create_initial_stack p argv)) (mkLoad (S := S) fs sp) with
  | (Ok p, l) => p = initial_sp STACK_TOP argv ∧ l_fs l = fs ∧ only_regions (mm sp) (mm (l_sp l)) ∧
      grows_to sp (l_sp l) (with_args (zero_filled (view sp) STACK_BOTTOM STACK_END) STACK_TOP argv) ∧
      ∀ a, STACK_BOTTOM ≤ a < STACK_END → can_read (l_sp l) a = true ∧ can_write (l_sp l) a = true
  | (Panic, l) => full (fa (km (l_sp l)))
  | _ => False
  end.
Proof.
  intros Hld Hk Hno Hb Hfit. unfold bind, mm_op, zoom. cbn [l_sp l_fs].
  assert (Hfree : ∀ va, STACK_BOTTOM ≤ va < STACK_END → pages !! va = None).
  { intros va Hva. apply eq_None_not_Some. rewrite Hk. intros [? _]. by eapply Hno. }
  pose proof (create_user_stack_spec sp pages Hld Hfree) as H1.
  destruct (create_user_stack sp) as [[p|e| |] sp1]; [|done..]. destruct H1 as (-> & pages1 & [_ Hld1 Hrs1 Hg1 Hgr1 Hk1]).
  cbn [l_sp l_fs] in *.
  assert (Hp : is_Some (pages1 !! page_of STACK_TOP)) by (apply Hk1; right; by vm_compute).
  destruct (create_initial_stack_ok sp1 pages1 STACK_TOP argv Hld1 ltac:(done) Hp Hb Hfit) as (sp2 & -> & Hmm2 & Hld2 & Hg2).
  cbn [l_sp l_fs]. split; [done|]. split; [done|]. split; [by rewrite Hmm2|]. split.
  - eapply grows_to_trans; [exact Hg1|]. eapply grows_to_ext; [exact Hg2|]. intros a. unfold with_args.
    apply patched_ext. intros x. apply patched_ext, Hg1.
  - intros a Ha. destruct (Hgr1 a Ha) as (Hr & _ & Hw). destruct stack_flags_ok as (_ & H1 & H2).
    specialize (Hr H1). specialize (Hw H1 H2). destruct (region_at sp1 a) as [r|] eqn:Hra.
    + destruct (gt_old _ _ _ Hg2 a r Hra) as (_ & HR & HW & _). auto.
    + unfold can_read in Hr. by rewrite Hra in Hr.
Qed.

Lemma only_regions_fields m m' : only_regions m m' → start_brk m' = start_brk m ∧ brk m' = brk m ∧ kernel_stack m' = kernel_stack m.
Proof. by intros [rs ->]. Qed.

(** The access to a segment stays. *)
Lemma segment_grants_grow s s' g a data ph : grants s a (convert_elf_flag_to_pte (p_flags ph)) → grows_to s s' g →
  segment_ok data ph → grants s' a (convert_elf_flag_to_pte (p_flags ph)).
Proof.
  intros Hgr Hg Hok. destruct (region_at s a) as [r|] eqn:Hra; [by eapply grants_grows|].
  exfalso. destruct (convert_flags_spec (p_flags ph) (so_flags _ _ Hok)) as ((_ & _ & Hrx) & _).
  unfold rx_flags in Hrx. destruct Hgr as (H1 & H3 & _). unfold can_read, can_exec in *. rewrite Hra in H1, H3.
  apply orb_true_iff in Hrx as [Hx|Hx]; [by specialize (H1 Hx)|by specialize (H3 Hx)].
Qed.

(** The three parts of the space put together. *)
Lemma program_space_intro k sp1 sp2 sp3 data phs argv : tspace sp1 →
  (∀ x, held (fa k) x → foreign sp1 x ∧ frame (mem (km sp1)) x = frame (mem k) x) →
  grows_to sp1 sp2 (image data phs (λ _, None)) →
  (∀ ph a, ph ∈ phs → p_type ph = PT_LOAD → p_vaddr ph ≤ a < p_vaddr ph + p_memsz ph →
    grants sp2 a (convert_elf_flag_to_pte (p_flags ph))) →
  Forall (λ ph, p_type ph = PT_LOAD → segment_ok data ph) phs →
  start_brk (mm sp2) = image_end phs 0 ∧ brk (mm sp2) = image_end phs 0 →
  only_regions (mm sp2) (mm sp3) →
  grows_to sp2 sp3 (with_args (zero_filled (view sp2) STACK_BOTTOM STACK_END) STACK_TOP argv) →
  (∀ a, STACK_BOTTOM ≤ a < STACK_END → can_read sp3 a = true ∧ can_write sp3 a = true) →
  program_space k (km sp3) (mm sp3) data phs argv.
Proof.
  intros Ht1 Hf1 Hg2 Hgr2 Hok Hbrk Hrs Hg3 Hst. assert (E3 : mkSpace (mm sp3) (km sp3) = sp3) by (by destruct sp3).
  split; rewrite ?E3; [apply Hg3| | |done| |].
  - intros a. rewrite (gt_view _ _ _ Hg3). unfold program_memory, with_args. apply patched_ext. intros x. apply patched_ext.
    intros y. unfold zero_filled. by rewrite (gt_view _ _ _ Hg2).
  - intros ph a Hin Hpt Ha. pose proof (Hgr2 ph a Hin Hpt Ha) as Hgr.
    rewrite Forall_forall in Hok. by eapply segment_grants_grow; [..|apply (Hok ph)].
  - destruct (only_regions_fields _ _ Hrs) as (-> & -> & _). done.
  - intros x Hx. destruct (Hf1 x Hx) as [Hx1 E1]. destruct (gt_foreign _ _ _ Hg2 x Hx1) as [Hx2 E2].
    destruct (gt_foreign _ _ _ Hg3 x Hx2) as [Hx3 E4]. split; [done|congruence].
Qed.

Lemma spawn_image_ok (s : Kernel) path argv f fs h phs : spawnable s path argv f fs h phs →
  match spawn_image vfs_open path argv s with
  | (Ok (entry_va, sp, m), s') => entry_va = e_entry h ∧ sp = initial_sp STACK_TOP argv ∧
      program_space (memory (k_sys s)) (memory (k_sys s')) m (content fs (inode f)) phs argv ∧
      (∃ k' fs', same_files fs fs' ∧ s' = set_sys (set_memory k' (k_sys s)) (set_fs fs' s)) ∧
      packs (memory (k_sys s)) (memory (k_sys s'))
  | (Panic, s') => full (fa (memory (k_sys s')))
  | _ => False
  end.
Proof.
  intros [Hkwf Hmeta Hop Hr Hd Hpe Hseg Hst Hargs Hfit]. unfold spawn_image.
  unfold bind at 1, kmem_op, sys_op, zoom. pose proof (mm_new_tspace _ Hkwf Hmeta) as Hnew.
  pose proof (mm_new_packs (memory (k_sys s))) as Hp1.
  destruct (mm_new (memory (k_sys s))) as [[m|e| |] k1]; [|done|exact Hnew|done]. destruct Hnew as (Heq & Ht1 & _ & Hnh1 & Hf1 & _ & Hfor1).
  set (s1 := set_sys _ s). cbn [snd] in Hp1.
  pose proof (load_executable_ok vfs_open path (mkLoad (k_fs s) (mkSpace m k1)) f fs h phs Ht1 ltac:(by rewrite Heq) Hop Hr Hd Hpe Hseg) as Hl.
  pose proof (load_executable_packs (N := N) vfs_open path (mkLoad (k_fs s) (mkSpace m k1))) as Hp2.
  unfold bind at 1. destruct (load_executable vfs_open path _) as [[entry|e| |] l2] eqn:Hle; [|done| |done].
  2: { by rewrite (with_mm_panic m _ s1 _ Hle). }
  rewrite (with_mm_ok m _ s1 _ _ Hle). destruct Hl as (-> & Hs2 & (rs & Hmm2) & (pages & Hld2 & Hk2) & Hg2 & Hgr2).
  cbn [snd l_sp l_fs km] in *.
  pose proof (stack_and_args (l_sp l2) pages phs argv (l_fs l2) Hld2 Hk2 Hst Hargs Hfit) as Hl3.
  unfold bind in Hl3. unfold bind at 1. set (s2 := set_sys _ (set_fs (l_fs l2) s1)).
  assert (El2 : mkLoad (k_fs s2) (mkSpace (mm (l_sp l2)) (memory (k_sys s2))) = mkLoad (l_fs l2) (l_sp l2))
    by (by destruct l2 as [? []]).
  pose proof (mm_op_packs (S := S) create_user_stack create_user_stack_packs (mkLoad (l_fs l2) (l_sp l2))) as Hp3.
  destruct (mm_op create_user_stack (mkLoad (l_fs l2) (l_sp l2))) as [[p|e| |] l3] eqn:Hus; rewrite <-El2 in Hus; [|done| |done].
  2: { by rewrite (with_mm_panic _ _ s2 _ Hus). }
  rewrite (with_mm_ok _ _ s2 _ _ Hus). unfold bind. set (s3 := set_sys _ (set_fs (l_fs l3) s2)).
  assert (El3 : mkLoad (k_fs s3) (mkSpace (mm (l_sp l3)) (memory (k_sys s3))) = l3) by (by destruct l3 as [? []]).
  pose proof (mm_op_packs (S := S) (create_initial_stack p argv) (create_initial_stack_packs p argv) l3) as Hp4.
  destruct (mm_op (create_initial_stack p argv) l3) as [[p'|e| |] l4] eqn:His; rewrite <-El3 in His; [|done| |done].
  2: { by rewrite (with_mm_panic _ _ s3 _ His). }
  rewrite (with_mm_ok _ _ s3 _ _ His). unfold ret. destruct Hl3 as (-> & Hfs4 & Hrs4 & Hg4 & Hst4).
  split; [done|]. split; [done|].
  split; [|split].
  - apply (program_space_intro _ (mkSpace m k1) (l_sp l2) (l_sp l4)); try done.
    + intros x Hx. split; [by apply Hfor1|]. apply Hf1. by intros ->.
    + by rewrite Hmm2.
  - exists (km (l_sp l4)), (l_fs l4). split; [|done]. by rewrite Hfs4.
  - etrans; [exact Hp1|]. etrans; [exact Hp2|]. etrans; [exact Hp3|exact Hp4].
Qed.

Lemma program_space_grows k k1 k2 m m' data phs argv : program_space k k1 m data phs argv →
  Forall (λ ph, p_type ph = PT_LOAD → segment_ok data ph) phs →
  grows_to (mkSpace m k1) (mkSpace m' k2) (view (mkSpace m k1)) → start_brk m' = start_brk m → brk m' = brk m →
  program_space k k2 m' data phs argv.
Proof.
  intros [Ht Hv Hseg Hst Hbrk Hoth] Hok Hg Hb1 Hb2. split; [apply Hg| | | |by rewrite Hb1, Hb2|].
  - intros a. by rewrite (gt_view _ _ _ Hg).
  - intros ph a Hin Hpt Ha. pose proof (Hseg ph a Hin Hpt Ha) as Hgr.
    rewrite Forall_forall in Hok. by eapply segment_grants_grow; [..|apply (Hok ph)].
  - intros a Ha. destruct (Hst a Ha) as [Hr Hw]. destruct (region_at (mkSpace m k1) a) as [r|] eqn:Hra.
    + destruct (gt_old _ _ _ Hg a r Hra) as (_ & HR & HW & _). auto.
    + unfold can_read in Hr. by rewrite Hra in Hr.
  - intros x Hx. destruct (Hoth x Hx) as [H1 E1]. destruct (gt_foreign _ _ _ Hg x H1) as [H2 E2]. split; [done|cbn [km] in *; congruence].
Qed.

(** The kernel stack, with the trap frame at its top, takes frames of its own. *)
Lemma trap_frame_placed (m : MemoryManager) k1 n tf : tspace (mkSpace m k1) → KernelMap.used k1 n → wide k1 →
  match create_kernel_stack (mkSpace m k1) with
  | (Ok pa, sp) =>
      let ptr := pa + KERNEL_DIRECT_MAPPING_BASE - TRAP_FRAME_SIZE in
      let k3 := set_mem (set_words ptr (tf_words tf) (mem (km sp))) (km sp) in
      phys_to_virt (E := Error) pa = Ok (pa + KERNEL_DIRECT_MAPPING_BASE) ∧
      sub_ov (E := Error) (pa + KERNEL_DIRECT_MAPPING_BASE) TRAP_FRAME_SIZE = Ok ptr ∧ kernel_ptr_new 8 ptr = Ok ptr ∧
      top (kernel_stack (mm sp)) = pa + KERNEL_DIRECT_MAPPING_BASE ∧
      words_at ptr 34 (mem k3) = tf_words tf ∧
      grows_to (mkSpace m k1) (mkSpace (mm sp) k3) (view (mkSpace m k1)) ∧
      start_brk (mm sp) = start_brk m ∧ brk (mm sp) = brk m
  | (Err e, sp) => e = Overflow ∧ full (fa (km sp))
  | (Panic, sp) => full (fa (km sp))
  | _ => False
  end.
Proof.
  intros Ht Hu Hw. pose proof (create_kernel_stack_in_order (mkSpace m k1) n Hu) as Hc.
  destruct (create_kernel_stack (mkSpace m k1)) as [[pa|e| |] sp]; [|done..].
  destruct Hc as (Hpa & Hmm & (Hu2 & Hs2 & Hc2 & _) & Hmem & Hmeta & Hlt & H0 & Hm16). cbn [km mm] in *. cbv zeta.
  set (ptr := pa + KERNEL_DIRECT_MAPPING_BASE - TRAP_FRAME_SIZE). set (k3 := set_mem _ (km sp)).
  assert (Hpa16 : pa = frame_addr (fa k1) (n + 16) + 4096) by (rewrite Hpa; unfold frame_addr; lia).
  assert (Hal : ptr mod 8 = 0 ∧ 0 < ptr)
    by (unfold ptr, KERNEL_DIRECT_MAPPING_BASE, TRAP_FRAME_SIZE; Z.div_mod_to_equations; lia).
  assert (Hwide : ∀ x, length (frame (mem (km sp)) x) = 512%nat) by (intros x; rewrite Hmem; apply Hw).
  split_and!.
  - unfold phys_to_virt, add_ov, checked_add. by rewrite (proj2 (Z.ltb_lt _ _)).
  - unfold sub_ov, checked_sub. rewrite (proj2 (Z.leb_le _ _)); [done|]. unfold ptr in Hal. lia.
  - unfold kernel_ptr_new. rewrite (proj2 (Z.eqb_neq _ _)) by lia. by rewrite (proj1 Hal).
  - by rewrite Hmm.
  - apply (words_at_set_words (tf_words tf)); [done|apply Hal].
  - assert (Hg : grows_to (mkSpace m k1) (mkSpace m k3) (view (mkSpace m k1))).
    { assert (Hall : ∀ x, held (fa k1) x → frame (mem k3) x = frame (mem k1) x).
      { intros x Hx. rewrite <-Hmem. destruct (set_words_spec (tf_words tf) ptr (mem (km sp)) Hwide (proj1 Hal)) as (_ & _ & Hf).
        apply Hf. intros q Hq Heq. apply (used_held _ _ _ Hu) in Hx as (j & Hj & ->).
        change (Z.of_nat (length (tf_words tf))) with 34 in Hq. unfold ptr, TRAP_FRAME_SIZE in Hq.
        assert (q - KERNEL_DIRECT_MAPPING_BASE - (q - KERNEL_DIRECT_MAPPING_BASE) mod 4096 = frame_addr (fa k1) (n + 16)) as Hq'
          by (Z.div_mod_to_equations; lia).
        rewrite Hq' in Heq. unfold frame_addr in Heq. lia. }
      apply (kept_grows (mkSpace m k1) k3 (ts_user _ Ht)); [by destruct Hu2 as ([] & _); split|exact Hmeta| | |done|exact Hall].
      - intros x. cbn [km]. change (fa k3) with (fa (km sp)). rewrite (used_held _ _ _ Hu), (used_held _ _ _ Hu2).
        unfold frame_addr. rewrite Hs2. intros (j & Hj & ->). exists j. split; [lia|done].
      - intros x Hx. by apply Hall, (owns_held (mkSpace m k1) x (ts_user _ Ht)). }
    destruct (same_fields (mkSpace m k3) (mkSpace (mm sp) k3)) as (_ & Hg2 & _); [done|by rewrite Hmm..|].
    eapply grows_to_trans; [exact Hg|]. eapply grows_to_ext; [apply Hg2, Hg|]. apply Hg.
  - by rewrite Hmm.
  - by rewrite Hmm.
Qed.

(** The last steps: the registers, the pid, the descriptors, and the scheduler. *)
Lemma spawn_tail (s : Kernel) ptr ws parent sp kst ctx m : cores (k_sys s) ≠ [] →
  let pid := k_pids s in
  let n := length (k_files s) in
  let files := [Some n; Some (n + 1)%nat; Some (n + 2)%nat] in
  ∃ c k sys', 
    (on_mem (set_words ptr ws) ;;;
     let! pid := next_pid in
     let! files := new_file_table console in
     add_thread pid (mkThread sp kst ptr ctx) ;;;
     sys_op (publish parent pid (new_task parent files m)) ;;;
     ret pid) s =
      (Ok pid, mkKernel sys' (k_fs s) (k_files s ++ [mkFile console 0; mkFile console 0; mkFile console 0])
        (<[pid := mkThread sp kst ptr ctx]> (k_threads s)) ((pid + 1) mod 2 ^ 64) (k_heap s)) ∧
    cores (k_sys s) !! c = Some k ∧
    tasks sys' = <[pid := set_t_core (Some c) (new_task parent files m)]>
      (match parent with Some p => alter (λ t, set_t_children (t_children t ++ [pid]) t) p (tasks (k_sys s)) | None => tasks (k_sys s) end) ∧
    pool sys' = {[pid]} ∪ pool (k_sys s) ∧ cores sys' = alter (set_runqueue (runqueue k ++ [pid])) c (cores (k_sys s)) ∧
    memory sys' = set_mem (set_words ptr ws (mem (memory (k_sys s)))) (memory (k_sys s)).
Proof.
  intros Hc pid n files. set (k3 := set_mem _ (memory (k_sys s))).
  destruct (publish_ok parent pid (new_task parent files m) (set_memory k3 (k_sys s)) Hc) as (c & k & sys' & Hp & Hk & Ht & Hpo & Hco & Hm).
  exists c, k, sys'. split; [|done]. unfold bind at 1, on_mem, kmem_op, sys_op at 1, zoom, modify. fold k3.
  unfold bind at 1, next_pid. cbn [k_pids set_sys]. unfold bind at 1, new_file_table. unfold bind at 1, gets.
  unfold file_table_init, file_ref_new. unfold bind at 1, modify, ret at 1. unfold bind at 1, add_thread, modify.
  cbn [k_files k_sys k_fs k_threads k_pids set_sys set_pids set_files set_threads]. rewrite !length_app. cbn [length].
  rewrite <-!app_assoc. cbn [app]. replace (length (k_files s) + 1 + 1)%nat with (n + 2)%nat by lia. fold n pid.
  unfold bind, sys_op, zoom. cbn [k_files k_sys k_fs k_threads k_pids set_sys set_pids set_files set_threads].
  fold files. rewrite Hp. done.
Qed.

(** What [spawn] leaves in the kernel: the task, its thread and its place in a
    run queue. *)
Record spawned (s s' : Kernel) (pid : Z) (parent : option Z) (data : list Z) (h : FileHeader ElfClass)
    (phs : list ProgramHeader) (argv : list (list Z)) (m : MemoryManager) (th : Thread) (c : nat) : Prop := {
  sw_space : program_space (memory (k_sys s)) (memory (k_sys s')) m data phs argv;
  sw_task : ∃ files, tasks (k_sys s') !! pid = Some (set_t_core (Some c) (new_task parent files m)) ∧
    Forall (λ r, ∃ i, r = Some i ∧ k_files s' !! i = Some (mkFile console 0)) files ∧ length files = 3%nat;
  sw_thread : k_threads s' !! pid = Some th;
  sw_registers : words_at (trap_frame th) 34 (mem (memory (k_sys s'))) =
    tf_words (tf_initialize (e_entry h) (initial_sp STACK_TOP argv) 0xcafebabe);
  sw_stack : kernel_sp th = top (kernel_stack m) ∧ trap_frame th = kernel_sp th - TRAP_FRAME_SIZE ∧
    context th = context_initialize trap_resume_ptr (trap_frame th);
  sw_queue : ∃ k, cores (k_sys s) !! c = Some k ∧
    cores (k_sys s') = alter (set_runqueue (runqueue k ++ [pid])) c (cores (k_sys s));
  sw_pool : pool (k_sys s') = {[pid]} ∪ pool (k_sys s);
  sw_parent p t : parent = Some p → p ≠ pid → tasks (k_sys s) !! p = Some t →
    tasks (k_sys s') !! p = Some (set_t_children (t_children t ++ [pid]) t);
  sw_others q : q ≠ pid → parent ≠ Some q → tasks (k_sys s') !! q = tasks (k_sys s) !! q ∧ k_threads s' !! q = k_threads s !! q;
}.

(** [spawn].  For an executable whose segments and arguments fit, the new
    task's memory is exactly the image of the file, a zeroed stack, and above it
    the arguments with [argc] and [argv] where the stack pointer points; the
    trap frame at the top of its kernel stack has the program's entry point and
    this stack pointer, in user mode.  Its descriptors are the console.  It is
    ready on the queue of a core, its parent knows it, and no other task, nor a
    frame of one, is touched.  This is for a system in which no frame has been
    freed: then the frames of the kernel stack are contiguous, as the code
    assumes.  It fails only when all frames are in use. *)
Theorem spawn_spec (s : Kernel) path argv parent f fs h phs n : spawnable s path argv f fs h phs →
  KernelMap.used (memory (k_sys s)) n → wide (memory (k_sys s)) → cores (k_sys s) ≠ [] →
  match spawn vfs_open console trap_resume_ptr path argv parent s with
  | (Ok pid, s') => pid = k_pids s ∧ same_files fs (k_fs s') ∧
      ∃ m th c, spawned s s' pid parent (content fs (inode f)) h phs argv m th c
  | (Err e, s') => e = Overflow ∧ full (fa (memory (k_sys s')))
  | (Panic, s') => full (fa (memory (k_sys s')))
  | (Diverge, _) => False
  end.
Proof.
  intros Hsp Hu Hw Hcores. unfold spawn. unfold bind at 1. pose proof (spawn_image_ok s path argv f fs h phs Hsp) as Hi.
  destruct (spawn_image vfs_open path argv s) as [[[[entry sp] m]|e| |] s1]; [|done..].
  destruct Hi as (-> & -> & Hps & (k1 & fs1 & Hfs & ->) & Hpk & Hwide). cbn [k_sys memory set_sys set_memory] in *.
  destruct (Hpk n Hu) as [n1 (Hu1 & _)]. specialize (Hwide Hw).
  set (tf := tf_initialize (e_entry h) (initial_sp STACK_TOP argv) 0xcafebabe).
  pose proof (trap_frame_placed m k1 n1 tf (ps_space _ _ _ _ _ _ Hps) Hu1 Hwide) as Ht.
  unfold bind at 1, with_mm, mm_op at 1, zoom at 1. cbn [l_sp l_fs k_fs k_sys memory set_sys set_memory set_fs].
  destruct (create_kernel_stack (mkSpace m k1)) as [[pa|e| |] sp2]; [|done..]. cbv zeta in Ht.
  destruct Ht as (Hpv & Hsub & Hkp & Htop & Hwords & Hg & Hb1 & Hb2). cbn [obind l_sp l_fs].
  set (kst := pa + KERNEL_DIRECT_MAPPING_BASE) in *. set (ptr := kst - TRAP_FRAME_SIZE) in *.
  unfold bind at 1, lift at 1. rewrite Hpv. unfold bind at 1, lift at 1. rewrite Hsub. unfold bind at 1, lift at 1. rewrite Hkp.
  set (s2 := set_sys _ _). destruct (spawn_tail s2 ptr (tf_words tf) parent (initial_sp STACK_TOP argv) kst
    (context_initialize trap_resume_ptr ptr) (mm sp2) Hcores) as (c & k & sys' & Htail & Hk & Hts & Hpo & Hco & Hmem).
  rewrite Htail. clear Htail. cbn [k_sys k_fs k_files k_threads k_pids s2 set_sys set_fs set_memory memory] in *.
  split; [done|]. split; [exact Hfs|].
  exists (mm sp2), (mkThread (initial_sp STACK_TOP argv) kst ptr (context_initialize trap_resume_ptr ptr)), c.
  split; cbn [k_sys k_fs k_files k_threads k_pids trap_frame kernel_sp context]; rewrite ?Hmem.
  - by eapply program_space_grows; [exact Hps|apply Hsp|exact Hg|..].
  - eexists. rewrite Hts, lookup_insert_eq. split; [done|]. split; [|done].
    repeat constructor; (eexists; split; [done|]); rewrite lookup_app_r by lia;
      [replace (_ - _)%nat with 0%nat by lia|replace (_ - _)%nat with 1%nat by lia|replace (_ - _)%nat with 2%nat by lia]; done.
  - by rewrite lookup_insert_eq.
  - exact Hwords.
  - by rewrite Htop.
  - by exists k.
  - done.
  - intros p t -> Hne Hp. rewrite Hts, lookup_insert_ne, lookup_alter_eq by congruence. cbn [tasks set_memory]. by rewrite Hp.
  - intros q Hq Hpar. rewrite Hts, !lookup_insert_ne by congruence. split; [|done].
    destruct parent as [p|]; [|done]. apply lookup_alter_ne. congruence.
Qed.

(** A file that is not an executable is refused with the error of the
    parser, and no task, thread or pid is made.  But the root table of the
    address space that was prepared for it stays allocated: nothing frees it, so
    every such call leaves one frame less. *)
Theorem failed_spawn_keeps_a_frame (s : Kernel) path argv parent f fs e :
  kwf (memory (k_sys s)) → meta_ok (memory (k_sys s)) → ¬ full (fa (memory (k_sys s))) →
  vfs_open path (k_fs s) = (Ok f, fs) → regular fs (inode f) → parse_elf (content fs (inode f)) = Err e →
  ∃ k' fs' root, spawn vfs_open console trap_resume_ptr path argv parent s =
      (Err e, set_sys (set_memory k' (k_sys s)) (set_fs fs' s)) ∧ same_files fs fs' ∧
    ¬ held (fa (memory (k_sys s))) root ∧ ∀ x, held (fa k') x ↔ x = root ∨ held (fa (memory (k_sys s))) x.
Proof.
  intros Hk Hm Hnf Hop Hr Hpe. unfold spawn, spawn_image. unfold bind at 1 2, kmem_op, sys_op, zoom.
  pose proof (mm_new_tspace _ Hk Hm) as Hnew. pose proof (mm_new_not_full _ Hk Hnf) as Hok.
  destruct (mm_new (memory (k_sys s))) as [[m|e'| |] k1]; [|done..]. destruct Hnew as (_ & _ & Hh & Hnh & _).
  destruct (load_from_file_spec vfs_open path (mkLoad (k_fs s) (mkSpace m k1)) f fs Hop Hr) as (fs2 & o & Hs2 & Hlf).
  rewrite Hpe in Hlf. cbn [obind l_sp] in Hlf. exists k1, fs2, (root_pt m). split; [|done].
  unfold bind at 1, with_mm, load_executable, bind. cbn [k_fs k_sys memory set_sys set_memory]. by rewrite Hlf.
Qed.
End spawn.

(** ** The example program *)

Definition example_sys : Sys :=
  mkSys {[ 0 := new_task None [] EMPTY ]} {[ 0 ]} [setup_core 0 0] 0 ∅ ∅ 0 example_kmem.
Definition example_kernel : Kernel (S := list Z) (N := unit) := mkKernel example_sys example_elf [] ∅ 1 example_heap.

Lemma example_used : KernelMap.used example_kmem 0.
Proof.
  split; [apply example_kmem_ok|]. split; [by vm_compute|]. intros j Hj. unfold in_use. cbn [pages fa example_kmem FrameAllocator.new].
  change (capacity (fa example_kmem)) with 4096 in Hj. rewrite lookup_total_replicate_2 by (Z.div_mod_to_equations; lia).
  rewrite Z.testbit_0_l. symmetry. apply Z.ltb_ge. lia.
Qed.

Lemma example_spawnable : spawnable open_only example_kernel [] [[72; 105]] (mkFile tt 0) example_elf
  (mkFileHeader tt 2 0x10f00 64 56 1) [example_phdr].
Proof.
  split; try done; try apply example_kmem_ok.
  - by vm_compute; repeat constructor.
  - apply Forall_singleton. intros _. split; vm_compute; by repeat split.
  - intros va Hva (ph & ->%list_elem_of_singleton & _ & Hr). change (page_up _) with 0x12000 in Hr.
    unfold STACK_BOTTOM in Hva. lia.
  - by repeat constructor.
Qed.

(** The program finds its argument's string through [argv]. *)
Lemma spawn_spec_witness : ∃ s' m th c, spawn open_only tt 0x80200100 [] [[72; 105]] (Some 0) example_kernel = (Ok 1, s') ∧
  spawned tt 0x80200100 example_kernel s' 1 (Some 0) example_elf (mkFileHeader tt 2 0x10f00 64 56 1) [example_phdr] [[72; 105]] m th c ∧
  view (mkSpace m (memory (k_sys s'))) 0x3fff8f9e = Some 105.
Proof.
  pose proof (spawn_spec open_only tt 0x80200100 example_kernel [] [[72; 105]] (Some 0) (mkFile tt 0) example_elf
    (mkFileHeader tt 2 0x10f00 64 56 1) [example_phdr] 0 example_spawnable example_used ltac:(done) ltac:(done)) as H.
  assert (Ho : (spawn open_only tt 0x80200100 [] [[72; 105]] (Some 0) example_kernel).1 = Ok 1) by (vm_compute; reflexivity).
  destruct (spawn open_only tt 0x80200100 [] [[72; 105]] (Some 0) example_kernel) as [o s']. cbn [fst] in Ho. subst o.
  destruct H as (_ & _ & m & th & c & Hs). exists s', m, th, c. split; [done|]. split; [exact Hs|].
  rewrite (ps_view _ _ _ _ _ _ (sw_space _ _ _ _ _ _ _ _ _ _ _ _ _ Hs)). vm_compute. reflexivity.
Defined.

Lemma failed_spawn_keeps_a_frame_witness : ∃ k' fs' root,
  spawn open_only tt 0 [] [] None (mkKernel example_sys [1; 2; 3] [] ∅ 1 example_heap) =
    (Err (error_of_vfs Fs), set_sys (set_memory k' example_sys) (set_fs fs' (mkKernel example_sys [1; 2; 3] [] ∅ 1 example_heap))) ∧
  held (fa k') root ∧ ¬ held (fa example_kmem) root.
Proof.
  destruct (failed_spawn_keeps_a_frame open_only tt 0 (mkKernel example_sys [1; 2; 3] [] ∅ 1 example_heap) [] [] None (mkFile tt 0) [1; 2; 3]
    (error_of_vfs Fs) (proj1 example_kmem_ok) (proj2 example_kmem_ok)) as (k' & fs' & root & Ho & _ & Hn & Hh);
    [|done|done|done|].
  - intros Hf. specialize (Hf 0 ltac:(by vm_compute)). by vm_compute in Hf.
  - exists k', fs', root. split; [exact Ho|]. split; [apply Hh; by left|exact Hn].
Defined.
