(* ===== verification/TaskFork.v ===== *)
(** * A forked task

    What [fork] of [kernel/src/task/task.rs] leaves: a child with the memory,
    the descriptors and the registers of its parent. *)

From S2P Require Import Prelude Errors Kmalloc Vfs Addr Sv39 FrameAllocator PageMeta PageTable PageMap PageFork MemMgr MemFault UserMem UserView ForkView KernelMap TaskSpace Elf ElfLoad InitStack InOrder Registers FileTable TaskPool Sched TaskNew.

(** ** A write to a frame of neither *)

(** [k'] is [k] but for the frame [x]. *)
Definition differs_at (k k' : Kmem) (x : Z) : Prop :=
  fa k' = fa k ∧ meta k' = meta k ∧ ∀ y, y ≠ x → frame (mem k') y = frame (mem k) y.

Lemma fork_side_write s m k k' x : fork_side s m k → differs_at k k' x → ¬ held (fa (km s)) x →
  x ∉ tables 3 (mem k) (root_pt m) → fork_side s m k' ∧ tables 3 (mem k') (root_pt m) = tables 3 (mem k) (root_pt m).
Proof.
  intros [Hrs Has Hme Hh Hf Ht Hw] (Hfa & Hmeta & Hd) Hx Hxt. pose proof Has as (Hk & [Hs _] & Hown).
  destruct (aspace_keep k k' (root_pt m) Has) as (Has' & Htab & _).
  - destruct Hk. by split; rewrite Hfa.
  - intros y Hy. rewrite Hfa. split; [|by apply Hown]. apply Hd. by intros ->.
  - split; [|done]. split; [done|done|congruence|by rewrite Hfa| |by rewrite Htab|].
    + intros y Hy Hn. rewrite Hd; [by apply Hf|by intros ->].
    + intros va Hva. rewrite <-Hw by done. apply (walk_frame 3); [done|apply path_range|done|].
      intros y Hy. apply Hd. by intros ->.
Qed.

Section fork.
Context {S N : Type} `{BF : Bitflags} `{HBF : !BitflagsOk BF} {MU : Mmu} {HMU : MmuOk MU}.
Context (trap_resume_ptr : Z).

Abbreviation Kernel := (Kernel (S := S) (N := N)).

(** Saved registers at [tf], in frames that are no tables of the task. *)
Record registers_placed (s : Space) (tf : Z) : Prop := {
  rp_aligned : tf mod 8 = 0;
  rp_held q : tf ≤ q < tf + TRAP_FRAME_SIZE → held (fa (km s)) (kernel_page q);
  rp_no_table q : tf ≤ q < tf + TRAP_FRAME_SIZE → kernel_page q ∉ tables 3 (mem (km s)) (root_pt (mm s));
}.

(** The task [me] runs on a core, and its trap frame is in memory of its own. *)
Record forks (s : Kernel) (me : Z) (t : Task) (th : Thread) : Prop := {
  fr_task : tasks (k_sys s) !! me = Some t;
  fr_core : ∃ c k, t_core t = Some c ∧ cores (k_sys s) !! c = Some k ∧ current k = me;
  fr_thread : k_threads s !! me = Some th;
  fr_space : uspace (mkSpace (t_mm t) (memory (k_sys s)));
  fr_forkable : forkable (mkSpace (t_mm t) (memory (k_sys s)));
  fr_frame : registers_placed (mkSpace (t_mm t) (memory (k_sys s))) (trap_frame th);
  fr_used : ∃ n, KernelMap.used (memory (k_sys s)) n;
  fr_wide : wide (memory (k_sys s));
  fr_fresh : tasks (k_sys s) !! k_pids s = None;
  fr_cores : cores (k_sys s) ≠ [];
}.

(** What the child and its parent are afterwards. *)
Record forked_task (s s' : Kernel) (me pid : Z) (t : Task) (th : Thread) (m : MemoryManager) (th' : Thread) (c : nat) : Prop := {
  ft_task : tasks (k_sys s') !! pid = Some (set_t_core (Some c) (new_task (Some me) (t_files t) m)) ∧
    tasks (k_sys s') !! me = Some (set_t_children (t_children t ++ [pid]) t);
  ft_thread : k_threads s' !! pid = Some th' ∧ user_sp th' = user_sp th ∧ kernel_sp th' = top (kernel_stack m) ∧
    context th' = context_initialize trap_resume_ptr (trap_frame th');
  ft_registers : words_at (trap_frame th') 34 (mem (memory (k_sys s'))) =
    <[9%nat := 0]> (words_at (trap_frame th) 34 (mem (memory (k_sys s))));
  ft_parent_registers : words_at (trap_frame th) 34 (mem (memory (k_sys s'))) = words_at (trap_frame th) 34 (mem (memory (k_sys s)));
  ft_brk : start_brk m = start_brk (t_mm t) ∧ brk m = brk (t_mm t) ∧ regions m = regions (t_mm t);
  ft_memory vp vc k : rtc (pair_step (t_mm t) m)
      (memory (k_sys s'), view (mkSpace (t_mm t) (memory (k_sys s))), view (mkSpace (t_mm t) (memory (k_sys s)))) (k, vp, vc) →
    ∀ a, view (mkSpace (t_mm t) k) a = vp a ∧ view (mkSpace m k) a = vc a;
  ft_queue : ∃ k, cores (k_sys s) !! c = Some k ∧
    cores (k_sys s') = alter (set_runqueue (runqueue k ++ [pid])) c (cores (k_sys s));
  ft_others q : q ≠ pid → q ≠ me → tasks (k_sys s') !! q = tasks (k_sys s) !! q;
}.

Lemma forkable_kept (s : Space) k : forkable s → meta k = meta (km s) →
  (∀ x, x ∈ tables 3 (mem (km s)) (root_pt (mm s)) → frame (mem k) x = frame (mem (km s)) x) →
  (∀ x, held (fa (km s)) x → held (fa k) x) → forkable (mkSpace (mm s) k).
Proof.
  intros (H1 & H2 & H3) Hme Hf Hh. unfold forkable. cbn [mm km].
  rewrite (user_pages_frame 3 _ _ _ Hf), Hme. split; [|by auto]. unfold rx_tables. rewrite (tables_frame 3 _ _ _ Hf).
  intros x Hx. rewrite Hf by done. by apply H1.
Qed.

(** ** The memory of a fork *)

(** The registers of the parent, copied to the child with 0 for [a0]. *)
Definition child_registers (tf ptr : Z) (k : Kmem) : Kmem :=
  set_mem (set_word (ptr + 8 * A0) 0 (set_words ptr (words_at tf 34 (mem k)) (mem k))) k.

Lemma child_registers_spec tf ptr x k : wide k → ptr mod 8 = 0 → 0 ≤ x → x mod 4096 = 0 →
  ptr = x + 4096 + KERNEL_DIRECT_MAPPING_BASE - TRAP_FRAME_SIZE →
  differs_at k (child_registers tf ptr k) x ∧
  words_at ptr 34 (mem (child_registers tf ptr k)) = <[9%nat := 0]> (words_at tf 34 (mem k)).
Proof.
  intros Hw Hp Hx0 Hx ->. set (ptr := x + _ + _ - _) in *.
  assert (Hpage : ∀ q, ptr ≤ q < ptr + TRAP_FRAME_SIZE → kernel_page q = x).
  { intros q Hq. unfold kernel_page, ptr, KERNEL_DIRECT_MAPPING_BASE, TRAP_FRAME_SIZE in *. Z.div_mod_to_equations; lia. }
  destruct (set_words_spec (words_at tf 34 (mem k)) ptr (mem k) Hw Hp) as (_ & Hw2 & Hfr). split.
  - split_and!; [done..|]. intros y Hy. unfold child_registers. cbn [mem set_mem].
    destruct (set_word_frame (ptr + 8 * A0) 0 (set_words ptr (words_at tf 34 (mem k)) (mem k)) y Hw2) as [_ ->].
    + apply Hfr. intros q Hq. fold (kernel_page q). rewrite words_at_length in Hq. rewrite Hpage; [done|].
      change TRAP_FRAME_SIZE with 272. lia.
    + fold (kernel_page (ptr + 8 * A0)). rewrite Hpage; [done|]. unfold A0, TRAP_FRAME_SIZE. lia.
  - unfold child_registers. cbn [mem set_mem]. change A0 with (Z.of_nat 9). rewrite words_at_insert by (done || lia).
    f_equal. rewrite <-(words_at_length tf 34 (mem k)) at 1. by apply words_at_set_words.
Qed.

Lemma child_registers_wide tf ptr k : wide k → ptr mod 8 = 0 → wide (child_registers tf ptr k).
Proof.
  intros Hw Hp. destruct (set_words_spec (words_at tf 34 (mem k)) ptr (mem k) Hw Hp) as (_ & Hw2 & _).
  unfold wide, child_registers. cbn [mem set_mem]. by apply (set_word_frame _ _ _ 0).
Qed.

(** The frames of the child's registers are new and neither's own, and the two
    got no other frame of the old memory. *)
Record fork_frames (s : Space) (m : MemoryManager) (k : Kmem) (ptr : Z) : Prop := {
  ff_held y : held (fa (km s)) y → held (fa k) y;
  ff_kept y : held (fa (km s)) y → y ∉ tables 3 (mem (km s)) (root_pt (mm s)) → frame (mem k) y = frame (mem (km s)) y;
  ff_owns y m' : m' = mm s ∨ m' = m → held (fa (km s)) y → owns (mkSpace m' k) y → owns s y;
  ff_child q : ptr ≤ q < ptr + TRAP_FRAME_SIZE → held (fa k) (kernel_page q) ∧ ¬ held (fa (km s)) (kernel_page q) ∧
    length (frame (mem k) (kernel_page q)) = 512%nat ∧ ∀ m', m' = mm s ∨ m' = m → ¬ owns (mkSpace m' k) (kernel_page q);
  ff_aligned : ptr mod 8 = 0;
  ff_pair : pair_ok (mm s) m k;
}.

Lemma fork_frames_intro s m k x ptr tf : let k' := child_registers tf ptr k in uspace s → forkable s →
  fork_side s (mm s) k' → fork_side s m k' → differs_at k k' x → (∀ y, held (fa (km s)) y → y ∉ tables 3 (mem (km s)) (root_pt (mm s)) → frame (mem k) y = frame (mem (km s)) y) →
  x ∉ tables 3 (mem k') (root_pt (mm s)) → x ∉ tables 3 (mem k') (root_pt m) → held (fa k) x → ¬ held (fa (km s)) x →
  ptr mod 8 = 0 → ptr = x + 4096 + KERNEL_DIRECT_MAPPING_BASE - TRAP_FRAME_SIZE → 0 ≤ x → x mod 4096 = 0 → wide k' →
  pair_ok (mm s) m k' → fork_frames s m k' ptr.
Proof.
  intros k' Hu Hfk Hp Hc (Hfa & Hme & Hd) Hfr Hxp Hxc Hxh Hxn Hp8 -> Hx0 Hxm Hw Hpair.
  split; [apply Hp| | | |done|done].
  - intros y Hy Ht. rewrite Hd by (by intros ->). by apply Hfr.
  - intros y m' [-> | ->] Hy Ho; [exact (forked_owned s Hu Hfk _ _ Hp y Ho Hy)|exact (forked_owned s Hu Hfk _ _ Hc y Ho Hy)].
  - intros q Hq. assert (kernel_page q = x) as ->.
    { unfold kernel_page, KERNEL_DIRECT_MAPPING_BASE, TRAP_FRAME_SIZE in *. Z.div_mod_to_equations; lia. }
    split; [by rewrite Hfa|]. split; [done|]. split; [apply Hw|].
    intros m' [-> | ->] Ho.
    + destruct (forked_owns s Hu Hfk _ _ Hp x Ho) as [Hx|(Hx & _)]; [exact (Hxp Hx)|exact (Hxn Hx)].
    + destruct (forked_owns s Hu Hfk _ _ Hc x Ho) as [Hx|(Hx & _)]; [exact (Hxc Hx)|exact (Hxn Hx)].
Qed.

Lemma fork_memory (s : Space) n tf : uspace s → forkable s → KernelMap.used (km s) n → wide (km s) → registers_placed s tf →
  match mm_fork (mm s) (km s) with
  | (Ok m', k1) =>
      let ptr := top (kernel_stack m') - TRAP_FRAME_SIZE in
      let k3 := child_registers tf ptr k1 in
      sub_ov (E := Error) (top (kernel_stack m')) TRAP_FRAME_SIZE = Ok ptr ∧ kernel_ptr_new 8 ptr = Ok ptr ∧
      words_at ptr 34 (mem k3) = <[9%nat := 0]> (words_at tf 34 (mem (km s))) ∧
      words_at tf 34 (mem k3) = words_at tf 34 (mem (km s)) ∧
      start_brk m' = start_brk (mm s) ∧ brk m' = brk (mm s) ∧ regions m' = regions (mm s) ∧
      pair_views (mm s) m' (k3, view s, view s) ∧ fork_frames s m' k3 ptr
  | (Err e, k1) => e = Overflow ∧ full (fa k1)
  | (Panic, k1) => full (fa k1)
  | (Diverge, _) => False
  end.
Proof.
  intros Hu Hfk Hn Hw [Hal Hheld Hnt]. pose proof (mm_fork_sides s Hu Hfk) as Hf. pose proof (mm_fork_in_order s n Hu Hfk Hn Hw) as Ho.
  destruct (mm_fork (mm s) (km s)) as [[m'|e| |] k1]; [|done..]. destruct Hf as (Hsb & Hb & Hp & Hc & Hpt & Hct).
  destruct Ho as (x & Htop & Hx0 & Hxm & Htl & Hxh & Hxn & Hxp & Hxc & Hwk). cbv zeta.
  set (ptr := top (kernel_stack m') - TRAP_FRAME_SIZE).
  assert (Hptr : ptr mod 8 = 0 ∧ 0 < ptr ∧ ptr = x + 4096 + KERNEL_DIRECT_MAPPING_BASE - TRAP_FRAME_SIZE).
  { unfold ptr. rewrite Htop. unfold KERNEL_DIRECT_MAPPING_BASE, TRAP_FRAME_SIZE. Z.div_mod_to_equations; lia. }
  destruct Hptr as (Hp8 & Hp0 & Hpx). destruct (child_registers_spec tf ptr x k1 Hwk Hp8 Hx0 Hxm Hpx) as [Hd Hwords].
  destruct (fork_side_write s (mm s) k1 _ x Hp Hd Hxn Hxp) as [Hp3 Htp], (fork_side_write s m' k1 _ x Hc Hd Hxn Hxc) as [Hc3 Htc].
  assert (Hregs : words_at tf 34 (mem k1) = words_at tf 34 (mem (km s))).
  { apply words_at_ext. intros i Hi. assert (Hq : tf ≤ tf + 8 * i < tf + TRAP_FRAME_SIZE) by (unfold TRAP_FRAME_SIZE; lia).
    apply word_at_frame, (fs_frames _ _ _ Hp); auto. }
  assert (Hpair : pair_ok (mm s) m' (child_registers tf ptr k1))
    by (eapply fork_pair; try done; [by rewrite Htp|by rewrite Htc]).
  split_and!; [|unfold kernel_ptr_new; by rewrite (proj2 (Z.eqb_neq _ _)), (proj2 (Z.eqb_eq _ _)) by lia|by rewrite Hwords, Hregs| |done|done|apply Hc| |].
  - unfold sub_ov, checked_sub. rewrite (proj2 (Z.leb_le _ _)); [done|]. unfold ptr in Hp0. lia.
  - rewrite <-Hregs. apply words_at_ext. intros i Hi.
    assert (Hq : tf ≤ tf + 8 * i < tf + TRAP_FRAME_SIZE) by (unfold TRAP_FRAME_SIZE; lia).
    apply word_at_frame, Hd. intros E. apply Hxn. rewrite <-E. auto.
  - split_and!; [done|intros a; by eapply forked_view..].
  - apply (fork_frames_intro s m' k1 x ptr tf); try done; [apply Hp|by rewrite Htp|by rewrite Htc|].
    apply child_registers_wide; done.
Qed.

(** ** The task *)

Lemma on_mem_then {A} f (m : M Kernel Error A) (s : Kernel) :
  (on_mem f ;;; m) s = m (set_sys (set_memory (set_mem (f (mem (memory (k_sys s)))) (memory (k_sys s))) (k_sys s)) s).
Proof. done. Qed.

(** From the new memory manager on. *)
Lemma fork_tail (s : Kernel) (me : Z) (t : Task) (th : Thread) m : cores (k_sys s) ≠ [] →
  let pid := k_pids s in
  let ptr := top (kernel_stack m) - TRAP_FRAME_SIZE in
  let th' := mkThread (user_sp th) (top (kernel_stack m)) ptr (context_initialize trap_resume_ptr ptr) in
  ∃ c k sys',
    (let! before := gets (λ s : Kernel, mem (memory (k_sys s))) in
     on_mem (set_words ptr (words_at (trap_frame th) 34 before)) ;;;
     on_mem (set_word (ptr + 8 * A0) 0) ;;;
     let! pid := next_pid in
     add_thread pid th' ;;;
     sys_op (publish (Some me) pid (new_task (Some me) (t_files t) m)) ;;;
     ret pid) s = (Ok pid, mkKernel sys' (k_fs s) (k_files s) (<[pid := th']> (k_threads s)) ((pid + 1) mod 2 ^ 64) (k_heap s)) ∧
    cores (k_sys s) !! c = Some k ∧
    tasks sys' = <[pid := set_t_core (Some c) (new_task (Some me) (t_files t) m)]>
      (alter (λ t, set_t_children (t_children t ++ [pid]) t) me (tasks (k_sys s))) ∧
    cores sys' = alter (set_runqueue (runqueue k ++ [pid])) c (cores (k_sys s)) ∧
    memory sys' = child_registers (trap_frame th) ptr (memory (k_sys s)).
Proof.
  intros Hc pid ptr th'. set (k3 := child_registers _ _ _).
  destruct (publish_ok (Some me) pid (new_task (Some me) (t_files t) m) (set_memory k3 (k_sys s)) Hc)
    as (c & k & sys' & Hp & Hk & Ht & _ & Hco & Hm).
  exists c, k, sys'. split; [|done]. unfold bind at 1, gets. rewrite !on_mem_then.
  set (s1 := set_sys _ (set_sys _ s)). assert (E : s1 = set_sys (set_memory k3 (k_sys s)) s) by done. clearbody s1. subst s1.
  clearbody k3 th'. unfold bind at 1, next_pid. cbn [k_pids set_sys]. fold pid. unfold bind at 1, add_thread, modify.
  unfold bind, sys_op, zoom. cbn [k_files k_sys k_fs k_threads k_pids set_sys set_pids set_files set_threads].
  by rewrite Hp.
Qed.

Lemma task_fork_ok (s : Kernel) me t th : forks s me t th →
  match task_fork trap_resume_ptr me s with
  | (Ok pid, s') => pid = k_pids s ∧ ∃ m th' c, forked_task s s' me pid t th m th' c ∧
      fork_frames (mkSpace (t_mm t) (memory (k_sys s))) m (memory (k_sys s')) (trap_frame th')
  | (Err e, s') => e = Overflow ∧ ∃ k', s' = set_sys (set_memory k' (k_sys s)) s ∧ full (fa k')
  | (Panic, s') => full (fa (memory (k_sys s')))
  | (Diverge, _) => False
  end.
Proof.
  intros [Ht (c0 & k0 & Hc0 & Hk0 & Hcur) Hth Hu Hfk Hreg [n Hn] Hw Hfresh Hcores].
  unfold task_fork, load_core_ctx, core_of, task_of. unfold bind at 1, sys_op at 1, zoom, bind at 1. rewrite Ht.
  cbn [unwrap]. unfold lift at 1. rewrite Hc0. cbn [unwrap]. replace (set_sys (k_sys s) s) with s by (by destruct s).
  unfold bind at 1, sys_op at 1, zoom. rewrite Hk0. cbn [unwrap]. replace (set_sys (k_sys s) s) with s by (by destruct s).
  rewrite Hcur. unfold bind at 1, sys_op at 1, zoom. rewrite Ht. cbn [unwrap].
  replace (set_sys (k_sys s) s) with s by (by destruct s). unfold bind at 1. rewrite Hth. cbn [unwrap].
  unfold bind at 1, kmem_op at 1, sys_op at 1, zoom.
  pose proof (fork_memory (mkSpace (t_mm t) (memory (k_sys s))) n (trap_frame th) Hu Hfk Hn Hw Hreg) as Hf. cbn [mm km] in Hf.
  destruct (mm_fork (t_mm t) (memory (k_sys s))) as [[m|e| |] k1]; [|by destruct Hf as [-> Hf]; split; [|eexists]|exact Hf..]. cbv zeta in Hf.
  destruct Hf as (Hsub & Hptr & Hwords & Hpar & Hsb & Hb & Hrs & Hviews & Hff). cbv zeta.
  unfold bind at 1, lift at 1. rewrite Hsub. unfold bind at 1, lift at 1. rewrite Hptr.
  set (s1 := set_sys _ s). destruct (fork_tail s1 me t th m Hcores) as (c & k & sys' & Htail & Hk & Hts & Hco & Hm).
  cbv zeta in Htail. rewrite Htail. split; [done|]. cbn [k_sys set_sys s1 k_pids memory set_memory tasks cores] in *.
  assert (k_pids s ≠ me) by congruence.
  set (ptr := top (kernel_stack m) - TRAP_FRAME_SIZE) in *.
  exists m, (mkThread (user_sp th) (top (kernel_stack m)) ptr (context_initialize trap_resume_ptr ptr)), c.
  split; [|cbn [k_sys trap_frame]; rewrite Hm; exact Hff]. split; cbn [k_sys k_threads trap_frame user_sp kernel_sp context]; rewrite ?Hm, ?Hts.
  - rewrite lookup_insert_eq, lookup_insert_ne, lookup_alter_eq by done. cbn [tasks set_memory]. by rewrite Ht.
  - by rewrite lookup_insert_eq.
  - done.
  - done.
  - done.
  - intros vp vc k' Hst. apply pair_steps_views in Hst as (_ & H1 & H2); [|exact Hviews]. by intros a.
  - by exists k.
  - intros q H1 H2. by rewrite lookup_insert_ne, lookup_alter_ne.
Qed.

(** C2: [fork] makes a task with the parent's memory, open files and saved
    registers, except that its [a0] (the result of the system call) is 0.  The
    parent's registers are as before, it has one child more, and the child is at
    the end of a run queue; the other tasks are as they were.  From then on neither
    sees what the other stores.  It fails, with a panic or with [Overflow] and no
    task, only if afterwards every frame is in use.  This is for a well-formed
    parent that runs on a core and whose saved registers are in a frame of the
    kernel, for a pid that is not in use, and for a system in which no frame has been
    freed yet, so that the frames in use are the first ones: then the frames of the
    child's kernel stack are contiguous, as the code assumes. *)
Theorem task_fork_spec (s : Kernel) me t th : forks s me t th →
  match task_fork trap_resume_ptr me s with
  | (Ok pid, s') => pid = k_pids s ∧ ∃ m th' c, forked_task s s' me pid t th m th' c
  | (Err e, s') => e = Overflow ∧ full (fa (memory (k_sys s'))) ∧ tasks (k_sys s') = tasks (k_sys s) ∧ k_threads s' = k_threads s
  | (Panic, s') => full (fa (memory (k_sys s')))
  | (Diverge, _) => False
  end.
Proof.
  intros Hf. pose proof (task_fork_ok s me t th Hf) as H. destruct (task_fork trap_resume_ptr me s) as [[pid|e| |] s']; [|by destruct H as (-> & k' & -> & Hf')|done..].
  destruct H as (-> & m & th' & c & Ht & _). by split; [|exists m, th', c].
Qed.
End fork.

(** ** A fork of the example *)

(** The example task, with its saved registers in the frame at [0x80204000]. *)
Definition example_mem : Kmem := (alloc_frame (km example_user)).2.
Definition example_parent : Thread := mkThread 0x11000 (0x80205000 + KERNEL_DIRECT_MAPPING_BASE)
  (0x80205000 + KERNEL_DIRECT_MAPPING_BASE - TRAP_FRAME_SIZE) (context_initialize 0 0).
Definition example_task : Task := set_t_core (Some 0%nat) (new_task None [] (mm example_user)).
Definition example_forking : Kernel (S := list Z) (N := unit) :=
  mkKernel (mkSys {[ 1 := example_task ]} {[ 1 ]} [set_current 1 0 (setup_core 0 0)] 0 ∅ ∅ 0 example_mem) [] [] {[ 1 := example_parent ]} 2 example_heap.

Lemma example_mem_wide : wide example_mem.
Proof.
  assert (H : map_Forall (λ _ l, length l = 512%nat) (mem example_mem)).
  { apply (bool_decide_eq_true_1 (map_Forall (λ _ l, length l = 512%nat) (mem example_mem))). vm_compute. reflexivity. }
  intros x. unfold frame. destruct (mem example_mem !! x) as [l|] eqn:Hl; [by apply (H x)|done].
Qed.

Lemma example_mem_spec : kwf example_mem ∧ meta example_mem = meta (km example_user) ∧ mem example_mem = mem (km example_user) ∧
  ∀ x, held (fa example_mem) x ↔ x = 0x80204000 ∨ held (fa (km example_user)) x.
Proof.
  pose proof (us_space _ (proj1 example_user_space)) as (Hk & _). pose proof (alloc_frame_spec _ Hk) as Ha. unfold example_mem.
  assert (Ho : (alloc_frame (km example_user)).1 = Ok 0x80204000) by (vm_compute; reflexivity).
  destruct (alloc_frame (km example_user)) as [o k]. cbn [fst snd] in *. subst o.
  destruct Ha as (H1 & H2 & H3 & _ & _ & H4). exact (conj H3 (conj H2 (conj H1 H4))).
Qed.

Lemma example_mem_used : KernelMap.used example_mem 5.
Proof.
  split; [apply example_mem_spec|]. assert (Hc : capacity (fa example_mem) = 64) by (vm_compute; reflexivity).
  split; [rewrite Hc; lia|]. intros j Hj. rewrite Hc in Hj.
  assert (H : Forall (λ j, in_use (fa example_mem) j = (j <? 5)) (seqZ 0 64)).
  { apply (bool_decide_eq_true_1 (Forall (λ j, in_use (fa example_mem) j = (j <? 5)) (seqZ 0 64))). vm_compute. reflexivity. }
  rewrite Forall_forall in H. apply H, elem_of_seqZ. lia.
Qed.

(** Registers at the end of a frame. *)
Lemma placed_at_end m k x : x mod 4096 = 0 → held (fa k) x → x ∉ tables 3 (mem k) (root_pt m) →
  registers_placed (mkSpace m k) (x + 4096 + KERNEL_DIRECT_MAPPING_BASE - TRAP_FRAME_SIZE).
Proof.
  intros Hx Hh Ht. assert (Hp : ∀ q, x + 4096 + KERNEL_DIRECT_MAPPING_BASE - TRAP_FRAME_SIZE ≤ q < x + 4096 + KERNEL_DIRECT_MAPPING_BASE →
    kernel_page q = x).
  { intros q. unfold kernel_page, KERNEL_DIRECT_MAPPING_BASE, TRAP_FRAME_SIZE. Z.div_mod_to_equations; lia. }
  split; [|intros q Hq; rewrite Hp by lia; done..].
  unfold KERNEL_DIRECT_MAPPING_BASE, TRAP_FRAME_SIZE. Z.div_mod_to_equations; lia.
Qed.

Lemma example_placed : registers_placed (mkSpace (mm example_user) example_mem) (trap_frame example_parent).
Proof.
  apply (placed_at_end (mm example_user) example_mem 0x80204000); [reflexivity|apply example_mem_spec; by left|].
  assert (Ht : tables 3 (mem example_mem) (root_pt (mm example_user)) = [0x80200000; 0x80202000; 0x80203000]) by (vm_compute; reflexivity).
  rewrite Ht, !elem_of_cons, elem_of_nil. lia.
Qed.

Lemma example_parent_space : uspace (mkSpace (mm example_user) example_mem) ∧ forkable (mkSpace (mm example_user) example_mem).
Proof.
  destruct example_mem_spec as (Hk & Hme & Hm & Hh).
  assert (Hheld : ∀ x, held (fa (km example_user)) x → held (fa example_mem) x) by (intros x Hx; apply Hh; by right).
  split.
  - apply (kept_user example_user example_mem (proj1 example_user_space) Hk Hme Hheld). intros x _. by rewrite Hm.
  - apply (forkable_kept example_user example_mem example_user_forkable Hme); [|exact Hheld]. intros x _. by rewrite Hm.
Qed.

Lemma example_forks : forks example_forking 1 example_task example_parent.
Proof.
  destruct example_parent_space as [Hu Hf]. split.
  - reflexivity.
  - exists 0%nat, (set_current 1 0 (setup_core 0 0)). split; [reflexivity|split; reflexivity].
  - reflexivity.
  - exact Hu.
  - exact Hf.
  - apply example_placed.
  - exists 5. apply example_mem_used.
  - apply example_mem_wide.
  - reflexivity.
  - discriminate.
Qed.

(** The child stores to the page it shares, and the parent reads its own byte. *)
Lemma task_fork_spec_witness : ∃ s' m th' c, task_fork 0 1 example_forking = (Ok 2, s') ∧
  forked_task 0 example_forking s' 1 2 example_task example_parent m th' c ∧
  view (mkSpace (mm example_user) (memory (k_sys s'))) 0x10000 = Some 7 ∧ view (mkSpace m (memory (k_sys s'))) 0x10000 = Some 7.
Proof.
  pose proof (task_fork_spec 0 example_forking 1 example_task example_parent example_forks) as H.
  assert (Ho : (task_fork 0 1 example_forking).1 = Ok 2) by (vm_compute; reflexivity).
  destruct (task_fork 0 1 example_forking) as [o s']. cbn [fst] in Ho. subst o. destruct H as (_ & m & th' & c & Hf).
  exists s', m, th', c. split; [done|]. split; [exact Hf|].
  assert (Hv : view (mkSpace (mm example_user) example_mem) 0x10000 = Some 7) by (vm_compute; reflexivity).
  destruct (ft_memory _ _ _ _ _ _ _ _ _ _ Hf _ _ _ (rtc_refl _ _) 0x10000) as [H1 H2].
  split; [rewrite <-Hv; exact H1|rewrite <-Hv; exact H2].
Defined.
