(* ===== verification/Syscall.v ===== *)
(** * System calls

    [kernel/src/syscall.rs], with the arguments and the result in the trap frame
    ([kernel/src/arch/riscv/trap/trap_frame.rs]) and the numbers of
    [kernel/src/arch/riscv/syscall.rs].

    [me] is the task the hart runs.  A system call may give the hart to another
    task: it then stops with [Away], the task the hart goes on with, and what is
    left to do when [me] runs again.  A page fault of the kernel on user memory
    that the memory manager does not resolve ends the task, so nothing is left.

    [sys_read] and [sys_write] take a buffer from the kernel's heap and give it
    back at their end; its contents are lists here.  A read of the console is one
    step of its node; its waiting is in the file on the console. *)

From S2P Require Import Prelude Errors Kmalloc Vfs Addr Sv39 FrameAllocator PageMeta PageTable PageMap PageFork MemMgr MemFault UserMem UserView ForkView KernelMap TaskSpace Elf ElfLoad InitStack InOrder Registers FileTable TaskPool Sched TaskNew.

(** ** Numbers *)

Abbreviation SYS_IOCTL := 29.
Abbreviation SYS_OPEN := 56.
Abbreviation SYS_CLOSE := 57.
Abbreviation SYS_READ := 63.
Abbreviation SYS_WRITE := 64.
Abbreviation SYS_READV := 65.
Abbreviation SYS_WRITEV := 66.
Abbreviation SYS_PREADV := 69.
Abbreviation SYS_PWRITEV := 70.
Abbreviation SYS_EXIT := 93.
Abbreviation SYS_SLEEP_MS := 101.
Abbreviation SYS_GETTID := 178.
Abbreviation SYS_BRK := 214.
Abbreviation SYS_CLONE := 220.
Abbreviation SYS_WAIT := 260.
Abbreviation SYS_SHUTDOWN := 5.
Abbreviation SYS_SPAWN := 6.

(** [Flags] of [syscall_open], in the order of the source. *)
Abbreviation O_CREAT := 0x40.
Abbreviation O_EXCL := 0x80.
Definition open_flags : list Z :=
  [0; 0x1; 0x2; 0x3; O_CREAT; O_EXCL; 0x100; 0x200; 0x400; 0x800; 0x1000; 0x2000; 0x4000; 0x8000;
   0x10000; 0x20000; 0x40000; 0x80000; 0x101000; 0x200000; 0x410000].
Definition open_flags_all : Z := foldr Z.lor 0 open_flags.

(** ** How a call ends *)

Inductive Resume := Never | SleepDone | WaitDone (out_wstatus : Z).
Inductive Stop := Failed (e : Error) | Away (tp : Z) (rest : Resume).

Section syscalls.
Context {S N : Type} `{HV : VNode S N} `{EC : ElfCrate} `{BF : Bitflags} {FB : FromBits} {MU : Mmu}.

(** [crate::vfs::open] and [create], the console's node, and [trap_resume]. *)
Context (vfs_open vfs_create : list Z → M S VfsError (File N)) (console : N) (trap_resume_ptr : Z).

Abbreviation Kernel := (Kernel (S := S) (N := N)).
Abbreviation KN := (M Kernel Error).
Abbreviation SY := (M Kernel Stop).

(** An operation that fails with an error. *)
Definition failing {A} (m : KN A) : SY A := λ s,
  match m s with
  | (Ok a, s') => (Ok a, s')
  | (Err e, s') => (Err (Failed e), s')
  | (Panic, s') => (Panic, s')
  | (Diverge, s') => (Diverge, s')
  end.

(** The hart goes on with [tp]. *)
Definition switched (me tp : Z) (rest : Resume) : SY unit :=
  if tp =? me then ret tt else fail (Away tp rest).

(** ** The trap frame *)

(** [TrapFrame::get_arg], [get_arg_as] for a type whose largest value is [max],
    [get_syscall] and [set_syscall_return_value]. *)
Definition get_arg (tf i : Z) : SY Z := gets (λ s, word_at (tf + 8 * (A0 + i)) (mem (memory (k_sys s)))).
Definition get_arg_as (max tf i : Z) : SY Z :=
  let! v := get_arg tf i in if v <=? max then ret v else fail (Failed InvalidArgs).
Definition get_syscall (tf : Z) : KN Z := gets (λ s, word_at (tf + 8 * (A0 + 7)) (mem (memory (k_sys s)))).
Definition set_syscall_return_value (tf v : Z) : KN unit := on_mem (set_word (tf + 8 * A0) (as_usize v)).

Definition u32_MAX : Z := 2 ^ 32 - 1.
Definition i8_MAX : Z := 127.
Definition isize_MAX : Z := 2 ^ 63 - 1.

(** ** Parts of the kernel *)

(** [load_core_ctx().current_task]. *)
Definition current_task (me : Z) : SY Z :=
  failing (let! c := sys_op (load_core_ctx me) in let! k := sys_op (core_of c) in ret (current k)).

(** A fault that is not resolved: [on_page_fault] ends the task. *)
Definition killed {A} (me : Z) : SY A :=
  let! task := current_task me in
  let! tp := failing (sys_op (exit me task (-1))) in
  if tp =? me then diverge else fail (Away tp Never).

(** A copy from or to the memory of the task. *)
Definition user_op {A} (me : Z) (op : UM A) : SY A :=
  let! t := failing (sys_op (task_of me)) in
  λ s, let '(o, sp) := op (mkSpace (t_mm t) (memory (k_sys s))) in
       let s' := set_sys (set_tasks (alter (set_t_mm (mm sp)) me (tasks (k_sys s))) (set_memory (km sp) (k_sys s))) s in
       match o with
       | Ok a => (Ok a, s')
       | Err Killed => killed me s'
       | Panic => (Panic, s')
       | Diverge => (Diverge, s')
       end.

(** An operation of the filesystems, and one of an open file. *)
Definition fs_op {A} (op : M S VfsError A) : SY (A + VfsError) := λ s,
  let '(o, fs) := attempt (E' := Stop) op (k_fs s) in (o, set_fs fs s).
Definition file_op {A} (r : nat) (op : File N → M S VfsError (A * File N)) : SY A :=
  let! f := (λ s, (unwrap (k_files s !! r), s)) in
  let! x := fs_op (op f) in
  match x with
  | inr e => fail (Failed (error_of_vfs e))
  | inl (a, f') => modify (λ s, set_files (<[r := f']> (k_files s)) s) ;;; ret a
  end.

(** [file_table.lock().get_file(fd)] of the current task. *)
Definition current_file (me fd : Z) : SY nat :=
  let! task := current_task me in
  let! t := failing (sys_op (task_of task)) in
  lift (ok_or (get_file fd (t_files t)) (Failed NotFound)).

(** [file_table.lock().add_file(file)]. *)
Definition add_current_file (me : Z) (file : File N) : SY Z :=
  let! task := current_task me in
  let! t := failing (sys_op (task_of task)) in
  λ s, let '(fd, t', fs) := add_file file (t_files t) (k_files s) in
       (Ok (Z.of_nat fd), set_sys (set_tasks (alter (set_t_files t') task (tasks (k_sys s))) (k_sys s)) (set_files fs s)).

(** ** The calls *)

(** A path in user memory, up to its zero. *)
Definition user_path (me path : Z) : SY (list Z) :=
  let! (bs, stopped) := user_op me (buf_copy_from_user_until (Z.to_nat MAX_FILE_PATH_LENGTH) path 0 (λ b, b =? 0)) in
  if negb stopped then fail (Failed InvalidArgs) else
  if decide (bs = []) then fail (Failed InvalidArgs) else ret bs.

(** [sys_open]. *)
Definition sys_open (me path flags : Z) : SY Z :=
  let! flags := lift (ok_or (bf_from_bits open_flags_all flags) (Failed InvalidArgs)) in
  let! kpath := user_path me path in
  let! r := fs_op (vfs_open kpath) in
  match r with
  | inl file =>
      if bf_contains flags (bf_bitor O_CREAT O_EXCL) then fail (Failed (EErrno EExist))
      else add_current_file me file
  | inr VfsNotFound =>
      if negb (bf_contains flags O_CREAT) then fail (Failed (error_of_vfs VfsNotFound)) else
      let! r := fs_op (vfs_create kpath) in
      match r with
      | inl file => add_current_file me file
      | inr err => fail (Failed (error_of_vfs err))
      end
  | inr err => fail (Failed (error_of_vfs err))
  end.

(** [sys_close]. *)
Definition sys_close (me fd : Z) : SY unit :=
  let! task := current_task me in
  let! t := failing (sys_op (task_of task)) in
  let '(r, files) := close_file fd (t_files t) in
  failing (sys_op (on_task task (set_t_files files))) ;;;
  lift (ok_or r (Failed (EErrno EBadF))) ;;;
  ret tt.

(** An operation of the kernel's heap.  A wild access has no result. *)
Definition heap_op {A} (op : HM A) : SY A := λ s,
  match op (k_heap s) with
  | (Ok a, h) => (Ok a, set_heap h s)
  | (Err Wild, h) => (Diverge, set_heap h s)
  | (Panic, h) => (Panic, set_heap h s)
  | (Diverge, h) => (Diverge, set_heap h s)
  end.

(** [let mut kbuf = Vec::new(); kbuf.resize(count, 0)], and what is done with the
    buffer until it is dropped.  A [Vec] larger than [isize::MAX] panics, and one of
    bytes has room for at least 8.  A task that does not come back never drops it. *)
Definition with_kbuf {A} (count : Z) (body : SY A) : SY A :=
  assert (count <=? isize_MAX) ;;;
  let! kbuf := heap_op (Kmalloc.alloc (Z.max 8 count) 1) in
  heap_op (modify (clobber kbuf count)) ;;;
  let! r := attempt body in
  match r with
  | inl a => heap_op (Kmalloc.dealloc kbuf) ;;; ret a
  | inr (Failed e) => heap_op (Kmalloc.dealloc kbuf) ;;; fail (Failed e)
  | inr (Away tp rest) => fail (Away tp rest)
  end.

(** [sys_read]. *)
Definition sys_read (me fd buf count : Z) : SY Z :=
  if count =? 0 then ret 0 else
  let! file := current_file me fd in
  with_kbuf count
    (let! bs := file_op file (λ f, file_read f count) in
     user_op me (buf_copy_into_user buf 0 bs) ;;;
     ret (Z.of_nat (length bs))).

(** [sys_write]. *)
Definition sys_write (me fd buf count : Z) : SY Z :=
  if count =? 0 then ret 0 else
  let! file := current_file me fd in
  with_kbuf count
    (let! kbuf := user_op me (buf_copy_from_user (Z.to_nat count) buf) in
     file_op file (λ f, file_write f kbuf)).

(** [IoVecIn] and [IoVecOut]: the base and the length. *)
Definition read_iovec (me io_vec : Z) : SY (Z * Z) :=
  let! bs := user_op me (ptr_copy_from_user 16 io_vec) in
  ret (little_endian_to_Z 8 (take 8 bs), little_endian_to_Z 8 (drop 8 bs)).

(** The loops of [sys_readv] and [sys_writev], with the call for one part. *)
Fixpoint iov_loop (part : Z → Z → SY Z) (me : Z) (n : nat) (io_vec total : Z) : SY Z :=
  match n with
  | O => ret total
  | Datatypes.S n' =>
      let! (iov_base, requested) := read_iovec me io_vec in
      let! r := attempt (part iov_base requested) in
      match r with
      | inr (Away tp rest) => fail (Away tp rest)
      | inr (Failed err) => if negb (total =? 0) then ret total else fail (Failed err)
      | inl done =>
          let! total := lift (ok_or (checked_add 64 total done) (Failed Overflow)) in
          if done <? requested then ret total else
          match n' with
          | O => ret total
          | _ =>
              let! next := failing (lift (user_ptr_offset 16 io_vec 1)) in
              let! io_vec := lift (ok_or next (Failed InvalidArgs)) in
              iov_loop part me n' io_vec total
          end
      end
  end.

(** [sys_readv] and [sys_writev]. *)
Definition sys_readv (me fd io_vec len : Z) : SY Z := iov_loop (sys_read me fd) me (Z.to_nat len) io_vec 0.
Definition sys_writev (me fd io_vec len : Z) : SY Z := iov_loop (sys_write me fd) me (Z.to_nat len) io_vec 0.

(** [sys_exit]. *)
Definition sys_exit (me exit_code : Z) : SY unit :=
  let! task := current_task me in
  let! tp := failing (sys_op (exit me task exit_code)) in
  switched me tp Never.

(** [sys_sleep_ms]. *)
Definition sys_sleep_ms (me time_ms : Z) : SY unit :=
  let! tp := failing (sys_op (sleep_current_task me time_ms)) in
  switched me tp SleepDone.

(** [sys_gettid]. *)
Definition sys_gettid (me : Z) : SY Z := current_task me.

(** [sys_brk]. *)
Definition sys_brk (me brk : Z) : SY Z :=
  let! task := current_task me in
  failing (sys_op (task_mm task (do_brk brk))).

(** [sys_wait]: [wait_done] is what follows the call of [task::wait]. *)
Definition wait_done (me out_wstatus pid exit_code : Z) : SY Z :=
  user_op me (ptr_copy_into_user out_wstatus (Z_to_little_endian 4 8 (raw_wait_status (WExited exit_code)))) ;;;
  ret pid.
Definition wait_again (me out_wstatus : Z) : SY Z :=
  let! task := current_task me in
  let! (pid, exit_code) := failing (sys_op (wait_resume me task)) in
  wait_done me out_wstatus pid exit_code.
Definition sys_wait (me out_wstatus : Z) : SY Z :=
  let! task := current_task me in
  let! r := failing (sys_op (wait me task)) in
  match r with
  | inl (pid, exit_code) => wait_done me out_wstatus pid exit_code
  | inr tp => switched me tp (WaitDone out_wstatus) ;;; wait_again me out_wstatus
  end.

(** The loop of [sys_spawn] over [argv]: one turn, and all of it. *)
Definition argv_turn (me : Z) (st : Z * list (list Z)) : SY (Z * list (list Z) + list (list Z)) :=
  let '(cur, kargv) := st in
  let! r := user_op me (iter_next cur) in
  match r with
  | None => ret (inr kargv)
  | Some (current_arg, next) =>
      if current_arg =? 0 then ret (inr kargv) else
      let! (karg, stopped) := user_op me (copy_from_user_many_until 128 current_arg (λ b, b =? 0)) in
      if negb stopped then fail (Failed InvalidArgs) else ret (inl (next, kargv ++ [karg]))
  end.
Definition read_argv (me argv : Z) : SY (list (list Z)) := loop (2 ^ 61) (argv_turn me) (argv, []).

(** [sys_spawn]. *)
Definition sys_spawn (me path argv out_pid : Z) : SY unit :=
  let! kpath := user_path me path in
  let! args := read_argv me argv in
  let! task := current_task me in
  let! pid := failing (spawn vfs_open console trap_resume_ptr kpath args (Some task)) in
  user_op me (ptr_copy_into_user out_pid (Z_to_little_endian 8 8 pid)).

(** ** Dispatch *)

Definition SIGCHLD : Z := 17.

(** [do_dispatch_syscall]. *)
Definition do_dispatch_syscall (me syscall_number tf : Z) : SY Z :=
  if syscall_number =? SYS_IOCTL then fail (Failed (EErrno ENoTty))
  else if syscall_number =? SYS_OPEN then
    let! a := get_arg tf 1 in
    let! path := lift (ok_or (user_buf_new a) (Failed InvalidArgs)) in
    let! flags := get_arg_as u32_MAX tf 2 in
    let! fd := sys_open me path flags in ret (as_isize fd)
  else if syscall_number =? SYS_CLOSE then
    let! fd := get_arg_as u32_MAX tf 0 in
    sys_close me fd ;;; ret 0
  else if syscall_number =? SYS_READ then
    let! fd := get_arg_as u32_MAX tf 0 in
    let! a := get_arg tf 1 in
    let! buf := lift (ok_or (user_buf_new a) (Failed InvalidArgs)) in
    let! count := get_arg tf 2 in
    let! n := sys_read me fd buf count in ret (as_isize n)
  else if syscall_number =? SYS_WRITE then
    let! fd := get_arg_as u32_MAX tf 0 in
    let! a := get_arg tf 1 in
    let! buf := lift (ok_or (user_buf_new a) (Failed InvalidArgs)) in
    let! count := get_arg tf 2 in
    let! n := sys_write me fd buf count in ret (as_isize n)
  else if syscall_number =? SYS_READV then
    let! fd := get_arg_as u32_MAX tf 0 in
    let! iovec := get_arg tf 1 in
    let! iovcnt := get_arg_as u32_MAX tf 2 in
    let! n := sys_readv me fd iovec iovcnt in ret (as_isize n)
  else if syscall_number =? SYS_WRITEV then
    let! fd := get_arg_as u32_MAX tf 0 in
    let! iovec := get_arg tf 1 in
    let! iovcnt := get_arg_as u32_MAX tf 2 in
    let! n := sys_writev me fd iovec iovcnt in ret (as_isize n)
  else if syscall_number =? SYS_PREADV then fail (Failed (EErrno ESPipe))
  else if syscall_number =? SYS_PWRITEV then fail (Failed (EErrno ESPipe))
  else if syscall_number =? SYS_EXIT then
    let! exit_code := get_arg_as i8_MAX tf 0 in
    sys_exit me exit_code ;;; ret 0
  else if syscall_number =? SYS_SLEEP_MS then
    let! time_ms := get_arg tf 0 in
    sys_sleep_ms me time_ms ;;; ret 0
  else if syscall_number =? SYS_GETTID then
    let! n := sys_gettid me in ret (as_isize n)
  else if syscall_number =? SYS_BRK then
    let! brk := get_arg tf 0 in
    let! n := sys_brk me brk in ret (as_isize n)
  else if syscall_number =? SYS_CLONE then
    let! clone_flags := get_arg tf 0 in
    let! newsp := get_arg tf 1 in
    if negb (clone_flags =? SIGCHLD) || negb (newsp =? 0) then fail (Failed InvalidArgs) else
    let! pid := failing (task_fork trap_resume_ptr me) in ret (as_isize pid)
  else if syscall_number =? SYS_WAIT then
    let! _pid := get_arg_as isize_MAX tf 0 in
    let! out_wstatus := get_arg tf 1 in
    let! _flags := get_arg_as u32_MAX tf 2 in
    let! p := sys_wait me out_wstatus in ret (as_isize p)
  else if syscall_number =? SYS_SHUTDOWN then diverge
  else if syscall_number =? SYS_SPAWN then
    let! out_pid := get_arg tf 0 in
    let! a := get_arg tf 1 in
    let! path := lift (ok_or (user_buf_new a) (Failed InvalidArgs)) in
    let! argv := get_arg tf 2 in
    sys_spawn me path argv out_pid ;;; ret 0
  else panic.

(** The result into the trap frame, or the hart to another task. *)
Definition finish_syscall (me tf : Z) (call : SY Z) : KN (Z * option Resume) :=
  let! r := attempt call in
  match r with
  | inl v => set_syscall_return_value tf v ;;; ret (me, None)
  | inr (Failed err) => set_syscall_return_value tf (- errno_code (errno_of_error err)) ;;; ret (me, None)
  | inr (Away tp rest) => ret (tp, Some rest)
  end.

(** [dispatch_syscall], and the rest of it for a task that was away. *)
Definition dispatch_syscall (me tf : Z) : KN (Z * option Resume) :=
  let! syscall_number := get_syscall tf in
  finish_syscall me tf (do_dispatch_syscall me syscall_number tf).
Definition resume_syscall (me tf : Z) (rest : Resume) : KN (Z * option Resume) :=
  match rest with
  | Never => diverge
  | SleepDone => finish_syscall me tf (ret 0)
  | WaitDone out_wstatus => finish_syscall me tf (let! p := wait_again me out_wstatus in ret (as_isize p))
  end.
End syscalls.
