(* ===== verification/SyscallIO.v ===== *)
(** * Reading and writing files from a task

    What a task finds in its registers and in its memory after [read] and
    [write] of [kernel/src/syscall.rs]. *)

From S2P Require Import Prelude Errors Kmalloc Vfs Addr Sv39 FrameAllocator PageMeta PageTable PageMap PageFork MemMgr MemFault UserMem UserView ForkView KernelMap TaskSpace Elf ElfLoad InitStack InOrder Registers FileTable TaskPool Sched TaskNew TaskFork Syscall.

Section io.
Context {S N : Type} `{HV : VNode S N} `{EC : ElfCrate} `{BF : Bitflags} {HBF : BitflagsOk BF} {FB : FromBits}.
Context {MU : Mmu} {HMU : MmuOk MU} {HO : VNodeOk S N}.
Context (vfs_open vfs_create : list Z → M S VfsError (File N)) (console : N) (trap_resume_ptr : Z).

Abbreviation Kernel := (Kernel (S := S) (N := N)).
Implicit Types (s : Kernel) (t : Task).

(** ** A task in a system call *)

Definition space_of s t : Space := mkSpace (t_mm t) (memory (k_sys s)).

(** The kernel with other memory. *)
Definition with_memory (k : Kmem) s : Kernel := set_sys (set_memory k (k_sys s)) s.

(** The task [me] is what its core runs, and its registers are saved at [tf], in
    kernel memory that is none of its own. *)
Record calling s (me tf : Z) t : Prop := {
  ca_task : tasks (k_sys s) !! me = Some t;
  ca_core : ∃ c k, t_core t = Some c ∧ cores (k_sys s) !! c = Some k ∧ current k = me;
  ca_space : uspace (space_of s t);
  ca_aligned : tf mod 8 = 0;
  ca_held q : tf ≤ q < tf + TRAP_FRAME_SIZE → held (fa (memory (k_sys s))) (kernel_page q);
  ca_private q : tf ≤ q < tf + TRAP_FRAME_SIZE → ¬ owns (space_of s t) (kernel_page q);
  ca_length q : tf ≤ q < tf + TRAP_FRAME_SIZE → length (frame (mem (memory (k_sys s))) (kernel_page q)) = 512%nat;
}.

(** The registers that a call takes its number and its arguments from. *)
Definition arg s (tf i : Z) : Z := word_at (tf + 8 * (A0 + i)) (mem (memory (k_sys s))).
Definition saved s (tf : Z) : list Z := words_at tf 34 (mem (memory (k_sys s))).

Lemma current_task_ok s me tf t : calling s me tf t → current_task me s = (Ok me, s).
Proof.
  intros H. destruct (ca_core _ _ _ _ H) as (c & k & Hc & Hk & Hme). pose proof (ca_task _ _ _ _ H) as Ht.
  unfold current_task, failing, bind at 1, sys_op at 1, zoom at 1, load_core_ctx, bind at 1, task_of. rewrite Ht. cbn [unwrap].
  unfold lift at 1. rewrite Hc. cbn [unwrap]. replace (set_sys (k_sys s) s) with s by (by destruct s).
  unfold bind, sys_op, zoom, core_of. rewrite Hk. cbn [unwrap]. replace (set_sys (k_sys s) s) with s by (by destruct s).
  unfold ret. by rewrite Hme.
Qed.

(** ** The memory of the task *)

Lemma user_op_spec {A} me (op : UM A) s t : tasks (k_sys s) !! me = Some t →
  match op (space_of s t) with
  | (Ok a, sp) => mm sp = t_mm t → user_op me op s = (Ok a, with_memory (km sp) s)
  | (Panic, sp) => ∃ s', user_op me op s = (Panic, s') ∧ memory (k_sys s') = km sp
  | _ => True
  end.
Proof.
  intros Ht. unfold user_op, bind, failing, sys_op, zoom, task_of. rewrite Ht. cbn [unwrap].
  replace (set_sys (k_sys s) s) with s by (by destruct s). fold (space_of s t).
  destruct (op (space_of s t)) as [[a|e| |] sp]; [|done|by eexists|done]. intros Hmm.
  assert (alter (set_t_mm (mm sp)) me (tasks (k_sys s)) = tasks (k_sys s)) as ->.
  { apply alter_id. intros t' Ht'. rewrite Ht in Ht'. injection Ht' as <-. rewrite Hmm. by destruct t. }
  by assert (set_tasks (tasks (k_sys s)) (set_memory (km sp) (k_sys s)) = set_memory (km sp) (k_sys s)) as -> by (by destruct s as [[]]).
Qed.

(** After a copy the task is as before, with the new contents. *)
Lemma calling_evolves s me tf t k f : calling s me tf t → evolves (space_of s t) (mkSpace (t_mm t) k) f →
  calling (with_memory k s) me tf t ∧ saved (with_memory k s) tf = saved s tf.
Proof.
  intros [H1 H2 H3 H4 H5 H6 H7] Hev.
  assert (Hfor : ∀ q, tf ≤ q < tf + TRAP_FRAME_SIZE → foreign (space_of s t) (kernel_page q)).
  { intros q Hq. specialize (H6 q Hq). split; [by apply H5|]. split; [intros ?; apply H6; by left|].
    intros r e n Hr Hle Hp. destruct H6. right. by exists r, e, n. }
  split.
  - split; [done|done|apply Hev|done| | |].
    + intros q Hq. by destruct (ev_foreign _ _ _ Hev _ (Hfor q Hq)) as [[? _] _].
    + intros q Hq Ho. apply (H6 q Hq). by apply (ev_owns _ _ _ Hev _ (Hfor q Hq)).
    + intros q Hq. destruct (ev_foreign _ _ _ Hev _ (Hfor q Hq)) as [_ Hf]. cbn [km space_of] in Hf.
      unfold with_memory. cbn [k_sys set_sys memory set_memory]. rewrite Hf. by apply H7.
  - apply words_at_ext. intros i Hi. apply word_at_frame.
    destruct (ev_foreign _ _ _ Hev (kernel_page (tf + 8 * i))) as [_ Hf]; [|exact Hf]. apply Hfor.
    change TRAP_FRAME_SIZE with 272. lia.
Qed.

(** ** The result *)

(** A word of the saved registers is written. *)
Definition set_saved (tf : Z) (i : nat) (w : Z) s : Kernel :=
  with_memory (set_mem (set_word (tf + 8 * Z.of_nat i) w (mem (memory (k_sys s)))) (memory (k_sys s))) s.

Lemma calling_set_word s me tf t i w : calling s me tf t → (i < 34)%nat →
  let s' := set_saved tf i w s in
  calling s' me tf t ∧ saved s' tf = <[i := w]> (saved s tf) ∧ (∀ a, view (space_of s' t) a = view (space_of s t) a) ∧
  ∀ a, can_read (space_of s' t) a = can_read (space_of s t) a ∧ can_write (space_of s' t) a = can_write (space_of s t) a ∧
       can_exec (space_of s' t) a = can_exec (space_of s t) a.
Proof.
  intros [H1 H2 H3 H4 H5 H6 H7] Hi. unfold set_saved. set (p := tf + 8 * Z.of_nat i). set (k' := set_mem _ _). cbv zeta.
  assert (Hp : tf ≤ p < tf + TRAP_FRAME_SIZE) by (change TRAP_FRAME_SIZE with 272; unfold p; lia).
  assert (Hk : kwf k') by (destruct (us_space _ H3) as ([] & _); by split).
  assert (Hkeep : ∀ x, owns (space_of s t) x → frame (mem k') x = frame (mem (memory (k_sys s))) x).
  { intros x Hx. cbn [mem k' set_mem]. unfold set_word, upd. apply frame_insert_ne.
    intros E. apply (H6 p Hp). unfold kernel_page. by rewrite <-E. }
  pose proof (kept_user (space_of s t) k' H3 Hk eq_refl (λ _ H, H) Hkeep) as Hu.
  split; [|split; [|split]].
  - split; [done|done|exact Hu|done|done| |].
    + intros q Hq. intros Ho%(kept_owns (space_of s t) k' H3 Hk (λ _ H, H) Hkeep). by apply (H6 q).
    + intros q Hq. cbn [mem k' set_mem memory k_sys with_memory set_sys set_memory]. unfold set_word, upd. fold (kernel_page p).
      destruct (decide (kernel_page p = kernel_page q)) as [<-|Hne]; [|rewrite frame_insert_ne by done; by apply H7].
      rewrite frame_insert, length_insert. by apply H7.
  - apply words_at_insert; [by apply H7|done|done].
  - intros a. apply (kept_view (space_of s t) k' H3 Hk (λ _ H, H) Hkeep).
  - intros a. apply (kept_can (space_of s t) k' H3 Hk (λ _ H, H) Hkeep).
Qed.
(** ** Files *)

Lemma file_op_ok {A} r (op : File N → M S VfsError (A * File N)) s f a f' fs : k_files s !! r = Some f →
  op f (k_fs s) = (Ok (a, f'), fs) → file_op r op s = (Ok a, set_files (<[r := f']> (k_files s)) (set_fs fs s)).
Proof. intros Hf Ho. unfold file_op, bind, fs_op, attempt. rewrite Hf. cbn [unwrap]. by rewrite Ho. Qed.

Lemma file_op_err {A} r (op : File N → M S VfsError (A * File N)) s f e fs : k_files s !! r = Some f →
  op f (k_fs s) = (Err e, fs) → file_op r op s = (Err (Failed (error_of_vfs e)), set_fs fs s).
Proof. intros Hf Ho. unfold file_op, bind, fs_op, attempt. rewrite Hf. cbn [unwrap]. by rewrite Ho. Qed.

Lemma current_file_ok s me tf t fd r : calling s me tf t → get_file fd (t_files t) = Some r →
  current_file me fd s = (Ok r, s).
Proof.
  intros Hc Hr. unfold current_file. rewrite (bind_ok _ _ _ _ _ (current_task_ok _ _ _ _ Hc)).
  unfold bind, failing, sys_op, zoom, task_of. rewrite (ca_task _ _ _ _ Hc). cbn [unwrap].
  replace (set_sys (k_sys s) s) with s by (by destruct s). unfold lift. by rewrite Hr.
Qed.

Lemma calling_sys s s' me tf t : k_sys s' = k_sys s → calling s me tf t → calling s' me tf t.
Proof. intros E [H1 H2 H3 H4 H5 H6 H7]. by split; unfold space_of in *; rewrite ?E. Qed.

(** ** The buffer of the kernel *)

(** The heap is well-formed and not at the very end of the addresses; its blocks
    in use are [L]. *)
Definition heap_ok (h : Heap) (L : gmap Z Z) : Prop := ∃ start end_, heap_inv start end_ h L ∧ end_ + 41 < 2 ^ 64.

(** No free node of the heap is large enough for a buffer of [count] bytes. *)
Definition no_room (count : Z) (h : Heap) : Prop := ∃ ns, chain (headers h) (backs h) (Kmalloc.start_addr h) ns (Kmalloc.end_addr h) ∧
  ∀ pre n post, ns = pre ++ n :: post → fits (Kmalloc.start_addr h + total pre) 0 (Z.max 8 count) n = false.

Lemma heap_op_ok {A} (op : M Heap HeapError A) s a h : op (k_heap s) = (Ok a, h) → heap_op op s = (Ok a, set_heap h s).
Proof. intros E. unfold heap_op. by rewrite E. Qed.

(** There is no room, or the buffer is there for the body and is given back. *)
Lemma with_kbuf_ok {A} count (body : M Kernel Stop A) s L : 0 < count ≤ isize_MAX → heap_ok (k_heap s) L →
  no_room count (k_heap s) ∧ with_kbuf count body s = (Panic, s) ∨
  ∃ h, ∀ o s1, body (set_heap h s) = (o, s1) → (o ≠ Panic → k_heap s1 = h) →
    ∃ h', heap_ok h' L ∧ with_kbuf count body s = (o, match o with Ok _ | Err (Failed _) => set_heap h' s1 | _ => s1 end).
Proof.
  intros Hc (start & end_ & Hi & He). assert (Hle : assert (E := Stop) (count <=? isize_MAX) s = (Ok tt, s))
    by (unfold assert; by rewrite (proj2 (Z.leb_le _ _)) by lia). unfold isize_MAX in Hc.
  destruct (inv_alloc start end_ (k_heap s) L (Z.max 8 count) 0 Hi) as [(p & h1 & Ha & Hi1 & Hn & _)|[Ha Hno]];
    [split; [lia|]; change (2 ^ 0) with 1; lia| |]; change (2 ^ 0) with 1 in Ha.
  2: { left. pose proof Hi as (E1 & E2 & _). split; [unfold no_room; by rewrite E1, E2|]. unfold with_kbuf.
       rewrite (bind_ok _ _ _ _ _ Hle). unfold bind at 1, heap_op at 1. rewrite Ha. by destruct s. }
  right. exists (clobber p count h1). intros o s1 Hb Hk. unfold with_kbuf. rewrite (bind_ok _ _ _ _ _ Hle).
  rewrite (bind_ok _ _ _ _ _ (heap_op_ok _ _ _ _ Ha)).
  rewrite (bind_ok _ _ _ _ _ (heap_op_ok (modify (clobber p count)) (set_heap h1 s) tt (clobber p count h1) eq_refl)).
  assert (Hi2 : heap_inv start end_ (clobber p count h1) (<[p := Z.max 8 count]> L)).
  { apply (inv_write start end_ h1 _ p (Z.max 8 count) p count Hi1); [by rewrite lookup_insert_eq|lia..]. }
  destruct (inv_dealloc start end_ _ _ p (Z.max 8 count) Hi2 (lookup_insert_eq _ _ _)) as (h' & Hd & Hi').
  rewrite delete_insert_id in Hi' by done. exists h'. split; [by exists start, end_|].
  unfold bind at 1, attempt. cbn [k_heap set_heap]. change (set_heap _ (set_heap h1 s)) with (set_heap (clobber p count h1) s).
  rewrite Hb. destruct o as [a|[e|tp rest]| |]; try done; unfold bind; by rewrite (heap_op_ok _ _ _ h') by (by rewrite Hk).
Qed.

(** A call for more bytes than the heap has panics the kernel, before the file is
    looked at. *)
Lemma large_read_panics s me tf t fd r buf count start end_ L : calling s me tf t → get_file fd (t_files t) = Some r →
  heap_inv start end_ (k_heap s) L → end_ + 41 < 2 ^ 64 → 0 < count ≤ isize_MAX → end_ - start ≤ count →
  sys_read me fd buf count s = (Panic, s).
Proof.
  intros Hc Hfd Hi He Hcnt Hbig. unfold sys_read. rewrite (proj2 (Z.eqb_neq _ _)) by lia.
  rewrite (bind_ok _ _ _ _ _ (current_file_ok _ _ _ _ _ _ Hc Hfd)). unfold with_kbuf, bind at 1, assert. rewrite (proj2 (Z.leb_le _ _)) by lia.
  unfold ret at 1, bind at 1, heap_op at 1. unfold isize_MAX in Hcnt.
  destruct (inv_alloc start end_ (k_heap s) L (Z.max 8 count) 0 Hi) as [(p & h1 & _ & Hi1 & _)|[Ha _]];
    [split; [lia|]; change (2 ^ 0) with 1; lia| |change (2 ^ 0) with 1 in Ha; rewrite Ha; by destruct s].
  destruct Hi1 as (_ & _ & _ & _ & ns & _ & Hch & HL). destruct (blocks_bounds _ _ _ _ _ p (Z.max 8 count) Hch) as [? ?]; [|lia].
  apply HL, lookup_insert_eq.
Qed.

(** ** Reading a file *)

(** What a read of [count] bytes gives. *)
Definition next_bytes s (f : File N) (count : Z) : list Z :=
  take (Z.to_nat count) (drop (Z.to_nat (offset f)) (content (k_fs s) (inode f))).

Lemma file_read_ok s f count : regular (k_fs s) (inode f) → is_usize (offset f) → 0 ≤ count →
  ∃ fs, file_read f count (k_fs s) =
    (Ok (next_bytes s f count, mkFile (inode f) (offset f + Z.of_nat (length (next_bytes s f count)))), fs) ∧ same_files (k_fs s) fs.
Proof.
  intros Hr [Ho1 Ho2] Hc. destruct (vn_read_spec (k_fs s) (inode f) (offset f) count Hr) as (fs & Hrd & Hs); [lia..|].
  fold (next_bytes s f count) in Hrd. exists fs. split; [|done]. unfold file_read. rewrite (bind_ok _ _ _ _ _ Hrd).
  unfold bind, lift, add_ov, checked_add. rewrite (proj2 (Z.ltb_lt _ _)); [done|].
  pose proof (content_len (k_fs s) (inode f) Hr). unfold next_bytes. rewrite length_take, length_drop. lia.
Qed.

(** The descriptor [fd] of the task refers to the regular file [f]. *)
Record reads s t (fd : Z) (r : nat) (f : File N) : Prop := {
  rd_fd : get_file fd (t_files t) = Some r;
  rd_file : k_files s !! r = Some f;
  rd_regular : regular (k_fs s) (inode f);
  rd_offset : is_usize (offset f);
  rd_bytes : Forall is_u8 (content (k_fs s) (inode f));
}.

(** The kernel after a read. *)
Definition after_read s (r : nat) (f : File N) (n : nat) (fs : S) (k : Kmem) : Kernel :=
  with_memory k (set_files (<[r := mkFile (inode f) (offset f + Z.of_nat n)]> (k_files s)) (set_fs fs s)).

(** The body of [sys_read]. *)
Lemma read_body_ok s me tf t fd r f buf count : calling s me tf t → reads s t fd r f → 0 < count ≤ isize_MAX →
  let bs := next_bytes s f count in
  0 ≤ buf → buf + Z.of_nat (length bs) ≤ 2 ^ 64 →
  (∀ j, 0 ≤ j < Z.of_nat (length bs) → can_write (space_of s t) (buf + j) = true) →
  match (let! bs := file_op r (λ f, file_read f count) in
         user_op me (buf_copy_into_user buf 0 bs) ;;; ret (Z.of_nat (length bs))) s with
  | (Ok n, s') => n = Z.of_nat (length bs) ∧ ∃ fs k, s' = after_read s r f (length bs) fs k ∧ same_files (k_fs s) fs ∧
      evolves (space_of s t) (mkSpace (t_mm t) k) (patched (view (space_of s t)) buf bs)
  | (Panic, s') => full (fa (memory (k_sys s')))
  | _ => False
  end.
Proof.
  intros Hc [Hfd Hf Hr Ho Hb] Hcnt bs Hbuf Hov Hw.
  destruct (file_read_ok s f count Hr Ho) as (fs & Hrd & Hs); [lia|]. rewrite (bind_ok _ _ _ _ _ (file_op_ok r (λ f, file_read f count) s f _ _ _ Hf Hrd)). fold bs.
  set (s1 := set_files _ _). assert (Hbs : Forall is_u8 bs) by (by apply Forall_take, Forall_drop).
  pose proof (copy_into_spec bs (space_of s t) buf 0 (ca_space _ _ _ _ Hc) Hbuf ltac:(done)) as Hin.
  rewrite Z.add_0_r in Hin. specialize (Hin Hov Hbs Hw).
  pose proof (user_op_spec me (buf_copy_into_user buf 0 bs) s1 t (ca_task _ _ _ _ Hc)) as Hu.
  change (space_of s1 t) with (space_of s t) in Hu. unfold bind.
  destruct (buf_copy_into_user buf 0 bs (space_of s t)) as [[[]|e| |] sp]; [|done| |done].
  - rewrite Hu by apply Hin. split; [done|]. exists fs, (km sp). split; [done|]. split; [done|].
    pose proof (ev_mm _ _ _ Hin) as Hmm. destruct sp as [m k]. cbn [mm km] in *. by subst m.
  - destruct Hu as (s' & -> & ->). done.
Qed.

Lemma sys_read_ok s me tf t fd r f buf count L : calling s me tf t → reads s t fd r f → 0 < count ≤ isize_MAX →
  heap_ok (k_heap s) L → let bs := next_bytes s f count in
  0 ≤ buf → buf + Z.of_nat (length bs) ≤ 2 ^ 64 →
  (∀ j, 0 ≤ j < Z.of_nat (length bs) → can_write (space_of s t) (buf + j) = true) →
  match sys_read me fd buf count s with
  | (Ok n, s') => n = Z.of_nat (length bs) ∧ ∃ fs k h, s' = after_read (set_heap h s) r f (length bs) fs k ∧ heap_ok h L ∧
      same_files (k_fs s) fs ∧ evolves (space_of s t) (mkSpace (t_mm t) k) (patched (view (space_of s t)) buf bs)
  | (Panic, s') => full (fa (memory (k_sys s'))) ∨ no_room count (k_heap s)
  | _ => False
  end.
Proof.
  intros Hc Hrd Hcnt Hh bs Hbuf Hov Hw. unfold sys_read. rewrite (proj2 (Z.eqb_neq _ _)) by lia.
  rewrite (bind_ok _ _ _ _ _ (current_file_ok _ _ _ _ _ _ Hc (rd_fd _ _ _ _ _ Hrd))).
  set (body := bind _ _). destruct (with_kbuf_ok count body s L Hcnt Hh) as [[Hno ->]|(h & Hk)]; [by right|].
  assert (Hrd' : reads (set_heap h s) t fd r f) by (destruct Hrd; by split).
  pose proof (read_body_ok (set_heap h s) me tf t fd r f buf count (calling_sys s (set_heap h s) me tf t eq_refl Hc) Hrd' Hcnt Hbuf Hov Hw) as Hb.
  fold body in Hb. destruct (body (set_heap h s)) as [[n|e| |] s1]; [|done| |done].
  - destruct Hb as (-> & fs & k & -> & Hs & Hev). destruct (Hk _ _ eq_refl (λ _, eq_refl)) as (h' & Hh' & ->).
    split; [done|]. by exists fs, k, h'.
  - destruct (Hk _ _ eq_refl (λ H, False_ind _ (H eq_refl))) as (_ & _ & ->). by left.
Qed.
(** ** Bytes of the task *)

(** [bs] is at [a] in the memory of the task. *)
Definition bytes_at s t (a : Z) (bs : list Z) : Prop :=
  ∀ j b, bs !! j = Some b → view (space_of s t) (a + Z.of_nat j) = Some b.

Lemma read_bytes_at s t a n stop bs bs' stopped : read_until (space_of s t) a n stop bs' stopped → bytes_at s t a bs →
  (length bs' ≤ length bs)%nat → bs' = take (length bs') bs.
Proof.
  intros [Hr _] Hb Hl. apply list_eq_same_length with (length bs'); [rewrite length_take; lia|done|].
  intros j x y Hj Hx Hy. rewrite lookup_take_lt in Hy by done. destruct (Hr j x Hx) as [Hv _]. rewrite (Hb j y Hy) in Hv. congruence.
Qed.

(** A copy of [n] bytes, or up to a stop. *)
Lemma user_from_ok s me tf t a n stop : calling s me tf t → 0 ≤ a → a + Z.of_nat n ≤ 2 ^ 64 →
  readable_until (space_of s t) a n stop →
  match user_op me (buf_copy_from_user_until n a 0 stop) s with
  | (Ok (bs, stopped), s') => read_until (space_of s t) a n stop bs stopped ∧ ∃ k, s' = with_memory k s ∧
      evolves (space_of s t) (mkSpace (t_mm t) k) (view (space_of s t))
  | (Panic, s') => full (fa (memory (k_sys s')))
  | _ => False
  end.
Proof.
  intros Hc Ha Hov Hr. pose proof (copy_from_spec n (space_of s t) a 0 stop (ca_space _ _ _ _ Hc) Ha ltac:(done)) as Hin.
  rewrite Z.add_0_r in Hin. specialize (Hin Hov Hr).
  pose proof (user_op_spec me (buf_copy_from_user_until n a 0 stop) s t (ca_task _ _ _ _ Hc)) as Hu.
  destruct (buf_copy_from_user_until n a 0 stop (space_of s t)) as [[[bs stopped]|e| |] sp]; [|done| |done].
  - destruct Hin as [Hev Hru]. rewrite Hu by apply Hev. split; [done|]. exists (km sp). split; [done|].
    pose proof (ev_mm _ _ _ Hev) as Hmm. destruct sp as [m k]. cbn [mm km] in *. by subst m.
  - by destruct Hu as (s' & -> & ->).
Qed.

(** [copy_from_user] is such a copy without a stop. *)
Lemma user_op_map {A B} me (op : UM A) (m : A → UM B) (f : A → B) s : (∀ a sp, m a sp = (Ok (f a), sp)) →
  user_op me (bind op m) s = (let! a := user_op me op in ret (f a)) s.
Proof.
  intros Hm. unfold user_op, bind, failing, sys_op, zoom, task_of, ret. destruct (unwrap (tasks (k_sys s) !! me)) as [t|e| |]; [|done..].
  destruct (op _) as [[a|[]| |] sp]; [by rewrite Hm| |done..]. unfold killed, bind, fail, diverge.
  destruct (current_task me _) as [[task|e| |] s1]; [|done..]. destruct (failing _ s1) as [[tp|e| |] s2]; [|done..].
  by destruct (tp =? me).
Qed.

Lemma user_bytes_ok s me tf t a bs : calling s me tf t → 0 ≤ a → a + Z.of_nat (length bs) ≤ 2 ^ 64 → bytes_at s t a bs →
  (∀ j, 0 ≤ j < Z.of_nat (length bs) → can_read (space_of s t) (a + j) = true) →
  match user_op me (buf_copy_from_user (length bs) a) s with
  | (Ok bs', s') => bs' = bs ∧ ∃ k, s' = with_memory k s ∧ evolves (space_of s t) (mkSpace (t_mm t) k) (view (space_of s t))
  | (Panic, s') => full (fa (memory (k_sys s')))
  | _ => False
  end.
Proof.
  intros Hc Ha Hov Hb Hr. pose proof (user_from_ok s me tf t a (length bs) (λ _, false) Hc Ha Hov) as Hf.
  specialize (Hf (λ j Hj _, Hr j Hj)).
  unfold buf_copy_from_user. rewrite (user_op_map me _ _ fst) by (by intros [] sp).
  unfold bind. destruct (user_op me (buf_copy_from_user_until (length bs) a 0 (λ _, false)) s) as [[[bs' stopped]|e| |] s']; [|done..].
  destruct Hf as [Hru (k & -> & Hev)]. split; [|by exists k]. cbn [fst].
  assert (length bs' = length bs) by (destruct Hru as [_ He], stopped; [by destruct He as (_ & b & _ & ?)|done]).
  rewrite (read_bytes_at s t a _ _ bs bs' stopped Hru Hb) by lia. apply take_ge. lia.
Qed.
(** What the filesystem makes of a write of [bs]. *)
Definition wrote s (r : nat) (f : File N) (bs : list Z) (s' : Kernel) (v : Z) : Prop :=
  match vn_write (inode f) (offset f) bs (k_fs s) with
  | (Ok n, fs) => v = n ∧ k_fs s' = fs ∧ k_files s' = <[r := mkFile (inode f) (offset f + n)]> (k_files s)
  | (Err e, fs) => v = - errno_code (vfs_to_errno e) ∧ k_fs s' = fs ∧ k_files s' = k_files s
  | _ => False
  end.

(** The body of [sys_write]. *)
Lemma write_body_ok s me tf t fd r f buf bs : calling s me tf t → get_file fd (t_files t) = Some r → k_files s !! r = Some f →
  0 < Z.of_nat (length bs) ≤ isize_MAX → 0 ≤ buf → buf + Z.of_nat (length bs) ≤ 2 ^ 64 → bytes_at s t buf bs →
  (∀ j, 0 ≤ j < Z.of_nat (length bs) → can_read (space_of s t) (buf + j) = true) →
  (match vn_write (inode f) (offset f) bs (k_fs s) with
   | (Ok n, _) => offset f + n < 2 ^ 64 | (Err _, _) => True | _ => False end) →
  match (let! kbuf := user_op me (buf_copy_from_user (Z.to_nat (Z.of_nat (length bs))) buf) in file_op r (λ f, file_write f kbuf)) s with
  | (Ok v, s') => wrote s r f bs s' v ∧ ∃ k fs fl, s' = with_memory k (set_files fl (set_fs fs s)) ∧
      evolves (space_of s t) (mkSpace (t_mm t) k) (view (space_of s t))
  | (Err x, s') => ∃ e, x = Failed (error_of_vfs e) ∧ wrote s r f bs s' (- errno_code (vfs_to_errno e)) ∧
      ∃ k fs fl, s' = with_memory k (set_files fl (set_fs fs s)) ∧ evolves (space_of s t) (mkSpace (t_mm t) k) (view (space_of s t))
  | (Panic, s') => full (fa (memory (k_sys s')))
  | _ => False
  end.
Proof.
  intros Hc Hfd Hf Hcnt Hbuf Hov Hb Hr Hwr. rewrite Nat2Z.id.
  pose proof (user_bytes_ok s me tf t buf bs Hc Hbuf Hov Hb Hr) as Hu. unfold bind at 1.
  destruct (user_op me (buf_copy_from_user (length bs) buf) s) as [[bs'|e| |] s1]; [|done..].
  destruct Hu as (-> & k & -> & Hev). destruct (vn_write (inode f) (offset f) bs (k_fs s)) as [[n|e| |] fs] eqn:Hv; [| |done..].
  - assert (Ho : file_write f bs (k_fs s) = (Ok (n, mkFile (inode f) (offset f + n)), fs)).
    { unfold file_write, bind. rewrite Hv. unfold lift, add_ov, checked_add. by rewrite (proj2 (Z.ltb_lt _ _)). }
    rewrite (file_op_ok r (λ f, file_write f bs) (with_memory k s) f _ _ _ Hf Ho). unfold wrote. rewrite Hv. split; [done|].
    exists k, fs. by eexists.
  - assert (Ho : file_write f bs (k_fs s) = (Err e, fs)) by (unfold file_write, bind; by rewrite Hv).
    rewrite (file_op_err r (λ f, file_write f bs) (with_memory k s) f _ _ Hf Ho). exists e. unfold wrote. rewrite Hv.
    split; [done|]. split; [done|]. exists k, fs, (k_files s). split; [|done]. by destruct s.
Qed.

Lemma sys_write_ok s me tf t fd r f buf bs L : calling s me tf t → get_file fd (t_files t) = Some r → k_files s !! r = Some f →
  0 < Z.of_nat (length bs) ≤ isize_MAX → heap_ok (k_heap s) L → 0 ≤ buf → buf + Z.of_nat (length bs) ≤ 2 ^ 64 → bytes_at s t buf bs →
  (∀ j, 0 ≤ j < Z.of_nat (length bs) → can_read (space_of s t) (buf + j) = true) →
  (match vn_write (inode f) (offset f) bs (k_fs s) with
   | (Ok n, _) => offset f + n < 2 ^ 64 | (Err _, _) => True | _ => False end) →
  match sys_write me fd buf (Z.of_nat (length bs)) s with
  | (Ok v, s') => wrote s r f bs s' v ∧ ∃ k fs fl h, s' = with_memory k (set_files fl (set_fs fs (set_heap h s))) ∧ heap_ok h L ∧
      evolves (space_of s t) (mkSpace (t_mm t) k) (view (space_of s t))
  | (Err x, s') => ∃ e, x = Failed (error_of_vfs e) ∧ wrote s r f bs s' (- errno_code (vfs_to_errno e)) ∧
      ∃ k fs fl h, s' = with_memory k (set_files fl (set_fs fs (set_heap h s))) ∧ heap_ok h L ∧
        evolves (space_of s t) (mkSpace (t_mm t) k) (view (space_of s t))
  | (Panic, s') => full (fa (memory (k_sys s'))) ∨ no_room (Z.of_nat (length bs)) (k_heap s)
  | _ => False
  end.
Proof.
  intros Hc Hfd Hf Hcnt Hh Hbuf Hov Hb Hr Hwr. unfold sys_write. rewrite (proj2 (Z.eqb_neq _ _)) by lia.
  rewrite (bind_ok _ _ _ _ _ (current_file_ok _ _ _ _ _ _ Hc Hfd)).
  set (body := bind _ _). destruct (with_kbuf_ok (Z.of_nat (length bs)) body s L Hcnt Hh) as [[Hno ->]|(h & Hk)]; [by right|].
  pose proof (write_body_ok (set_heap h s) me tf t fd r f buf bs (calling_sys s (set_heap h s) me tf t eq_refl Hc) Hfd Hf Hcnt Hbuf Hov Hb Hr Hwr) as Hw.
  fold body in Hw. destruct (body (set_heap h s)) as [[n|x| |] s1]; [| | |done].
  - destruct Hw as (Hw & k & fs & fl & -> & Hev). destruct (Hk _ _ eq_refl (λ _, eq_refl)) as (h' & Hh' & ->).
    split; [exact Hw|]. by exists k, fs, fl, h'.
  - destruct Hw as (e & -> & Hw & k & fs & fl & -> & Hev). destruct (Hk _ _ eq_refl (λ _, eq_refl)) as (h' & Hh' & ->).
    exists e. split; [done|]. split; [exact Hw|]. by exists k, fs, fl, h'.
  - destruct (Hk _ _ eq_refl (λ H, False_ind _ (H eq_refl))) as (_ & _ & ->). by left.
Qed.

(** ** From the trap frame to the trap frame *)

(** The call is over: [v] is in the word of [a0] at [tf], and nothing else of the
    kernel is changed. *)
Record returned s s' (me tf v : Z) t : Prop := {
  re_kernel : s' = set_saved tf 9 v s;
  re_calling : calling s' me tf t;
  re_saved : saved s' tf = <[9%nat := v]> (saved s tf);
  re_view a : view (space_of s' t) a = view (space_of s t) a;
  re_can a : can_read (space_of s' t) a = can_read (space_of s t) a ∧ can_write (space_of s' t) a = can_write (space_of s t) a ∧
    can_exec (space_of s' t) a = can_exec (space_of s t) a;
}.

Lemma return_value s me tf t v : calling s me tf t →
  ∃ s', set_syscall_return_value tf v s = (Ok tt, s') ∧ returned s s' me tf (as_usize v) t.
Proof.
  intros Hc. destruct (calling_set_word s me tf t 9 (as_usize v) Hc ltac:(lia)) as (H1 & H2 & H3 & H4).
  eexists. split; [reflexivity|]. split; [reflexivity|exact H1|exact H2|exact H3|exact H4].
Qed.

Lemma finish_value s s1 me tf t (call : M Kernel Stop Z) v : call s = (Ok v, s1) → calling s1 me tf t →
  ∃ s', finish_syscall me tf call s = (Ok (me, None), s') ∧ returned s1 s' me tf (as_usize v) t.
Proof.
  intros Hs Hc. destruct (return_value s1 me tf t v Hc) as (s' & Hr & Hret). exists s'. split; [|done].
  unfold finish_syscall, bind at 1, attempt. rewrite Hs. by rewrite (bind_ok _ _ _ _ _ Hr).
Qed.

Lemma finish_error s s1 me tf t (call : M Kernel Stop Z) e : call s = (Err (Failed e), s1) → calling s1 me tf t →
  ∃ s', finish_syscall me tf call s = (Ok (me, None), s') ∧
    returned s1 s' me tf (as_usize (- errno_code (errno_of_error e))) t.
Proof.
  intros Hs Hc. destruct (return_value s1 me tf t (- errno_code (errno_of_error e)) Hc) as (s' & Hr & Hret). exists s'.
  split; [|done]. unfold finish_syscall, bind at 1, attempt. rewrite Hs. by rewrite (bind_ok _ _ _ _ _ Hr).
Qed.

Lemma as_usize_as_isize n : as_usize (as_isize n) = as_usize n.
Proof.
  unfold as_usize, as_isize. destruct (Z.ltb_spec n (2 ^ 63)); [done|].
  replace (n - 2 ^ 64) with (n + (-1) * 2 ^ 64) by lia. by apply Z_mod_plus_full.
Qed.

Abbreviation dispatch := (dispatch_syscall vfs_open vfs_create console trap_resume_ptr).

(** The arguments of [read] and [write]. *)
Record io_args s (tf number fd buf count : Z) : Prop := {
  ia_number : arg s tf 7 = number;
  ia_fd : arg s tf 0 = fd ∧ 0 ≤ fd ≤ u32_MAX;
  ia_buf : arg s tf 1 = buf ∧ 0 < buf;
  ia_count : arg s tf 2 = count ∧ 0 < count ≤ isize_MAX;
}.

(** The common part of the two: from the registers to the call. *)
Definition io_call (tf : Z) (call : Z → Z → Z → M Kernel Stop Z) : M Kernel Stop Z :=
  let! fd := get_arg_as u32_MAX tf 0 in
  let! a := get_arg tf 1 in
  let! buf := lift (ok_or (user_buf_new a) (Failed InvalidArgs)) in
  let! count := get_arg tf 2 in
  let! n := call fd buf count in ret (as_isize n).

Lemma io_call_ok s tf number fd buf count (call : Z → Z → Z → M Kernel Stop Z) : io_args s tf number fd buf count →
  io_call tf call s = (let! n := call fd buf count in ret (as_isize n)) s.
Proof.
  intros [_ [Hfd Hfd'] [Hb Hb'] [Hc Hc']]. unfold io_call. unfold bind at 1, get_arg_as, bind at 1, get_arg, gets.
  fold (arg s tf 0). rewrite Hfd, (proj2 (Z.leb_le _ _)) by lia. unfold ret at 1, bind at 1. fold (arg s tf 1). rewrite Hb.
  unfold bind at 1, lift at 1, user_buf_new. rewrite (proj2 (Z.eqb_neq _ _)) by lia. cbn [ok_or]. unfold bind at 1.
  fold (arg s tf 2). by rewrite Hc.
Qed.

Lemma dispatch_number s me tf n : arg s tf 7 = n →
  dispatch me tf s = finish_syscall me tf (do_dispatch_syscall vfs_open vfs_create console trap_resume_ptr me n tf) s.
Proof. intros <-. done. Qed.


(** The end of a write: what is in [s1], and then the result. *)
Lemma write_returned s s' me tf t r f bs k fs fl h L v : let s1 := with_memory k (set_files fl (set_fs fs (set_heap h s))) in
  heap_ok h L →
  calling s me tf t → evolves (space_of s t) (mkSpace (t_mm t) k) (view (space_of s t)) → wrote s r f bs s1 v →
  (calling s1 me tf t → returned s1 s' me tf (as_usize v) t) →
  calling s' me tf t ∧ (∃ v, wrote s r f bs s' v ∧ saved s' tf = <[9%nat := as_usize v]> (saved s tf)) ∧
    (∀ a, view (space_of s' t) a = view (space_of s t) a) ∧ heap_ok (k_heap s') L.
Proof.
  intros s1 Hh Hc Hev Hwrote Hret. set (s0 := set_files fl (set_fs fs (set_heap h s))) in *.
  destruct (calling_evolves s0 me tf t k _ (calling_sys s s0 me tf t eq_refl Hc) Hev) as [Hc1 Hs1]. specialize (Hret Hc1).
  split; [apply Hret|]. split; [|split; [intros a; rewrite (re_view _ _ _ _ _ _ Hret); apply Hev|by rewrite (re_kernel _ _ _ _ _ _ Hret)]].
  exists v. rewrite (re_saved _ _ _ _ _ _ Hret). change (saved s1 tf) with (saved (with_memory k s0) tf). rewrite Hs1.
  by rewrite (re_kernel _ _ _ _ _ _ Hret).
Qed.

(** C10: [write] hands exactly the bytes of the task's buffer to the file at
    its offset.  Its result is in [a0], the number of bytes or the negated error
    number of the filesystem; the offset moves by what was written; neither the
    memory of the task nor another saved register changes; and the blocks in use of
    the kernel's heap are those from before.  The arguments are as for [read], with
    a buffer that the task may read.  It panics only if every frame is in use, or if
    no free node of the kernel's heap is large enough for the bytes. *)
Theorem write_syscall_spec s me tf t r f fd buf bs L :
  calling s me tf t → io_args s tf SYS_WRITE fd buf (Z.of_nat (length bs)) → heap_ok (k_heap s) L →
  get_file fd (t_files t) = Some r → k_files s !! r = Some f → buf + Z.of_nat (length bs) ≤ 2 ^ 64 → bytes_at s t buf bs →
  (∀ j, 0 ≤ j < Z.of_nat (length bs) → can_read (space_of s t) (buf + j) = true) →
  (match vn_write (inode f) (offset f) bs (k_fs s) with
   | (Ok n, _) => 0 ≤ n < 2 ^ 64 - offset f ∧ 0 ≤ offset f | (Err _, _) => True | _ => False end) →
  match dispatch me tf s with
  | (Ok (tp, rest), s') => tp = me ∧ rest = None ∧ calling s' me tf t ∧
      (∃ v, wrote s r f bs s' v ∧ saved s' tf = <[9%nat := as_usize v]> (saved s tf)) ∧
      (∀ a, view (space_of s' t) a = view (space_of s t) a) ∧ heap_ok (k_heap s') L
  | (Panic, s') => full (fa (memory (k_sys s'))) ∨ no_room (Z.of_nat (length bs)) (k_heap s)
  | _ => False
  end.
Proof.
  intros Hc Hia Hh Hfd Hf Hov Hb Hr Hwr. rewrite (dispatch_number _ _ _ _ (ia_number _ _ _ _ _ _ Hia)).
  destruct (ia_count _ _ _ _ _ _ Hia) as [_ Hcnt]. destruct (ia_buf _ _ _ _ _ _ Hia) as [_ Hbuf].
  set (call := do_dispatch_syscall _ _ _ _ _ _ _).
  assert (Hcall : call s = (let! n := sys_write me fd buf (Z.of_nat (length bs)) in ret (as_isize n)) s)
    by exact (io_call_ok s tf _ fd buf _ (sys_write me) Hia).
  pose proof (sys_write_ok s me tf t fd r f buf bs L Hc Hfd Hf Hcnt Hh ltac:(lia) Hov Hb Hr) as Hs.
  specialize (Hs ltac:(destruct (vn_write _ _ _ _) as [[]]; naive_solver lia)). unfold bind, ret in Hcall.
  destruct (sys_write me fd buf (Z.of_nat (length bs)) s) as [[n|x| |] s1].
  - destruct Hs as (Hwrote & k & fs & fl & h & -> & Hh' & Hev).
    assert (Hret : calling (with_memory k (set_files fl (set_fs fs (set_heap h s)))) me tf t → _) by exact (finish_value s _ me tf t call _ Hcall).
    rewrite as_usize_as_isize in Hret.
    destruct (calling_evolves _ me tf t k _ (calling_sys s (set_files fl (set_fs fs (set_heap h s))) me tf t eq_refl Hc) Hev) as [Hc1 _].
    destruct (Hret Hc1) as (s' & -> & Hr'). split; [done|]. split; [done|]. by apply (write_returned s s' me tf t r f bs k fs fl h L n).
  - destruct Hs as (e & -> & Hwrote & k & fs & fl & h & -> & Hh' & Hev).
    destruct (calling_evolves _ me tf t k _ (calling_sys s (set_files fl (set_fs fs (set_heap h s))) me tf t eq_refl Hc) Hev) as [Hc1 _].
    destruct (finish_error s _ me tf t call _ Hcall Hc1) as (s' & -> & Hr'). split; [done|]. split; [done|].
    by apply (write_returned s s' me tf t r f bs k fs fl h L (- errno_code (vfs_to_errno e))).
  - unfold finish_syscall, bind, attempt. by rewrite Hcall.
  - done.
Qed.
End io.

(** ** Calls of the example *)

(** A file in memory that can be written. *)
Inductive Shelf := Book.
#[export] Instance shelf_vnode : VNode (list Z) Shelf := {|
  vn_open := λ _ _, fail VfsNotFound;
  vn_create := λ _ _, fail Fs;
  vn_read := λ _ off len, gets (λ bs, take (Z.to_nat len) (drop (Z.to_nat off) bs));
  vn_write := λ _ off bs fs, (Ok (Z.of_nat (length bs)), take (Z.to_nat off) fs ++ bs ++ drop (Z.to_nat off + length bs) fs);
  vn_sz := λ _, gets (λ bs, Z.of_nat (length bs));
|}.
#[export] Instance shelf_vnode_ok : VNodeOk (list Z) Shelf.
Proof.
  refine {| regular := λ s _, Z.of_nat (length s) < 2 ^ 32; content := λ s _, s; same_files := eq |}.
  - done.
  - by intros ? ? ? -> ->.
  - by intros s s' n <-.
  - done.
  - intros s n Hn. by exists s.
  - intros s n off len Hn Ho Hl. by exists s.
Defined.

Definition example_tf : Z := trap_frame example_parent.
Definition example_caller : Task := set_t_files [Some 0%nat] example_task.
Definition example_calling : Kernel (S := list Z) (N := Shelf) :=
  mkKernel (mkSys {[ 1 := example_caller ]} {[ 1 ]} [set_current 1 0 (setup_core 0 0)] 0 ∅ ∅ 0 example_mem)
    [10; 20; 30] [mkFile Book 1] ∅ 2 example_heap.

(** The example with the registers of a call. *)
Definition example_args (number a0 a1 a2 : Z) : Kernel (S := list Z) (N := Shelf) :=
  set_saved example_tf 16 number (set_saved example_tf 9 a0 (set_saved example_tf 10 a1 (set_saved example_tf 11 a2 example_calling))).

Lemma not_owned m k r p x : regions m = [r] → (λ l, ppn_address l.1) <$> leaf (mkSpace m k) (r_start r) = Some p → x ≠ p →
  x ∉ tables 3 (mem k) (root_pt m) → ¬ owns (mkSpace m k) x.
Proof.
  intros Hr Hl Hne Ht [Hx|(r' & e & n & Hr' & Hle & Hp)]; [done|]. cbn [mm] in Hr'. rewrite Hr in Hr'.
  apply list_elem_of_singleton in Hr' as ->. rewrite Hle in Hl. cbn [fmap option_fmap option_map fst] in Hl. congruence.
Qed.

Lemma example_not_owned : ¬ owns (mkSpace (mm example_user) example_mem) 0x80204000.
Proof.
  assert (Ht : tables 3 (mem example_mem) (root_pt (mm example_user)) = [0x80200000; 0x80202000; 0x80203000]) by (vm_compute; reflexivity).
  apply (not_owned _ _ (mkRegion 0x10000 0x11000 user_rw) 0x80201000); [vm_compute; reflexivity|vm_compute; reflexivity|lia|].
  rewrite Ht, !elem_of_cons, elem_of_nil. lia.
Qed.

Lemma example_calls {S N} (s : Kernel (S := S) (N := N)) t : tasks (k_sys s) !! 1 = Some t →
  (∃ c k, t_core t = Some c ∧ cores (k_sys s) !! c = Some k ∧ current k = 1) →
  t_mm t = mm example_user → memory (k_sys s) = example_mem → calling s 1 example_tf t.
Proof.
  intros Ht Hc Hmm Hm.
  assert (Hp : ∀ q, example_tf ≤ q < example_tf + TRAP_FRAME_SIZE → kernel_page q = 0x80204000).
  { intros q. unfold example_tf, kernel_page. cbn [trap_frame example_parent]. unfold KERNEL_DIRECT_MAPPING_BASE, TRAP_FRAME_SIZE.
    Z.div_mod_to_equations; lia. }
  split; [exact Ht|exact Hc| |reflexivity| | |]; unfold space_of; rewrite ?Hmm, ?Hm.
  - apply example_parent_space.
  - intros q Hq. rewrite (Hp q Hq). apply example_mem_spec. by left.
  - intros q Hq. rewrite (Hp q Hq). apply example_not_owned.
  - intros q Hq. apply example_mem_wide.
Qed.

Lemma example_calling_ok : calling example_calling 1 example_tf example_caller.
Proof.
  apply example_calls; [reflexivity| |reflexivity|reflexivity].
  exists 0%nat, (set_current 1 0 (setup_core 0 0)). split; [reflexivity|split; reflexivity].
Qed.

Lemma example_args_ok number a0 a1 a2 : calling (example_args number a0 a1 a2) 1 example_tf example_caller ∧
  saved (example_args number a0 a1 a2) example_tf =
    <[16%nat := number]> (<[9%nat := a0]> (<[10%nat := a1]> (<[11%nat := a2]> (saved example_calling example_tf)))) ∧
  (∀ a, view (space_of (example_args number a0 a1 a2) example_caller) a = view (space_of example_calling example_caller) a) ∧
  ∀ a, can_write (space_of (example_args number a0 a1 a2) example_caller) a = can_write (space_of example_calling example_caller) a.
Proof.
  destruct (calling_set_word _ _ _ _ 11 a2 example_calling_ok ltac:(lia)) as (H1 & S1 & V1 & C1).
  destruct (calling_set_word _ _ _ _ 10 a1 H1 ltac:(lia)) as (H2 & S2 & V2 & C2).
  destruct (calling_set_word _ _ _ _ 9 a0 H2 ltac:(lia)) as (H3 & S3 & V3 & C3).
  destruct (calling_set_word _ _ _ _ 16 number H3 ltac:(lia)) as (H4 & S4 & V4 & C4).
  split; [exact H4|]. split; [unfold example_args; by rewrite S4, S3, S2, S1|].
  split; intros a; unfold example_args; [by rewrite V4, V3, V2, V1|].
  destruct (C4 a) as (_ & -> & _), (C3 a) as (_ & -> & _), (C2 a) as (_ & -> & _), (C1 a) as (_ & -> & _). done.
Qed.

Lemma example_heap_ok : heap_ok example_heap {[0x1030 := 100]}.
Proof.
  exists 0x1000, 0x2000. split; [|reflexivity].
  assert (H0 : heap_inv 0x1000 0x2000 (put_header 0x1000 (mkHeader 0x1000 true None) (mkHeap 0x1000 0x2000 0x1000 ∅ ∅)) ∅)
    by (by apply inv_new).
  destruct (inv_alloc _ _ _ _ 100 4 H0) as [(p & h & E & Hi & _)|[E _]]; [unfold layout_fits; lia| |vm_compute in E; discriminate E].
  vm_compute in E. injection E as <- <-. exact Hi.
Qed.

Definition no_path (path : list Z) : M (list Z) VfsError (File Shelf) := fail VfsNotFound.


(** The byte at [0x10000] goes to the second of the file. *)
Lemma write_syscall_spec_witness : ∃ s',
  dispatch_syscall no_path no_path Book 0 1 example_tf (example_args SYS_WRITE 0 0x10000 1) = (Ok (1, None), s') ∧
  saved s' example_tf !! 9%nat = Some 1 ∧ k_fs s' = [10; 7; 30] ∧ k_files s' = [mkFile Book 2].
Proof.
  destruct (example_args_ok SYS_WRITE 0 0x10000 1) as (Hc & Hsv & Hv & Hw). set (s := example_args SYS_WRITE 0 0x10000 1) in *.
  assert (Hia : io_args s example_tf SYS_WRITE 0 0x10000 (Z.of_nat (length [7]))) by (split; vm_compute; repeat split; discriminate).
  assert (Hb : bytes_at s example_caller 0x10000 [7]).
  { intros [|j] b Hj; [|discriminate Hj]. injection Hj as <-. rewrite Hv. vm_compute. reflexivity. }
  assert (Hcr : ∀ j, 0 ≤ j < Z.of_nat (length [7]) → can_read (space_of s example_caller) (0x10000 + j) = true).
  { intros j Hj. assert (j = 0) as -> by (cbn [length] in Hj; lia). vm_compute. reflexivity. }
  pose proof (write_syscall_spec no_path no_path Book 0 s 1 example_tf example_caller 0 (mkFile Book 1) 0 0x10000 [7] _ Hc Hia example_heap_ok
    ltac:(vm_compute; reflexivity) ltac:(vm_compute; reflexivity) ltac:(vm_compute; discriminate) Hb Hcr ltac:(vm_compute; repeat split; discriminate)) as H.
  assert (Ho : (dispatch_syscall no_path no_path Book 0 1 example_tf s).1 = Ok (1, None)) by (vm_compute; reflexivity).
  destruct (dispatch_syscall no_path no_path Book 0 1 example_tf s) as [o s']. cbn [fst] in Ho. subst o.
  destruct H as (_ & _ & _ & (v & Hw' & Hs') & _). destruct Hw' as (-> & Hfs & Hfl). exists s'. split; [reflexivity|].
  split; [rewrite Hs'; apply list_lookup_insert_eq; unfold saved; rewrite words_at_length; lia|].
  split; [rewrite Hfs|rewrite Hfl]; vm_compute; reflexivity.
Defined.
