(* ===== verification/SyscallErr.v ===== *)
(** * System calls that are refused

    The calls whose registers or descriptors [kernel/src/syscall.rs] rejects
    before it does anything. *)

From S2P Require Import Prelude Errors Kmalloc Vfs Addr Sv39 FrameAllocator PageMeta PageTable PageMap PageFork MemMgr MemFault UserMem UserView ForkView KernelMap TaskSpace Elf ElfLoad InitStack InOrder Registers FileTable TaskPool Sched TaskNew TaskFork Syscall SyscallIO.

Section refused.
Context {S N : Type} `{HV : VNode S N} `{EC : ElfCrate} `{BF : Bitflags} {FB : FromBits} {MU : Mmu}.
Context (vfs_open vfs_create : list Z → M S VfsError (File N)) (console : N) (trap_resume_ptr : Z).

Abbreviation Kernel := (Kernel (S := S) (N := N)).
Implicit Types (s : Kernel) (t : Task).

(** What is wrong with a call of the task [t], if anything is. *)
Definition unless (b : bool) (e : Error) : option Error := if b then None else Some e.
Definition first_of (xs : list (option Error)) : option Error := foldr (λ x r, match x with Some e => Some e | None => r end) None xs.

Definition refusal s t (tf : Z) : option Error :=
  let number := arg s tf 7 in
  let u32 i := unless (arg s tf i <=? u32_MAX) InvalidArgs in
  let pointer i := unless (negb (arg s tf i =? 0)) InvalidArgs in
  let opened (_ : unit) := unless ((arg s tf 2 =? 0) || bool_decide (is_Some (get_file (arg s tf 0) (t_files t)))) NotFound in
  if number =? SYS_IOCTL then Some (EErrno ENoTty)
  else if number =? SYS_OPEN then
    first_of [pointer 1; u32 2; unless (bool_decide (is_Some (bf_from_bits open_flags_all (arg s tf 2)))) InvalidArgs]
  else if number =? SYS_CLOSE then
    first_of [u32 0; unless (bool_decide (is_Some (get_file (arg s tf 0) (t_files t)))) (EErrno EBadF)]
  else if number =? SYS_READ then first_of [u32 0; pointer 1; opened tt]
  else if number =? SYS_WRITE then first_of [u32 0; pointer 1; opened tt]
  else if number =? SYS_READV then first_of [u32 0; u32 2]
  else if number =? SYS_WRITEV then first_of [u32 0; u32 2]
  else if number =? SYS_PREADV then Some (EErrno ESPipe)
  else if number =? SYS_PWRITEV then Some (EErrno ESPipe)
  else if number =? SYS_EXIT then unless (arg s tf 0 <=? i8_MAX) InvalidArgs
  else if number =? SYS_SLEEP_MS then None
  else if number =? SYS_GETTID then None
  else if number =? SYS_BRK then None
  else if number =? SYS_CLONE then unless ((arg s tf 0 =? SIGCHLD) && (arg s tf 1 =? 0)) InvalidArgs
  else if number =? SYS_WAIT then
    first_of [unless (arg s tf 0 <=? isize_MAX) InvalidArgs; u32 2; unless (bool_decide (t_children t ≠ [])) (EErrno EChild)]
  else if number =? SYS_SHUTDOWN then None
  else if number =? SYS_SPAWN then pointer 1
  else None.

(** ** The arguments *)

Lemma get_arg_ok tf i s : get_arg tf i s = (Ok (arg s tf i), s).
Proof. done. Qed.

Lemma get_arg_as_cases max tf i s : get_arg_as max tf i s =
  if arg s tf i <=? max then (Ok (arg s tf i), s) else (Err (Failed InvalidArgs), s).
Proof. unfold get_arg_as, bind. rewrite get_arg_ok. by destruct (arg s tf i <=? max). Qed.

Lemma user_buf_cases s a : lift (S := Kernel) (ok_or (user_buf_new a) (Failed InvalidArgs)) s =
  if negb (a =? 0) then (Ok a, s) else (Err (Failed InvalidArgs), s).
Proof. unfold user_buf_new. by destruct (a =? 0). Qed.

Lemma current_file_none s me tf t fd : calling s me tf t → get_file fd (t_files t) = None →
  current_file me fd s = (Err (Failed NotFound), s).
Proof.
  intros Hc Hr. unfold current_file. rewrite (bind_ok _ _ _ _ _ (current_task_ok _ _ _ _ Hc)).
  unfold bind, failing, sys_op, zoom, task_of. rewrite (ca_task _ _ _ _ Hc). cbn [unwrap].
  replace (set_sys (k_sys s) s) with s by (by destruct s). unfold lift. by rewrite Hr.
Qed.

(** A descriptor that is not open is closed in vain. *)
Lemma close_file_none fd (files : list (option nat)) : get_file fd files = None → close_file fd files = (None, files).
Proof.
  unfold get_file, close_file. destruct (files !! Z.to_nat fd) as [[r|]|] eqn:Hf; intros; [done| |done].
  by rewrite list_insert_id.
Qed.

Lemma sys_close_none s me tf t fd : calling s me tf t → get_file fd (t_files t) = None →
  sys_close me fd s = (Err (Failed (EErrno EBadF)), s).
Proof.
  intros Hc Hr. unfold sys_close. rewrite (bind_ok _ _ _ _ _ (current_task_ok _ _ _ _ Hc)).
  unfold bind at 1, failing at 1, sys_op at 1, zoom at 1, task_of. rewrite (ca_task _ _ _ _ Hc). cbn [unwrap].
  replace (set_sys (k_sys s) s) with s by (by destruct s). rewrite (close_file_none _ _ Hr).
  unfold bind at 1, failing, sys_op, zoom, on_task, modify.
  replace (alter (set_t_files (t_files t)) me (tasks (k_sys s))) with (tasks (k_sys s)).
  - by destruct s as [[]].
  - symmetry. apply alter_id. intros t' Ht'. rewrite (ca_task _ _ _ _ Hc) in Ht'. injection Ht' as <-. by destruct t.
Qed.

Lemma sys_wait_childless s me tf t out : calling s me tf t → t_children t = [] →
  sys_wait me out s = (Err (Failed (EErrno EChild)), s).
Proof.
  intros Hc Hch. unfold sys_wait. rewrite (bind_ok _ _ _ _ _ (current_task_ok _ _ _ _ Hc)).
  unfold bind at 1, failing, sys_op, zoom, wait, bind at 1, task_of. rewrite (ca_task _ _ _ _ Hc). cbn [unwrap].
  rewrite decide_True by done. unfold fail. by destruct s.
Qed.
(** One argument after the other. *)
Ltac next_arg := first
  [ rewrite (bind_ok _ _ _ _ _ (get_arg_ok _ _ _))
  | unfold bind at 1; rewrite get_arg_as_cases
  | unfold bind at 1; rewrite user_buf_cases ];
  try match goal with
  | |- context [unless ?b _] => destruct b; cbn [unless first_of foldr]; [|by intros [= <-]]
  end.

Lemma refused_io s me tf t e (call : Z → Z → Z → M Kernel Stop Z) : calling s me tf t →
  (∀ fd buf count, count ≠ 0 → get_file fd (t_files t) = None → call fd buf count s = (Err (Failed NotFound), s)) →
  first_of [unless (arg s tf 0 <=? u32_MAX) InvalidArgs; unless (negb (arg s tf 1 =? 0)) InvalidArgs;
    unless ((arg s tf 2 =? 0) || bool_decide (is_Some (get_file (arg s tf 0) (t_files t)))) NotFound] = Some e →
  io_call tf call s = (Err (Failed e), s).
Proof.
  intros Hc Hcall. unfold io_call, first_of. cbn [foldr]. next_arg. next_arg. next_arg. next_arg.
  destruct (Z.eqb_spec (arg s tf 2) 0); cbn [orb unless]; [done|]. case_bool_decide as Hf; cbn [unless]; [done|]. intros [= <-].
  unfold bind. by rewrite Hcall by (done || by destruct (get_file _ _); [destruct Hf|]).
Qed.

Lemma refusal_err s me tf t e : calling s me tf t → refusal s t tf = Some e →
  do_dispatch_syscall vfs_open vfs_create console trap_resume_ptr me (arg s tf 7) tf s = (Err (Failed e), s).
Proof.
  intros Hc. unfold do_dispatch_syscall, refusal, first_of. cbv zeta. cbn [foldr].
  destruct (arg s tf 7 =? SYS_IOCTL); [by intros [= <-]|].
  destruct (arg s tf 7 =? SYS_OPEN).
  { next_arg. next_arg. next_arg. unfold bind at 1, sys_open. case_bool_decide as Hb; cbn [unless]; [done|]. intros [= <-].
    unfold bind at 1, lift. destruct (bf_from_bits open_flags_all _); [by destruct Hb|done]. }
  destruct (arg s tf 7 =? SYS_CLOSE).
  { next_arg. case_bool_decide as Hb; cbn [unless]; [done|]. intros [= <-]. unfold bind.
    by rewrite (sys_close_none s me tf t) by (done || by destruct (get_file _ _); [destruct Hb|]). }
  assert (Hnone : ∀ fd, get_file fd (t_files t) = None → current_file me fd s = (Err (Failed NotFound), s))
    by (intros fd; by apply (current_file_none s me tf)).
  destruct (arg s tf 7 =? SYS_READ).
  { apply (refused_io s me tf t e (sys_read me) Hc). intros fd buf count Hn Hf. unfold sys_read.
    rewrite (proj2 (Z.eqb_neq _ _)) by done. unfold bind at 1. by rewrite Hnone. }
  destruct (arg s tf 7 =? SYS_WRITE).
  { apply (refused_io s me tf t e (sys_write me) Hc). intros fd buf count Hn Hf. unfold sys_write.
    rewrite (proj2 (Z.eqb_neq _ _)) by done. unfold bind at 1. by rewrite Hnone. }
  destruct (arg s tf 7 =? SYS_READV); [next_arg; next_arg; next_arg; done|].
  destruct (arg s tf 7 =? SYS_WRITEV); [next_arg; next_arg; next_arg; done|].
  destruct (arg s tf 7 =? SYS_PREADV); [by intros [= <-]|].
  destruct (arg s tf 7 =? SYS_PWRITEV); [by intros [= <-]|].
  destruct (arg s tf 7 =? SYS_EXIT); [next_arg; done|].
  destruct (arg s tf 7 =? SYS_SLEEP_MS); [done|]. destruct (arg s tf 7 =? SYS_GETTID); [done|].
  destruct (arg s tf 7 =? SYS_BRK); [done|].
  destruct (arg s tf 7 =? SYS_CLONE).
  { rewrite !(bind_ok _ _ _ _ _ (get_arg_ok _ _ _)). destruct (arg s tf 0 =? SIGCHLD), (arg s tf 1 =? 0); cbn [andb unless]; by intros [= <-]. }
  destruct (arg s tf 7 =? SYS_WAIT).
  { next_arg. next_arg. next_arg. case_bool_decide as Hb; cbn [unless]; [done|]. intros [= <-]. unfold bind.
    rewrite (sys_wait_childless s me tf t) by (done || (apply dec_stable; exact Hb)). done. }
  destruct (arg s tf 7 =? SYS_SHUTDOWN); [done|]. destruct (arg s tf 7 =? SYS_SPAWN); [next_arg; next_arg; next_arg; done|done].
Qed.

(** C36: a call with a bad register, descriptor or number of this list gives the
    task the negated error number in [a0], and changes nothing else: the kernel
    afterwards is the kernel before with one word of its memory written, that of
    [a0] in the trap frame, so no other register, no memory of the task, no frame
    and no page table is touched.  An exit code is
    bad unless it is from 0 to 127, so [exit(-1)] returns, and so is the pid -1
    of a wait for any child. *)
Theorem refused_calls_change_nothing s me tf t e : calling s me tf t → refusal s t tf = Some e →
  let v := as_usize (- errno_code (errno_of_error e)) in
  let s' := set_saved tf 9 v s in
  dispatch_syscall vfs_open vfs_create console trap_resume_ptr me tf s = (Ok (me, None), s') ∧ returned s s' me tf v t.
Proof.
  intros Hc He v s'. rewrite (dispatch_number _ _ _ _ s me tf _ eq_refl).
  destruct (finish_error s s me tf t _ e (refusal_err s me tf t e Hc He) Hc) as (s1 & E & Hr).
  by pose proof (re_kernel _ _ _ _ _ _ Hr) as ->.
Qed.
End refused.

(** [exit(-1)] is refused with [EINVAL]. *)
Lemma refused_calls_change_nothing_witness :
  let s := example_args SYS_EXIT (2 ^ 64 - 1) 0 0 in
  let s' := set_saved example_tf 9 (2 ^ 64 - 22) s in
  dispatch_syscall no_path no_path Book 0 1 example_tf s = (Ok (1, None), s') ∧ returned s s' 1 example_tf (2 ^ 64 - 22) example_caller.
Proof.
  apply (refused_calls_change_nothing no_path no_path Book 0 (example_args SYS_EXIT (2 ^ 64 - 1) 0 0) 1 example_tf example_caller InvalidArgs
    (proj1 (example_args_ok _ _ _ _))). vm_compute. reflexivity.
Defined.
