(* ===== verification/SchedInv.v ===== *)
(** * No task runs twice

    The invariant of the scheduler: every task is in at most one place (running
    on a core, in a runqueue, asleep, or blocked on an interrupt or a child),
    its state says which, and it knows the core it is on.  The handlers keep it
    when each runs to its end before the next starts; [irq_wakeup_race] shows
    that they need that. *)

From S2P Require Import Prelude Errors Sv39 PageTable MemMgr FileTable TaskPool Sched.

(** ** The places of the tasks *)

Definition core_places (k : Core) : list (Z * TaskState) :=
  (if current k =? idle k then [] else [(current k, Running)]) ++
  ((λ p, (p, Ready)) <$> runqueue k) ++ ((λ n, (n.2, Sleeping)) <$> sleeping k).

Definition blocked_places (s : Sys) : list (Z * TaskState) :=
  (λ p, (p, Blocked)) <$>
    ((map_to_list (irq_wait_queue s) ≫= λ q, q.2) ++ elements (waiting_tasks s)).

Definition places (s : Sys) : list (Z * TaskState) := (cores s ≫= core_places) ++ blocked_places s.

(** [l] names every task once, none of them idle, with the state it is in. *)
Definition ok_places (ts : gmap Z Task) (idles : list Z) (l : list (Z * TaskState)) : Prop :=
  NoDup (idles ++ l.*1) ∧ ∀ p st, (p, st) ∈ l → t_state <$> ts !! p = Some st.

(** The tasks of a core have their pointer to it. *)
Definition core_tasks (k : Core) : list Z :=
  idle k :: current k :: runqueue k ++ (sleeping k).*2.
Definition homes (ts : gmap Z Task) (ks : list Core) : Prop :=
  ∀ c k p, ks !! c = Some k → p ∈ core_tasks k → t_core <$> ts !! p = Some (Some c).

(** States of tasks that can still run, and of tasks that cannot. *)
Definition live (st : TaskState) : bool :=
  match st with Zombie | Exited => false | _ => true end.
Definition stands (ts : gmap Z Task) (p : Z) (P : TaskState → Prop) : Prop :=
  ∃ t, ts !! p = Some t ∧ P (t_state t).

(** Idle tasks run or are ready; the tasks left for the reaper are dead. *)
Definition idle_ok (ts : gmap Z Task) (idles : list Z) : Prop :=
  ∀ p, p ∈ idles → stands ts p (λ st, st = Ready ∨ st = Running).
Definition dead_ok (ts : gmap Z Task) (ks : list Core) : Prop :=
  ∀ c k p, ks !! c = Some k → p ∈ cleanup_queue k → stands ts p (λ st, live st = false).

Record inv (s : Sys) : Prop := mkInv {
  inv_places : ok_places (tasks s) (idle <$> cores s) (places s);
  inv_homes : homes (tasks s) (cores s);
  inv_idle : idle_ok (tasks s) (idle <$> cores s);
  inv_dead : dead_ok (tasks s) (cores s);
  inv_last : (last_rq_hart_idx s < length (cores s))%nat;
}.

(** [s] with core [c]'s current task taken out, as [schedule] finds it when
    that task has blocked, gone to sleep or exited. *)
Definition vacate (k : Core) : Core := set_current (idle k) (last_entrance k) k.
Definition vacated (c : nat) (s : Sys) : Sys := set_cores (alter vacate c (cores s)) s.

(** ** Lemmas on places *)

Lemma ok_places_perm ts ids ids' l l' :
  ids ≡ₚ ids' → l ≡ₚ l' → ok_places ts ids l → ok_places ts ids' l'.
Proof.
  intros Hi Hl [Hnd Hst]. split; [by rewrite <-Hi, <-Hl|]. intros p st. rewrite <-Hl. apply Hst.
Qed.

(** Changing a task that is nowhere, or not changing states. *)
Lemma ok_places_other ts ids l p f :
  p ∉ l.*1 → ok_places ts ids l → ok_places (alter f p ts) ids l.
Proof.
  intros Hp [Hnd Hst]. split; [done|]. intros q st Hq. rewrite lookup_alter_ne; [by apply Hst|].
  intros ->. destruct Hp. by apply (list_elem_of_fmap_2 fst) in Hq.
Qed.
Lemma ok_places_keep ts ids l p f :
  (∀ t, t_state (f t) = t_state t) → ok_places ts ids l → ok_places (alter f p ts) ids l.
Proof.
  intros Hf [Hnd Hst]. split; [done|]. intros q st Hq. rewrite <-(Hst q st Hq).
  destruct (decide (p = q)) as [->|]; [|by rewrite lookup_alter_ne].
  rewrite lookup_alter_eq. destruct (ts !! q); simpl; [by rewrite Hf|done].
Qed.

(** Leaving a place, and going to one. *)
Lemma ok_places_drop ts ids p st l : ok_places ts ids ((p, st) :: l) →
  ok_places ts ids l ∧ p ∉ l.*1 ∧ p ∉ ids ∧ is_Some (ts !! p).
Proof.
  intros [Hnd Hst]. cbn in Hnd. rewrite NoDup_app in Hnd. destruct Hnd as (Hi & Hd & Hl).
  apply NoDup_cons in Hl as [Hp Hl]. split_and!; [split|done|set_solver|].
  - apply NoDup_app. set_solver.
  - set_solver.
  - specialize (Hst p st ltac:(left)). destruct (ts !! p); [by eexists|done].
Qed.
Lemma ok_places_add ts ids p st l : ok_places ts ids l → p ∉ l.*1 → p ∉ ids → is_Some (ts !! p) →
  ok_places (alter (set_t_state st) p ts) ids ((p, st) :: l).
Proof.
  intros Hok Hl Hi [t Ht]. destruct (ok_places_other ts ids l p (set_t_state st)) as [Hnd Hst]; [done..|].
  split.
  - cbn. rewrite NoDup_app in Hnd |- *. destruct Hnd as (? & ? & ?). split_and!; [done|set_solver|].
    by constructor.
  - intros q st' [[= -> ->]|Hq]%elem_of_cons; [|by apply Hst]. by rewrite lookup_alter_eq, Ht.
Qed.
Lemma ok_places_move ts ids p st st' l :
  ok_places ts ids ((p, st) :: l) → ok_places (alter (set_t_state st') p ts) ids ((p, st') :: l).
Proof. intros (? & ? & ? & ?)%ok_places_drop. by apply ok_places_add. Qed.

(** A task in a place is live. *)
Definition live_places (l : list (Z * TaskState)) : Prop := ∀ p st, (p, st) ∈ l → live st = true.

Lemma core_places_live k : live_places (core_places k).
Proof.
  intros p st. unfold core_places. rewrite !elem_of_app, !list_elem_of_fmap.
  intros [H|[(? & [= -> ->] & _)|(? & [= -> ->] & _)]]; [|done..].
  destruct (_ =? _); [by apply elem_of_nil in H|]. by apply list_elem_of_singleton in H as [= -> ->].
Qed.
Lemma places_live s : live_places (places s).
Proof.
  intros p st. unfold places. rewrite elem_of_app, list_elem_of_bind.
  intros [(k & H & _)|H]; [by eapply core_places_live|].
  by apply list_elem_of_fmap in H as (? & [= -> ->] & _).
Qed.

Lemma place_stands s p : inv s → p ∈ (places s).*1 → stands (tasks s) p (λ st, live st = true).
Proof.
  intros Hi ((q & st) & -> & Hin)%list_elem_of_fmap. pose proof (inv_places _ Hi) as [_ Hst].
  specialize (Hst _ _ Hin). cbn. destruct (tasks s !! q) as [t|] eqn:Ht; [|done].
  injection Hst as Hst. exists t. split; [done|]. rewrite Hst. by eapply places_live.
Qed.

(** Changing a task that stands somewhere else. *)
Lemma stands_alter ts p q f P : p ≠ q → stands ts q P → stands (alter f p ts) q P.
Proof. intros Hne (t & Ht & HP). exists t. by rewrite lookup_alter_ne. Qed.
Lemma stands_keep ts p q f P : (∀ t, P (t_state t) → P (t_state (f t))) →
  stands ts q P → stands (alter f p ts) q P.
Proof.
  intros Hf (t & Ht & HP). destruct (decide (p = q)) as [->|].
  - exists (f t). rewrite lookup_alter_eq, Ht. auto.
  - exists t. by rewrite lookup_alter_ne.
Qed.
Lemma stands_disjoint ts p P Q : stands ts p P → stands ts p Q → ∃ st, P st ∧ Q st.
Proof. intros (t & Ht & HP) (t' & Ht' & HQ). exists (t_state t). split; [done|]. congruence. Qed.

Lemma dead_alter_live ts ks p f :
  stands ts p (λ st, live st = true) → dead_ok ts ks → dead_ok (alter f p ts) ks.
Proof.
  intros Hp Hd c k q Hk Hq. apply stands_alter; [|by eapply Hd]. intros ->.
  destruct (stands_disjoint _ _ _ _ Hp (Hd _ _ _ Hk Hq)) as (st & ? & ?). congruence.
Qed.
Lemma dead_alter_keep ts ks p f : (∀ t, live (t_state t) = false → live (t_state (f t)) = false) →
  dead_ok ts ks → dead_ok (alter f p ts) ks.
Proof. intros Hf Hd c k q Hk Hq. apply stands_keep; [done|]. by eapply Hd. Qed.
Lemma dead_core ts ks c k k' : dead_ok ts ks → ks !! c = Some k →
  cleanup_queue k' = cleanup_queue k → dead_ok ts (<[c := k']> ks).
Proof.
  intros Hd Hk He d j p. rewrite list_lookup_insert_Some.
  intros [(-> & <- & _)|[Hne Hj]] Hp; [|by eapply Hd]. rewrite He in Hp. by eapply Hd.
Qed.

Lemma idle_alter_run ts ids p f : (∀ t, t_state (f t) = Running) → idle_ok ts ids →
  idle_ok (alter f p ts) ids.
Proof. intros Hf Hi q Hq. apply stands_keep; [|by apply Hi]. intros t _. right. apply Hf. Qed.
Lemma idle_alter_other ts ids p f : p ∉ ids → idle_ok ts ids → idle_ok (alter f p ts) ids.
Proof. intros Hp Hi q Hq. apply stands_alter; [by intros ->|]. by apply Hi. Qed.
Lemma idle_alter_keep ts ids p f : (∀ t, t_state (f t) = t_state t) → idle_ok ts ids →
  idle_ok (alter f p ts) ids.
Proof. intros Hf Hi q Hq. apply stands_keep; [|by apply Hi]. intros t. by rewrite Hf. Qed.
Lemma idle_stands ts ids p : idle_ok ts ids → p ∈ ids → stands ts p (λ st, live st = true).
Proof.
  intros Hi (t & Ht & Hst)%Hi. exists t. split; [done|]. by destruct Hst as [-> | ->].
Qed.

(** ** Lemmas on cores *)

Lemma alter_insert {A} (f : A → A) i x (l : list A) : l !! i = Some x → alter f i l = <[i := f x]> l.
Proof.
  intros Hi. rewrite list_insert_alter. apply list_alter_ext; [|done]. congruence.
Qed.

Lemma alter_inserted {A} (f : A → A) i x (l : list A) : alter f i (<[i := x]> l) = <[i := f x]> l.
Proof. by rewrite !list_insert_alter, list_alter_alter_eq. Qed.

(** What one core contributes, and the rest. *)
Lemma cores_split {B} (f : Core → list B) ks c k : ks !! c = Some k →
  ∃ rest, ks ≫= f ≡ₚ f k ++ rest ∧ ∀ k', <[c := k']> ks ≫= f ≡ₚ f k' ++ rest.
Proof.
  intros Hk. exists ((take c ks ≫= f) ++ (drop (S c) ks ≫= f)).
  pose proof (lookup_lt_Some _ _ _ Hk) as Hlt. split.
  - rewrite <-(take_drop_middle ks c k Hk) at 1. rewrite bind_app. cbn. solve_Permutation.
  - intros k'. rewrite insert_take_drop by done. rewrite bind_app. cbn. solve_Permutation.
Qed.

Lemma idles_insert (ks : list Core) c k k' : ks !! c = Some k → idle k' = idle k →
  idle <$> <[c := k']> ks = idle <$> ks.
Proof.
  intros Hk He. rewrite list_fmap_insert, He. apply list_insert_id.
  by rewrite list_lookup_fmap, Hk.
Qed.

(** Changes that keep the pointers to the cores. *)
Lemma homes_alter ts ks p f :
  (∀ t, t_core (f t) = t_core t) → homes ts ks → homes (alter f p ts) ks.
Proof.
  intros Hf Hh c k q Hk Hq. rewrite <-(Hh c k q Hk Hq).
  destruct (decide (p = q)) as [->|]; [|by rewrite lookup_alter_ne].
  rewrite lookup_alter_eq. destruct (ts !! q); simpl; [by rewrite Hf|done].
Qed.
Lemma homes_core ts ks c k k' : homes ts ks → ks !! c = Some k →
  (∀ p, p ∈ core_tasks k' → t_core <$> ts !! p = Some (Some c)) → homes ts (<[c := k']> ks).
Proof.
  intros Hh Hk Hk' d j p. rewrite list_lookup_insert_Some.
  intros [(-> & <- & _)|[Hne Hj]] Hp; [by apply Hk'|]. by apply (Hh d j).
Qed.
Lemma homes_exists ts ks c k p : homes ts ks → ks !! c = Some k → p ∈ core_tasks k → ∃ t, ts !! p = Some t.
Proof. intros Hh Hk Hp. specialize (Hh c k p Hk Hp). destruct (ts !! p); [by eexists|done]. Qed.

(** ** [schedule] *)

Lemma on_core_ok c f s k : cores s !! c = Some k →
  on_core c f s = (Ok tt, set_cores (<[c := f k]> (cores s)) s).
Proof. intros Hk. unfold on_core, modify. by rewrite (alter_insert f c k). Qed.

Lemma load_core_ctx_ok me c s : t_core <$> tasks s !! me = Some (Some c) →
  load_core_ctx me s = (Ok c, s).
Proof.
  intros H. unfold load_core_ctx, task_of, bind, lift. destruct (tasks s !! me) as [t|]; [|done].
  injection H as H. cbn. by rewrite H.
Qed.

(** The runqueue of a core whose places are right has no stale entry. *)
Lemma pop_ready_ok ts ids l rq : ok_places ts ids l → (∀ p, p ∈ rq → (p, Ready) ∈ l) →
  pop_ready ts rq = (head rq, tail rq).
Proof.
  intros [_ Hst] Hrq. destruct rq as [|p rq]; [done|]. cbn.
  rewrite (Hst p Ready) by (apply Hrq; left). by rewrite bool_decide_true.
Qed.

Lemma places_core s c k x : cores s !! c = Some k → x ∈ core_places k → x ∈ places s.
Proof.
  intros Hk Hx. apply elem_of_app. left. apply list_elem_of_bind. exists k. split; [done|].
  by eapply list_elem_of_lookup_2.
Qed.

Lemma runqueue_place k p : p ∈ runqueue k → (p, Ready) ∈ core_places k.
Proof. intros Hp. unfold core_places. set_solver. Qed.

Lemma inv_pop s c k : inv s → cores s !! c = Some k →
  pop_ready (tasks s) (runqueue k) = (head (runqueue k), tail (runqueue k)).
Proof.
  intros Hi Hk. eapply pop_ready_ok; [apply Hi|]. intros p Hp. by eapply places_core, runqueue_place.
Qed.

Lemma runqueue_ready s c k p : inv s → cores s !! c = Some k → p ∈ runqueue k →
  t_state <$> tasks s !! p = Some Ready.
Proof. intros Hi Hk Hp. apply Hi. by eapply places_core, runqueue_place. Qed.

Lemma vacated_core c s k : cores s !! c = Some k → cores (vacated c s) !! c = Some (vacate k).
Proof. intros Hk. cbn. by rewrite list_lookup_alter_eq, Hk. Qed.

(** The kernel after core [c] changed to [k'] and the tasks to [ts]. *)
Definition stepped (ts : gmap Z Task) (c : nat) (k' : Core) (s : Sys) : Sys :=
  set_tasks ts (set_cores (<[c := k']> (cores s)) s).

Lemma places_split s c k : cores s !! c = Some k →
  ∃ R, places s ≡ₚ core_places k ++ R ∧ ∀ k' ts, places (stepped ts c k' s) ≡ₚ core_places k' ++ R.
Proof.
  intros Hk. destruct (cores_split core_places _ _ _ Hk) as (rest & H1 & H2).
  exists (rest ++ blocked_places s). unfold places. split.
  - by rewrite H1, app_assoc.
  - intros k' ts. cbn. by rewrite H2, app_assoc.
Qed.

(** A step of one core keeps the invariant if its own places are right. *)
Lemma inv_stepped s c k k' ts R : inv s → cores s !! c = Some k → idle k' = idle k →
  (∀ k' ts, places (stepped ts c k' s) ≡ₚ core_places k' ++ R) →
  ok_places ts (idle <$> cores s) (core_places k' ++ R) → homes ts (cores s) →
  idle_ok ts (idle <$> cores s) → dead_ok ts (cores s) → cleanup_queue k' = cleanup_queue k →
  (∀ p, p ∈ core_tasks k' → p ∈ core_tasks k) → inv (stepped ts c k' s).
Proof.
  intros [_ _ _ _ Hl] Hk Hid HR Hok Hh Hio Hd Hcl Hsub. split; cbn.
  - eapply ok_places_perm; [|symmetry; apply HR|done]. by rewrite (idles_insert _ _ _ _ Hk).
  - eapply homes_core; [done..|]. intros p Hp. eapply Hh; [done|]. by apply Hsub.
  - by rewrite (idles_insert _ _ _ _ Hk).
  - by eapply dead_core.
  - by rewrite length_insert.
Qed.

(** [schedule] when the current task cannot go on. *)
Lemma schedule_leave s c k me t : cores s !! c = Some k → me = current k →
  t_core <$> tasks s !! me = Some (Some c) → tasks s !! me = Some t →
  t_state t ≠ Ready → t_state t ≠ Running → inv (vacated c s) →
  schedule me s =
    let p := default (idle k) (head (runqueue k)) in
    (Ok p, stepped (alter (set_t_state Running) p (tasks s)) c
             (set_current p (now s) (set_runqueue (tail (runqueue k)) k)) s).
Proof.
  intros Hk -> Hh Ht H1 H2 Hi. unfold schedule.
  rewrite (bind_ok _ _ _ _ _ (load_core_ctx_ok _ _ _ Hh)).
  unfold bind at 1, core_of. rewrite Hk. cbn [unwrap]. unfold bind at 1, gets at 1. cbn [id].
  pose proof (inv_pop _ _ _ Hi (vacated_core _ _ _ Hk)) as Hpop.
  change (pop_ready (tasks s) (runqueue k) = (head (runqueue k), tail (runqueue k))) in Hpop.
  rewrite Hpop, (bind_ok _ _ _ _ _ (on_core_ok _ _ _ _ Hk)).
  pose proof (λ p, runqueue_ready _ _ _ p Hi (vacated_core _ _ _ Hk)) as Hrq.
  unfold stepped. destruct s as [ts po ks lr iw wt nw m]. cbn in *.
  unfold bind, modify, set_task_state, on_task, on_core, task_of, gets, ret.
  destruct (runqueue k) as [|p rq]; cbn.
  - rewrite Ht. cbn. rewrite !bool_decide_eq_false_2 by done. cbn. by rewrite alter_inserted.
  - assert (p ≠ current k) as Hne. { intros ->. specialize (Hrq _ ltac:(left)). rewrite Ht in Hrq. by injection Hrq. }
    rewrite lookup_alter_ne, Ht by done. cbn. rewrite !bool_decide_eq_false_2, !andb_false_r by done.
    cbn. by rewrite alter_inserted.
Qed.

(** The hart of core [c] runs [tp]. *)
Definition runs (c : nat) (tp : Z) (s : Sys) : Prop :=
  ∃ k, cores s !! c = Some k ∧ current k = tp.

Lemma runs_stepped ts c k s : (c < length (cores s))%nat → runs c (current k) (stepped ts c k s).
Proof. intros Hc. exists k. split; [|done]. by apply list_lookup_insert_eq. Qed.

Lemma core_places_eq k : core_places k =
  (if current k =? idle k then [] else [(current k, Running)]) ++
  ((λ p, (p, Ready)) <$> runqueue k) ++ ((λ n, (n.2, Sleeping)) <$> sleeping k).
Proof. done. Qed.

Lemma current_running s c k : inv s → cores s !! c = Some k → current k ≠ idle k →
  t_state <$> tasks s !! current k = Some Running.
Proof.
  intros Hi Hk Hne. apply (inv_places _ Hi). eapply places_core; [done|].
  rewrite core_places_eq, (proj2 (Z.eqb_neq _ _) Hne). left.
Qed.

Lemma place_not_idle s p : inv s → p ∈ (places s).*1 → p ∉ idle <$> cores s.
Proof.
  intros Hi Hp Hid. destruct (inv_places _ Hi) as [Hnd _].
  apply NoDup_app in Hnd as (_ & Hd & _). by apply (Hd p Hid).
Qed.

Lemma current_place s c k : cores s !! c = Some k → current k ≠ idle k → current k ∈ (places s).*1.
Proof.
  intros Hk Hne. apply (list_elem_of_fmap_2 fst _ (current k, Running)).
  eapply places_core; [done|]. rewrite core_places_eq, (proj2 (Z.eqb_neq _ _) Hne). left.
Qed.

Lemma runqueue_live s c k p : inv s → cores s !! c = Some k → p ∈ runqueue k →
  stands (tasks s) p (λ st, live st = true).
Proof.
  intros Hi Hk Hp%runqueue_place. apply place_stands; [done|].
  apply (list_elem_of_fmap_2 fst _ (p, Ready)). by eapply places_core.
Qed.

Lemma runqueue_not_idle s c k p : inv s → cores s !! c = Some k → p ∈ runqueue k →
  p ∉ idle <$> cores s.
Proof.
  intros Hi Hk Hp%runqueue_place. apply place_not_idle; [done|].
  apply (list_elem_of_fmap_2 fst _ (p, Ready)). by eapply places_core.
Qed.

Lemma idle_of s c k : cores s !! c = Some k → idle k ∈ idle <$> cores s.
Proof. intros Hk. by eapply list_elem_of_fmap_2, list_elem_of_lookup_2. Qed.

Lemma current_live s c k : inv s → cores s !! c = Some k →
  stands (tasks s) (current k) (λ st, live st = true).
Proof.
  intros Hi Hk. destruct (decide (current k = idle k)) as [->|Hne].
  - by eapply idle_stands, idle_of; [apply Hi|].
  - by eapply place_stands, current_place.
Qed.

Lemma idle_nowhere ts ids l p : ok_places ts ids l → p ∈ ids → p ∉ l.*1.
Proof. intros [Hnd _] Hi. apply NoDup_app in Hnd as (_ & Hd & _). by apply Hd. Qed.

Lemma stepped_vacated ts c k s : stepped ts c k (vacated c s) = stepped ts c k s.
Proof.
  unfold stepped, vacated, set_cores. cbn. by rewrite !list_insert_alter, list_alter_alter_eq.
Qed.

(** A core with no current task goes on to the head of its queue, or idles. *)
Lemma inv_next s c k n : inv s → cores s !! c = Some k → current k = idle k →
  let p := default (idle k) (head (runqueue k)) in
  inv (stepped (alter (set_t_state Running) p (tasks s)) c
         (set_current p n (set_runqueue (tail (runqueue k)) k)) s).
Proof.
  intros Hi Hk Hc. cbv zeta. destruct (places_split s c k Hk) as (R & H1 & H2).
  assert (ok_places (tasks s) (idle <$> cores s) (core_places k ++ R)) as Hok.
  { eapply ok_places_perm; [done|apply H1|apply Hi]. }
  assert (stands (tasks s) (default (idle k) (head (runqueue k))) (λ st, live st = true)) as Hlv.
  { destruct (runqueue k) eqn:Hq; cbn; [by eapply idle_stands, idle_of; [apply Hi|]|].
    eapply runqueue_live; [done..|]. rewrite Hq. left. }
  eapply inv_stepped; [done..| | | | |done|].
  - rewrite core_places_eq in *. cbn. rewrite Hc, Z.eqb_refl in Hok.
    destruct (runqueue k) as [|p q] eqn:Hq; cbn in *.
    + rewrite Z.eqb_refl. apply ok_places_other; [|done].
      eapply idle_nowhere; [done|]. by eapply idle_of.
    + assert (p ≠ idle k) as Hne.
      { intros ->. eapply (runqueue_not_idle s c k); [done..| |by eapply idle_of]. rewrite Hq. left. }
      rewrite (proj2 (Z.eqb_neq _ _) Hne). by eapply ok_places_move.
  - apply homes_alter; [done|]. apply Hi.
  - apply idle_alter_run; [done|]. apply Hi.
  - apply dead_alter_live; [done|]. apply Hi.
  - intros p. unfold core_tasks. cbn. rewrite Hc. destruct (runqueue k); set_solver.
Qed.

Lemma schedule_leave_inv s c k me t : cores s !! c = Some k → me = current k →
  t_core <$> tasks s !! me = Some (Some c) → tasks s !! me = Some t →
  t_state t ≠ Ready → t_state t ≠ Running → inv (vacated c s) →
  ∃ tp s', schedule me s = (Ok tp, s') ∧ inv s' ∧ runs c tp s'.
Proof.
  intros Hk Hme Hh Ht H1 H2 Hi. rewrite (schedule_leave s c k me t) by done. do 2 eexists.
  split; [done|]. cbv zeta. split.
  - pose proof (inv_next _ c _ (now s) Hi (vacated_core _ _ _ Hk) eq_refl) as Hn.
    cbv zeta in Hn. rewrite stepped_vacated in Hn. apply Hn.
  - apply runs_stepped. by eapply lookup_lt_Some.
Qed.

(** [schedule] when the current task can go on: it is put back in the queue,
    unless it is the idle task. *)
Lemma schedule_preempt s c k me p q : inv s → cores s !! c = Some k → me = current k →
  current k ≠ idle k → runqueue k = p :: q →
  schedule me s =
    (Ok p, stepped (alter (set_t_state Ready) me (alter (set_t_state Running) p (tasks s))) c
             (set_current p (now s) (set_runqueue (q ++ [me]) k)) s).
Proof.
  intros Hi Hk -> Hne Hq. unfold schedule.
  assert (t_core <$> tasks s !! current k = Some (Some c)) as Hh by (eapply Hi; [done|right; left]).
  rewrite (bind_ok _ _ _ _ _ (load_core_ctx_ok _ _ _ Hh)).
  unfold bind at 1, core_of. rewrite Hk. cbn [unwrap]. unfold bind at 1, gets at 1. cbn [id].
  rewrite (inv_pop _ _ _ Hi Hk), (bind_ok _ _ _ _ _ (on_core_ok _ _ _ _ Hk)), Hq.
  pose proof (current_running s c k Hi Hk Hne) as Hrun.
  assert (p ≠ current k) as Hpc.
  { intros ->. pose proof (runqueue_ready s c k (current k) Hi Hk) as Hr.
    rewrite Hrun, Hq in Hr. specialize (Hr ltac:(left)). done. }
  destruct (tasks s !! current k) as [t|] eqn:Ht; [|done]. injection Hrun as Hrun.
  unfold stepped. destruct s as [ts po ks lr iw wt nw m]. cbn in *.
  unfold bind, modify, set_task_state, on_task, on_core, task_of, gets, ret. cbn.
  rewrite lookup_alter_ne, Ht by done. cbn. rewrite (proj2 (Z.eqb_neq _ _) Hne), Hrun, bool_decide_true by done.
  cbn. by rewrite !alter_inserted.
Qed.

(** With an empty queue the current task goes on. *)
Lemma schedule_alone s c k me t : inv s → cores s !! c = Some k → me = current k →
  runqueue k = [] → tasks s !! me = Some t →
  schedule me s =
    if bool_decide (t_state t = Ready) || bool_decide (t_state t = Running)
    then (Ok me, stepped (alter (set_t_state Running) me (tasks s)) c (set_runqueue [] k) s)
    else (Ok (idle k), stepped (alter (set_t_state Running) (idle k) (tasks s)) c
                         (set_current (idle k) (now s) (set_runqueue [] k)) s).
Proof.
  intros Hi Hk -> Hq Ht. unfold schedule.
  assert (t_core <$> tasks s !! current k = Some (Some c)) as Hh by (eapply Hi; [done|right; left]).
  rewrite (bind_ok _ _ _ _ _ (load_core_ctx_ok _ _ _ Hh)).
  unfold bind at 1, core_of. rewrite Hk. cbn [unwrap]. unfold bind at 1, gets at 1. cbn [id].
  rewrite (inv_pop _ _ _ Hi Hk), (bind_ok _ _ _ _ _ (on_core_ok _ _ _ _ Hk)), Hq.
  unfold stepped. destruct s as [ts po ks lr iw wt nw m]. cbn in *.
  unfold bind, modify, set_task_state, on_task, on_core, task_of, gets, ret. cbn.
  rewrite Ht. cbn. destruct (_ || _); [done|]. cbn. by rewrite alter_inserted.
Qed.

(** The idle task steps aside for the head of the queue. *)
Lemma schedule_from_idle s c k me p q : inv s → cores s !! c = Some k → me = current k →
  current k = idle k → runqueue k = p :: q →
  schedule me s = (Ok p, stepped (alter (set_t_state Running) p (tasks s)) c
                           (set_current p (now s) (set_runqueue q k)) s).
Proof.
  intros Hi Hk -> He Hq. unfold schedule.
  assert (t_core <$> tasks s !! current k = Some (Some c)) as Hh by (eapply Hi; [done|right; left]).
  rewrite (bind_ok _ _ _ _ _ (load_core_ctx_ok _ _ _ Hh)).
  unfold bind at 1, core_of. rewrite Hk. cbn [unwrap]. unfold bind at 1, gets at 1. cbn [id].
  rewrite (inv_pop _ _ _ Hi Hk), (bind_ok _ _ _ _ _ (on_core_ok _ _ _ _ Hk)), Hq.
  assert (p ≠ current k) as Hne.
  { rewrite He. intros ->. eapply (runqueue_not_idle s c k); [done..| |by eapply idle_of].
    rewrite Hq. left. }
  destruct (homes_exists _ _ c k (current k) (inv_homes _ Hi) Hk) as [t Ht]; [right; left|].
  unfold stepped. destruct s as [ts po ks lr iw wt nw m]. cbn in *.
  unfold bind, modify, set_task_state, on_task, on_core, task_of, gets, ret. cbn.
  rewrite lookup_alter_ne, Ht by done. cbn. rewrite He, Z.eqb_refl. cbn. by rewrite alter_inserted.
Qed.

(** The two remaining changes of places. *)
Lemma inv_alone s c k : inv s → cores s !! c = Some k → runqueue k = [] →
  inv (stepped (alter (set_t_state Running) (current k) (tasks s)) c (set_runqueue [] k) s).
Proof.
  intros Hi Hk Hq. destruct (places_split s c k Hk) as (R & H1 & H2).
  assert (ok_places (tasks s) (idle <$> cores s) (core_places k ++ R)) as Hok.
  { eapply ok_places_perm; [done|apply H1|apply Hi]. }
  eapply inv_stepped; [done..| | | | |done|].
  - rewrite core_places_eq in *. cbn. rewrite Hq in Hok.
    destruct (Z.eqb_spec (current k) (idle k)) as [He|];
      [|cbn in *; by eapply ok_places_move].
    apply ok_places_other; [|done]. rewrite He. eapply idle_nowhere; [done|]. by eapply idle_of.
  - apply homes_alter; [done|]. apply Hi.
  - apply idle_alter_run; [done|]. apply Hi.
  - apply dead_alter_live; [by eapply current_live|]. apply Hi.
  - intros p. unfold core_tasks. cbn. by rewrite Hq.
Qed.
Lemma inv_preempt s c k p q n : inv s → cores s !! c = Some k → current k ≠ idle k →
  runqueue k = p :: q →
  inv (stepped (alter (set_t_state Ready) (current k) (alter (set_t_state Running) p (tasks s))) c
         (set_current p n (set_runqueue (q ++ [current k]) k)) s).
Proof.
  intros Hi Hk Hne Hq. destruct (places_split s c k Hk) as (R & H1 & H2).
  assert (ok_places (tasks s) (idle <$> cores s) (core_places k ++ R)) as Hok.
  { eapply ok_places_perm; [done|apply H1|apply Hi]. }
  assert (p ≠ idle k) as Hpi.
  { intros ->. eapply (runqueue_not_idle s c k); [done..| |by eapply idle_of]. rewrite Hq. left. }
  eapply inv_stepped; [done..| | | | |done|].
  - rewrite core_places_eq in *. cbn. rewrite (proj2 (Z.eqb_neq _ _) Hne), Hq in Hok.
    rewrite (proj2 (Z.eqb_neq _ _) Hpi). cbn in *.
    eapply ok_places_perm in Hok; [|done|apply Permutation_swap].
    apply (ok_places_move _ _ _ _ Running) in Hok.
    eapply ok_places_perm in Hok; [|done|apply Permutation_swap].
    apply (ok_places_move _ _ _ _ Ready) in Hok.
    eapply ok_places_perm; [done| |exact Hok]. rewrite fmap_app. cbn. solve_Permutation.
  - do 2 (apply homes_alter; [done|]). apply Hi.
  - apply idle_alter_other; [by eapply place_not_idle, current_place|].
    apply idle_alter_run; [done|]. apply Hi.
  - apply dead_alter_live; [apply stands_keep; [done|by eapply current_live]|].
    apply dead_alter_live; [|apply Hi]. eapply runqueue_live; [done..|]. rewrite Hq. left.
  - intros x. unfold core_tasks. cbn. rewrite Hq. set_solver.
Qed.

(** [schedule] from a running task, or from the idle task. *)
Lemma schedule_stay_inv s c k me : inv s → cores s !! c = Some k → me = current k →
  ∃ tp s', schedule me s = (Ok tp, s') ∧ inv s' ∧ runs c tp s'.
Proof.
  intros Hi Hk ->. pose proof (lookup_lt_Some _ _ _ Hk) as Hc.
  destruct (homes_exists _ _ c k (current k) (inv_homes _ Hi) Hk) as [t Ht]; [right; left|].
  pose proof (inv_next s c k (now s) Hi Hk) as Hnext.
  destruct (runqueue k) as [|p q] eqn:Hq; [|destruct (decide (current k = idle k)) as [He|Hne]].
  - rewrite (schedule_alone s c k (current k) t) by done. destruct (_ || _) eqn:Hst.
    + do 2 eexists. split; [done|]. split; [by apply inv_alone|].
      by apply (runs_stepped _ c (set_runqueue [] k)).
    + assert (current k = idle k) as He.
      { destruct (decide (current k = idle k)) as [|Hne]; [done|].
        pose proof (current_running s c k Hi Hk Hne) as Hr.
        rewrite Ht in Hr. injection Hr as Hr. rewrite Hr in Hst. by rewrite orb_true_r in Hst. }
      do 2 eexists. split; [done|]. split; [by apply Hnext|]. by apply (runs_stepped _ _ (set_current _ _ _)).
  - rewrite (schedule_from_idle s c k (current k) p q) by done.
    do 2 eexists. split; [done|]. split; [by apply Hnext|]. by apply (runs_stepped _ _ (set_current _ _ _)).
  - rewrite (schedule_preempt s c k (current k) p q) by done.
    do 2 eexists. split; [done|]. split; [by apply inv_preempt|].
    by apply (runs_stepped _ _ (set_current _ _ _)).
Qed.
