(* ===== verification/SchedSteps.v ===== *)
(** * The handlers keep the scheduler's invariant

    One lemma for each handler of [Sched], the step relation of a kernel whose
    handlers run one at a time, and what the invariant says of every state it
    reaches. *)

From S2P Require Import Prelude Errors Sv39 PageTable MemMgr FileTable TaskPool Sched SchedInv.

(** ** Changes of tasks *)

Lemma inv_keep s p f : (∀ t, t_state (f t) = t_state t) → (∀ t, t_core (f t) = t_core t) →
  inv s → inv (set_tasks (alter f p (tasks s)) s).
Proof.
  intros Hs Hc [H1 H2 H3 H4 H5]. split; cbn; [|by apply homes_alter| | |done].
  - by apply ok_places_keep.
  - by apply idle_alter_keep.
  - apply dead_alter_keep; [|done]. intros t. by rewrite Hs.
Qed.

(** A task that is in no place may take any state, short of a dead one coming
    back to life. *)
Lemma inv_nowhere s p st : p ∉ (places s).*1 → p ∉ idle <$> cores s →
  stands (tasks s) p (λ st, live st = true) ∨ live st = false →
  inv s → inv (set_tasks (alter (set_t_state st) p (tasks s)) s).
Proof.
  intros Hp Hid Hst [H1 H2 H3 H4 H5]. split; cbn; [|by apply homes_alter| | |done].
  - by apply ok_places_other.
  - by apply idle_alter_other.
  - destruct Hst as [Hst|Hst]; [by apply dead_alter_live|]. by apply dead_alter_keep.
Qed.

(** A dead task is in no place, and is not idle. *)
Lemma dead_nowhere s p : inv s → stands (tasks s) p (λ st, live st = false) →
  p ∉ (places s).*1 ∧ p ∉ idle <$> cores s.
Proof.
  intros Hi Hd. split; intros Hp.
  - destruct (stands_disjoint _ _ _ _ Hd (place_stands _ _ Hi Hp)) as (st & ? & ?). congruence.
  - pose proof (idle_stands _ _ _ (inv_idle _ Hi) Hp) as Hl.
    destruct (stands_disjoint _ _ _ _ Hd Hl) as (st & ? & ?). congruence.
Qed.

(** ** Enqueueing *)

Definition next_rq (s : Sys) : nat :=
  if (length (cores s) <=? last_rq_hart_idx s + 1)%nat then 0%nat else (last_rq_hart_idx s + 1)%nat.
Definition push (p : Z) (k : Core) : Core := set_runqueue (runqueue k ++ [p]) k.
Definition queued (p : Z) (s : Sys) : Sys :=
  set_last_rq (next_rq s) (set_cores (alter (push p) (next_rq s) (cores s))
    (set_tasks (alter (set_t_core (Some (next_rq s))) p (tasks s)) s)).

Lemma next_rq_lt s : inv s → (next_rq s < length (cores s))%nat.
Proof.
  intros [_ _ _ _ Hl]. unfold next_rq.
  destruct (Nat.leb_spec (length (cores s)) (last_rq_hart_idx s + 1)); lia.
Qed.

Lemma enqueue_ok p s : (next_rq s < length (cores s))%nat → enqueue_new_task p s = (Ok tt, queued p s).
Proof.
  intros [k Hk]%lookup_lt_is_Some_2. unfold enqueue_new_task, queued, bind, gets, modify, core_of.
  cbv beta zeta. cbn [id]. fold (next_rq s). cbn [cores set_last_rq]. rewrite Hk.
  cbn [unwrap]. unfold on_task, on_core, modify, set_cores, set_tasks, set_last_rq.
  cbn [tasks pool cores last_rq_hart_idx irq_wait_queue waiting_tasks now memory]. do 2 f_equal.
  apply list_alter_ext; [|done]. intros k'. rewrite Hk. by intros [= <-].
Qed.

Lemma core_places_fst k : (core_places k).*1 =
  (if current k =? idle k then [] else [current k]) ++ runqueue k ++ (sleeping k).*2.
Proof.
  unfold core_places. rewrite !fmap_app, <-!list_fmap_compose. f_equal; [by destruct (_ =? _)|].
  f_equal. cbn. rewrite <-(list_fmap_id (runqueue k)) at 2. by apply list_fmap_ext.
Qed.

Lemma core_tasks_places s c k p : cores s !! c = Some k → p ∈ core_tasks k →
  p ∈ idle <$> cores s ∨ p ∈ (places s).*1.
Proof.
  intros Hk Hp. destruct (decide (p ∈ idle <$> cores s)) as [|Hid]; [by left|right].
  pose proof (idle_of _ _ _ Hk).
  assert (p ∈ (core_places k).*1) as (x & -> & Hx)%list_elem_of_fmap.
  { rewrite core_places_fst. unfold core_tasks in Hp.
    rewrite !elem_of_cons, elem_of_app in Hp. rewrite !elem_of_app.
    destruct Hp as [->|[->|Hp]]; [done| |by auto]. left.
    destruct (Z.eqb_spec (current k) (idle k)) as [He|]; [congruence|]. left. }
  apply list_elem_of_fmap_2. by eapply places_core.
Qed.

Lemma inv_queued s p t : inv s → p ∉ (places s).*1 → p ∉ idle <$> cores s →
  tasks s !! p = Some t → t_state t = Ready → inv (queued p s).
Proof.
  intros Hi Hp Hid Ht Hst. pose proof (next_rq_lt _ Hi) as Hlt.
  destruct (lookup_lt_is_Some_2 _ _ Hlt) as [k Hk].
  destruct (places_split s _ k Hk) as (R & H1 & H2).
  assert (∀ c k q, cores s !! c = Some k → q ∈ core_tasks k → q ≠ p) as Hne.
  { intros c k' q Hk' Hq ->. by destruct (core_tasks_places _ _ _ _ Hk' Hq). }
  assert (ok_places (tasks s) (idle <$> cores s) ((p, Ready) :: core_places k ++ R)) as Hok.
  { assert (ok_places (tasks s) (idle <$> cores s) (core_places k ++ R)) as Hok.
    { eapply ok_places_perm; [done|apply H1|apply Hi]. }
    pose proof (ok_places_add _ _ p Ready _ Hok) as Ha. destruct Ha as [Hnd _].
    { by rewrite <-H1. } { done. } { by eexists. }
    split; [done|]. intros q st [[= -> ->]|Hq]%elem_of_cons; [by rewrite Ht; cbn; rewrite Hst|].
    by apply Hok. }
  split; cbn; rewrite ?(alter_insert _ _ _ _ Hk).
  - apply ok_places_keep; [done|]. eapply ok_places_perm; [| |exact Hok].
    + by rewrite (idles_insert _ _ k).
    + etrans; [|symmetry; apply (H2 (push p k) ∅)]. unfold push, core_places. cbn.
      rewrite fmap_app. cbn. solve_Permutation.
  - intros c k' q. rewrite list_lookup_insert_Some. intros [(<- & <- & _)|[Hcn Hk']] Hq.
    + assert (q = p ∨ q ∈ core_tasks k) as [-> | Hq'] by (unfold core_tasks in *; cbn in *; set_solver).
      * by rewrite lookup_alter_eq, Ht.
      * rewrite lookup_alter_ne; [by eapply (inv_homes _ Hi)|]. symmetry. by eapply Hne.
    + rewrite lookup_alter_ne; [by eapply (inv_homes _ Hi)|]. symmetry. by eapply Hne.
  - rewrite (idles_insert _ _ k) by done. apply idle_alter_keep; [done|]. apply Hi.
  - eapply dead_core; [|done..]. apply dead_alter_keep; [done|]. apply Hi.
  - by rewrite length_insert.
Qed.

(** Waking a task up. *)
Definition woken (p : Z) (s : Sys) : Sys :=
  queued p (set_tasks (alter (set_t_state Ready) p (tasks s)) s).

Lemma wake_ok p s : (next_rq s < length (cores s))%nat →
  (set_task_state p Ready ;;; enqueue_new_task p) s = (Ok tt, woken p s).
Proof. intros Hlt. unfold bind, set_task_state, on_task, modify. by rewrite enqueue_ok. Qed.

Lemma inv_woken s p : inv s → p ∉ (places s).*1 → p ∉ idle <$> cores s →
  stands (tasks s) p (λ st, live st = true) → inv (woken p s).
Proof.
  intros Hi Hp Hid Hl. pose proof Hl as (t & Ht & _).
  eapply inv_queued; [by apply inv_nowhere; auto|done..| |]; cbn.
  - by rewrite lookup_alter_eq, Ht.
  - done.
Qed.

(** ** Interrupts *)

(** A queue of [irq_wait_queue], and the rest of the blocked tasks. *)
Lemma irq_split (m : gmap Z (list Z)) irq : ∃ rest,
  (map_to_list m ≫= λ q, q.2) ≡ₚ default [] (m !! irq) ++ rest ∧
  ∀ q', (map_to_list (<[irq := q']> m) ≫= λ q, q.2) ≡ₚ q' ++ rest.
Proof.
  exists (map_to_list (delete irq m) ≫= λ q, q.2). split.
  - destruct (m !! irq) as [q|] eqn:Hq; cbn; [|by rewrite delete_id].
    by rewrite <-(map_to_list_delete m irq q Hq).
  - intros q'. rewrite <-insert_delete_eq, map_to_list_insert by apply lookup_delete_eq. done.
Qed.

(** Taking the first task off a queue of blocked tasks. *)
Lemma inv_irq_pop s irq p q : inv s → irq_wait_queue s !! irq = Some (p :: q) →
  let s' := set_irq_wait (<[irq := q]> (irq_wait_queue s)) s in
  inv s' ∧ p ∉ (places s').*1 ∧ p ∉ idle <$> cores s' ∧
  stands (tasks s') p (λ st, live st = true).
Proof.
  intros [H1 H2 H3 H4 H5] Hq s'. destruct (irq_split (irq_wait_queue s) irq) as (rest & Hr & Hr').
  rewrite Hq in Hr. cbn in Hr.
  assert (places s ≡ₚ (p, Blocked) :: places s') as Hp.
  { unfold places, blocked_places. cbn. rewrite Hr, Hr'. cbn. solve_Permutation. }
  eapply ok_places_perm in H1; [|done|exact Hp].
  pose proof H1 as [_ Hst]. specialize (Hst p Blocked ltac:(left)).
  apply ok_places_drop in H1 as (H1 & Hn & Hi & _). split_and!; [by split|done..|]. cbn.
  destruct (tasks s !! p) as [t|] eqn:Ht; [|done]. injection Hst as Hst.
  exists t. by rewrite Hst.
Qed.

Lemma on_external_irq_inv s irq : inv s → ∃ s', on_external_irq irq s = (Ok tt, s') ∧ inv s'.
Proof.
  intros Hi. unfold on_external_irq. unfold bind at 1, gets. cbn [id].
  destruct (irq_wait_queue s !! irq) as [[|p q]|] eqn:Hq; [by exists s| |by exists s].
  destruct (inv_irq_pop s irq p q Hi Hq) as (Hi' & Hp & Hid & Hl).
  unfold bind at 1, modify. destruct (upgrade s p); [|by eexists].
  rewrite wake_ok by by apply next_rq_lt. eexists. split; [done|]. by apply inv_woken.
Qed.

(** ** Leaving a core *)

Lemma vacated_stepped c s k : cores s !! c = Some k → vacated c s = stepped (tasks s) c (vacate k) s.
Proof. intros Hk. unfold vacated. by rewrite (alter_insert _ _ _ _ Hk). Qed.

(** Taking the current task off its core leaves it in no place. *)
Lemma inv_vacated s c k : inv s → cores s !! c = Some k → current k ≠ idle k →
  inv (vacated c s) ∧ current k ∉ (places (vacated c s)).*1 ∧
  current k ∉ idle <$> cores (vacated c s).
Proof.
  intros Hi Hk Hne. pose proof (place_not_idle _ _ Hi (current_place _ _ _ Hk Hne)) as Hid.
  destruct (places_split s c k Hk) as (R & H1 & H2). rewrite (vacated_stepped _ _ _ Hk).
  assert (core_places k = (current k, Running) :: core_places (vacate k)) as Hcp.
  { unfold core_places. cbn. by rewrite (proj2 (Z.eqb_neq _ _) Hne), Z.eqb_refl. }
  assert (ok_places (tasks s) (idle <$> cores s) ((current k, Running) :: core_places (vacate k) ++ R)) as Hok.
  { eapply ok_places_perm; [done| |apply Hi]. by rewrite H1, Hcp. }
  apply ok_places_drop in Hok as (Hok & Hn & _ & _). split_and!.
  - eapply inv_stepped; [done..|apply Hi|apply Hi|apply Hi|done|].
    intros p. unfold core_tasks. cbn. set_solver.
  - by rewrite H2.
  - cbn. by rewrite (idles_insert _ _ k).
Qed.

(** A change of a core that does not touch the current task. *)
Lemma vacate_alter f c d (l : list Core) : (∀ k, vacate (f k) = f (vacate k)) →
  alter vacate c (alter f d l) = alter f d (alter vacate c l).
Proof.
  intros Hf. destruct (decide (c = d)) as [->|]; [|by apply list_alter_alter_ne].
  rewrite !list_alter_alter_eq. apply list_alter_ext; [|done].
  intros k _. apply Hf.
Qed.

(** The current task of core [c] takes state [st] and is about to leave. *)
Definition nowhere (p : Z) (s : Sys) : Prop := p ∉ (places s).*1 ∧ p ∉ idle <$> cores s.
Definition leaving (c : nat) (p : Z) (st : TaskState) (s : Sys) : Prop :=
  inv (vacated c s) ∧ ∃ k t, cores s !! c = Some k ∧ current k = p ∧
    tasks s !! p = Some t ∧ t_state t = st ∧ t_core t = Some c.

Lemma leave s c k st : inv s → cores s !! c = Some k → current k ≠ idle k →
  let s' := set_tasks (alter (set_t_state st) (current k) (tasks s)) s in
  leaving c (current k) st s' ∧ nowhere (current k) (vacated c s').
Proof.
  intros Hi Hk Hne. destruct (inv_vacated s c k Hi Hk Hne) as (Hv & Hp & Hid).
  destruct (homes_exists _ _ c k (current k) (inv_homes _ Hi) Hk) as [t Ht]; [right; left|].
  assert (t_core <$> tasks s !! current k = Some (Some c)) as Hh by (eapply Hi; [done|right; left]).
  split; [split|done].
  - apply (inv_nowhere (vacated c s) (current k) st); [done..| |done].
    left. exact (current_live s c k Hi Hk).
  - exists k, (set_t_state st t). cbn. rewrite lookup_alter_eq, Ht. rewrite Ht in Hh.
    injection Hh as Hh. by split_and!.
Qed.

(** The last step of a task that leaves. *)
Lemma leaving_schedule c p st s : leaving c p st s → st ≠ Ready → st ≠ Running →
  ∃ tp s', schedule p s = (Ok tp, s') ∧ inv s' ∧ runs c tp s'.
Proof.
  intros (Hi & k & t & Hk & <- & Ht & <- & Hc) H1 H2.
  eapply schedule_leave_inv; [done..| |done|done|done|done]. rewrite Ht. cbn. by rewrite Hc.
Qed.

(** One more blocked task. *)
Lemma inv_add_blocked s s' p t : inv s → p ∉ (places s).*1 → p ∉ idle <$> cores s →
  tasks s !! p = Some t → t_state t = Blocked →
  tasks s' = tasks s → cores s' = cores s → last_rq_hart_idx s' = last_rq_hart_idx s →
  blocked_places s' ≡ₚ (p, Blocked) :: blocked_places s → inv s'.
Proof.
  intros Hi Hp Hid Ht Hst Hts Hcs Hl Hb. destruct Hi as [H1 H2 H3 H4 H5].
  split; rewrite ?Hts, ?Hcs, ?Hl; [|done..].
  assert (places s' ≡ₚ (p, Blocked) :: places s) as Hpl.
  { unfold places. rewrite Hcs, Hb. solve_Permutation. }
  eapply ok_places_perm; [done|symmetry; exact Hpl|].
  pose proof (ok_places_add _ _ p Blocked _ H1 Hp Hid (mk_is_Some _ _ Ht)) as [Hnd _].
  split; [done|]. intros q st [[= -> ->]|Hq]%elem_of_cons; [by rewrite Ht; cbn; rewrite Hst|].
  by apply H1.
Qed.

(** The start of every handler. *)
Lemma current_home s c k : inv s → cores s !! c = Some k → load_core_ctx (current k) s = (Ok c, s).
Proof. intros Hi Hk. apply load_core_ctx_ok. eapply Hi; [done|right; left]. Qed.
Lemma core_of_ok s c k : cores s !! c = Some k → core_of c s = (Ok k, s).
Proof. intros Hk. unfold core_of. by rewrite Hk. Qed.

(** The current task blocks on an interrupt. *)
Lemma block_on_external_irq_inv s c k irq : inv s → cores s !! c = Some k → current k ≠ idle k →
  ∃ tp s', block_on_external_irq (current k) irq s = (Ok tp, s') ∧ inv s' ∧ runs c tp s'.
Proof.
  intros Hi Hk Hne. unfold block_on_external_irq, block_irq_enqueue, bind at 1.
  rewrite (bind_ok _ _ _ _ _ (current_home _ _ _ Hi Hk)), (bind_ok _ _ _ _ _ (core_of_ok _ _ _ Hk)).
  unfold bind, set_task_state, on_task, modify.
  destruct (leave s c k Blocked Hi Hk Hne) as ((Hv & k' & t & Hk' & Hc & Ht & Hst & Hh) & Hp & Hid).
  set (s1 := set_tasks _ s) in *. eapply (leaving_schedule c (current k) Blocked); [|done..].
  split; [|by exists k', t].
  destruct (irq_split (irq_wait_queue s) irq) as (rest & Hr & Hr').
  eapply (inv_add_blocked (vacated c s1) _ (current k) t); [done..|].
  unfold blocked_places. cbn. rewrite Hr, Hr', !fmap_app. cbn. solve_Permutation.
Qed.

(** ** Sleeping *)

Lemma sleep_insert_perm n l : sleep_insert n l ≡ₚ n :: l.
Proof.
  induction l as [|x l IH]; cbn; [done|]. destruct (n.1 <? x.1); [done|].
  rewrite IH. apply Permutation_swap.
Qed.

(** One more sleeping task on a core. *)
Lemma inv_add_sleeper s c k p w t : inv s → cores s !! c = Some k → nowhere p s →
  tasks s !! p = Some t → t_state t = Sleeping → t_core t = Some c →
  inv (set_cores (alter (λ k, set_sleeping (sleep_insert (w, p) (sleeping k)) k) c (cores s)) s).
Proof.
  intros Hi Hk [Hp Hid] Ht Hst Hc. rewrite (alter_insert _ _ _ _ Hk).
  destruct (places_split s c k Hk) as (R & H1 & H2). pose proof Hi as [P1 P2 P3 P4 P5].
  pose proof (sleep_insert_perm (w, p) (sleeping k)) as Hperm.
  set (k' := set_sleeping _ k). split; cbn.
  - eapply (ok_places_perm _ (idle <$> cores s) _ ((p, Sleeping) :: places s)).
    + by rewrite (idles_insert _ _ k).
    + etrans; [|symmetry; apply (H2 k' ∅)]. rewrite H1. unfold core_places. cbn.
      rewrite Hperm. cbn. solve_Permutation.
    + pose proof (ok_places_add _ _ p Sleeping _ P1 Hp Hid (mk_is_Some _ _ Ht)) as [Hnd _].
      split; [done|]. intros q st [[= -> ->]|Hq]%elem_of_cons; [by rewrite Ht; cbn; rewrite Hst|].
      by apply P1.
  - eapply homes_core; [done..|]. intros q Hq.
    assert (q = p ∨ q ∈ core_tasks k) as [-> | Hq'].
    { unfold core_tasks in *. cbn in Hq. rewrite Hperm in Hq. cbn in Hq. set_solver. }
    + rewrite Ht. cbn. by rewrite Hc.
    + by eapply P2.
  - by rewrite (idles_insert _ _ k).
  - by eapply dead_core.
  - by rewrite length_insert.
Qed.

(** Going to sleep, when the wake-up time can be computed. *)
Lemma sleep_current_task_inv s c k ms w : inv s → cores s !! c = Some k → current k ≠ idle k →
  wake_time (now s) ms = Ok w →
  ∃ tp s', sleep_current_task (current k) ms s = (Ok tp, s') ∧ inv s' ∧ runs c tp s'.
Proof.
  intros Hi Hk Hne Hw. unfold sleep_current_task.
  rewrite (bind_ok _ _ _ _ _ (current_home _ _ _ Hi Hk)), (bind_ok _ _ _ _ _ (core_of_ok _ _ _ Hk)).
  unfold bind, set_task_state, on_task, on_core, modify, gets, lift. cbn [now set_tasks]. rewrite Hw.
  destruct (leave s c k Sleeping Hi Hk Hne) as ((Hv & k' & t & Hk' & Hc & Ht & Hst & Hh) & Hn).
  set (s1 := set_tasks _ s) in *. set (p := current k) in *.
  set (s2 := set_tasks (alter (set_t_wake_up_at w) p (tasks s1)) s1).
  assert (inv (vacated c s2)) as Hv2 by by apply (inv_keep (vacated c s1)).
  assert (tasks s2 !! p = Some (set_t_wake_up_at w t)) as Ht2.
  { cbn. cbn in Ht. by rewrite lookup_alter_eq, Ht. }
  eapply (leaving_schedule c p Sleeping); [|done..]. split.
  - pose proof (inv_add_sleeper (vacated c s2) c (vacate k) p w (set_t_wake_up_at w t) Hv2
      (vacated_core c s2 k Hk) Hn Ht2 Hst Hh) as Ha.
    unfold vacated in Ha |- *. cbn [cores set_cores] in Ha |- *.
    rewrite vacate_alter by done. exact Ha.
  - exists (set_sleeping (sleep_insert (w, p) (sleeping k)) k), (set_t_wake_up_at w t).
    split_and!; [|done|exact Ht2|done..]. cbn. by rewrite list_lookup_alter_eq, Hk.
Qed.

(** ** Exiting *)

Lemma leaving_keep c p st f s : (∀ t, t_state (f t) = t_state t) → (∀ t, t_core (f t) = t_core t) →
  leaving c p st s → leaving c p st (set_tasks (alter f p (tasks s)) s).
Proof.
  intros Hs Hc (Hv & k & t & Hk & Hp & Ht & Hst & Hh). split; [by apply (inv_keep (vacated c s))|].
  exists k, (f t). cbn. rewrite lookup_alter_eq, Ht, Hs, Hc. by split_and!.
Qed.

(** One blocked parent fewer. *)
Lemma inv_waiting_pop s p : inv s → p ∈ waiting_tasks s →
  let s' := set_waiting (waiting_tasks s ∖ {[p]}) s in
  inv s' ∧ nowhere p s' ∧ ∃ t, tasks s !! p = Some t ∧ t_state t = Blocked.
Proof.
  intros [H1 H2 H3 H4 H5] Hp s'.
  assert (places s ≡ₚ (p, Blocked) :: places s') as Hpl.
  { unfold places, blocked_places. cbn. rewrite (union_difference_L {[p]} (waiting_tasks s)) at 1 by set_solver.
    rewrite elements_disj_union, elements_singleton by set_solver. rewrite !fmap_app. cbn.
    solve_Permutation. }
  eapply ok_places_perm in H1; [|done|exact Hpl].
  pose proof H1 as [_ Hst]. specialize (Hst p Blocked ltac:(left)).
  apply ok_places_drop in H1 as (H1 & Hn & Hi & _). split_and!; [by split|by split|].
  destruct (tasks s !! p) as [t|] eqn:Ht; [|done]. injection Hst as Hst. by exists t.
Qed.

Lemma woken_vacated c p s : woken p (vacated c s) = vacated c (woken p s).
Proof.
  unfold woken, queued, vacated, next_rq, set_cores, set_tasks, set_last_rq. cbn.
  rewrite length_alter, vacate_alter by done. done.
Qed.

Lemma leaving_wake c p parent st s : leaving c p st s → st ≠ Blocked → parent ∈ waiting_tasks s →
  leaving c p st (woken parent (set_waiting (waiting_tasks s ∖ {[parent]}) s)).
Proof.
  intros (Hv & k & t & Hk & Hp & Ht & Hst & Hh) Hne Hw.
  destruct (inv_waiting_pop (vacated c s) parent Hv Hw) as (Hv' & [Hn Hid] & tp & Htp & Hb).
  assert (parent ≠ p) as Hpp. { intros ->. cbn in Htp. congruence. }
  set (s1 := set_waiting _ s). split.
  - rewrite <-woken_vacated. apply inv_woken; [done..|]. exists tp. by rewrite Hb.
  - cbn. destruct (decide (next_rq s1 = c)) as [He|Hc].
    + exists (push parent k), t. rewrite lookup_alter_ne, lookup_alter_ne by done.
      split_and!; [|done..]. change (next_rq _) with (next_rq s1). rewrite He.
      by rewrite list_lookup_alter_eq, Hk.
    + exists k, t. rewrite lookup_alter_ne, lookup_alter_ne by done.
      split_and!; [|done..]. change (next_rq _) with (next_rq s1). by rewrite list_lookup_alter_ne.
Qed.

(** One more task for the reaper. *)
Definition push_cleanup (p : Z) (k : Core) : Core := set_cleanup_queue (cleanup_queue k ++ [p]) k.

Lemma inv_push_cleanup s c k p : inv s → cores s !! c = Some k → stands (tasks s) p (λ st, live st = false) →
  inv (set_cores (alter (push_cleanup p) c (cores s)) s).
Proof.
  intros Hi Hk Hp.
  rewrite (alter_insert _ _ _ _ Hk). destruct (places_split s c k Hk) as (R & H1 & H2).
  destruct Hi as [P1 P2 P3 P4 P5]. split; cbn.
  - eapply ok_places_perm; [| |exact P1]; [by rewrite (idles_insert _ _ k)|].
    rewrite H1. symmetry. apply (H2 (push_cleanup p k) ∅).
  - eapply homes_core; [done..|]. intros q Hq. by eapply P2.
  - by rewrite (idles_insert _ _ k).
  - intros d j q. rewrite list_lookup_insert_Some. intros [(<- & <- & _)|[Hne Hj]] Hq; [|by eapply P4].
    cbn in Hq. apply elem_of_app in Hq as [Hq| ->%list_elem_of_singleton]; [by eapply P4|done].
  - by rewrite length_insert.
Qed.

Lemma leaving_reaper c p st s : leaving c p st s → live st = false →
  leaving c p st (set_cores (alter (push_cleanup p) c (cores s)) s).
Proof.
  intros (Hv & k & t & Hk & Hp & Ht & Hst & Hh) Hd. split.
  - pose proof (inv_push_cleanup (vacated c s) c (vacate k) p Hv (vacated_core _ _ _ Hk)) as Hi. unfold vacated in Hi |- *.
    cbn [cores set_cores] in Hi |- *. rewrite vacate_alter by done. apply Hi.
    exists t. by rewrite Hst.
  - exists (push_cleanup p k), t. split_and!; [|done..]. cbn. by rewrite list_lookup_alter_eq, Hk.
Qed.

Lemma reaper_enqueue_ok s c me p : t_core <$> tasks s !! me = Some (Some c) →
  enqueue_for_reaper me p s = (Ok tt, set_cores (alter (push_cleanup p) c (cores s)) s).
Proof.
  intros Hh. unfold enqueue_for_reaper. by rewrite (bind_ok _ _ _ _ _ (load_core_ctx_ok _ _ _ Hh)).
Qed.

Lemma on_task_exit_inv c p s : leaving c p Zombie s →
  ∃ tp s', on_task_exit p p s = (Ok tp, s') ∧ inv s' ∧ runs c tp s'.
Proof.
  intros Hl. pose proof Hl as (Hv & k & t & Hk & Hp & Ht & Hst & Hh).
  assert (t_core <$> tasks s !! p = Some (Some c)) as Hc by (rewrite Ht; cbn; by rewrite Hh).
  assert (next_rq s < length (cores s))%nat as Hlt.
  { pose proof (next_rq_lt _ Hv) as Hlt. unfold next_rq in *. cbn in *. by rewrite length_alter in Hlt. }
  unfold on_task_exit. unfold bind at 1, task_of. rewrite Ht. cbn [unwrap].
  unfold bind at 1, gets. cbn [id].
  pose proof (leaving_reaper c p Zombie s Hl eq_refl) as Hr.
  destruct (t_parent t) as [par|].
  - destruct (decide (par ∈ pool s)) as [_|_].
    + destruct (decide (par ∈ waiting_tasks s)) as [Hw|_].
      * unfold bind at 1. unfold bind at 1, modify at 1. rewrite wake_ok by done.
        by eapply (leaving_schedule c p Zombie); [apply leaving_wake|..].
      * unfold bind, ret. by eapply (leaving_schedule c p Zombie).
    + unfold bind. rewrite (reaper_enqueue_ok s c) by done. by eapply (leaving_schedule c p Zombie).
  - unfold bind. rewrite (reaper_enqueue_ok s c) by done. by eapply (leaving_schedule c p Zombie).
Qed.

Lemma exit_inv s c k code : inv s → cores s !! c = Some k → current k ≠ idle k →
  ∃ tp s', exit (current k) (current k) code s = (Ok tp, s') ∧ inv s' ∧ runs c tp s'.
Proof.
  intros Hi Hk Hne. destruct (current_live _ _ _ Hi Hk) as (t & Ht & Hlv).
  unfold exit. unfold bind at 1, task_of. rewrite Ht. cbn [unwrap].
  rewrite bool_decide_eq_false_2 by by intros He; rewrite He in Hlv.
  unfold bind, on_task, set_task_state, modify.
  set (s0 := set_tasks (alter (set_t_exit_code code) (current k) (tasks s)) s).
  assert (inv s0) as Hi0 by by apply inv_keep.
  destruct (leave s0 c k Zombie Hi0 Hk Hne) as [Hl _]. apply on_task_exit_inv.
  by do 2 (apply leaving_keep; [done..|]).
Qed.

(** ** Waiting for a child *)

(** The kernel after [task], on core [c], took [child] off its children. *)
Definition reaped (c : nat) (task child : Z) (cs : list Z) (s : Sys) : Sys :=
  set_cores (alter (push_cleanup child) c (cores s))
    (set_tasks (alter (set_t_state Exited) child (alter (set_t_children cs) task (tasks s))) s).

Lemma zombie_position_Some s cs i : zombie_position s cs = Some i →
  ∃ child t, cs !! i = Some child ∧ child ∈ pool s ∧ tasks s !! child = Some t ∧ t_state t = Zombie.
Proof.
  revert i. induction cs as [|p cs IH]; intros i; cbn; [done|].
  destruct (bool_decide _ && _) eqn:E.
  - intros [= <-]. apply andb_true_iff in E as [Hp%bool_decide_eq_true Hz%bool_decide_eq_true].
    destruct (tasks s !! p) as [t|] eqn:Ht; [|done]. injection Hz as Hz. by exists p, t.
  - intros (j & Hj & ->)%fmap_Some. by apply IH.
Qed.

(** [reap_zombie_child] finds nothing and does nothing, or takes a zombie. *)
Lemma reap_shape me c s t : tasks s !! me = Some t → t_core t = Some c →
  t_state t ≠ Zombie →
  reap_zombie_child me me s = (Ok None, s) ∨
  ∃ child ct cs, child ∈ t_children t ∧ tasks s !! child = Some ct ∧ t_state ct = Zombie ∧ child ≠ me ∧
    reap_zombie_child me me s = (Ok (Some (child, t_exit_code ct)), reaped c me child cs s).
Proof.
  intros Ht Hc Hnz. unfold reap_zombie_child.
  assert (task_of me s = (Ok t, s)) as Hto by (unfold task_of; by rewrite Ht).
  rewrite !(bind_ok _ _ _ _ _ Hto), !(bind_ok (gets id) _ s s s eq_refl).
  destruct (zombie_position s (t_children t)) as [i|] eqn:Hz; [|by left]. right. destruct (zombie_position_Some _ _ _ Hz) as (child & ct & Hi & Hp & Hct & Hst).
  assert (me ≠ child) as Hne. { intros ->. congruence. }
  exists child, ct, (delete i (t_children t)). split; [by eapply list_elem_of_lookup_2|].
  split_and!; [done..|]. rewrite ?(bind_ok _ _ _ _ _ Hto), ?(bind_ok (gets id) _ s s s eq_refl), ?Hz.
  unfold bind at 1, lift. rewrite Hi. cbn [unwrap].
  unfold bind at 1, on_task, modify. rewrite decide_True by done.
  unfold bind, set_task_state, on_task, modify, task_of. cbn [tasks set_tasks].
  rewrite lookup_alter_eq, lookup_alter_ne, Hct by done. cbn [fmap option_fmap option_map unwrap].
  rewrite (reaper_enqueue_ok _ c); [done|]. cbn.
  rewrite lookup_alter_ne, lookup_alter_eq, Ht by done. cbn. by rewrite Hc.
Qed.

Lemma inv_reaped s c k task child cs : inv s → cores s !! c = Some k →
  stands (tasks s) child (λ st, live st = false) → inv (reaped c task child cs s).
Proof.
  intros Hi Hk Hd. set (s1 := set_tasks (alter (set_t_children cs) task (tasks s)) s).
  assert (inv s1) as Hi1 by by apply inv_keep.
  assert (stands (tasks s1) child (λ st, live st = false)) as Hd1 by by apply stands_keep.
  destruct (dead_nowhere s1 child Hi1 Hd1) as [Hp Hid].
  apply (inv_push_cleanup (set_tasks (alter (set_t_state Exited) child (tasks s1)) s1) c k);
    [|done|by apply stands_keep].
  apply inv_nowhere; auto.
Qed.

Lemma reaped_vacated c task child cs s : reaped c task child cs (vacated c s) = vacated c (reaped c task child cs s).
Proof. unfold reaped, vacated, set_cores, set_tasks. cbn. by rewrite vacate_alter. Qed.

(** The rest of [wait], in a task that runs again. *)
Lemma wait_resume_inv s c k r s' : inv s → cores s !! c = Some k → current k ≠ idle k →
  wait_resume (current k) (current k) s = (Ok r, s') → inv s'.
Proof.
  intros Hi Hk Hne. destruct (current_live _ _ _ Hi Hk) as (t & Ht & Hlv).
  assert (t_core <$> tasks s !! current k = Some (Some c)) as Hh by (eapply Hi; [done|right; left]).
  rewrite Ht in Hh. injection Hh as Hh. unfold wait_resume, bind, lift.
  destruct (reap_shape (current k) c s t Ht Hh) as [E|(child & ct & cs & _ & Hct & Hz & _ & E)].
  { intros He. by rewrite He in Hlv. }
  - by rewrite E.
  - rewrite E. cbn. intros [= _ <-]. eapply inv_reaped; [done..|]. exists ct. by rewrite Hz.
Qed.

(** A task that was about to leave stays after all. *)
Lemma leaving_back c p st s : leaving c p st s → nowhere p (vacated c s) → live st = true →
  inv (set_tasks (alter (set_t_state Running) p (tasks s)) s) ∧ runs c p s.
Proof.
  intros (Hv & k & t & Hk & Hp & Ht & Hst & Hh) [Hn Hid] Hl. split; [|by exists k].
  destruct (places_split s c k Hk) as (R & H1 & H2). rewrite (vacated_stepped _ _ _ Hk) in Hv, Hn, Hid.
  pose proof Hv as [P1 P2 P3 P4 P5]. cbn in P1, P2, P3, P4, P5, Hid.
  rewrite (idles_insert _ _ k) in P1, P3, Hid by done. rewrite length_insert in P5.
  assert (current k ≠ idle k) as Hne. { intros He. rewrite <-Hp, He in Hid. by eapply Hid, idle_of. }
  assert (core_places k = (p, Running) :: core_places (vacate k)) as Hcp.
  { unfold core_places. cbn. by rewrite (proj2 (Z.eqb_neq _ _) Hne), Z.eqb_refl, Hp. }
  assert (stands (tasks s) p (λ st, live st = true)) as Hlv by (exists t; by rewrite Hst).
  split; cbn.
  - eapply (ok_places_perm _ _ _ ((p, Running) :: places (stepped (tasks s) c (vacate k) s)));
      [done| |apply ok_places_add; [done..|by eexists]].
    change (places (set_tasks _ s)) with (places s). rewrite H1, H2, Hcp. done.
  - apply homes_alter; [done|]. intros d j q Hj Hq. destruct (decide (c = d)) as [<-|Hcd].
    + rewrite Hk in Hj. injection Hj as <-. destruct (decide (q = p)) as [->|].
      * rewrite Ht. cbn. by rewrite Hh.
      * apply (P2 c (vacate k)); [by apply list_lookup_insert_eq; eapply lookup_lt_Some|].
        unfold core_tasks in *. cbn. set_solver.
    + apply (P2 d j); [by rewrite list_lookup_insert_ne|done].
  - by apply idle_alter_run.
  - apply dead_alter_live; [done|]. intros d j q Hj Hq. destruct (decide (c = d)) as [<-|Hcd].
    + rewrite Hk in Hj. injection Hj as <-.
      apply (P4 c (vacate k)); [by apply list_lookup_insert_eq; eapply lookup_lt_Some|done].
    + apply (P4 d j); [by rewrite list_lookup_insert_ne|done].
  - done.
Qed.

Lemma leaving_reaped c p st s child ct cs : leaving c p st s → nowhere p (vacated c s) →
  tasks s !! child = Some ct → t_state ct = Zombie → child ≠ p →
  leaving c p st (reaped c p child cs s) ∧ nowhere p (vacated c (reaped c p child cs s)).
Proof.
  intros (Hv & k & t & Hk & Hp & Ht & Hst & Hh) Hn Hct Hz Hne. rewrite <-reaped_vacated.
  pose proof (vacated_core c s k Hk) as Hvk. split; [split|].
  - rewrite <-reaped_vacated. eapply inv_reaped; [done..|]. exists ct. by rewrite Hz.
  - exists (push_cleanup child k), (set_t_children cs t). cbn.
    rewrite list_lookup_alter_eq, Hk, lookup_alter_ne, lookup_alter_eq, Ht by done. by split_and!.
  - destruct Hn as [Hn Hid]. unfold nowhere, reaped. cbn [cores set_cores].
    rewrite (alter_insert _ _ _ _ Hvk). destruct (places_split _ c _ Hvk) as (R & H1 & H2). split.
    + change (set_cores _ _) with (stepped
        (alter (set_t_state Exited) child (alter (set_t_children cs) p (tasks (vacated c s)))) c
        (push_cleanup child (vacate k)) (vacated c s)).
      rewrite H2. by rewrite H1 in Hn.
    + by rewrite (idles_insert _ _ (vacate k)).
Qed.

(** [wait] returns a child's status, or leaves the task waiting. *)
Lemma wait_inv s c k r s' : inv s → cores s !! c = Some k → current k ≠ idle k →
  wait (current k) (current k) s = (Ok r, s') →
  inv s' ∧ runs c (match r with inl _ => current k | inr tp => tp end) s'.
Proof.
  intros Hi Hk Hne. unfold wait. destruct (current_live _ _ _ Hi Hk) as (t0 & Ht0 & _).
  unfold bind at 1, task_of. rewrite Ht0. cbn [unwrap]. case_decide; [done|].
  unfold bind at 1, set_task_state at 1, on_task at 1, modify at 1.
  destruct (leave s c k Blocked Hi Hk Hne) as (Hl & Hn).
  set (s1 := set_tasks _ s) in *. set (p := current k) in *.
  pose proof Hl as (_ & k' & t & Hk' & Hcur & Ht & Hst & Hh).
  unfold block_on_wait. unfold bind at 1. unfold bind at 1. unfold bind at 1.
  destruct (reap_shape p c s1 t Ht Hh) as [E|(child & ct & cs & _ & Hct & Hz & Hcp & E)];
    [congruence|rewrite E; cbn [ret]..].
  - unfold bind at 1, modify. set (s2 := set_waiting _ s1).
    assert (leaving c p Blocked s2) as Hl2.
    { split; [|by exists k', t].
      eapply (inv_add_blocked (vacated c s1) _ p t); [apply Hl|apply Hn|apply Hn|done..|].
      assert (p ∉ waiting_tasks s1) as Hw.
      { intros Hw. apply (proj1 Hn). apply (list_elem_of_fmap_2 fst _ (p, Blocked)).
        apply elem_of_app. right. apply (list_elem_of_fmap_2 (λ p, (p, Blocked))).
        apply elem_of_app. right. by apply elem_of_elements. }
      unfold blocked_places. cbn. rewrite elements_disj_union, elements_singleton by set_solver.
      rewrite !fmap_app. cbn. solve_Permutation. }
    destruct (leaving_schedule c p Blocked s2 Hl2) as (tp & s3 & Es & Hi3 & Hr3); [done..|].
    unfold bind. rewrite Es. by intros [= <- <-].
  - destruct (leaving_reaped c p Blocked s1 child ct cs Hl Hn Hct Hz Hcp) as [Hl2 Hn2].
    destruct (leaving_back c p Blocked _ Hl2 Hn2 eq_refl) as [Hi3 Hr3].
    unfold bind. intros [= <- <-]. by split.
Qed.

(** ** The timer *)

(** The core with its heap of sleeping tasks replaced. *)
Definition asleep (c : nat) (l : list (Z * Z)) (s : Sys) : Sys :=
  set_cores (alter (set_sleeping l) c (cores s)) s.

Lemma asleep_stepped c l s k : cores s !! c = Some k →
  asleep c l s = stepped (tasks s) c (set_sleeping l k) s.
Proof. intros Hk. unfold asleep. by rewrite (alter_insert _ _ _ _ Hk). Qed.

(** The first sleeping task is dropped, or woken up. *)
Lemma inv_sleeper s c k w p l : cores s !! c = Some k → inv (asleep c ((w, p) :: l) s) →
  inv (asleep c l s) ∧
  inv (asleep c l (set_cores (alter (push p) c (cores s))
                     (set_tasks (alter (set_t_state Ready) p (tasks s)) s))).
Proof.
  intros Hk Hi. set (k0 := set_sleeping ((w, p) :: l) k).
  rewrite (asleep_stepped _ _ _ _ Hk) in Hi. set (s0 := stepped (tasks s) c k0 s) in *.
  assert (cores s0 !! c = Some k0) as Hk0.
  { apply list_lookup_insert_eq. by eapply lookup_lt_Some. }
  assert (asleep c l s = stepped (tasks s) c (set_sleeping l k) s0) as ->.
  { rewrite (asleep_stepped _ _ _ _ Hk). unfold stepped, set_cores, set_tasks, s0. cbn.
    by rewrite list_insert_insert_eq. }
  replace (asleep c l _)
    with (stepped (alter (set_t_state Ready) p (tasks s)) c (push p (set_sleeping l k)) s0).
  2: { unfold asleep, stepped, s0, set_cores, set_tasks. cbn. rewrite (alter_insert _ _ _ _ Hk).
       by rewrite alter_inserted, list_insert_insert_eq. }
  destruct (places_split _ c _ Hk0) as (R & H1 & H2).
  assert (ok_places (tasks s) (idle <$> cores s0)
    ((p, Sleeping) :: core_places (set_sleeping l k) ++ R)) as Hok.
  { eapply ok_places_perm; [done| |apply (inv_places _ Hi)]. etrans; [apply H1|].
    unfold core_places. cbn. solve_Permutation. }
  assert (stands (tasks s) p (λ st, live st = true)) as Hlv.
  { destruct Hok as [_ Hst]. specialize (Hst p Sleeping ltac:(left)).
    destruct (tasks s !! p) as [t|] eqn:Ht; [|done]. injection Hst as Hst. exists t. by rewrite Hst. }
  split; (eapply inv_stepped; [exact Hi|exact Hk0|done|exact H2|..]).
  - by eapply ok_places_drop.
  - apply Hi.
  - apply Hi.
  - apply Hi.
  - done.
  - unfold core_tasks. cbn. set_solver.
  - eapply (ok_places_perm _ _ _ ((p, Ready) :: core_places (set_sleeping l k) ++ R));
      [done| |by eapply ok_places_move].
    unfold core_places. cbn. rewrite fmap_app. cbn. solve_Permutation.
  - apply homes_alter; [done|]. apply Hi.
  - apply idle_alter_other; [by eapply ok_places_drop|]. apply Hi.
  - apply dead_alter_live; [done|]. apply Hi.
  - done.
  - unfold core_tasks. cbn. set_solver.
Qed.

Lemma wake_up_inv c time l woke s k : cores s !! c = Some k → inv (asleep c l s) →
  ∃ b s' k', wake_up c time l woke s = (Ok b, s') ∧ inv s' ∧ cores s' !! c = Some k' ∧
    current k' = current k ∧ idle k' = idle k ∧ now s' = now s.
Proof.
  revert woke s k. induction l as [|[w p] l IH]; intros woke s k Hk Hi; cbn [wake_up].
  - unfold bind, on_core, modify. exists woke, (asleep c [] s), (set_sleeping [] k).
    split_and!; [done|done| |done..]. cbn. by rewrite list_lookup_alter_eq, Hk.
  - destruct (inv_sleeper s c k w p l Hk Hi) as [Hdrop Hwake]. destruct (w <=? time).
    + unfold bind at 1, gets. cbn [id]. destruct (upgrade s p); [|by apply (IH woke s k)].
      unfold bind, set_task_state, on_task, on_core, modify. cbn [cores set_tasks].
      set (s1 := set_cores _ _) in Hwake.
      assert (cores s1 !! c = Some (push p k)) as Hk1 by (cbn; by rewrite list_lookup_alter_eq, Hk).
      destruct (IH true s1 _ Hk1 Hwake) as (b & s' & k' & E & ?). exists b, s', k'. by split.
    + unfold bind, on_core, modify. exists woke, (asleep c ((w, p) :: l) s), (set_sleeping ((w, p) :: l) k).
      split_and!; [done|done| |done..]. cbn. by rewrite list_lookup_alter_eq, Hk.
Qed.

(** A change of a core that moves no task. *)
Lemma inv_core_same s c k f : inv s → cores s !! c = Some k →
  core_places (f k) = core_places k → core_tasks (f k) = core_tasks k → idle (f k) = idle k →
  (∀ p, p ∈ cleanup_queue (f k) → p ∈ cleanup_queue k) →
  inv (set_cores (alter f c (cores s)) s).
Proof.
  intros [P1 P2 P3 P4 P5] Hk Hp Ht Hid Hcl. rewrite (alter_insert _ _ _ _ Hk).
  destruct (places_split s c k Hk) as (R & H1 & H2). split; cbn.
  - eapply ok_places_perm; [| |exact P1]; [by rewrite (idles_insert _ _ k)|].
    rewrite H1, <-Hp. symmetry. apply (H2 (f k) ∅).
  - eapply homes_core; [done..|]. rewrite Ht. intros q Hq. by eapply P2.
  - by rewrite (idles_insert _ _ k).
  - intros d j q. rewrite list_lookup_insert_Some. intros [(<- & <- & _)|[Hne Hj]] Hq; [|by eapply P4].
    eapply P4; [done|]. by apply Hcl.
  - by rewrite length_insert.
Qed.

Lemma on_timer_interrupt_inv s c k tp s' : inv s → cores s !! c = Some k →
  on_timer_interrupt (current k) s = (Ok tp, s') → inv s' ∧ runs c tp s'.
Proof.
  intros Hi Hk. unfold on_timer_interrupt.
  rewrite (bind_ok _ _ _ _ _ (current_home _ _ _ Hi Hk)). unfold bind at 1, gets at 1.
  rewrite (bind_ok _ _ _ _ _ (core_of_ok _ _ _ Hk)).
  assert (inv (asleep c (sleeping k) s)) as Ha.
  { apply (inv_core_same s c k); by destruct k. }
  destruct (wake_up_inv c (now s) _ false s k Hk Ha) as (b & s1 & k1 & E1 & Hi1 & Hk1 & Hc1 & Hid1 & _).
  rewrite (bind_ok _ _ _ _ _ E1). intros (t1 & u1 & [= <- <-] & H)%bind_ok_inv.
  apply bind_ok_inv in H as (ticks & u & Hu & H). injection Hu as _ <-.
  apply bind_ok_inv in H as (w & u & Hu & H). injection Hu as _ <-.
  set (s2 := set_cores (alter (set_core_timer w) c (cores s1)) s1) in *.
  assert (inv s2) as Hi2 by by apply (inv_core_same s1 c k1).
  assert (cores s2 !! c = Some (set_core_timer w k1)) as Hk2.
  { cbn. by rewrite list_lookup_alter_eq, Hk1. }
  change (on_core c (set_core_timer w)) with (modify (E := Error) (λ s, set_cores (alter (set_core_timer w) c (cores s)) s)) in H.
  rewrite (bind_ok _ _ s1 tt s2 eq_refl) in H.
  apply bind_ok_inv in H as (over & u & Hu & H).
  assert (u = s2) as ->.
  { destruct (negb _); [|by injection Hu]. apply bind_ok_inv in Hu as (? & ? & Hx & Hu).
    injection Hx as _ <-. apply bind_ok_inv in Hu as (? & ? & Hx & Hu). injection Hx as _ <-. by injection Hu. }
  rewrite (bind_ok _ _ _ _ _ (core_of_ok _ _ _ Hk2)) in H. destruct (_ || _).
  - destruct (schedule_stay_inv s2 c _ (current k) Hi2 Hk2) as (tp' & s3 & E & Hi3 & Hr3); [done|].
    rewrite E in H. by injection H as <- <-.
  - injection H as <- <-. split; [done|]. by exists (set_core_timer w k1).
Qed.
