(* ===== verification/SchedSafe.v ===== *)
(** * What the scheduler guarantees

    The kernel as a step relation over its handlers, each run to its end; the
    safety theorem for every state it reaches; and the two ways out: the race
    that opens when handlers of two harts interleave, and the sleep that is too
    long to compute. *)

From S2P Require Import Prelude Errors Sv39 PageTable MemMgr FileTable TaskPool Sched SchedInv SchedSteps.

Section safe.
Context `{BF : Bitflags}.

(** ** Memory, cleanup and new tasks *)

Lemma inv_mm s task f m : inv s → (∀ t, t_state (f t) = t_state t) → (∀ t, t_core (f t) = t_core t) →
  inv (set_tasks (alter f task (tasks s)) (set_memory m s)).
Proof. intros Hi Hs Hc. apply (inv_keep (set_memory m s)); [done..|]. by destruct Hi; split. Qed.

Lemma task_mm_inv {A} task (f : MM A) s o s' : task_mm task f s = (o, s') → inv s →
  inv s' ∧ cores s' = cores s ∧ now s' = now s ∧
  ∀ p, t_state <$> tasks s' !! p = t_state <$> tasks s !! p.
Proof.
  unfold task_mm, bind, task_of. destruct (tasks s !! task) as [t|] eqn:Ht; cbn [unwrap].
  - destruct (f _) as [o1 sp]. intros [= <- <-] Hi. split_and!; [by apply inv_mm|done..|].
    intros p. cbn. destruct (decide (p = task)) as [->|]; [by rewrite lookup_alter_eq, Ht|].
    by rewrite lookup_alter_ne.
  - by intros [= <- <-].
Qed.

(** Cleaning up a dead task. *)
Lemma cleanup_inv task s s' : cleanup task s = (Ok tt, s') →
  inv s → stands (tasks s) task (λ st, live st = false) →
  inv s' ∧ cores s' = cores s ∧ now s' = now s.
Proof.
  unfold cleanup. intros (u & s1 & Hu & H)%bind_ok_inv Hi Hd. injection Hu as _ <-.
  destruct (dead_nowhere _ _ Hi Hd) as [Hp Hid].
  apply bind_ok_inv in H as (? & s2 & E & H). injection H as <-.
  apply task_mm_inv in E as (Hi2 & Hc & Hn & _); [|by apply inv_nowhere; auto].
  split_and!; [by destruct Hi2; split|exact Hc|exact Hn].
Qed.

(** The reaper cleans up what its core has left for it, and sleeps. *)
Lemma clean_loop_inv me c fuel s k s' : clean_loop me fuel s = (Ok tt, s') → inv s →
  cores s !! c = Some k → me = current k →
  ∃ k', inv s' ∧ cores s' !! c = Some k' ∧ current k' = current k ∧ idle k' = idle k.
Proof.
  revert s k. induction fuel as [|fuel IH]; intros s k H Hi Hk ->; cbn [clean_loop] in H;
    rewrite (bind_ok _ _ _ _ _ (current_home _ _ _ Hi Hk)),
      (bind_ok _ _ _ _ _ (core_of_ok _ _ _ Hk)) in H;
    destruct (cleanup_queue k) as [|t q] eqn:Hq; [by injection H as <-; exists k|done|by injection H as <-; exists k|].
  apply bind_ok_inv in H as (u & s1 & Hu & H). injection Hu as _ <-.
  assert (stands (tasks s) t (λ st, live st = false)) as Hd.
  { eapply (inv_dead _ Hi); [done|]. rewrite Hq. left. }
  set (s1 := set_cores (alter (set_cleanup_queue q) c (cores s)) s) in *.
  assert (inv s1) as Hi1. { apply (inv_core_same s c k); [done..|]. rewrite Hq. by right. }
  assert (cores s1 !! c = Some (set_cleanup_queue q k)) as Hk1.
  { cbn. by rewrite list_lookup_alter_eq, Hk. }
  apply bind_ok_inv in H as ([] & s2 & E & H). apply cleanup_inv in E as (Hi2 & Hc2 & _); [|done..].
  rewrite <-Hc2 in Hk1. by destruct (IH s2 _ H Hi2 Hk1 eq_refl) as (k' & ?); exists k'.
Qed.

Lemma sleep_ok_inv s c k ms tp s' : inv s → cores s !! c = Some k → current k ≠ idle k →
  sleep_current_task (current k) ms s = (Ok tp, s') → inv s' ∧ runs c tp s'.
Proof.
  intros Hi Hk Hne H. destruct (wake_time (now s) ms) as [w|e| |] eqn:Hw.
  1: destruct (sleep_current_task_inv s c k ms w Hi Hk Hne Hw) as (tp' & s1 & E & ? & ?);
    rewrite E in H; by injection H as <- <-.
  all: unfold sleep_current_task in H;
    rewrite (bind_ok _ _ _ _ _ (current_home _ _ _ Hi Hk)), (bind_ok _ _ _ _ _ (core_of_ok _ _ _ Hk)) in H;
    unfold bind, set_task_state, on_task, modify, gets, lift in H; cbn [now set_tasks] in H;
    by rewrite Hw in H.
Qed.

Lemma reaper_round_inv s c k tp s' : inv s → cores s !! c = Some k → current k ≠ idle k →
  reaper_round (current k) s = (Ok tp, s') → inv s' ∧ runs c tp s'.
Proof.
  intros Hi Hk Hne H. unfold reaper_round in H.
  rewrite (bind_ok _ _ _ _ _ (current_home _ _ _ Hi Hk)), (bind_ok _ _ _ _ _ (core_of_ok _ _ _ Hk)) in H.
  apply bind_ok_inv in H as ([] & s1 & E & H).
  destruct (clean_loop_inv _ c _ _ k _ E Hi Hk eq_refl) as (k1 & Hi1 & Hk1 & Hc1 & Hid1).
  rewrite <-Hc1 in H. eapply sleep_ok_inv; [done..| |exact H]. congruence.
Qed.

(** A page fault is served, or kills the task. *)
Lemma on_page_fault_inv s c k a fl tp s' : inv s → cores s !! c = Some k → current k ≠ idle k →
  on_page_fault (current k) (current k) a fl s = (Ok tp, s') → inv s' ∧ runs c tp s'.
Proof.
  intros Hi Hk Hne (r & s1 & E & H)%bind_ok_inv. unfold attempt in E.
  destruct (task_mm _ _ s) as [o s2] eqn:Em. apply task_mm_inv in Em as (Hi1 & Hc & _); [|done].
  rewrite <-Hc in Hk. destruct o as [?|?| |]; [|..|done|done]; injection E as <- <-.
  - injection H as <- <-. split; [done|]. by exists k.
  - destruct (exit_inv s2 c k (-1) Hi1 Hk Hne) as (tp' & s3 & E & ? & ?).
    rewrite E in H. by injection H as <- <-.
Qed.

(** A task that did not exist is in no place. *)
Lemma inv_new_task s pid t : inv s → tasks s !! pid = None →
  let s' := set_pool ({[pid]} ∪ pool s) (set_tasks (<[pid := t]> (tasks s)) s) in
  inv s' ∧ nowhere pid s'.
Proof.
  intros Hi Hn s'. assert (pid ∉ (places s).*1 ∧ pid ∉ idle <$> cores s) as [Hp Hid].
  { split; intros Hin.
    - destruct (place_stands _ _ Hi Hin) as (t' & Ht' & _). congruence.
    - destruct (inv_idle _ Hi _ Hin) as (t' & Ht' & _). congruence. }
  destruct Hi as [P1 P2 P3 P4 P5]. split; [|done]. split; cbn; [|..|done].
  - destruct P1 as [Hnd Hst]. split; [done|]. intros q st Hq. specialize (Hst q st Hq).
    rewrite lookup_insert_ne; [done|]. intros <-. by rewrite Hn in Hst.
  - intros c k q Hk Hq. specialize (P2 c k q Hk Hq). rewrite lookup_insert_ne; [done|].
    intros <-. by rewrite Hn in P2.
  - intros q Hq. destruct (P3 q Hq) as (t' & Ht' & Hst). exists t'.
    rewrite lookup_insert_ne; [done|]. congruence.
  - intros c k q Hk Hq. destruct (P4 c k q Hk Hq) as (t' & Ht' & Hst). exists t'.
    rewrite lookup_insert_ne; [done|]. congruence.
Qed.

Lemma publish_inv s parent pid t : inv s → tasks s !! pid = None → t_state t = Ready →
  ∃ s', publish parent pid t s = (Ok tt, s') ∧ inv s'.
Proof.
  intros Hi Hn Hst. unfold publish.
  set (f := λ t, set_t_children (t_children t ++ [pid]) t).
  set (s1 := match parent with Some p => set_tasks (alter f p (tasks s)) s | None => s end).
  assert (inv s1 ∧ tasks s1 !! pid = None) as [Hi1 Hn1].
  { destruct parent as [p|]; [|done]. split; [by apply inv_keep|]. cbn.
    destruct (decide (p = pid)) as [->|]; [by rewrite lookup_alter_eq, Hn|by rewrite lookup_alter_ne]. }
  unfold bind at 1. replace (match parent with Some p => _ | None => _ end s)
    with (Ok (E := Error) tt, s1) by by destruct parent.
  unfold bind, modify. destruct (inv_new_task s1 pid t Hi1 Hn1) as [Hi2 [Hp Hid]].
  set (s2 := set_pool _ _) in *. exists (queued pid s2). split.
  - by rewrite enqueue_ok by by apply next_rq_lt.
  - eapply inv_queued; [done..| |done]. cbn. apply lookup_insert_eq.
Qed.

(** ** The kernel as a step relation *)

(** A step is the passing of time or one handler, run by the current task of a
    core.  The idle task only takes interrupts. *)
Inductive kstep : Sys → Sys → Prop :=
| k_time s n : now s ≤ n → kstep s (set_now n s)
| k_timer s c k tp s' : cores s !! c = Some k →
    on_timer_interrupt (current k) s = (Ok tp, s') → kstep s s'
| k_irq s irq s' : on_external_irq irq s = (Ok tt, s') → kstep s s'
| k_block s c k irq tp s' : cores s !! c = Some k → current k ≠ idle k →
    block_on_external_irq (current k) irq s = (Ok tp, s') → kstep s s'
| k_sleep s c k ms tp s' : cores s !! c = Some k → current k ≠ idle k →
    sleep_current_task (current k) ms s = (Ok tp, s') → kstep s s'
| k_exit s c k code tp s' : cores s !! c = Some k → current k ≠ idle k →
    exit (current k) (current k) code s = (Ok tp, s') → kstep s s'
| k_wait s c k r s' : cores s !! c = Some k → current k ≠ idle k →
    wait (current k) (current k) s = (Ok r, s') → kstep s s'
| k_wait_resume s c k r s' : cores s !! c = Some k → current k ≠ idle k →
    wait_resume (current k) (current k) s = (Ok r, s') → kstep s s'
| k_reaper s c k tp s' : cores s !! c = Some k → current k ≠ idle k →
    reaper_round (current k) s = (Ok tp, s') → kstep s s'
| k_fault s c k a fl tp s' : cores s !! c = Some k → current k ≠ idle k →
    on_page_fault (current k) (current k) a fl s = (Ok tp, s') → kstep s s'
| k_new s parent pid t s' : tasks s !! pid = None → t_state t = Ready →
    publish parent pid t s = (Ok tt, s') → kstep s s'.

Lemma kstep_inv s s' : kstep s s' → inv s → inv s'.
Proof.
  destruct 1 as [s n|s c k tp s' Hk E|s irq s' E|s c k irq tp s' Hk Hne E|s c k ms tp s' Hk Hne E
    |s c k code tp s' Hk Hne E|s c k r s' Hk Hne E|s c k r s' Hk Hne E|s c k tp s' Hk Hne E
    |s c k a fl tp s' Hk Hne E|s parent pid t s' Hn Hst E]; intros Hi.
  - by destruct Hi; split.
  - by eapply on_timer_interrupt_inv.
  - destruct (on_external_irq_inv s irq Hi) as (s1 & E1 & ?). congruence.
  - destruct (block_on_external_irq_inv s c k irq Hi Hk Hne) as (tp1 & s1 & E1 & ? & _). congruence.
  - by eapply sleep_ok_inv.
  - destruct (exit_inv s c k code Hi Hk Hne) as (tp1 & s1 & E1 & ? & _). congruence.
  - by eapply wait_inv.
  - by eapply wait_resume_inv.
  - by eapply reaper_round_inv.
  - by eapply on_page_fault_inv.
  - destruct (publish_inv s parent pid t Hi Hn Hst) as (s1 & E1 & ?). congruence.
Qed.

(** ** Safety *)

(** Every task that runs, runs on one hart and is in no queue; every queued
    task is ready and queued once. *)
Definition safe (s : Sys) : Prop :=
  (∀ c d k j, cores s !! c = Some k → cores s !! d = Some j → current k = current j → c = d) ∧
  (∀ c k, cores s !! c = Some k → current k ≠ idle k →
     t_state <$> tasks s !! current k = Some Running) ∧
  (∀ c d k j, cores s !! c = Some k → cores s !! d = Some j → current k ∉ runqueue j) ∧
  NoDup (cores s ≫= runqueue) ∧
  (∀ c k p, cores s !! c = Some k → p ∈ runqueue k → t_state <$> tasks s !! p = Some Ready).

Lemma current_can_run s c k t : inv s → cores s !! c = Some k → tasks s !! current k = Some t →
  bool_decide (t_state t = Ready) || bool_decide (t_state t = Running) = true.
Proof.
  intros Hi Hk Ht. rewrite orb_true_iff, !bool_decide_eq_true.
  destruct (decide (current k = idle k)) as [He|Hne].
  - destruct (inv_idle _ Hi (current k)) as (t' & Ht' & Hst); [rewrite He; by eapply idle_of|].
    congruence.
  - right. pose proof (current_running s c k Hi Hk Hne) as Hr. rewrite Ht in Hr. by injection Hr.
Qed.

Lemma bind_nodup_inj {A B} (f : A → list B) l i j a b x :
  NoDup (l ≫= f) → l !! i = Some a → l !! j = Some b → x ∈ f a → x ∈ f b → i = j.
Proof.
  revert i j. induction l as [|y l IH]; intros i j; [done|]. cbn. rewrite NoDup_app.
  intros (Hy & Hd & Hl) Hi Hj Ha Hb. destruct i as [|i], j as [|j]; cbn in Hi, Hj; [done|..].
  - injection Hi as ->. destruct (Hd x Ha). apply list_elem_of_bind. exists b. split; [done|].
    by eapply list_elem_of_lookup_2.
  - injection Hj as ->. destruct (Hd x Hb). apply list_elem_of_bind. exists a. split; [done|].
    by eapply list_elem_of_lookup_2.
  - f_equal. by eapply IH.
Qed.

Lemma sublist_bind {A B} (f g : A → list B) l : (∀ a, f a `sublist_of` g a) → (l ≫= f) `sublist_of` (l ≫= g).
Proof. intros Hfg. induction l as [|a l IH]; cbn; [constructor|]. by apply sublist_app. Qed.

Lemma bind_fmap_fst {A B C} (f : A → list (B * C)) l : (l ≫= f).*1 = l ≫= λ a, (f a).*1.
Proof. induction l as [|a l IH]; cbn; [done|]. by rewrite fmap_app, <-IH. Qed.

Lemma inv_safe s : inv s → safe s.
Proof.
  intros Hi. set (f := λ k, (core_places k).*1).
  assert (NoDup ((idle <$> cores s) ++ (cores s ≫= f))) as Hnd.
  { destruct (inv_places _ Hi) as [Hnd _]. unfold places in Hnd. rewrite fmap_app in Hnd.
    rewrite app_assoc in Hnd. apply NoDup_app in Hnd as [Hnd _]. by rewrite bind_fmap_fst in Hnd. }
  apply NoDup_app in Hnd as (Hid & Hdis & Hf).
  assert (∀ c k, cores s !! c = Some k → current k ≠ idle k → current k ∈ f k) as Hcur.
  { intros c k Hk Hne. unfold f. rewrite core_places_fst, (proj2 (Z.eqb_neq _ _) Hne). left. }
  assert (∀ c k p, cores s !! c = Some k → p ∈ f k → p ∉ idle <$> cores s) as Hni.
  { intros c k p Hk Hp Hin. apply (Hdis p Hin), list_elem_of_bind. exists k. split; [done|].
    by eapply list_elem_of_lookup_2. }
  split_and!.
  - intros c d k j Hk Hj He.
    destruct (decide (current k = idle k)) as [Hki|Hki], (decide (current j = idle j)) as [Hji|Hji].
    + eapply (NoDup_lookup _ c d (idle k) Hid); rewrite list_lookup_fmap, ?Hk, ?Hj; cbn; congruence.
    + destruct (Hni d j (current j) Hj); [by eapply Hcur|]. rewrite <-He, Hki. by eapply idle_of.
    + destruct (Hni c k (current k) Hk); [by eapply Hcur|]. rewrite He, Hji. by eapply idle_of.
    + eapply (bind_nodup_inj f); [done..|by eapply Hcur|]. rewrite He. by eapply Hcur.
  - intros c k Hk Hne. by eapply current_running.
  - intros c d k j Hk Hj Hq. pose proof (runqueue_not_idle _ _ _ _ Hi Hj Hq) as Hn.
    destruct (decide (current k = idle k)) as [He|Hne].
    { apply Hn. rewrite He. by eapply idle_of. }
    pose proof (runqueue_ready _ _ _ _ Hi Hj Hq) as Hr.
    pose proof (current_running _ _ _ Hi Hk Hne). congruence.
  - eapply sublist_NoDup; [exact Hf|]. apply sublist_bind. intros k. unfold f.
    rewrite core_places_fst. apply sublist_inserts_l. apply sublist_inserts_r. done.
  - intros c k p Hk Hp. by eapply runqueue_ready.
Qed.

(** Whatever interrupts arrive and whatever the tasks do (block, sleep,
    exit, wait, fault, create tasks), as long as the handlers run one at a time
    no task ever runs on two harts, a running task is in no runqueue, and a task
    that is queued is ready and queued once. *)
Theorem no_task_runs_twice s0 s : inv s0 → rtc kstep s0 s → safe s.
Proof.
  intros Hi Hr. apply inv_safe. induction Hr as [|s0 s1 s2 Hk _ IH]; [done|]. by eapply IH, kstep_inv.
Qed.
End safe.

(** In such a state [schedule] always returns, and is first come first
    served: the head of the queue runs, the task that was running goes to the
    end of the queue, and with an empty queue nothing changes but the state of
    the idle task.  No other core is touched. *)
Theorem schedule_fifo s c k : inv s → cores s !! c = Some k →
  ∃ s' k', schedule (current k) s = (Ok (current k'), s') ∧ cores s' = <[c := k']> (cores s) ∧
    current k' = default (current k) (head (runqueue k)) ∧
    runqueue k' = tail (runqueue k) ++
      (if decide (current k = idle k ∨ runqueue k = []) then [] else [current k]) ∧
    sleeping k' = sleeping k ∧ cleanup_queue k' = cleanup_queue k ∧
    (∀ p, p ≠ current k → p ≠ current k' → tasks s' !! p = tasks s !! p) ∧
    t_state <$> tasks s' !! current k' = Some Running.
Proof.
  intros Hi Hk. destruct (current_live s c k Hi Hk) as (t & Ht & _).
  destruct (runqueue k) as [|p q] eqn:Hq; [|destruct (decide (current k = idle k)) as [He|Hne]].
  - rewrite (schedule_alone s c k _ t) by done.
    rewrite (current_can_run s c k t) by done. eexists _, (set_runqueue [] k). cbn. rewrite decide_True by auto. split_and!; [done..| |].
    + intros p Hp _. cbn. by rewrite lookup_alter_ne.
    + cbn. by rewrite lookup_alter_eq, Ht.
  - rewrite (schedule_from_idle s c k _ p q) by done.
    eexists _, (set_current p (now s) (set_runqueue q k)). cbn. rewrite decide_True by auto.
    destruct (runqueue_live s c k p Hi Hk) as (tp & Htp & _); [rewrite Hq; left|].
    rewrite app_nil_r. split_and!; [done..| |].
    + intros r _ Hr. cbn. by rewrite lookup_alter_ne.
    + cbn. by rewrite lookup_alter_eq, Htp.
  - rewrite (schedule_preempt s c k _ p q) by done.
    eexists _, (set_current p (now s) (set_runqueue (q ++ [current k]) k)). cbn.
    rewrite decide_False by naive_solver.
    destruct (runqueue_live s c k p Hi Hk) as (tp & Htp & _); [rewrite Hq; left|].
    assert (current k ≠ p) as Hcp.
    { intros <-. pose proof (runqueue_ready s c k (current k) Hi Hk) as Hr.
      rewrite (current_running s c k), Hq in Hr by done. specialize (Hr ltac:(left)). done. }
    split_and!; [done..| |].
    + intros r Hr1 Hr2. cbn. by rewrite !lookup_alter_ne.
    + cbn. by rewrite lookup_alter_ne, lookup_alter_eq, Htp.
Qed.

(** ** The sleep that is too long *)

Lemma wake_time_panics time ms : 0 ≤ ms →
  wake_time time ms = Panic ↔ 1844675 ≤ ms ≤ 18446744073709.
Proof.
  intros H0. unfold wake_time, nanos_to_ticks, mul_ov, checked_mul.
  change (2 ^ 64) with 18446744073709551616.
  destruct (Z.ltb_spec (ms * 1000000) 18446744073709551616); cbn [default id].
  - destruct (Z.ltb_spec (ms * 1000000 * 10000000) 18446744073709551616); cbn; split; [done|lia|lia|done].
  - cbn. split; [done|lia].
Qed.

(** [sleep_ms] of a task halts the kernel exactly when the time is between
    1844675 and 18446744073709 milliseconds: [nanos_to_ticks] overflows in its
    multiplication for every sleep of more than about half an hour.  (The
    comment in [sleep_current_task] says such a task is woken up at once, which
    holds only from 18446744073710 on.) *)
Theorem long_sleep_panics s c k ms : inv s → cores s !! c = Some k → current k ≠ idle k → 0 ≤ ms →
  (sleep_current_task (current k) ms s).1 = Panic ↔ 1844675 ≤ ms ≤ 18446744073709.
Proof.
  intros Hi Hk Hne H0. rewrite <-(wake_time_panics (now s)) by done.
  destruct (wake_time (now s) ms) as [w|e| |] eqn:Hw.
  - destruct (sleep_current_task_inv s c k ms w Hi Hk Hne Hw) as (tp' & s1 & -> & _). done.
  - exfalso. unfold wake_time, nanos_to_ticks, mul_ov in Hw.
    destruct (checked_mul 64 _ CPU_HERTZ); discriminate Hw.
  - unfold sleep_current_task.
    rewrite (bind_ok _ _ _ _ _ (current_home _ _ _ Hi Hk)), (bind_ok _ _ _ _ _ (core_of_ok _ _ _ Hk)).
    unfold bind, set_task_state, on_task, modify, gets, lift. cbn [now set_tasks]. by rewrite Hw.
  - exfalso. unfold wake_time, nanos_to_ticks, mul_ov in Hw.
    destruct (checked_mul 64 _ CPU_HERTZ); discriminate Hw.
Qed.

(** ** A system of two cores *)

Definition new_task (parent : option Z) : Task :=
  mkTask Ready parent [] (-1) 0 None [] EMPTY.

(** Cores with idle tasks 0 and 2 and reapers 1 and 3; task 4 is new. *)
Definition two_cores : Sys :=
  let s := mkSys (list_to_map [(0, new_task None); (1, new_task None); (2, new_task None);
                               (3, new_task None)])
             {[0; 1; 2; 3]} [setup_core 0 1; setup_core 2 3] 0 ∅ ∅ 1000000
             (mkKmem (FrameAllocator.mkFA 0 []) ∅ ∅) in
  ((core_ready 0 ;;; core_ready 1) s).2.

(** A test for the invariant. *)
Definition state_in (ts : gmap Z Task) (p : Z) (P : TaskState → bool) : bool :=
  match ts !! p with Some t => P (t_state t) | None => false end.
Definition inv_test (s : Sys) : bool :=
  bool_decide (NoDup ((idle <$> cores s) ++ (places s).*1)) &&
  forallb (λ x, bool_decide (t_state <$> tasks s !! x.1 = Some x.2)) (places s) &&
  forallb (λ x, forallb (λ p, bool_decide (t_core <$> tasks s !! p = Some (Some x.1))) (core_tasks x.2) &&
                forallb (λ p, state_in (tasks s) p (λ st, negb (live st))) (cleanup_queue x.2))
    (zip (seq 0 (length (cores s))) (cores s)) &&
  forallb (λ p, state_in (tasks s) p (λ st, bool_decide (st = Ready ∨ st = Running))) (idle <$> cores s) &&
  (last_rq_hart_idx s <? length (cores s))%nat.

Lemma state_in_stands ts p (P : TaskState → bool) (Q : TaskState → Prop) :
  state_in ts p P = true → (∀ st, P st = true → Q st) → stands ts p Q.
Proof. unfold state_in. intros H HQ. destruct (ts !! p) as [t|] eqn:Ht; [|done]. exists t. auto. Qed.

Lemma forallb_elem {A} (P : A → bool) l x : forallb P l = true → x ∈ l → P x = true.
Proof. intros H Hx. rewrite forallb_forall in H. apply H. by apply list_elem_of_In. Qed.

Lemma inv_tested s : inv_test s = true → inv s.
Proof.
  unfold inv_test. rewrite !andb_true_iff. intros [[[[H1 H2] H3] H4] H5].
  assert (∀ c k, cores s !! c = Some k → (c, k) ∈ zip (seq 0 (length (cores s))) (cores s)) as Hz.
  { intros c k Hk. apply list_elem_of_lookup. exists c. apply lookup_zip_Some. cbn. split; [|done].
    apply lookup_seq. split; [done|]. by eapply lookup_lt_Some. }
  split.
  - split; [by apply bool_decide_eq_true in H1|]. intros p st Hp.
    apply (forallb_elem _ _ _ H2) in Hp. by apply bool_decide_eq_true in Hp.
  - intros c k p Hk Hp. apply Hz, (forallb_elem _ _ _ H3), andb_true_iff in Hk as [Hk _].
    apply (forallb_elem _ _ _ Hk) in Hp. by apply bool_decide_eq_true in Hp.
  - intros p Hp. apply (forallb_elem _ _ _ H4) in Hp. eapply state_in_stands; [done|].
    intros st Hst. by apply bool_decide_eq_true in Hst.
  - intros c k p Hk Hp. apply Hz, (forallb_elem _ _ _ H3), andb_true_iff in Hk as [_ Hk].
    apply (forallb_elem _ _ _ Hk) in Hp. eapply state_in_stands; [done|].
    intros st Hst. by apply negb_true_iff in Hst.
  - by apply Nat.ltb_lt in H5.
Qed.

Lemma two_cores_inv : inv two_cores.
Proof. apply inv_tested. by vm_compute. Defined.

(** Task 4 runs on core 0 and core 1 idles; the reapers sleep. *)
Definition race_start : Sys :=
  let t c st := mkTask st None [] (-1) 0 (Some c) [] EMPTY in
  mkSys (list_to_map [(0, t 0%nat Ready); (1, t 0%nat Sleeping); (2, t 1%nat Running);
                      (3, t 1%nat Sleeping); (4, t 0%nat Running)])
    {[0; 1; 2; 3; 4]}
    [mkCore [] [(60000000, 1)] 1000000 4 0 1 [] 1080000; mkCore [] [(60000000, 3)] 1000000 2 2 3 [] 1080000]
    0 ∅ ∅ 1000000 (mkKmem (FrameAllocator.mkFA 0 []) ∅ ∅).

(** The handlers have to run one at a time.  Hart 0 runs task 4, which
    waits for the UART: it is in [block_on_external_irq], after the queue of
    interrupt 10 and before [schedule].  If hart 1 now takes the interrupt and
    reschedules, it runs task 4 while hart 0 still does, on the same kernel
    stack and from a context that was never saved. *)
Theorem irq_wakeup_race : inv race_start ∧ ∃ s1 s2 s3,
  block_irq_enqueue 4 10 race_start = (Ok tt, s1) ∧
  on_external_irq 10 s1 = (Ok tt, s2) ∧
  schedule 2 s2 = (Ok 4, s3) ∧
  runs 0 4 s3 ∧ runs 1 4 s3.
Proof.
  split; [apply inv_tested; by vm_compute|].
  exists (block_irq_enqueue 4 10 race_start).2. eexists. eexists.
  split; [vm_compute; reflexivity|]. split; [vm_compute; reflexivity|].
  split; [vm_compute; reflexivity|]. by split; eexists; (split; [vm_compute; reflexivity|]).
Qed.

(** ** Witnesses *)

(** Task 4 is created, core 0 takes a timer interrupt and runs its reaper. *)
Lemma no_task_runs_twice_witness :
  safe (on_timer_interrupt 0 (publish None 4 (new_task None) two_cores).2).2.
Proof.
  apply (no_task_runs_twice (BF := bitflags_model) two_cores); [apply two_cores_inv|].
  eapply rtc_l; [eapply (k_new two_cores None 4 (new_task None)); [done..|by vm_compute]|].
  eapply rtc_once, (k_timer _ 0 _ 1); [by vm_compute|by vm_compute].
Defined.

(** The idle task of core 0 makes way for the reaper. *)
Lemma schedule_fifo_witness : (schedule 0 two_cores).1 = Ok 1.
Proof.
  assert (∃ k, cores two_cores !! 0%nat = Some k ∧ current k = 0 ∧ runqueue k = [1]) as (k & Hk & Hc & Hq).
  { eexists. split_and!; [vm_compute; reflexivity|done..]. }
  destruct (schedule_fifo two_cores 0 k two_cores_inv Hk) as (s' & k' & E & _ & Hk' & _).
  rewrite Hc in E. rewrite E. cbn. by rewrite Hk', Hq.
Defined.

(** Task 4 sleeps for an hour. *)
Lemma long_sleep_panics_witness : (sleep_current_task 4 3600000 race_start).1 = Panic.
Proof.
  apply (long_sleep_panics race_start 0 (mkCore [] [(60000000, 1)] 1000000 4 0 1 [] 1080000) 3600000);
    [apply inv_tested; by vm_compute|done|done|done|lia].
Defined.
