(* ===== verification/Console.v ===== *)
(** * The UART and the console

    [kernel/src/driver/uart.rs], [kernel/src/console.rs] and the UART loop of
    [kernel/src/arch/riscv/trap/trap_handler.rs].  The UART's registers are a
    class; what the driver relies on (received bytes are read in order, the line
    status says if there is one) are its laws.  A console read that has to wait
    is cut where it calls [block_on_external_irq]: it gives back what it has so
    far, and goes on with that when the task runs again. *)

From S2P Require Import Prelude Errors Vfs.

(** ** The device *)

(** Volatile accesses to the byte registers, by offset. *)
Class UartDev (D : Type) := {
  uart_read : Z → D → Z * D;
  uart_write : Z → Z → D → D;
}.

Abbreviation UART_IER := 1.
Abbreviation UART_LCR := 3.
Abbreviation UART_RHR := 0.
Abbreviation UART_LSR := 5.

(** [received] is the bytes that arrived and were not read yet. *)
Class UartDevOk (D : Type) `{UartDev D} := {
  received : D → list Z;
  lsr_spec d : received (uart_read UART_LSR d).2 = received d ∧
    (Z.land (uart_read UART_LSR d).1 1 = 0 ↔ received d = []);
  rhr_spec d c q : received d = c :: q →
    (uart_read UART_RHR d).1 = c ∧ received (uart_read UART_RHR d).2 = q;
}.

(** ** The driver *)

Definition BUF_SIZE : Z := 1024.

Record Uart := mkUart { buffer : list Z; begin_pos : Z; end_pos : Z }.

(** [Uart::new]. *)
Definition uart_new : Uart := mkUart (replicate 1024 0) 0 0.

(** The position after [pos]. *)
Definition next_pos (pos : Z) : Z := if BUF_SIZE <=? pos + 1 then 0 else pos + 1.

Section driver.
Context {D : Type} `{UartDev D}.

Abbreviation UM := (M (Uart * D) Empty_set).

(** [enable_interrupts]. *)
Definition enable_interrupts : UM unit :=
  modify (λ s, (s.1, uart_write UART_IER 1 (uart_write UART_LCR 3 s.2))).

(** [put_char]. *)
Definition put_char (c : Z) : UM unit := modify (λ s, (s.1, uart_write 0 c s.2)).

(** [read_char_into_buf]; an index outside the buffer panics. *)
Definition read_char_into_buf : UM (option Z) := λ s,
  let '(u, d) := s in
  let '(lsr, d) := uart_read UART_LSR d in
  if Z.land lsr 1 =? 0 then (Ok None, (u, d)) else
  let '(c, d) := uart_read UART_RHR d in
  if negb (end_pos u <? Z.of_nat (length (buffer u))) then (Panic, (u, d)) else
  (Ok (Some c),
   (mkUart (<[Z.to_nat (end_pos u) := c]> (buffer u)) (begin_pos u) (next_pos (end_pos u)), d)).

(** [try_get_char]. *)
Definition try_get_char : UM (option Z) := λ s,
  let '(u, d) := s in
  if begin_pos u =? end_pos u then (Ok None, s) else
  match buffer u !! Z.to_nat (begin_pos u) with
  | Some c => (Ok (Some c), (mkUart (buffer u) (next_pos (begin_pos u)) (end_pos u), d))
  | None => (Panic, s)
  end.

(** [get_char]: the loop, with a bound on how often it looks. *)
Fixpoint get_char (fuel : nat) : UM Z :=
  match fuel with
  | O => diverge
  | S fuel' =>
      let! c := try_get_char in
      match c with Some c => ret c | None => get_char fuel' end
  end.

(** The loop of the trap handler for [UART0_IRQ]; the result is
    [read_anything]. *)
Fixpoint drain (fuel : nat) (read_anything : bool) : UM bool :=
  match fuel with
  | O => diverge
  | S fuel' =>
      let! c := read_char_into_buf in
      match c with Some _ => drain fuel' true | None => ret read_anything end
  end.

(** [ConsoleVNode::read] with [n] bytes of the buffer left and [acc] filled:
    [inl] is the bytes it returns, [inr] the bytes it has when it blocks. *)
Definition cook (c : Z) : Z := if c =? 13 then 10 else c.
Fixpoint console_read (n : nat) (acc : list Z) : UM (list Z + list Z) :=
  match n with
  | O => ret (inl acc)
  | S n' =>
      let! c := try_get_char in
      match c with
      | Some c =>
          if (c =? 10) || (c =? 13) then ret (inl (acc ++ [cook c]))
          else console_read n' (acc ++ [cook c])
      | None => ret (inr acc)
      end
  end.

(** [ConsoleVNode::open], [create], [write] and [sz]; [printk] puts the bytes on
    the output. *)
Definition console_open (path : list Z) : outcome VfsError (File unit) := Err Fs.
Definition console_create (path : list Z) : outcome VfsError (File unit) := Err Fs.
Definition console_sz : Z := 0.
Definition console_write (buf : list Z) : M (list Z) VfsError Z := λ out,
  (Ok (Z.of_nat (length buf)), out ++ buf).

(** [Console::as_file]. *)
Definition as_file : File unit := mkFile tt 0.

(** A task that reads the console, with what is left of its buffer and what is
    in it, and the bytes that came in over the line so far.  Interrupts are off
    in the kernel, so a handler runs between two turns of the reader. *)
Record Con := mkCon { con_uart : Uart; con_dev : D; con_left : nat;
  con_acc : list Z; con_result : option (list Z); con_input : list Z }.

(** ** The ring is a queue *)

(** The characters between the two positions. *)
Definition queue (u : Uart) : list Z :=
  if begin_pos u <=? end_pos u
  then drop (Z.to_nat (begin_pos u)) (take (Z.to_nat (end_pos u)) (buffer u))
  else drop (Z.to_nat (begin_pos u)) (buffer u) ++ take (Z.to_nat (end_pos u)) (buffer u).

Definition ring_ok (u : Uart) : Prop :=
  length (buffer u) = 1024%nat ∧ 0 ≤ begin_pos u < 1024 ∧ 0 ≤ end_pos u < 1024.

Lemma next_pos_range p : 0 ≤ p < 1024 → 0 ≤ next_pos p < 1024.
Proof. unfold next_pos, BUF_SIZE. destruct (Z.leb_spec 1024 (p + 1)); lia. Qed.

Lemma queue_length u : ring_ok u →
  Z.of_nat (length (queue u)) = (end_pos u - begin_pos u) mod 1024.
Proof.
  intros (Hl & Hb & He). unfold queue.
  destruct (Z.leb_spec (begin_pos u) (end_pos u)).
  - rewrite length_drop, length_take, Z.mod_small by lia. lia.
  - rewrite length_app, length_drop, length_take.
    rewrite <-(Z.mod_unique (end_pos u - begin_pos u) 1024 (-1) (end_pos u - begin_pos u + 1024)) by lia.
    lia.
Qed.

(** Taking the first character. *)
Lemma queue_pop u : ring_ok u → begin_pos u ≠ end_pos u →
  ∃ c, buffer u !! Z.to_nat (begin_pos u) = Some c ∧
    let u' := mkUart (buffer u) (next_pos (begin_pos u)) (end_pos u) in
    ring_ok u' ∧ queue u = c :: queue u'.
Proof.
  intros (Hl & Hb & He) Hne.
  destruct (lookup_lt_is_Some_2 (buffer u) (Z.to_nat (begin_pos u))) as [c Hc]; [lia|].
  exists c. split; [done|]. split; [exact (conj Hl (conj (next_pos_range _ Hb) He))|].
  unfold queue, next_pos, BUF_SIZE. cbn [buffer begin_pos end_pos].
  destruct (Z.leb_spec (begin_pos u) (end_pos u)), (Z.leb_spec 1024 (begin_pos u + 1)); [lia|..].
  - rewrite (proj2 (Z.leb_le (begin_pos u + 1) (end_pos u))) by lia.
    rewrite (drop_S _ c) by (rewrite lookup_take_lt; [done|lia]). f_equal. f_equal. lia.
  - rewrite (proj2 (Z.leb_le 0 (end_pos u))) by lia. rewrite (drop_S _ c) by done.
    rewrite drop_ge by lia. by rewrite drop_0.
  - rewrite (proj2 (Z.leb_gt (begin_pos u + 1) (end_pos u))) by lia.
    rewrite (drop_S _ c) by done. cbn. do 2 f_equal. f_equal. lia.
Qed.

(** Adding a character when there is room for it. *)
Lemma queue_push u c : ring_ok u → Z.of_nat (length (queue u)) < 1023 →
  let u' := mkUart (<[Z.to_nat (end_pos u) := c]> (buffer u)) (begin_pos u) (next_pos (end_pos u)) in
  ring_ok u' ∧ queue u' = queue u ++ [c].
Proof.
  intros Hok Hroom u'. pose proof (queue_length u Hok) as Hlen. destruct Hok as (Hl & Hb & He).
  split; [split; [by cbn; rewrite length_insert|exact (conj Hb (next_pos_range _ He))]|].
  unfold u', queue, next_pos, BUF_SIZE. cbn [buffer begin_pos end_pos].
  set (b := Z.to_nat (begin_pos u)). set (e := Z.to_nat (end_pos u)).
  assert (<[e := c]> (buffer u) = take e (buffer u) ++ c :: drop (S e) (buffer u)) as ->.
  { apply insert_take_drop. lia. }
  assert (length (take e (buffer u)) = e) as Ht by (rewrite length_take; lia).
  destruct (Z.leb_spec 1024 (end_pos u + 1)) as [Hw|Hw].
  - assert (begin_pos u ≠ 0) by (intros H0; rewrite H0, Z.sub_0_r, Z.mod_small in Hlen; lia).
    rewrite (proj2 (Z.leb_gt (begin_pos u) 0)) by lia. rewrite (proj2 (Z.leb_le _ (end_pos u))) by lia.
    rewrite take_0, app_nil_r, drop_app_le by lia. do 2 f_equal. rewrite drop_ge by lia. done.
  - replace (Z.to_nat (end_pos u + 1)) with (S e) by lia.
    assert (take (S e) (take e (buffer u) ++ c :: drop (S e) (buffer u)) = take e (buffer u) ++ [c]) as ->.
    { rewrite take_app_ge by lia. rewrite Ht. by replace (S e - e)%nat with 1%nat by lia. }
    destruct (Z.leb_spec (begin_pos u) (end_pos u)).
    + rewrite (proj2 (Z.leb_le (begin_pos u) (end_pos u + 1))) by lia. by rewrite drop_app_le by lia.
    + assert (end_pos u + 1 ≠ begin_pos u).
      { intros He'. rewrite <-(Z.mod_unique _ 1024 (-1) 1023) in Hlen by lia. lia. }
      rewrite (proj2 (Z.leb_gt (begin_pos u) (end_pos u + 1))) by lia.
      rewrite app_assoc. f_equal. rewrite drop_app_ge by lia. rewrite Ht.
      assert (b - e = S (b - S e))%nat as -> by lia. cbn. rewrite drop_drop. do 2 f_equal. lia.
Qed.

(** One more character in a full ring makes it look empty. *)
Lemma queue_push_full u c : ring_ok u → Z.of_nat (length (queue u)) = 1023 →
  next_pos (end_pos u) = begin_pos u ∧
  queue (mkUart (<[Z.to_nat (end_pos u) := c]> (buffer u)) (begin_pos u) (next_pos (end_pos u))) = [].
Proof.
  intros Hok Hfull. rewrite (queue_length u Hok) in Hfull. destruct Hok as (Hl & Hb & He).
  assert (next_pos (end_pos u) = begin_pos u) as Hn.
  { unfold next_pos, BUF_SIZE. destruct (Z.leb_spec 1024 (end_pos u + 1));
      Z.div_mod_to_equations; lia. }
  split; [done|]. unfold queue. cbn [buffer begin_pos end_pos]. rewrite Hn, Z.leb_refl.
  apply length_zero_iff_nil. rewrite length_drop, length_take. lia.
Qed.

Lemma try_get_char_spec u d : ring_ok u →
  match queue u with
  | [] => try_get_char (u, d) = (Ok None, (u, d))
  | c :: q => ∃ u', try_get_char (u, d) = (Ok (Some c), (u', d)) ∧ ring_ok u' ∧ queue u' = q
  end.
Proof.
  intros Hok. pose proof (queue_length u Hok) as Hlen. unfold try_get_char.
  destruct (Z.eqb_spec (begin_pos u) (end_pos u)) as [Heq|Hne].
  - rewrite Heq, Z.sub_diag in Hlen. by destruct (queue u).
  - destruct (queue_pop u Hok Hne) as (c & Hc & Hok' & Hq). rewrite Hq, Hc. eauto.
Qed.

(** *** Lines *)

Definition is_end (c : Z) : bool := (c =? 10) || (c =? 13).

(** The characters of [q] up to its first line end. *)
Fixpoint upto_end (q : list Z) : list Z :=
  match q with [] => [] | c :: q => c :: if is_end c then [] else upto_end q end.

(** What a read of [n] bytes returns of the input [q], and if it is there. *)
Definition line (n : nat) (q : list Z) : list Z := map cook (take n (upto_end q)).
Definition complete (n : nat) (q : list Z) : bool :=
  (n <=? length q)%nat || existsb is_end q.

Lemma complete_cons n c q :
  complete (S n) (c :: q) = is_end c || complete n q.
Proof. unfold complete. cbn. by destruct (n <=? length q)%nat, (is_end c). Qed.

Lemma complete_app n q r : complete n q = true → complete n (q ++ r) = true ∧ line n (q ++ r) = line n q.
Proof.
  revert n. induction q as [|c q IH]; intros [|n]; [done|done|done|].
  rewrite complete_cons. cbn [app]. rewrite complete_cons. unfold line. cbn [upto_end].
  destruct (is_end c); [done|]. cbn [orb]. intros Hc. destruct (IH n Hc) as [-> Hl].
  split; [done|]. unfold line in Hl. cbn. by rewrite Hl.
Qed.

Lemma incomplete_app n q r : complete n q = false →
  complete n (q ++ r) = complete (n - length q) r ∧
  line n (q ++ r) = map cook q ++ line (n - length q) r.
Proof.
  revert n. induction q as [|c q IH]; intros n.
  { by rewrite Nat.sub_0_r. }
  destruct n as [|n]; [done|]. rewrite complete_cons. cbn [app length]. rewrite complete_cons.
  unfold line. cbn [upto_end]. destruct (is_end c); [done|]. cbn [orb]. intros Hc.
  destruct (IH n Hc) as [-> Hl]. split; [done|]. unfold line in Hl. cbn. by rewrite Hl.
Qed.

(** A read takes the line if it is in the ring, and else all there is. *)
Lemma console_read_spec n acc u d : ring_ok u →
  ∃ u', ring_ok u' ∧
  if complete n (queue u)
  then console_read n acc (u, d) = (Ok (inl (acc ++ line n (queue u))), (u', d)) ∧
    queue u = take n (upto_end (queue u)) ++ queue u'
  else console_read n acc (u, d) = (Ok (inr (acc ++ map cook (queue u))), (u', d)) ∧ queue u' = [].
Proof.
  revert n acc u. fix IH 1. intros [|n] acc u Hok.
  { exists u. split; [done|]. cbn. unfold line. by rewrite app_nil_r. }
  pose proof (try_get_char_spec u d Hok) as Hget. destruct (queue u) as [|c q] eqn:Hq.
  { exists u. split; [done|]. cbn. unfold bind. by rewrite Hget, app_nil_r. }
  destruct Hget as (u' & Hget & Hok' & <-). rewrite complete_cons. cbn [console_read].
  unfold bind. rewrite Hget. fold (is_end c). unfold line. cbn [upto_end].
  destruct (is_end c).
  - exists u'. cbn. by rewrite take_nil.
  - destruct (IH n (acc ++ [cook c]) u' Hok') as (u2 & Hok2 & H2). exists u2. split; [done|].
    cbn [orb take map app]. rewrite <-app_assoc in H2. cbn [app] in H2. rewrite <-app_assoc in H2.
    destruct (complete n (queue u')).
    + destruct H2 as [-> H2]. split; [done|]. by f_equal.
    + done.
Qed.

(** *** Interrupts *)

Context `{!UartDevOk D}.

Lemma read_char_some u d c q : ring_ok u → received d = c :: q →
  ∃ d', received d' = q ∧ read_char_into_buf (u, d) = (Ok (Some c),
    (mkUart (<[Z.to_nat (end_pos u) := c]> (buffer u)) (begin_pos u) (next_pos (end_pos u)), d')).
Proof.
  intros (Hl & Hb & He) Hd. unfold read_char_into_buf.
  destruct (lsr_spec d) as [Hk Hlsr]. destruct (uart_read UART_LSR d) as [lsr d1]. cbn in *.
  rewrite <-Hk in Hd. destruct (rhr_spec d1 c q Hd) as [Hc Hq].
  destruct (Z.eqb_spec (Z.land lsr 1) 0) as [H0|_]; [apply Hlsr in H0; congruence|].
  destruct (uart_read UART_RHR d1) as [c' d2]. cbn in *. subst c'.
  rewrite (proj2 (Z.ltb_lt (end_pos u) _)) by lia. eauto.
Qed.

Lemma read_char_none u d : received d = [] →
  ∃ d', received d' = [] ∧ read_char_into_buf (u, d) = (Ok None, (u, d')).
Proof.
  intros Hd. unfold read_char_into_buf. destruct (lsr_spec d) as [Hk Hlsr].
  destruct (uart_read UART_LSR d) as [lsr d1]. cbn in *.
  rewrite (proj2 Hlsr Hd), Z.eqb_refl. exists d1. by rewrite Hk.
Qed.

(** The interrupt handler's loop ends, and moves all that was received into the
    ring when it fits. *)
Lemma drain_spec u d b : ring_ok u → (length (queue u) + length (received d) ≤ 1023)%nat →
  ∃ u' d', drain (S (length (received d))) b (u, d)
      = (Ok (b || negb (length (received d) =? 0)%nat), (u', d')) ∧
    ring_ok u' ∧ queue u' = queue u ++ received d ∧ received d' = [].
Proof.
  remember (received d) as q eqn:Hd. symmetry in Hd. revert u d b Hd.
  induction q as [|c q IH]; intros u d b Hd Hok Hroom.
  - destruct (read_char_none u d Hd) as (d' & Hd' & Hr). exists u, d'. cbn. unfold bind.
    rewrite Hr. by rewrite orb_false_r, app_nil_r.
  - destruct (read_char_some u d c q Hok Hd) as (d1 & Hd1 & Hr). cbn [length] in Hroom.
    destruct (queue_push u c Hok) as [Hok1 Hq1]; [lia|]. cbn [length].
    destruct (IH _ d1 true Hd1 Hok1) as (u' & d' & Hdr & Hok' & Hq' & Hd').
    { rewrite Hq1, length_app. cbn. lia. }
    exists u', d'. rewrite Hq', Hq1, <-app_assoc. split_and!; [|done..].
    change (drain (S (S ?f)) b) with (bind read_char_into_buf (λ c,
      match c with Some _ => drain (S f) true | None => ret b end)).
    rewrite (bind_ok _ _ _ _ _ Hr), Hdr. by destruct b.
Qed.

(** *** The reader and the interrupts together *)

Inductive con_step : Con → Con → Prop :=
  | con_arrive u d d' n acc o inp c : received d' = received d ++ [c] →
      con_step (mkCon u d n acc o inp) (mkCon u d' n acc o (inp ++ [c]))
  | con_irq u d u' d' n acc o inp b : drain (S (length (received d))) false (u, d) = (Ok b, (u', d')) →
      con_step (mkCon u d n acc o inp) (mkCon u' d' n acc o inp)
  | con_done u d u' d' n acc out inp : console_read n acc (u, d) = (Ok (inl out), (u', d')) →
      con_step (mkCon u d n acc None inp) (mkCon u' d' n acc (Some out) inp)
  | con_block u d u' d' n acc acc' inp : console_read n acc (u, d) = (Ok (inr acc'), (u', d')) →
      con_step (mkCon u d n acc None inp)
        (mkCon u' d' (n - (length acc' - length acc)) acc' None inp).

(** The input is what the reader took and what is still queued. *)
Definition con_ok (n : nat) (s : Con) : Prop :=
  ring_ok (con_uart s) ∧
  match con_result s with
  | Some out => complete n (con_input s) = true ∧ out = line n (con_input s) ∧
      ∃ taken, con_input s = taken ++ queue (con_uart s) ++ received (con_dev s)
  | None => ∃ taken, con_input s = taken ++ queue (con_uart s) ++ received (con_dev s) ∧
      complete n taken = false ∧ con_acc s = map cook taken ∧ con_left s = (n - length taken)%nat
  end.

Lemma con_ok_step n s s' : con_ok n s → con_step s s' →
  (length (con_input s') ≤ 1023)%nat → con_ok n s'.
Proof.
  intros Hok Hstep Hlen. destruct Hstep as [u d d' m acc o inp c Hc|u d u' d' m acc o inp b Hd
    |u d u' d' m acc out inp Hr|u d u' d' m acc acc' inp Hr];
    unfold con_ok in *; cbn [con_uart con_dev con_left con_acc con_result con_input] in *;
    destruct Hok as [Hring Hok].
  - split; [done|]. rewrite Hc. destruct o as [out|].
    + destruct Hok as (Hcm & -> & taken & ->). destruct (complete_app _ _ [c] Hcm) as [-> ->].
      split_and!; [done..|]. exists taken. by rewrite <-!app_assoc.
    + destruct Hok as (taken & -> & Hrest). exists taken. by rewrite <-!app_assoc.
  - assert (length (queue u) + length (received d) ≤ 1023)%nat as Hroom.
    { destruct o as [out|]; [destruct Hok as (_ & _ & taken & ->)|destruct Hok as (taken & -> & _)];
        rewrite !length_app in Hlen; lia. }
    destruct (drain_spec u d false Hring Hroom) as (u2 & d2 & Hd2 & Hring2 & Hq2 & Hr2).
    rewrite Hd2 in Hd. injection Hd as <- <- <-. by rewrite Hq2, Hr2, app_nil_r.
  - destruct Hok as (taken & -> & Hinc & -> & ->).
    destruct (console_read_spec (n - length taken) (map cook taken) u d Hring) as (u2 & Hring2 & Hcase).
    destruct (complete _ _) eqn:Hcm in Hcase; destruct Hcase as [Hr2 Hq]; rewrite Hr2 in Hr; simplify_eq.
    split; [done|]. destruct (incomplete_app _ _ (queue u ++ received d') Hinc) as [-> ->].
    destruct (complete_app _ _ (received d') Hcm) as [-> ->]. split_and!; [done..|].
    exists (taken ++ take (n - length taken) (upto_end (queue u))).
    rewrite <-app_assoc. f_equal. by rewrite app_assoc, <-Hq.
  - destruct Hok as (taken & -> & Hinc & -> & ->).
    destruct (console_read_spec (n - length taken) (map cook taken) u d Hring) as (u2 & Hring2 & Hcase).
    destruct (complete _ _) eqn:Hcm in Hcase; destruct Hcase as [Hr2 Hq]; rewrite Hr2 in Hr; simplify_eq.
    split; [done|]. exists (taken ++ queue u). rewrite Hq.
    destruct (incomplete_app _ _ (queue u) Hinc) as [-> _]. rewrite Hcm, <-map_app.
    split_and!; [by rewrite <-app_assoc|done|done|]. rewrite !length_app, !length_map, length_app. lia.
Qed.

Lemma con_input_mono s s' : rtc con_step s s' → (length (con_input s) ≤ length (con_input s'))%nat.
Proof.
  induction 1 as [|s s1 s2 Hs _ IH]; [lia|]. etrans; [|exact IH].
  destruct Hs; cbn; rewrite ?length_app; lia.
Qed.

Lemma con_ok_steps n s s' : con_ok n s → rtc con_step s s' →
  (length (con_input s') ≤ 1023)%nat → con_ok n s'.
Proof.
  intros Hok Hs. revert Hok. induction Hs as [|s s1 s2 H1 H2 IH]; [done|]. intros Hok Hlen.
  apply IH; [|done]. eapply con_ok_step; [done..|]. apply con_input_mono in H2. lia.
Qed.

(** C28: however the bytes of the line are spread over interrupts, and however
    often the reading task blocks in between, a console read of [n] bytes, of at
    least one, that returns gives the first line of the whole input (carriage return
    as newline, at most [n] bytes); and once the line is complete, at most two more
    steps of the driver and the reader let it return, with no more input.  The ring of the driver is empty at first, and the whole
    input is at most 1023 bytes, which is what the ring can hold. *)
Theorem console_reads_the_line n d s : received d = [] →
  rtc con_step (mkCon uart_new d n [] None []) s → (0 < n)%nat →
  (length (con_input s) ≤ 1023)%nat →
  (∀ out, con_result s = Some out → complete n (con_input s) = true ∧ out = line n (con_input s)) ∧
  (complete n (con_input s) = true →
   ∃ k s', (k ≤ 2)%nat ∧ nsteps con_step k s s' ∧ con_input s' = con_input s ∧
     con_result s' = Some (line n (con_input s))).
Proof.
  intros Hd Hs Hn Hlen. assert (con_ok n s) as Hok.
  { eapply con_ok_steps; [|done..]. split; [done|]. exists []. cbn. rewrite Hd.
    split_and!; [done| |done|lia]. unfold complete. cbn. by destruct n; [lia|]. }
  destruct s as [u d1 m acc o inp]. unfold con_ok in Hok.
  cbn [con_uart con_dev con_left con_acc con_result con_input] in *. destruct Hok as [Hring Hok].
  destruct o as [out|].
  { destruct Hok as (Hc & -> & _). split; [by intros ? [= <-]|]. intros _. eexists 0%nat, _. split; [lia|]. split; [apply nsteps_O|done]. }
  split; [done|]. destruct Hok as (taken & -> & Hinc & -> & ->). intros Hcm.
  rewrite !length_app in Hlen.
  destruct (drain_spec u d1 false Hring) as (u2 & d2 & Hdr & Hring2 & Hq2 & Hd2); [lia|].
  destruct (incomplete_app _ _ (queue u ++ received d1) Hinc) as [Hcm' ->].
  rewrite Hcm in Hcm'. rewrite <-Hq2 in *.
  destruct (console_read_spec (n - length taken) (map cook taken) u2 d2 Hring2) as (u3 & _ & Hcase).
  rewrite <-Hcm' in Hcase. destruct Hcase as [Hr _].
  eexists 2%nat, _. split; [lia|]. split; [eapply nsteps_l; [by eapply con_irq|]; eapply nsteps_l; [by eapply con_done|]; apply nsteps_O|done].
Qed.

(** With 1023 unread characters in the ring, the next received character
    makes all of them unreadable: the driver has no check for a full ring, and
    equal positions mean an empty one. *)
Theorem full_ring_is_lost u d c q : ring_ok u → received d = c :: q →
  Z.of_nat (length (queue u)) = 1023 →
  ∃ u' d', read_char_into_buf (u, d) = (Ok (Some c), (u', d')) ∧
    queue u' = [] ∧ try_get_char (u', d') = (Ok None, (u', d')).
Proof.
  intros Hok Hd Hfull. destruct (read_char_some u d c q Hok Hd) as (d' & _ & ->).
  destruct (queue_push_full u c Hok Hfull) as [Hn Hq]. do 2 eexists. split_and!; [done..|].
  unfold try_get_char. cbn [begin_pos end_pos]. by rewrite Hn, Z.eqb_refl.
Qed.
End driver.

(** ** A UART with a receive queue *)

(** The receive queue, and the bytes written to the registers. *)
#[export] Instance queue_uart : UartDev (list Z * list (Z * Z)) := {
  uart_read r d :=
    if r =? UART_LSR then (match d.1 with [] => 96 | _ => 97 end, d)
    else if r =? UART_RHR then
      match d.1 with [] => (0, d) | c :: q => (c, (q, d.2)) end
    else (0, d);
  uart_write r v d := (d.1, d.2 ++ [(r, v)]);
}.

#[export] #[refine] Instance queue_uart_ok : UartDevOk (list Z * list (Z * Z)) := {
  received d := d.1;
}.
Proof.
  - intros [[|c q] w]; by cbn.
  - intros [r w] c q [= ->]. done.
Defined.

(** The line "hi", with a carriage return, that comes in two interrupts. *)
Definition arrived (l : list Z) : list Z * list (Z * Z) := (l, []).

Lemma console_reads_the_line_witness :
  ∃ s, con_input s = [104; 105; 13] ∧
  ∃ k s', (k ≤ 2)%nat ∧ nsteps con_step k s s' ∧ con_input s' = con_input s ∧ con_result s' = Some [104; 105; 10].
Proof.
  set (s0 := mkCon uart_new (arrived []) 8 [] None []).
  assert (∃ s, rtc con_step s0 s ∧ con_input s = [104; 105; 13]) as (s & Hs & Hin).
  { eexists. split.
    - eapply rtc_l; [apply (con_arrive _ _ (arrived [104]) _ _ _ _ 104); reflexivity|].
      eapply rtc_l; [eapply con_irq; vm_compute; reflexivity|].
      eapply rtc_l; [eapply con_block; vm_compute; reflexivity|].
      eapply rtc_l; [apply (con_arrive _ _ (arrived [105]) _ _ _ _ 105); reflexivity|].
      eapply rtc_l; [apply (con_arrive _ _ (arrived [105; 13]) _ _ _ _ 13); reflexivity|].
      apply rtc_refl.
    - vm_compute. reflexivity. }
  exists s. split; [done|].
  assert (received (arrived []) = []) as Hd by reflexivity.
  destruct (console_reads_the_line 8 (arrived []) s Hd Hs ltac:(lia)) as [_ H].
  { rewrite Hin. cbn. lia. }
  rewrite Hin in *. by apply H.
Defined.

Lemma full_ring_is_lost_witness :
  ∃ u' d', read_char_into_buf (mkUart (replicate 1024 65) 1 0, arrived [66]) = (Ok (Some 66), (u', d')) ∧
    queue u' = [] ∧ try_get_char (u', d') = (Ok None, (u', d')).
Proof.
  apply (full_ring_is_lost (mkUart (replicate 1024 65) 1 0) (arrived [66]) 66 []);
    [split; [reflexivity|split; cbn; lia]|reflexivity|vm_compute; reflexivity].
Defined.
