(* ===== verification/Trap.v ===== *)
(** * Traps

    [trap_handler] of [kernel/src/arch/riscv/trap/trap_handler.rs] with the
    causes of [trap_frame.rs] and the interrupt controller of
    [kernel/src/arch/riscv/plic.rs].

    The kernel is here beside the UART, with the ring of its driver, and the
    interrupt controller, whose registers are a class. *)

From S2P Require Import Prelude Errors Kmalloc Vfs Addr Sv39 FrameAllocator PageMeta PageTable PageMap PageFork MemMgr MemFault UserMem UserView ForkView KernelMap TaskSpace Elf ElfLoad InitStack InOrder Registers FileTable TaskPool Sched TaskNew TaskFork Console Syscall SyscallIO.

(** ** Model *)

(** [TrapCause], and its [From<usize>]. *)
Inductive TrapCause := Syscall | TimerInterrupt | ExternalIrq | LoadPageFault | StorePageFault | UnknownTrap (value : Z).
Definition trap_cause (value : Z) : TrapCause :=
  if value =? 0x8 then Syscall
  else if value =? 0xd then LoadPageFault
  else if value =? 0xf then StorePageFault
  else if value =? 0x8000000000000005 then TimerInterrupt
  else if value =? 0x8000000000000009 then ExternalIrq
  else UnknownTrap value.

(** Volatile accesses to the registers of the interrupt controller. *)
Class PlicDev (P : Type) := {
  plic_read : Z → P → Z * P;
  plic_write : Z → Z → P → P;
}.

Section traps.
Context {S N : Type} `{HV : VNode S N} `{EC : ElfCrate} `{BF : Bitflags} {FB : FromBits} {MU : Mmu}.
Context {D P : Type} `{UD : UartDev D} `{PD : PlicDev P}.
Context (vfs_open vfs_create : list Z → M S VfsError (File N)) (console : N) (trap_resume_ptr : Z).

Abbreviation Kernel := (Kernel (S := S) (N := N)).

(** [core_ids] is the field [core_id] of each core context. *)
Record Machine := mkMachine { m_kernel : Kernel; m_uart : Uart * D; m_plic : P; core_ids : list Z }.
Abbreviation MT := (M Machine Error).

Definition set_m_kernel (k : Kernel) (s : Machine) : Machine := mkMachine k (m_uart s) (m_plic s) (core_ids s).
Definition set_m_uart (u : Uart * D) (s : Machine) : Machine := mkMachine (m_kernel s) u (m_plic s) (core_ids s).
Definition set_m_plic (p : P) (s : Machine) : Machine := mkMachine (m_kernel s) (m_uart s) p (core_ids s).

Definition kernel_op {A} (m : M Kernel Error A) : MT A := zoom m_kernel set_m_kernel m.
Definition uart_op {A} (m : M (Uart * D) Empty_set A) : MT A := unwrapped (zoom m_uart set_m_uart m).

(** [plic_claim] and [plic_complete]. *)
Definition plic_claim (hart : Z) : MT Z := λ s,
  let '(irq, p) := plic_read (plic_sclaim hart) (m_plic s) in (Ok irq, set_m_plic p s).
Definition plic_complete (hart irq : Z) : MT unit :=
  modify (λ s, set_m_plic (plic_write (plic_sclaim hart) irq (m_plic s)) s).

(** [load_core_ctx().core_id]. *)
Definition core_id (me : Z) : MT Z :=
  let! c := kernel_op (sys_op (load_core_ctx me)) in λ s, (unwrap (core_ids s !! c), s).

(** The branch for [TrapCause::ExternalIrq]. *)
Definition external_irq (me : Z) (fuel : nat) : MT unit :=
  let! hart_id := core_id me in
  let! interrupt_id := plic_claim hart_id in
  (if interrupt_id =? 0 then ret tt
   else if interrupt_id =? UART0_IRQ then
     let! read_anything := uart_op (drain fuel false) in
     if read_anything then kernel_op (sys_op (on_external_irq interrupt_id)) else ret tt
   else ret tt) ;;;
  if negb (interrupt_id =? 0) then plic_complete hart_id interrupt_id else ret tt.

(** [get_cause], and the field [sepc]. *)
Definition get_cause (tf : Z) : M Kernel Error TrapCause :=
  gets (λ s, trap_cause (word_at (tf + 8 * SCAUSE) (mem (memory (k_sys s))))).
Definition skip_ecall (tf : Z) : M Kernel Error unit :=
  let! sepc := gets (λ s, word_at (tf + 8 * SEPC) (mem (memory (k_sys s)))) in
  let! sepc := lift (add_ov 64 sepc 4) in
  on_mem (set_word (tf + 8 * SEPC) sepc).

(** The branches for page faults. *)
Definition page_fault (me stval access_flags : Z) : M Kernel Error (Z * option Resume) :=
  let! c := sys_op (load_core_ctx me) in
  let! k := sys_op (core_of c) in
  let! tp := sys_op (on_page_fault me (current k) stval access_flags) in
  ret (tp, None).

(** [trap_handler]: the task the hart goes on with, and what is left of a system
    call of [me].  [fuel] bounds the loop that empties the UART. *)
Definition trap_handler (fuel : nat) (me tf stval : Z) : MT (Z * option Resume) :=
  let! cause := kernel_op (get_cause tf) in
  match cause with
  | ExternalIrq => external_irq me fuel ;;; ret (me, None)
  | TimerInterrupt => kernel_op (let! tp := sys_op (on_timer_interrupt me) in ret (tp, None))
  | Syscall =>
      kernel_op (skip_ecall tf ;;; dispatch_syscall vfs_open vfs_create console trap_resume_ptr me tf)
  | LoadPageFault => kernel_op (page_fault me stval PTE_R)
  | StorePageFault => kernel_op (page_fault me stval PTE_W)
  | UnknownTrap _ => panic
  end.
End traps.
