(* ===== verification/TrapSpec.v ===== *)
(** * What traps do

    The handler of [Trap] on a fork, on a timer, on an interrupt of the UART and
    on a fault. *)

From S2P Require Import Prelude Errors Kmalloc Vfs Addr Sv39 FrameAllocator PageMeta PageTable PageMap PageFork MemMgr MemFault UserMem UserView ForkView KernelMap TaskSpace Elf ElfLoad InitStack InOrder Registers FileTable TaskPool Sched TaskNew TaskFork Console Syscall SyscallIO Trap.

Section traps.
Context {S N : Type} `{HV : VNode S N} `{EC : ElfCrate} `{BF : Bitflags} {HBF : BitflagsOk BF} {FB : FromBits}.
Context {MU : Mmu} {HMU : MmuOk MU}.
Context {D P : Type} `{UD : UartDev D} {UO : UartDevOk D} `{PD : PlicDev P}.
Context (vfs_open vfs_create : list Z → M S VfsError (File N)) (console : N) (trap_resume_ptr : Z).

Abbreviation Kernel := (Kernel (S := S) (N := N)).
Implicit Types (s : Kernel) (t : Task).

(** ** Fork *)

(** A task that forks, in the middle of a system call. *)
Definition forking s (me : Z) t (th : Thread) : Prop := calling s me (trap_frame th) t ∧ forks s me t th.

Lemma forking_set_saved s me t th i w : (i < 34)%nat → forking s me t th → forking (set_saved (trap_frame th) i w s) me t th.
Proof.
  intros Hi [Hc [F1 F2 F3 F4 F5 F6 [n F7] F8 F9 F10]].
  destruct (calling_set_word s me (trap_frame th) t i w Hc Hi) as (Hc' & _ & _ & _). split; [exact Hc'|].
  set (tf := trap_frame th) in *. set (p := tf + 8 * Z.of_nat i).
  assert (Hp : tf ≤ p < tf + TRAP_FRAME_SIZE) by (change TRAP_FRAME_SIZE with 272; unfold p; lia).
  assert (Hkeep : ∀ x, x ∈ tables 3 (mem (memory (k_sys s))) (root_pt (t_mm t)) →
    frame (set_word p w (mem (memory (k_sys s)))) x = frame (mem (memory (k_sys s))) x).
  { intros x Hx. unfold set_word, upd. apply frame_insert_ne. intros E. apply (ca_private _ _ _ _ Hc p Hp). left.
    unfold kernel_page. by rewrite <-E. }
  split; [exact F1|exact F2|exact F3|apply Hc'| | |exists n|intros x; by apply set_word_frame|exact F9|exact F10].
  - exact (forkable_kept (mkSpace (t_mm t) (memory (k_sys s))) (memory (k_sys (set_saved tf i w s))) F5 eq_refl Hkeep (λ _ H, H)).
  - destruct F6 as [R1 R2 R3]. split; [done|exact R2|]. intros q Hq Hin. apply (R3 q Hq). cbn [mm km] in *.
    revert Hin. cbn [set_saved with_memory k_sys set_sys memory set_memory mem set_mem]. fold p.
    by rewrite (tables_frame 3 _ _ _ Hkeep).
  - destruct F7 as ([] & F71). split; [by split|exact F71].
Qed.

(** The parent after [task_fork], still in its system call. *)
Lemma forked_calling s s' me t th pid m th' c : forking s me t th → forked_task trap_resume_ptr s s' me pid t th m th' c →
  fork_frames (space_of s t) m (memory (k_sys s')) (trap_frame th') →
  calling s' me (trap_frame th) (set_t_children (t_children t ++ [pid]) t).
Proof.
  intros [[C1 C2 C3 C4 C5 C6 C7] Hf] Ht Hff. destruct C2 as (c0 & k0 & H1 & H2 & H3). split.
  - apply (ft_task _ _ _ _ _ _ _ _ _ _ Ht).
  - destruct (ft_queue _ _ _ _ _ _ _ _ _ _ Ht) as (k & Hk & Hq). exists c0. destruct (decide (c = c0)) as [->|Hne].
    + exists (set_runqueue (runqueue k ++ [pid]) k0). split; [done|]. rewrite Hq, list_lookup_alter_eq, H2. done.
    + exists k0. split; [done|]. by rewrite Hq, list_lookup_alter_ne.
  - exact (po_parent _ _ _ (ff_pair _ _ _ _ Hff)).
  - done.
  - intros q Hq. by apply (ff_held _ _ _ _ Hff), C5.
  - intros q Hq Ho. apply (C6 q Hq). apply (ff_owns _ _ _ _ Hff _ (t_mm t)); [by left|by apply C5|exact Ho].
  - intros q Hq. rewrite (ff_kept _ _ _ _ Hff); [by apply C7|by apply C5|]. intros Hin. apply (C6 q Hq). by left.
Qed.
(** A saved register of one task, as another task sees it. *)
Lemma other_set_saved s tf i w m tf' : let p := tf + 8 * Z.of_nat i in let s' := set_saved tf i w s in
  uspace (mkSpace m (memory (k_sys s))) → ¬ owns (mkSpace m (memory (k_sys s))) (kernel_page p) →
  (∀ q, tf' ≤ q < tf' + TRAP_FRAME_SIZE → kernel_page q ≠ kernel_page p) →
  saved s' tf' = saved s tf' ∧ ∀ a, view (mkSpace m (memory (k_sys s'))) a = view (mkSpace m (memory (k_sys s))) a.
Proof.
  intros p s' Hu Hno Hne.
  assert (Hfr : ∀ x, x ≠ kernel_page p → frame (mem (memory (k_sys s'))) x = frame (mem (memory (k_sys s))) x).
  { intros x Hx. apply frame_insert_ne. exact Hx. }
  split.
  - apply words_at_ext. intros j Hj. apply word_at_frame, Hfr, Hne. change TRAP_FRAME_SIZE with 272. lia.
  - intros a. apply (kept_view (mkSpace m (memory (k_sys s))) (memory (k_sys s')) Hu); [|by intros|].
    + destruct (us_space _ Hu) as ([] & _). by split.
    + intros x Hx. apply Hfr. by intros ->.
Qed.

Lemma arg_saved s tf i : (i < 8)%nat → saved s tf !! (9 + i)%nat = Some (arg s tf (Z.of_nat i)).
Proof.
  intros Hi. unfold saved, words_at, arg. rewrite list_lookup_fmap, lookup_seqZ_lt by lia. cbn [fmap option_fmap option_map].
  do 3 f_equal. unfold A0. lia.
Qed.

Lemma set_saved_arg s me tf t i w j : calling s me tf t → (17 ≤ i < 34)%nat → (j < 8)%nat →
  arg (set_saved tf i w s) tf (Z.of_nat j) = arg s tf (Z.of_nat j).
Proof.
  intros Hc Hi Hj. destruct (calling_set_word s me tf t i w Hc ltac:(lia)) as (_ & Hs & _).
  pose proof (arg_saved (set_saved tf i w s) tf j Hj) as H1. rewrite Hs, list_lookup_insert_ne, arg_saved in H1 by lia. congruence.
Qed.

(** ** System calls *)

Abbreviation handler := (trap_handler vfs_open vfs_create console trap_resume_ptr).
Abbreviation dispatch := (dispatch_syscall vfs_open vfs_create console trap_resume_ptr).

(** The program counter and the cause that the hardware left. *)
Definition saved_sepc s tf : Z := word_at (tf + 8 * SEPC) (mem (memory (k_sys s))).
Definition saved_cause s tf : Z := word_at (tf + 8 * SCAUSE) (mem (memory (k_sys s))).

Lemma trap_syscall fuel me tf stval (ms : Machine (S := S) (N := N) (D := D) (P := P)) :
  saved_cause (m_kernel ms) tf = 8 → saved_sepc (m_kernel ms) tf + 4 < 2 ^ 64 →
  handler fuel me tf stval ms =
    let '(o, s') := dispatch me tf (set_saved tf 31 (saved_sepc (m_kernel ms) tf + 4) (m_kernel ms)) in (o, set_m_kernel s' ms).
Proof.
  intros Hc Hs. unfold trap_handler. unfold bind at 1, kernel_op at 1, zoom at 1, get_cause, gets.
  fold (saved_cause (m_kernel ms) tf). rewrite Hc. change (trap_cause 8) with Trap.Syscall. cbv beta iota.
  replace (set_m_kernel (m_kernel ms) ms) with ms by (by destruct ms). unfold kernel_op, zoom.
  unfold bind at 1, skip_ecall. unfold bind at 1, gets. fold (saved_sepc (m_kernel ms) tf). unfold bind at 1, lift, add_ov, checked_add.
  rewrite (proj2 (Z.ltb_lt _ _)) by done. done.
Qed.

Lemma finish_set_saved s s1 me tf (call : M Kernel Stop Z) v : call s = (Ok v, s1) →
  finish_syscall me tf call s = (Ok (me, None), set_saved tf 9 (as_usize v) s1).
Proof. intros Hs. unfold finish_syscall, bind at 1, attempt. by rewrite Hs. Qed.

(** [s'] is what a fork of [me] leaves, when its registers were [regs]. *)
Definition forked_twice s s' (me : Z) t (th : Thread) (regs : list Z) : Prop :=
  ∃ th' t', k_threads s' !! k_pids s = Some th' ∧ context th' = context_initialize trap_resume_ptr (trap_frame th') ∧
    tasks (k_sys s') !! k_pids s = Some t' ∧ t_parent t' = Some me ∧
    saved s' (trap_frame th) = <[9%nat := as_usize (k_pids s)]> regs ∧ saved s' (trap_frame th') = <[9%nat := 0]> regs ∧
    ∀ a, view (mkSpace (t_mm t) (memory (k_sys s'))) a = view (space_of s t) a ∧
         view (mkSpace (t_mm t') (memory (k_sys s'))) a = view (space_of s t) a.

Lemma forked_twice_intro s s2 me t th m th' c : forking s me t th → forked_task trap_resume_ptr s s2 me (k_pids s) t th m th' c →
  fork_frames (space_of s t) m (memory (k_sys s2)) (trap_frame th') →
  forked_twice s (set_saved (trap_frame th) 9 (as_usize (k_pids s)) s2) me t th (saved s (trap_frame th)).
Proof.
  intros Hfg Ht Hff. pose proof (forked_calling _ _ _ _ _ _ _ _ _ Hfg Ht Hff) as Hc. destruct Hfg as [Hc0 _].
  set (tf := trap_frame th) in *. set (p := tf + 8 * Z.of_nat 9).
  assert (Hp : tf ≤ p < tf + TRAP_FRAME_SIZE) by (change TRAP_FRAME_SIZE with 272; unfold p; lia).
  destruct (calling_set_word s2 me tf _ 9 (as_usize (k_pids s)) Hc ltac:(lia)) as (_ & Hs & Hv & _).
  destruct (other_set_saved s2 tf 9 (as_usize (k_pids s)) m (trap_frame th')) as [Hs' Hv'].
  - exact (po_child _ _ _ (ff_pair _ _ _ _ Hff)).
  - intros Ho. apply (ca_private _ _ _ _ Hc0 p Hp), (ff_owns _ _ _ _ Hff _ m); [by right|by apply (ca_held _ _ _ _ Hc0)|exact Ho].
  - intros q Hq E. destruct (ff_child _ _ _ _ Hff q Hq) as (_ & Hn & _). apply Hn. rewrite E. by apply (ca_held _ _ _ _ Hc0).
  - destruct (ft_task _ _ _ _ _ _ _ _ _ _ Ht) as [Htc _]. destruct (ft_thread _ _ _ _ _ _ _ _ _ _ Ht) as (Hth & _ & _ & Hctx).
    exists th'. eexists. split; [exact Hth|]. split; [exact Hctx|]. split; [exact Htc|]. split; [done|]. fold tf.
    split; [rewrite Hs; f_equal; exact (ft_parent_registers _ _ _ _ _ _ _ _ _ _ Ht)|].
    split; [rewrite Hs'; exact (ft_registers _ _ _ _ _ _ _ _ _ _ Ht)|]. intros a. rewrite Hv'.
    destruct (ft_memory _ _ _ _ _ _ _ _ _ _ Ht _ _ _ (rtc_refl _ _) a) as [H1 H2]. split; [|exact H2].
    etransitivity; [apply Hv|exact H1].
Qed.

(** A task that forks by [clone] comes back twice.  The trap leaves it and
    the new task with the same saved registers, both behind the [ecall], except
    that [a0] is the child's pid in the one and 0 in the other, and both find
    the memory as it was.  Only if every frame is in use afterwards, no task is made
    or the kernel panics. *)
Theorem fork_returns_twice fuel stval (ms : Machine (S := S) (N := N) (D := D) (P := P)) me t th :
  let s := m_kernel ms in
  let tf := trap_frame th in
  forking s me t th → saved_cause s tf = 8 → saved_sepc s tf + 4 < 2 ^ 64 →
  arg s tf 7 = SYS_CLONE → arg s tf 0 = SIGCHLD → arg s tf 1 = 0 →
  match handler fuel me tf stval ms with
  | (Ok (tp, rest), ms') => tp = me ∧ rest = None ∧
      (forked_twice s (m_kernel ms') me t th (<[31%nat := saved_sepc s tf + 4]> (saved s tf)) ∨
       full (fa (memory (k_sys (m_kernel ms')))) ∧ k_threads (m_kernel ms') = k_threads s ∧ tasks (k_sys (m_kernel ms')) = tasks (k_sys s))
  | (Panic, ms') => full (fa (memory (k_sys (m_kernel ms'))))
  | _ => False
  end.
Proof.
  intros s tf Hfg Hcause Hsepc H7 H0 H1. rewrite trap_syscall by done. fold s. set (s1 := set_saved tf 31 _ s).
  pose proof Hfg as [Hc _]. pose proof (forking_set_saved s me t th 31 (saved_sepc s tf + 4) ltac:(lia) Hfg) as Hfg1. fold tf s1 in Hfg1.
  assert (Harg : ∀ j, (j < 8)%nat → arg s1 tf (Z.of_nat j) = arg s tf (Z.of_nat j)) by (intros j Hj; apply (set_saved_arg s me tf t); [done|lia|done]).
  rewrite (dispatch_number vfs_open vfs_create console trap_resume_ptr s1 me tf SYS_CLONE) by exact (eq_trans (Harg 7%nat ltac:(lia)) H7).
  set (call := do_dispatch_syscall _ _ _ _ _ _ _).
  assert (Hcall : call s1 = (let! pid := failing (task_fork trap_resume_ptr me) in ret (as_isize pid)) s1).
  { change (call s1) with ((let! clone_flags := get_arg tf 0 in let! newsp := get_arg tf 1 in
      if negb (clone_flags =? SIGCHLD) || negb (newsp =? 0) then fail (Failed InvalidArgs) else
      let! pid := failing (task_fork trap_resume_ptr me) in ret (as_isize pid)) s1).
    unfold bind at 1 2, get_arg, gets. fold (arg s1 tf 0) (arg s1 tf 1).
    by rewrite (eq_trans (Harg 0%nat ltac:(lia)) H0 : arg s1 tf 0 = _), (eq_trans (Harg 1%nat ltac:(lia)) H1 : arg s1 tf 1 = _). }
  unfold bind, failing in Hcall. pose proof (task_fork_ok trap_resume_ptr s1 me t th (proj2 Hfg1)) as Hf.
  destruct (task_fork trap_resume_ptr me s1) as [[pid|e| |] s2].
  - destruct Hf as (-> & m & th' & c & Ht & Hff). rewrite (finish_set_saved s1 s2 me tf call _ Hcall). split; [done|]. split; [done|]. left.
    destruct (calling_set_word s me tf t 31 (saved_sepc s tf + 4) Hc ltac:(lia)) as (_ & Hs & Hv & _). fold s1 in Hs, Hv.
    rewrite as_usize_as_isize. pose proof (forked_twice_intro s1 s2 me t th m th' c Hfg1 Ht Hff) as Hft.
    unfold forked_twice in *. fold tf in Hft. rewrite Hs in Hft. by setoid_rewrite Hv in Hft.
  - destruct Hf as (-> & k' & -> & Hfull). unfold finish_syscall, bind at 1, attempt. rewrite Hcall. split; [done|]. split; [done|]. by right.
  - unfold finish_syscall, bind at 1, attempt. by rewrite Hcall.
  - done.
Qed.
End traps.

(** ** A fork of the example *)

(** Registers of an interrupt controller that has nothing to say. *)
#[export] Instance quiet_plic : PlicDev unit := {| plic_read _ p := (0, p); plic_write _ _ p := p |}.

(** The example task at an [ecall] of [clone(SIGCHLD, 0)]. *)
Definition example_clone : Kernel (S := list Z) (N := unit) :=
  let tf := trap_frame example_parent in
  set_saved tf 32 8 (set_saved tf 31 0x10f00 (set_saved tf 16 SYS_CLONE (set_saved tf 9 SIGCHLD example_forking))).
Definition example_machine : Machine (S := list Z) (N := unit) (D := list Z * list (Z * Z)) (P := unit) :=
  mkMachine example_clone (uart_new, ([], [])) tt [0].

Lemma example_forking_ok : forking example_clone 1 example_task example_parent.
Proof.
  unfold example_clone. cbv zeta. do 4 (apply forking_set_saved; [lia|]). split; [|apply example_forks].
  apply example_calls; [reflexivity| |reflexivity|reflexivity].
  exists 0%nat, (set_current 1 0 (setup_core 0 0)). split; [reflexivity|split; reflexivity].
Qed.

Lemma fork_returns_twice_witness : ∃ ms', trap_handler open_only open_only tt 0 1 1 (trap_frame example_parent) 0 example_machine = (Ok (1, None), ms') ∧
  forked_twice 0 example_clone (m_kernel ms') 1 example_task example_parent
    (<[31%nat := 0x10f04]> (saved example_clone (trap_frame example_parent))).
Proof.
  pose proof (fork_returns_twice open_only open_only tt 0 1 0 example_machine 1 example_task example_parent example_forking_ok
    ltac:(vm_compute; reflexivity) ltac:(vm_compute; reflexivity) ltac:(vm_compute; reflexivity) ltac:(vm_compute; reflexivity)
    ltac:(vm_compute; reflexivity)) as H.
  assert (Ho : match trap_handler open_only open_only tt 0 1 1 (trap_frame example_parent) 0 example_machine with
    | (Ok (1, None), ms') => bool_decide (is_Some (k_threads (m_kernel ms') !! 2)) | _ => false end = true) by (vm_compute; reflexivity).
  assert (Hn : k_threads (m_kernel example_machine) !! 2 = None) by (vm_compute; reflexivity).
  assert (Hs : saved_sepc (m_kernel example_machine) (trap_frame example_parent) + 4 = 0x10f04) by (vm_compute; reflexivity).
  rewrite Hs in H. clear Hs. change (m_kernel example_machine) with example_clone in H, Hn.
  destruct (trap_handler open_only open_only tt 0 1 1 (trap_frame example_parent) 0 example_machine) as [[[tp rest]|e| |] ms']; [|done..].
  destruct H as (-> & -> & [H|(_ & H & _)]); exists ms'; (split; [reflexivity|]); [exact H|]. exfalso.
  rewrite H, Hn in Ho. done.
Defined.
