(* ===== verification/TrapSafe.v ===== *)
(** * Traps and the scheduler

    Whatever trap comes, and whatever its registers are, the scheduler's
    invariant holds after [trap_handler], and the task that the hart goes on
    with is the one that its core runs. *)

From S2P Require Import Prelude Errors Kmalloc Vfs Addr Sv39 FrameAllocator PageMeta PageTable PageMap PageFork MemMgr MemFault UserMem UserView ForkView KernelMap TaskSpace Elf ElfLoad InitStack InOrder Registers FileTable TaskPool Sched SchedInv SchedSteps SchedSafe TaskNew TaskFork Console Syscall SyscallIO Trap TrapSpec.

(** ** Steps that make no task *)

(** Every task was there before, and every core keeps its idle task. *)
Definition no_new (s s' : Sys) : Prop :=
  (∀ p, is_Some (tasks s' !! p) → is_Some (tasks s !! p)) ∧ idle <$> cores s' = idle <$> cores s.

#[export] Instance no_new_preorder : PreOrder no_new.
Proof. split; [by intros s|]. intros s1 s2 s3 [H1 I1] [H2 I2]. split; [by auto|congruence]. Qed.

Lemma no_new_modify {E} f : (∀ s, tasks (f s) = tasks s) → (∀ s, cores (f s) = cores s) → keeps no_new (modify (E := E) f).
Proof. intros Hf Hc s. cbn [snd modify]. split; [intros p; by rewrite Hf|by rewrite Hc]. Qed.

Lemma on_task_no_new p f : keeps no_new (on_task p f).
Proof.
  intros s. split; [|done]. intros q. unfold on_task, modify. cbn [snd tasks set_tasks].
  destruct (decide (q = p)) as [->|]; [|by rewrite lookup_alter_ne].
  rewrite lookup_alter_eq. by intros [? (? & -> & _)%fmap_Some].
Qed.

Lemma fmap_alter_same {A B} (g : A → B) (f : A → A) c (l : list A) : (∀ k, g (f k) = g k) → g <$> alter f c l = g <$> l.
Proof.
  intros Hf. apply list_eq. intros i. rewrite !list_lookup_fmap. destruct (decide (i = c)) as [->|]; [|by rewrite list_lookup_alter_ne].
  rewrite list_lookup_alter_eq. destruct (l !! c); [|done]. cbn. by rewrite Hf.
Qed.

Lemma on_core_no_new c f : (∀ k, idle (f k) = idle k) → keeps no_new (on_core c f).
Proof.
  intros Hf s. split; [done|]. by apply fmap_alter_same.
Qed.

Lemma set_task_state_no_new p st : keeps no_new (set_task_state p st).
Proof. apply on_task_no_new. Qed.
Lemma task_of_no_new p : keeps no_new (task_of p).
Proof. intros s. done. Qed.
Lemma core_of_no_new c : keeps no_new (core_of c).
Proof. intros s. done. Qed.
#[export] Hint Resolve on_task_no_new set_task_state_no_new task_of_no_new core_of_no_new : keeps.
#[export] Hint Extern 1 (keeps no_new (on_core _ _)) => apply on_core_no_new; done : keeps.

Lemma load_core_ctx_no_new me : keeps no_new (load_core_ctx me).
Proof. unfold load_core_ctx. keep_steps. Qed.
#[export] Hint Resolve load_core_ctx_no_new : keeps.

Lemma schedule_no_new me : keeps no_new (schedule me).
Proof. unfold schedule. keep_steps. Qed.
#[export] Hint Resolve schedule_no_new : keeps.
#[export] Hint Extern 1 (keeps no_new (modify _)) => apply no_new_modify; done : keeps.

Lemma enqueue_new_task_no_new p : keeps no_new (enqueue_new_task p).
Proof. unfold enqueue_new_task. keep_steps. Qed.
Lemma enqueue_for_reaper_no_new me p : keeps no_new (enqueue_for_reaper me p).
Proof. unfold enqueue_for_reaper. keep_steps. Qed.
#[export] Hint Resolve enqueue_new_task_no_new enqueue_for_reaper_no_new : keeps.

Lemma on_task_exit_no_new me p : keeps no_new (on_task_exit me p).
Proof. unfold on_task_exit. keep_steps. Qed.
#[export] Hint Resolve on_task_exit_no_new : keeps.

Lemma exit_no_new me p code : keeps no_new (exit me p code).
Proof. unfold exit. keep_steps. Qed.
Lemma sleep_no_new me ms : keeps no_new (sleep_current_task me ms).
Proof. unfold sleep_current_task. keep_steps. Qed.
Lemma reap_no_new me p : keeps no_new (reap_zombie_child me p).
Proof. unfold reap_zombie_child. keep_steps. Qed.
#[export] Hint Resolve exit_no_new sleep_no_new reap_no_new : keeps.

Lemma wait_no_new me p : keeps no_new (wait me p).
Proof. unfold wait, block_on_wait. keep_steps. Qed.
Lemma wait_resume_no_new me p : keeps no_new (wait_resume me p).
Proof. unfold wait_resume. keep_steps. Qed.
Lemma wake_up_no_new c time l : ∀ woke, keeps no_new (wake_up c time l woke).
Proof. induction l as [|[w p] l IH]; intros woke; cbn [wake_up]; keep_steps; apply IH. Qed.
#[export] Hint Resolve wait_no_new wait_resume_no_new wake_up_no_new : keeps.

Lemma on_timer_interrupt_no_new me : keeps no_new (on_timer_interrupt me).
Proof. unfold on_timer_interrupt. keep_steps. Qed.
Lemma block_irq_no_new me irq : keeps no_new (block_on_external_irq me irq).
Proof. unfold block_on_external_irq, block_irq_enqueue. keep_steps. Qed.
Lemma on_external_irq_no_new irq : keeps no_new (on_external_irq irq).
Proof. unfold on_external_irq. keep_steps. Qed.
Lemma task_mm_no_new `{BF : Bitflags} {A} p (f : MM A) : keeps no_new (task_mm p f).
Proof.
  unfold task_mm. keep_steps. intros s. destruct (f _) as [o sp]. cbn [snd]. split; [|done]. intros q. cbn [tasks set_tasks set_memory].
  apply (on_task_no_new p (set_t_mm (mm sp)) s).
Qed.
#[export] Hint Resolve on_timer_interrupt_no_new on_external_irq_no_new task_mm_no_new : keeps.

Lemma on_page_fault_no_new `{BF : Bitflags} me p a fl : keeps no_new (on_page_fault me p a fl).
Proof. unfold on_page_fault. keep_steps. Qed.
Lemma clean_loop_no_new `{BF : Bitflags} me fuel : keeps no_new (clean_loop me fuel).
Proof. induction fuel as [|fuel IH]; cbn [clean_loop]; unfold cleanup; keep_steps; apply IH. Qed.
Lemma reaper_round_no_new `{BF : Bitflags} me : keeps no_new (reaper_round me).
Proof. unfold reaper_round. keep_steps. apply clean_loop_no_new. Qed.

(** An interrupt leaves every hart at its task. *)
Lemma on_external_irq_current irq s : current <$> cores (on_external_irq irq s).2 = current <$> cores s.
Proof.
  unfold on_external_irq, bind at 1, gets. cbn [id]. destruct (irq_wait_queue s !! irq) as [[|p q]|]; [done| |done].
  unfold bind at 1, modify. destruct (upgrade s p); [|done].
  unfold set_task_state, on_task, enqueue_new_task, on_core, bind, gets, modify, core_of, lift. cbn [id].
  destruct (unwrap _); [by apply fmap_alter_same|done..].
Qed.

(** ** Steps without an error

    The functions of the scheduler that return no [Result]. *)

Definition no_err {S E A} (m : M S E A) : Prop := ∀ s e s', m s ≠ (Err e, s').

Section no_err.
Context {S E A B : Type}.
Lemma ne_bind (m : M S E A) (f : A → M S E B) : no_err m → (∀ a, no_err (f a)) → no_err (bind m f).
Proof. intros Hm Hf s e s'. unfold bind. specialize (Hm s). destruct (m s) as [[a|e1| |] s1]; [by apply Hf|by destruct (Hm e1 s1)|done..]. Qed.
Lemma ne_ret (a : A) : no_err (ret (S := S) (E := E) a).
Proof. done. Qed.
Lemma ne_gets (f : S → A) : no_err (gets (E := E) f).
Proof. done. Qed.
Lemma ne_modify (f : S → S) : no_err (modify (E := E) f).
Proof. done. Qed.
Lemma ne_unwrap (o : option A) : no_err (lift (S := S) (E := E) (unwrap o)).
Proof. by destruct o. Qed.
End no_err.

Create HintDb no_err discriminated.
#[export] Hint Constants Opaque : no_err.
Ltac ne_step :=
  match goal with
  | |- no_err (bind _ _) => apply ne_bind; [|intros ?]
  | |- no_err (ret _) => apply ne_ret
  | |- no_err (gets _) => apply ne_gets
  | |- no_err (modify _) => apply ne_modify
  | |- no_err (lift (unwrap _)) => apply ne_unwrap
  | |- no_err (match _ with _ => _ end) => case_match
  | |- no_err _ => solve [eauto with no_err]
  end.
Ltac ne_steps := repeat ne_step.

Lemma task_of_no_err p : no_err (task_of p).
Proof. intros s e s'. unfold task_of. by destruct (tasks s !! p). Qed.
Lemma core_of_no_err c : no_err (core_of c).
Proof. intros s e s'. unfold core_of. by destruct (cores s !! c). Qed.
Lemma on_task_no_err p f : no_err (on_task p f).
Proof. apply ne_modify. Qed.
Lemma set_task_state_no_err p st : no_err (set_task_state p st).
Proof. apply ne_modify. Qed.
Lemma on_core_no_err c f : no_err (on_core c f).
Proof. apply ne_modify. Qed.
Lemma wake_time_no_err time ms : no_err (lift (S := Sys) (wake_time time ms)).
Proof. intros s e s'. unfold lift, wake_time, nanos_to_ticks, mul_ov. by destruct (checked_mul 64 (default 0 _) _). Qed.
#[export] Hint Resolve task_of_no_err core_of_no_err on_task_no_err set_task_state_no_err on_core_no_err wake_time_no_err : no_err.

Lemma load_core_ctx_no_err me : no_err (load_core_ctx me).
Proof. unfold load_core_ctx. ne_steps. Qed.
#[export] Hint Resolve load_core_ctx_no_err : no_err.
Lemma schedule_no_err me : no_err (schedule me).
Proof. unfold schedule. ne_steps. Qed.
Lemma enqueue_for_reaper_no_err me p : no_err (enqueue_for_reaper me p).
Proof. unfold enqueue_for_reaper. ne_steps. Qed.
#[export] Hint Resolve schedule_no_err enqueue_for_reaper_no_err : no_err.
Lemma sleep_no_err me ms : no_err (sleep_current_task me ms).
Proof. unfold sleep_current_task. ne_steps. Qed.
Lemma reap_no_err me p : no_err (reap_zombie_child me p).
Proof. unfold reap_zombie_child. ne_steps. Qed.
#[export] Hint Resolve reap_no_err : no_err.
Lemma wait_resume_no_err me p : no_err (wait_resume me p).
Proof. unfold wait_resume. ne_steps. Qed.

(** [wait] fails only at once. *)
Lemma wait_err me p s e s' : wait me p s = (Err e, s') → s' = s.
Proof.
  unfold wait, bind at 1, task_of. destruct (tasks s !! p) as [t|]; [|done]. cbn [unwrap]. case_decide; [by intros [= _ <-]|].
  intros He. exfalso. revert He. match goal with |- ?m s = _ → _ => assert (no_err m) as Hm; [|apply Hm] end.
  unfold block_on_wait. ne_steps.
Qed.

(** ** System calls *)

Section safe.
Context {S N : Type} `{HV : VNode S N} `{EC : ElfCrate} `{BF : Bitflags} {FB : FromBits} {MU : Mmu}.
Context (vfs_open vfs_create : list Z → M S VfsError (File N)) (console : N) (trap_resume_ptr : Z).
Context (c : nat) (me : Z).

Abbreviation Kernel := (Kernel (S := S) (N := N)).
Abbreviation KN := (M Kernel Error).
Abbreviation SY := (M Kernel Stop).
Implicit Types s : Kernel.

(** No task has a pid that is still to be given out, and at most [b] were. *)
Definition numbered (b : Z) s : Prop := (∀ p, is_Some (tasks (k_sys s) !! p) → p < k_pids s) ∧ 0 ≤ k_pids s ≤ b.

(** The core runs [me], which is not its idle task. *)
Definition alive (b : Z) s : Prop :=
  inv (k_sys s) ∧ numbered b s ∧ ∃ k, cores (k_sys s) !! c = Some k ∧ current k = me ∧ me ≠ idle k.

(** The core runs [tp]. *)
Definition gone (b tp : Z) s : Prop := inv (k_sys s) ∧ numbered b s ∧ runs c tp (k_sys s).

(** From a state of at most [b] pids to one of at most [b']. *)
Definition sy_ok (b b' : Z) {A} (m : SY A) : Prop := ∀ s, alive b s →
  match m s with
  | (Ok _, s') | (Err (Failed _), s') => alive b' s'
  | (Err (Away tp _), s') => gone b' tp s'
  | _ => True
  end.

Lemma alive_le b b' s : b ≤ b' → alive b s → alive b' s.
Proof. intros Hb (Hi & [H1 H2] & Hk). split; [done|]. split; [|done]. split; [done|lia]. Qed.
Lemma gone_le b b' tp s : b ≤ b' → gone b tp s → gone b' tp s.
Proof. intros Hb (Hi & [H1 H2] & Hk). split; [done|]. split; [|done]. split; [done|lia]. Qed.

Lemma sy_le b b' {A} (m : SY A) : b ≤ b' → sy_ok b b m → sy_ok b b' m.
Proof.
  intros Hb Hm s Hs. specialize (Hm s Hs). destruct (m s) as [[a|[e|tp r]| |] s']; try done.
  - by eapply alive_le.
  - by eapply alive_le.
  - by eapply gone_le.
Qed.

Lemma sy_bind b b1 b2 {A B} (m : SY A) (f : A → SY B) : b1 ≤ b2 → sy_ok b b1 m → (∀ a, sy_ok b1 b2 (f a)) → sy_ok b b2 (bind m f).
Proof.
  intros Hb Hm Hf s Hs. specialize (Hm s Hs). unfold bind. destruct (m s) as [[a|[e|tp r]| |] s']; try done.
  - by apply Hf.
  - by eapply alive_le.
  - by eapply gone_le.
Qed.
Lemma sy_seq b b' {A B} (m : SY A) (f : A → SY B) : sy_ok b b m → (∀ a, sy_ok b b' (f a)) → b ≤ b' → sy_ok b b' (bind m f).
Proof. intros Hm Hf Hb. by apply (sy_bind b b). Qed.

Lemma sy_ret b {A} (a : A) : sy_ok b b (ret a).
Proof. by intros s Hs. Qed.
Lemma sy_fail b {A} e : sy_ok b b (fail (A := A) (Failed e)).
Proof. by intros s Hs. Qed.
Lemma sy_panic b b' {A} : sy_ok b b' (panic (A := A)).
Proof. by intros s Hs. Qed.
Lemma sy_diverge b b' {A} : sy_ok b b' (diverge (A := A)).
Proof. by intros s Hs. Qed.
Lemma sy_ok_or b {A} (o : option A) e : sy_ok b b (lift (ok_or o (Failed e))).
Proof. intros s Hs. by destruct o. Qed.
Lemma sy_unwrap b {A} (f : Kernel → option A) : sy_ok b b (λ s, (unwrap (f s), s)).
Proof. intros s Hs. by destruct (f s). Qed.
Lemma sy_assert b x : sy_ok b b (assert x).
Proof. intros s Hs. by destruct x. Qed.
Lemma sy_get_arg b tf i : sy_ok b b (get_arg tf i).
Proof. by intros s Hs. Qed.
Lemma sy_get_arg_as b max tf i : sy_ok b b (get_arg_as max tf i).
Proof. intros s Hs. unfold get_arg_as, bind, get_arg, gets. by destruct (_ <=? max). Qed.

(** Changes of files and of the filesystems. *)
Lemma alive_sys b s s' : k_sys s' = k_sys s → k_pids s' = k_pids s → alive b s → alive b s'.
Proof. intros E1 E2. unfold alive, numbered. by rewrite E1, E2. Qed.

Lemma sy_fs_op b {A} (op : M S VfsError A) : sy_ok b b (fs_op op).
Proof.
  intros s Hs. unfold fs_op, attempt. destruct (op (k_fs s)) as [[a|e| |] fs]; try done; by eapply alive_sys.
Qed.
Lemma sy_modify_files b f : sy_ok b b (modify (λ s, set_files (f s) s)).
Proof. intros s Hs. by eapply alive_sys. Qed.

Lemma sy_file_op b {A} r (op : File N → M S VfsError (A * File N)) : sy_ok b b (file_op r op).
Proof.
  unfold file_op. apply sy_seq; [apply sy_unwrap|intros f|lia]. apply sy_seq; [apply sy_fs_op|intros x|lia].
  destruct x as [[a f']|e]; [|apply sy_fail]. apply sy_seq; [apply sy_modify_files|intros _; apply sy_ret|lia].
Qed.

(** Operations that leave the cores alone. *)
Definition quiet {A} (op : M Sys Error A) : Prop :=
  keeps no_new op ∧ ∀ y, inv y → inv (op y).2 ∧ cores (op y).2 = cores y.

Lemma alive_quiet b s (sys' : Sys) : alive b s → inv sys' → cores sys' = cores (k_sys s) → no_new (k_sys s) sys' → alive b (set_sys sys' s).
Proof.
  intros (Hi & [H1 H2] & k & Hk & Hc & Hne) Hi' Hcs Hn. split; [done|]. split.
  - split; [|done]. intros p Hp. by apply H1, (proj1 Hn).
  - exists k. cbn [k_sys set_sys]. by rewrite Hcs.
Qed.

Lemma sy_quiet b {A} (op : M Sys Error A) : quiet op → sy_ok b b (failing (sys_op op)).
Proof.
  intros [Hn Hq] s Hs. pose proof Hs as (Hi & _). destruct (Hq _ Hi) as [Hi' Hc]. specialize (Hn (k_sys s)).
  unfold failing, sys_op, zoom. destruct (op (k_sys s)) as [[a|e| |] sys']; try done; by apply alive_quiet.
Qed.

Lemma quiet_task_of p : quiet (task_of p).
Proof. split; [apply task_of_no_new|]. by intros s Hi. Qed.
Lemma quiet_files p f : quiet (on_task p (set_t_files f)).
Proof. split; [apply on_task_no_new|]. intros s Hi. split; [by apply inv_keep|done]. Qed.
Lemma quiet_task_mm {A} p (f : MM A) : quiet (task_mm p f).
Proof.
  split; [apply task_mm_no_new|]. intros s Hi. destruct (task_mm p f s) as [o s'] eqn:E.
  destruct (task_mm_inv p f s o s' E Hi) as (H1 & H2 & _). done.
Qed.

Lemma current_task_me b s : alive b s → current_task me s = (Ok me, s).
Proof.
  intros (Hi & _ & k & Hk & Hc & _). unfold current_task, failing, bind at 1, sys_op, zoom.
  rewrite <-Hc, (current_home _ c k Hi Hk). replace (set_sys (k_sys s) s) with s by (by destruct s). unfold bind.
  rewrite (core_of_ok _ _ _ Hk). replace (set_sys (k_sys s) s) with s by (by destruct s). done.
Qed.

Lemma sy_current b b' {A} (f : Z → SY A) : sy_ok b b' (f me) → sy_ok b b' (bind (current_task me) f).
Proof. intros Hf s Hs. rewrite (bind_ok _ _ _ _ _ (current_task_me b s Hs)). by apply Hf. Qed.
(** A step of the scheduler that ends on [tp]. *)
Definition moves {A} (dest : A → Z) (op : M Sys Error A) : Prop :=
  keeps no_new op ∧ ∀ y k, inv y → cores y !! c = Some k → current k = me → me ≠ idle k →
    match op y with
    | (Ok a, y') => inv y' ∧ runs c (dest a) y'
    | (Err _, y') => y' = y
    | _ => True
    end.

Lemma gone_moved b s y' tp : alive b s → no_new (k_sys s) y' → inv y' → runs c tp y' → gone b tp (set_sys y' s).
Proof. intros (_ & [H1 H2] & _) [Hn _] Hi Hr. split; [done|]. split; [|done]. split; [|done]. intros p Hp. by apply H1, Hn. Qed.

Lemma moved_back b s y' : alive b s → no_new (k_sys s) y' → inv y' → runs c me y' → alive b (set_sys y' s).
Proof.
  intros Hs Hn Hi Hr. destruct (gone_moved b s y' me Hs Hn Hi Hr) as (_ & Hnum & k' & Hk' & Hme).
  destruct Hs as (_ & _ & k & Hk & Hc & Hne). split; [done|]. split; [done|]. exists k'. split; [done|]. split; [done|].
  destruct Hn as [_ Hid]. apply (f_equal (λ l, l !! c)) in Hid. cbn [k_sys set_sys] in Hk'.
  rewrite !list_lookup_fmap, Hk, Hk' in Hid. injection Hid as ->. done.
Qed.

Lemma sy_moves b b' {A B} (dest : A → Z) (op : M Sys Error A) (f : A → SY B) : b ≤ b' → moves dest op →
  (∀ a s, gone b (dest a) s → (dest a = me → alive b s) →
    match f a s with
    | (Ok _, s') | (Err (Failed _), s') => alive b' s'
    | (Err (Away tp _), s') => gone b' tp s'
    | _ => True
    end) → sy_ok b b' (bind (failing (sys_op op)) f).
Proof.
  intros Hb [Hn Hm] Hf s Hs. pose proof Hs as (Hi & _ & k & Hk & Hc & Hne). specialize (Hm _ k Hi Hk Hc Hne). specialize (Hn (k_sys s)).
  unfold bind, failing, sys_op, zoom. destruct (op (k_sys s)) as [[a|e| |] y']; try done.
  - destruct Hm as [Hi' Hr]. apply Hf; [by apply gone_moved|]. intros E. rewrite E in Hr. by apply moved_back.
  - subst y'. apply (alive_le b); [done|]. by eapply alive_sys.
Qed.

Lemma sy_switched b (op : M Sys Error Z) rest : moves id op →
  sy_ok b b (bind (failing (sys_op op)) (λ tp, switched me tp rest)).
Proof.
  intros Hm. apply (sy_moves b b id op); [lia|done|]. intros tp s Hg Ha. unfold switched.
  destruct (Z.eqb_spec tp me) as [->|]; [by apply Ha|done].
Qed.

Lemma moves_exit code : moves id (exit me me code).
Proof.
  split; [apply exit_no_new|]. intros y k Hi Hk <- Hne. destruct (exit_inv y c k code Hi Hk Hne) as (tp & y' & -> & H1 & H2). done.
Qed.

Lemma moves_sleep ms : moves id (sleep_current_task me ms).
Proof.
  split; [apply sleep_no_new|]. intros y k Hi Hk <- Hne.
  destruct (sleep_current_task (current k) ms y) as [[tp|e| |] y'] eqn:E; [by eapply sleep_ok_inv| |done..].
  by destruct (sleep_no_err _ _ _ _ _ E).
Qed.

Lemma moves_wait : moves (λ r, match r with inl _ => me | inr tp => tp end) (wait me me).
Proof.
  split; [apply wait_no_new|]. intros y k Hi Hk <- Hne.
  destruct (wait (current k) (current k) y) as [[r|e| |] y'] eqn:E; [by apply (wait_inv y c k r y')|by eapply wait_err|done..].
Qed.

Lemma moves_wait_resume : moves (λ _, me) (wait_resume me me).
Proof.
  split; [apply wait_resume_no_new|]. intros y k Hi Hk <- Hne.
  destruct (wait_resume (current k) (current k) y) as [[r|e| |] y'] eqn:E; [|by destruct (wait_resume_no_err _ _ _ _ _ E)|done..].
  split; [by eapply wait_resume_inv|]. destruct (current_live _ _ _ Hi Hk) as (t & Ht & Hlv).
  assert (t_core <$> tasks y !! current k = Some (Some c)) as Hh by (eapply Hi; [done|right; left]).
  rewrite Ht in Hh. injection Hh as Hh. unfold wait_resume, bind, lift in E.
  destruct (reap_shape (current k) c y t Ht Hh) as [E1|(child & ct & cs & _ & _ & _ & _ & E1)].
  { intros He. by rewrite He in Hlv. }
  - by rewrite E1 in E.
  - rewrite E1 in E. injection E as _ <-. exists (push_cleanup child k). cbn [reaped cores set_cores set_tasks].
    by rewrite list_lookup_alter_eq, Hk.
Qed.
(** A copy of user memory goes on, or the task is killed. *)
Lemma sy_killed b {A} : sy_ok b b (killed (A := A) me).
Proof.
  apply sy_current, (sy_moves b b id _ _ ltac:(lia) (moves_exit (-1))). intros tp s Hg Ha.
  by destruct (Z.eqb_spec tp me).
Qed.

Lemma sy_user_op b {A} (op : UM A) : sy_ok b b (user_op me op).
Proof.
  unfold user_op. apply sy_seq; [apply sy_quiet, quiet_task_of|intros t s Hs|lia].
  destruct (op _) as [o sp]. set (y := set_tasks _ (set_memory _ (k_sys s))).
  assert (alive b (set_sys y s)) as Hs'.
  { apply alive_quiet; [done|apply inv_mm; [apply Hs|done|done]|done|]. split; [|done]. intros p.
    exact (proj1 (on_task_no_new me (set_t_mm (mm sp)) (k_sys s)) p). }
  destruct o as [a|[]| |]; [done| |done..]. by apply sy_killed.
Qed.

(** ** New tasks *)

Definition kn_ok (b b' : Z) {A} (m : KN A) : Prop := ∀ s, alive b s →
  match m s with (Ok _, s') | (Err _, s') => alive b' s' | _ => True end.

Lemma sy_failing b b' {A} (m : KN A) : kn_ok b b' m → sy_ok b b' (failing m).
Proof. intros Hm s Hs. specialize (Hm s Hs). unfold failing. by destruct (m s) as [[] ?]. Qed.

Lemma kn_bind b b' {A B} (m : KN A) (f : A → KN B) : b ≤ b' → kn_ok b b m → (∀ a, kn_ok b b' (f a)) → kn_ok b b' (bind m f).
Proof.
  intros Hb Hm Hf s Hs. specialize (Hm s Hs). unfold bind. destruct (m s) as [[a|e| |] s']; try done; [by apply Hf|by eapply alive_le].
Qed.

Lemma alive_memory b s s' : alive b s → (∃ k, k_sys s' = set_memory k (k_sys s)) → k_pids s' = k_pids s → alive b s'.
Proof.
  intros (Hi & Hn & Hr) [k E] Ep. unfold alive, numbered. rewrite E, Ep. split; [|done]. by destruct Hi; split.
Qed.

Lemma kn_kmem_op b {A} (op : M Kmem Error A) : kn_ok b b (kmem_op op).
Proof.
  intros s Hs. unfold kmem_op, sys_op, zoom. destruct (op _) as [o k].
  assert (alive b (set_sys (set_memory k (k_sys s)) s)) by (eapply alive_memory; [done|by exists k|done]). by destruct o.
Qed.
Lemma kn_with_mm b {A} m (op : M Load Error A) : kn_ok b b (with_mm m op).
Proof.
  intros s Hs. unfold with_mm. destruct (op _) as [o l].
  assert (alive b (set_sys (set_memory (km (l_sp l)) (k_sys s)) (set_fs (l_fs l) s)))
    by (eapply alive_memory; [done|by eexists|done]). by destruct o.
Qed.
Lemma kn_same b {A} (m : KN A) : (∀ s, (m s).2 = s) → kn_ok b b m.
Proof. intros Hm s Hs. specialize (Hm s). destruct (m s) as [[] s']; cbn [snd] in Hm; by subst. Qed.
Lemma kn_quiet b {A} (op : M Sys Error A) : quiet op → kn_ok b b (sys_op op).
Proof. intros Hq s Hs. pose proof (sy_quiet b op Hq s Hs) as H1. unfold failing in H1. by destruct (sys_op op s) as [[] ?]. Qed.

(** The pid is fresh, and the new task is ready. *)
Lemma kn_publish b s s1 parent t pid : b + 1 < 2 ^ 64 → alive b s → k_sys s1 = k_sys s → k_pids s1 = (k_pids s + 1) mod 2 ^ 64 →
  t_state t = Ready → pid = k_pids s →
  match (sys_op (publish parent pid t) ;;; ret pid) s1 with (Ok _, s') | (Err _, s') => alive (b + 1) s' | _ => True end.
Proof.
  intros Hb (Hi & [Hp Hr] & k & Hk & Hc & Hne) Es Ep Hst ->. assert (tasks (k_sys s) !! k_pids s = None) as Hnew.
  { apply eq_None_not_Some. intros Hx. specialize (Hp _ Hx). lia. }
  assert (cores (k_sys s) ≠ []) as Hne' by (intros E; by rewrite E in Hk).
  destruct (publish_inv (k_sys s) parent (k_pids s) t Hi Hnew Hst) as (y & E1 & Hi').
  destruct (publish_ok parent (k_pids s) t (k_sys s) Hne') as (c' & k' & y' & E2 & Hk' & Hts & _ & Hco & _).
  rewrite E1 in E2. injection E2 as <-. unfold bind, sys_op, zoom. rewrite Es, E1. unfold ret.
  split; [done|]. cbn [k_sys set_sys]. split.
  - split; cbn [k_sys set_sys k_pids]; rewrite Ep, Z.mod_small by lia; [|lia]. intros p. rewrite Hts.
    destruct (decide (p = k_pids s)) as [->|]; [intros _; lia|]. rewrite lookup_insert_ne by done. intros Hx.
    assert (is_Some (tasks (k_sys s) !! p)) as Hx'; [|specialize (Hp _ Hx'); lia].
    destruct parent as [q|]; [|done]. destruct (decide (p = q)) as [->|]; [|by rewrite lookup_alter_ne in Hx].
    rewrite lookup_alter_eq in Hx. by destruct (tasks (k_sys s) !! q); [|destruct Hx].
  - rewrite Hco. destruct (decide (c' = c)) as [->|]; [|exists k; by rewrite list_lookup_alter_ne].
    exists (set_runqueue (runqueue k' ++ [k_pids s]) k). by rewrite list_lookup_alter_eq, Hk.
Qed.
Lemma kn_fork b : b + 1 < 2 ^ 64 → kn_ok b (b + 1) (task_fork trap_resume_ptr me).
Proof.
  intros Hb. unfold task_fork. apply kn_bind; [lia|by apply kn_same; intros s; unfold sys_op, zoom, load_core_ctx, bind, task_of, lift; destruct (tasks _ !! me) as [t|]; destruct s|intros c0].
  apply kn_bind; [lia|by apply kn_same; intros []|intros k]. apply kn_bind; [lia|apply kn_quiet, quiet_task_of|intros t].
  apply kn_bind; [lia|by apply kn_same|intros th]. apply kn_bind; [lia|apply kn_kmem_op|intros m]. cbv zeta.
  apply kn_bind; [lia|by apply kn_same|intros addr]. apply kn_bind; [lia|by apply kn_same|intros tf].
  apply kn_bind; [lia|by apply kn_same|intros before]. do 2 (apply kn_bind; [lia|apply kn_kmem_op|intros _]).
  intros s Hs. unfold bind at 1, next_pid. unfold bind at 1, add_thread, modify. by apply (kn_publish b s).
Qed.

Lemma kn_spawn b path argv parent : b + 1 < 2 ^ 64 → kn_ok b (b + 1) (spawn vfs_open console trap_resume_ptr path argv parent).
Proof.
  intros Hb. unfold spawn. apply kn_bind; [lia| |intros [[entry sp] m]].
  { unfold spawn_image. apply kn_bind; [lia|apply kn_kmem_op|intros m]. do 3 (apply kn_bind; [lia|apply kn_with_mm|intros [? ?]]). by apply kn_same. }
  apply kn_bind; [lia|apply kn_with_mm|intros [pa m']]. do 3 (apply kn_bind; [lia|by apply kn_same|intros ?]).
  apply kn_bind; [lia|apply kn_kmem_op|intros _]. intros s Hs. unfold bind at 1, next_pid. unfold bind at 1, new_file_table.
  unfold bind at 1, gets. destruct (file_table_init console _) as [files fs]. unfold bind at 1, modify, ret at 1.
  unfold bind at 1, add_thread, modify. by apply (kn_publish b s).
Qed.

(** ** Each call *)

Ltac sy_step :=
  match goal with
  | |- sy_ok _ _ (bind (current_task me) _) => apply sy_current
  | |- sy_ok _ _ (bind _ _) => apply sy_seq; [|intros ?|lia]
  | |- sy_ok _ _ (ret _) => apply sy_ret
  | |- sy_ok _ _ (fail (Failed _)) => apply sy_fail
  | |- sy_ok _ _ panic => apply sy_panic
  | |- sy_ok _ _ diverge => apply sy_diverge
  | |- sy_ok _ _ (lift (ok_or _ _)) => apply sy_ok_or
  | |- sy_ok _ _ (assert _) => apply sy_assert
  | |- sy_ok _ _ (get_arg _ _) => apply sy_get_arg
  | |- sy_ok _ _ (get_arg_as _ _ _) => apply sy_get_arg_as
  | |- sy_ok _ _ (fs_op _) => apply sy_fs_op
  | |- sy_ok _ _ (file_op _ _) => apply sy_file_op
  | |- sy_ok _ _ (user_op me _) => apply sy_user_op
  | |- sy_ok _ _ (failing (sys_op (task_of _))) => apply sy_quiet, quiet_task_of
  | |- sy_ok _ _ (failing (sys_op (on_task _ (set_t_files _)))) => apply sy_quiet, quiet_files
  | |- sy_ok _ _ (failing (sys_op (task_mm _ _))) => apply sy_quiet, quiet_task_mm
  | |- sy_ok _ _ (match _ with _ => _ end) => case_match
  end.
Ltac sy_steps := repeat sy_step.

Lemma sy_current_file b fd : sy_ok b b (current_file me fd).
Proof. unfold current_file. sy_steps. Qed.

Lemma sy_add_current_file b file : sy_ok b b (add_current_file me file).
Proof.
  unfold add_current_file. sy_steps. intros s Hs. destruct (add_file _ _ _) as [[fd t'] fs].
  apply (alive_sys b (set_sys (set_tasks (alter (set_t_files t') me (tasks (k_sys s))) (k_sys s)) s)); [done..|].
  exact (sy_quiet b _ (quiet_files me t') s Hs).
Qed.

Lemma sy_user_path b path : sy_ok b b (user_path me path).
Proof. unfold user_path. sy_steps. Qed.

Lemma sy_sys_open b path flags : sy_ok b b (sys_open vfs_open vfs_create me path flags).
Proof. unfold sys_open. sy_steps; try apply sy_user_path; try apply sy_add_current_file. Qed.
Lemma sy_sys_close b fd : sy_ok b b (sys_close me fd).
Proof. unfold sys_close. sy_steps. Qed.
Lemma sy_attempt b b' {A B} (m : SY A) (f : A + Stop → SY B) : b ≤ b' → sy_ok b b m → (∀ a, sy_ok b b' (f (inl a))) →
  (∀ e, sy_ok b b' (f (inr (Failed e)))) → (∀ tp r s, f (inr (Away tp r)) s = (Err (Away tp r), s)) → sy_ok b b' (bind (attempt m) f).
Proof.
  intros Hb Hm H1 H2 H3 s Hs. specialize (Hm s Hs). unfold bind, attempt. destruct (m s) as [[a|[e|tp r]| |] s']; try done.
  - by apply H1.
  - by apply H2.
  - rewrite H3. by eapply gone_le.
Qed.
Lemma sy_heap_op b {A} (op : M Heap HeapError A) : sy_ok b b (heap_op op).
Proof. intros s Hs. unfold heap_op. destruct (op (k_heap s)) as [[a|[]| |] h]; try done; by eapply alive_sys. Qed.

Lemma sy_with_kbuf b {A} count (body : SY A) : sy_ok b b body → sy_ok b b (with_kbuf count body).
Proof.
  intros Hb. unfold with_kbuf. sy_step; [sy_step|]. do 2 (sy_step; [apply sy_heap_op|]).
  apply sy_attempt; [lia|done| | |done]; intros ?; sy_steps; apply sy_heap_op.
Qed.
Lemma sy_sys_read b fd buf count : sy_ok b b (sys_read me fd buf count).
Proof. unfold sys_read. sy_steps; [apply sy_current_file|]. apply sy_with_kbuf. sy_steps. Qed.
Lemma sy_sys_write b fd buf count : sy_ok b b (sys_write me fd buf count).
Proof. unfold sys_write. sy_steps; [apply sy_current_file|]. apply sy_with_kbuf. sy_steps. Qed.

Lemma sy_iov b part n : (∀ base len, sy_ok b b (part base len)) → ∀ io_vec total, sy_ok b b (iov_loop part me n io_vec total).
Proof.
  intros Hp. induction n as [|n IH]; intros io_vec total; cbn [iov_loop]; [apply sy_ret|].
  apply sy_seq; [unfold read_iovec; sy_steps|intros [base len]|lia].
  apply sy_attempt; [lia|apply Hp|intros got|intros e; sy_steps|done]. sy_step; [sy_steps|]. sy_step; [sy_steps|].
  destruct n; [sy_steps|]. sy_step; [|sy_step; [sy_steps|apply IH]]. apply sy_failing. by apply kn_same.
Qed.

Lemma sy_turns b p {A B} (body : A → SY (A + B)) : (∀ a, sy_ok b b (body a)) → ∀ a, sy_ok b b (turns p body a).
Proof. intros Hb. induction p as [p IH|p IH|]; intros a; cbn [turns]; [| |apply Hb]; sy_steps; first [apply IH|apply Hb]. Qed.

Lemma sy_read_argv b argv : sy_ok b b (read_argv me argv).
Proof.
  unfold read_argv, loop. sy_step; [apply sy_turns; intros [cur kargv]; unfold argv_turn; sy_steps|]. sy_steps.
Qed.

Lemma sy_wait_done b out pid code : sy_ok b b (wait_done me out pid code).
Proof. unfold wait_done. sy_steps. Qed.
Lemma sy_wait_again b out : sy_ok b b (wait_again me out).
Proof.
  unfold wait_again. apply sy_current, (sy_moves b b _ _ _ ltac:(lia) moves_wait_resume).
  intros [pid code] s _ Ha. by apply sy_wait_done, Ha.
Qed.
Lemma sy_sys_wait b out : sy_ok b b (sys_wait me out).
Proof.
  unfold sys_wait. apply sy_current, (sy_moves b b _ _ _ ltac:(lia) moves_wait). intros [[pid code]|tp] s Hg Ha.
  - by apply sy_wait_done, Ha.
  - unfold bind, switched. destruct (Z.eqb_spec tp me) as [->|]; [by apply sy_wait_again, Ha|exact Hg].
Qed.

Lemma sy_sys_spawn b path argv out : b + 1 < 2 ^ 64 → sy_ok b (b + 1) (sys_spawn vfs_open console trap_resume_ptr me path argv out).
Proof.
  intros Hb. unfold sys_spawn. sy_step; [apply sy_user_path|]. sy_step; [apply sy_read_argv|]. sy_step.
  apply (sy_bind b (b + 1)); [lia|by apply sy_failing, kn_spawn|intros pid; apply sy_user_op].
Qed.

Lemma sy_sys_exit b code : sy_ok b b (sys_exit me code).
Proof. unfold sys_exit. apply sy_current, sy_switched, moves_exit. Qed.
Lemma sy_sys_sleep b ms : sy_ok b b (sys_sleep_ms me ms).
Proof. apply sy_switched, moves_sleep. Qed.
Lemma sy_sys_readv b fd iov n : sy_ok b b (sys_readv me fd iov n).
Proof. unfold sys_readv. sy_steps. apply sy_iov. intros. apply sy_sys_read. Qed.
Lemma sy_sys_writev b fd iov n : sy_ok b b (sys_writev me fd iov n).
Proof. unfold sys_writev. sy_steps. apply sy_iov. intros. apply sy_sys_write. Qed.

(** ** All of them *)

Lemma sy_dispatch b number tf : b + 1 < 2 ^ 64 →
  sy_ok b (b + 1) (do_dispatch_syscall vfs_open vfs_create console trap_resume_ptr me number tf).
Proof.
  intros Hb. assert (Hle : ∀ A (m : SY A), sy_ok b b m → sy_ok b (b + 1) m) by (intros A m; apply sy_le; lia).
  unfold do_dispatch_syscall, sys_gettid, sys_brk.
  repeat match goal with |- sy_ok _ _ (if ?x then _ else _) => destruct x end.
  all: try (apply Hle; sy_steps; solve [eauto using sy_sys_open, sy_sys_close, sy_sys_read, sy_sys_write, sy_sys_readv,
    sy_sys_writev, sy_sys_exit, sy_sys_sleep, sy_sys_wait, sy_quiet, quiet_task_mm]; fail).
  all: try (apply Hle; sy_steps; fail).
  - do 2 (sy_step; [sy_steps|]). destruct (_ || _); [apply Hle, sy_fail|].
    apply (sy_bind b (b + 1)); [lia|by apply sy_failing, kn_fork|intros pid; apply sy_ret].
  - do 4 (sy_step; [sy_steps|]). apply (sy_bind b (b + 1)); [lia|by apply sy_sys_spawn|intros u; apply sy_ret].
Qed.

Lemma alive_gone b s : alive b s → gone b me s.
Proof. intros (Hi & Hn & k & Hk & Hc & _). split; [done|]. split; [done|]. by exists k. Qed.

Lemma finish_gone b b' tf (call : SY Z) s tp rest s' : sy_ok b b' call → alive b s →
  finish_syscall me tf call s = (Ok (tp, rest), s') → gone b' tp s'.
Proof.
  intros Hc Hs. specialize (Hc s Hs). unfold finish_syscall, bind, attempt.
  assert (Hset : ∀ v s1, alive b' s1 → gone b' me (set_syscall_return_value tf v s1).2).
  { intros v s1 H1. apply alive_gone. eapply alive_memory; [exact H1|by eexists|done]. }
  destruct (call s) as [[a|[e|tp1 r]| |] s1]; try done; intros [= <- <- <-]; [apply (Hset a _ Hc)|apply (Hset _ _ Hc)|exact Hc].
Qed.

Lemma skip_alive b tf s u s' : alive b s → skip_ecall tf s = (Ok u, s') → alive b s'.
Proof.
  intros Hs. unfold skip_ecall, bind, gets, lift. destruct (add_ov _ _ _) as [w| | |]; try done. intros [= _ <-].
  eapply alive_memory; [exact Hs|by eexists|done].
Qed.

Lemma dispatch_gone b tf s tp rest s' : b + 1 < 2 ^ 64 → alive b s →
  dispatch_syscall vfs_open vfs_create console trap_resume_ptr me tf s = (Ok (tp, rest), s') → gone (b + 1) tp s'.
Proof. intros Hb Hs. unfold dispatch_syscall, bind at 1, get_syscall, gets. eapply finish_gone, Hs. by apply sy_dispatch. Qed.

Lemma resume_gone b tf r s tp rest s' : alive b s → resume_syscall me tf r s = (Ok (tp, rest), s') → gone b tp s'.
Proof.
  intros Hs. unfold resume_syscall. destruct r as [| |out]; [done|eapply finish_gone, Hs; apply sy_ret|eapply finish_gone, Hs].
  sy_steps. apply sy_wait_again.
Qed.
End safe.

(** ** The harts *)

Section harts.
Context {S N : Type} `{HV : VNode S N} `{EC : ElfCrate} `{BF : Bitflags} {FB : FromBits} {MU : Mmu}.
Context {D P : Type} `{UD : UartDev D} `{PD : PlicDev P}.
Context (vfs_open vfs_create : list Z → M S VfsError (File N)) (console : N) (trap_resume_ptr : Z).

Abbreviation Machine := (Machine (S := S) (N := N) (D := D) (P := P)).
Implicit Types ms : Machine.

(** The causes that do not come from an instruction. *)
Definition asynchronous (cause : TrapCause) : bool :=
  match cause with TimerInterrupt | ExternalIrq => true | _ => false end.

Definition machine_sys ms : Sys := k_sys (m_kernel ms).
Definition cause_of ms (tf : Z) : TrapCause := trap_cause (word_at (tf + 8 * SCAUSE) (mem (memory (machine_sys ms)))).

(** What tasks that are away have left of their system calls. *)
Abbreviation Rests := (gmap Z Resume).
Definition left_over (me : Z) (rest : option Resume) (rests : Rests) : Rests :=
  match rest with Some r => <[me := r]> rests | None => delete me rests end.

Definition outside (n : Z) (memory' : Kmem) (heap' : Heap) (d : D) (p : P) ms : Machine :=
  mkMachine (set_heap heap' (set_sys (set_now n (set_memory memory' (machine_sys ms))) (m_kernel ms))) ((m_uart ms).1, d) p (core_ids ms).

(** Steps of the machine: time passes, user code and devices write memory,
    devices change, and the kernel's heap is used; a hart takes a trap; a task that was away goes on with its
    system call; a reaper makes a round; a task that reads the console waits for
    the UART. *)
Inductive hstep : Machine * Rests → Machine * Rests → Prop :=
| h_outside ms rests n memory' heap' d p : hstep (ms, rests) (outside n memory' heap' d p ms, rests)
| h_trap ms rests c k fuel tf stval tp rest ms' : cores (machine_sys ms) !! c = Some k → rests !! current k = None →
    (current k = idle k → asynchronous (cause_of ms tf)) →
    trap_handler vfs_open vfs_create console trap_resume_ptr fuel (current k) tf stval ms = (Ok (tp, rest), ms') →
    hstep (ms, rests) (ms', left_over (current k) rest rests)
| h_resume ms rests c k r tf tp rest ms' : cores (machine_sys ms) !! c = Some k → rests !! current k = Some r →
    current k ≠ idle k → kernel_op (resume_syscall (current k) tf r) ms = (Ok (tp, rest), ms') →
    hstep (ms, rests) (ms', left_over (current k) rest rests)
| h_reaper ms rests c k tp ms' : cores (machine_sys ms) !! c = Some k → current k ≠ idle k → rests !! current k = None →
    kernel_op (sys_op (reaper_round (current k))) ms = (Ok tp, ms') → hstep (ms, rests) (ms', rests)
| h_wait_irq ms rests c k irq tp ms' : cores (machine_sys ms) !! c = Some k → current k ≠ idle k → rests !! current k = None →
    kernel_op (sys_op (block_on_external_irq (current k) irq)) ms = (Ok tp, ms') → hstep (ms, rests) (ms', rests).

Definition machine_ok (b : Z) ms : Prop := inv (machine_sys ms) ∧ numbered b (m_kernel ms).

Lemma kernel_op_inv {A} (m : M (Kernel (S := S) (N := N)) Error A) ms a ms' : kernel_op m ms = (Ok a, ms') →
  m (m_kernel ms) = (Ok a, m_kernel ms').
Proof. unfold kernel_op, zoom. destruct (m (m_kernel ms)) as [o k']. by intros [= -> <-]. Qed.

Lemma sys_op_inv {A} (m : M Sys Error A) (s : Kernel (S := S) (N := N)) a s' : sys_op m s = (Ok a, s') →
  m (k_sys s) = (Ok a, k_sys s') ∧ k_pids s' = k_pids s.
Proof. unfold sys_op, zoom. destruct (m (k_sys s)) as [o k']. by intros [= -> <-]. Qed.

(** A step of the scheduler. *)
Lemma sys_op_ok b {A} (m : M Sys Error A) (s : Kernel (S := S) (N := N)) a s' : keeps no_new m → numbered b s →
  sys_op m s = (Ok a, s') → m (k_sys s) = (Ok a, k_sys s') ∧ numbered b s'.
Proof.
  intros Hm [H1 H2] E. apply sys_op_inv in E as [E Ep]. split; [done|]. unfold numbered. rewrite Ep. split; [|done].
  intros p Hp. apply H1. destruct (Hm (k_sys s)) as [Hn _]. apply Hn. by rewrite E.
Qed.

(** The branch for interrupts of devices. *)
Definition undisturbed b c me ms ms' : Prop :=
  machine_ok b ms ∧ runs c me (machine_sys ms) → machine_ok b ms' ∧ runs c me (machine_sys ms').
#[local] Instance undisturbed_preorder b c me : PreOrder (undisturbed b c me).
Proof. unfold undisturbed. split; [by intros ms ?|intros x y z; tauto]. Qed.

Lemma undisturbed_same b c me ms ms' : m_kernel ms' = m_kernel ms → undisturbed b c me ms ms'.
Proof. intros Hk. unfold undisturbed, machine_ok, machine_sys. by rewrite Hk. Qed.

Lemma kernel_op_undisturbed b c me {A} (m : M (Kernel (S := S) (N := N)) Error A) :
  keeps (λ s s', inv (k_sys s) ∧ numbered b s ∧ runs c me (k_sys s) → inv (k_sys s') ∧ numbered b s' ∧ runs c me (k_sys s')) m →
  keeps (undisturbed b c me) (kernel_op m).
Proof.
  intros Hm ms [[Hi Hn] Hr]. unfold kernel_op, zoom. specialize (Hm (m_kernel ms) (conj Hi (conj Hn Hr))).
  destruct (m (m_kernel ms)) as [o k']. by destruct Hm as (? & ? & ?).
Qed.

Lemma load_core_ctx_state me (y : Sys) : (load_core_ctx me y).2 = y.
Proof. unfold load_core_ctx, task_of, bind, lift. by destruct (unwrap _). Qed.

Lemma on_external_irq_undisturbed b c me irq : keeps (undisturbed b c me) (kernel_op (sys_op (on_external_irq irq))).
Proof.
  apply kernel_op_undisturbed. intros s (Hi & [H1 H2] & k & Hk & Hc). pose proof (on_external_irq_current irq (k_sys s)) as Hcur.
  pose proof (on_external_irq_no_new irq (k_sys s)) as [Hnew _]. destruct (on_external_irq_inv _ irq Hi) as (y & E & Hy).
  unfold sys_op, zoom. rewrite E in *. cbn [snd] in *. split; [done|]. split.
  - split; [|done]. intros p Hp. by apply H1, Hnew.
  - assert (current <$> (cores y !! c) = Some me) as (k' & Hk' & Hc')%fmap_Some.
    { by rewrite <-list_lookup_fmap, Hcur, list_lookup_fmap, Hk, <-Hc. }
    by exists k'.
Qed.

Lemma external_irq_undisturbed b c me me' fuel : keeps (undisturbed b c me) (external_irq me' fuel).
Proof.
  assert (Hs : ∀ A (m : M Machine Error A), (∀ ms, m_kernel (m ms).2 = m_kernel ms) → keeps (undisturbed b c me) m).
  { intros A m Hm ms. by apply undisturbed_same. }
  unfold external_irq. apply keeps_bind; [exact _| |intros hart].
  { apply keeps_bind; [exact _| |intros c0; by apply Hs]. apply kernel_op_undisturbed. intros s. unfold sys_op, zoom.
    pose proof (load_core_ctx_state me' (k_sys s)) as Hl. destruct (load_core_ctx me' (k_sys s)) as [o y]. cbn [snd] in Hl |- *.
    by rewrite Hl. }
  apply keeps_bind; [exact _| |intros irq]. { apply Hs. intros ms. unfold plic_claim. by destruct (plic_read _ _). }
  apply keeps_bind; [exact _| |intros []; case_match; by apply Hs].
  case_match; [by apply Hs|]. case_match; [|by apply Hs]. apply keeps_bind; [exact _| |intros read; destruct read; [|by apply Hs]].
  - apply Hs. intros ms. unfold uart_op, unwrapped, zoom. by destruct (drain _ _ _) as [[] ?].
  - apply on_external_irq_undisturbed.
Qed.

(** ** Each step *)

Lemma moved_ok b {A} (m : M Sys Error A) (s s' : Kernel (S := S) (N := N)) a (Q : Sys → Prop) : keeps no_new m → numbered b s →
  (∀ y, m (k_sys s) = (Ok a, y) → inv y ∧ Q y) → sys_op m s = (Ok a, s') → inv (k_sys s') ∧ numbered b s' ∧ Q (k_sys s').
Proof. intros Hm Hn HQ E. apply (sys_op_ok b) in E as [E Hn']; [|done..]. by destruct (HQ _ E). Qed.

Lemma page_fault_ok b (s : Kernel (S := S) (N := N)) c k stval fl r s' : inv (k_sys s) → numbered b s → cores (k_sys s) !! c = Some k →
  current k ≠ idle k → page_fault (current k) stval fl s = (Ok r, s') → gone c b r.1 s'.
Proof.
  intros Hi Hn Hk Hne. unfold page_fault. intros E. apply bind_ok_inv in E as (c0 & s1 & E1 & E).
  unfold sys_op, zoom in E1. rewrite (current_home _ _ _ Hi Hk) in E1. injection E1 as <- <-.
  apply bind_ok_inv in E as (k0 & s1 & E1 & E). unfold sys_op, zoom in E1. cbn [k_sys set_sys] in E1. rewrite (core_of_ok _ _ _ Hk) in E1.
  injection E1 as <- <-. apply bind_ok_inv in E as (tp & s1 & E & [= <- <-]).
  eapply (moved_ok b _ _ _ _ (runs c tp)) in E; [exact E|apply on_page_fault_no_new|exact Hn|].
  intros y. by apply on_page_fault_inv.
Qed.

Lemma trap_ok b ms c k fuel tf stval tp rest ms' : machine_ok b ms → b + 1 < 2 ^ 64 → cores (machine_sys ms) !! c = Some k →
  (current k = idle k → asynchronous (cause_of ms tf)) →
  trap_handler vfs_open vfs_create console trap_resume_ptr fuel (current k) tf stval ms = (Ok (tp, rest), ms') →
  gone c (b + 1) tp (m_kernel ms').
Proof.
  intros [Hi Hn] Hb Hk Has E. apply bind_ok_inv in E as (cause & ms1 & E1 & E).
  assert (cause = cause_of ms tf ∧ ms1 = ms) as [-> ->] by (injection E1 as <- <-; by destruct ms as [[]]).
  assert (Hne : asynchronous (cause_of ms tf) = false → current k ≠ idle k).
  { intros Hf He. apply Has in He. by rewrite Hf in He. }
  assert (Hal : asynchronous (cause_of ms tf) = false → alive c (current k) b (m_kernel ms)).
  { intros Hf. split; [done|]. split; [done|]. exists k. by auto. }
  destruct (cause_of ms tf); cbn [asynchronous] in Hal, Hne; [| | | | |done].
  - apply kernel_op_inv, bind_ok_inv in E as (u & s1 & E1' & E). apply (skip_alive c (current k) b) in E1'; [|by apply Hal].
    by eapply (dispatch_gone _ _ _ _ c (current k) b).
  - apply kernel_op_inv, bind_ok_inv in E as (tp1 & s1 & E & [= <- <- <-]). apply (gone_le _ b); [lia|].
    eapply (moved_ok b _ _ _ _ (runs c tp1)) in E; [exact E|apply on_timer_interrupt_no_new|exact Hn|].
    intros y. by apply on_timer_interrupt_inv.
  - apply bind_ok_inv in E as ([] & ms1 & E & [= <- <- <-]). apply (gone_le _ b); [lia|].
    pose proof (external_irq_undisturbed b c (current k) (current k) fuel ms) as H. rewrite E in H. cbn [snd] in H.
    destruct H as [[? ?] ?]; [split; [done|by exists k]|done].
  - apply kernel_op_inv, (page_fault_ok b _ c) in E; [|by auto..]. apply (gone_le _ b); [lia|exact E].
  - apply kernel_op_inv, (page_fault_ok b _ c) in E; [|by auto..]. apply (gone_le _ b); [lia|exact E].
Qed.

Lemma hstep_ok b x y : machine_ok b x.1 → b + 1 < 2 ^ 64 → hstep x y → machine_ok (b + 1) y.1.
Proof.
  intros Hok Hb Hs. assert (Hgone : ∀ c tp ms, gone c (b + 1) tp (m_kernel ms) → machine_ok (b + 1) ms) by (by intros c tp ms (? & ? & _)).
  assert (Hle : ∀ c tp s, gone c b tp s → gone (S := S) (N := N) c (b + 1) tp s) by (intros c tp s; apply gone_le; lia).
  destruct Hs as [ms rests n memory' d p|ms rests c k fuel tf stval tp rest ms' Hk Hr Has E|ms rests c k r tf tp rest ms' Hk Hr Hne E
    |ms rests c k tp ms' Hk Hne Hr E|ms rests c k irq tp ms' Hk Hne Hr E]; cbn [fst] in *; destruct Hok as [Hi Hn].
  - split; [by destruct Hi; split|]. destruct Hn as [H1 H2]. split; [done|]. cbn. lia.
  - eapply Hgone. by eapply trap_ok.
  - apply kernel_op_inv in E. eapply Hgone, Hle. eapply (resume_gone c (current k) b); [|exact E].
    split; [done|]. split; [done|]. by exists k.
  - apply kernel_op_inv in E. apply (Hgone c tp), Hle.
    eapply (moved_ok b _ _ _ _ (runs c tp)) in E; [exact E|apply reaper_round_no_new|exact Hn|].
    intros y. by apply reaper_round_inv.
  - apply kernel_op_inv in E. apply (Hgone c tp), Hle.
    eapply (moved_ok b _ _ _ _ (runs c tp)) in E; [exact E|apply block_irq_no_new|exact Hn|].
    intros y Ey. destruct (block_on_external_irq_inv _ c k irq Hi Hk Hne) as (tp1 & y1 & E1 & H).
    unfold machine_sys in E1. rewrite E1 in Ey. by injection Ey as <- <-.
Qed.

Lemma hsteps_ok n b x y : machine_ok b x.1 → b + Z.of_nat n < 2 ^ 64 → nsteps hstep n x y → machine_ok (b + Z.of_nat n) y.1.
Proof.
  intros Hok Hb Hs. revert b Hb Hok. induction Hs as [x|n x y z Hx _ IH]; intros b Hb Hok; [by rewrite Z.add_0_r|].
  replace (b + Z.of_nat (Datatypes.S n)) with (b + 1 + Z.of_nat n) by lia. apply IH; [lia|]. apply (hstep_ok b x y); [done|lia|done].
Qed.

(** Whatever traps come, with whatever registers, and whatever user code
    and devices write, no task runs on two harts. *)
Theorem harts_run_distinct_tasks n ms rests ms' rests' : inv (machine_sys ms) → numbered (k_pids (m_kernel ms)) (m_kernel ms) →
  k_pids (m_kernel ms) + Z.of_nat n < 2 ^ 64 → nsteps hstep n (ms, rests) (ms', rests') → safe (machine_sys ms').
Proof.
  intros Hi Hn Hb Hs. apply inv_safe. by apply (hsteps_ok _ _ _ _ (conj Hi Hn : machine_ok _ (ms, rests).1) Hb Hs).
Qed.
End harts.

(** ** Witnesses *)

(** Task 4 of [race_start] has its trap frame in a page of its own; it calls
    [sleep_ms(10)], and 11 ms later the timer interrupts the idle task. *)
Definition nap_frame : Z := KERNEL_DIRECT_MAPPING_BASE + 0x1000.
Definition napping : Machine (S := list Z) (N := unit) (D := list Z * list (Z * Z)) (P := unit) :=
  mkMachine (mkKernel race_start [] [] ∅ 5 example_heap) (uart_new, ([], [])) tt [0; 1].
Definition nap_memory (cause : Z) : Kmem :=
  mkKmem (FrameAllocator.mkFA 0 []) {[0x1000 := <[32%nat := cause]> (<[16%nat := SYS_SLEEP_MS]> (<[9%nat := 10]> (replicate 512 0)))]} ∅.
Definition nap_end : Machine (S := list Z) (N := unit) (D := list Z * list (Z * Z)) (P := unit) :=
  let trap me cause n ms := (trap_handler open_only open_only tt 0 1 me nap_frame 0 (outside n (nap_memory cause) example_heap ([], []) tt ms)).2 in
  (kernel_op (resume_syscall 4 nap_frame SleepDone) (trap 0 0x8000000000000005 1200010 (trap 4 8 1000010 napping))).2.

(** It sleeps, is woken and returns from its system call. *)
Lemma harts_run_distinct_tasks_witness : safe (machine_sys nap_end) ∧ runs 0 4 (machine_sys nap_end).
Proof.
  split; [|eexists; split; [vm_compute; reflexivity|reflexivity]].
  apply (harts_run_distinct_tasks open_only open_only tt 0 5 napping ∅ nap_end ∅).
  - apply inv_tested. by vm_compute.
  - split; [|vm_compute; done]. intros p Hp. apply elem_of_dom in Hp.
    assert (dom (tasks race_start) = list_to_set [0; 1; 2; 3; 4]) as Hd by (vm_compute; reflexivity).
    cbn [k_sys m_kernel napping k_pids] in Hp |- *. rewrite Hd in Hp. set_unfold. lia.
  - by vm_compute.
  - eapply nsteps_l; [eapply (h_outside _ _ _ _ napping ∅ 1000010 (nap_memory 8) example_heap ([], []) tt)|].
    eapply nsteps_l; [eapply (h_trap _ _ _ _ _ _ 0 _ 1 nap_frame 0); [vm_compute; reflexivity|done|done|vm_compute; reflexivity]|].
    eapply nsteps_l; [eapply (h_outside _ _ _ _ _ _ 1200010 (nap_memory 0x8000000000000005) example_heap ([], []) tt)|].
    eapply nsteps_l; [eapply (h_trap _ _ _ _ _ _ 0 _ 1 nap_frame 0); [vm_compute; reflexivity|done|done|vm_compute; reflexivity]|].
    eapply nsteps_l; [eapply (h_resume _ _ _ _ _ _ 0 _ SleepDone nap_frame); [vm_compute; reflexivity|vm_compute; reflexivity|done|vm_compute; reflexivity]|].
    match goal with |- nsteps _ _ ?x ?y => replace x with y by (vm_compute; reflexivity) end. apply nsteps_O.
Defined.
