(* ===== verification/Asm.v ===== *)
(** * Assembly

    The assembly of the kernel as lists of instructions:
    [kernel/src/arch/riscv/trap/trap.S] with the offsets of
    [kernel/src/arch/riscv/trap/trap.rs], and [swtch] of
    [kernel/src/arch/riscv/context.rs].

    A hart has its registers, the control registers that the code uses, and the
    memory of the kernel, which it reaches through the direct mapping that all
    page tables have.  All jumps of the code are forward. *)

From S2P Require Import Prelude Errors Kmalloc Vfs Addr Sv39 FrameAllocator PageMeta PageTable PageMap PageFork MemMgr MemFault UserMem UserView ForkView KernelMap TaskSpace Elf ElfLoad InitStack InOrder Registers FileTable TaskPool Sched TaskNew.

(** ** Harts *)

(** The numbers of the registers. *)
Module R.
Definition zero : nat := 0.
Definition ra : nat := 1.
Definition sp : nat := 2.
Definition gp : nat := 3.
Definition tp : nat := 4.
Definition t0 : nat := 5.
Definition t1 : nat := 6.
Definition t2 : nat := 7.
Definition s0 : nat := 8.
Definition s1 : nat := 9.
Definition a0 : nat := 10.
Definition a1 : nat := 11.
Definition a2 : nat := 12.
Definition a3 : nat := 13.
Definition a4 : nat := 14.
Definition a5 : nat := 15.
Definition a6 : nat := 16.
Definition a7 : nat := 17.
Definition s2 : nat := 18.
Definition s3 : nat := 19.
Definition s4 : nat := 20.
Definition s5 : nat := 21.
Definition s6 : nat := 22.
Definition s7 : nat := 23.
Definition s8 : nat := 24.
Definition s9 : nat := 25.
Definition s10 : nat := 26.
Definition s11 : nat := 27.
Definition t3 : nat := 28.
Definition t4 : nat := 29.
Definition t5 : nat := 30.
Definition t6 : nat := 31.
End R.

(** The control registers. *)
Record Csrs := mkCsrs { sepc : Z; scause : Z; sstatus : Z; sscratch : Z; satp : Z }.
Inductive csr := Sepc | Scause | Sstatus | Sscratch | Satp.
Definition get_csr (c : csr) (s : Csrs) : Z :=
  match c with Sepc => sepc s | Scause => scause s | Sstatus => sstatus s | Sscratch => sscratch s | Satp => satp s end.
Definition set_csr (c : csr) (v : Z) (s : Csrs) : Csrs :=
  match c with
  | Sepc => mkCsrs v (scause s) (sstatus s) (sscratch s) (satp s)
  | Scause => mkCsrs (sepc s) v (sstatus s) (sscratch s) (satp s)
  | Sstatus => mkCsrs (sepc s) (scause s) v (sscratch s) (satp s)
  | Sscratch => mkCsrs (sepc s) (scause s) (sstatus s) v (satp s)
  | Satp => mkCsrs (sepc s) (scause s) (sstatus s) (sscratch s) v
  end.

Record Hart := mkHart { regs : list Z; csrs : Csrs; h_mem : gmap Z (list Z) }.
Definition get (r : nat) (st : Hart) : Z := regs st !!! r.
Definition set (r : nat) (v : Z) (st : Hart) : Hart :=
  match r with O => st | _ => mkHart (<[r := v]> (regs st)) (csrs st) (h_mem st) end.
Definition set_csrs (c : Csrs) (st : Hart) : Hart := mkHart (regs st) c (h_mem st).
Definition set_h_mem (m : gmap Z (list Z)) (st : Hart) : Hart := mkHart (regs st) (csrs st) m.

(** ** Instructions *)

Inductive label := save_user_stack | save_kernel_stack | save_trapframe | ret_userspace | ret_kernel.
#[export] Instance label_eq : EqDecision label.
Proof. solve_decision. Defined.

Inductive instr :=
| Sd (rs : nat) (off : Z) (base : nat)
| Ld (rd : nat) (off : Z) (base : nat)
| Addi (rd rs : nat) (imm : Z)
| Mv (rd rs : nat)
| Li (rd : nat) (imm : Z)
| And (rd r1 r2 : nat)
| Or (rd r1 r2 : nat)
| Add (rd r1 r2 : nat)
| Srli (rd rs : nat) (imm : Z)
| Csrrw (rd : nat) (c : csr) (rs : nat)
| Csrr (rd : nat) (c : csr)
| Csrw (c : csr) (rs : nat)
| Sfence_vma
| Label (l : label)
| Bnez (r : nat) (l : label)
| J (l : label)
| Call_trap_handler
| Sret
| Jr (r : nat)
| Ret.

(** Where a run of a hart ends: at the call of [trap_handler], with what
    follows it, at a return or an indirect jump, or at an access outside the direct mapping. *)
Inductive stop :=
| Called (rest : list instr) (st : Hart)
| Trap_returned (st : Hart)
| Returned (target : Z) (st : Hart)
| Fault
| Ran_off (st : Hart).

Definition wrap64 (x : Z) : Z := x mod 2 ^ 64.

(** An aligned word of the direct mapping. *)
Definition in_mapping (a : Z) : bool := (a mod 8 =? 0) && (KERNEL_DIRECT_MAPPING_BASE <=? a).

(** An instruction that goes on with the next one. *)
Definition exec (i : instr) (st : Hart) : option Hart :=
  match i with
  | Sd rs off base =>
      let a := wrap64 (get base st + off) in
      if in_mapping a then Some (set_h_mem (set_word a (get rs st) (h_mem st)) st) else None
  | Ld rd off base =>
      let a := wrap64 (get base st + off) in
      if in_mapping a then Some (set rd (word_at a (h_mem st)) st) else None
  | Addi rd rs imm => Some (set rd (wrap64 (get rs st + imm)) st)
  | Mv rd rs => Some (set rd (get rs st) st)
  | Li rd imm => Some (set rd imm st)
  | And rd r1 r2 => Some (set rd (Z.land (get r1 st) (get r2 st)) st)
  | Or rd r1 r2 => Some (set rd (Z.lor (get r1 st) (get r2 st)) st)
  | Add rd r1 r2 => Some (set rd (wrap64 (get r1 st + get r2 st)) st)
  | Srli rd rs imm => Some (set rd (Z.shiftr (get rs st) imm) st)
  | Csrrw rd c rs => Some (set rd (get_csr c (csrs st)) (set_csrs (set_csr c (get rs st) (csrs st)) st))
  | Csrr rd c => Some (set rd (get_csr c (csrs st)) st)
  | Csrw c rs => Some (set_csrs (set_csr c (get rs st) (csrs st)) st)
  | _ => Some st
  end.

(** [skip] is the label that a jump looks for. *)
Fixpoint run (skip : option label) (code : list instr) (st : Hart) : stop :=
  match code with
  | [] => Ran_off st
  | i :: rest =>
      match skip, i with
      | Some l, Label l' => run (if decide (l = l') then None else skip) rest st
      | Some _, _ => run skip rest st
      | None, Bnez r l => run (if get r st =? 0 then None else Some l) rest st
      | None, J l => run (Some l) rest st
      | None, Call_trap_handler => Called rest st
      | None, Sret => Trap_returned st
      | None, Ret => Returned (get R.ra st) st
      | None, Jr r => Returned (get r st) st
      | None, _ => match exec i st with Some st' => run None rest st' | None => Fault end
      end
  end.

(** ** [trap.S] *)

(** The offsets of the fields of a trap frame, which is [repr(C)]. *)
Definition offset_of (field : Z) : Z := 8 * field.
Abbreviation TF_RA := (offset_of 0).
Abbreviation TF_SP := (offset_of 1).
Abbreviation TF_GP := (offset_of 2).
Abbreviation TF_TP := (offset_of 3).
Abbreviation TF_T0 := (offset_of 4).
Abbreviation TF_T1 := (offset_of 5).
Abbreviation TF_T2 := (offset_of 6).
Abbreviation TF_S0 := (offset_of 7).
Abbreviation TF_S1 := (offset_of 8).
Abbreviation TF_A0 := (offset_of 9).
Abbreviation TF_A1 := (offset_of 10).
Abbreviation TF_A2 := (offset_of 11).
Abbreviation TF_A3 := (offset_of 12).
Abbreviation TF_A4 := (offset_of 13).
Abbreviation TF_A5 := (offset_of 14).
Abbreviation TF_A6 := (offset_of 15).
Abbreviation TF_A7 := (offset_of 16).
Abbreviation TF_S2 := (offset_of 17).
Abbreviation TF_S3 := (offset_of 18).
Abbreviation TF_S4 := (offset_of 19).
Abbreviation TF_S5 := (offset_of 20).
Abbreviation TF_S6 := (offset_of 21).
Abbreviation TF_S7 := (offset_of 22).
Abbreviation TF_S8 := (offset_of 23).
Abbreviation TF_S9 := (offset_of 24).
Abbreviation TF_S10 := (offset_of 25).
Abbreviation TF_S11 := (offset_of 26).
Abbreviation TF_T3 := (offset_of 27).
Abbreviation TF_T4 := (offset_of 28).
Abbreviation TF_T5 := (offset_of 29).
Abbreviation TF_T6 := (offset_of 30).
Abbreviation TF_SEPC := (offset_of 31).
Abbreviation TF_SCAUSE := (offset_of 32).
Abbreviation TF_SSTATUS := (offset_of 33).

(** [trap_resume]. *)
Definition trap_resume : list instr := [
  Ld R.t0 TF_SEPC R.sp; Csrw Sepc R.t0;
  Ld R.t0 TF_SSTATUS R.sp; Csrw Sstatus R.t0;
  Ld R.ra TF_RA R.sp; Ld R.gp TF_GP R.sp; Ld R.t2 TF_T2 R.sp; Ld R.s0 TF_S0 R.sp; Ld R.s1 TF_S1 R.sp;
  Ld R.a0 TF_A0 R.sp; Ld R.a1 TF_A1 R.sp; Ld R.a2 TF_A2 R.sp; Ld R.a3 TF_A3 R.sp; Ld R.a4 TF_A4 R.sp;
  Ld R.a5 TF_A5 R.sp; Ld R.a6 TF_A6 R.sp; Ld R.a7 TF_A7 R.sp; Ld R.s2 TF_S2 R.sp; Ld R.s3 TF_S3 R.sp;
  Ld R.s4 TF_S4 R.sp; Ld R.s5 TF_S5 R.sp; Ld R.s6 TF_S6 R.sp; Ld R.s7 TF_S7 R.sp; Ld R.s8 TF_S8 R.sp;
  Ld R.s9 TF_S9 R.sp; Ld R.s10 TF_S10 R.sp; Ld R.s11 TF_S11 R.sp; Ld R.t3 TF_T3 R.sp; Ld R.t4 TF_T4 R.sp;
  Ld R.t5 TF_T5 R.sp; Ld R.t6 TF_T6 R.sp;
  Ld R.t0 TF_SSTATUS R.sp; Li R.t1 SPP_MASK; And R.t0 R.t0 R.t1; Bnez R.t0 ret_kernel;
  Label ret_userspace;
  Csrw Sscratch R.tp; Ld R.t0 TF_T0 R.sp; Ld R.t1 TF_T1 R.sp; Ld R.tp TF_TP R.sp; Ld R.sp TF_SP R.sp; Sret;
  Label ret_kernel;
  Csrw Sscratch R.zero; Ld R.t0 TF_T0 R.sp; Ld R.t1 TF_T1 R.sp; Ld R.sp TF_SP R.sp; Sret].

(** [trap_entry], which goes on with [trap_resume]. *)
Definition trap_entry : list instr := [
  Csrrw R.tp Sscratch R.tp; Bnez R.tp save_user_stack; Csrr R.tp Sscratch; J save_kernel_stack;
  Label save_user_stack;
  Sd R.sp (0 * 8) R.tp; Ld R.sp (1 * 8) R.tp; Addi R.sp R.sp (- TRAP_FRAME_SIZE);
  Sd R.ra TF_RA R.sp; Ld R.ra (0 * 8) R.tp; Sd R.ra TF_SP R.sp; J save_trapframe;
  Label save_kernel_stack;
  Addi R.sp R.sp (- TRAP_FRAME_SIZE); Sd R.ra TF_RA R.sp; Addi R.ra R.sp TRAP_FRAME_SIZE; Sd R.ra TF_SP R.sp;
  Label save_trapframe;
  Csrr R.ra Sscratch; Sd R.ra TF_TP R.sp; Ld R.ra TF_RA R.sp; Csrw Sscratch R.zero;
  Sd R.gp TF_GP R.sp; Sd R.t0 TF_T0 R.sp; Sd R.t1 TF_T1 R.sp; Sd R.t2 TF_T2 R.sp; Sd R.s0 TF_S0 R.sp;
  Sd R.s1 TF_S1 R.sp; Sd R.a0 TF_A0 R.sp; Sd R.a1 TF_A1 R.sp; Sd R.a2 TF_A2 R.sp; Sd R.a3 TF_A3 R.sp;
  Sd R.a4 TF_A4 R.sp; Sd R.a5 TF_A5 R.sp; Sd R.a6 TF_A6 R.sp; Sd R.a7 TF_A7 R.sp; Sd R.s2 TF_S2 R.sp;
  Sd R.s3 TF_S3 R.sp; Sd R.s4 TF_S4 R.sp; Sd R.s5 TF_S5 R.sp; Sd R.s6 TF_S6 R.sp; Sd R.s7 TF_S7 R.sp;
  Sd R.s8 TF_S8 R.sp; Sd R.s9 TF_S9 R.sp; Sd R.s10 TF_S10 R.sp; Sd R.s11 TF_S11 R.sp; Sd R.t3 TF_T3 R.sp;
  Sd R.t4 TF_T4 R.sp; Sd R.t5 TF_T5 R.sp; Sd R.t6 TF_T6 R.sp;
  Csrr R.t0 Sepc; Sd R.t0 TF_SEPC R.sp; Csrr R.t0 Scause; Sd R.t0 TF_SCAUSE R.sp; Csrr R.t0 Sstatus; Sd R.t0 TF_SSTATUS R.sp;
  Mv R.a0 R.sp; Call_trap_handler] ++ trap_resume.

(** ** [swtch] *)

(** [offset_of!(Task, context)]: behind a [ThreadInfo], a [Pid] and a [KernelPtr]. *)
Definition CONTEXT_OFFSET : Z := 3 * 8 + 8 + 8.

Definition swtch : list instr := [
  Csrw Satp R.a2; Sfence_vma; Addi R.a0 R.a0 CONTEXT_OFFSET;
  Sd R.ra (0 * 8) R.a0; Sd R.sp (1 * 8) R.a0; Sd R.s0 (2 * 8) R.a0; Sd R.s1 (3 * 8) R.a0; Sd R.s2 (4 * 8) R.a0;
  Sd R.s3 (5 * 8) R.a0; Sd R.s4 (6 * 8) R.a0; Sd R.s5 (7 * 8) R.a0; Sd R.s6 (8 * 8) R.a0; Sd R.s7 (9 * 8) R.a0;
  Sd R.s8 (10 * 8) R.a0; Sd R.s9 (11 * 8) R.a0; Sd R.s10 (12 * 8) R.a0; Sd R.s11 (13 * 8) R.a0;
  Mv R.tp R.a1; Addi R.a1 R.a1 CONTEXT_OFFSET;
  Ld R.ra (0 * 8) R.a1; Ld R.sp (1 * 8) R.a1; Ld R.s0 (2 * 8) R.a1; Ld R.s1 (3 * 8) R.a1; Ld R.s2 (4 * 8) R.a1;
  Ld R.s3 (5 * 8) R.a1; Ld R.s4 (6 * 8) R.a1; Ld R.s5 (7 * 8) R.a1; Ld R.s6 (8 * 8) R.a1; Ld R.s7 (9 * 8) R.a1;
  Ld R.s8 (10 * 8) R.a1; Ld R.s9 (11 * 8) R.a1; Ld R.s10 (12 * 8) R.a1; Ld R.s11 (13 * 8) R.a1;
  Ret].

(** ** Words that the code may use *)

Definition word_ok (m : gmap Z (list Z)) (p : Z) : Prop :=
  p mod 8 = 0 ∧ KERNEL_DIRECT_MAPPING_BASE ≤ p < 2 ^ 64 ∧ length (frame m (kernel_page p)) = 512%nat.
Definition words_ok (m : gmap Z (list Z)) (p : Z) (n : nat) : Prop := ∀ i, (i < n)%nat → word_ok m (p + 8 * Z.of_nat i).

Lemma frame_set_word p w m x : length (frame (set_word p w m) x) = length (frame m x).
Proof.
  unfold set_word, upd. fold (kernel_page p). destruct (decide (x = kernel_page p)) as [->|Hne].
  - unfold frame at 1. rewrite lookup_insert_eq. cbn [default]. apply length_insert.
  - by rewrite frame_insert_ne.
Qed.

Lemma word_ok_set_word p w m q : word_ok m q → word_ok (set_word p w m) q.
Proof. unfold word_ok. by rewrite frame_set_word. Qed.
Lemma words_ok_set_word p w m q n : words_ok m q n → words_ok (set_word p w m) q n.
Proof. intros H i Hi. by apply word_ok_set_word, H. Qed.

Lemma words_ok_aligned m p n : (0 < n)%nat → words_ok m p n → p mod 8 = 0.
Proof. intros Hn H. destruct (H 0%nat Hn) as [H0 _]. by rewrite Z.add_0_r in H0. Qed.

Lemma in_mapping_ok m p : word_ok m p → wrap64 p = p ∧ in_mapping p = true.
Proof.
  intros (H1 & H2 & _). split; [apply Z.mod_small; unfold KERNEL_DIRECT_MAPPING_BASE in H2; lia|].
  unfold in_mapping. rewrite H1. cbn. apply Z.leb_le. lia.
Qed.

Lemma exec_sd st rs off base p : get base st + off = p → word_ok (h_mem st) p →
  exec (Sd rs off base) st = Some (set_h_mem (set_word p (get rs st) (h_mem st)) st).
Proof. intros <- H. unfold exec. by destruct (in_mapping_ok _ _ H) as [-> ->]. Qed.
Lemma exec_ld st rd off base p : get base st + off = p → word_ok (h_mem st) p →
  exec (Ld rd off base) st = Some (set rd (word_at p (h_mem st)) st).
Proof. intros <- H. unfold exec. by destruct (in_mapping_ok _ _ H) as [-> ->]. Qed.

(** ** Runs of stores and of loads *)

Definition set_regs (rs : list Z) (st : Hart) : Hart := mkHart rs (csrs st) (h_mem st).
Definition stores (base : nat) (l : list (nat * nat)) : list instr := (λ x, Sd x.1 (8 * Z.of_nat x.2) base) <$> l.
Definition loads (base : nat) (l : list (nat * nat)) : list instr := (λ x, Ld x.1 (8 * Z.of_nat x.2) base) <$> l.

(** [m'] is [m] but for the [n] words at [p], which are [ws]. *)
Record stored (m m' : gmap Z (list Z)) (p : Z) (ws : list Z) : Prop := {
  sd_words : words_at p (length ws) m' = ws;
  sd_rest q : q mod 8 = 0 → (∀ i, (i < length ws)%nat → q ≠ p + 8 * Z.of_nat i) → word_at q m' = word_at q m;
  sd_ok q : word_ok m q → word_ok m' q;
}.

Lemma stored_refl m p n : stored m m p (words_at p n m).
Proof. split; [by rewrite words_at_length|done|done]. Qed.

Lemma stored_set_word m m' p ws k w : words_ok m p (length ws) → (k < length ws)%nat → stored m m' p ws →
  stored m (set_word (p + 8 * Z.of_nat k) w m') p (<[k := w]> ws).
Proof.
  intros Hok Hk [H1 H2 H3]. assert (Hp : p mod 8 = 0) by (eapply words_ok_aligned, Hok; lia).
  destruct (H3 _ (Hok k Hk)) as (Ha & _ & Hl). split; rewrite ?length_insert.
  - rewrite words_at_insert by done. by rewrite H1.
  - intros q Hq Hne. rewrite word_at_set_word by done. rewrite decide_False by by apply Hne. by apply H2.
  - intros q Hq. by apply word_ok_set_word, H3.
Qed.

Lemma run_stores base l : ∀ st m0 ws rest, words_ok m0 (get base st) (length ws) → Forall (λ x, (x.2 < length ws)%nat) l →
  stored m0 (h_mem st) (get base st) ws →
  ∃ m', run None (stores base l ++ rest) st = run None rest (set_h_mem m' st) ∧
    stored m0 m' (get base st) (foldl (λ ws x, <[x.2 := get x.1 st]> ws) ws l).
Proof.
  induction l as [|[r k] l IH]; intros st m0 ws rest Hok Hl Hst; cbn [stores fmap list_fmap app foldl].
  { exists (h_mem st). split; [by destruct st|done]. }
  apply Forall_cons in Hl as [Hk Hl]. cbn [fst snd] in *.
  destruct (IH (set_h_mem (set_word (get base st + 8 * Z.of_nat k) (get r st) (h_mem st)) st) m0 (<[k := get r st]> ws) rest) as (m' & E & Hm).
  - by rewrite length_insert.
  - by rewrite length_insert.
  - by apply stored_set_word.
  - exists m'. split; [|exact Hm]. etransitivity; [|exact E]. cbn [run].
    rewrite (exec_sd st r (8 * Z.of_nat k) base _ eq_refl) by (apply Hst, Hok, Hk). done.
Qed.

Lemma run_loads base ws l : ∀ st rest, words_ok (h_mem st) (get base st) (length ws) →
  words_at (get base st) (length ws) (h_mem st) = ws → Forall (λ x, (x.2 < length ws)%nat ∧ x.1 ≠ 0%nat ∧ x.1 ≠ base) l →
  run None (loads base l ++ rest) st = run None rest (set_regs (foldl (λ rs x, <[x.1 := ws !!! x.2]> rs) (regs st) l) st).
Proof.
  induction l as [|[r k] l IH]; intros st rest Hok Hws Hl; cbn [loads fmap list_fmap app foldl].
  { by destruct st. }
  apply Forall_cons in Hl as [(Hk & H0 & Hb) Hl]. cbn [fst snd] in *. cbn [run].
  rewrite (exec_ld st r (8 * Z.of_nat k) base _ eq_refl) by by apply Hok.
  assert (Hw : word_at (get base st + 8 * Z.of_nat k) (h_mem st) = ws !!! k).
  { rewrite <-Hws at 1. symmetry. apply list_lookup_total_correct. unfold words_at. rewrite list_lookup_fmap, lookup_seqZ_lt by lia. done. }
  rewrite Hw. assert (Hget : get base (set r (ws !!! k) st) = get base st).
  { destruct r; [done|]. unfold get, set. cbn [regs]. by rewrite list_lookup_total_insert_ne by done. }
  fold (loads base l). rewrite IH; [|rewrite Hget; by destruct r..|done]. by destruct r.
Qed.
