(* ===== verification/AsmTrap.v ===== *)
(** * What the assembly does

    [trap_entry] saves the registers of the interrupted code in a trap frame and
    [trap_resume] loads them from one; [swtch] leaves one task and goes on with
    another. *)

From S2P Require Import Prelude Errors Kmalloc Vfs Addr Sv39 FrameAllocator PageMeta PageTable PageMap PageFork MemMgr MemFault UserMem UserView ForkView KernelMap TaskSpace Elf ElfLoad InitStack InOrder Registers FileTable TaskPool Sched TaskNew Asm.

Implicit Types (st : Hart) (m : gmap Z (list Z)) (ws : list Z).

(** ** Steps *)

Ltac explode l := repeat (destruct l as [|? l]; [discriminate|]); destruct l; [|discriminate].

(** A list of known length by its elements. *)
Lemma list_32 (l : list Z) : length l = 32%nat → l = [l !!! 0; l !!! 1; l !!! 2; l !!! 3; l !!! 4; l !!! 5; l !!! 6; l !!! 7; l !!! 8; l !!! 9; l !!! 10; l !!! 11; l !!! 12; l !!! 13; l !!! 14; l !!! 15; l !!! 16; l !!! 17; l !!! 18; l !!! 19; l !!! 20; l !!! 21; l !!! 22; l !!! 23; l !!! 24; l !!! 25; l !!! 26; l !!! 27; l !!! 28; l !!! 29; l !!! 30; l !!! 31]%nat.
Proof. intros H. explode l. reflexivity. Qed.
Lemma list_34 (l : list Z) : length l = 34%nat → l = [l !!! 0; l !!! 1; l !!! 2; l !!! 3; l !!! 4; l !!! 5; l !!! 6; l !!! 7; l !!! 8; l !!! 9; l !!! 10; l !!! 11; l !!! 12; l !!! 13; l !!! 14; l !!! 15; l !!! 16; l !!! 17; l !!! 18; l !!! 19; l !!! 20; l !!! 21; l !!! 22; l !!! 23; l !!! 24; l !!! 25; l !!! 26; l !!! 27; l !!! 28; l !!! 29; l !!! 30; l !!! 31; l !!! 32; l !!! 33]%nat.
Proof. intros H. explode l. reflexivity. Qed.

Lemma list_14 (l : list Z) : length l = 14%nat → l = [l !!! 0; l !!! 1; l !!! 2; l !!! 3; l !!! 4; l !!! 5; l !!! 6; l !!! 7; l !!! 8; l !!! 9; l !!! 10; l !!! 11; l !!! 12; l !!! 13]%nat.
Proof. intros H. explode l. reflexivity. Qed.

Lemma word_of_words p n m ws k : words_at p n m = ws → (k < n)%nat → word_at (p + 8 * Z.of_nat k) m = ws !!! k.
Proof.
  intros <- Hk. symmetry. apply list_lookup_total_correct. unfold words_at. by rewrite list_lookup_fmap, lookup_seqZ_lt by lia.
Qed.

Lemma get_set_ne r r' v st : r ≠ r' → get r (set r' v st) = get r st.
Proof. intros H. destruct r'; [done|]. unfold get, set. cbn [regs]. by rewrite list_lookup_total_insert_ne by done. Qed.
Lemma get_set_eq r v st : r ≠ 0%nat → (r < length (regs st))%nat → get r (set r v st) = v.
Proof. intros H Hl. destruct r; [done|]. unfold get, set. cbn [regs]. by rewrite list_lookup_total_insert_eq by done. Qed.
Lemma get_set_csrs r c st : get r (set_csrs c st) = get r st.
Proof. done. Qed.

(** Instructions that use no memory. *)
Section steps.
Variable (rest : list instr).
Lemma run_csrw c r st : run None (Csrw c r :: rest) st = run None rest (set_csrs (set_csr c (get r st) (csrs st)) st).
Proof. done. Qed.
Lemma run_csrr c r st : run None (Csrr r c :: rest) st = run None rest (set r (get_csr c (csrs st)) st).
Proof. done. Qed.
Lemma run_csrrw c r r' st : run None (Csrrw r c r' :: rest) st =
  run None rest (set r (get_csr c (csrs st)) (set_csrs (set_csr c (get r' st) (csrs st)) st)).
Proof. done. Qed.
Lemma run_li r v st : run None (Li r v :: rest) st = run None rest (set r v st).
Proof. done. Qed.
Lemma run_mv r r' st : run None (Mv r r' :: rest) st = run None rest (set r (get r' st) st).
Proof. done. Qed.
Lemma run_addi r r' v st : run None (Addi r r' v :: rest) st = run None rest (set r (wrap64 (get r' st + v)) st).
Proof. done. Qed.
Lemma run_and r r1 r2 st : run None (And r r1 r2 :: rest) st = run None rest (set r (Z.land (get r1 st) (get r2 st)) st).
Proof. done. Qed.
Lemma run_bnez r l st : run None (Bnez r l :: rest) st = run (if get r st =? 0 then None else Some l) rest st.
Proof. done. Qed.
End steps.

Lemma run_sd st rs off base p rest : get base st + off = p → word_ok (h_mem st) p →
  run None (Sd rs off base :: rest) st = run None rest (set_h_mem (set_word p (get rs st) (h_mem st)) st).
Proof. intros Hp Hok. cbn [run]. by rewrite (exec_sd st rs off base p). Qed.
Lemma run_ld st rd off base p rest : get base st + off = p → word_ok (h_mem st) p →
  run None (Ld rd off base :: rest) st = run None rest (set rd (word_at p (h_mem st)) st).
Proof. intros Hp Hok. cbn [run]. by rewrite (exec_ld st rd off base p). Qed.

(** The frame at the stack pointer is [ws]. *)
Definition framed ws st : Prop := words_ok (h_mem st) (get R.sp st) 34 ∧ words_at (get R.sp st) 34 (h_mem st) = ws.

Lemma framed_set ws r v st : framed ws st → r ≠ R.sp → framed ws (set r v st).
Proof. unfold framed. intros H Hr. rewrite get_set_ne by done. by destruct r. Qed.
Lemma framed_set_csrs ws c st : framed ws st → framed ws (set_csrs c st).
Proof. done. Qed.

Lemma load_word ws rd off k st rest : framed ws st → off = 8 * Z.of_nat k → (k < 34)%nat →
  run None (Ld rd off R.sp :: rest) st = run None rest (set rd (ws !!! k) st).
Proof.
  intros [Hok Hws] -> Hk. cbn [run]. rewrite (exec_ld _ rd _ R.sp _ eq_refl) by by apply Hok.
  by rewrite (word_of_words _ _ _ _ _ Hws Hk).
Qed.

Lemma load_words ws l st rest : framed ws st → Forall (λ x, (x.2 < 34)%nat ∧ x.1 ≠ 0%nat ∧ x.1 ≠ R.sp) l →
  run None (loads R.sp l ++ rest) st = run None rest (set_regs (foldl (λ rs x, <[x.1 := ws !!! x.2]> rs) (regs st) l) st).
Proof.
  intros [Hok Hws] Hl. assert (length ws = 34%nat) as E by (rewrite <-Hws; apply words_at_length).
  apply run_loads; by rewrite E.
Qed.

Lemma framed_loads ws l st : framed ws st → Forall (λ x, (x.2 < 34)%nat ∧ x.1 ≠ 0%nat ∧ x.1 ≠ R.sp) l →
  framed ws (set_regs (foldl (λ rs x, <[x.1 := ws !!! x.2]> rs) (regs st) l) st).
Proof.
  intros [H1 H2] Hl. unfold framed, get. cbn [regs set_regs h_mem].
  replace (foldl _ (regs st) l !!! R.sp) with (regs st !!! R.sp); [done|]. generalize (regs st). clear -Hl.
  induction Hl as [|[r k] l (_ & _ & Hr) _ IH]; intros rs; [done|]. cbn [foldl fst snd] in *.
  rewrite <-IH. by rewrite list_lookup_total_insert_ne.
Qed.

Lemma resume_tail ws l st rest : framed ws st → Forall (λ x, (x.2 < 34)%nat ∧ x.1 ≠ 0%nat ∧ x.1 ≠ R.sp) l →
  run None (loads R.sp l ++ Ld R.sp TF_SP R.sp :: Sret :: rest) st =
    Trap_returned (set R.sp (ws !!! 1%nat) (set_regs (foldl (λ rs x, <[x.1 := ws !!! x.2]> rs) (regs st) l) st)).
Proof. intros Hf Hl. rewrite (load_words ws) by done. by rewrite (load_word ws _ _ 1) by (done || lia || by apply framed_loads). Qed.

Ltac framed_tac := repeat first [assumption|apply framed_set_csrs|apply framed_set; [|discriminate]].
Ltac forall_tac := repeat (constructor; [split_and!; [cbn; lia|discriminate|discriminate]|]); constructor.

(** ** Return from a trap *)

(** What [trap_resume] leaves when the frame at its stack pointer is [ws]. *)
Record resumed st ws st' : Prop := {
  re_mem : h_mem st' = h_mem st;
  re_sepc : sepc (csrs st') = ws !!! 31%nat;
  re_sstatus : sstatus (csrs st') = ws !!! 33%nat;
  re_regs : regs st' = 0 :: (if Z.land (ws !!! 33%nat) SPP_MASK =? 0 then take 31 ws else <[3%nat := get R.tp st]> (take 31 ws));
  re_sscratch : sscratch (csrs st') = if Z.land (ws !!! 33%nat) SPP_MASK =? 0 then get R.tp st else 0;
}.

Definition resume_loads : list (nat * nat) :=
  [(1, 0); (3, 2); (7, 6); (8, 7); (9, 8); (10, 9); (11, 10); (12, 11); (13, 12); (14, 13); (15, 14); (16, 15); (17, 16);
   (18, 17); (19, 18); (20, 19); (21, 20); (22, 21); (23, 22); (24, 23); (25, 24); (26, 25); (27, 26); (28, 27); (29, 28); (30, 29); (31, 30)]%nat.

Lemma trap_resume_blocks : trap_resume =
  Ld R.t0 TF_SEPC R.sp :: Csrw Sepc R.t0 :: Ld R.t0 TF_SSTATUS R.sp :: Csrw Sstatus R.t0 :: loads R.sp resume_loads ++
  Ld R.t0 TF_SSTATUS R.sp :: Li R.t1 SPP_MASK :: And R.t0 R.t0 R.t1 :: Bnez R.t0 ret_kernel :: Label ret_userspace ::
  Csrw Sscratch R.tp :: loads R.sp [(5, 5 - 1); (6, 6 - 1); (4, 4 - 1)]%nat ++ Ld R.sp TF_SP R.sp :: Sret :: Label ret_kernel ::
  Csrw Sscratch R.zero :: loads R.sp [(5, 5 - 1); (6, 6 - 1)]%nat ++ [Ld R.sp TF_SP R.sp; Sret].
Proof. reflexivity. Qed.

Lemma trap_resume_ok st ws : length (regs st) = 32%nat → get R.zero st = 0 → framed ws st →
  ∃ st', run None trap_resume st = Trap_returned st' ∧ resumed st ws st'.
Proof.
  intros Hr H0 Hok. assert (Hl : length ws = 34%nat) by (destruct Hok as [_ <-]; apply words_at_length).
  rewrite trap_resume_blocks, (load_word ws _ _ 31), run_csrw by (done || lia). set (st1 := set_csrs _ _).
  assert (H1 : framed ws st1) by (unfold st1; framed_tac).
  rewrite (load_word ws _ _ 33 st1), run_csrw by (done || lia). set (st2 := set_csrs _ _).
  assert (H2 : framed ws st2) by (unfold st2; framed_tac).
  rewrite (load_words ws resume_loads) by (done || (unfold resume_loads; forall_tac)). set (st3 := set_regs _ _).
  assert (H3 : framed ws st3) by (apply framed_loads; [done|unfold resume_loads; forall_tac]).
  rewrite (load_word ws _ _ 33 st3), run_li, run_and, run_bnez by (done || lia). set (st4 := set R.t0 _ _).
  assert (H4 : framed ws st4) by (unfold st4; framed_tac). clear H1 H2 H3.
  assert (Hst : regs st4 = [get 0 st; ws !!! 0%nat; get R.sp st; ws !!! 2%nat; get R.tp st; Z.land (ws !!! 33%nat) SPP_MASK; SPP_MASK] ++
      drop 6 (take 31 ws) ∧ csrs st4 = mkCsrs (ws !!! 31%nat) (scause (csrs st)) (ws !!! 33%nat) (sscratch (csrs st)) (satp (csrs st)) ∧
      h_mem st4 = h_mem st).
  { unfold st4, st3, st2, st1. clear -Hr Hl. destruct st as [rs cs m]. cbn [regs] in Hr. rewrite (list_32 rs Hr), (list_34 ws Hl). done. }
  clearbody st4. clear st3 st2 st1. destruct Hst as (Hrs & Hcs & Hm). change (get R.t0 st4) with (regs st4 !!! 5%nat). rewrite Hrs.
  cbn [lookup_total list_lookup_total app]. destruct (Z.land (ws !!! 33%nat) SPP_MASK =? 0) eqn:Hspp.
  - change (run None (Label ret_userspace :: ?rest) st4) with (run None rest st4). rewrite run_csrw, (resume_tail ws) by (done || forall_tac).
    eexists. split; [done|]. split; rewrite ?Hspp; cbn [h_mem set set_regs set_csrs csrs set_csr sepc sstatus sscratch regs]; rewrite ?Hcs; try done.
    + rewrite Hrs, <-H0. clear -Hl. rewrite (list_34 ws Hl). done.
    + unfold get at 1. rewrite Hrs. done.
  - change (run (Some ret_kernel) _ st4) with
      (run None (Csrw Sscratch R.zero :: loads R.sp [(5, 5 - 1); (6, 6 - 1)]%nat ++ [Ld R.sp TF_SP R.sp; Sret]) st4).
    rewrite run_csrw, (resume_tail ws) by (done || forall_tac).
    eexists. split; [done|]. split; rewrite ?Hspp; cbn [h_mem set set_regs set_csrs csrs set_csr sepc sstatus sscratch regs]; rewrite ?Hcs; try done.
    + rewrite Hrs, <-H0. clear -Hl. rewrite (list_34 ws Hl). done.
    + unfold get at 1. rewrite Hrs. exact H0.
Qed.

(** ** Entry of a trap *)

(** The memory is [m0] but for a frame at the stack pointer [tf], so far [ws]. *)
Record saving m0 (tf : Z) ws st : Prop := {
  sv_sp : get R.sp st = tf;
  sv_ok : words_ok m0 tf 34;
  sv_length : length ws = 34%nat;
  sv_stored : stored m0 (h_mem st) tf ws;
}.

Lemma saving_set m0 tf ws r v st : saving m0 tf ws st → r ≠ R.sp → saving m0 tf ws (set r v st).
Proof. intros [] Hr. split; [by rewrite get_set_ne|done|done|by destruct r]. Qed.
Lemma saving_set_csrs m0 tf ws c st : saving m0 tf ws st → saving m0 tf ws (set_csrs c st).
Proof. by intros []; split. Qed.

Lemma saving_framed m0 tf ws st : saving m0 tf ws st → framed ws st.
Proof. intros [<- H2 H3 [H4 _ H5]]. rewrite H3 in H4. split; [|done]. intros i Hi. by apply H5, H2. Qed.

Lemma store_words m0 tf ws l st rest : saving m0 tf ws st → Forall (λ x, (x.2 < 34)%nat) l →
  ∃ m', run None (stores R.sp l ++ rest) st = run None rest (set_h_mem m' st) ∧
    saving m0 tf (foldl (λ ws x, <[x.2 := get x.1 st]> ws) ws l) (set_h_mem m' st).
Proof.
  intros [<- H2 H3 H4] Hl. destruct (run_stores R.sp l st m0 ws rest) as (m' & E & H5); [by rewrite H3|by rewrite H3|done|].
  exists m'. split; [done|]. split; [done|done| |done]. clear -H3. revert ws H3.
  induction l as [|x l IH]; intros ws Hl; [done|]. cbn [foldl]. apply IH. by rewrite length_insert.
Qed.

Definition entry_stores : list (nat * nat) :=
  [(3, 2); (5, 4); (6, 5); (7, 6); (8, 7); (9, 8); (10, 9); (11, 10); (12, 11); (13, 12); (14, 13); (15, 14); (16, 15); (17, 16);
   (18, 17); (19, 18); (20, 19); (21, 20); (22, 21); (23, 22); (24, 23); (25, 24); (26, 25); (27, 26); (28, 27); (29, 28); (30, 29); (31, 30)]%nat.

(** From the label [save_trapframe] on. *)
Definition save_code : list instr :=
  Csrr R.ra Sscratch :: stores R.sp [(1, 3)]%nat ++ Ld R.ra TF_RA R.sp :: Csrw Sscratch R.zero :: stores R.sp entry_stores ++
  Csrr R.t0 Sepc :: stores R.sp [(5, 31)]%nat ++ Csrr R.t0 Scause :: stores R.sp [(5, 32)]%nat ++
  Csrr R.t0 Sstatus :: stores R.sp [(5, 33)]%nat ++ Mv R.a0 R.sp :: Call_trap_handler :: trap_resume.

Lemma trap_entry_blocks : trap_entry =
  Csrrw R.tp Sscratch R.tp :: Bnez R.tp save_user_stack :: Csrr R.tp Sscratch :: J save_kernel_stack :: Label save_user_stack ::
  Sd R.sp 0 R.tp :: Ld R.sp 8 R.tp :: Addi R.sp R.sp (-272) :: stores R.sp [(1, 0)]%nat ++ Ld R.ra 0 R.tp ::
  stores R.sp [(1, 1)]%nat ++ J save_trapframe :: Label save_kernel_stack :: Addi R.sp R.sp (-272) :: stores R.sp [(1, 0)]%nat ++
  Addi R.ra R.sp 272 :: stores R.sp [(1, 1)]%nat ++ Label save_trapframe :: save_code.
Proof. reflexivity. Qed.

Ltac store_block H m H' :=
  match goal with |- context [run None (stores R.sp ?l ++ ?rest) ?st] =>
    destruct (store_words _ _ _ l st rest H) as (m & -> & H'); [unfold entry_stores; repeat (constructor; [cbn; lia|]); constructor|]
  end.
Ltac saving_tac :=
  repeat match goal with
  | |- saving _ _ _ (set_csrs _ _) => apply saving_set_csrs
  | |- saving _ _ _ (set _ _ _) => apply saving_set; [|discriminate]
  end; eassumption.

Lemma save_ok m0 tf ws st : length (regs st) = 32%nat → get R.zero st = 0 → saving m0 tf ws st →
  ∃ st', run None save_code st = Called trap_resume st' ∧
    stored m0 (h_mem st') tf ([ws !!! 0%nat; ws !!! 1%nat; get R.gp st; sscratch (csrs st)] ++ drop 5 (regs st) ++
      [sepc (csrs st); scause (csrs st); sstatus (csrs st)]) ∧
    get R.sp st' = tf ∧ get R.a0 st' = tf ∧ get R.tp st' = get R.tp st ∧ csrs st' = set_csr Sscratch 0 (csrs st).
Proof.
  intros Hr H0 Hs. unfold save_code. rewrite run_csrr. set (st1 := set _ _ _).
  assert (H1 : saving m0 tf ws st1) by (unfold st1; saving_tac).
  store_block H1 m1 H2. rewrite (load_word _ R.ra TF_RA 0), run_csrw by (done || lia || by eapply saving_framed).
  set (st2 := set_csrs _ _). eassert (H3 : saving m0 tf _ st2) by (unfold st2; saving_tac).
  store_block H3 m2 H4. rewrite run_csrr. set (st3 := set _ _ _). eassert (H5 : saving m0 tf _ st3) by (unfold st3; saving_tac).
  store_block H5 m3 H6. rewrite run_csrr. set (st4 := set _ _ _). eassert (H7 : saving m0 tf _ st4) by (unfold st4; saving_tac).
  store_block H7 m4 H8. rewrite run_csrr. set (st5 := set _ _ _). eassert (H9 : saving m0 tf _ st5) by (unfold st5; saving_tac).
  store_block H9 m5 H10. rewrite run_mv. eexists. split; [done|].
  clear H1 H2 H3 H4 H5 H6 H7 H8 H9. destruct H10 as [Hsp _ _ Hst]. pose proof (sv_length _ _ _ _ Hs) as Hl.
  split_and!; [|by rewrite get_set_ne| | |].
  - refine (eq_ind _ (stored m0 m5 tf) Hst _ _). clear -Hr Hl. unfold st5, st4, st3, st2, st1. destruct st as [rs cs m]. cbn [regs] in Hr.
    rewrite (list_32 rs Hr), (list_34 ws Hl). done.
  - etransitivity; [|exact Hsp]. clear -Hr. unfold st5, st4, st3, st2, st1. destruct st as [rs cs m]. cbn [regs] in Hr. rewrite (list_32 rs Hr). done.
  - clear -Hr. unfold st5, st4, st3, st2, st1. destruct st as [rs cs m]. cbn [regs] in Hr. rewrite (list_32 rs Hr). done.
  - rewrite <-H0. clear -Hr. unfold st5, st4, st3, st2, st1. destruct st as [rs cs m]. cbn [regs] in Hr. rewrite (list_32 rs Hr). done.
Qed.

(** ** Traps *)

(** A hart that runs a task: its registers, and a task whose kernel stack has
    room for a frame. *)
Record in_user st (task tf : Z) : Prop := {
  iu_regs : length (regs st) = 32%nat;
  iu_zero : get R.zero st = 0;
  iu_task : sscratch (csrs st) = task;
  iu_not_null : task ≠ 0;
  iu_user_sp : word_ok (h_mem st) task;
  iu_kernel_sp : word_ok (h_mem st) (task + 8);
  iu_stack : word_at (task + 8) (h_mem st) = tf + TRAP_FRAME_SIZE;
  iu_top : 0 ≤ tf ∧ tf + TRAP_FRAME_SIZE < 2 ^ 64;
  iu_frame : words_ok (h_mem st) tf 34;
  iu_apart i : (i < 34)%nat → task ≠ tf + 8 * Z.of_nat i;
}.

(** The registers of a hart as they are in a frame. *)
Definition frame_of st : list Z := drop 1 (regs st) ++ [sepc (csrs st); scause (csrs st); sstatus (csrs st)].

(** [trap_handler] is called with the frame [ws] at [tf]. *)
Record entered st (task tf : Z) st' : Prop := {
  en_frame : words_at tf 34 (h_mem st') = frame_of st;
  en_ok : words_ok (h_mem st') tf 34;
  en_sp : get R.sp st' = tf;
  en_a0 : get R.a0 st' = tf;
  en_tp : get R.tp st' = task;
  en_csrs : csrs st' = set_csr Sscratch 0 (csrs st);
}.

Lemma wrap_tf tf : 0 ≤ tf ∧ tf + TRAP_FRAME_SIZE < 2 ^ 64 → wrap64 (tf + TRAP_FRAME_SIZE + - TRAP_FRAME_SIZE) = tf.
Proof. intros [H1 H2]. unfold wrap64, TRAP_FRAME_SIZE in *. rewrite Z.mod_small by lia. lia. Qed.

(** At [save_trapframe]: the old [ra] and [sp] are in the frame, [ra] is used. *)
Record prefixed st m0 (tf task : Z) st1 : Prop := {
  pf_saving : ∃ ws, saving m0 tf ws st1 ∧ ws !!! 0%nat = get R.ra st ∧ ws !!! 1%nat = get R.sp st;
  pf_regs : ∃ v, regs st1 = <[1%nat := v]> (<[2%nat := tf]> (<[4%nat := task]> (regs st)));
  pf_csrs : csrs st1 = set_csr Sscratch (get R.tp st) (csrs st);
}.

Lemma prefixed_entered st m0 tf task st1 : length (regs st) = 32%nat → get R.zero st = 0 → prefixed st m0 tf task st1 →
  ∃ st', run None save_code st1 = Called trap_resume st' ∧ entered st task tf st' ∧ stored m0 (h_mem st') tf (frame_of st).
Proof.
  intros Hr H0 [(ws & Hs & Hra & Hsp) [v Hregs] Hcsrs].
  destruct (save_ok m0 tf ws st1) as (st' & E & Hst & E1 & E2 & E3 & E4); [by rewrite Hregs, !length_insert| |done|].
  { unfold get. by rewrite Hregs, !list_lookup_total_insert_ne. }
  assert (Hfr : [ws !!! 0%nat; ws !!! 1%nat; get R.gp st1; sscratch (csrs st1)] ++ drop 5 (regs st1) ++
    [sepc (csrs st1); scause (csrs st1); sstatus (csrs st1)] = frame_of st).
  { rewrite Hra, Hsp, Hcsrs. unfold frame_of, get. rewrite Hregs. clear -Hr. destruct st as [rs cs m]. cbn [regs] in *.
    rewrite (list_32 rs Hr). done. }
  rewrite Hfr in Hst. exists st'. split; [done|]. split; [|done].
  assert (Hl : length (frame_of st) = 34%nat) by (unfold frame_of; rewrite length_app, length_drop, Hr; done).
  split; [rewrite <-Hl; apply Hst|intros i Hi; by apply Hst, (sv_ok _ _ _ _ Hs)|done|done| |].
  - rewrite E3. unfold get. rewrite Hregs, !list_lookup_total_insert_ne, list_lookup_total_insert_eq by (done || (unfold R.tp; lia)). done.
  - by rewrite E4, Hcsrs.
Qed.

Lemma user_prefix st task tf : in_user st task tf →
  ∃ st1, run None trap_entry st = run None save_code st1 ∧
    prefixed st (set_word task (get R.sp st) (h_mem st)) tf task st1.
Proof.
  intros [Hr H0 Hs Hn H1 H2 H3 H4 H5 H6]. rewrite trap_entry_blocks, run_csrrw, run_bnez.
  set (st1 := set R.tp _ _).
  assert (Htp : get R.tp st1 = task).
  { unfold st1. rewrite get_set_eq; [exact Hs|done|]. cbn [regs set_csrs]. unfold R.tp. lia. }
  rewrite Htp. destruct (Z.eqb_spec task 0) as [|_]; [done|].
  set (save := run None save_code). match goal with |- context [run (Some save_user_stack) ?code st1] =>
    change (run (Some save_user_stack) code st1) with (run None (drop 3 code) st1) end. cbn [drop].
  rewrite (run_sd st1 R.sp 0 R.tp task) by (done || lia). set (st2 := set_h_mem _ _).
  assert (Hm2 : h_mem st2 = set_word task (get R.sp st) (h_mem st)).
  { change (set_word task (get R.sp st1) (h_mem st) = set_word task (get R.sp st) (h_mem st)). unfold st1. by rewrite get_set_ne. }
  assert (Hok : ∀ p, word_ok (h_mem st) p → word_ok (h_mem st2) p) by (intros p Hp; rewrite Hm2; by apply word_ok_set_word).
  rewrite (run_ld st2 R.sp 8 R.tp (task + 8)) by (first [by rewrite <-Htp|by apply Hok]). rewrite run_addi.
  set (w := word_at (task + 8) (h_mem st2)). set (v := wrap64 _). set (st3 := set R.sp v _).
  assert (Hlen : length (regs st2) = 32%nat) by (change (length (<[4%nat := sscratch (csrs st)]> (regs st)) = 32%nat); by rewrite length_insert).
  assert (Hv : v = tf).
  { unfold v. rewrite get_set_eq by (done || (unfold R.sp; lia)). unfold w.
    rewrite Hm2, word_at_set_word by (apply H1 || apply H2). rewrite decide_False by lia. rewrite H3. by apply wrap_tf. }
  assert (Hregs : regs st3 = <[2%nat := tf]> (<[4%nat := task]> (regs st))).
  { change (<[2%nat := v]> (<[2%nat := w]> (<[4%nat := sscratch (csrs st)]> (regs st))) = <[2%nat := tf]> (<[4%nat := task]> (regs st))).
    by rewrite list_insert_insert_eq, Hv, Hs. }
  assert (Hsp : get R.sp st3 = tf) by (unfold get; rewrite Hregs; apply list_lookup_total_insert_eq; rewrite length_insert; unfold R.sp; lia).
  assert (Hsv : saving (h_mem st2) tf (words_at tf 34 (h_mem st2)) st3).
  { split; [done|intros i Hi; by apply Hok, H5|apply words_at_length|apply stored_refl]. }
  store_block Hsv m3 Hs3. set (st4 := set_h_mem m3 st3) in *.
  assert (Htp4 : get R.tp st4 = task) by (change (get R.tp st4) with (get R.tp st3); unfold st3; by rewrite !get_set_ne).
  assert (Husp : word_at task (h_mem st4) = get R.sp st).
  { rewrite (sd_rest _ _ _ _ (sv_stored _ _ _ _ Hs3)); [|apply H1|intros i Hi; apply H6; by rewrite (sv_length _ _ _ _ Hs3) in Hi].
    rewrite Hm2, word_at_set_word by apply H1. by rewrite decide_True. }
  rewrite (run_ld st4 R.ra 0 R.tp task) by (first [lia|by apply (sd_ok _ _ _ _ (sv_stored _ _ _ _ Hs3)), Hok]). rewrite Husp.
  set (st5 := set R.ra _ _). eassert (Hs5 : saving _ tf _ st5) by (unfold st5; saving_tac).
  store_block Hs5 m6 Hs6. set (st6 := set_h_mem m6 st5) in *.
  match goal with |- context [run None (J save_trapframe :: ?code) st6] =>
    change (run None (J save_trapframe :: code) st6) with (save st6) end. unfold save. clear save.
  exists st6. split; [done|]. rewrite Hm2 in Hs6. split; [eexists; split; [exact Hs6|]| |].
  - cbn [foldl fst snd].
    split; [rewrite list_lookup_total_insert_ne by done|]; rewrite list_lookup_total_insert_eq by (rewrite ?length_insert, words_at_length; lia).
    + unfold get. by rewrite Hregs, !list_lookup_total_insert_ne.
    + unfold st5. apply get_set_eq; [done|]. change (1 < length (regs st3))%nat. rewrite Hregs, !length_insert. lia.
  - exists (get R.sp st). change (regs st6) with (<[1%nat := get R.sp st]> (regs st3)). by rewrite Hregs.
  - done.
Qed.

(** A hart in the kernel, with room on its stack for a frame. *)
Record in_kernel st (tf : Z) : Prop := {
  ik_regs : length (regs st) = 32%nat;
  ik_zero : get R.zero st = 0;
  ik_scratch : sscratch (csrs st) = 0;
  ik_stack : get R.sp st = tf + TRAP_FRAME_SIZE;
  ik_top : 0 ≤ tf ∧ tf + TRAP_FRAME_SIZE < 2 ^ 64;
  ik_frame : words_ok (h_mem st) tf 34;
}.

Lemma kernel_prefix st tf : in_kernel st tf →
  ∃ st1, run None trap_entry st = run None save_code st1 ∧ prefixed st (h_mem st) tf (get R.tp st) st1.
Proof.
  intros [Hr H0 Hs H1 H2 H3]. rewrite trap_entry_blocks, run_csrrw, run_bnez, get_set_eq by (done || (cbn; unfold R.tp; lia)).
  cbn [get_csr]. rewrite Hs, Z.eqb_refl, run_csrr. set (save := run None save_code). set (st1 := set R.tp _ _).
  match goal with |- context [run None (J save_kernel_stack :: ?code) st1] =>
    change (run None (J save_kernel_stack :: code) st1) with (run None (Addi R.sp R.sp (-272) :: stores R.sp [(1, 0)]%nat ++
      Addi R.ra R.sp 272 :: stores R.sp [(1, 1)]%nat ++ Label save_trapframe :: save_code) st1) end.
  assert (Hregs1 : regs st1 = <[4%nat := get R.tp st]> (regs st)) by (apply list_insert_insert_eq).
  rewrite run_addi. set (v := wrap64 _). set (st2 := set R.sp v st1).
  assert (Hv : v = tf).
  { unfold v. replace (get R.sp st1) with (tf + TRAP_FRAME_SIZE); [by apply wrap_tf|].
    rewrite <-H1. unfold get at 2. by rewrite Hregs1, list_lookup_total_insert_ne. }
  assert (Hregs : regs st2 = <[2%nat := tf]> (<[4%nat := get R.tp st]> (regs st))) by (rewrite <-Hv, <-Hregs1; done).
  assert (Hsp : get R.sp st2 = tf) by (unfold get; rewrite Hregs; apply list_lookup_total_insert_eq; rewrite length_insert; unfold R.sp; lia).
  assert (Hsv : saving (h_mem st) tf (words_at tf 34 (h_mem st)) st2) by (split; [done|done|apply words_at_length|apply stored_refl]).
  store_block Hsv m3 Hs3. set (st3 := set_h_mem m3 st2) in *. rewrite run_addi. change (get R.sp st3) with (get R.sp st2). rewrite Hsp.
  set (st4 := set R.ra _ _). eassert (Hs4 : saving _ tf _ st4) by (unfold st4; saving_tac).
  store_block Hs4 m5 Hs5. exists (set_h_mem m5 st4). split; [done|]. split; [eexists; split; [exact Hs5|]| |done].
  - cbn [foldl fst snd].
    split; [rewrite list_lookup_total_insert_ne by done|]; rewrite list_lookup_total_insert_eq by (rewrite ?length_insert, words_at_length; lia).
    + unfold get. by rewrite Hregs, !list_lookup_total_insert_ne.
    + unfold st4. rewrite get_set_eq; [|done|change (1 < length (regs st2))%nat; rewrite Hregs, !length_insert; lia].
      rewrite H1. unfold wrap64, TRAP_FRAME_SIZE in *. by apply Z.mod_small; lia.
  - exists (wrap64 (tf + 272)). change (regs (set_h_mem m5 st4)) with (<[1%nat := wrap64 (tf + 272)]> (regs st2)). by rewrite Hregs.
Qed.

(** A return of [trap_handler]: it keeps [sp] and [tp], and leaves [ws] in the
    frame. *)
Record handled st1 ws st2 : Prop := {
  ha_regs : length (regs st2) = 32%nat;
  ha_zero : get R.zero st2 = 0;
  ha_tp : get R.tp st2 = get R.tp st1;
  ha_sp : get R.sp st2 = get R.sp st1;
  ha_frame : framed ws st2;
}.

(** The hart has the registers of the frame [ws]. *)
Record restored ws (task : Z) st : Prop := {
  rs_regs : regs st = 0 :: take 31 ws;
  rs_sepc : sepc (csrs st) = ws !!! 31%nat;
  rs_sstatus : sstatus (csrs st) = ws !!! 33%nat;
  rs_sscratch : sscratch (csrs st) = task;
}.

Lemma take_frame st : length (regs st) = 32%nat → get R.zero st = 0 → 0 :: take 31 (frame_of st) = regs st.
Proof.
  intros Hr H0. unfold frame_of. rewrite take_app_le, take_ge by (rewrite length_drop; lia). unfold get, R.zero in H0.
  destruct (regs st) as [|x rs]; [done|]. cbn in H0 |- *. by rewrite H0.
Qed.

Lemma user_entry_ok st task tf : in_user st task tf →
  ∃ st1, run None trap_entry st = Called trap_resume st1 ∧ entered st task tf st1 ∧
    ∀ q, q mod 8 = 0 → q ≠ task → (∀ i, (i < 34)%nat → q ≠ tf + 8 * Z.of_nat i) → word_at q (h_mem st1) = word_at q (h_mem st).
Proof.
  intros H. destruct (user_prefix st task tf H) as (st0 & E0 & Hp). destruct H as [Hr H0 Hs Hn H1 H2 H3 H4 H5 H6].
  destruct (prefixed_entered st _ tf task st0 Hr H0 Hp) as (st1 & E1 & Hen & Hst).
  assert (Hl : length (frame_of st) = 34%nat) by (unfold frame_of; rewrite length_app, length_drop, Hr; done).
  exists st1. split; [by rewrite E0|]. split; [done|].
  intros q Hq Hne Hout. rewrite (sd_rest _ _ _ _ Hst q Hq) by (by rewrite Hl). rewrite word_at_set_word by (done || apply H1). by rewrite decide_False.
Qed.

Lemma user_resume_ok st task tf st1 st2 ws : entered st task tf st1 → handled st1 ws st2 → Z.land (ws !!! 33%nat) SPP_MASK = 0 →
  ∃ st3, run None trap_resume st2 = Trap_returned st3 ∧ restored ws task st3 ∧ h_mem st3 = h_mem st2.
Proof.
  intros Hen [G1 G2 G3 G4 G5] Hspp. destruct (trap_resume_ok st2 ws G1 G2 G5) as (st3 & E & [K1 K2 K3 K4 K5]).
  exists st3. rewrite Hspp in K4, K5. cbn [Z.eqb] in K4, K5. split; [done|]. split; [split; [done..|]|done].
  by rewrite K5, G3, (en_tp _ _ _ _ Hen).
Qed.

(** C13: a trap leaves user code nothing to notice.  [trap_entry] saves every
    register, with [sepc], [scause] and [sstatus], in a frame at the top of the
    task's kernel stack, calls [trap_handler] with it, and changes no other
    memory than [user_sp]; when the handler comes back, the hart has the
    registers that the frame then holds, and [sscratch] is the task again for
    the next trap.  With an unchanged frame it has the registers that it had. *)
Theorem user_traps_are_transparent st task tf : in_user st task tf →
  ∃ st1, run None trap_entry st = Called trap_resume st1 ∧ entered st task tf st1 ∧
    (∀ q, q mod 8 = 0 → q ≠ task → (∀ i, (i < 34)%nat → q ≠ tf + 8 * Z.of_nat i) → word_at q (h_mem st1) = word_at q (h_mem st)) ∧
    ∀ st2 ws, handled st1 ws st2 → Z.land (ws !!! 33%nat) SPP_MASK = 0 →
      ∃ st3, run None trap_resume st2 = Trap_returned st3 ∧ restored ws task st3 ∧ h_mem st3 = h_mem st2 ∧
        (ws = frame_of st → regs st3 = regs st ∧ sepc (csrs st3) = sepc (csrs st)).
Proof.
  intros H. pose proof (iu_regs _ _ _ H) as Hr. pose proof (iu_zero _ _ _ H) as H0.
  destruct (user_entry_ok st task tf H) as (st1 & E1 & Hen & Hmem). exists st1. split; [done|]. split; [done|]. split; [done|].
  intros st2 ws Hh Hspp. destruct (user_resume_ok _ _ _ _ _ _ Hen Hh Hspp) as (st3 & E3 & Hre & Hm3).
  exists st3. split; [done|]. split; [done|]. split; [done|]. intros ->. rewrite (rs_regs _ _ _ Hre), (rs_sepc _ _ _ Hre), take_frame by done.
  split; [done|]. unfold frame_of. rewrite lookup_total_app_r, length_drop, Hr; [done|rewrite length_drop; lia].
Qed.

(** The same for a trap in the kernel, which finds [sscratch] zero and keeps
    [tp]. *)
Theorem kernel_traps_are_transparent st tf : in_kernel st tf →
  ∃ st1, run None trap_entry st = Called trap_resume st1 ∧ entered st (get R.tp st) tf st1 ∧ stored (h_mem st) (h_mem st1) tf (frame_of st) ∧
    ∀ st2, handled st1 (frame_of st) st2 → Z.land (sstatus (csrs st)) SPP_MASK ≠ 0 →
      ∃ st3, run None trap_resume st2 = Trap_returned st3 ∧ regs st3 = regs st ∧ sepc (csrs st3) = sepc (csrs st) ∧
        sscratch (csrs st3) = 0 ∧ h_mem st3 = h_mem st2.
Proof.
  intros H. destruct (kernel_prefix st tf H) as (st0 & E0 & Hp). destruct H as [Hr H0 Hs H1 H2 H3].
  destruct (prefixed_entered st _ tf _ st0 Hr H0 Hp) as (st1 & E1 & Hen & Hst). exists st1. split; [by rewrite E0|]. split; [done|]. split; [done|].
  intros st2 [G1 G2 G3 G4 G5] Hspp. destruct (trap_resume_ok st2 _ G1 G2 G5) as (st3 & E & [K1 K2 K3 K4 K5]). exists st3. split; [done|].
  assert (Hat : ∀ k, frame_of st !!! (31 + k)%nat = [sepc (csrs st); scause (csrs st); sstatus (csrs st)] !!! k).
  { intros k. unfold frame_of. rewrite lookup_total_app_r; rewrite length_drop, Hr; [f_equal; lia|lia]. }
  rewrite (Hat 2%nat : frame_of st !!! 33%nat = sstatus (csrs st)) in K4, K5. rewrite (Hat 0%nat : frame_of st !!! 31%nat = sepc (csrs st)) in K2. rewrite (proj2 (Z.eqb_neq _ _) Hspp) in K4, K5.
  split_and!; [|done..]. rewrite K4, G3, (en_tp _ _ _ _ Hen). etransitivity; [|exact (take_frame st Hr H0)]. f_equal. apply list_insert_id.
  unfold frame_of. rewrite take_app_le by (rewrite length_drop; lia). rewrite lookup_take_lt, lookup_drop by lia.
  apply list_lookup_lookup_total_lt. unfold R.tp. lia.
Qed.

(** ** Switches *)

(** The registers that [swtch] keeps, in the order of [Context]. *)
Definition context_of st : list Z :=
  [get R.ra st; get R.sp st; get R.s0 st; get R.s1 st; get R.s2 st; get R.s3 st; get R.s4 st; get R.s5 st; get R.s6 st; get R.s7 st;
   get R.s8 st; get R.s9 st; get R.s10 st; get R.s11 st].

(** [swtch(from, to, satp)] is called. *)
Record switching st (from to : Z) : Prop := {
  sw_regs : length (regs st) = 32%nat;
  sw_from : get R.a0 st = from;
  sw_to : get R.a1 st = to;
  sw_range : 0 ≤ from ∧ from + CONTEXT_OFFSET < 2 ^ 64 ∧ 0 ≤ to ∧ to + CONTEXT_OFFSET < 2 ^ 64;
  sw_from_ok : words_ok (h_mem st) (from + CONTEXT_OFFSET) 14;
  sw_to_ok : words_ok (h_mem st) (to + CONTEXT_OFFSET) 14;
  sw_apart i j : (i < 14)%nat → (j < 14)%nat → from + CONTEXT_OFFSET + 8 * Z.of_nat i ≠ to + CONTEXT_OFFSET + 8 * Z.of_nat j;
}.

Definition context_regs : list (nat * nat) :=
  [(1, 0); (2, 1); (8, 2); (9, 3); (18, 4); (19, 5); (20, 6); (21, 7); (22, 8); (23, 9); (24, 10); (25, 11); (26, 12); (27, 13)]%nat.

Lemma swtch_blocks : swtch = Csrw Satp R.a2 :: Sfence_vma :: Addi R.a0 R.a0 CONTEXT_OFFSET :: stores R.a0 context_regs ++
  Mv R.tp R.a1 :: Addi R.a1 R.a1 CONTEXT_OFFSET :: loads R.a1 context_regs ++ [Ret].
Proof. reflexivity. Qed.

(** What a switch leaves: the registers of [from] are in its context, and those
    of [to] come from there. *)
Record switched_to st (from to : Z) st' : Prop := {
  st_saved : stored (h_mem st) (h_mem st') (from + CONTEXT_OFFSET) (context_of st);
  st_context : context_of st' = words_at (to + CONTEXT_OFFSET) 14 (h_mem st);
  st_tp : get R.tp st' = to;
  st_csrs : csrs st' = set_csr Satp (get R.a2 st) (csrs st);
  st_regs : length (regs st') = 32%nat;
  st_zero : get R.zero st' = get R.zero st;
}.

Lemma swtch_ok st from to : switching st from to →
  ∃ st', run None swtch st = Returned (word_at (to + CONTEXT_OFFSET) (h_mem st)) st' ∧ switched_to st from to st'.
Proof.
  intros [Hr H1 H2 H3 H4 H5 H6]. rewrite swtch_blocks, run_csrw.
  set (st1 := set_csrs _ _). change (run None (Sfence_vma :: ?code) st1) with (run None code st1).
  assert (Hwrap : ∀ x, 0 ≤ x → x + CONTEXT_OFFSET < 2 ^ 64 → wrap64 (x + CONTEXT_OFFSET) = x + CONTEXT_OFFSET).
  { intros x Hx Hx'. apply Z.mod_small. unfold CONTEXT_OFFSET in *. lia. }
  rewrite run_addi. change (get R.a0 st1) with (get R.a0 st). rewrite H1, Hwrap by lia. set (st2 := set R.a0 _ _).
  assert (Ha0 : get R.a0 st2 = from + CONTEXT_OFFSET) by (apply get_set_eq; [done|cbn; unfold R.a0; lia]).
  destruct (run_stores R.a0 context_regs st2 (h_mem st) (words_at (from + CONTEXT_OFFSET) 14 (h_mem st))
    (Mv R.tp R.a1 :: Addi R.a1 R.a1 CONTEXT_OFFSET :: loads R.a1 context_regs ++ [Ret])) as (m3 & -> & Hst).
  { by rewrite words_at_length, Ha0. } { rewrite words_at_length. unfold context_regs. repeat (constructor; [cbn; lia|]). constructor. }
  { rewrite Ha0. apply stored_refl. }
  rewrite Ha0 in Hst. rewrite run_mv, run_addi. set (st3 := set R.a1 _ _).
  assert (Ha1 : get R.a1 st3 = to + CONTEXT_OFFSET).
  { unfold st3. rewrite get_set_eq; [|done|cbn; rewrite !length_insert; unfold R.a1; lia]. rewrite get_set_ne by done.
    change (get R.a1 (set_h_mem m3 st2)) with (get R.a1 st2). unfold st2. rewrite get_set_ne by done.
    change (get R.a1 st1) with (get R.a1 st). rewrite H2. apply Hwrap; lia. }
  set (old := words_at (from + CONTEXT_OFFSET) 14 (h_mem st)) in *. assert (Hold : length old = 14%nat) by apply words_at_length.
  set (ws := words_at (to + CONTEXT_OFFSET) 14 (h_mem st)). assert (Hws : length ws = 14%nat) by apply words_at_length.
  assert (Hctx : foldl (λ ws x, <[x.2 := get x.1 st2]> ws) old context_regs = context_of st).
  { unfold st2, st1. clearbody old. clear -Hr Hold. destruct st as [rs cs m]. cbn [regs] in Hr. rewrite (list_32 rs Hr), (list_14 old Hold). done. }
  rewrite Hctx in Hst.
  assert (Hm3 : words_at (to + CONTEXT_OFFSET) 14 m3 = ws).
  { apply words_at_ext. intros i Hi. apply (sd_rest _ _ _ _ Hst).
    - destruct (H5 (Z.to_nat i) ltac:(lia)) as [Ha _]. by rewrite Z2Nat.id in Ha by lia.
    - intros j Hj E. apply (H6 j (Z.to_nat i) Hj ltac:(lia)). rewrite Z2Nat.id by lia. by symmetry. }
  rewrite (run_loads R.a1 ws context_regs).
  - change (run None [Ret] ?s) with (Returned (get R.ra s) s). set (st4 := set_regs _ _).
    assert (Hregs : regs st4 = foldl (λ rs x, <[x.1 := ws !!! x.2]> rs)
      (<[11%nat := wrap64 (to + CONTEXT_OFFSET)]> (<[4%nat := to]> (<[10%nat := from + CONTEXT_OFFSET]> (regs st)))) context_regs).
    { rewrite <-H2. unfold st4, st3, st2, st1. clear -Hr. destruct st as [rs cs m]. cbn [regs] in Hr. rewrite (list_32 rs Hr). done. }
    exists st4. replace (get R.ra st4) with (word_at (to + CONTEXT_OFFSET) (h_mem st)).
    + split; [done|]. split; [exact Hst| | |done| |].
      all: unfold context_of, get; rewrite Hregs; fold ws; clearbody ws; clear -Hr Hws; destruct st as [rs cs m]; cbn [regs] in *;
        rewrite (list_32 rs Hr); try rewrite (list_14 ws Hws); done.
    + transitivity (ws !!! 0%nat); [rewrite <-(Z.add_0_r (to + CONTEXT_OFFSET)); apply (word_of_words _ 14 _ ws 0); [done|lia]|]. unfold get. rewrite Hregs. clearbody ws. clear -Hr.
      destruct st as [rs cs m]. cbn [regs] in *. rewrite (list_32 rs Hr). done.
  - rewrite Ha1, Hws. intros i Hi. by apply (sd_ok _ _ _ _ Hst), H5.
  - by rewrite Ha1, Hws.
  - rewrite Hws. unfold context_regs. forall_tac.
Qed.

(** C14: for the task that calls it, [swtch] is a call that returns: when some
    task later switches back, control is behind the call with the stack pointer
    and the registers [s0] to [s11] as they were, provided that the context in
    the [Task] was left alone. *)
Theorem switches_come_back st from to : switching st from to →
  ∃ st1, run None swtch st = Returned (word_at (to + CONTEXT_OFFSET) (h_mem st)) st1 ∧ switched_to st from to st1 ∧
    ∀ st2 other, switching st2 other from →
      words_at (from + CONTEXT_OFFSET) 14 (h_mem st2) = words_at (from + CONTEXT_OFFSET) 14 (h_mem st1) →
      ∃ st3, run None swtch st2 = Returned (get R.ra st) st3 ∧ context_of st3 = context_of st ∧ get R.tp st3 = from ∧
        satp (csrs st3) = get R.a2 st2.
Proof.
  intros Hsw. destruct (swtch_ok st from to Hsw) as (st1 & E1 & Hto). exists st1. split; [done|]. split; [done|].
  intros st2 other Hback Hkept. destruct (swtch_ok st2 other from Hback) as (st3 & E3 & [_ B2 B3 B4 _ _]).
  assert (Hctx : words_at (from + CONTEXT_OFFSET) 14 (h_mem st2) = context_of st) by (rewrite Hkept; apply (st_saved _ _ _ _ Hto)).
  exists st3. rewrite E3, B2, B3, B4, Hctx. split_and!; [|done..]. f_equal.
  rewrite <-(Z.add_0_r (from + CONTEXT_OFFSET)). exact (word_of_words _ 14 _ _ 0 Hctx ltac:(lia)).
Qed.

(** ** The first run of a task *)

Definition context_words (c : Context) : list Z := c_ra c :: c_sp c :: c_s c.

(** The [Task] at [p], with its trap frame. *)
Record task_object (p : Z) (th : Thread) m : Prop := {
  to_context : words_at (p + CONTEXT_OFFSET) 14 m = context_words (context th);
  to_frame : words_ok m (trap_frame th) 34;
}.

(** A switch to a task that has not run yet: it starts in [trap_resume] and goes
    to user mode with the registers of its frame. *)
Lemma first_run trap_resume_ptr st from to th ws : switching st from to → get R.zero st = 0 → task_object to th (h_mem st) →
  context th = context_initialize trap_resume_ptr (trap_frame th) → words_at (trap_frame th) 34 (h_mem st) = ws →
  Z.land (ws !!! 33%nat) SPP_MASK = 0 →
  (∀ i j, (i < 34)%nat → (j < 14)%nat → trap_frame th + 8 * Z.of_nat i ≠ from + CONTEXT_OFFSET + 8 * Z.of_nat j) →
  ∃ st1 st2, run None swtch st = Returned trap_resume_ptr st1 ∧ run None trap_resume st1 = Trap_returned st2 ∧ restored ws to st2.
Proof.
  intros Hsw H0 [Hc Hf] Hth Hws Hspp Hap. destruct (swtch_ok st from to Hsw) as (st1 & E1 & [B1 B2 B3 B4 B5 B6]).
  rewrite Hc, Hth in B2. unfold context_words, context_initialize in B2. cbn [c_ra c_sp c_s] in B2.
  assert (Hra : word_at (to + CONTEXT_OFFSET) (h_mem st) = trap_resume_ptr).
  { rewrite <-(Z.add_0_r (to + CONTEXT_OFFSET)), (word_of_words _ 14 _ _ 0 Hc ltac:(lia) : word_at (to + CONTEXT_OFFSET + 0) _ = _). by rewrite Hth. }
  assert (Hsp : get R.sp st1 = trap_frame th) by (unfold context_of in B2; congruence).
  destruct (trap_resume_ok st1 ws) as (st2 & E2 & [K1 K2 K3 K4 K5]); [done|congruence| |].
  { split; rewrite Hsp; [intros i Hi; by apply (sd_ok _ _ _ _ B1), Hf|]. rewrite <-Hws. apply words_at_ext. intros i Hi.
    apply (sd_rest _ _ _ _ B1).
    - destruct (Hf (Z.to_nat i) ltac:(lia)) as [Ha _]. by rewrite Z2Nat.id in Ha by lia.
    - intros j Hj. specialize (Hap (Z.to_nat i) j ltac:(lia) Hj). by rewrite Z2Nat.id in Hap by lia. }
  rewrite Hspp in K4, K5. cbn [Z.eqb] in K4, K5. exists st1, st2. rewrite E1, Hra. split; [done|]. split; [done|]. split; [done..|]. by rewrite K5.
Qed.

(** ** Tests *)

Definition word_test m (p : Z) : bool :=
  (p mod 8 =? 0) && (KERNEL_DIRECT_MAPPING_BASE <=? p) && (p <? 2 ^ 64) && (length (frame m (kernel_page p)) =? 512)%nat.
Definition words_test m (p : Z) (n : nat) : bool := forallb (λ i, word_test m (p + 8 * Z.of_nat i)) (seq 0 n).

Lemma word_tested m p : word_test m p = true → word_ok m p.
Proof.
  unfold word_test. rewrite !andb_true_iff, Z.eqb_eq, Z.leb_le, Z.ltb_lt, Nat.eqb_eq. intros [[[? ?] ?] ?]. by repeat split.
Qed.
Lemma words_tested m p n : words_test m p n = true → words_ok m p n.
Proof. unfold words_test. rewrite forallb_forall. intros H i Hi. apply word_tested, H, in_seq. lia. Qed.

(** No word of one run is one of another. *)
Definition apart_test (p : Z) (n : nat) (q : Z) (k : nat) : bool := (p + 8 * Z.of_nat n <=? q) || (q + 8 * Z.of_nat k <=? p).
Lemma apart_tested p n q k : apart_test p n q k = true → ∀ i j, (i < n)%nat → (j < k)%nat → p + 8 * Z.of_nat i ≠ q + 8 * Z.of_nat j.
Proof. unfold apart_test. rewrite orb_true_iff, !Z.leb_le. intros H i j Hi Hj. lia. Qed.

Definition in_user_test st (task tf : Z) : bool :=
  (length (regs st) =? 32)%nat && (get R.zero st =? 0) && (sscratch (csrs st) =? task) && negb (task =? 0) && words_test (h_mem st) task 2 &&
  (word_at (task + 8) (h_mem st) =? tf + TRAP_FRAME_SIZE) && (0 <=? tf) && (tf + TRAP_FRAME_SIZE <? 2 ^ 64) &&
  words_test (h_mem st) tf 34 && apart_test task 1 tf 34.
Lemma in_user_tested st task tf : in_user_test st task tf = true → in_user st task tf.
Proof.
  unfold in_user_test. rewrite !andb_true_iff, negb_true_iff, Nat.eqb_eq, !Z.eqb_eq, Z.eqb_neq, Z.leb_le, Z.ltb_lt.
  intros [[[[[[[[[H1 H2] H3] H4] H5%words_tested] H6] H7] H8] H9%words_tested] H10]. pose proof (apart_tested _ _ _ _ H10) as Hap. split; try done.
  - pose proof (H5 0%nat ltac:(lia)) as H. by rewrite Z.add_0_r in H.
  - exact (H5 1%nat ltac:(lia)).
  - intros i Hi. specialize (Hap 0%nat i ltac:(lia) Hi). by rewrite Z.add_0_r in Hap.
Qed.

Definition switching_test st (from to : Z) : bool :=
  (length (regs st) =? 32)%nat && (get R.a0 st =? from) && (get R.a1 st =? to) &&
  (0 <=? from) && (from + CONTEXT_OFFSET <? 2 ^ 64) && (0 <=? to) && (to + CONTEXT_OFFSET <? 2 ^ 64) &&
  words_test (h_mem st) (from + CONTEXT_OFFSET) 14 && words_test (h_mem st) (to + CONTEXT_OFFSET) 14 &&
  apart_test (from + CONTEXT_OFFSET) 14 (to + CONTEXT_OFFSET) 14.
Lemma switching_tested st from to : switching_test st from to = true → switching st from to.
Proof.
  unfold switching_test. rewrite !andb_true_iff, Nat.eqb_eq, !Z.eqb_eq, !Z.leb_le, !Z.ltb_lt.
  intros [[[[[[[[[H1 H2] H3] H4] H5] H6] H7] H8%words_tested] H9%words_tested] H10]. split; try done. exact (apart_tested _ _ _ _ H10).
Qed.

(** ** Witnesses *)

(** A user task with its kernel stack in one page and its [Task] in another;
    register [i] is [i]. *)
Definition sample_tf : Z := KERNEL_DIRECT_MAPPING_BASE + 0x1000 + 4096 - TRAP_FRAME_SIZE.
Definition sample_task : Z := KERNEL_DIRECT_MAPPING_BASE + 0x2000.
Definition sample : Hart :=
  mkHart (seqZ 0 32) (mkCsrs 0x10f00 8 0 sample_task 0) {[0x2000 := <[1%nat := sample_tf + TRAP_FRAME_SIZE]> (replicate 512 0)]}.

Lemma user_traps_are_transparent_witness : ∃ st1 st3, run None trap_entry sample = Called trap_resume st1 ∧
  words_at sample_tf 34 (h_mem st1) = seqZ 1 31 ++ [0x10f00; 8; 0] ∧ run None trap_resume st1 = Trap_returned st3 ∧ regs st3 = seqZ 0 32.
Proof.
  destruct (user_traps_are_transparent sample sample_task sample_tf) as (st1 & E1 & Hen & _ & Hback); [apply in_user_tested; vm_compute; reflexivity|].
  assert (handled st1 (frame_of sample) st1) as Hh.
  { pose proof E1 as E. vm_compute in E. injection E as E. split; [rewrite <-E; reflexivity..|done|done|].
    split; [rewrite (en_sp _ _ _ _ Hen); apply Hen|rewrite (en_sp _ _ _ _ Hen); apply Hen]. }
  destruct (Hback st1 _ Hh) as (st3 & E3 & _ & _ & Hsame); [vm_compute; reflexivity|].
  exists st1, st3. split; [exact E1|]. split; [exact (en_frame _ _ _ _ Hen)|]. split; [exact E3|]. exact (proj1 (Hsame eq_refl)).
Defined.

(** Two tasks: [sample] calls [swtch] to go to the second and comes back. *)
Definition other_task : Z := KERNEL_DIRECT_MAPPING_BASE + 0x3000.
Definition sample_switch (from to : Z) (st : Hart) : Hart := set R.a0 from (set R.a1 to (set R.a2 0x8000000000080000 st)).

Lemma switches_come_back_witness : ∃ st1 st3, run None swtch (sample_switch sample_task other_task sample) = Returned 0 st1 ∧
  run None swtch (sample_switch other_task sample_task st1) = Returned 1 st3 ∧ get R.sp st3 = 2 ∧ get R.s11 st3 = 27.
Proof.
  destruct (switches_come_back (sample_switch sample_task other_task sample) sample_task other_task) as (st1 & E1 & _ & Hback);
    [apply switching_tested; vm_compute; reflexivity|].
  pose proof E1 as E. vm_compute in E. injection E as E.
  destruct (Hback (sample_switch other_task sample_task st1) other_task) as (st3 & E3 & Hc & _ & _);
    [apply switching_tested; rewrite <-E; vm_compute; reflexivity|done|].
  exists st1, st3. split; [exact E1|]. split; [exact E3|].
  assert (Hx : context_of st3 = [1; 2; 8; 9; 18; 19; 20; 21; 22; 23; 24; 25; 26; 27]) by (rewrite Hc; vm_compute; reflexivity).
  clear -Hx. unfold context_of in Hx. generalize dependent (get R.sp st3). generalize dependent (get R.s11 st3). intros x y Hx. split; congruence.
Defined.
