(* ===== verification/ArchHart.v ===== *)
(** * The hart behind the architecture

    The trait [Architecture] of [kernel/src/arch/mod.rs] as a class, its
    implementation for [Riscv] in [kernel/src/arch/riscv/mod.rs] as an instance
    over the registers of a hart, and the calls of the firmware in
    [riscv/src/sbi.rs], with the registers that a hart sets at its boot.  The
    associated types are the components that model them, and [boot_core] is with
    the boot. *)

From S2P Require Import Prelude Errors Kmalloc Vfs Addr Sv39 FrameAllocator PageMeta PageTable PageMap PageFork MemMgr MemFault UserMem UserView ForkView KernelMap TaskSpace Elf ElfLoad InitStack InOrder Registers FileTable TaskPool Sched TaskNew Asm AsmTrap.

(** ** The firmware *)

(** The registers of a call: [sbi_call0] to [sbi_call3] by their arguments. *)
Abbreviation SbiCall := (list (nat * Z)).
Definition sbi_call (eid fid : Z) (args : list Z) : SbiCall := zip [R.a0; R.a1; R.a2] args ++ [(R.a6, fid); (R.a7, eid)].

Definition sbi_hart_start (hartid start_addr opaque : Z) : SbiCall := sbi_call 0x48534d 0 [hartid; start_addr; opaque].
Definition sbi_console_putchar (c : Z) : SbiCall := sbi_call 1 0 [c; 0; 0].
Definition sbi_set_timer (time_val : Z) : SbiCall := sbi_call 0 0 [time_val].
Definition sbi_shutdown : SbiCall := sbi_call 8 0 [].

(** ** The trait *)

(** [switch_to] gives the address where the hart goes on. *)
Class Architecture (St : Type) := {
  bump_sp : Z → M St Error unit;
  load_this_cpu_ctx : M St Error Z;
  read_current_time : M St Error Z;
  init_trap_handler : M St Error unit;
  arch_enable_interrupts : M St Error unit;
  init_uart : Z → M St Error unit;
  switch_to : Z → Z → Z → M St Error Z;
  set_per_cpu_ctx_ptr : Z → M St Error unit;
  arch_trap_resume_ptr : Z;
  setup_unpriviledged_mode : M St Error unit;
  set_kernel_sp : option Z → M St Error unit;
  set_timer : Z → M St Error unit;
  flush_tlb : M St Error unit;
  halt : M St Error unit;
}.

(** ** [Riscv] *)

(** A hart with what the assembly of the traps does not use: the control
    registers [stvec], [sie] and [time], the registers of the devices, and the
    calls that the firmware got. *)
Record Hw := mkHw { hart : Hart; stvec : Z; sie : Z; time : Z; mmio : gmap Z Z; calls : list SbiCall }.
Definition set_hart (h : Hart) (s : Hw) : Hw := mkHw h (stvec s) (sie s) (time s) (mmio s) (calls s).
Definition set_stvec (v : Z) (s : Hw) : Hw := mkHw (hart s) v (sie s) (time s) (mmio s) (calls s).
Definition set_sie (v : Z) (s : Hw) : Hw := mkHw (hart s) (stvec s) v (time s) (mmio s) (calls s).
Definition set_mmio (m : gmap Z Z) (s : Hw) : Hw := mkHw (hart s) (stvec s) (sie s) (time s) m (calls s).
Definition add_call (c : SbiCall) (s : Hw) : Hw := mkHw (hart s) (stvec s) (sie s) (time s) (mmio s) (calls s ++ [c]).

Definition on_csr (c : csr) (f : Z → Z) (s : Hw) : Hw :=
  set_hart (set_csrs (set_csr c (f (get_csr c (csrs (hart s)))) (csrs (hart s))) (hart s)) s.

Section riscv.
(** The addresses of [trap_entry] and [trap_resume]. *)
Context (trap_entry_ptr trap_resume_ptr : Z).

#[export] Instance Riscv_arch : Architecture Hw := {|
  bump_sp sp := modify (λ s, set_hart (set R.sp (wrap64 (get R.sp (hart s) + sp)) (hart s)) s);
  load_this_cpu_ctx := gets (λ s, get R.tp (hart s));
  read_current_time := gets time;
  init_trap_handler := modify (set_stvec trap_entry_ptr);
  arch_enable_interrupts :=
    modify (on_csr Sstatus enable_supervisor_interrupts) ;;;
    modify (set_sie interrupts_sie);
  init_uart core_id := modify (λ s, set_mmio (plic_init_uart core_id (mmio s)) s);
  switch_to from to root_pt := λ s,
    match run None swtch (set R.a2 (pa_to_satp root_pt) (set R.a1 to (set R.a0 from (hart s)))) with
    | Returned target h => (Ok target, set_hart h s)
    | _ => (Panic, s)
    end;
  set_per_cpu_ctx_ptr ptr := modify (λ s, set_hart (set R.tp ptr (hart s)) s);
  arch_trap_resume_ptr := trap_resume_ptr;
  setup_unpriviledged_mode := modify (on_csr Sstatus unpriviledged_sstatus);
  set_kernel_sp sp := modify (on_csr Sscratch (λ _, default 0 sp));
  set_timer time_val := modify (add_call (sbi_set_timer time_val));
  flush_tlb := ret tt;
  halt := modify (add_call sbi_shutdown) ;;; diverge;
|}.
End riscv.

(** [uart::enable_interrupts] on the registers of the devices. *)
Definition UART_BASE : Z := 0x10000000 + KERNEL_DIRECT_MAPPING_BASE.
Definition uart_enable (m : gmap Z Z) : gmap Z Z := <[UART_BASE + 1 := 1]> (<[UART_BASE + 3 := 3]> m).

(** ** A hart after its boot *)

Lemma bit_set_testbit k r i : 0 ≤ k → 0 ≤ i → Z.testbit (bit_set (Z.shiftl 1 k) r) i = Z.testbit r i || (i =? k).
Proof.
  intros Hk Hi. unfold bit_set. rewrite Z.lor_spec, Z.shiftl_spec by done. f_equal. change 1 with (2 ^ 0). rewrite Z.pow2_bits_eqb by done.
  destruct (Z.eqb_spec 0 (i - k)), (Z.eqb_spec i k); (done || lia).
Qed.

(** The bits that the boot sets in [sstatus]: SIE, SPIE and SUM are on, SPP is
    user mode. *)
Lemma boot_sstatus r i : 0 ≤ i < 64 → Z.testbit (enable_supervisor_interrupts (unpriviledged_sstatus r)) i =
  if decide (i = 8) then false else bool_decide (i = 1 ∨ i = 5 ∨ i = 18) || Z.testbit r i.
Proof.
  intros Hi. unfold enable_supervisor_interrupts, sstatus_set_sie, set_spie, unpriviledged_sstatus, enable_user_page_access, set_sum, enable_user_mode, set_spp.
  rewrite !bit_set_testbit by lia. unfold SPP_MASK. change (Z.shiftl 1 SPP_SHIFT) with (Z.shiftl (Z.ones 1) SPP_SHIFT).
  rewrite field_set_testbit by (done || lia). destruct (decide (i = 8)) as [->|]; [done|]. rewrite decide_False by lia.
  case_bool_decide as Hb; destruct (Z.eqb_spec i 18), (Z.eqb_spec i 5), (Z.eqb_spec i 1); rewrite ?orb_true_r, ?orb_false_r; try done; lia.
Qed.

(** The registers of the devices that a hart sets at its boot, and their values. *)
Definition boot_registers (core_id : Z) (m : gmap Z Z) : gmap Z Z :=
  list_to_map [(plic_priority UART0_IRQ, 1); (plic_senable core_id, Z.lor (default 0 (m !! plic_senable core_id)) 1024);
               (plic_spriority core_id, 0); (UART_BASE + 3, 3); (UART_BASE + 1, 1)] ∪ m.

Lemma boot_mmio core_id m : 0 ≤ core_id → uart_enable (plic_init_uart core_id m) = boot_registers core_id m.
Proof.
  intros Hc. unfold uart_enable, plic_init_uart, boot_registers. cbn [list_to_map foldr curry uncurry fst snd].
  unfold plic_priority, plic_senable, plic_spriority, UART_BASE, PLIC, KERNEL_DIRECT_MAPPING_BASE.
  apply map_eq. intros a. rewrite <-!insert_union_l, map_empty_union. rewrite !(lookup_insert_ne m) by lia. change (Z.shiftl 1 10) with 1024.
  rewrite !lookup_insert. repeat case_decide; (done || lia).
Qed.

(** ** Example *)

(** Hart 1 with interrupts off, its stack in a page, and another hart's enable bits. *)
Definition fresh_hw : Hw :=
  mkHw (mkHart (<[R.sp := KERNEL_DIRECT_MAPPING_BASE + 0x2000]> (replicate 32 0)) (mkCsrs 0 0 0x100 0 0) {[0x1000 := replicate 512 0]})
    0 0 1000 {[plic_senable 0 := 1024]} [].
