(* ===== verification/Log.v ===== *)
(** * Log messages

    [kernel/src/serial_log.rs] and [printk] of [kernel/src/debug.rs], down to the
    calls of the firmware.  A message is the list of the pieces that the
    formatting machinery of the standard library writes; that [printk] is alone
    on the console is the spin lock's matter. *)

From stdpp Require Import strings.
From S2P Require Import Prelude Errors Registers Asm ArchHart.

(** ** Model *)

(** [log::Level] and [log::LevelFilter] by their number; [Off] is 0. *)
Inductive Level := LError | LWarn | LInfo | LDebug | LTrace.
Definition level_number (l : Level) : Z := match l with LError => 1 | LWarn => 2 | LInfo => 3 | LDebug => 4 | LTrace => 5 end.

(** [parse_level_filter]. *)
Definition parse_level_filter (debug_level : option string) : option Level :=
  match debug_level with
  | Some "trace" => Some LTrace
  | Some "debug" => Some LDebug
  | Some "info" => Some LInfo
  | Some "warn" => Some LWarn
  | Some "error" => Some LError
  | _ => None
  end%string.

(** [SerialLogger::enabled]. *)
Definition log_enabled (max_level : option Level) (l : Level) : bool :=
  level_number l <=? match max_level with Some m => level_number m | None => 0 end.

(** [level_color], and the names of the levels. *)
Definition level_color (l : Level) : list Z :=
  match l with
  | LError => [27; 91; 51; 49; 109]
  | LWarn => [27; 91; 51; 51; 109]
  | LInfo => [27; 91; 51; 50; 109]
  | LDebug => [27; 91; 51; 52; 109]
  | LTrace => [27; 91; 57; 48; 109]
  end.
Definition level_name (l : Level) : list Z :=
  match l with
  | LError => [69; 82; 82; 79; 82]
  | LWarn => [87; 65; 82; 78]
  | LInfo => [73; 78; 70; 79]
  | LDebug => [68; 69; 66; 85; 71]
  | LTrace => [84; 82; 65; 67; 69]
  end.

(** [BufWriter]; [fmt::Error] is [None]. *)
Record BufWriter := mkBufWriter { bw_buf : list Z; bw_pos : nat }.
Definition write_str (bs : list Z) (w : BufWriter) : option BufWriter :=
  if (length (bw_buf w) <? bw_pos w + length bs)%nat then None
  else Some (mkBufWriter (take (bw_pos w) (bw_buf w) ++ bs ++ drop (bw_pos w + length bs) (bw_buf w)) (bw_pos w + length bs)).

(** [core::fmt::write]: the pieces, until one fails; the buffer is borrowed, so
    what was written stays. *)
Fixpoint fmt_write (pieces : list (list Z)) (w : BufWriter) : BufWriter :=
  match pieces with
  | [] => w
  | bs :: pieces' => match write_str bs w with Some w' => fmt_write pieces' w' | None => w end
  end.

(** The pieces of the format, around those of [record.args()]. *)
Definition RESET : list Z := [27; 91; 48; 109; 10].
Definition log_pieces (l : Level) (args : list (list Z)) : list (list Z) :=
  [level_color l; [91]; level_name l; [93; 32; 45; 32]] ++ args ++ [RESET].

(** [printk]. *)
Definition printk (bs : list Z) : M Hw Error unit :=
  let! saved := gets (λ s, sstatus (csrs (hart s))) in
  modify (on_csr Sstatus (λ _, disable_supervisor_interrupts saved)) ;;;
  for_each (λ b, modify (add_call (sbi_console_putchar b))) bs ;;;
  modify (on_csr Sstatus (λ _, saved)).

(** [SerialLogger::log]. *)
Definition log (max_level : option Level) (l : Level) (args : list (list Z)) : M Hw Error unit :=
  if log_enabled max_level l then printk (bw_buf (fmt_write (log_pieces l args) (mkBufWriter (replicate 512 0) 0))) else ret tt.

(** The panic handler: the pieces of the message, and the file and the digits of
    the line. *)
Definition kernel_panic {AR : Architecture Hw} (max_level : option Level) (message : list (list Z)) (loc : option (list Z * list Z)) : M Hw Error unit :=
  log max_level LError ([75; 69; 82; 78; 69; 76; 32; 80; 65; 78; 73; 67; 58; 32] :: message) ;;;
  match loc with
  | Some (file, line) => log max_level LError [[45; 62; 32; 70; 105; 108; 101; 58; 32]; file; [32; 97; 116; 32; 108; 105; 110; 101; 58; 32]; line]
  | None => ret tt
  end ;;;
  halt.

(** ** The buffer *)

(** What the buffer holds after the pieces [shown]: their bytes, and zeros. *)
Definition holds (size : nat) (shown : list (list Z)) (w : BufWriter) : Prop :=
  bw_pos w = length (concat shown) ∧ (bw_pos w ≤ size)%nat ∧ bw_buf w = concat shown ++ replicate (size - bw_pos w) 0.

Lemma write_str_holds size shown w bs : holds size shown w →
  match write_str bs w with
  | Some w' => holds size (shown ++ [bs]) w'
  | None => (size < length (concat (shown ++ [bs])))%nat
  end.
Proof.
  intros (Hp & Hle & Hb). unfold write_str, holds. assert (Hl : length (bw_buf w) = size) by (rewrite Hb, length_app, length_replicate; lia).
  assert (Hc : concat (shown ++ [bs]) = concat shown ++ bs) by (rewrite concat_app; cbn [concat]; by rewrite app_nil_r).
  rewrite Hl, Hc, length_app. destruct (Nat.ltb_spec size (bw_pos w + length bs)); [lia|]. cbn [bw_buf bw_pos]. split; [lia|]. split; [lia|].
  rewrite Hb, <-app_assoc. rewrite take_app_le, take_ge by lia. do 2 f_equal. rewrite drop_app_ge by lia.
  rewrite drop_replicate. f_equal. lia.
Qed.

Lemma fmt_write_holds size pieces : ∀ shown w, holds size shown w →
  ∃ more rest, pieces = more ++ rest ∧ holds size (shown ++ more) (fmt_write pieces w) ∧
    (∀ bs rest', rest = bs :: rest' → (size < length (concat (shown ++ more) ++ bs))%nat).
Proof.
  induction pieces as [|bs pieces IH]; intros shown w Hw; [exists [], []; rewrite (app_nil_r shown); split; [done|split; [exact Hw|by intros]]|].
  cbn [fmt_write].
  pose proof (write_str_holds size shown w bs Hw) as Hs. destruct (write_str bs w) as [w'|].
  - destruct (IH (shown ++ [bs]) w' Hs) as (more & rest & -> & Hh & Hr). exists (bs :: more), rest. split; [done|].
    rewrite <-app_assoc in Hh, Hr. done.
  - exists [], (bs :: pieces). split; [done|]. rewrite app_nil_r. split; [done|]. intros bs' rest' [= <- <-].
    rewrite concat_app in Hs. cbn in Hs. by rewrite app_nil_r in Hs.
Qed.

Lemma printk_spec bs s : printk bs s = (Ok tt, mkHw (hart s) (stvec s) (sie s) (time s) (mmio s) (calls s ++ (sbi_console_putchar <$> bs))).
Proof.
  unfold printk, bind, gets, modify.
  assert (Hf : ∀ l s0, for_each (E := Error) (λ b, modify (add_call (sbi_console_putchar b))) l s0 =
    (Ok tt, mkHw (hart s0) (stvec s0) (sie s0) (time s0) (mmio s0) (calls s0 ++ (sbi_console_putchar <$> l)))).
  { induction l as [|b l IH]; intros s0; cbn [for_each fmap list_fmap]; [destruct s0; cbn; by rewrite app_nil_r|].
    unfold bind, modify. rewrite IH. cbn [add_call hart stvec sie time mmio calls]. by rewrite <-app_assoc. }
  unfold modify in Hf. rewrite Hf. destruct s as [[rs [] m] ? ? ? ? ?]. done.
Qed.

(** A message is characters for the firmware, at most 512 of them. *)
Lemma log_some max_level l args s : ∃ bs, log max_level l args s =
    (Ok tt, mkHw (hart s) (stvec s) (sie s) (time s) (mmio s) (calls s ++ (sbi_console_putchar <$> bs))) ∧
  (max_level = None → bs = []) ∧ (length bs ≤ 512)%nat.
Proof.
  unfold log. destruct (log_enabled max_level l) eqn:El.
  - destruct (fmt_write_holds 512 (log_pieces l args) [] (mkBufWriter (replicate 512 0) 0)) as (shown & rest & _ & (Hp & Hle & Hb) & _).
    { split; [done|]. split; [cbn; lia|done]. }
    eexists. rewrite printk_spec. split; [done|]. split; [intros ->; by destruct l|]. rewrite Hb, length_app, length_replicate. cbn [app] in *. rewrite <-Hp. lia.
  - exists []. split; [|split; [done|cbn; lia]]. destruct s; cbn. by rewrite app_nil_r.
Qed.

(** C38: a log message never leaves its buffer of 512 bytes: what the firmware is
    told to print are 512 bytes, the longest run of whole pieces of the message
    that fits and then zeros; nothing else of the hart changes, its interrupts
    included.  A level above the maximum prints nothing. *)
Theorem log_prints_what_fits max_level l args s :
  if log_enabled max_level l then
    ∃ shown rest, log_pieces l args = shown ++ rest ∧ (length (concat shown) ≤ 512)%nat ∧
      (∀ bs rest', rest = bs :: rest' → (512 < length (concat shown ++ bs))%nat) ∧
      log max_level l args s = (Ok tt, mkHw (hart s) (stvec s) (sie s) (time s) (mmio s)
        (calls s ++ (sbi_console_putchar <$> concat shown ++ replicate (512 - length (concat shown)) 0)))
  else log max_level l args s = (Ok tt, s).
Proof.
  unfold log. destruct (log_enabled max_level l); [|done].
  destruct (fmt_write_holds 512 (log_pieces l args) [] (mkBufWriter (replicate 512 0) 0)) as (shown & rest & E & (Hp & Hle & Hb) & Hr).
  { split; [done|]. split; [cbn; lia|done]. }
  cbn [app] in *. exists shown, rest. rewrite <-Hp. split; [done|]. split; [done|]. split; [done|]. by rewrite printk_spec, Hb.
Qed.

(** So a message that does not fit loses its end: the line's end and the reset of
    the colour. *)
Lemma long_message_loses_its_end l bs : (512 < length bs)%nat →
  bw_buf (fmt_write (log_pieces l [bs]) (mkBufWriter (replicate 512 0) 0)) =
    (level_color l ++ [91] ++ level_name l ++ [93; 32; 45; 32]) ++ replicate (512 - (10 + length (level_name l))) 0.
Proof.
  intros Hbs. unfold log_pieces. cbn [app].
  assert (Hno : ∀ w, length (bw_buf w) = 512%nat → fmt_write [bs; RESET] w = w).
  { intros w Hw. cbn [fmt_write]. unfold write_str at 1. by rewrite (proj2 (Nat.ltb_lt _ _)) by lia. }
  assert (Hsplit : ∀ p w, fmt_write (level_color l :: [91] :: level_name l :: [93; 32; 45; 32] :: p) w =
    match write_str (level_color l) w with Some w1 => match write_str [91] w1 with Some w2 => match write_str (level_name l) w2 with
      Some w3 => match write_str [93; 32; 45; 32] w3 with Some w4 => fmt_write p w4 | None => w3 end | None => w2 end | None => w1 end | None => w end) by done.
  rewrite Hsplit. destruct l; cbv [write_str bw_buf bw_pos level_color level_name]; cbn -[fmt_write]; by rewrite Hno.
Qed.

(** ** Evaluated *)

(** [info] messages with [RUST_LOG=info]. *)
Lemma log_prints_example : ∃ s', log (parse_level_filter (Some "info"%string)) LInfo [[104; 105]] fresh_hw = (Ok tt, s') ∧
  take 21 (calls s') = sbi_console_putchar <$> [27; 91; 51; 50; 109; 91; 73; 78; 70; 79; 93; 32; 45; 32; 104; 105; 27; 91; 48; 109; 10] ∧
  length (calls s') = 512%nat.
Proof. eexists. split; [vm_compute; reflexivity|]. split; vm_compute; reflexivity. Qed.

(** Whatever is logged, a panic ends with the call that shuts the machine down,
    and the handler does not return; before it there are only the characters of
    the messages. *)
Theorem panic_shuts_down te tr max_level message loc s :
  ∃ bs, kernel_panic (AR := Riscv_arch te tr) max_level message loc s =
    (Diverge, mkHw (hart s) (stvec s) (sie s) (time s) (mmio s) (calls s ++ (sbi_console_putchar <$> bs) ++ [sbi_shutdown])) ∧
    (max_level = None → bs = []) ∧ (length bs ≤ 1024)%nat.
Proof.
  destruct (log_some max_level LError ([75; 69; 82; 78; 69; 76; 32; 80; 65; 78; 73; 67; 58; 32] :: message) s) as (b1 & E1 & H1 & L1).
  unfold kernel_panic, bind. rewrite E1. destruct loc as [[file line]|].
  - match goal with |- context [log max_level LError ?a ?s0] => destruct (log_some max_level LError a s0) as (b2 & E2 & H2 & L2) end. rewrite E2.
    exists (b1 ++ b2). split; [|split; [intros E; by rewrite H1, H2|rewrite length_app; lia]].
    cbn. unfold modify, add_call, diverge. cbn. by rewrite fmap_app, <-!app_assoc.
  - exists b1. split; [|split; [done|lia]]. cbn. unfold modify, add_call, diverge, ret. cbn. by rewrite <-app_assoc.
Qed.
