(* ===== verification/HartBoot.v ===== *)
(** * A hart in [core_boot_entry]

    [core_boot_entry] and [idle_task_main] of [kernel/src/main.rs] on the registers
    and the memory of the hart that runs them, with their log messages; what the
    scheduler is then given is in the file on the boot. *)

From S2P Require Import Prelude Errors Kmalloc Vfs Addr Sv39 FrameAllocator PageMeta PageTable PageMap PageFork MemMgr MemFault UserMem UserView ForkView KernelMap TaskSpace Elf ElfLoad InitStack InOrder Registers FileTable TaskPool Sched TaskNew Asm AsmTrap ArchHart Log.

(** ** Model *)

(** Of a [PerCoreContext]: where it is, and what [core_boot_entry] reads. *)
Record PerCoreContext := mkPerCoreContext { ctx_ptr : Z; core_id : Z; idle_task : Z; reaper_task : Z }.

(** Where [thread_info.per_cpu_ctx] is in a [Task]. *)
Abbreviation PER_CPU_CTX_OFFSET := 16.

(** A word written through a pointer. *)
Definition store_word (ptr w : Z) : M Hw Error unit :=
  modify (λ s, set_hart (set_h_mem (set_word ptr w (h_mem (hart s))) (hart s)) s).

(** [Display] of a [usize], which has at most 20 digits. *)
Fixpoint display_loop (fuel : nat) (n : Z) : list Z :=
  match fuel with
  | O => []
  | S fuel' => (if n <? 10 then [] else display_loop fuel' (n / 10)) ++ [48 + n mod 10]
  end.
Definition display_usize (n : Z) : list Z := display_loop 20 n.

(** The messages of the boot. *)
Abbreviation TRAP_HANDLER_INITIATED := [116; 114; 97; 112; 32; 104; 97; 110; 100; 108; 101; 114; 32; 105; 110; 105; 116; 105; 97; 116; 101; 100].
Abbreviation UART_INITIATED_FOR_HART := [117; 97; 114; 116; 32; 105; 110; 105; 116; 105; 97; 116; 101; 100; 32; 102; 111; 114; 32; 104; 97; 114; 116; 32].
Abbreviation UART_INTERRUPTS_ENABLED := [117; 97; 114; 116; 32; 105; 110; 116; 101; 114; 114; 117; 112; 116; 115; 32; 101; 110; 97; 98; 108; 101; 100].

(** [idle_task_main]: each turn of its loop turns interrupts on and waits for one. *)
Definition idle_task_main : M Hw Error unit :=
  modify (on_csr Sstatus enable_supervisor_interrupts) ;;;
  diverge.

Section entry.
(** The architecture, the level of the log, the table of the cores, and
    [sched::schedule], which comes back when the hart gets to its idle task again. *)
Context {AR : Architecture Hw} (max_level : option Level) (CORES : list PerCoreContext) (schedule : M Hw Error unit).

(** [core_boot_entry]. *)
Definition core_boot_entry (core : nat) : M Hw Error unit :=
  init_trap_handler ;;;
  log max_level LTrace [TRAP_HANDLER_INITIATED] ;;;
  let! core_ctx := lift (unwrap (CORES !! core)) in
  store_word (idle_task core_ctx + PER_CPU_CTX_OFFSET) (ctx_ptr core_ctx) ;;;
  store_word (reaper_task core_ctx + PER_CPU_CTX_OFFSET) (ctx_ptr core_ctx) ;;;
  set_per_cpu_ctx_ptr (idle_task core_ctx) ;;;
  init_uart (core_id core_ctx) ;;;
  log max_level LTrace [UART_INITIATED_FOR_HART; display_usize (core_id core_ctx)] ;;;
  modify (λ s, set_mmio (uart_enable (mmio s)) s) ;;;
  log max_level LTrace [UART_INTERRUPTS_ENABLED] ;;;
  setup_unpriviledged_mode ;;;
  let! time := read_current_time in
  let! ticks := lift (nanos_to_ticks (32 * 1000000)) in
  let! time_val := lift (add_ov 64 time ticks) in
  set_timer time_val ;;;
  arch_enable_interrupts ;;;
  schedule ;;;
  idle_task_main.
End entry.

(** ** The messages *)

(** The bytes that a message sends to the console. *)
Definition log_bytes (max_level : option Level) (l : Level) (args : list (list Z)) : list Z :=
  if log_enabled max_level l then bw_buf (fmt_write (log_pieces l args) (mkBufWriter (replicate 512 0) 0)) else [].
Definition boot_messages (max_level : option Level) (core_id : Z) : list Z :=
  log_bytes max_level LTrace [TRAP_HANDLER_INITIATED] ++
  log_bytes max_level LTrace [UART_INITIATED_FOR_HART; display_usize core_id] ++
  log_bytes max_level LTrace [UART_INTERRUPTS_ENABLED].

Definition add_calls (cs : list SbiCall) (s : Hw) : Hw := mkHw (hart s) (stvec s) (sie s) (time s) (mmio s) (calls s ++ cs).

Lemma log_ok max_level l args s : log max_level l args s = (Ok tt, add_calls (sbi_console_putchar <$> log_bytes max_level l args) s).
Proof.
  unfold log, log_bytes, add_calls. destruct (log_enabled max_level l); [apply printk_spec|]. destruct s. cbn. by rewrite app_nil_r.
Qed.

(** ** A hart after its boot *)

(** What the two tasks of the core see of it. *)
Definition with_ctx (c : PerCoreContext) (m : gmap Z (list Z)) : gmap Z (list Z) :=
  set_word (reaper_task c + PER_CPU_CTX_OFFSET) (ctx_ptr c) (set_word (idle_task c + PER_CPU_CTX_OFFSET) (ctx_ptr c) m).

(** The hart when it calls the scheduler. *)
Definition hart_ready (trap_entry_ptr : Z) (max_level : option Level) (c : PerCoreContext) (s : Hw) : Hw :=
  let h := hart s in
  let cs := set_csr Sstatus (enable_supervisor_interrupts (unpriviledged_sstatus (sstatus (csrs h)))) (csrs h) in
  mkHw (set R.tp (idle_task c) (mkHart (regs h) cs (with_ctx c (h_mem h)))) trap_entry_ptr interrupts_sie (time s)
    (uart_enable (plic_init_uart (core_id c) (mmio s)))
    (calls s ++ (sbi_console_putchar <$> boot_messages max_level (core_id c)) ++ [sbi_set_timer (time s + 320000)]).

Lemma bind_modify {S E A} (f : S → S) (m : M S E A) s : (modify f ;;; m) s = m (f s).
Proof. done. Qed.

Lemma hw_eq s s' : hart s = hart s' → stvec s = stvec s' → sie s = sie s' → time s = time s' → mmio s = mmio s' → calls s = calls s' → s = s'.
Proof. destruct s, s'. cbn. congruence. Qed.

Lemma core_boot_entry_ok te tr max_level CORES schedule core c s : CORES !! core = Some c → time s + 320000 < 2 ^ 64 →
  core_boot_entry (AR := Riscv_arch te tr) max_level CORES schedule core s = (schedule ;;; idle_task_main) (hart_ready te max_level c s).
Proof.
  intros Hc Ht. unfold core_boot_entry.
  cbn [init_trap_handler set_per_cpu_ctx_ptr init_uart setup_unpriviledged_mode read_current_time set_timer arch_enable_interrupts Riscv_arch].
  unfold store_word. rewrite bind_modify, (bind_ok _ _ _ _ _ (log_ok _ _ _ _)). unfold bind at 1, lift at 1. rewrite Hc. cbn [unwrap].
  rewrite !bind_modify, (bind_ok _ _ _ _ _ (log_ok _ _ _ _)), bind_modify, (bind_ok _ _ _ _ _ (log_ok _ _ _ _)), bind_modify.
  change (nanos_to_ticks (32 * 1000000)) with (@Ok Error Z 320000). unfold bind at 1, gets. unfold bind at 1, lift at 1. unfold bind at 1, lift at 1.
  unfold add_ov, checked_add. cbn [time add_calls set_mmio set_hart set_stvec on_csr]. rewrite (proj2 (Z.ltb_lt _ _) Ht). cbn [unwrap].
  rewrite bind_modify. unfold bind at 1, bind at 1, modify at 1. unfold modify at 1. f_equal.
  apply hw_eq; [reflexivity..|]. cbn [calls set_sie on_csr set_hart add_call add_calls set_mmio set_stvec]. unfold hart_ready, boot_messages.
  cbn [calls]. by rewrite !fmap_app, <-!app_assoc.
Qed.

(** C22: a hart is ready for its first trap.  [core_boot_entry] of a core in the
    table comes to [schedule], and behind it to [idle_task_main], with the trap
    handler in [stvec], the idle task in [tp], the timer set for 32 ms later, and
    exactly timer and external interrupts enabled; in [sstatus] it has turned
    interrupts on, given the kernel access to user pages and selected user mode for
    the next return, and kept every other bit.  Of the devices it sets the UART's
    interrupt enables to 1 and its line control to 3, the interrupt's priority, this
    hart's enable bit for it and its threshold, and keeps every other register.  Of
    memory it writes only the word of the idle and that of the reaper task that
    refer to the core.  Before the timer's, the firmware gets the calls that print
    the three log messages, none unless the log is at [trace].  [sscratch], [satp]
    and the other registers stay as they are.  So the first trap, if the firmware
    left [sscratch] zero, goes to [trap_handler] with a frame on the boot stack and
    the idle task as the current one. *)
Theorem core_boot_entry_readies_the_hart trap_entry_ptr trap_resume_ptr max_level CORES schedule core c (s : Hw) :
  CORES !! core = Some c → length (regs (hart s)) = 32%nat → 0 ≤ core_id c → time s + 320000 < 2 ^ 64 →
  ∃ s', core_boot_entry (AR := Riscv_arch trap_entry_ptr trap_resume_ptr) max_level CORES schedule core s = (schedule ;;; idle_task_main) s' ∧
    stvec s' = trap_entry_ptr ∧ get R.tp (hart s') = idle_task c ∧ (∀ r, r ≠ R.tp → get r (hart s') = get r (hart s)) ∧
    h_mem (hart s') = with_ctx c (h_mem (hart s)) ∧
    (∀ i, 0 ≤ i < 64 → Z.testbit (sstatus (csrs (hart s'))) i =
       if decide (i = 8) then false else bool_decide (i = 1 ∨ i = 5 ∨ i = 18) || Z.testbit (sstatus (csrs (hart s))) i) ∧
    sscratch (csrs (hart s')) = sscratch (csrs (hart s)) ∧ satp (csrs (hart s')) = satp (csrs (hart s)) ∧
    (∀ i, 0 ≤ i → Z.testbit (sie s') i = bool_decide (i = 5 ∨ i = 9)) ∧
    calls s' = calls s ++ (sbi_console_putchar <$> boot_messages max_level (core_id c)) ++ [sbi_set_timer (time s + 320000)] ∧
    (max_level ≠ Some LTrace → boot_messages max_level (core_id c) = []) ∧
    mmio s' = boot_registers (core_id c) (mmio s) ∧
    ∀ tf, in_kernel (hart s) tf → ∃ st1, run None trap_entry (hart s') = Called trap_resume st1 ∧ get R.tp st1 = idle_task c ∧ get R.a0 st1 = tf.
Proof.
  intros Hcore Hl Hc Ht. exists (hart_ready trap_entry_ptr max_level c s). split; [by apply core_boot_entry_ok|].
  destruct s as [[rs cs m] sv si ti mm ca]. cbn [hart regs time] in *. unfold hart_ready.
  cbn [hart stvec sie time mmio calls csrs get_csr set_csr h_mem sstatus sscratch satp regs]. set (h := mkHart rs _ _).
  assert (Htp : get R.tp (set R.tp (idle_task c) h) = idle_task c) by (apply get_set_eq; cbn [regs h]; rewrite ?Hl; unfold R.tp; lia).
  assert (Hrest : ∀ r, r ≠ R.tp → get r (set R.tp (idle_task c) h) = get r (mkHart rs cs m)) by (intros r; exact (get_set_ne r R.tp (idle_task c) h)).
  split; [done|]. split; [exact Htp|]. split; [exact Hrest|]. split; [done|]. split; [intros i Hi; by apply boot_sstatus|].
  split; [done|]. split; [done|]. split; [|split; [done|split; [|split; [by apply boot_mmio|]]]].
  - intros i Hi. change interrupts_sie with (bit_set (Z.shiftl 1 5) (bit_set (Z.shiftl 1 9) 0)). rewrite !bit_set_testbit, Z.testbit_0_l by lia.
    case_bool_decide; destruct (Z.eqb_spec i 9), (Z.eqb_spec i 5); (done || lia).
  - intros Hn. by destruct max_level as [[]|].
  - intros tf [Kr Kz Ks Kp Kt Kf]. destruct (kernel_traps_are_transparent (set R.tp (idle_task c) h) tf) as (st1 & E & Hen & _).
    { split; [cbn; by rewrite length_insert|exact (eq_trans (Hrest R.zero ltac:(done)) Kz)|exact Ks|
        exact (eq_trans (Hrest R.sp ltac:(done)) Kp)|exact Kt|by do 2 apply words_ok_set_word]. }
    exists st1. split; [exact E|]. split; [by rewrite (en_tp _ _ _ _ Hen)|apply (en_a0 _ _ _ _ Hen)].
Qed.

(** ** Witness *)

(** Hart 1 of two, with the log at [trace]. *)
Definition two_ctxs : list PerCoreContext :=
  [mkPerCoreContext 0xffffffd600004000 0 0xffffffd600005000 0xffffffd600006000; mkPerCoreContext 0xffffffd600004100 1 0xffffffd600007000 0xffffffd600008000].

Lemma core_boot_entry_readies_the_hart_witness : ∃ s' st1,
  core_boot_entry (AR := Riscv_arch 0xffffffff80200100 0) (Some LTrace) two_ctxs (ret tt) 1 fresh_hw = (ret tt ;;; idle_task_main) s' ∧
  length (calls s') = 1537%nat ∧ drop 1536 (calls s') = [sbi_set_timer 321000] ∧ mmio s' !! plic_senable 0 = Some 1024 ∧
  mmio s' !! plic_senable 1 = Some 1024 ∧ word_at 0xffffffd600007010 (h_mem (hart s')) = 0xffffffd600004100 ∧
  run None trap_entry (hart s') = Called trap_resume st1 ∧ get R.tp st1 = 0xffffffd600007000.
Proof.
  destruct (core_boot_entry_readies_the_hart 0xffffffff80200100 0 (Some LTrace) two_ctxs (ret tt) 1
    (mkPerCoreContext 0xffffffd600004100 1 0xffffffd600007000 0xffffffd600008000) fresh_hw)
    as (s' & E & _ & _ & _ & Hm & _ & _ & _ & _ & Hc & _ & Hd & Ht); [done|done|done|by vm_compute|].
  destruct (Ht (KERNEL_DIRECT_MAPPING_BASE + 0x2000 - TRAP_FRAME_SIZE)) as (st1 & E1 & Htp & _).
  { split; [done..| | |]; [reflexivity|split; vm_compute; done|]. apply words_tested. vm_compute. reflexivity. }
  exists s', st1. split; [exact E|]. rewrite Hc, Hd, Hm. do 5 (split; [vm_compute; reflexivity|]). split; [exact E1|exact Htp].
Defined.
