(* ===== verification/UserRegs.v ===== *)
(** * What a program finds in its registers

    The assembly around [trap_handler] and [swtch] with the kernel's part of
    [spawn] and of [fork]: from the registers at an [ecall] to those behind it,
    in the parent and in the child, and the registers that a new program starts
    with. *)

From S2P Require Import Prelude Errors Kmalloc Vfs Addr Sv39 FrameAllocator PageMeta PageTable PageMap PageFork MemMgr MemFault UserMem UserView ForkView KernelMap TaskSpace Elf ElfLoad InitStack InOrder Registers FileTable TaskPool Sched TaskNew Spawn TaskFork Console Syscall SyscallIO Trap TrapSpec Asm AsmTrap.

(** A hart is about to switch to the task [th] at [p], whose frame is as the
    kernel [s] left it. *)
Record switching_to {S N} (s : Kernel (S := S) (N := N)) (st : Hart) (from p : Z) (th : Thread) : Prop := {
  sg_switching : switching st from p;
  sg_zero : get R.zero st = 0;
  sg_object : task_object p th (h_mem st);
  sg_frame : words_at (trap_frame th) 34 (h_mem st) = saved s (trap_frame th);
  sg_apart i j : (i < 34)%nat → (j < 14)%nat → trap_frame th + 8 * Z.of_nat i ≠ from + CONTEXT_OFFSET + 8 * Z.of_nat j;
}.

(** ** A new program *)

Section start.
Context {S N : Type} `{HV : VNode S N} `{HO : !VNodeOk S N} `{EC : ElfCrate} `{HEC : !ElfCrateOk EC}.
Context `{BF : Bitflags} `{HBF : !BitflagsOk BF}.
Context (vfs_open : list Z → M S VfsError (File N)) (console : N) (trap_resume_ptr : Z).

Lemma initial_restored entry sp p st : restored (tf_words (tf_initialize entry sp 0xcafebabe)) p st →
  regs st = <[R.sp := sp]> (<[R.tp := 0xcafebabe]> (replicate 32 0)) ∧ sepc (csrs st) = entry ∧
  sstatus (csrs st) = user_sstatus ∧ sscratch (csrs st) = p.
Proof. by intros [-> -> -> ->]. Qed.

End start.

(** ** A fork *)

Section fork.
Context {S N : Type} `{HV : VNode S N} `{EC : ElfCrate} `{BF : Bitflags} {HBF : BitflagsOk BF} {FB : FromBits}.
Context {MU : Mmu} {HMU : MmuOk MU}.
Context {D P : Type} `{UD : UartDev D} {UO : UartDevOk D} `{PD : PlicDev P}.
Context (vfs_open vfs_create : list Z → M S VfsError (File N)) (console : N) (trap_resume_ptr : Z).

Abbreviation Kernel := (Kernel (S := S) (N := N)).
Implicit Types (s : Kernel) (t : Task) (st : Hart).

Lemma saved_lookup s tf i : (i < 34)%nat → saved s tf !! i = Some (word_at (tf + 8 * Z.of_nat i) (mem (memory (k_sys s)))).
Proof. intros Hi. unfold saved, words_at. by rewrite list_lookup_fmap, lookup_seqZ_lt by lia. Qed.

Lemma frame_of_reg st r : length (regs st) = 32%nat → (r < 31)%nat → frame_of st !! r = Some (get (Datatypes.S r) st).
Proof.
  intros Hr Hi. unfold frame_of. rewrite lookup_app_l by (rewrite length_drop; lia). rewrite lookup_drop. apply list_lookup_lookup_total_lt. lia.
Qed.
Lemma frame_of_csr st k : length (regs st) = 32%nat →
  frame_of st !! (31 + k)%nat = [sepc (csrs st); scause (csrs st); sstatus (csrs st)] !! k.
Proof. intros Hr. unfold frame_of. rewrite lookup_app_r by (rewrite length_drop; lia). rewrite length_drop, Hr. f_equal. lia. Qed.

(** Back behind an [ecall] with the result [v]. *)
Lemma behind_ecall st v pc p st' : length (regs st) = 32%nat → get R.zero st = 0 →
  restored (<[9%nat := v]> (<[31%nat := pc]> (frame_of st))) p st' →
  regs st' = <[R.a0 := v]> (regs st) ∧ sepc (csrs st') = pc ∧ sscratch (csrs st') = p.
Proof.
  intros Hr H0 [-> -> _ ->]. assert (Hl : length (frame_of st) = 34%nat) by (unfold frame_of; rewrite length_app, length_drop, Hr; done).
  split_and!; [|by rewrite list_lookup_total_insert_ne, list_lookup_total_insert_eq by (done || lia)|done].
  rewrite <-(take_frame st Hr H0). rewrite take_insert_lt, take_insert_ge by lia. done.
Qed.

(** The parent's and the child's way back. *)
Definition forked_in_registers s s' st st1 (me task : Z) t (th : Thread) : Prop :=
  ∃ th' t', k_threads s' !! k_pids s = Some th' ∧ tasks (k_sys s') !! k_pids s = Some t' ∧ t_parent t' = Some me ∧
    (∀ st2, handled st1 (saved s' (trap_frame th)) st2 → ∃ st3, run None trap_resume st2 = Trap_returned st3 ∧
      regs st3 = <[R.a0 := as_usize (k_pids s)]> (regs st) ∧ sepc (csrs st3) = sepc (csrs st) + 4 ∧ sscratch (csrs st3) = task) ∧
    (∀ st2 from p, switching_to s' st2 from p th' → ∃ st3 st4, run None swtch st2 = Returned trap_resume_ptr st3 ∧
      run None trap_resume st3 = Trap_returned st4 ∧
      regs st4 = <[R.a0 := 0]> (regs st) ∧ sepc (csrs st4) = sepc (csrs st) + 4 ∧ sscratch (csrs st4) = p) ∧
    ∀ a, view (mkSpace (t_mm t) (memory (k_sys s'))) a = view (space_of s t) a ∧
         view (mkSpace (t_mm t') (memory (k_sys s'))) a = view (space_of s t) a.

(** C8: a task that calls [clone] to fork comes back twice.  [trap_entry] hands
    its registers to [trap_handler]; when that returns, [trap_resume] takes the
    parent behind the [ecall] with the child's pid in [a0], and a hart that
    switches to the child takes it to the same place with 0 in [a0]; all other
    registers of both are as they were, and so is the memory that they see.  Only
    if every frame is in use afterwards, there is no new task or the kernel panics.
    This is for a well-formed parent that runs on a core, for a pid that is not in
    use, and for a system in which no frame has been freed yet, so that the frames of
    the child's kernel stack are contiguous, as the code assumes. *)
Theorem fork_in_registers fuel stval (ms : Machine (S := S) (N := N) (D := D) (P := P)) me t th st task :
  let s := m_kernel ms in
  let tf := trap_frame th in
  in_user st task tf → scause (csrs st) = 8 → sepc (csrs st) + 4 < 2 ^ 64 → Z.land (sstatus (csrs st)) SPP_MASK = 0 →
  get R.a7 st = SYS_CLONE → get R.a0 st = SIGCHLD → get R.a1 st = 0 →
  forking s me t th → saved s tf = frame_of st →
  ∃ st1, run None trap_entry st = Called trap_resume st1 ∧ get R.a0 st1 = tf ∧ words_at tf 34 (h_mem st1) = saved s tf ∧
    match trap_handler vfs_open vfs_create console trap_resume_ptr fuel me tf stval ms with
    | (Ok (tp, rest), ms') => tp = me ∧ rest = None ∧
        (forked_in_registers s (m_kernel ms') st st1 me task t th ∨
         full (fa (memory (k_sys (m_kernel ms')))) ∧ k_threads (m_kernel ms') = k_threads s ∧ tasks (k_sys (m_kernel ms')) = tasks (k_sys s))
    | (Panic, ms') => full (fa (memory (k_sys (m_kernel ms'))))
    | _ => False
    end.
Proof.
  intros s tf Hu Hcause Hpc Hspp H7 H0 H1 Hfork Hsaved. pose proof (iu_regs _ _ _ Hu) as Hr. pose proof (iu_zero _ _ _ Hu) as Hz.
  assert (Harg : ∀ k, (k < 8)%nat → arg s tf (Z.of_nat k) = get (10 + k)%nat st).
  { intros k Hk. pose proof (arg_saved s tf k Hk) as Ha. rewrite Hsaved, frame_of_reg in Ha by (done || lia). by injection Ha. }
  assert (Hcsr : ∀ k w, [sepc (csrs st); scause (csrs st); sstatus (csrs st)] !! k = Some w →
    word_at (tf + 8 * Z.of_nat (31 + k)) (mem (memory (k_sys s))) = w).
  { intros k w Hw. assert (k < 3)%nat by by apply lookup_lt_Some in Hw. pose proof (saved_lookup s tf (31 + k) ltac:(lia)) as Ha.
    rewrite Hsaved, frame_of_csr, Hw in Ha by done. by injection Ha. }
  destruct (user_entry_ok st task tf Hu) as (st1 & E1 & Hen & _). exists st1. split; [done|]. split; [apply Hen|].
  split; [rewrite Hsaved; apply Hen|].
  pose proof (fork_returns_twice vfs_open vfs_create console trap_resume_ptr fuel stval ms me t th Hfork (Hcsr 1%nat 8 ltac:(by rewrite <-Hcause))) as H.
  assert (Hsepc : saved_sepc s tf = sepc (csrs st)) by exact (Hcsr 0%nat _ eq_refl).
  fold s tf in H. rewrite Hsepc in H. specialize (H Hpc (eq_trans (Harg 7%nat ltac:(lia)) H7) (eq_trans (Harg 0%nat ltac:(lia)) H0) (eq_trans (Harg 1%nat ltac:(lia)) H1)).
  destruct (trap_handler vfs_open vfs_create console trap_resume_ptr fuel me tf stval ms) as [[[tp rest]|e| |] ms']; [|done..].
  destruct H as (-> & -> & [Hf|Hn]); (split; [done|]; split; [done|]); [left|by right].
  destruct Hf as (th' & t' & Hth & Hctx & Ht & Hpar & Hs1 & Hs2 & Hv). rewrite Hsaved in Hs1, Hs2. fold tf in Hs1.
  assert (Hspp' : ∀ v, Z.land (<[9%nat := v]> (<[31%nat := sepc (csrs st) + 4]> (frame_of st)) !!! 33%nat) SPP_MASK = 0).
  { intros v. rewrite !list_lookup_total_insert_ne by done.
    by rewrite (list_lookup_total_correct _ _ _ (frame_of_csr st 2 Hr : frame_of st !! 33%nat = Some (sstatus (csrs st)))). }
  exists th', t'. split_and!; [done..| | |exact Hv].
  - intros st2 Hh. fold tf in Hh. rewrite Hs1 in Hh. destruct (user_resume_ok _ _ _ _ _ _ Hen Hh (Hspp' _)) as (st3 & E3 & Hre & _).
    exists st3. split; [done|]. by apply behind_ecall.
  - intros st2 from p [G1 G2 G3 G4 G5]. rewrite Hs2 in G4.
    destruct (first_run trap_resume_ptr st2 from p th' _ G1 G2 G3 Hctx G4 (Hspp' _) G5) as (st3 & st4 & E3 & E4 & Hre).
    exists st3, st4. split; [done|]. split; [done|]. by apply behind_ecall.
Qed.
End fork.

(** ** Witnesses *)

Definition switching_to_test {S N} (s : Kernel (S := S) (N := N)) (st : Hart) (from p : Z) (th : Thread) : bool :=
  switching_test st from p && (get R.zero st =? 0) &&
  bool_decide (words_at (p + CONTEXT_OFFSET) 14 (h_mem st) = context_words (context th)) &&
  words_test (h_mem st) (trap_frame th) 34 && bool_decide (words_at (trap_frame th) 34 (h_mem st) = saved s (trap_frame th)) &&
  apart_test (trap_frame th) 34 (from + CONTEXT_OFFSET) 14.
Lemma switching_to_tested {S N} (s : Kernel (S := S) (N := N)) st from p th :
  switching_to_test s st from p th = true → switching_to s st from p th.
Proof.
  unfold switching_to_test. rewrite !andb_true_iff, !bool_decide_eq_true, Z.eqb_eq.
  intros [[[[[H1%switching_tested H2] H3] H4%words_tested] H5] H6]. split; [done|done|by split|done|]. exact (apart_tested _ _ _ _ H6).
Qed.

(** A hart that idles in the kernel and goes on with the task [th], whose [Task]
    is at [p]. *)
Definition launcher (p : Z) (th : Thread) (m : gmap Z (list Z)) : Hart :=
  mkHart (<[R.a0 := sample_task]> (<[R.a1 := p]> (replicate 32 0))) (mkCsrs 0 0 0 0 0)
    (set_words (p + CONTEXT_OFFSET) (context_words (context th)) m).


(** The example task at its [ecall]. *)
Definition cloner : Hart :=
  let ws := saved example_clone (trap_frame example_parent) in
  mkHart (0 :: take 31 ws) (mkCsrs (ws !!! 31%nat) (ws !!! 32%nat) (ws !!! 33%nat) sample_task 0)
    {[0x2000 := <[1%nat := trap_frame example_parent + TRAP_FRAME_SIZE]> (replicate 512 0)]}.

(** The child comes back from its fork with 0. *)
Lemma fork_in_registers_witness : ∃ st1 ms' th' st3 st4, run None trap_entry cloner = Called trap_resume st1 ∧
  trap_handler open_only open_only tt 0 1 1 (trap_frame example_parent) 0 example_machine = (Ok (1, None), ms') ∧
  k_threads (m_kernel ms') !! 2 = Some th' ∧
  run None swtch (launcher other_task th' (mem (memory (k_sys (m_kernel ms'))))) = Returned 0 st3 ∧
  run None trap_resume st3 = Trap_returned st4 ∧ sepc (csrs st4) = 0x10f04 ∧ regs st4 = <[R.a0 := 0]> (regs cloner).
Proof.
  destruct (fork_in_registers open_only open_only tt 0 1 0 example_machine 1 example_task example_parent cloner sample_task)
    as (st1 & E1 & _ & _ & H); [apply in_user_tested; vm_compute; reflexivity|vm_compute; reflexivity|vm_compute; reflexivity|
      vm_compute; reflexivity|vm_compute; reflexivity|vm_compute; reflexivity|vm_compute; reflexivity|exact example_forking_ok|vm_compute; reflexivity|].
  assert (Ho : match trap_handler open_only open_only tt 0 1 1 (trap_frame example_parent) 0 example_machine with
    | (Ok (1, None), ms') => match k_threads (m_kernel ms') !! 2 with
        | Some th' => switching_to_test (m_kernel ms') (launcher other_task th' (mem (memory (k_sys (m_kernel ms'))))) sample_task other_task th'
        | None => false end
    | _ => false end = true) by (vm_compute; reflexivity).
  assert (Hn : k_threads (m_kernel example_machine) !! 2 = None) by (vm_compute; reflexivity).
  assert (Hpc : sepc (csrs cloner) + 4 = 0x10f04) by (vm_compute; reflexivity).
  assert (Hpid : k_pids (m_kernel example_machine) = 2) by (vm_compute; reflexivity).
  destruct (trap_handler open_only open_only tt 0 1 1 (trap_frame example_parent) 0 example_machine) as [[[tp rest]|e| |] ms'];
    [|discriminate Ho|discriminate Ho|discriminate Ho].
  destruct H as (-> & -> & [H|(_ & H & _)]); [|exfalso; rewrite H, Hn in Ho; discriminate Ho].
  destruct H as (th' & t' & Hth & _ & _ & _ & Hchild & _). rewrite Hpid in Hth. rewrite Hth in Ho. apply switching_to_tested in Ho.
  destruct (Hchild _ _ _ Ho) as (st3 & st4 & E3 & E4 & Hr & Hs & _). rewrite Hpc in Hs.
  exists st1, ms', th', st3, st4. exact (conj E1 (conj eq_refl (conj Hth (conj E3 (conj E4 (conj Hs Hr)))))).
Defined.
