(* ===== verification/EarlyBoot.v ===== *)
(** * Entering the kernel

    [EARLY_PT] and [bootentry] of [kernel/src/arch/riscv/boot.rs], with which
    the boot hart goes from physical to virtual addresses, [_start] of
    [kernel/src/start.s], and [boot_core] and [core_entry_trampoline] of
    [kernel/src/arch/riscv/mod.rs], with which the other harts start. *)

From S2P Require Import Prelude Errors Kmalloc Vfs Addr Sv39 FrameAllocator PageMeta PageTable PageMap PageFork MemMgr MemFault UserMem UserView ForkView KernelMap TaskSpace Elf ElfLoad InitStack InOrder Registers FileTable TaskPool Sched TaskNew Asm AsmTrap.

(** ** Model *)

Section model.
Context `{BF : Bitflags}.

(** [EARLY_PT]: pages of 1 GiB. *)
Definition EARLY_PT : list Z :=
  let pte := set_flags Sv39.empty (bf_bitor (bf_bitor (bf_bitor PTE_V PTE_RWX) PTE_A) PTE_D) in
  let page_table := empty_table in
  let page_table := <[Z.to_nat (Z.land (Z.shiftr KERNEL_IMAGE_START_PA 30) 0x1ff) := with_address pte KERNEL_IMAGE_START_PA]> page_table in
  let page_table := <[510%nat := with_address pte KERNEL_IMAGE_START_PA]> page_table in
  <[511%nat := with_address pte (KERNEL_IMAGE_START_PA + GB)]> page_table.
End model.

Definition KERNEL_OFFSET : Z := KERNEL_IMAGE_START_VA - KERNEL_IMAGE_START_PA.

(** [bootentry], with the registers that its operands are in.  [early_pt] is the
    address that [la] gives, which is where the code is: a physical one. *)
Definition bootentry (early_pt : Z) (kmain hart_id dtb_pa : nat) : list instr := [
  Li R.t0 early_pt; Srli R.t0 R.t0 12;
  Li R.t1 (Z.shiftl 8 60); Or R.t0 R.t0 R.t1;
  Csrw Satp R.t0; Sfence_vma;
  Li R.t0 KERNEL_OFFSET; Add R.t0 R.t0 kmain;
  Mv R.a0 hart_id; Mv R.a1 dtb_pa; Jr R.t0].

(** [Riscv::boot_core]: [satp] is the register, [hart_start] the error that the
    firmware gives. *)
Definition boot_core (core_entry_trampoline satp : Z) (hart_start : Z → Z → Z → Z) (core_id : Z) : KM unit :=
  let! frame := unwrapped alloc_frame in
  let! sp := lift (add_ov 64 frame 0xff0) in
  let! sp := lift (sub_ov sp 8) in
  let! sp_kernel_view := lift (virt_to_phys sp) in
  modify (λ s, set_mem (set_word sp_kernel_view satp (mem s)) s) ;;;
  let! start_addr := lift (sub_ov core_entry_trampoline KERNEL_OFFSET) in
  if hart_start core_id start_addr sp =? 0 then ret tt else panic.

(** Memory accesses while translation is off. *)
Definition exec_bare (i : instr) (st : Hart) : option Hart :=
  match i with
  | Sd rs off base =>
      let a := wrap64 (get base st + off) in
      if a mod 8 =? 0 then Some (set_h_mem (set_word (a + KERNEL_DIRECT_MAPPING_BASE) (get rs st) (h_mem st)) st) else None
  | Ld rd off base =>
      let a := wrap64 (get base st + off) in
      if a mod 8 =? 0 then Some (set rd (word_at (a + KERNEL_DIRECT_MAPPING_BASE) (h_mem st)) st) else None
  | _ => exec i st
  end.

(** Code that turns translation on and goes on. *)
Fixpoint run_bare (code : list instr) (st : Hart) : stop :=
  match code with
  | [] => Ran_off st
  | i :: rest =>
      match exec_bare i st with
      | Some st' => match i with Csrw Satp _ => run None rest st' | _ => run_bare rest st' end
      | None => Fault
      end
  end.

(** [core_entry_trampoline]; [core_boot_entry] is the address that [la] gives. *)
Definition core_entry_trampoline (core_boot_entry : Z) : list instr := [
  Mv R.sp R.a1; Ld R.a2 0 R.sp;
  Csrw Satp R.a2; Sfence_vma;
  Li R.t0 KERNEL_OFFSET; Li R.t1 core_boot_entry; Add R.t0 R.t0 R.t1;
  Li R.t1 KERNEL_DIRECT_MAPPING_BASE; Add R.sp R.sp R.t1;
  Jr R.t0].

(** [_start]: the stack, and the loop over [t0] and [t1], which the code does not
    set; [fuel] bounds its turns. *)
Fixpoint start_loop (fuel : nat) (st : Hart) : option Hart :=
  match fuel with
  | O => None
  | S fuel' =>
      if get R.t1 st <=? get R.t0 st then Some st
      else st1 ← exec_bare (Sd R.zero 0 R.t0) st; st2 ← exec_bare (Addi R.t0 R.t0 8) st1; start_loop fuel' st2
  end.
Definition start (fuel : nat) (kernel_stack_top : Z) (st : Hart) : option Hart := start_loop fuel (set R.sp kernel_stack_top st).

(** ** The early page table *)

Section early.
Context `{BF : Bitflags} {HBF : BitflagsOk BF}.

(** The physical address of an address under [EARLY_PT]. *)
Definition early_pa (va : Z) : option Z :=
  if bool_decide (KERNEL_IMAGE_START_PA ≤ va < KERNEL_IMAGE_START_PA + GB) then Some va
  else if KERNEL_IMAGE_START_VA <=? va then Some (va - KERNEL_OFFSET) else None.

Lemma early_entries : EARLY_PT = <[511%nat := leaf_pte (KERNEL_IMAGE_START_PA + GB) PTE_RWX]>
  (<[510%nat := leaf_pte KERNEL_IMAGE_START_PA PTE_RWX]> (<[2%nat := leaf_pte KERNEL_IMAGE_START_PA PTE_RWX]> empty_table)).
Proof. unfold EARLY_PT. rewrite !bf_bitor_spec. vm_compute. reflexivity. Qed.

Lemma early_leaf pa : pa = KERNEL_IMAGE_START_PA ∨ pa = KERNEL_IMAGE_START_PA + GB →
  is_leaf (leaf_pte pa PTE_RWX) = true ∧ ppn_address (leaf_pte pa PTE_RWX) = pa ∧ entry_ok (leaf_pte pa PTE_RWX).
Proof. intros [-> | ->]; split_and!; done. Qed.

Lemma early_entry m root j : frame m root = EARLY_PT → 0 ≤ j < 512 → entry m root j =
  if decide (j = 511) then leaf_pte (KERNEL_IMAGE_START_PA + GB) PTE_RWX
  else if decide (j = 510 ∨ j = 2) then leaf_pte KERNEL_IMAGE_START_PA PTE_RWX else 0.
Proof.
  intros Hf Hj. unfold entry. rewrite Hf, early_entries. destruct (decide (j = 511)) as [->|]; [done|].
  destruct (decide (j = 510 ∨ j = 2)) as [[->| ->]|]; [done..|]. rewrite !list_lookup_total_insert_ne by lia.
  by apply lookup_total_replicate_2; lia.
Qed.

Lemma early_entry_ok m root j : frame m root = EARLY_PT → 0 ≤ j < 512 →
  entry_ok (entry m root j) ∧ is_table (entry m root j) = false.
Proof.
  intros Hf Hj. rewrite (early_entry m) by done. destruct (decide (j = 511)) as [|]; [|destruct (decide (j = 510 ∨ j = 2))].
  - destruct (early_leaf (KERNEL_IMAGE_START_PA + GB)) as (Hl & _ & Hok); [by right|]. split; [done|]. unfold is_table. by rewrite Hl, andb_false_r.
  - destruct (early_leaf KERNEL_IMAGE_START_PA) as (Hl & _ & Hok); [by left|]. split; [done|]. unfold is_table. by rewrite Hl, andb_false_r.
  - split; done.
Qed.

Lemma early_shape m root : frame m root = EARLY_PT → table_ok root → shape 3 m root.
Proof.
  intros Hf Hr. split; [done|]. assert (Hlen : length (frame m root) = 512%nat) by (by rewrite Hf, early_entries).
  split; [done|]. apply Forall_lookup. intros j e Hj. assert (j < 512)%nat by (rewrite <-Hlen; by eapply lookup_lt_Some).
  destruct (early_entry_ok m root (Z.of_nat j)) as [Hok Ht]; [done|lia|]. unfold entry in *.
  rewrite Nat2Z.id, (list_lookup_total_correct _ _ _ Hj) in *. split; [done|]. by rewrite Ht.
Qed.

(** The index of an address that has a page. *)
Lemma early_vpn va : is_u64 va → va_ok va = true → 0 ≤ vpn_2 va < 512 ∧
  early_pa va = if decide (vpn_2 va = 511) then Some (KERNEL_IMAGE_START_PA + GB + va mod GB)
    else if decide (vpn_2 va = 510 ∨ vpn_2 va = 2) then Some (KERNEL_IMAGE_START_PA + va mod GB) else None.
Proof.
  intros Hu Hok. destruct (vpn_div va) as (-> & _). apply va_ok_spec in Hok; [|done]. destruct Hu as [H0 H1].
  change (2 ^ 38) with 274877906944 in Hok. change (2 ^ 64 - 274877906944) with 18446743798831644672 in Hok.
  change (2 ^ 64) with 18446744073709551616 in H1. unfold early_pa, KERNEL_OFFSET. change GB with 1073741824. change (2 ^ 30) with 1073741824.
  change KERNEL_IMAGE_START_PA with 2147483648. change KERNEL_IMAGE_START_VA with 18446744071562067968.
  split; [apply Z.mod_pos_bound; lia|]. set (q := va / 1073741824).
  assert (Hq : q mod 512 = if decide (va < 274877906944) then q else q - 17179868672).
  { subst q. destruct (decide _); symmetry; [apply (Z.mod_unique_pos _ _ 0)|apply (Z.mod_unique_pos _ _ 33554431)];
      Z.div_mod_to_equations; lia. }
  rewrite Hq. repeat case_decide; repeat case_bool_decide; subst q; destruct (Z.leb_spec 18446744071562067968 va);
    (f_equal || exfalso); Z.div_mod_to_equations; lia.
Qed.

Lemma early_translate m root va : frame m root = EARLY_PT → table_ok root → is_u64 va → va_ok va = true →
  translate m root va = Ok (early_pa va).
Proof.
  intros Hf Hr Hu Hok. destruct (early_vpn va Hu Hok) as [Hj ->]. rewrite translate_walk by (by apply early_shape || apply Hu).
  cbn [path_of walk]. destruct (early_entry_ok m root (vpn_2 va) Hf Hj) as [_ Ht]. cbn zeta. rewrite Ht, (not_table _ Ht).
  rewrite (early_entry m) by done. repeat case_decide; cbn [length size_of].
  - destruct (early_leaf (KERNEL_IMAGE_START_PA + GB)) as (-> & Hp & _); [by right|]. cbn [fmap option_fmap option_map]. by rewrite Hp.
  - destruct (early_leaf KERNEL_IMAGE_START_PA) as (-> & Hp & _); [by left|]. cbn [fmap option_fmap option_map]. by rewrite Hp.
  - done.
Qed.

(** The registers that the operands of [bootentry] may be in. *)
Record operands_ok (kmain hart_id dtb_pa : nat) : Prop := {
  oo_kmain : kmain ≠ R.t0 ∧ kmain ≠ R.t1;
  oo_hart_id : hart_id ≠ R.t0 ∧ hart_id ≠ R.t1;
  oo_dtb_pa : dtb_pa ≠ R.t0 ∧ dtb_pa ≠ R.t1 ∧ dtb_pa ≠ R.a0;
}.

Lemma length_set r v st : length (regs (set r v st)) = length (regs st).
Proof. destruct r; [done|]. cbn [set regs]. by rewrite length_insert. Qed.

Lemma length_set_csrs c st : length (regs (set_csrs c st)) = length (regs st).
Proof. done. Qed.
Lemma csrs_set r v st : csrs (set r v st) = csrs st.
Proof. by destruct r. Qed.
Lemma h_mem_set r v st : h_mem (set r v st) = h_mem st.
Proof. by destruct r. Qed.

Ltac in_regs := first [done|unfold R.a0, R.a1, R.t0, R.t1; lia].

Lemma bootentry_run early_pt rk rh rd st : operands_ok rk rh rd → length (regs st) = 32%nat →
  ∃ st', run None (bootentry early_pt rk rh rd) st = Returned (wrap64 (KERNEL_OFFSET + get rk st)) st' ∧
    get R.a0 st' = get rh st ∧ get R.a1 st' = get rd st ∧ h_mem st' = h_mem st ∧
    satp (csrs st') = Z.lor (Z.shiftr early_pt 12) (Z.shiftl 8 60).
Proof.
  intros [[H1 H2] [H3 H4] (H5 & H6 & H7)] Hl.
  set (s1 := set R.t0 early_pt st). set (s2 := set R.t0 (Z.shiftr (get R.t0 s1) 12) s1). set (s3 := set R.t1 (Z.shiftl 8 60) s2).
  set (s4 := set R.t0 (Z.lor (get R.t0 s3) (get R.t1 s3)) s3). set (s5 := set_csrs (set_csr Satp (get R.t0 s4) (csrs s4)) s4).
  set (s6 := set R.t0 KERNEL_OFFSET s5). set (s7 := set R.t0 (wrap64 (get R.t0 s6 + get rk s6)) s6).
  set (s8 := set R.a0 (get rh s7) s7). set (s9 := set R.a1 (get rd s8) s8).
  assert (Hrun : run None (bootentry early_pt rk rh rd) st = Returned (get R.t0 s9) s9) by reflexivity.
  assert (Hlen : length (regs s1) = 32%nat ∧ length (regs s2) = 32%nat ∧ length (regs s3) = 32%nat ∧ length (regs s5) = 32%nat ∧
    length (regs s6) = 32%nat ∧ length (regs s7) = 32%nat ∧ length (regs s8) = 32%nat).
  { subst s1 s2 s3 s4 s5 s6 s7 s8. by rewrite !length_set, !length_set_csrs, !length_set. }
  destruct Hlen as (L1 & L2 & L3 & L5 & L6 & L7 & L8).
  assert (Hkeep : ∀ r, r ≠ R.t0 → r ≠ R.t1 → get r s7 = get r st ∧ get r s6 = get r st).
  { intros r Hr1 Hr2. assert (get r s6 = get r st) as E.
    { unfold s6, s5, s4, s3, s2, s1. by rewrite get_set_ne, get_set_csrs, !get_set_ne. }
    split; [|done]. unfold s7. by rewrite get_set_ne. }
  exists s9. rewrite Hrun. clear Hrun. split_and!.
  - f_equal. unfold s9, s8. rewrite !get_set_ne by done. unfold s7. rewrite get_set_eq by in_regs. f_equal. f_equal; [|by apply Hkeep].
    unfold s6. by rewrite get_set_eq by in_regs.
  - unfold s9, s8. rewrite get_set_ne, get_set_eq by in_regs. by apply Hkeep.
  - unfold s9. rewrite get_set_eq by in_regs. unfold s8. rewrite get_set_ne by done. by apply Hkeep.
  - unfold s9, s8, s7, s6, s5. rewrite !h_mem_set. cbn [set_csrs h_mem]. unfold s4, s3, s2, s1. by rewrite !h_mem_set.
  - unfold s9, s8, s7, s6. rewrite !csrs_set. unfold s5. cbn [set_csrs csrs set_csr satp]. unfold s4. rewrite get_set_eq by in_regs.
    unfold s3. rewrite get_set_ne, get_set_eq by in_regs. unfold s2. rewrite get_set_eq by in_regs.
    unfold s1. by rewrite get_set_eq by in_regs.
Qed.

(** [bootentry] enters the kernel at its virtual addresses. *)
Lemma early_satp early_pt : 0 ≤ early_pt < 2 ^ 56 → Z.lor (Z.shiftr early_pt 12) (Z.shiftl 8 60) = pa_to_satp early_pt.
Proof.
  intros Hp. unfold pa_to_satp, set_ppn. change (Z.land (set_mode ModeSv39 0) (not_w 64 SATP_PPN_MASK)) with (Z.shiftl 8 60).
  change SATP_PPN_MASK with (Z.ones 44). rewrite Z.land_ones, Z.lor_comm, Z.shiftr_div_pow2 by done. f_equal. symmetry. apply Z.mod_small.
  change (2 ^ 56) with 72057594037927936 in Hp. change (2 ^ 12) with 4096. change (2 ^ 44) with 17592186044416. Z.div_mod_to_equations; lia.
Qed.

(** C21: entering the kernel.  [bootentry] leaves [satp] with [EARLY_PT] as an
    Sv39 root and jumps to the virtual address of [kmain], which [EARLY_PT] maps
    to [kmain], with the hart id and the device tree as its arguments; until the
    jump the code stays at its physical address, if it is in the first GiB of
    the image, and every address of the image translates as it will in the root
    that [early_init] makes.  This needs the operands in registers that the
    code does not overwrite. *)
Theorem bootentry_enters_kmain early_pt kmain rk rh rd st :
  operands_ok rk rh rd → length (regs st) = 32%nat → get rk st = kmain →
  KERNEL_IMAGE_START_PA ≤ kmain < KERNEL_IMAGE_START_PA + 2 * GB → table_ok early_pt → frame (h_mem st) early_pt = EARLY_PT →
  ∃ target st', run None (bootentry early_pt rk rh rd) st = Returned target st' ∧
    satp (csrs st') = pa_to_satp early_pt ∧ get R.a0 st' = get rh st ∧ get R.a1 st' = get rd st ∧ h_mem st' = h_mem st ∧
    translate (h_mem st') early_pt target = Ok (Some kmain) ∧
    (∀ pc, KERNEL_IMAGE_START_PA ≤ pc < KERNEL_IMAGE_START_PA + GB → translate (h_mem st') early_pt pc = Ok (Some pc)) ∧
    (∀ va, KERNEL_IMAGE_START_VA ≤ va < 2 ^ 64 → translate (h_mem st') early_pt va = Ok (Some (kernel_pa va))).
Proof.
  intros Ho Hl Hk Hr Ht Hf. destruct (bootentry_run early_pt rk rh rd st Ho Hl) as (st' & Hrun & H0 & H1 & Hm & Hs).
  assert (Himg : ∀ va, KERNEL_IMAGE_START_VA ≤ va < 2 ^ 64 → translate (h_mem st') early_pt va = Ok (Some (kernel_pa va))).
  { intros va Hva. rewrite Hm, early_translate; [| |done|..]; [|done|split|apply va_ok_spec; [split|]].
    1: { unfold early_pa, kernel_pa, KERNEL_OFFSET. rewrite bool_decide_false, (proj2 (Z.leb_le _ _)), (proj2 (Z.ltb_ge _ _)).
    1: do 2 f_equal; lia. all: unfold KERNEL_IMAGE_START_VA, KERNEL_IMAGE_START_PA in *; change GB with 1073741824; lia. }
    all: unfold KERNEL_IMAGE_START_VA in *; change (2 ^ 64 - 2 ^ 38) with 18446743798831644672; lia. }
  rewrite Hk in Hrun. exists (wrap64 (KERNEL_OFFSET + kmain)), st'. change GB with 1073741824 in *.
  unfold KERNEL_OFFSET, KERNEL_IMAGE_START_PA, KERNEL_IMAGE_START_VA in *.
  assert (Hw : wrap64 (18446744071562067968 - 2147483648 + kmain) = kmain + 18446744069414584320).
  { unfold wrap64. rewrite Z.mod_small; [lia|]. change (2 ^ 64) with 18446744073709551616. lia. }
  split_and!; try done.
  - rewrite Hs. apply early_satp. destruct Ht as (? & _ & Ht). unfold KERNEL_DIRECT_MAPPING_BASE in Ht.
    change (2 ^ 64) with 18446744073709551616 in Ht. change (2 ^ 56) with 72057594037927936. lia.
  - rewrite Hw, Himg; [|change (2 ^ 64) with 18446744073709551616; lia]. unfold kernel_pa, KERNEL_IMAGE_START_VA, KERNEL_IMAGE_START_PA.
    rewrite (proj2 (Z.ltb_ge _ _)) by lia. do 2 f_equal. lia.
  - intros pc Hpc. rewrite Hm, early_translate; [|done|done|split; [lia|change (2 ^ 64) with 18446744073709551616; lia]|].
    + unfold early_pa, KERNEL_IMAGE_START_PA. change GB with 1073741824. by rewrite bool_decide_true.
    + apply va_ok_spec; [split; [lia|change (2 ^ 64) with 18446744073709551616; lia]|]. left. change (2 ^ 38) with 274877906944. lia.
Qed.
End early.

(** [boot_core] takes the physical address of the new hart's stack for a
    virtual one, and its subtraction overflows: with overflow checks on, no
    other hart is ever started. *)
Theorem boot_core_panics core_entry_trampoline satp hart_start core_id k : kwf k →
  (boot_core core_entry_trampoline satp hart_start core_id k).1 = Panic.
Proof.
  intros Hk. unfold boot_core. unfold bind at 1, unwrapped. pose proof (alloc_frame_spec k Hk) as Ha.
  destruct (alloc_frame k) as [[a|e| |] k']; [|done..]. destruct Ha as (_ & _ & _ & (H0 & _ & Ht) & _).
  unfold KERNEL_DIRECT_MAPPING_BASE in Ht. change (2 ^ 64) with 18446744073709551616 in Ht.
  unfold bind, lift, add_ov, checked_add, unwrap. change (2 ^ 64) with 18446744073709551616. rewrite (proj2 (Z.ltb_lt _ _)) by lia. cbn [checked_sub unwrap].
  unfold virt_to_phys, sub_ov, checked_sub, KERNEL_DIRECT_MAPPING_BASE. rewrite (proj2 (Z.leb_le _ _)) by lia. cbn [unwrap].
  by rewrite (proj2 (Z.leb_gt _ _)) by lia.
Qed.

(** ** The other harts *)

(** Where a hart is that the firmware starts: the stack that [boot_core] gives it
    has the page table in its last word. *)
Record started st (sp root : Z) : Prop := {
  so_regs : length (regs st) = 32%nat;
  so_opaque : get R.a1 st = sp;
  so_stack : 0 ≤ sp ∧ sp mod 8 = 0 ∧ sp + KERNEL_DIRECT_MAPPING_BASE < KERNEL_IMAGE_START_VA;
  so_word : word_at (sp + KERNEL_DIRECT_MAPPING_BASE) (h_mem st) = pa_to_satp root;
}.

Lemma wrap_small x : 0 ≤ x < 2 ^ 64 → wrap64 x = x.
Proof. apply Z.mod_small. Qed.

Lemma trampoline_run entry st : length (regs st) = 32%nat → wrap64 (get R.a1 st) mod 8 = 0 →
  ∃ st', run_bare (core_entry_trampoline entry) st = Returned (wrap64 (KERNEL_OFFSET + entry)) st' ∧
    get R.sp st' = wrap64 (get R.a1 st + KERNEL_DIRECT_MAPPING_BASE) ∧ get R.a0 st' = get R.a0 st ∧ h_mem st' = h_mem st ∧
    satp (csrs st') = word_at (wrap64 (get R.a1 st) + KERNEL_DIRECT_MAPPING_BASE) (h_mem st).
Proof.
  intros Hl H8. set (s1 := set R.sp (get R.a1 st) st). set (v := word_at (wrap64 (get R.a1 st) + KERNEL_DIRECT_MAPPING_BASE) (h_mem st)).
  set (s2 := set R.a2 v s1). set (s3 := set_csrs (set_csr Satp (get R.a2 s2) (csrs s2)) s2). set (s4 := set R.t0 KERNEL_OFFSET s3).
  set (s5 := set R.t1 entry s4). set (s6 := set R.t0 (wrap64 (get R.t0 s5 + get R.t1 s5)) s5). set (s7 := set R.t1 KERNEL_DIRECT_MAPPING_BASE s6).
  set (s8 := set R.sp (wrap64 (get R.sp s7 + get R.t1 s7)) s7).
  assert (Hlen : length (regs s1) = 32%nat ∧ length (regs s3) = 32%nat ∧ length (regs s4) = 32%nat ∧ length (regs s5) = 32%nat ∧
    length (regs s6) = 32%nat ∧ length (regs s7) = 32%nat).
  { subst s1 s2 s3 s4 s5 s6 s7. by rewrite !length_set, !length_set_csrs, !length_set. }
  destruct Hlen as (L1 & L3 & L4 & L5 & L6 & L7).
  assert (Hsp1 : get R.sp s1 = get R.a1 st) by (apply get_set_eq; [done|unfold R.sp; lia]).
  assert (Hrun : run_bare (core_entry_trampoline entry) st = Returned (get R.t0 s8) s8).
  { change (run_bare (core_entry_trampoline entry) st) with (run_bare (drop 1 (core_entry_trampoline entry)) s1).
    unfold core_entry_trampoline. cbn [drop run_bare exec_bare]. rewrite Hsp1, Z.add_0_r, H8. reflexivity. }
  assert (Hkeep : ∀ r, r ≠ R.sp → r ≠ R.a2 → r ≠ R.t0 → r ≠ R.t1 → get r s8 = get r st).
  { intros r N1 N2 N3 N4. unfold s8, s7, s6, s5, s4, s3, s2, s1. by rewrite !(get_set_ne r), get_set_csrs, !(get_set_ne r). }
  exists s8. rewrite Hrun. split_and!.
  - f_equal. unfold s8, s7. rewrite !(get_set_ne R.t0) by done. unfold s6. rewrite get_set_eq by (done || (unfold R.t0; lia)). f_equal.
    unfold s5 at 1. rewrite get_set_ne by done. unfold s4 at 1, s5. by rewrite !get_set_eq by (done || (unfold R.t0, R.t1; lia)).
  - unfold s8. rewrite get_set_eq by (done || (unfold R.sp; lia)). f_equal. f_equal.
    + unfold s7, s6, s5, s4, s3, s2. by rewrite !(get_set_ne R.sp), get_set_csrs, (get_set_ne R.sp).
    + unfold s7. by rewrite get_set_eq by (done || (unfold R.t1; lia)).
  - by apply Hkeep.
  - unfold s8, s7, s6, s5, s4, s3. rewrite !h_mem_set. cbn [set_csrs h_mem]. unfold s2, s1. by rewrite !h_mem_set.
  - unfold s8, s7, s6, s5, s4. rewrite !csrs_set. unfold s3. cbn [set_csrs csrs set_csr satp]. unfold s2. by rewrite get_set_eq by (done || (unfold R.a2; lia)).
Qed.

(** The trampoline takes the page table from the stack, moves the stack to the
    direct mapping and enters [core_boot_entry] at its virtual address, with the
    hart's number as its argument. *)
Theorem trampoline_enters_core_boot_entry entry sp root st : started st sp root →
  KERNEL_IMAGE_START_PA ≤ entry < KERNEL_IMAGE_START_PA + 2 * GB → shape 3 (h_mem st) root → kernel_mapped (h_mem st) root →
  ∃ target st', run_bare (core_entry_trampoline entry) st = Returned target st' ∧ satp (csrs st') = pa_to_satp root ∧
    get R.a0 st' = get R.a0 st ∧ h_mem st' = h_mem st ∧
    translate (h_mem st') root target = Ok (Some entry) ∧ translate (h_mem st') root (get R.sp st') = Ok (Some sp).
Proof.
  intros [Hl Ha1 (H0 & H8 & Ht) Hw] He Hs Hk.
  unfold KERNEL_OFFSET, KERNEL_IMAGE_START_PA, KERNEL_IMAGE_START_VA, KERNEL_DIRECT_MAPPING_BASE in *. change GB with 1073741824 in *.
  assert (Hsp : wrap64 sp = sp) by (apply wrap_small; change (2 ^ 64) with 18446744073709551616; lia).
  destruct (trampoline_run entry st) as (st' & Hrun & Hsp' & Ha0 & Hm & Hsatp); [done|by rewrite Ha1, Hsp|].
  rewrite Ha1, Hsp in Hsatp. rewrite Ha1, wrap_small in Hsp' by (unfold KERNEL_DIRECT_MAPPING_BASE; change (2 ^ 64) with 18446744073709551616; lia).
  eexists _, st'. split; [exact Hrun|]. rewrite Hsatp, Hm, Hsp'. split; [done|]. split; [done|]. split; [done|].
  unfold KERNEL_OFFSET, KERNEL_IMAGE_START_PA, KERNEL_IMAGE_START_VA, KERNEL_DIRECT_MAPPING_BASE in *.
  rewrite wrap_small by (change (2 ^ 64) with 18446744073709551616; lia).
  split; rewrite kernel_translate by (done || (unfold KERNEL_DIRECT_MAPPING_BASE; change (2 ^ 64) with 18446744073709551616; lia)).
  all: unfold kernel_pa, KERNEL_IMAGE_START_PA, KERNEL_IMAGE_START_VA, KERNEL_DIRECT_MAPPING_BASE.
  - rewrite (proj2 (Z.ltb_ge _ _)) by lia. do 2 f_equal. lia.
  - rewrite (proj2 (Z.ltb_lt _ _)) by lia. do 2 f_equal. lia.
Qed.

(** The loop of [_start], from two aligned addresses, ends: it clears the words
    between them and no other. *)
Theorem start_loop_clears n : ∀ st p fuel, length (regs st) = 32%nat → get R.zero st = 0 → (∀ x, length (frame (h_mem st) x) = 512%nat) →
  0 ≤ p → p mod 8 = 0 → p + 8 * Z.of_nat n < 2 ^ 64 → get R.t0 st = p → get R.t1 st = p + 8 * Z.of_nat n → (n < fuel)%nat →
  ∃ st', start_loop fuel st = Some st' ∧ get R.sp st' = get R.sp st ∧ csrs st' = csrs st ∧
    ∀ q, q mod 8 = 0 → word_at (q + KERNEL_DIRECT_MAPPING_BASE) (h_mem st') =
      if decide (p ≤ q < p + 8 * Z.of_nat n) then 0 else word_at (q + KERNEL_DIRECT_MAPPING_BASE) (h_mem st).
Proof.
  change (2 ^ 64) with 18446744073709551616.
  induction n as [|n IH]; intros st p [|fuel] Hl Hz Hf H0 H8 Hb Ht0 Ht1 Hfuel; [lia| |lia|].
  { exists st. cbn [start_loop]. rewrite Ht0, Ht1, (proj2 (Z.leb_le _ _)) by lia. split_and!; try done.
    intros q _. by rewrite decide_False by lia. }
  assert (Hw : ∀ x, 0 ≤ x < 18446744073709551616 → wrap64 x = x) by (intros x Hx; by apply wrap_small).
  cbn [start_loop]. rewrite Ht0, Ht1, (proj2 (Z.leb_gt _ _)) by lia. cbn [exec_bare].
  rewrite Ht0, Z.add_0_r, Hw, (proj2 (Z.eqb_eq _ _)) by (done || lia). cbn [mbind option_bind].
  rewrite Hz.
  set (st1 := set_h_mem _ st). cbn [exec]. change (get R.t0 st1) with (get R.t0 st). rewrite Ht0, Hw by lia. cbn [mbind option_bind].
  destruct (IH (set R.t0 (p + 8) st1) (p + 8) fuel) as (st' & Hrun & Hsp & Hc & Hm).
  - by rewrite length_set.
  - by rewrite get_set_ne.
  - intros x. rewrite h_mem_set. cbn [st1 set_h_mem h_mem]. rewrite frame_set_word. apply Hf.
  - lia.
  - Z.div_mod_to_equations; lia.
  - lia.
  - apply get_set_eq; [done|]. change (regs st1) with (regs st). rewrite Hl. unfold R.t0. lia.
  - rewrite get_set_ne by done. change (get R.t1 st1) with (get R.t1 st). rewrite Ht1. lia.
  - lia.
  - exists st'. split; [done|]. split; [by rewrite Hsp, get_set_ne|]. split; [by rewrite Hc, csrs_set|]. intros q Hq. rewrite Hm by done.
    rewrite h_mem_set. cbn [st1 set_h_mem h_mem]. unfold KERNEL_DIRECT_MAPPING_BASE. rewrite word_at_set_word; [|apply Hf|Z.div_mod_to_equations; lia..].
    repeat case_decide; try lia; try done. assert (q = p ∨ q ≠ p) as [->|] by lia; Z.div_mod_to_equations; lia.
Qed.

(** ** Witnesses *)

(** [kmain] in [a2], the arguments where they came. *)
Definition boot_hart : Hart :=
  mkHart (<[12%nat := 0x80201000]> (<[11%nat := 0x87000000]> (replicate 32 0))) (mkCsrs 0 0 0 0 0) {[0x80400000 := EARLY_PT]}.

Lemma bootentry_enters_kmain_witness : ∃ st', run None (bootentry 0x80400000 R.a2 R.a0 R.a1) boot_hart = Returned 0xffffffff80201000 st' ∧
  translate (h_mem st') 0x80400000 0xffffffff80201000 = Ok (Some 0x80201000).
Proof.
  destruct (bootentry_enters_kmain 0x80400000 0x80201000 R.a2 R.a0 R.a1 boot_hart) as (target & st' & Hrun & _ & _ & _ & _ & Ht & _);
    [done..|].
  assert (E : run None (bootentry 0x80400000 R.a2 R.a0 R.a1) boot_hart = Returned 0xffffffff80201000 st')
    by (rewrite Hrun; f_equal; vm_compute in Hrun; by injection Hrun).
  exists st'. split; [exact E|]. rewrite E in Hrun. injection Hrun as <-. exact Ht.
Defined.

Lemma boot_core_panics_witness : (boot_core 0xffffffff80202000 0 (λ _ _ _, 0) 1 example_kmem).1 = Panic.
Proof. apply (boot_core_panics 0xffffffff80202000 0 (λ _ _ _, 0) 1 example_kmem), example_kmem_ok. Defined.
