(* ===== verification/Boot.v ===== *)
(** * Boot

    [kmain] and [setup_core] of [kernel/src/main.rs], from the kernel tasks on, to
    the first task of the boot hart: what comes before is the boot mapping
    ([early_init]), the block driver ([Virtio]) and the mount table. *)

From S2P Require Import Prelude Errors Kmalloc Vfs Addr Sv39 FrameAllocator PageMeta PageTable PageMap PageFork MemMgr MemFault UserMem UserView ForkView KernelMap TaskSpace Elf ElfLoad InitStack InOrder Registers FileTable TaskPool Sched SchedInv SchedSteps SchedSafe TaskNew Spawn TaskFork Console Syscall SyscallIO Trap TrapSpec TrapSafe Asm AsmTrap EarlyBoot.

(** ** Model *)

(** The path of the shell. *)
Abbreviation SHELL := [47; 102; 111; 111; 47; 115; 104; 101; 108; 108].

Section boot.
Context {S N : Type} `{HV : VNode S N} `{EC : ElfCrate} `{BF : Bitflags}.
Context (vfs_open : list Z → M S VfsError (File N)) (console : N) (trap_resume_ptr idle_task_main reaper_task_main : Z).

(** The code that other harts start with, [satp], and the firmware's [hart_start]. *)
Context (trampoline satp : Z) (hart_start : Z → Z → Z → Z).

Abbreviation Kernel := (Kernel (S := S) (N := N)).
Abbreviation KN := (M Kernel Error).

(** [setup_core]: the new context goes to the end of the table of cores. *)
Definition setup_core_ctx : KN unit :=
  let! idle_task := unwrapped (create_kernel_task console idle_task_main) in
  let! reaper_task := unwrapped (create_kernel_task console reaper_task_main) in
  sys_op (modify (λ s, set_cores (cores s ++ [setup_core idle_task reaper_task]) s)).

(** [kmain]: the cores, the shell, the other harts, and then the boot hart itself,
    which goes on with the task that this returns; [multi_core] is the feature. *)
Definition setup_cores (multi_core : bool) : KN unit :=
  setup_core_ctx ;;;
  if multi_core then setup_core_ctx ;;; setup_core_ctx else ret tt.
Definition kmain (multi_core : bool) : KN Z :=
  setup_cores multi_core ;;;
  unwrapped (spawn vfs_open console trap_resume_ptr SHELL [] None) ;;;
  (if multi_core then kmem_op (boot_core trampoline satp hart_start 1) ;;; kmem_op (boot_core trampoline satp hart_start 2)
   else ret tt) ;;;
  sys_op (core_boot 0).
End boot.

(** Harts in [core_boot_entry], in the order in which they come to it. *)
Definition harts_enter (order : list nat) : SM unit := for_each (λ c, core_boot c ;;; ret tt) order.

(** ** Kernel tasks *)

Lemma one_more k k' n root : KernelMap.used k n → packs k k' → ¬ held (fa k) root →
  (∀ x, held (fa k') x ↔ x = root ∨ held (fa k) x) → used_more k k' n (n + 1).
Proof.
  intros Hu [Hp _] Hnr Hh. destruct (Hp n Hu) as (n' & Hm). pose proof Hm as (Hu' & Hs & Hc & Hle).
  assert (Hfr : ∀ j, frame_addr (fa k') j = frame_addr (fa k) j) by (intros j; unfold frame_addr; by rewrite Hs).
  assert (n' = n + 1) as ->; [|done]. pose proof Hu' as (_ & Hn' & _). pose proof Hu as (_ & Hn & _).
  assert (Hnew : ∀ j, n ≤ j < n' → frame_addr (fa k) j = root).
  { intros j Hj. assert (held (fa k') (frame_addr (fa k) j)) as [?|Ho]%Hh; [|done|].
    - apply (used_held _ _ _ Hu'). exists j. split; [lia|by rewrite Hfr].
    - apply (used_held _ _ _ Hu) in Ho as (i & Hi & E). unfold frame_addr in E. lia. }
  destruct (Z.lt_trichotomy n' (n + 1)) as [|[|]]; [|done|].
  - assert (held (fa k') root) as Hr by (apply Hh; by left). apply (used_held _ _ _ Hu') in Hr as (j & Hj & ->).
    destruct Hnr. apply (used_held _ _ _ Hu). exists j. split; [lia|apply Hfr].
  - pose proof (Hnew n ltac:(lia)) as E1. pose proof (Hnew (n + 1) ltac:(lia)) as E2. unfold frame_addr in *. lia.
Qed.

Lemma stack_loop_total (l : list Z) : ∀ (s : Space) n, KernelMap.used (km s) n → n + Z.of_nat (length l) ≤ capacity (fa (km s)) →
  ∃ s', for_each (λ _, let! _ := kmem (unwrapped alloc_frame) in ret tt) l s = (Ok tt, s').
Proof.
  induction l as [|z l IH]; intros s n Hu Hc; [by eexists|]. cbn [for_each length] in *. unfold bind, kmem, zoom.
  destruct (alloc_used (E := Error) (km s) n Hu ltac:(lia)) as (k' & -> & (Hu' & _ & Hc' & _) & _).
  apply (IH (set_km k' s) (n + 1)); [done|]. cbn [km set_km]. lia.
Qed.

(** With seventeen frames left there is room for a kernel stack. *)
Lemma create_kernel_stack_total s n : KernelMap.used (km s) n → n + 17 < capacity (fa (km s)) →
  ∃ pa s', create_kernel_stack s = (Ok pa, s').
Proof.
  intros Hu Hc. unfold create_kernel_stack.
  unfold bind at 1, kmem at 1, zoom at 1.
  destruct (alloc_used (E := Error) (km s) n Hu ltac:(lia)) as (k1 & E1 & (Hu1 & Hs1 & Hc1 & _) & _). rewrite E1.
  unfold bind at 1, kmem at 1, zoom at 1. cbn [km set_km] in *.
  destruct (alloc_used (E := Error) k1 (n + 1) Hu1 ltac:(lia)) as (k2 & E2 & (Hu2 & Hs2 & Hc2 & _) & _ & _ & Hok & _). rewrite E2.
  change (set_km k2 (set_km k1 s)) with (mkSpace (mm s) k2). unfold bind at 1.
  destruct (stack_loop_total (seqZ 1 (KERNEL_STACK_PAGES - 1)) (mkSpace (mm s) k2) (n + 1 + 1) Hu2) as (s3 & E3);
    [change (Z.of_nat (length (seqZ 1 (KERNEL_STACK_PAGES - 1)))) with 15; cbn [km]; lia|]. rewrite E3.
  destruct (table_ok_mapped _ KERNEL_DIRECT_MAPPING_BASE Hok) as [Hpv _]; [by right|].
  unfold bind at 1, lift at 1, phys_to_virt. rewrite Hpv. unfold bind at 1, lift at 1.
  assert (Htop : frame_addr (fa k1) (n + 1) + KERNEL_DIRECT_MAPPING_BASE + KERNEL_STACK_PAGES * PAGE_SIZE < 2 ^ 64).
  { destruct Hu as (Hk & _). pose proof (kwf_top _ Hk). unfold frame_addr. rewrite Hs1. change (KERNEL_STACK_PAGES * PAGE_SIZE) with 65536. lia. }
  change (KERNEL_STACK_PAGES * PAGE_SIZE) with 65536 in *. unfold offset_by, checked_add. cbn [Z.ltb Z.compare].
  rewrite (proj2 (Z.ltb_lt _ _) Htop). cbn [ok_or]. unfold bind at 1, lift at 1.
  rewrite (proj2 (Z.ltb_lt (frame_addr (fa k1) (n + 1) + 65536) _)) by (unfold KERNEL_DIRECT_MAPPING_BASE in *; lia).
  cbn [unwrap]. unfold bind, modify, ret. by eexists _, _.
Qed.

Section tasks.
Context {S N : Type} `{HV : VNode S N} `{EC : ElfCrate} `{BF : Bitflags} `{HBF : !BitflagsOk BF}.
Context (vfs_open : list Z → M S VfsError (File N)) (console : N) (trap_resume_ptr idle_task_main reaper_task_main : Z).

Abbreviation Kernel := (Kernel (S := S) (N := N)).
Implicit Types s : Kernel.

(** The first [n] frames are in use. *)
Definition memory_ok (k : Kmem) (n : Z) : Prop := KernelMap.used k n ∧ meta_ok k ∧ wide k.

Definition with_task (pid : Z) (t : Task) (y : Sys) : Sys := set_pool ({[pid]} ∪ pool y) (set_tasks (<[pid := t]> (tasks y)) y).

Lemma create_kernel_task_ok s entry n : memory_ok (memory (k_sys s)) n → n + 18 < capacity (fa (memory (k_sys s))) →
  ∃ files m th k' fl, create_kernel_task console entry s = (Ok (k_pids s),
      mkKernel (with_task (k_pids s) (new_task None files m) (set_memory k' (k_sys s))) (k_fs s) fl (<[k_pids s := th]> (k_threads s))
        ((k_pids s + 1) mod 2 ^ 64) (k_heap s)) ∧
    memory_ok k' (n + 18) ∧ capacity (fa k') = capacity (fa (memory (k_sys s))).
Proof.
  intros (Hu & Hme & Hw) Hc. pose proof Hu as (Hk & _ & _). unfold create_kernel_task. unfold bind at 1, kmem_op, sys_op at 1, zoom at 1 2.
  pose proof (mm_new_not_full _ Hk (used_not_full _ _ Hu ltac:(lia))) as Hok. pose proof (mm_new_tspace _ Hk Hme) as Hnew.
  pose proof (mm_new_packs (memory (k_sys s))) as Hp. destruct (mm_new (memory (k_sys s))) as [[m|e| |] k1]; [|done..].
  destruct Hnew as (_ & _ & Hh & Hnh & _ & Hm1 & _). cbn [snd] in Hp. pose proof (one_more _ _ _ _ Hu Hp Hnh Hh) as (Hu1 & Hs1 & Hc1 & _).
  unfold bind at 1, with_mm, mm_op at 1, zoom at 1. cbn [l_sp l_fs k_fs k_sys memory set_sys set_memory set_fs].
  destruct (create_kernel_stack_total (mkSpace m k1) (n + 1) Hu1) as (pa & s2 & E2); [cbn [km]; lia|]. rewrite E2.
  pose proof (create_kernel_stack_in_order (mkSpace m k1) (n + 1) Hu1) as Hst. rewrite E2 in Hst.
  destruct Hst as (_ & _ & (Hu2 & Hs2 & Hc2 & _) & Hmem2 & Hm2 & Htop & _ & _). cbn [obind l_sp l_fs km] in *.
  assert (Hpv : phys_to_virt (E := Error) pa = Ok (pa + KERNEL_DIRECT_MAPPING_BASE)).
  { unfold phys_to_virt, add_ov, checked_add. by rewrite (proj2 (Z.ltb_lt _ _) Htop). }
  unfold bind at 1, lift at 1. rewrite Hpv. unfold bind at 1, next_pid. unfold bind at 1, new_file_table, bind at 1, gets.
  cbn [k_files set_sys set_fs set_pids]. destruct (file_table_init console (k_files s)) as [files fl].
  eexists files, (mm s2), _, (km s2), fl. split; [by destruct s|]. split; [|congruence]. replace (n + 18) with (n + 1 + 17) by lia.
  assert (Hheld : ∀ x, held (fa (memory (k_sys s))) x → held (fa (km s2)) x).
  { intros x (j & Hj & ->)%(used_held _ _ _ Hu). apply (used_held _ _ _ Hu2). exists j. split; [lia|]. unfold frame_addr. congruence. }
  split; [done|]. destruct Hme as [Hm Hrefs]. split; [split; rewrite Hm2, Hm1; [done|]; intros x Hx; by apply Hrefs; auto|].
  intros x. rewrite Hmem2. by apply Hp.
Qed.
End tasks.

(** ** The scheduler at boot *)

Section scheduler.
Context {S N : Type} `{HV : VNode S N} `{EC : ElfCrate} `{BF : Bitflags} `{HBF : !BitflagsOk BF}.
Context (vfs_open : list Z → M S VfsError (File N)) (console : N) (trap_resume_ptr idle_task_main reaper_task_main : Z).

Abbreviation Kernel := (Kernel (S := S) (N := N)).
Implicit Types s : Kernel.

(** A kernel task as it is made. *)
Abbreviation kernel_task x := (new_task None x.1 x.2).

Lemma setup_core_ctx_ok s n : memory_ok (memory (k_sys s)) n → n + 36 < capacity (fa (memory (k_sys s))) →
  0 ≤ k_pids s → k_pids s + 2 < 2 ^ 64 →
  ∃ x1 x2 k' fl ths, setup_core_ctx console idle_task_main reaper_task_main s = (Ok tt,
      mkKernel (set_cores (cores (k_sys s) ++ [setup_core (k_pids s) (k_pids s + 1)])
        (with_task (k_pids s + 1) (kernel_task x2) (with_task (k_pids s) (kernel_task x1) (set_memory k' (k_sys s)))))
        (k_fs s) fl ths (k_pids s + 2) (k_heap s)) ∧
    memory_ok k' (n + 36) ∧ capacity (fa k') = capacity (fa (memory (k_sys s))).
Proof.
  intros Hm Hc H0 Hp. unfold setup_core_ctx. unfold bind at 1, unwrapped at 1.
  destruct (create_kernel_task_ok console s idle_task_main n Hm ltac:(lia)) as (f1 & m1 & th1 & k1 & fl1 & -> & Hm1 & Hc1).
  rewrite (Z.mod_small (k_pids s + 1)) by lia. unfold bind at 1, unwrapped at 1. set (s1 := mkKernel _ _ _ _ _ _).
  destruct (create_kernel_task_ok console s1 reaper_task_main (n + 18) Hm1 ltac:(cbn; lia)) as (f2 & m2 & th2 & k2 & fl2 & E2 & Hm2 & Hc2).
  rewrite E2. cbn [k_pids s1] in *. rewrite (Z.mod_small (k_pids s + 1 + 1)) by lia. replace (k_pids s + 1 + 1) with (k_pids s + 2) by lia.
  exists (f1, m1), (f2, m2), k2, fl2, (<[k_pids s + 1 := th2]> (k_threads s1)). split; [done|].
  replace (n + 36) with (n + 18 + 18) by lia. split; [done|]. cbn in Hc2. congruence.
Qed.

(** Steps that change memory and files only, and take frames in order. *)
Definition in_order (k : Kmem) : Prop := ∃ n, KernelMap.used k n.
Definition only_memory s s' : Prop := k_pids s' = k_pids s ∧
  ∃ k', k_sys s' = set_memory k' (k_sys s) ∧ (in_order (memory (k_sys s)) → in_order k').
#[local] Instance only_memory_preorder : PreOrder only_memory.
Proof.
  split; [intros s; split; [done|]; exists (memory (k_sys s)); by destruct (k_sys s)|].
  intros s1 s2 s3 [H1 (k1 & E1 & O1)] [H2 (k2 & E2 & O2)]. split; [congruence|]. exists k2. rewrite E2, E1. split; [done|].
  rewrite E1 in O2. cbn [memory set_memory] in O2. auto.
Qed.
Lemma keeps_ok {A} (m : M Kernel Error A) s a s' : keeps only_memory m → m s = (Ok a, s') → only_memory s s'.
Proof. intros Hm E. specialize (Hm s). by rewrite E in Hm. Qed.
Lemma packs_in_order k k' : packs k k' → in_order k → in_order k'.
Proof. intros [Hp _] [n Hn]. destruct (Hp n Hn) as (n' & Hu & _). by exists n'. Qed.
Lemma kmem_op_only {A} (op : KM A) : keeps packs op → keeps only_memory (kmem_op (S := S) (N := N) op).
Proof.
  intros Hop s. specialize (Hop (memory (k_sys s))). unfold kmem_op, sys_op, zoom. destruct (op _) as [o k']. split; [done|].
  exists k'. split; [done|]. by apply packs_in_order.
Qed.
Lemma on_mem_only f : keeps only_memory (on_mem (S := S) (N := N) f).
Proof. intros s. split; [done|]. eexists. split; [done|]. intros (n & [] & Hn). exists n. split; [by split|done]. Qed.
Lemma with_mm_only {A} m (op : M Load Error A) : keeps (λ s s' : Load (S := S), packs (km (l_sp s)) (km (l_sp s'))) op →
  keeps only_memory (with_mm m op).
Proof.
  intros Hop s. specialize (Hop (mkLoad (k_fs s) (mkSpace m (memory (k_sys s))))). unfold with_mm. destruct (op _) as [o l]. split; [done|].
  eexists. split; [done|]. by apply packs_in_order.
Qed.
#[local] Hint Resolve kmem_op_packs mm_packs : keeps.
#[local] Instance space_packs_preorder : PreOrder (λ s s' : Space, packs (km s) (km s')).
Proof. split; [by intros s|intros s s1 s2; apply packs_preorder]. Qed.
Lemma create_kernel_stack_packs : keeps (λ s s' : Space, packs (km s) (km s')) create_kernel_stack.
Proof. unfold create_kernel_stack. keep_steps. Qed.
#[local] Hint Resolve kmem_op_only on_mem_only with_mm_only mm_op_packs mm_new_packs load_executable_packs create_user_stack_packs
  create_initial_stack_packs create_kernel_stack_packs : keeps.

#[local] Instance same_memory_preorder : PreOrder (λ y y' : Sys, memory y' = memory y).
Proof. split; [by intros y|intros y1 y2 y3; congruence]. Qed.
Lemma publish_memory parent pid t : keeps (λ y y' : Sys, memory y' = memory y) (publish parent pid t).
Proof. unfold publish, enqueue_new_task, on_core, on_task, core_of. keep_steps; by intros y. Qed.

(** What [spawn] does to the scheduler. *)
Lemma spawn_publishes path argv parent s pid s' : spawn vfs_open console trap_resume_ptr path argv parent s = (Ok pid, s') →
  pid = k_pids s ∧ k_pids s' = (k_pids s + 1) mod 2 ^ 64 ∧
  ∃ k' files m, publish parent pid (new_task parent files m) (set_memory k' (k_sys s)) = (Ok tt, k_sys s') ∧
    (in_order (memory (k_sys s)) → in_order (memory (k_sys s'))).
Proof.
  intros E. unfold spawn in E. apply bind_ok_inv in E as ([[entry sp] m] & s1 & E1 & E).
  assert (H1 : only_memory s s1) by (eapply keeps_ok, E1; unfold spawn_image; keep_steps).
  apply bind_ok_inv in E as ([pa m'] & s2 & E2 & E). assert (H2 : only_memory s1 s2) by (eapply keeps_ok, E2; keep_steps).
  do 3 (apply bind_ok_inv in E as (? & ? & E0 & E); unfold lift in E0; injection E0 as _ <-). apply bind_ok_inv in E as (? & s3 & E3 & E).
  assert (H3 : only_memory s2 s3) by (eapply keeps_ok, E3; apply on_mem_only).
  assert (Hall : only_memory s s3) by (etransitivity; [exact H1|]; by etransitivity). destruct Hall as [Hp (k' & Hk & Hin)].
  apply bind_ok_inv in E as (? & ? & [= <- <-] & E). unfold new_file_table in E. unfold bind at 1 2, gets in E.
  destruct (file_table_init console _) as [files fs]. apply bind_ok_inv in E as (? & ? & [= _ <-] & E).
  apply bind_ok_inv in E as ([] & s5 & E5 & [= <- <-]). apply sys_op_inv in E5 as [E5 Hp5].
  cbn [k_sys k_pids set_threads set_files set_pids] in E5, Hp5. rewrite Hk, Hp in E5. rewrite Hp in Hp5. rewrite Hp.
  split; [done|]. split; [done|]. exists k', files, m'. split; [done|].
  pose proof (publish_memory parent (k_pids s) (new_task parent files m') (set_memory k' (k_sys s))) as Hme. rewrite E5 in Hme.
  cbn [snd] in Hme. by rewrite Hme.
Qed.

(** The kernel before its first task. *)
Definition no_tasks (time : Z) (k : Kmem) : Sys := mkSys ∅ ∅ [] 0%nat ∅ ∅ time k.

(** The state after [kmain] with the tasks [l], the last of them the shell. *)
Definition booted_sys (multi_core : bool) (l : list (list (option nat) * MemoryManager)) (shell : Task) (time : Z) (k : Kmem) : Sys :=
  let n := Z.of_nat (length l) in
  let y := foldl (λ y (x : Z * (list (option nat) * MemoryManager)), with_task x.1 (kernel_task x.2) y) (no_tasks time k) (zip (seqZ 0 n) l) in
  let y := set_cores (if multi_core then [setup_core 0 1; setup_core 2 3; setup_core 4 5] else [setup_core 0 1]) y in
  (publish None n shell y).2.

Definition cores_of (multi_core : bool) : list nat := if multi_core then [0; 1; 2]%nat else [0%nat].

(** [core_ready], as a function, and the harts one after the other. *)
Definition core_readied (y : Sys) (c : nat) : Sys :=
  match cores y !! c with
  | Some j => set_cores (alter (set_core_timer (now y + 320000)) c (cores y))
      (set_tasks (alter (set_t_core (Some c)) (reaper j) (alter (set_t_core (Some c)) (idle j) (tasks y))) y)
  | None => y
  end.
Fixpoint entered (order : list nat) (y : Sys) : option Sys :=
  match order with
  | [] => Some y
  | c :: order' => match cores y !! c with
      | Some j => match schedule (idle j) (core_readied y c) with (Ok _, y') => entered order' y' | _ => None end
      | None => None
      end
  end.

Lemma core_boot_ok y c j : now y + 320000 < 2 ^ 64 → cores y !! c = Some j → core_boot c y = schedule (idle j) (core_readied y c).
Proof.
  intros Ht Hj. unfold core_boot, core_ready, core_readied. unfold bind at 1 2, core_of at 1. rewrite Hj. cbn [unwrap].
  unfold on_task, on_core, bind, modify, gets, lift. cbn [now set_tasks cores].
  change (nanos_to_ticks (32 * 1000000)) with (Ok (E := Error) 320000). unfold add_ov, checked_add. rewrite (proj2 (Z.ltb_lt _ _) Ht).
  cbn [unwrap]. unfold core_of. cbn [cores set_cores set_tasks]. by rewrite list_lookup_alter_eq, Hj.
Qed.

#[local] Instance same_now_preorder : PreOrder (λ y y' : Sys, now y' = now y).
Proof. split; [by intros y|intros y1 y2 y3; congruence]. Qed.
Lemma schedule_now me : keeps (λ y y' : Sys, now y' = now y) (schedule me).
Proof. unfold schedule, load_core_ctx, core_of, set_task_state, on_core, on_task, task_of. keep_steps; by intros y. Qed.

Lemma harts_enter_ok order : ∀ y y', now y + 320000 < 2 ^ 64 → entered order y = Some y' → harts_enter order y = (Ok tt, y').
Proof.
  induction order as [|c order IH]; intros y y' Ht; cbn [entered harts_enter for_each]; [by intros [= <-]|].
  destruct (cores y !! c) as [j|] eqn:Hj; [|done]. unfold bind at 1 2. rewrite (core_boot_ok y c j Ht Hj).
  pose proof (schedule_now (idle j) (core_readied y c)) as Hn. destruct (schedule _ _) as [[tp|e| |] y1]; [|done..]. cbn [snd] in Hn.
  apply IH. rewrite Hn. unfold core_readied. by rewrite Hj.
Qed.

Definition entered_test (multi_core : bool) (order : list nat) (y : Sys) : bool :=
  match entered order y with
  | Some y' => inv_test y' && bool_decide (dom (tasks y') = list_to_set (seqZ 0 (if multi_core then 7 else 3)))
  | None => false
  end.

Lemma booted_test (multi_core : bool) l files m time k order : length l = (if multi_core then 6 else 2)%nat → order ≡ₚ cores_of multi_core →
  entered_test multi_core order (booted_sys multi_core l (new_task None files m) time k) = true.
Proof.
  intros Hl Ho. destruct multi_core.
  - do 6 (destruct l as [|[? ?] l]; [discriminate|]). destruct l; [|discriminate].
    symmetry in Ho. apply permutations_Permutation in Ho. cbn in Ho. rewrite !elem_of_cons in Ho.
    repeat (destruct Ho as [->|Ho]; [vm_compute; reflexivity|]). by apply elem_of_nil in Ho.
  - do 2 (destruct l as [|[? ?] l]; [discriminate|]). destruct l; [|discriminate]. apply Permutation_singleton_r in Ho as ->.
    vm_compute; reflexivity.
Qed.

Lemma setup_cores_ok (multi_core : bool) s time k n : k_sys s = no_tasks time k → k_pids s = 0 → memory_ok k n → n + 108 < capacity (fa k) →
  ∃ l s1, setup_cores console idle_task_main reaper_task_main multi_core s = (Ok tt, s1) ∧
    length l = (if multi_core then 6 else 2)%nat ∧ k_pids s1 = Z.of_nat (length l) ∧
    (∀ shell k', (publish None (k_pids s1) shell (set_memory k' (k_sys s1))).2 = booted_sys multi_core l shell time k') ∧
    in_order (memory (k_sys s1)).
Proof.
  intros Hs Hp Hm Hc. unfold setup_cores. unfold bind at 1.
  destruct (setup_core_ctx_ok s n) as (x1 & x2 & k1 & fl1 & ths1 & -> & Hm1 & Hc1); rewrite ?Hs, ?Hp; [done|cbn; lia|lia|lia|].
  rewrite Hs in Hc1. destruct multi_core; [|exists [x1; x2]; eexists; split_and!; [done..|]; by exists (n + 36); apply Hm1].
  set (s1 := mkKernel _ _ _ _ _ _) in *. unfold bind.
  destruct (setup_core_ctx_ok s1 (n + 36)) as (x3 & x4 & k2 & fl2 & ths2 & -> & Hm2 & Hc2); [done|cbn in *; lia|cbn; lia|cbn; lia|].
  cbv beta iota. match goal with |- context [setup_core_ctx _ _ _ ?x] => set (s2 := x) end.
  destruct (setup_core_ctx_ok s2 (n + 36 + 36)) as (x5 & x6 & k3 & fl3 & ths3 & -> & Hm3 & Hc3); [done|cbn in *; lia|cbn; lia|cbn; lia|].
  exists [x1; x2; x3; x4; x5; x6]. eexists. split_and!; [done..|]. exists (n + 36 + 36 + 36). apply Hm3.
Qed.
End scheduler.

(** ** From boot on *)

Section harts.
Context {S N : Type} `{HV : VNode S N} `{EC : ElfCrate} `{BF : Bitflags} {HBF : BitflagsOk BF} {FB : FromBits} {MU : Mmu}.
Context {D P : Type} `{UD : UartDev D} `{PD : PlicDev P}.
Context (vfs_open vfs_create : list Z → M S VfsError (File N)) (console : N) (trap_resume_ptr idle_task_main reaper_task_main : Z).
Context (trampoline satp : Z) (hart_start : Z → Z → Z → Z).

Abbreviation Kernel := (Kernel (S := S) (N := N)).
Abbreviation Machine := (Machine (S := S) (N := N) (D := D) (P := P)).
Abbreviation kmain := (kmain vfs_open console trap_resume_ptr idle_task_main reaper_task_main trampoline satp hart_start).

(** The harts are in, and the scheduler's invariant holds. *)
Lemma entered_ok (multi_core : bool) (s : Kernel) l files m time k order : k_sys s = booted_sys multi_core l (new_task None files m) time k →
  length l = (if multi_core then 6 else 2)%nat → k_pids s = (if multi_core then 7 else 3) → time + 320000 < 2 ^ 64 →
  order ≡ₚ cores_of multi_core → ∃ y, harts_enter order (k_sys s) = (Ok tt, y) ∧ inv y ∧ numbered (k_pids s) (set_sys y s).
Proof.
  intros Es Hl Hp Ht Ho. pose proof (booted_test multi_core l files m time k order Hl Ho) as Htest. rewrite <-Es in Htest.
  unfold entered_test in Htest. destruct (entered order (k_sys s)) as [y|] eqn:E; [|done]. exists y.
  apply andb_prop in Htest as [Hi Hd%bool_decide_eq_true]. split; [|split; [by apply inv_tested|]].
  - apply harts_enter_ok; [|done]. rewrite Es. destruct multi_core.
    + do 6 (destruct l as [|[? ?] l]; [discriminate|]). destruct l; [exact Ht|discriminate].
    + do 2 (destruct l as [|[? ?] l]; [discriminate|]). destruct l; [exact Ht|discriminate].
  - unfold numbered. cbn [k_sys k_pids set_sys]. rewrite Hp. split; [|by destruct multi_core]. intros p Hq%elem_of_dom.
    rewrite Hd in Hq. apply elem_of_list_to_set, elem_of_seqZ in Hq. lia.
Qed.

(** The boot hart runs what it goes on with. *)
Lemma booted_runs l files m time k tp y' : length l = 2%nat → time + 320000 < 2 ^ 64 →
  core_boot 0 (booted_sys false l (new_task None files m) time k) = (Ok tp, y') → runs 0 tp y'.
Proof.
  intros Hl Ht. do 2 (destruct l as [|[? ?] l]; [discriminate|]). destruct l; [|discriminate]. set (y := booted_sys _ _ _ _ _).
  assert (∃ j, cores y !! 0%nat = Some j ∧ idle j = 0) as (j & Hj & Hi) by (eexists; split; vm_compute; reflexivity).
  assert (∃ j', cores (core_readied y 0) !! 0%nat = Some j' ∧ current j' = 0) as (j' & Hj' & Hc) by (eexists; split; vm_compute; reflexivity).
  assert (inv (core_readied y 0)) as Hinv by (apply inv_tested; vm_compute; reflexivity).
  rewrite (core_boot_ok y 0 j Ht Hj), Hi. destruct (schedule_stay_inv _ 0%nat j' 0 Hinv Hj') as (tp' & y1 & -> & _ & Hr); [done|].
  by intros [= <- <-].
Qed.

(** [kmain] after the shell. *)
Lemma kmain_rest (multi_core : bool) (s s1 s2 : Kernel) pid : setup_cores console idle_task_main reaper_task_main multi_core s = (Ok tt, s1) →
  spawn vfs_open console trap_resume_ptr SHELL [] None s1 = (Ok pid, s2) → in_order (memory (k_sys s2)) →
  if multi_core then (kmain multi_core s).1 = Panic else kmain multi_core s = sys_op (core_boot 0) s2.
Proof.
  intros E1 E2 (n & Hk & _). unfold kmain. rewrite (bind_ok _ _ _ _ _ E1).
  assert (E2' : unwrapped (E' := Error) (spawn vfs_open console trap_resume_ptr SHELL [] None) s1 = (Ok pid, s2)) by (unfold unwrapped; by rewrite E2).
  rewrite (bind_ok _ _ _ _ _ E2'). destruct multi_core; [|done]. pose proof (boot_core_panics trampoline satp hart_start 1 _ Hk) as Hp.
  unfold bind, kmem_op, sys_op, zoom. by destruct (boot_core trampoline satp hart_start 1 _) as [[]].
Qed.

(** C12: from boot on.  With 108 frames left after the boot mapping, [kmain]
    makes the kernel tasks of every core and spawns the shell.  On one core it then
    gets to the boot hart's first task; with the feature [multi-core] it panics in
    [boot_core] instead, whatever the firmware does.  It goes wrong otherwise only if
    the shell cannot be spawned.  When the harts, one or three, come through
    [core_boot_entry] with the shell there, in whatever order, then for as long as
    the machine runs (fewer than 2^64 steps), whatever traps come, with whatever
    registers, and whatever user code and devices write: no task runs on two harts,
    a running task is in no run queue, and a queued task is ready and queued once.
    A step of a hart, as [core_boot_entry], a trap with its handler or a round of a
    reaper, runs to its end here before the next step of any hart. *)
Theorem booted_harts_run_distinct_tasks (multi_core : bool) (s : Kernel) time k n :
  k_sys s = no_tasks time k → k_pids s = 0 → memory_ok k n → n + 108 < capacity (fa k) → time + 320000 < 2 ^ 64 →
  ∃ s1, setup_cores console idle_task_main reaper_task_main multi_core s = (Ok tt, s1) ∧
    match spawn vfs_open console trap_resume_ptr SHELL [] None s1 with
    | (Ok _, s2) =>
        match kmain multi_core s with
        | (Ok tp, s3) => multi_core = false ∧ harts_enter [0%nat] (k_sys s2) = (Ok tt, k_sys s3) ∧ s3 = set_sys (k_sys s3) s2 ∧
            runs 0 tp (k_sys s3)
        | (Panic, _) => multi_core = true
        | _ => False
        end ∧
        ∀ order, order ≡ₚ cores_of multi_core → ∃ y, harts_enter order (k_sys s2) = (Ok tt, y) ∧
          ∀ n (ms ms' : Machine) rests', m_kernel ms = set_sys y s2 → k_pids s2 + Z.of_nat n < 2 ^ 64 →
            nsteps (hstep vfs_open vfs_create console trap_resume_ptr) n (ms, ∅) (ms', rests') → safe (machine_sys ms')
    | (o, _) => ∀ tp s', kmain multi_core s ≠ (Ok tp, s')
    end.
Proof.
  intros Hs Hp Hm Hc Ht.
  destruct (setup_cores_ok console idle_task_main reaper_task_main multi_core s time k n Hs Hp Hm Hc) as (l & s1 & E1 & Hl & Hp1 & Hpub & Hin).
  exists s1. split; [done|]. destruct (spawn vfs_open console trap_resume_ptr SHELL [] None s1) as [[pid|e| |] s2] eqn:E2.
  2-4: intros tp s'; unfold kmain, Boot.kmain, unwrapped; rewrite (bind_ok _ _ _ _ _ E1); unfold bind; by rewrite E2.
  pose proof (kmain_rest multi_core s s1 s2 pid E1 E2) as Hk.
  apply spawn_publishes in E2 as (-> & Hp2 & k' & files & m & E2 & Hin2). specialize (Hpub (new_task None files m) k'). rewrite E2 in Hpub. cbn [snd] in Hpub.
  assert (Hp3 : k_pids s2 = if multi_core then 7 else 3) by (rewrite Hp2, Hp1, Hl; by destruct multi_core).
  split.
  - specialize (Hk (Hin2 Hin)).
    destruct multi_core; [destruct (kmain true s) as [o s3]; cbn [fst] in Hk; by rewrite Hk|]. rewrite Hk.
    destruct (entered_ok false s2 l files m time k' [0%nat] Hpub Hl Hp3 Ht) as (y & E3 & Hi & _); [done|].
    unfold sys_op, zoom. unfold harts_enter in E3 |- *. cbn [for_each] in E3 |- *. unfold bind in E3 |- *.
    destruct (core_boot 0 (k_sys s2)) as [[tp|e| |] y'] eqn:E4; [|done..]. injection E3 as ->. split; [done|]. split; [done|]. split; [done|].
    rewrite Hpub in E4. by apply (booted_runs l files m time k').
  - intros order Ho. destruct (entered_ok multi_core s2 l files m time k' order Hpub Hl Hp3 Ht Ho) as (y & E3 & Hi & Hn).
    exists y. split; [done|]. intros j ms ms' rests' E Hj Hst. apply inv_safe.
    refine (proj1 (hsteps_ok _ _ _ _ j (k_pids s2) (ms, ∅) (ms', rests') _ Hj Hst)). cbn [fst]. unfold machine_ok, machine_sys. by rewrite E.
Qed.
End harts.

(** ** Witness *)

(** The boot hart of one core goes on with its reaper.  The timer interrupts
    it: it switches to the shell. *)
Definition before_boot : Kernel (S := list Z) (N := unit) := mkKernel (no_tasks 0 example_kmem) example_elf [] ∅ 0 example_heap.
Definition after_kmain : outcome Error Z * Kernel (S := list Z) (N := unit) :=
  kmain open_only tt 0 0 0 0xffffffff80202000 0 (λ _ _ _, 0) false before_boot.
Definition hart_booted : Machine (S := list Z) (N := unit) (D := list Z * list (Z * Z)) (P := unit) :=
  mkMachine after_kmain.2 (uart_new, ([], [])) tt [0].
Definition shell_runs : Machine (S := list Z) (N := unit) (D := list Z * list (Z * Z)) (P := unit) :=
  (trap_handler open_only open_only tt 0 1 1 nap_frame 0 (outside 500000 (nap_memory 0x8000000000000005) example_heap ([], []) tt hart_booted)).2.

Lemma booted_harts_run_distinct_tasks_witness : after_kmain.1 = Ok 1 ∧ safe (machine_sys shell_runs) ∧ runs 0 2 (machine_sys shell_runs).
Proof.
  assert (Hk : after_kmain.1 = Ok 1) by (vm_compute; reflexivity).
  split; [exact Hk|]. split; [|eexists; split; [vm_compute; reflexivity|reflexivity]].
  destruct (booted_harts_run_distinct_tasks (P := unit) open_only open_only tt 0 0 0 0xffffffff80202000 0 (λ _ _ _, 0) false before_boot 0 example_kmem 0)
    as (s1 & E1 & H); [done..|split; [apply example_used|split; [apply example_kmem_ok|]]|by vm_compute|by vm_compute|].
  { intros x. cbv [frame example_kmem mem]. by rewrite lookup_empty. }
  fold after_kmain in H. rewrite (surjective_pairing after_kmain), Hk in H.
  destruct (spawn _ _ _ _ _ _ s1) as [[pid|e| |] s2]; [|exfalso; by apply (H 1 after_kmain.2)..].
  destruct H as [(_ & E4 & E5 & _) H]. destruct (H [0%nat]) as (y & E6 & Hs); [done|]. rewrite E4 in E6.
  assert (Ey : k_sys after_kmain.2 = y) by exact (f_equal snd E6). rewrite <-Ey in Hs. clear Ey E6.
  apply (Hs 2%nat hart_booted shell_runs ∅); [exact E5| |].
  - replace (k_pids s2) with (k_pids after_kmain.2) by (by rewrite E5). by vm_compute.
  - eapply nsteps_l; [eapply (h_outside _ _ _ _ hart_booted ∅ 500000 (nap_memory 0x8000000000000005) example_heap ([], []) tt)|].
    eapply nsteps_l; [eapply (h_trap _ _ _ _ _ _ 0 _ 1 nap_frame 0); [vm_compute; reflexivity|done|done|vm_compute; reflexivity]|].
    match goal with |- nsteps _ _ ?x ?y => replace x with y by (vm_compute; reflexivity) end. apply nsteps_O.
Defined.
