(* ===== verification/BootMem.v ===== *)
(** * From the boot mapping to the first tasks

    [mm::early_init] leaves the memory as [kmain] ([kernel/src/main.rs]) needs it
    for the tasks of the cores: the frames in use are the first ones, no page has
    references, and there is room. *)

From S2P Require Import Prelude Errors Kmalloc Vfs Addr Sv39 FrameAllocator PageMeta PageTable PageMap PageFork MemMgr MemFault UserMem UserView ForkView KernelMap TaskSpace Elf ElfLoad InitStack InOrder Registers FileTable TaskPool Sched SchedInv SchedSteps SchedSafe TaskNew Spawn TaskFork Console Syscall SyscallIO Trap TrapSpec TrapSafe Boot.

(** ** What [early_init] does not touch *)

Definition same_pages (k k' : Kmem) : Prop := meta k' = meta k ∧ (wide k → wide k').

#[local] Instance same_pages_preorder : PreOrder same_pages.
Proof. split; [by intros k|]. intros k k1 k2 [H1 W1] [H2 W2]. split; [congruence|auto]. Qed.

Lemma alloc_frame_same {E} : keeps same_pages (unwrapped (E' := E) alloc_frame).
Proof. intros k. split; unfold unwrapped, alloc_frame, zoom; by destruct (FrameAllocator.alloc (fa k)) as [[] ?]. Qed.

Section steps.
Context `{BF : Bitflags}.

Lemma set_entry_same t i e : keeps same_pages (set_entry t i e).
Proof. intros k. split; [done|]. apply upd_wide. Qed.
Lemma write_zeros_same pa : keeps same_pages (write_frame pa empty_table).
Proof. intros k. split; [done|]. by apply frame_wide. Qed.
#[local] Hint Resolve alloc_frame_same set_entry_same write_zeros_same : keeps.

Lemma map_leaf_same t i pa flags : keeps same_pages (map_leaf t i pa flags).
Proof. unfold map_leaf, get_entry. keep_steps. Qed.
Lemma next_table_same t i base : keeps same_pages (get_or_create_next_table t i base).
Proof. unfold get_or_create_next_table, get_entry. keep_steps. Qed.
#[local] Hint Resolve map_leaf_same next_table_same : keeps.

Lemma map_memory_same root va pa flags base ps : keeps same_pages (map_memory_with_base root va pa flags base ps).
Proof. unfold map_memory_with_base, check_mapping_alignment. keep_steps. Qed.
#[local] Hint Resolve map_memory_same : keeps.

Lemma map_text_same n : ∀ root a, keeps same_pages (map_text n root a).
Proof. induction n as [|n IH]; intros root a; cbn [map_text]; unfold map_vm_early; keep_steps. Qed.
Lemma kvm_full_map_same root : keeps same_pages (kvm_full_map root).
Proof. unfold kvm_full_map, kvm_map_gb, map_vm_1g. keep_steps. Qed.
Lemma alloc_heap_same : keeps same_pages alloc_heap.
Proof. unfold alloc_heap, kernel_allocator_init. keep_steps. Qed.
#[local] Hint Resolve map_text_same kvm_full_map_same alloc_heap_same : keeps.

Lemma early_init_same ts te ke : keeps same_pages (early_init ts te ke).
Proof. unfold early_init, initialize_empty_pt. apply keeps_bind; [exact _|by intros k|]. intros _. keep_steps. Qed.
End steps.

(** ** The memory of [kmain] *)

Section boot.
Context `{BF : Bitflags} {HBF : BitflagsOk BF}.

(** After [early_init] there are frames for the kernel tasks of three cores. *)
Lemma early_init_memory_ok s ts te ke :
  let text_start := kernel_text_virt_to_phys_raw ts in
  let text_end := kernel_text_virt_to_phys_raw te in
  let root := kernel_text_virt_to_phys_raw ke in
  0 ≤ ts → 0 ≤ te → 0 ≤ ke → pages (fa s) = replicate 64 0 → meta s = ∅ → wide s →
  text_start mod 4096 = 0 → text_start ≤ text_end ≤ text_start + 1900 * 1024 → root mod 4096 = 0 →
  ∃ heap n s', early_init ts te ke s = (Ok (root + KERNEL_DIRECT_MAPPING_BASE, heap), s') ∧
    memory_ok s' n ∧ n + 108 < capacity (fa s').
Proof.
  intros text_start text_end root Hts Hte Hke Hfresh Hmeta Hw Htm Hsz Hrm.
  destruct (early_init_run s ts te ke Hts Hte Hke Hfresh Htm ltac:(fold text_start text_end; lia) Hrm)
    as (k3 & k4 & k5 & n4 & heap & E & _ & _ & Hc3 & _ & (_ & _ & Hc4 & _) & Hn4 & _ & (Hu5 & _ & Hc5 & _) & _).
  pose proof (early_init_same ts te ke s) as [Hme Hwi]. rewrite E in Hme, Hwi. cbn [snd] in *.
  exists heap, (n4 + 48), k5. split; [done|]. fold text_start text_end in Hn4. split.
  - split; [done|]. split; [|by apply Hwi]. rewrite Hmeta in Hme. split; rewrite Hme; [apply wf_empty|done].
  - rewrite Hc5, Hc4, Hc3. change KB with 1024 in Hn4. Z.div_mod_to_equations; lia.
Qed.
End boot.

(** So the idle and the reaper task of every core are there when [kmain] comes to
    the shell. *)
Theorem kernel_tasks_after_early_init {S N : Type} `{HV : VNode S N} `{EC : ElfCrate} `{BF : Bitflags} {HBF : BitflagsOk BF}
    (console : N) (idle_task_main reaper_task_main : Z) multi_core k ts te ke (s : Kernel (S := S) (N := N)) time :
  let text_start := kernel_text_virt_to_phys_raw ts in
  let text_end := kernel_text_virt_to_phys_raw te in
  0 ≤ ts → 0 ≤ te → 0 ≤ ke → pages (fa k) = replicate 64 0 → meta k = ∅ → wide k →
  text_start mod 4096 = 0 → text_start ≤ text_end ≤ text_start + 1900 * 1024 → kernel_text_virt_to_phys_raw ke mod 4096 = 0 →
  k_sys s = no_tasks time (early_init ts te ke k).2 → k_pids s = 0 →
  ∃ l s1, setup_cores console idle_task_main reaper_task_main multi_core s = (Ok tt, s1) ∧
    length l = (if multi_core then 6 else 2)%nat ∧ k_pids s1 = Z.of_nat (length l) ∧
    (∀ shell k', (publish None (k_pids s1) shell (set_memory k' (k_sys s1))).2 = booted_sys multi_core l shell time k') ∧
    in_order (memory (k_sys s1)).
Proof.
  intros text_start text_end Hts Hte Hke Hfresh Hmeta Hw Htm Hsz Hrm Hs Hp.
  destruct (early_init_memory_ok k ts te ke) as (heap & n & k' & E & Hm & Hc); [done..|]. rewrite E in Hs.
  by apply (setup_cores_ok console idle_task_main reaper_task_main multi_core s time k' n).
Qed.
