(* ===== verification/GdbWalk.v ===== *)
(** * The debugger's page table walk

    [tools/gdb/walk_sv39.py], which looks up an address in the page tables of a
    stopped kernel.  [read] is the debugger's access to memory; what the
    command prints on its way is left out. *)

From S2P Require Import Prelude Errors Addr Sv39 FrameAllocator PageMeta PageTable PageMap Kmalloc Vfs PageFork MemMgr MemFault UserMem UserView ForkView KernelMap TaskSpace Elf ElfLoad InitStack InOrder Registers FileTable TaskPool Sched TaskNew.

(** ** Model *)

(** What the command ends with; levels count from the root's, which is 2. *)
Inductive Walk := Invalid (level : Z) | Leaf (level pa : Z) | Malformed.

Definition ppn_to_pa (pte : Z) : Z := Z.shiftl (Z.shiftr pte 10) 12.
Definition gdb_is_leaf (pte : Z) : bool := negb (Z.land pte 14 =? 0).
Definition read_u64_pa (read : Z → Z) (direct_base pa : Z) : Z := read (direct_base + pa).

Definition walksv39 (read : Z → Z) (root_pa va direct_base : Z) : Walk :=
  let vpn0 := Z.land (Z.shiftr va 12) 0x1ff in
  let vpn1 := Z.land (Z.shiftr va 21) 0x1ff in
  let vpn2 := Z.land (Z.shiftr va 30) 0x1ff in
  let off := Z.land va 0xfff in
  let l2_pa := root_pa + vpn2 * 8 in
  let pte2 := read_u64_pa read direct_base l2_pa in
  if Z.land pte2 1 =? 0 then Invalid 2 else
  if gdb_is_leaf pte2 then Leaf 2 (ppn_to_pa pte2 + Z.land va 0x3fffffff) else
  let pt1_pa := ppn_to_pa pte2 in
  let l1_pa := pt1_pa + vpn1 * 8 in
  let pte1 := read_u64_pa read direct_base l1_pa in
  if Z.land pte1 1 =? 0 then Invalid 1 else
  if gdb_is_leaf pte1 then Leaf 1 (ppn_to_pa pte1 + Z.land va 0x1fffff) else
  let pt0_pa := ppn_to_pa pte1 in
  let l0_pa := pt0_pa + vpn0 * 8 in
  let pte0 := read_u64_pa read direct_base l0_pa in
  if Z.land pte0 1 =? 0 then Invalid 0 else
  if negb (gdb_is_leaf pte0) then Malformed else
  let pa_page := ppn_to_pa pte0 in
  Leaf 0 (pa_page + off).

(** ** The walk *)

Lemma gdb_reads m t i : t mod 4096 = 0 → 0 ≤ i < 512 →
  read_u64_pa (λ kva, word_at kva m) KERNEL_DIRECT_MAPPING_BASE (t + i * 8) = entry m t i.
Proof.
  intros Ht Hi. unfold read_u64_pa, word_at. replace (KERNEL_DIRECT_MAPPING_BASE + (t + i * 8) - KERNEL_DIRECT_MAPPING_BASE) with (t + i * 8) by lia.
  f_equal; Z.div_mod_to_equations; lia.
Qed.

(** Entries without the reserved bits 54 and up. *)
Definition narrow (m : gmap Z (list Z)) (t : Z) : Prop := Forall (λ e, e < 2 ^ 54) (frame m t).

Lemma gdb_ppn e : 0 ≤ e < 2 ^ 54 → ppn_to_pa e = ppn_address e.
Proof.
  intros He. apply Z.bits_inj'. intros i Hi. unfold ppn_to_pa, ppn_address. rewrite !Z.shiftl_spec by done.
  destruct (Z.lt_ge_cases i 12); destruct (Z.lt_ge_cases i 2); rewrite ?(Z.testbit_neg_r _ (i - 12)), ?(Z.testbit_neg_r _ (i - 2)) by lia; try done.
  - rewrite Z.land_spec, testbit_MASK_PPN by lia. rewrite (proj2 (Z.leb_gt 10 (i - 2))) by lia. by rewrite andb_false_r.
  - rewrite Z.shiftr_spec, Z.land_spec, testbit_MASK_PPN by lia. rewrite (proj2 (Z.leb_le 10 (i - 2))) by lia. replace (i - 12 + 10) with (i - 2) by lia.
    destruct (Z.ltb_spec (i - 2) 54); [by rewrite andb_true_r|]. by rewrite (testbit_high 54 e (i - 2)) by (lia || split; lia).
Qed.

Lemma gdb_valid e : is_valid e = negb (Z.land e 1 =? 0).
Proof.
  unfold is_valid. change PTE_V with (Z.ones 1). change 1 with (Z.ones 1) at 3. rewrite (Z.land_ones e 1) by done. pose proof (Z.mod_pos_bound e (2 ^ 1) ltac:(done)) as H.
  change (2 ^ 1) with 2 in *. destruct (Z.eqb_spec (e mod 2) 1), (Z.eqb_spec (e mod 2) 0); (done || lia).
Qed.

Lemma gdb_leaf e : is_leaf e = is_valid e && gdb_is_leaf e.
Proof. done. Qed.

(** One level of the walk. *)
Lemma gdb_level n m t i : shape (S n) m t → (∀ x, x ∈ tables (S n) m t → narrow m x) → 0 ≤ i < 512 →
  read_u64_pa (λ kva, word_at kva m) KERNEL_DIRECT_MAPPING_BASE (t + i * 8) = entry m t i ∧
  ppn_to_pa (entry m t i) = ppn_address (entry m t i) ∧
  (Z.land (entry m t i) 1 =? 0) = negb (is_valid (entry m t i)) ∧
  (is_valid (entry m t i) = true → gdb_is_leaf (entry m t i) = negb (is_table (entry m t i))).
Proof.
  intros Hs Hn Hi. destruct (shape_entry n m t i Hs Hi) as [[[H0 _] _] _]. pose proof (shape_table_ok _ _ _ Hs) as (_ & Ht & _).
  split_and!.
  - by apply gdb_reads.
  - apply gdb_ppn. split; [done|]. specialize (Hn t ltac:(rewrite tables_S; left)). destruct Hs as (_ & Hl & _).
    unfold narrow in Hn. rewrite Forall_lookup_total in Hn. apply Hn. lia.
  - by rewrite gdb_valid, negb_involutive.
  - intros Hv. unfold is_table. rewrite Hv, gdb_leaf, Hv. cbn [andb]. by rewrite negb_involutive.
Qed.

Lemma narrow_tested n m t : forallb (λ x, forallb (λ e, e <? 2 ^ 54) (frame m x)) (tables n m t) = true →
  ∀ x, x ∈ tables n m t → narrow m x.
Proof.
  intros H x Hx. rewrite forallb_forall in H. specialize (H x (proj1 (list_elem_of_In _ _) Hx)). rewrite forallb_forall in H.
  apply Forall_forall. intros e He. by apply Z.ltb_lt, H, list_elem_of_In.
Qed.

Lemma invalid_no_table e : is_valid e = false → is_table e = false.
Proof. intros Hv. unfold is_table. by rewrite Hv. Qed.

(** C30: on page tables whose entries leave the reserved bits alone, the
    debugger's walk through the direct mapping ends with the address that the
    kernel's [translate] gives, for pages of every size; it stops at an invalid
    entry exactly when the address is not mapped, and never finds the last level
    malformed. *)
Theorem walksv39_agrees m root va : shape 3 m root → (∀ x, x ∈ tables 3 m root → narrow m x) → 0 ≤ va →
  match walksv39 (λ kva, word_at kva m) root va KERNEL_DIRECT_MAPPING_BASE with
  | Leaf _ pa => translate m root va = Ok (Some pa)
  | Invalid _ => translate m root va = Ok None
  | Malformed => False
  end.
Proof.
  intros Hs Hn Hva. rewrite translate_walk by done. unfold walksv39.
  change (Z.land (Z.shiftr va 30) 0x1ff) with (vpn_2 va). change (Z.land (Z.shiftr va 21) 0x1ff) with (vpn_1 va).
  change (Z.land (Z.shiftr va 12) 0x1ff) with (vpn_0 va). destruct (vpn_range va) as (V2 & V1 & V0).
  assert (Hsub : ∀ n t i, shape (S n) m t → (∀ x, x ∈ tables (S n) m t → narrow m x) → 0 ≤ i < 512 → is_table (entry m t i) = true →
    shape n m (ppn_address (entry m t i)) ∧ ∀ x, x ∈ tables n m (ppn_address (entry m t i)) → narrow m x).
  { intros n t i Hst Hnt Hi Ht. split; [by apply (shape_entry n m t i)|]. intros x Hx. apply Hnt, (below_in_tables n m t i); [done..|].
    unfold below. by rewrite Ht. }
  cbn [path_of walk length size_of].
  destruct (gdb_level 2 m root (vpn_2 va) Hs Hn V2) as (-> & -> & -> & Hl2). set (e2 := entry m root (vpn_2 va)) in *.
  destruct (is_valid e2) eqn:Hv2; [|by rewrite (invalid_no_table _ Hv2)]. rewrite (Hl2 eq_refl).
  destruct (is_table e2) eqn:Ht2; [|cbn; by rewrite (land_low_mask _ 30) by done].
  destruct (Hsub 2%nat root (vpn_2 va) Hs Hn V2 Ht2) as [Hs1 Hn1]. fold e2 in Hs1, Hn1.
  destruct (gdb_level 1 m (ppn_address e2) (vpn_1 va) Hs1 Hn1 V1) as (-> & -> & -> & Hl1). set (e1 := entry m (ppn_address e2) (vpn_1 va)) in *.
  destruct (is_valid e1) eqn:Hv1; [|by rewrite (invalid_no_table _ Hv1)]. rewrite (Hl1 eq_refl).
  destruct (is_table e1) eqn:Ht1; [|cbn; by rewrite (land_low_mask _ 21) by done].
  destruct (Hsub 1%nat (ppn_address e2) (vpn_1 va) Hs1 Hn1 V1 Ht1) as [Hs0 Hn0]. fold e1 in Hs0, Hn0.
  destruct (gdb_level 0 m (ppn_address e1) (vpn_0 va) Hs0 Hn0 V0) as (-> & -> & -> & Hl0). set (e0 := entry m (ppn_address e1) (vpn_0 va)) in *.
  destruct (is_valid e0) eqn:Hv0; [|by rewrite (invalid_no_table _ Hv0)]. rewrite (Hl0 eq_refl).
  destruct (is_table e0) eqn:Ht0; [by apply (Hsub 0%nat (ppn_address e1) (vpn_0 va) Hs0 Hn0 V0)|].
  cbn. by rewrite (land_low_mask _ 12) by done.
Qed.

(** ** Witness *)

Lemma walksv39_agrees_witness :
  walksv39 (λ kva, word_at kva (mem example_process)) 0x80200000 0x10004 KERNEL_DIRECT_MAPPING_BASE = Leaf 0 0x80201004 ∧
  translate (mem example_process) 0x80200000 0x10004 = Ok (Some 0x80201004).
Proof.
  assert (E : walksv39 (λ kva, word_at kva (mem example_process)) 0x80200000 0x10004 KERNEL_DIRECT_MAPPING_BASE = Leaf 0 0x80201004)
    by (vm_compute; reflexivity).
  pose proof (walksv39_agrees (mem example_process) 0x80200000 0x10004) as H. rewrite E in H. split; [exact E|]. apply H; [|apply narrow_tested; vm_compute; reflexivity|done].
  exact (proj1 (proj1 (proj2 (proj1 example_process_aspace)))).
Defined.
