(* ===== verification/UserLib.v ===== *)
(** * The libraries of user programs

    The system call wrappers of [efiks-lib/zig/src/root.zig] and of
    [efiks-lib/rust/src/syscalls.rs], as the registers they set at their
    [ecall], and what the kernel makes of them. *)

From S2P Require Import Prelude Errors Kmalloc Vfs Addr Sv39 FrameAllocator PageMeta PageTable PageMap PageFork MemMgr MemFault UserMem UserView ForkView KernelMap TaskSpace Elf ElfLoad InitStack InOrder Registers FileTable TaskPool Sched TaskNew Spawn TaskFork Console Syscall SyscallIO SyscallErr Trap TrapSpec Asm AsmTrap.

(** ** The Zig library *)

(** The registers that a wrapper sets. *)
Abbreviation Ecall := (list (nat * Z)).

Module Zig.
(** [Syscall]. *)
Inductive Syscall := shutdown | spawn | close | read | write | exit | sleep_ms | brk | wait.
Definition zig_number (c : Syscall) : Z :=
  match c with
  | shutdown => 5 | spawn => 6 | close => 57 | read => 63 | write => 64 | exit => 93 | sleep_ms => 101 | brk => 214 | wait => 260
  end.

Definition syscall_write (data_ptr len : Z) : Ecall := [(R.a7, zig_number write); (R.a0, 1); (R.a1, data_ptr); (R.a2, len)].
Definition syscall_read (fd buf count : Z) : Ecall := [(R.a7, zig_number read); (R.a0, fd); (R.a1, buf); (R.a2, count)].
Definition syscall_close (fd : Z) : Ecall := [(R.a7, zig_number close); (R.a0, fd)].
Definition syscall_sleep_ms (ms : Z) : Ecall := [(R.a7, zig_number sleep_ms); (R.a0, ms)].
Definition syscall_shutdown : Ecall := [(R.a7, zig_number shutdown)].
(** An [i32] is sign-extended to its register. *)
Definition syscall_exit (exit_code : Z) : Ecall := [(R.a7, zig_number exit); (R.a0, as_usize exit_code)].
Definition syscall_spawn (pid path argv : Z) : Ecall := [(R.a7, zig_number spawn); (R.a0, pid); (R.a1, path); (R.a2, argv)].
Definition syscall_wait (wstatus : Z) : Ecall :=
  [(R.a7, zig_number wait); (R.a0, as_usize (-1)); (R.a1, wstatus); (R.a2, 0); (R.a3, 0)].

(** [std.process.Child.Term], as far as it is used, and [wstatus_to_term]. *)
Inductive Term := exited (code : Z) | unknown (code : Z).
Definition wstatus_to_term (wstatus : option Z) : Term :=
  match wstatus with
  | Some status => if Z.land status 0xff =? 0 then exited (Z.land (Z.shiftr status 8) 0xff) else unknown 0
  | None => unknown 0
  end.
End Zig.

(** ** The Rust library *)

Module Rust.
Abbreviation SYSCALL_WRITE := 1.
Abbreviation SYSCALL_READ := 2.
Abbreviation SYSCALL_SLEEP_MS := 3.
Abbreviation SYSCALL_SHUTDOWN := 4.
Abbreviation SYSCALL_EXIT := 5.
Abbreviation SYSCALL_OPEN := 8.

Definition rust_write (data_ptr len : Z) : Ecall := [(R.a0, 1); (R.a7, SYSCALL_WRITE); (R.a1, data_ptr); (R.a2, len)].
Definition rust_read (buf count : Z) : Ecall := [(R.a0, 0); (R.a7, SYSCALL_READ); (R.a1, buf); (R.a2, count)].
Definition rust_open (path flags : Z) : Ecall := [(R.a7, SYSCALL_OPEN); (R.a0, path); (R.a1, flags)].
Definition rust_sleep_ms (ms : Z) : Ecall := [(R.a7, SYSCALL_SLEEP_MS); (R.a0, ms)].
Definition rust_shutdown : Ecall := [(R.a7, SYSCALL_SHUTDOWN)].
Definition rust_exit (exit_code : Z) : Ecall := [(R.a7, SYSCALL_EXIT); (R.a0, as_usize exit_code)].
End Rust.

(** ** From the library to the kernel *)

Section calls.
Context {S N : Type} `{HV : VNode S N} `{EC : ElfCrate} `{BF : Bitflags} {FB : FromBits} {MU : Mmu}.
Context (vfs_open vfs_create : list Z → M S VfsError (File N)) (console : N) (trap_resume_ptr : Z).

Abbreviation Kernel := (Kernel (S := S) (N := N)).
Abbreviation SY := (M Kernel Stop).
Implicit Types (s : Kernel) (st : Hart).

(** A hart at the [ecall] of a wrapper. *)
Definition at_ecall (call : Ecall) st : Prop := Forall (λ x, get x.1 st = x.2) call.

(** The hart [st] has trapped, and the kernel [s] has its frame. *)
Definition trapped st (tf : Z) s : Prop :=
  ∃ task st1, in_user st task tf ∧ run None trap_entry st = Called trap_resume st1 ∧ mem (memory (k_sys s)) = h_mem st1.

Lemma trapped_arg st tf s i : trapped st tf s → 0 ≤ i ≤ 7 → arg s tf i = get (10 + Z.to_nat i) st.
Proof.
  intros (task & st1 & Hu & E & Hm) Hi. destruct (user_entry_ok st task tf Hu) as (st1' & E' & Hen & _). rewrite E in E'. injection E' as <-.
  unfold arg. rewrite Hm. replace (tf + 8 * (A0 + i)) with (tf + 8 * Z.of_nat (9 + Z.to_nat i)) by (unfold A0; lia).
  rewrite (word_of_words _ _ _ _ (9 + Z.to_nat i) (en_frame _ _ _ _ Hen)) by lia. unfold frame_of.
  pose proof (iu_regs _ _ _ Hu) as Hl. rewrite lookup_total_app_l by (rewrite length_drop; lia).
  unfold get. rewrite !list_lookup_total_alt, lookup_drop. reflexivity.
Qed.

(** What [dispatch_syscall] makes of a call. *)
Definition served (me tf : Z) s (call : SY Z) : Prop :=
  dispatch_syscall vfs_open vfs_create console trap_resume_ptr me tf s = finish_syscall me tf call s.

Lemma served_by st tf s me call : trapped st tf s →
  do_dispatch_syscall vfs_open vfs_create console trap_resume_ptr me (get R.a7 st) tf s = call s → served me tf s call.
Proof.
  intros Ht E. unfold served, dispatch_syscall, get_syscall, bind at 1, gets. pose proof (trapped_arg st tf s 7 Ht ltac:(lia)) as H7.
  unfold arg in H7. rewrite H7. unfold finish_syscall, bind, attempt. change (10 + Z.to_nat 7)%nat with R.a7. by rewrite E.
Qed.

(** What the registers of a call give for the arguments. *)
Lemma ecall_arg st tf s call i v : trapped st tf s → at_ecall call st → 0 ≤ i ≤ 7 → ((10 + Z.to_nat i)%nat, v) ∈ call → arg s tf i = v.
Proof. intros Ht Hc Hi Hin. rewrite (trapped_arg st) by done. unfold at_ecall in Hc. rewrite Forall_forall in Hc. exact (Hc _ Hin). Qed.

Lemma number_of st tf s me call n sy : trapped st tf s → at_ecall call st → (R.a7, n) ∈ call →
  do_dispatch_syscall vfs_open vfs_create console trap_resume_ptr me n tf s = sy s → served me tf s sy.
Proof.
  intros Ht Hc Hin E. apply (served_by st); [done|]. unfold at_ecall in Hc. rewrite Forall_forall in Hc. specialize (Hc _ Hin). cbn [fst snd] in Hc. by rewrite Hc.
Qed.

Lemma user_pointer s a : a ≠ 0 → lift (S := Kernel) (ok_or (user_buf_new a) (Failed InvalidArgs)) s = (Ok a, s).
Proof. intros Ha. rewrite user_buf_cases. by rewrite (proj2 (Z.eqb_neq _ _) Ha). Qed.

Lemma small_arg max tf i s v : arg s tf i = v → v ≤ max → get_arg_as max tf i s = (Ok v, s).
Proof. intros <- Hv. rewrite get_arg_as_cases. by rewrite (proj2 (Z.leb_le _ _) Hv). Qed.
Lemma large_arg max tf i s v : arg s tf i = v → max < v → get_arg_as max tf i s = (Err (Failed InvalidArgs), s).
Proof. intros <- Hv. rewrite get_arg_as_cases. by rewrite (proj2 (Z.leb_gt _ _) Hv). Qed.

Ltac in_call := cbv [Zig.syscall_write Zig.syscall_read Zig.syscall_close Zig.syscall_sleep_ms Zig.syscall_shutdown Zig.syscall_exit
  Zig.syscall_spawn Zig.syscall_wait Rust.rust_write Rust.rust_read Rust.rust_open Rust.rust_sleep_ms Rust.rust_shutdown Rust.rust_exit]; apply list_elem_of_In; repeat first [left; reflexivity|right].
Ltac ecall Ht Hc := eapply (number_of _ _ _ _ _ _ _ Ht Hc); [in_call|]; unfold do_dispatch_syscall; cbn [Z.eqb Pos.eqb Zig.zig_number].

Ltac ecall_word Ht Hc i v :=
  let H := fresh in
  assert (H : arg _ _ i = v) by (apply (ecall_arg _ _ _ _ i v Ht Hc); [lia|in_call]);
  lazymatch goal with
  | |- bind (get_arg_as ?max _ _) _ _ = _ =>
      let Hm := fresh in
      assert (Hm : v <= max) by (assumption || by vm_compute);
      rewrite (bind_ok _ _ _ _ _ (small_arg max _ _ _ v H Hm))
  | _ => rewrite (bind_ok _ _ _ _ _ (get_arg_ok _ _ _)), H
  end.
Ltac ecall_pointer Hp := rewrite (bind_ok _ _ _ _ _ (user_pointer _ _ Hp)).

(** C20: the system calls of the Zig library, from its registers through
    [trap_entry] to the kernel: the kernel runs the call that the function is
    named after, with the function's arguments.  An exit code outside 0 to 127 is
    refused, and so is every [syscall_wait], for the pid of -1 that it passes. *)
Theorem zig_calls_reach_the_kernel st tf s me : trapped st tf s →
  (∀ p len, at_ecall (Zig.syscall_write p len) st → p ≠ 0 → served me tf s (let! n := sys_write me 1 p len in ret (as_isize n))) ∧
  (∀ fd p count, at_ecall (Zig.syscall_read fd p count) st → fd ≤ u32_MAX → p ≠ 0 →
    served me tf s (let! n := sys_read me fd p count in ret (as_isize n))) ∧
  (∀ fd, at_ecall (Zig.syscall_close fd) st → fd ≤ u32_MAX → served me tf s (sys_close me fd ;;; ret 0)) ∧
  (∀ ms, at_ecall (Zig.syscall_sleep_ms ms) st → served me tf s (sys_sleep_ms me ms ;;; ret 0)) ∧
  (at_ecall Zig.syscall_shutdown st → served me tf s diverge) ∧
  (∀ code, at_ecall (Zig.syscall_exit code) st → - 2 ^ 31 ≤ code < 2 ^ 31 →
    served me tf s (if bool_decide (0 ≤ code ≤ 127) then sys_exit me code ;;; ret 0 else fail (Failed InvalidArgs))) ∧
  (∀ pid path argv, at_ecall (Zig.syscall_spawn pid path argv) st → path ≠ 0 →
    served me tf s (sys_spawn vfs_open console trap_resume_ptr me path argv pid ;;; ret 0)) ∧
  (∀ wstatus, at_ecall (Zig.syscall_wait wstatus) st → served me tf s (fail (Failed InvalidArgs))).
Proof.
  intros Ht. split_and!.
  - intros p len Hc Hp. ecall Ht Hc. ecall_word Ht Hc 0 1. ecall_word Ht Hc 1 p. ecall_pointer Hp. by ecall_word Ht Hc 2 len.
  - intros fd p count Hc Hfd Hp. ecall Ht Hc. ecall_word Ht Hc 0 fd. ecall_word Ht Hc 1 p. ecall_pointer Hp. by ecall_word Ht Hc 2 count.
  - intros fd Hc Hfd. ecall Ht Hc. by ecall_word Ht Hc 0 fd.
  - intros ms Hc. ecall Ht Hc. by ecall_word Ht Hc 0 ms.
  - intros Hc. by ecall Ht Hc.
  - intros code Hc Hr. ecall Ht Hc. unfold bind at 1. rewrite get_arg_as_cases.
    rewrite (ecall_arg _ _ _ _ 0 (as_usize code) Ht Hc) by (lia || in_call). unfold as_usize, i8_MAX.
    change (2 ^ 64) with 18446744073709551616. change (2 ^ 31) with 2147483648 in Hr. case_bool_decide.
    + rewrite Z.mod_small by lia. by rewrite (proj2 (Z.leb_le _ _)) by lia.
    + rewrite (proj2 (Z.leb_gt _ _)); [done|]. Z.div_mod_to_equations; lia.
  - intros pid path argv Hc Hp. ecall Ht Hc. ecall_word Ht Hc 0 pid. ecall_word Ht Hc 1 path. ecall_pointer Hp. by ecall_word Ht Hc 2 argv.
  - intros wstatus Hc. ecall Ht Hc. unfold bind at 1. rewrite get_arg_as_cases.
    by rewrite (ecall_arg _ _ _ _ 0 (as_usize (-1)) Ht Hc) by (lia || in_call).
Qed.

(** The Rust library uses numbers that the kernel does not: every one of
    its calls but [exit] makes the kernel panic, and [exit] turns the machine
    off. *)
Theorem rust_calls_miss_the_kernel st tf s me : trapped st tf s →
  (∀ p len, at_ecall (Rust.rust_write p len) st → served me tf s panic) ∧
  (∀ p count, at_ecall (Rust.rust_read p count) st → served me tf s panic) ∧
  (∀ path flags, at_ecall (Rust.rust_open path flags) st → served me tf s panic) ∧
  (∀ ms, at_ecall (Rust.rust_sleep_ms ms) st → served me tf s panic) ∧
  (at_ecall Rust.rust_shutdown st → served me tf s panic) ∧
  (∀ code, at_ecall (Rust.rust_exit code) st → served me tf s diverge).
Proof. intros Ht. split_and!; intros; by ecall Ht H. Qed.
End calls.

(** The status that the kernel writes for an exit code that it accepts is the
    one the library reads. *)
Lemma wait_status_roundtrip e : 0 ≤ e ≤ 127 → Zig.wstatus_to_term (Some (raw_wait_status (WExited e))) = Zig.exited e.
Proof.
  intros He. unfold Zig.wstatus_to_term, raw_wait_status. rewrite (Z.mod_small e) by (change (2 ^ 8) with 256; lia).
  rewrite (land_low_mask _ 8) by done. rewrite Z.shiftl_mul_pow2, Z.mod_mul by done. cbn [Z.eqb].
  rewrite Z.shiftr_div_pow2, Z.div_mul by done. rewrite (land_low_mask _ 8) by done. f_equal. apply Z.mod_small. change (2 ^ 8) with 256. lia.
Qed.

(** ** Witnesses *)

(** The hart [sample] at the [ecall] of a wrapper, and the kernel behind its
    trap. *)
Definition lib_hart (call : Ecall) : Hart := foldr (λ x, set x.1 x.2) sample call.
Definition lib_kernel (call : Ecall) : Kernel (S := list Z) (N := unit) :=
  let m := match run None trap_entry (lib_hart call) with Called _ st1 => h_mem st1 | _ => ∅ end in
  mkKernel (mkSys ∅ ∅ [] 0%nat ∅ ∅ 0 (mkKmem (FrameAllocator.mkFA 0 []) m ∅)) [] [] ∅ 0 example_heap.

Lemma lib_trapped call : in_user_test (lib_hart call) sample_task sample_tf = true → trapped (lib_hart call) sample_tf (lib_kernel call).
Proof.
  intros Hu%in_user_tested. destruct (user_entry_ok _ _ _ Hu) as (st1 & E & _). exists sample_task, st1. split; [done|]. split; [done|].
  cbn [lib_kernel k_sys memory mem]. by rewrite E.
Qed.

(** [syscall_exit(7)] ends the task with code 7, [syscall_wait] gives EINVAL. *)
Lemma zig_calls_reach_the_kernel_witness :
  served open_only open_only tt 0 1 sample_tf (lib_kernel (Zig.syscall_exit 7)) (sys_exit 1 7 ;;; ret 0) ∧
  served open_only open_only tt 0 1 sample_tf (lib_kernel (Zig.syscall_wait 0x1000)) (fail (Failed InvalidArgs)).
Proof.
  split.
  - destruct (zig_calls_reach_the_kernel open_only open_only tt 0 (lib_hart (Zig.syscall_exit 7)) sample_tf (lib_kernel (Zig.syscall_exit 7)) 1)
      as (_ & _ & _ & _ & _ & H & _); [apply lib_trapped; vm_compute; reflexivity|].
    exact (H 7 ltac:(vm_compute; by repeat constructor) ltac:(done)).
  - destruct (zig_calls_reach_the_kernel open_only open_only tt 0 (lib_hart (Zig.syscall_wait 0x1000)) sample_tf (lib_kernel (Zig.syscall_wait 0x1000)) 1)
      as (_ & _ & _ & _ & _ & _ & _ & H); [apply lib_trapped; vm_compute; reflexivity|].
    exact (H 0x1000 ltac:(vm_compute; by repeat constructor)).
Defined.

Lemma rust_calls_miss_the_kernel_witness :
  served open_only open_only tt 0 1 sample_tf (lib_kernel (Rust.rust_write 0x1000 5)) panic ∧
  served open_only open_only tt 0 1 sample_tf (lib_kernel (Rust.rust_exit 0)) diverge.
Proof.
  split.
  - destruct (rust_calls_miss_the_kernel open_only open_only tt 0 (lib_hart (Rust.rust_write 0x1000 5)) sample_tf (lib_kernel (Rust.rust_write 0x1000 5)) 1)
      as (H & _); [apply lib_trapped; vm_compute; reflexivity|].
    exact (H 0x1000 5 ltac:(vm_compute; by repeat constructor)).
  - destruct (rust_calls_miss_the_kernel open_only open_only tt 0 (lib_hart (Rust.rust_exit 0)) sample_tf (lib_kernel (Rust.rust_exit 0)) 1)
      as (_ & _ & _ & _ & _ & H); [apply lib_trapped; vm_compute; reflexivity|].
    exact (H 0 ltac:(vm_compute; by repeat constructor)).
Defined.
