(* ===== verification/Shell.v ===== *)
(** * The shell

    [userspace/zig/shell/src/main.zig]: reading a line with its echo, splitting
    it into words, and the built-in commands, over the system calls that they make.
    Output is what is written, whether it is still in the writer's buffer or not:
    every command ends with a flush.  Output that fails, and memory for the words
    that is not there, end the shell or the command and are not modelled. *)

From stdpp Require Import strings.
From Equations Require Import Equations.
From S2P Require Import Prelude Errors TaskPool.

(** ** Model *)

(** The prompt, and what the shell does besides reading. *)
Abbreviation PROMPT := [36; 32].
Inductive Effect := Out (bs : list Z) | Shutdown.

(** [readLine] with a buffer of [size] bytes, of which [line] is the used part:
    the line, or [None] if the input ends, what is left of the input, and the
    effects. *)
Fixpoint readLine (size : nat) (input line : list Z) (effects : list Effect) : option (list Z) * list Z * list Effect :=
  match input with
  | [] => (None, [], effects)
  | byte :: input' =>
      if bool_decide (byte = 10 ∨ byte = 13) then (Some line, input', effects ++ [Out [13; 10]])
      else if bool_decide (byte = 8 ∨ byte = 127) then
        if (0 <? length line)%nat then readLine size input' (removelast line) (effects ++ [Out [8; 32; 8]])
        else readLine size input' line effects
      else if byte =? 3 then (Some [], input', effects ++ [Out [94; 67; 13; 10]])
      else if byte =? 4 then (Some [], input', effects ++ [Out [94; 68; 13; 10]; Shutdown])
      else if byte <? 32 then readLine size input' line effects
      else if (length line =? size)%nat then readLine size input' line (effects ++ [Out [7]])
      else readLine size input' (line ++ [byte]) (effects ++ [Out [byte]])
  end.

(** [std.mem.trim] and [std.mem.SplitIterator.next] for the delimiters space and
    tab; the iterator is what is left of its buffer. *)
Definition blank (b : Z) : bool := bool_decide (b = 32 ∨ b = 9).
Fixpoint trim_start (s : list Z) : list Z :=
  match s with b :: s' => if blank b then trim_start s' else s | [] => [] end.
Definition trim (s : list Z) : list Z := reverse (trim_start (reverse (trim_start s))).

Fixpoint split_at (s : list Z) : list Z * option (list Z) :=
  match s with
  | [] => ([], None)
  | b :: s' => if blank b then ([], Some s') else let '(w, it) := split_at s' in (b :: w, it)
  end.
Definition next (it : option (list Z)) : option (list Z) * option (list Z) :=
  match it with Some s => let '(w, it') := split_at s in (Some w, it') | None => (None, None) end.

Definition it_size (it : option (list Z)) : nat := match it with Some s => S (length s) | None => 0 end.
Definition inspect {A} (a : A) : {b | a = b} := exist _ a eq_refl.

Lemma next_size it w it' : next it = (Some w, it') → (it_size it' < it_size it)%nat.
Proof.
  destruct it as [s|]; [|done]. cbn [next it_size]. revert w it'. induction s as [|b s IH]; intros w it'; cbn [split_at length].
  - intros [= <- <-]. cbn. lia.
  - destruct (blank b); [intros [= <- <-]; cbn; lia|]. destruct (split_at s) as [w1 it1]. intros [= <- <-]. specialize (IH _ _ eq_refl). lia.
Qed.

(** [getNextNonSpace]. *)
Equations? getNextNonSpace (it : option (list Z)) : option (list Z) * option (list Z) by wf (it_size it) lt :=
  getNextNonSpace it with inspect (next it) := {
    | exist _ (None, it') _ => (None, it')
    | exist _ (Some value, it') E =>
        if (0 <? length (trim value))%nat then (Some (trim value), it') else getNextNonSpace it'
  }.
Proof. by apply next_size in E. Qed.

Lemma getNextNonSpace_size it w it' : getNextNonSpace it = (Some w, it') → (it_size it' < it_size it)%nat.
Proof.
  funelim (getNextNonSpace it); [|done]. clear H0 Heqcall. destruct (0 <? length (trim value))%nat.
  - intros [= _ <-]. by eapply next_size.
  - intros Hn. apply H in Hn. apply next_size in E. lia.
Qed.

(** The arguments that are left. *)
Equations? next_args (it : option (list Z)) : list (list Z) by wf (it_size it) lt :=
  next_args it with inspect (getNextNonSpace it) := {
    | exist _ (None, _) _ => []
    | exist _ (Some arg, it') E => arg :: next_args it'
  }.
Proof. by apply getNextNonSpace_size in E. Qed.

(** The digits of a number, the lowest last; a number below [2 ^ 64] has at most
    64 of them. *)
Definition digit (d : Z) : Z := if d <? 10 then 48 + d else 87 + d.
Fixpoint digits (fuel : nat) (base n : Z) : list Z :=
  match fuel with
  | O => []
  | S fuel' => if n <? base then [digit n] else digits fuel' base (n / base) ++ [digit (n mod base)]
  end.
Definition dec (n : Z) : list Z := digits 64 10 n.
Definition hex (n : Z) : list Z := digits 64 16 n.
Definition signed (n : Z) : list Z := if n <? 0 then 45 :: dec (- n) else dec n.
Definition say (s : string) : list Z := (λ a, Z.of_nat (Ascii.nat_of_ascii a)) <$> String.list_ascii_of_string s.

(** [ShellError], and how an error is printed. *)
Inductive ShellError := InvalidArgs | OpenFailed | ReadFailed | WaitFailed.
Definition error_name (e : ShellError) : string :=
  match e with InvalidArgs => "InvalidArgs" | OpenFailed => "OpenFailed" | ReadFailed => "ReadFailed" | WaitFailed => "WaitFailed" end.
Definition error_message (e : ShellError) : list Z := say "error: error." ++ say (error_name e) ++ [10].

(** The messages of [runSpawn]. *)
Definition IFEXITED (status : Z) : bool := Z.land status 0x7f =? 0.
Definition EXITSTATUS (status : Z) : Z := Z.shiftr (Z.land status 0xff00) 8.
Definition spawn_message (err : Z) : list Z := say "spawn: exited with err " ++ signed err ++ [10].
Definition child_message (child status : Z) : list Z :=
  if IFEXITED status then say "child " ++ dec child ++ say " finished execution with code " ++ dec (EXITSTATUS status) ++ [10]
  else say "child " ++ dec child ++ say " finished with status 0x" ++ hex status ++ [10].

(** The system calls of the shell over a world [W], as the libraries make them:
    [efiks.syscall_spawn] gives its result and the pid that it stored, [waitpid] its
    result and the status, and [read] its result and the buffer. *)
Class Linux (W : Type) := {
  efiks_spawn : list Z → list (list Z) → W → Z * Z * W;
  linux_waitpid : Z → W → Z * Z * W;
  linux_open : list Z → W → Z * W;
  linux_read : Z → Z → W → Z * list Z * W;
  linux_close : Z → W → W;
}.

(** [linux.errno] of a result, and [@intCast] to an [i32]. *)
Definition linux_errno (r : Z) : Z := let i := as_isize r in if (-4096 <? i) && (i <? 0) then - i else 0.
Abbreviation EINTR := 4.
Definition cast_i32 {S E} (n : Z) : M S E Z := if n <? 2 ^ 31 then ret n else panic.

Section commands.
Context {W : Type} `{LX : Linux W}.

(** The world, what is typed next, and what the shell did so far. *)
Record Shell := mkShell { sh_world : W; sh_input : list Z; sh_out : list Effect }.
Abbreviation SH := (M Shell ShellError).

Definition call {A} (f : W → A * W) : SH A := λ s, let '(a, w) := f (sh_world s) in (Ok a, mkShell w (sh_input s) (sh_out s)).
Definition print {E} (bs : list Z) : M Shell E unit := modify (λ s, mkShell (sh_world s) (sh_input s) (sh_out s ++ [Out bs])).

(** [runSpawn]. *)
Definition runSpawn (it : option (list Z)) : SH unit :=
  match getNextNonSpace it with
  | (None, _) => fail InvalidArgs
  | (Some path, it) =>
      let argv := next_args it in
      let! (err, pid) := call (efiks_spawn path argv) in
      if err <? 0 then print (spawn_message err) else
      let! pid := cast_i32 pid in
      let! (wait_result, status) := call (linux_waitpid pid) in
      if negb (linux_errno wait_result =? 0) then fail WaitFailed else
      print (child_message wait_result status)
  end.

(** The loop of [runCat]; each turn takes one unit of [fuel]. *)
Fixpoint cat_loop (fuel : nat) (fd : Z) : SH unit :=
  match fuel with
  | O => diverge
  | S fuel' =>
      let! (read_result, buffer) := call (linux_read fd 4096) in
      if linux_errno read_result =? EINTR then cat_loop fuel' fd else
      if negb (linux_errno read_result =? 0) then fail ReadFailed else
      if read_result =? 0 then ret tt else
      assert (read_result <=? 4096) ;;;
      print (take (Z.to_nat read_result) buffer) ;;;
      cat_loop fuel' fd
  end.

(** [runCat]; the file is closed whatever the loop gives. *)
Definition runCat (fuel : nat) (it : option (list Z)) : SH unit :=
  match getNextNonSpace it with
  | (None, _) => fail InvalidArgs
  | (Some path, _) =>
      let! open_result := call (linux_open path) in
      if negb (linux_errno open_result =? 0) then fail OpenFailed else
      let! fd := cast_i32 open_result in
      let! r := attempt (cat_loop fuel fd) in
      call (λ w, (tt, linux_close fd w)) ;;;
      match r with inl _ => ret tt | inr e => fail e end
  end.

(** [runProg]. *)
Definition SPAWN : list Z := [115; 112; 97; 119; 110].
Definition CAT : list Z := [99; 97; 116].
Definition runProg (fuel : nat) (prog : list Z) (it : option (list Z)) : SH unit :=
  if decide (prog = SPAWN) then runSpawn it else if decide (prog = CAT) then runCat fuel it else ret tt.

(** One round of [runShell]: the end of the input ends the shell, and an error of
    a command is printed. *)
Inductive EndOfStream := Ended.
Definition shell_round (fuel : nat) : M Shell EndOfStream unit := λ s,
  match readLine 1024 (sh_input s) [] (sh_out s ++ [Out PROMPT]) with
  | (None, input', effects) => (Err Ended, mkShell (sh_world s) input' effects)
  | (Some cmd, input', effects) =>
      match next (Some (trim cmd)) with
      | (Some prog, it) =>
          let! r := attempt (runProg fuel prog it) in
          match r with inl _ => ret tt | inr err => print (error_message err) end
      | (None, _) => ret tt
      end (mkShell (sh_world s) input' effects)
  end.
End commands.

(** ** Words *)

Lemma getNextNonSpace_eq it : getNextNonSpace it =
  match next it with
  | (Some value, it') => if (0 <? length (trim value))%nat then (Some (trim value), it') else getNextNonSpace it'
  | (None, it') => (None, it')
  end.
Proof. funelim (getNextNonSpace it); [by rewrite E|by rewrite e]. Qed.

Lemma next_args_eq it : next_args it = match getNextNonSpace it with (Some arg, it') => arg :: next_args it' | (None, _) => [] end.
Proof. funelim (next_args it); [by rewrite E|by rewrite e]. Qed.

(** Words, blanks, and words with the blanks behind them. *)
Definition word (w : list Z) : Prop := w ≠ [] ∧ Forall (λ b, blank b = false) w.
Definition blanks (s : list Z) : Prop := Forall (λ b, blank b = true) s.
Fixpoint separated (l : list (list Z * list Z)) : Prop :=
  match l with
  | [] => True
  | (w, s) :: l' => word w ∧ blanks s ∧ (l' ≠ [] → s ≠ []) ∧ separated l'
  end.
Definition spell (l : list (list Z * list Z)) : list Z := l ≫= λ x, x.1 ++ x.2.

Lemma trim_start_blanks s w : blanks s → trim_start (s ++ w) = trim_start w.
Proof. induction 1 as [|b s Hb _ IH]; [done|]. cbn [app trim_start]. by rewrite Hb. Qed.
Lemma trim_start_word w s : word w → trim_start (w ++ s) = w ++ s.
Proof. intros [Hne Hw]. destruct Hw as [|b w Hb _]; [done|]. cbn [app trim_start]. by rewrite Hb. Qed.

Lemma word_reverse w : word w → word (reverse w).
Proof. intros [Hne Hw]. split; [|by apply Forall_reverse]. intros E. apply Hne. by rewrite <-(reverse_involutive w), E. Qed.

Lemma trim_word w : word w → trim w = w.
Proof.
  intros Hw. unfold trim. rewrite <-(app_nil_r w) at 1. rewrite trim_start_word, app_nil_r by done.
  rewrite <-(app_nil_r (reverse w)), trim_start_word, app_nil_r by (by apply word_reverse). by rewrite reverse_involutive.
Qed.

Lemma split_at_word w s : word w → split_at (w ++ s) = match s with b :: s' => if blank b then (w, Some s') else (w ++ (split_at s).1, (split_at s).2) | [] => (w, None) end.
Proof.
  intros [_ Hw]. induction Hw as [|b w Hb _ IH]; cbn [app split_at].
  - destruct s as [|b s]; [done|]. cbn [split_at]. destruct (blank b); [done|]. by destruct (split_at s).
  - rewrite Hb, IH. destruct s as [|c s]; [done|]. by destruct (blank c).
Qed.

Lemma next_args_blanks s it : blanks s → next_args (Some (s ++ it)) = next_args (Some it).
Proof.
  induction 1 as [|b s Hb _ IH]; [done|]. rewrite <-IH. cbn [app]. rewrite next_args_eq, getNextNonSpace_eq. cbn [next split_at]. rewrite Hb.
  cbn [trim length Nat.ltb Nat.leb reverse trim_start rev_append]. by rewrite <-next_args_eq.
Qed.

Lemma next_args_nil : next_args (Some []) = [] ∧ next_args None = [].
Proof. split; vm_compute; reflexivity. Qed.

Lemma next_args_spell l s : blanks s → separated l → next_args (Some (s ++ spell l)) = l.*1.
Proof.
  intros Hs Hl. rewrite next_args_blanks by done. clear Hs s. induction l as [|[w s] l IH]; [apply next_args_nil|].
  destruct Hl as (Hw & Hs & Hne & Hl). cbn [spell mbind list_bind fst snd fmap list_fmap]. fold (spell l). rewrite <-app_assoc.
  rewrite next_args_eq, getNextNonSpace_eq. cbn [next]. rewrite split_at_word by done.
  assert (Hpos : (0 <? length (trim w))%nat = true).
  { rewrite trim_word by done. destruct Hw as [Hn _]. by destruct w. }
  destruct Hs as [|b s Hb Hs]; cbn [app].
  - destruct l as [|x l]; [|by destruct Hne]. cbn [spell mbind list_bind]. rewrite Hpos, trim_word by done. by rewrite (proj2 next_args_nil).
  - rewrite Hb, Hpos, trim_word by done. by rewrite next_args_blanks, IH.
Qed.

(** Trimming leaves the words. *)
Lemma separated_last l w s : separated (l ++ [(w, s)]) → word w ∧ blanks s ∧ separated (l ++ [(w, [])]).
Proof.
  induction l as [|[u r] l IH]; cbn [app separated]; [intros (Hw & Hs & _); split_and!; [done..|by constructor|done|done]|].
  intros (Hu & Hr & Hne & Hl). destruct (IH Hl) as (Hw & Hs & Hl'). split_and!; [done..| |done]. intros _. apply Hne. by destruct l.
Qed.

Lemma trim_spell lead l : blanks lead → separated l → l ≠ [] → ∃ l', separated l' ∧ l'.*1 = l.*1 ∧ trim (lead ++ spell l) = spell l'.
Proof.
  intros Hlead Hl Hne. destruct l as [|[w s] l _] using rev_ind; [done|]. destruct (separated_last l w s Hl) as (Hw & Hs & Hl').
  exists (l ++ [(w, [])]). split; [done|]. split; [by rewrite !fmap_app|]. unfold trim. rewrite trim_start_blanks by done.
  assert (E : trim_start (spell (l ++ [(w, s)])) = spell (l ++ [(w, s)])).
  { destruct l as [|[u r] l]; unfold spell; cbn [app mbind list_bind fst snd]; rewrite <-?app_assoc; apply trim_start_word; [done|]. by destruct Hl. }
  rewrite E. unfold spell. rewrite !bind_app. cbn [mbind list_bind fst snd]. rewrite !app_nil_r, !reverse_app, <-app_assoc.
  rewrite trim_start_blanks by (by apply Forall_reverse). rewrite trim_start_word by (by apply word_reverse).
  by rewrite reverse_app, !reverse_involutive.
Qed.

(** The first word and the words behind it. *)
Lemma next_spell w s l : separated ((w, s) :: l) → ∃ it, next (Some (spell ((w, s) :: l))) = (Some w, it) ∧ next_args it = l.*1.
Proof.
  intros (Hw & Hs & Hne & Hl). unfold spell. cbn [mbind list_bind fst snd]. fold (spell l). rewrite <-app_assoc. cbn [next].
  rewrite split_at_word by done. destruct Hs as [|b s Hb Hs]; cbn [app].
  - destruct l; [|by destruct Hne]. eexists. split; [done|]. apply next_args_nil.
  - rewrite Hb. eexists. split; [done|]. by apply next_args_spell.
Qed.

(** ** Lines *)

(** The keys that edit the line, and what they make of it. *)
Definition key (b : Z) : Prop := b ≠ 10 ∧ b ≠ 13 ∧ b ≠ 3 ∧ b ≠ 4.
Definition edit (size : nat) (line : list Z) (b : Z) : list Z :=
  if bool_decide (b = 8 ∨ b = 127) then removelast line
  else if (b <? 32) || (length line =? size)%nat then line else line ++ [b].

(** A row of a terminal that shows each byte from 32 on in a cell. *)
Record Row := mkRow { cells : list Z; cursor : nat }.
Definition put (r : Row) (b : Z) : Row :=
  if b =? 7 then r
  else if b =? 8 then mkRow (cells r) (pred (cursor r))
  else mkRow (take (cursor r) (cells r) ++ b :: drop (S (cursor r)) (cells r)) (S (cursor r)).
Definition draw (effects : list Effect) (r : Row) : Row :=
  foldl (λ r e, match e with Out bs => foldl put r bs | Shutdown => r end) r effects.

(** The row shows the prompt, the line, and then blanks. *)
Definition shows (line : list Z) (r : Row) : Prop :=
  ∃ n, cells r = (PROMPT ++ line) ++ replicate n 32 ∧ cursor r = length (PROMPT ++ line).

Lemma draw_app e1 e2 r : draw (e1 ++ e2) r = draw e2 (draw e1 r).
Proof. apply foldl_app. Qed.

Lemma put_at u v b : b ≠ 7 → b ≠ 8 → put (mkRow (u ++ v) (length u)) b = mkRow (u ++ b :: drop 1 v) (S (length u)).
Proof.
  intros H7 H8. unfold put. rewrite (proj2 (Z.eqb_neq _ _) H7), (proj2 (Z.eqb_neq _ _) H8). cbn [cells cursor].
  rewrite take_app_length. do 3 f_equal. replace (S (length u)) with (length u + 1)%nat by lia. rewrite drop_app_add. done.
Qed.

Lemma shows_typed line b r : shows line r → 32 ≤ b → shows (line ++ [b]) (draw [Out [b]] r).
Proof.
  intros (n & Hc & Hk) Hb. destruct r as [cs k]. cbn [cells cursor] in *. subst cs k. cbn [draw foldl]. rewrite put_at by lia.
  exists (pred n). cbn [cells cursor]. rewrite (app_assoc PROMPT line [b]). split.
  - rewrite <-(app_assoc (PROMPT ++ line)). cbn [app]. by destruct n.
  - rewrite (length_app (PROMPT ++ line)). cbn [length]. lia.
Qed.

Lemma shows_erased line b r : shows (line ++ [b]) r → shows line (draw [Out [8; 32; 8]] r).
Proof.
  intros (n & Hc & Hk). destruct r as [cs k]. cbn [cells cursor] in *. subst cs k. cbn [draw foldl].
  assert (Hback : ∀ cs k, put (mkRow cs (S k)) 8 = mkRow cs k) by done.
  replace (length (PROMPT ++ line ++ [b])) with (S (length (PROMPT ++ line))) by (rewrite !length_app; cbn; lia).
  rewrite Hback, (app_assoc PROMPT), <-(app_assoc (PROMPT ++ line)), put_at, Hback by done. by exists (S n).
Qed.

(** What the keys do to the line and to the screen. *)
Lemma readLine_keys size keys : Forall key keys → ∀ line effects, ∃ drawn,
  (∀ input, readLine size (keys ++ input) line effects = readLine size input (foldl (edit size) line keys) (effects ++ drawn)) ∧
  ∀ r, shows line r → shows (foldl (edit size) line keys) (draw drawn r).
Proof.
  induction 1 as [|b keys (H10 & H13 & H3 & H4) _ IH]; intros line effects; [exists []; by rewrite app_nil_r|].
  cbn [app readLine foldl]. rewrite bool_decide_false by tauto. rewrite (proj2 (Z.eqb_neq _ _) H3), (proj2 (Z.eqb_neq _ _) H4).
  assert (Hnext : ∀ line' e, (∀ r, shows line r → shows line' (draw e r)) → ∃ drawn,
    (∀ input, readLine size (keys ++ input) line' (effects ++ e) = readLine size input (foldl (edit size) line' keys) (effects ++ drawn)) ∧
    ∀ r, shows line r → shows (foldl (edit size) line' keys) (draw drawn r)).
  { intros line' e He. destruct (IH line' (effects ++ e)) as (drawn & E & Hs). exists (e ++ drawn). split; [intros input; by rewrite E, app_assoc|].
    intros r Hr. rewrite draw_app. by apply Hs, He. }
  unfold edit at 2 4. case_bool_decide.
  - destruct line as [|x line _] using rev_ind.
    + destruct (Hnext [] []) as (drawn & E & Hs); [done|]. rewrite app_nil_r in E. by exists drawn.
    + rewrite length_app. cbn [length]. rewrite (proj2 (Nat.ltb_lt _ _)) by lia. rewrite removelast_last. apply Hnext. intros r. apply shows_erased.
  - destruct (Z.ltb_spec b 32); cbn [orb].
    + destruct (Hnext line []) as (drawn & E & Hs); [done|]. rewrite app_nil_r in E. by exists drawn.
    + destruct (length line =? size)%nat; apply Hnext; intros r Hr; [done|by apply shows_typed].
Qed.

Lemma edit_line size keys : ∀ line, (length line ≤ size)%nat → Forall (λ b, 32 ≤ b ∧ b ≠ 127) line →
  (length (foldl (edit size) line keys) ≤ size)%nat ∧ Forall (λ b, 32 ≤ b ∧ b ≠ 127) (foldl (edit size) line keys).
Proof.
  induction keys as [|b keys IH]; intros line Hl Hf; [done|]. cbn [foldl]. apply IH; unfold edit; case_bool_decide.
  - destruct line as [|x line _] using rev_ind; [done|]. rewrite removelast_last. rewrite length_app in Hl. lia.
  - destruct (Z.ltb_spec b 32); cbn [orb]; [done|]. destruct (Nat.eqb_spec (length line) size); [done|]. rewrite length_app. cbn [length]. lia.
  - destruct line as [|x line _] using rev_ind; [done|]. rewrite removelast_last. by apply Forall_app in Hf as [Hf _].
  - destruct (Z.ltb_spec b 32); cbn [orb]; [done|]. destruct (length line =? size)%nat; [done|]. apply Forall_app. split; [done|].
    apply Forall_singleton. lia.
Qed.

(** What ends a line: Enter gives it, ^C drops it, and ^D shuts the machine down. *)
Definition ended (stop : Z) (line : list Z) : list Z := if bool_decide (stop = 10 ∨ stop = 13) then line else [].
Definition echo_of (stop : Z) : list Effect :=
  if stop =? 3 then [Out (say "^C" ++ [13; 10])] else if stop =? 4 then [Out (say "^D" ++ [13; 10]); Shutdown] else [Out [13; 10]].

Lemma readLine_stop size stop rest line effects : ¬ key stop →
  readLine size (stop :: rest) line effects = (Some (ended stop line), rest, effects ++ echo_of stop).
Proof.
  intros Hs. unfold key in Hs. assert (stop = 10 ∨ stop = 13 ∨ stop = 3 ∨ stop = 4) as [-> |[-> |[-> | ->]]] by lia; done.
Qed.

(** C31: the shell's line editor, for every input.  The keys up to the first
    Enter, ^C or ^D, or to the end of the input, make a line: the keys with what
    backspace erased taken out, control characters dropped, and what does not fit
    the buffer left out.  It has no byte below a space, so it is a C string, and a
    terminal with a cell for each byte shows the prompt and exactly this line.  Enter gives the line and a new
    row; ^C gives an empty line; ^D asks for a shutdown and, if it comes back, gives
    an empty line; each with its echo, and nothing behind it is read.  Without any
    of them there is no line. *)
Theorem readLine_spec size keys : Forall key keys →
  let line := foldl (edit size) [] keys in
  ∃ drawn, (∀ stop rest, ¬ key stop → readLine size (keys ++ stop :: rest) [] [Out PROMPT] =
      (Some (ended stop line), rest, (Out PROMPT :: drawn) ++ echo_of stop)) ∧
    readLine size keys [] [Out PROMPT] = (None, [], Out PROMPT :: drawn) ∧
    (length line ≤ size)%nat ∧ Forall (λ b, 32 ≤ b ∧ b ≠ 127) line ∧ shows line (draw (Out PROMPT :: drawn) (mkRow [] 0)).
Proof.
  intros Hk line. destruct (readLine_keys size keys Hk [] [Out PROMPT]) as (drawn & E & Hs). exists drawn.
  destruct (edit_line size keys []) as [Hl Hf]; [cbn; lia|done|]. split; [|split; [|split; [done|split; [done|]]]].
  - intros stop rest Hstop. by rewrite E, readLine_stop.
  - rewrite <-(app_nil_r keys) at 1. by rewrite E.
  - apply (Hs (draw [Out PROMPT] (mkRow [] 0))). by exists 0%nat.
Qed.

(** ** Commands *)

Section run.
Context {W : Type} `{LX : Linux W}.
Implicit Types (s : Shell (W := W)) (w : W).

(** The bytes of the effects. *)
Definition printed (effects : list Effect) : list Z := effects ≫= λ e, match e with Out bs => bs | Shutdown => [] end.

(** The reads of [fd] give the bytes [bs] and then none, or, unless [ok], an error;
    the world goes from the first to the last. *)
Inductive reads (fd : Z) : W → list Z → bool → W → Prop :=
| reads_end w buffer w' : linux_read fd 4096 w = (0, buffer, w') → reads fd w [] true w'
| reads_error w r buffer w' : linux_read fd 4096 w = (r, buffer, w') → linux_errno r ≠ 0 → linux_errno r ≠ EINTR → reads fd w [] false w'
| reads_again w r buffer w' bs ok w'' : linux_read fd 4096 w = (r, buffer, w') → linux_errno r = EINTR → reads fd w' bs ok w'' → reads fd w bs ok w''
| reads_more w r buffer w' bs ok w'' : linux_read fd 4096 w = (r, buffer, w') → 0 < r ≤ 4096 → reads fd w' bs ok w'' →
    reads fd w (take (Z.to_nat r) buffer ++ bs) ok w''.

Lemma printed_app e1 e2 : printed (e1 ++ e2) = printed e1 ++ printed e2.
Proof. apply bind_app. Qed.

Lemma errno_small r : 0 ≤ r ≤ 4096 → linux_errno r = 0.
Proof. intros Hr. unfold linux_errno, as_isize. rewrite (proj2 (Z.ltb_lt r (2 ^ 63))) by lia. cbv zeta. by rewrite (proj2 (Z.ltb_ge r 0)), andb_false_r by lia. Qed.

Lemma call_ok {A} (f : W → A * W) s a w' : f (sh_world s) = (a, w') → call f s = (Ok a, mkShell w' (sh_input s) (sh_out s)).
Proof. intros E. unfold call. by rewrite E. Qed.

(** With a turn for each read, the loop prints what the reads give. *)
Lemma cat_loop_ok fd w bs ok w' : reads fd w bs ok w' → ∃ effects n0, printed effects = bs ∧ ∀ fuel input out, (n0 ≤ fuel)%nat →
  cat_loop fuel fd (mkShell w input out) = (if ok then Ok tt else Err ReadFailed, mkShell w' input (out ++ effects)).
Proof.
  induction 1 as [w buffer w1 E|w r buffer w1 E H0 H4|w r buffer w1 bs ok w2 E H4 _ (effects & n0 & Hp & IH)|w r buffer w1 bs ok w2 E Hr _ (effects & n0 & Hp & IH)].
  - exists [], 1%nat. split; [done|]. intros [|fuel] input out Hf; [lia|]. cbn [cat_loop]. rewrite (bind_ok _ _ _ _ _ (call_ok _ (mkShell w input out) _ _ E)).
    rewrite app_nil_r. done.
  - exists [], 1%nat. split; [done|]. intros [|fuel] input out Hf; [lia|]. cbn [cat_loop]. rewrite (bind_ok _ _ _ _ _ (call_ok _ (mkShell w input out) _ _ E)).
    rewrite (proj2 (Z.eqb_neq _ _) H4), (proj2 (Z.eqb_neq _ _) H0), app_nil_r. done.
  - exists effects, (S n0). split; [done|]. intros [|fuel] input out Hf; [lia|]. cbn [cat_loop].
    rewrite (bind_ok _ _ _ _ _ (call_ok _ (mkShell w input out) _ _ E)), H4. apply IH. lia.
  - exists (Out (take (Z.to_nat r) buffer) :: effects), (S n0). split; [cbn [printed mbind list_bind]; by rewrite <-Hp|].
    intros [|fuel] input out Hf; [lia|]. cbn [cat_loop]. rewrite (bind_ok _ _ _ _ _ (call_ok _ (mkShell w input out) _ _ E)).
    rewrite errno_small by lia. cbn [Z.eqb negb]. rewrite (proj2 (Z.eqb_neq r 0)) by lia. unfold bind at 1, assert.
    rewrite (proj2 (Z.leb_le _ _)) by lia. unfold ret at 1, bind at 1, print, modify. cbn [sh_world sh_input sh_out]. rewrite IH by lia.
    by rewrite <-app_assoc.
Qed.

(** The commands by the words that are left. *)
Lemma runSpawn_args it s : runSpawn it s = match next_args it with
  | [] => (Err InvalidArgs, s)
  | path :: argv =>
      let '(err, pid, w1) := efiks_spawn path argv (sh_world s) in
      let s1 := mkShell w1 (sh_input s) (sh_out s) in
      if err <? 0 then print (spawn_message err) s1
      else if 2 ^ 31 <=? pid then (Panic, s1)
      else let '(r, status, w2) := linux_waitpid pid w1 in
        let s2 := mkShell w2 (sh_input s) (sh_out s) in
        if linux_errno r =? 0 then print (child_message r status) s2 else (Err WaitFailed, s2)
  end.
Proof.
  unfold runSpawn. rewrite (next_args_eq it). destruct (getNextNonSpace it) as [[path|] it']; [|done].
  unfold bind at 1, call at 1. destruct (efiks_spawn path (next_args it') (sh_world s)) as [[err pid] w1]. destruct (err <? 0); [done|].
  unfold bind at 1, cast_i32. rewrite Z.leb_antisym. destruct (pid <? 2 ^ 31); cbn [negb]; [|done]. unfold ret, bind, call. cbn [sh_world].
  destruct (linux_waitpid pid w1) as [[r status] w2]. by destruct (linux_errno r =? 0).
Qed.

Lemma runCat_args fuel it s : runCat fuel it s = match next_args it with
  | [] => (Err InvalidArgs, s)
  | path :: _ =>
      let '(r, w1) := linux_open path (sh_world s) in
      let s1 := mkShell w1 (sh_input s) (sh_out s) in
      if linux_errno r =? 0 then
        (let! fd := cast_i32 r in
         let! o := attempt (cat_loop fuel fd) in
         call (λ w, (tt, linux_close fd w)) ;;;
         match o with inl _ => ret tt | inr e => fail e end) s1
      else (Err OpenFailed, s1)
  end.
Proof.
  unfold runCat. rewrite (next_args_eq it). destruct (getNextNonSpace it) as [[path|] it']; [|done].
  unfold bind at 1, call at 1. destruct (linux_open path (sh_world s)) as [r w1]. by destruct (linux_errno r =? 0).
Qed.

(** The whole of [cat] on a file that is open. *)
Lemma runCat_ok it path l s r w1 bs ok w2 : next_args it = path :: l → linux_open path (sh_world s) = (r, w1) → linux_errno r = 0 → r < 2 ^ 31 →
  reads r w1 bs ok w2 → ∃ effects n0, printed effects = bs ∧ ∀ fuel, (n0 ≤ fuel)%nat →
    runCat fuel it s = (if ok then Ok tt else Err ReadFailed, mkShell (linux_close r w2) (sh_input s) (sh_out s ++ effects)).
Proof.
  intros Ea Eo He Hr Hreads. destruct (cat_loop_ok r w1 bs ok w2 Hreads) as (effects & n0 & Hp & Hl). exists effects, n0. split; [done|].
  intros fuel Hf. rewrite runCat_args, Ea, Eo, He. cbn [Z.eqb]. unfold bind at 1, cast_i32. rewrite (proj2 (Z.ltb_lt _ _) Hr).
  unfold ret at 1, bind at 1, attempt. rewrite Hl by done. by destruct ok.
Qed.

(** What becomes of the result of a command. *)
Definition report (x : outcome ShellError unit * Shell (W := W)) : outcome EndOfStream unit * Shell (W := W) :=
  match x with
  | (Ok _, s') => (Ok tt, s')
  | (Err e, s') => print (error_message e) s'
  | (Panic, s') => (Panic, s')
  | (Diverge, s') => (Diverge, s')
  end.

(** A typed line, up to the command. *)
Lemma shell_round_words keys enter rest lead prog sp l out : Forall key keys → enter = 10 ∨ enter = 13 →
  blanks lead → separated ((prog, sp) :: l) → foldl (edit 1024) [] keys = lead ++ spell ((prog, sp) :: l) →
  ∃ drawn it, next_args it = l.*1 ∧ ∀ fuel w, shell_round fuel (mkShell w (keys ++ enter :: rest) out) =
    report (runProg fuel prog it (mkShell w rest (out ++ Out PROMPT :: drawn ++ [Out [13; 10]]))).
Proof.
  intros Hk He Hlead Hl Eline. destruct (readLine_keys 1024 keys Hk [] (out ++ [Out PROMPT])) as (drawn & E & _).
  destruct (trim_spell lead ((prog, sp) :: l) Hlead Hl) as ([|[w s'] l'] & Hl' & Ew & Et); [done|done|].
  assert (w = prog ∧ l'.*1 = l.*1) as [-> Ew'] by (by injection Ew).
  destruct (next_spell prog s' l' Hl') as (it & En & Ea). exists drawn, it. split; [by rewrite Ea|]. intros fuel v. unfold shell_round. cbn [sh_input sh_out sh_world].
  rewrite E. cbn [readLine]. rewrite bool_decide_true by done. rewrite Eline, Et, En, <-!app_assoc.
  unfold bind, attempt. by destruct (runProg fuel prog it _) as [[[]|e| |] s2].
Qed.

(** C32: a command line runs as it is typed.  If the line that the keys leave at
    Enter spells words with blanks between them and around, then a first word
    [spawn] makes the shell spawn the second word with the other words as its
    arguments, wait for the child and report how it ended, or say that one of the
    two calls failed; [cat] opens the file that the second word names, prints
    exactly the bytes that its reads give until one gives none, however often they
    are interrupted, and closes it, and says so if it cannot be opened or a read
    fails; each without a second word is an error; and any other first word does
    nothing.  Nothing behind Enter is read.  A pid of a child that is no [i32] ends
    the shell, and the descriptor of the file is taken to be one.  The keys are those
    of a line: a ^C or ^D among them would end it. *)
Theorem shell_runs_what_is_typed keys enter rest lead prog sp l w out : Forall key keys → enter = 10 ∨ enter = 13 →
  blanks lead → separated ((prog, sp) :: l) → foldl (edit 1024) [] keys = lead ++ spell ((prog, sp) :: l) →
  let s := mkShell w (keys ++ enter :: rest) out in
  ∃ drawn, let after w' effects := mkShell w' rest (out ++ Out PROMPT :: drawn ++ Out [13; 10] :: effects) in
    let said w' bs := (Ok tt, after w' [Out bs]) in
    if decide (prog = SPAWN) then
      match l.*1 with
      | [] => ∀ fuel, shell_round fuel s = said w (error_message InvalidArgs)
      | path :: argv => ∀ fuel, shell_round fuel s =
          let '(err, pid, w1) := efiks_spawn path argv w in
          if err <? 0 then said w1 (spawn_message err)
          else if 2 ^ 31 <=? pid then (Panic, after w1 [])
          else let '(r, status, w2) := linux_waitpid pid w1 in
            said w2 (if linux_errno r =? 0 then child_message r status else error_message WaitFailed)
      end
    else if decide (prog = CAT) then
      match l.*1 with
      | [] => ∀ fuel, shell_round fuel s = said w (error_message InvalidArgs)
      | path :: _ =>
          let '(r, w1) := linux_open path w in
          if linux_errno r =? 0 then ∀ bs ok w2, r < 2 ^ 31 → reads r w1 bs ok w2 →
            ∃ effects n0, printed effects = bs ++ (if ok then [] else error_message ReadFailed) ∧
              ∀ fuel, (n0 ≤ fuel)%nat → shell_round fuel s = (Ok tt, after (linux_close r w2) effects)
          else ∀ fuel, shell_round fuel s = said w1 (error_message OpenFailed)
      end
    else ∀ fuel, shell_round fuel s = (Ok tt, after w []).
Proof.
  intros Hk He Hlead Hl Eline s. destruct (shell_round_words keys enter rest lead prog sp l out Hk He Hlead Hl Eline) as (drawn & it & Ea & Hround).
  exists drawn. cbv zeta. set (s1 := λ w, mkShell w rest (out ++ Out PROMPT :: drawn ++ [Out [13; 10]])).
  assert (Hafter : ∀ w' effects, mkShell w' rest (out ++ Out PROMPT :: drawn ++ Out [13; 10] :: effects) = mkShell w' rest (sh_out (s1 w) ++ effects)).
  { intros w' effects. f_equal. cbn [sh_out s1]. rewrite <-app_assoc. cbn [app]. by rewrite <-app_assoc. }
  assert (Hs : ∀ fuel, shell_round fuel s = report (runProg fuel prog it (s1 w))) by (intros; apply Hround).
  clear Hround. clearbody s. unfold runProg in Hs. rewrite <-Ea. destruct (decide (prog = SPAWN)); [|destruct (decide (prog = CAT))].
  - destruct (next_args it) as [|path argv] eqn:En; intros fuel; rewrite Hs, runSpawn_args, En; [by rewrite Hafter|]. cbn [sh_world s1].
    destruct (efiks_spawn path argv w) as [[err pid] w1]. destruct (err <? 0); [by rewrite Hafter|].
    destruct (2 ^ 31 <=? pid); [by rewrite Hafter, app_nil_r|]. destruct (linux_waitpid pid w1) as [[r status] w2].
    destruct (linux_errno r =? 0); by rewrite Hafter.
  - destruct (next_args it) as [|path argv] eqn:En; [intros fuel; by rewrite Hs, runCat_args, En, Hafter|].
    destruct (linux_open path w) as [r w1] eqn:Eo. destruct (Z.eqb_spec (linux_errno r) 0) as [H0|H0].
    + intros bs ok w2 Hr Hreads. destruct (runCat_ok it path argv (s1 w) r w1 bs ok w2 En Eo H0 Hr Hreads) as (effects & n0 & Hp & Hc).
      exists (effects ++ if ok then [] else [Out (error_message ReadFailed)]), n0. split; [rewrite printed_app, Hp; by destruct ok|].
      intros fuel Hf. rewrite Hs, Hc, Hafter by done. destruct ok; [by rewrite app_nil_r|]. by rewrite app_assoc.
    + intros fuel. rewrite Hs, runCat_args, En. cbn [sh_world s1]. rewrite Eo, (proj2 (Z.eqb_neq _ _) H0). by rewrite Hafter.
  - intros fuel. by rewrite Hs, Hafter, app_nil_r.
Qed.
End run.

(** What the shell says of a child that the kernel ended with an exit code that
    the system call takes: its number and that code. *)
Lemma shell_reports_the_exit_code child e : 0 ≤ e ≤ 127 →
  child_message child (raw_wait_status (WExited e)) =
    say "child " ++ dec child ++ say " finished execution with code " ++ dec e ++ [10].
Proof.
  intros He. unfold child_message, IFEXITED, EXITSTATUS, raw_wait_status. rewrite (Z.mod_small e) by (change (2 ^ 8) with 256; lia).
  change 0x7f with (Z.ones 7). rewrite Z.land_ones, Z.shiftl_mul_pow2 by lia. assert (Hm : (e * 2 ^ 8) mod 2 ^ 7 = 0) by (apply Z.mod_divide; [done|exists (2 * e); lia]). rewrite Hm.
  assert (Hs : Z.shiftr (Z.land (e * 2 ^ 8) 65280) 8 = e); [|by rewrite Hs].
  rewrite Z.shiftr_land, Z.shiftr_div_pow2, Z.div_mul by done. change (Z.shiftr 65280 8) with (Z.ones 8). rewrite Z.land_ones by lia.
  apply Z.mod_small. change (2 ^ 8) with 256. lia.
Qed.

(** The digits are those of the number. *)
Lemma digits_value base fuel : 2 ≤ base ≤ 16 → ∀ n, 0 ≤ n < 2 ^ Z.of_nat fuel →
  foldl (λ v d, v * base + (if d <? 58 then d - 48 else d - 87)) 0 (digits fuel base n) = n.
Proof.
  intros Hb. induction fuel as [|fuel IH]; intros n Hn; [change (2 ^ Z.of_nat 0) with 1 in Hn; cbn; lia|]. cbn [digits].
  assert (Hd : ∀ d, 0 ≤ d < base → (if digit d <? 58 then digit d - 48 else digit d - 87) = d).
  { intros d Hd. unfold digit. destruct (Z.ltb_spec d 10); [rewrite (proj2 (Z.ltb_lt _ _)) by lia|rewrite (proj2 (Z.ltb_ge _ _)) by lia]; lia. }
  destruct (Z.ltb_spec n base); [cbn [foldl]; rewrite Hd; lia|].
  rewrite foldl_app. cbn [foldl]. rewrite IH, Hd; [rewrite (Z.div_mod n base) at 3 by lia; lia|apply Z.mod_pos_bound; lia|].
  rewrite Nat2Z.inj_succ, Z.pow_succ_r in Hn by lia. split; [apply Z.div_pos; lia|]. apply Z.div_lt_upper_bound; nia.
Qed.

(** ** Witnesses *)

(** [spawnn], with the second n erased, [ /a  b], and a tab. *)
Definition typed_keys : list Z := [115; 112; 97; 119; 110; 110; 127; 32; 47; 97; 32; 32; 98; 9].

Lemma readLine_spec_witness : ∃ drawn,
  readLine 1024 (typed_keys ++ [13; 65]) [] [Out PROMPT] =
    (Some [115; 112; 97; 119; 110; 32; 47; 97; 32; 32; 98], [65], (Out PROMPT :: drawn) ++ [Out [13; 10]]) ∧
  readLine 1024 (typed_keys ++ [4; 65]) [] [Out PROMPT] = (Some [], [65], (Out PROMPT :: drawn) ++ [Out [94; 68; 13; 10]; Shutdown]).
Proof.
  destruct (readLine_spec 1024 typed_keys) as (drawn & E & _); [by repeat constructor|]. exists drawn. split.
  - apply (E 13 [65]). unfold key. lia.
  - apply (E 4 [65]). unfold key. lia.
Defined.

(** A world of one file, whose bytes that are not read yet are its state. *)
#[export] Instance one_file : Linux (list Z) := {|
  efiks_spawn _ _ w := (0, 7, w);
  linux_waitpid pid w := (pid, 0x2a00, w);
  linux_open path w := (if bool_decide (path = [47; 97]) then 3 else 2 ^ 64 - 2, w);
  linux_read _ len w := (Z.min len (Z.of_nat (length w)), take (Z.to_nat len) w, drop (Z.to_nat len) w);
  linux_close _ w := w;
|}.

(** [cat /a] prints the file. *)
Definition cat_keys : list Z := [99; 97; 116; 32; 47; 97].
Lemma shell_runs_what_is_typed_witness : ∃ drawn effects fuel,
  shell_round fuel (mkShell [72; 105; 10] (cat_keys ++ [13; 65]) []) = (Ok tt, mkShell [] [65] (Out PROMPT :: drawn ++ Out [13; 10] :: effects)) ∧
  printed effects = [72; 105; 10].
Proof.
  destruct (shell_runs_what_is_typed cat_keys 13 [65] [] CAT [32] [([47; 97], [])] [72; 105; 10] []) as (drawn & H);
    [by repeat constructor|by right|by constructor|repeat split; try done; by repeat constructor|reflexivity|].
  destruct (H [72; 105; 10] true []) as (effects & n0 & Hp & E); [reflexivity| |].
  - apply (reads_more 3 [72; 105; 10] 3 [72; 105; 10] [] [] true []); [reflexivity|lia|]. by apply (reads_end 3 [] []).
  - exists drawn, effects, n0. split; [by apply E|exact Hp].
Defined.
