(* ===== verification/Virtio.v ===== *)
(** * The virtio block driver

    [kernel/src/driver/virtio/]: [mmio.rs], [virtqueue.rs], [mod.rs] and
    [block.rs].  The device is a class: its registers, and a step in which it
    looks at the queue it shares with the driver.  The class [VirtioBlkOk] says
    what the virtio specification promises of it: it serves an available
    request after finitely many steps, and then moves the used index.

    Memory the device can reach is [mem]: blocks of bytes by physical address.
    The driver spins, so its loop has fuel; with the device's promise it ends. *)

From S2P Require Import Prelude Errors Addr Sv39 Vfs Vsfs VsfsIO.

(** ** Registers ([mmio.rs]) *)

Abbreviation VIRTIO_MMIO_MAGIC := 0x74726976.
Abbreviation VIRTIO_MMIO_VERSION := 2.

Inductive RegisterOffset :=
  | Magic | Version | DeviceId | VendorId | DeviceFeatures | DeviceFeaturesSel
  | DriverFeatures | DriverFeaturesSel | QueueSel | QueueSizeMax | QueueSize
  | QueueReady | QueueNotify | InterruptStatus | InterruptAck | DeviceStatus
  | QueueDescLow | QueueDescHigh | QueueDriverLow | QueueDriverHigh
  | QueueDeviceLow | QueueDeviceHigh | SHMSel | SHMLenLow | SHMLenHigh
  | SHMBaseLow | SHMBaseHigh | QueueReset | ConfigGeneration | Config.

#[export] Instance RegisterOffset_eq : EqDecision RegisterOffset.
Proof. solve_decision. Defined.

(** [self as usize]. *)
Definition reg_offset (r : RegisterOffset) : Z :=
  match r with
  | Magic => 0x0 | Version => 0x4 | DeviceId => 0x8 | VendorId => 0xc
  | DeviceFeatures => 0x10 | DeviceFeaturesSel => 0x14
  | DriverFeatures => 0x20 | DriverFeaturesSel => 0x24
  | QueueSel => 0x30 | QueueSizeMax => 0x34 | QueueSize => 0x38
  | QueueReady => 0x44 | QueueNotify => 0x50
  | InterruptStatus => 0x60 | InterruptAck => 0x64 | DeviceStatus => 0x70
  | QueueDescLow => 0x80 | QueueDescHigh => 0x84
  | QueueDriverLow => 0x90 | QueueDriverHigh => 0x94
  | QueueDeviceLow => 0xa0 | QueueDeviceHigh => 0xa4
  | SHMSel => 0xac | SHMLenLow => 0xb0 | SHMLenHigh => 0xb4
  | SHMBaseLow => 0xb8 | SHMBaseHigh => 0xbc
  | QueueReset => 0xc0 | ConfigGeneration => 0xfc | Config => 0x100
  end.

(** The flags of [struct Status] ([mod.rs]). *)
Abbreviation ACK := 1.
Abbreviation DRIVER := 2.
Abbreviation FAILED := 128.
Abbreviation FEATURES_OK := 8.
Abbreviation DRIVER_OK := 4.
Abbreviation DEVICE_NEEDS_RESET := 64.
Abbreviation STATUS_ALL := 207.

Abbreviation VIRTIO_F_VERSION_1 := (Z.shiftl 1 0).
Abbreviation VIRTIO0 := 0xffffffd610001000.
Abbreviation VIRTIO_STRIDE := 0x1000.
Abbreviation VIRTIO_COUNT := 8.

(** ** The queue ([virtqueue.rs]) *)

Record Descriptor := mkDesc { d_addr : Z; d_len : Z; d_flags : Z; d_next : Z }.

Abbreviation DESC_NEXT := (Z.shiftl 1 0).
Abbreviation DESC_WRITE := (Z.shiftl 1 1).

Definition QUEUE_SIZE : Z := 16.

(** [size_of] the structures of the queue. *)
Definition DESC_BYTES : Z := 16.
Definition AVAIL_BYTES : Z := 2 + 2 + 2 * QUEUE_SIZE.

(** The descriptors at [desc_ptr], the rings at [avail_ptr] and [used_ptr], and
    the blocks requests point to. *)
Record Shared := mkShared {
  descs : list Descriptor;
  avail_idx : Z;
  avail_ring : list Z;
  used_idx : Z;
  mem : gmap Z (list Z);
}.

(** The queue in a block of bytes, by where its parts start. *)
Definition shared_of (bs : list Z) (desc_start avail_start used_start : Z) (m : gmap Z (list Z)) : Shared :=
  mkShared
    ((λ i, mkDesc (field (desc_start + 16 * i) 8 bs) (field (desc_start + 16 * i + 8) 4 bs)
             (field (desc_start + 16 * i + 12) 2 bs) (field (desc_start + 16 * i + 14) 2 bs))
       <$> seqZ 0 QUEUE_SIZE)
    (field (avail_start + 2) 2 bs)
    ((λ i, field (avail_start + 4 + 2 * i) 2 bs) <$> seqZ 0 QUEUE_SIZE)
    (field (used_start + 2) 2 bs) m.

(** ** The device *)

(** Accesses to 32-bit registers by address, and what the device does with the
    shared memory between two accesses of the driver. *)
Class VirtioDev (D : Type) := {
  mmio_read : Z → D → Z * D;
  mmio_write : Z → Z → D → D;
  dev_step : D * Shared → D * Shared;
}.

(** The global allocator behind [Box::new]: the virtual address of a new block
    of some size. *)
Class KernelHeap := { new_box : gmap Z (list Z) → Z → Z }.

(** ** The driver ([block.rs]) *)

Record VirtioBlkDriver := mkDriver {
  virtqueue : Z; desc_ptr : Z; avail_ptr : Z; used_ptr : Z;
  device_base : Z; last_used_idx : Z }.

(** [enum VirtioBlkReqType], by its discriminant. *)
Definition ReqIn : Z := 0.
Definition ReqOut : Z := 1.

(** [VirtioBlkStatus::Ok]. *)
Abbreviation StatusOk := 0.

(** [struct VirtioBlkReqHeader] in memory. *)
Definition req_header (ty sector : Z) : list Z := le 4 ty ++ le 4 0 ++ le 8 sector.
Definition HEADER_BYTES : Z := 16.

(** The driver, what it shares with the device, and the register writes so
    far. *)
Record Blk (D : Type) := mkBlk {
  drv : VirtioBlkDriver; shared : Shared; vdev : D; writes : list (RegisterOffset * Z) }.
Arguments mkBlk {D} _ _ _ _.
Arguments drv {D} b.
Arguments shared {D} b.
Arguments vdev {D} b.
Arguments writes {D} b.

Section driver.
Context {D : Type} `{VirtioDev D} `{BF : Bitflags} `{FB : FromBits} `{KH : KernelHeap}.
Context {E : Type}.
Abbreviation BM := (M (Blk D) E).

Definition set_shared (f : Shared → Shared) : BM unit :=
  modify (λ b, mkBlk (drv b) (f (shared b)) (vdev b) (writes b)).
Definition set_driver (f : VirtioBlkDriver → VirtioBlkDriver) : BM unit :=
  modify (λ b, mkBlk (f (drv b)) (shared b) (vdev b) (writes b)).

(** [read32] and [write32]. *)
Definition read32 (base : Z) (r : RegisterOffset) : BM Z := λ b,
  let '(v, d) := mmio_read (base + reg_offset r) (vdev b) in
  (Ok v, mkBlk (drv b) (shared b) d (writes b)).
Definition write32 (base : Z) (r : RegisterOffset) (v : Z) : BM unit := λ b,
  (Ok tt, mkBlk (drv b) (shared b) (mmio_write (base + reg_offset r) v (vdev b)) (writes b ++ [(r, v)])).

(** [find_virtio_blk]. *)
Fixpoint find_from (slots : list Z) : BM (option Z) :=
  match slots with
  | [] => ret None
  | i :: slots =>
      let base := VIRTIO0 + i * VIRTIO_STRIDE in
      let! magic := read32 base Magic in
      let! version := read32 base Version in
      let! device_id := read32 base DeviceId in
      if (magic =? 0x74726976) && (version =? 2) && (device_id =? 2)
      then ret (Some base) else find_from slots
  end.
Definition find_virtio_blk : BM (option Z) := find_from (seqZ 0 VIRTIO_COUNT).

(** ** Requests *)

Definition set_mem (f : gmap Z (list Z) → gmap Z (list Z)) (s : Shared) : Shared :=
  mkShared (descs s) (avail_idx s) (avail_ring s) (used_idx s) (f (mem s)).

(** [Box::new], and the end of a box's life. *)
Definition box (bs : list Z) : BM Z :=
  let! s := gets shared in
  let va := new_box (mem s) (Z.of_nat (length bs)) in
  set_shared (set_mem (<[va - KERNEL_DIRECT_MAPPING_BASE := bs]>)) ;;; ret va.
Definition drop_box (va : Z) : BM unit :=
  set_shared (set_mem (delete (va - KERNEL_DIRECT_MAPPING_BASE))).

(** [*desc_ptr.offset(i) = d]. *)
Definition set_desc (i : nat) (d : Descriptor) : BM unit :=
  set_shared (λ s, mkShared (<[i := d]> (descs s)) (avail_idx s) (avail_ring s) (used_idx s) (mem s)).

(** A volatile read of [used.idx]; the device has run since the last one. *)
Definition poll : BM Z := λ b,
  let '(d, s) := dev_step (vdev b, shared b) in
  (Ok (used_idx s), mkBlk (drv b) s d (writes b)).

(** The loop of [operate]. *)
Fixpoint spin (fuel : nat) : BM unit :=
  match fuel with
  | O => diverge
  | S fuel' =>
      let! used := poll in
      let! dr := gets drv in
      if used =? last_used_idx dr then spin fuel' else ret tt
  end.

(** [VirtioBlkDriver::operate]; the fuel of its loop depends on where it starts. *)
Definition operate (fuel : D * Shared → nat) (status : Z) : BM Z :=
  let! s := gets shared in
  let slot := avail_idx s mod QUEUE_SIZE in
  set_shared (λ s, mkShared (descs s) (avail_idx s) (<[Z.to_nat slot := 0]> (avail_ring s))
    (used_idx s) (mem s)) ;;;
  set_shared (λ s, mkShared (descs s) ((avail_idx s + 1) mod 2 ^ 16) (avail_ring s)
    (used_idx s) (mem s)) ;;;
  let! dr := gets drv in
  write32 (device_base dr) QueueNotify 0 ;;;
  let! b := gets (λ b, b) in
  spin (fuel (vdev b, shared b)) ;;;
  let! new_used_idx := poll in
  set_driver (λ dr, mkDriver (virtqueue dr) (desc_ptr dr) (avail_ptr dr) (used_ptr dr)
    (device_base dr) new_used_idx) ;;;
  let! s := gets shared in
  let! st := lift (unwrap (mem s !! (status - KERNEL_DIRECT_MAPPING_BASE) ≫= head)) in
  drop_box status ;;; ret st.

(** [write] and [read], with the buffer at [data]. *)
Definition blk_write (fuel : D * Shared → nat) (data sector : Z) : BM Z :=
  let! req := box (req_header ReqOut sector) in
  let! status := box [0xff] in
  let! pa := lift (virt_to_phys req) in
  set_desc 0 (mkDesc pa HEADER_BYTES DESC_NEXT 1) ;;;
  let! pa := lift (virt_to_phys data) in
  set_desc 1 (mkDesc pa 512 DESC_NEXT 2) ;;;
  let! pa := lift (virt_to_phys status) in
  set_desc 2 (mkDesc pa 1 DESC_WRITE 0) ;;;
  let! st := operate fuel status in
  drop_box req ;;; ret st.

Definition blk_read (fuel : D * Shared → nat) (data sector : Z) : BM Z :=
  let! req := box (req_header ReqIn sector) in
  let! status := box [0xff] in
  let! pa := lift (virt_to_phys req) in
  set_desc 0 (mkDesc pa HEADER_BYTES DESC_NEXT 1) ;;;
  let! pa := lift (virt_to_phys data) in
  set_desc 1 (mkDesc pa 512 (bf_bitor DESC_NEXT DESC_WRITE) 2) ;;;
  let! pa := lift (virt_to_phys status) in
  set_desc 2 (mkDesc pa 1 DESC_WRITE 0) ;;;
  let! st := operate fuel status in
  drop_box req ;;; ret st.
End driver.

(** ** Set-up *)

Section setup.
Context {D : Type} `{VirtioDev D} `{BF : Bitflags} `{FB : FromBits}.

(** [mmio::init_device]. *)
Definition init_device (base device_features : Z) (device_init : M (Blk D) unit unit) : M (Blk D) unit unit :=
  write32 base DeviceStatus 0 ;;;
  write32 base DeviceStatus ACK ;;;
  write32 base DeviceStatus (bf_bitor ACK DRIVER) ;;;
  write32 base DeviceFeatures device_features ;;;
  write32 base DeviceStatus (bf_bitor (bf_bitor ACK DRIVER) FEATURES_OK) ;;;
  let! bits := read32 base DeviceStatus in
  match bf_from_bits STATUS_ALL bits with
  | Some status => if negb (bf_contains status FEATURES_OK) then fail tt else ret tt
  | None => fail tt
  end ;;;
  device_init ;;;
  write32 base DeviceStatus (bf_bitor (bf_bitor (bf_bitor ACK DRIVER) FEATURES_OK) DRIVER_OK).

(** [save_to_virtqueue]: the pointer and the offset. *)
Definition save_to_virtqueue (align base virtqueue_base alignment_base : Z)
    (low_reg high_reg : RegisterOffset) : M (Blk D) unit (Z * Z) :=
  let! offset := lift (align_up alignment_base align) in
  let! ptr := lift (add_ov 64 virtqueue_base offset) in
  let! ptr_pa := lift (virt_to_phys ptr) in
  assert (ptr_pa mod align =? 0) ;;;
  write32 base low_reg (ptr_pa mod 2 ^ 32) ;;;
  write32 base high_reg (Z.shiftr ptr_pa 32 mod 2 ^ 32) ;;;
  ret (ptr, offset).

(** [init]; [ptr] and [bytes] are the block [alloc] gives and what is in it. *)
Definition init (base ptr : Z) (bytes : list Z) : M (Blk D) unit unit :=
  init_device base 0
    (write32 base DeviceFeaturesSel 1 ;;;
     write32 base DriverFeatures VIRTIO_F_VERSION_1 ;;;
     write32 base DriverFeaturesSel 0 ;;;
     write32 base DriverFeatures 0) ;;;
  write32 base QueueSel 0 ;;;
  let! ready := read32 base QueueReady in
  if negb (ready =? 0) then fail tt else
  let! n := read32 base QueueSizeMax in
  if n =? 0 then fail tt else
  write32 base QueueSize QUEUE_SIZE ;;;
  let! p := save_to_virtqueue 16 base ptr 0 QueueDescLow QueueDescHigh in
  let '(desc, desc_start) := p in
  let! offset := lift (add_ov 64 desc_start (DESC_BYTES * QUEUE_SIZE)) in
  let! p := save_to_virtqueue 2 base ptr offset QueueDriverLow QueueDriverHigh in
  let '(avail, avail_start) := p in
  let! offset := lift (add_ov 64 avail_start AVAIL_BYTES) in
  let! p := save_to_virtqueue 4 base ptr offset QueueDeviceLow QueueDeviceHigh in
  let '(used, used_start) := p in
  set_driver (λ dr, mkDriver ptr desc avail used base (last_used_idx dr)) ;;;
  set_shared (λ s, shared_of bytes desc_start avail_start used_start (mem s)) ;;;
  write32 base QueueReady 1.
End setup.

(** ** [impl BlockDevice for VirtioBlkDriver] *)

Section trait.
Context {D : Type} `{VirtioDev D} `{BF : Bitflags} `{KH : KernelHeap}.

Definition read_sector_at (fuel : D * Shared → nat) (sector buf : Z) : M (Blk D) VfsError unit :=
  let! status := blk_read fuel buf sector in
  if status =? StatusOk then ret tt else fail DeviceIO.

Definition write_sector_at (fuel : D * Shared → nat) (sector buf : Z) : M (Blk D) VfsError unit :=
  let! status := blk_write fuel buf sector in
  if status =? StatusOk then ret tt else fail DeviceIO.

(** A caller that has its buffer in memory: [buf] holds [bs] during the call. *)
Definition with_buf (bs : list Z) (f : Z → M (Blk D) VfsError unit) : M (Blk D) VfsError (list Z) :=
  let! buf := box bs in
  let! r := attempt (f buf) in
  let! s := gets shared in
  let! out := lift (unwrap (mem s !! (buf - KERNEL_DIRECT_MAPPING_BASE))) in
  drop_box buf ;;;
  match r with inl _ => ret out | inr e => fail e end.
End trait.

(** ** What the device promises *)

(** The request whose chain starts at descriptor [head]: its type, its sector,
    and where its data and its status byte are. *)
Definition request (s : Shared) (head : nat) : option (Z * Z * Z * Z) :=
  d0 ← descs s !! head;
  d1 ← descs s !! Z.to_nat (d_next d0);
  d2 ← descs s !! Z.to_nat (d_next d1);
  hdr ← mem s !! d_addr d0;
  let ty := field 0 4 hdr in
  if (d_len d0 =? 16) && (Z.of_nat (length hdr) =? 16) && (d_flags d0 =? 1) &&
     (d_len d1 =? 512) && (d_flags d1 =? if ty =? ReqIn then 3 else 1) &&
     (d_len d2 =? 1) && (d_flags d2 =? 2) && ((ty =? ReqIn) || (ty =? ReqOut))
  then Some (ty, field 8 8 hdr, d_addr d1, d_addr d2) else None.

(** What a request of type [ty] for sector [sec] with its data at [data] does to
    the disk and to memory, when it ends with status [st]. *)
Definition effect (ty sec data st : Z) (disk disk' : Z → option (list Z)) (m m' : gmap Z (list Z)) : Prop :=
  if ty =? ReqIn then
    disk' = disk ∧ is_Some (m' !! data) ∧ (st = StatusOk → disk sec = m' !! data)
  else
    m' !! data = m !! data ∧
    if st =? StatusOk then is_Some (disk sec) ∧
      ∀ k, disk' k = if decide (k = sec) then m !! data else disk k
    else (∀ k, k ≠ sec → disk' k = disk k) ∧ (is_Some (disk' sec) ↔ is_Some (disk sec)).

(** Section 2.7 of the virtio specification for the queue, 5.2.6 for the
    requests of a block device. *)
Class VirtioBlkOk (D : Type) `{VirtioDev D} (base : Z) := {
  disk : D → Z → option (list Z);
  served : D → Z;
  delay : D * Shared → nat;
  disk_len d n b : disk d n = Some b → length b = 512%nat ∧ Forall is_u8 b;
  disk_range d n : is_Some (disk d n) → is_u64 n;
  (** Register accesses do not reach the disk, and only a reset forgets what
      was served. *)
  read_reg_spec r d : disk (mmio_read (base + reg_offset r) d).2 = disk d ∧
    served (mmio_read (base + reg_offset r) d).2 = served d;
  write_reg_spec r v d : disk (mmio_write (base + reg_offset r) v d) = disk d ∧
    served (mmio_write (base + reg_offset r) v d) =
      if decide (r = DeviceStatus ∧ v = 0) then 0 else served d;
  (** Nothing available: nothing happens. *)
  idle_spec d s : served d = avail_idx s →
    (dev_step (d, s)).2 = s ∧ disk (dev_step (d, s)).1 = disk d ∧
    served (dev_step (d, s)).1 = served d;
  (** Until it is done the device leaves the used index alone. *)
  busy_spec d s k : served d ≠ avail_idx s → (k ≤ delay (d, s))%nat →
    used_idx (Nat.iter k dev_step (d, s)).2 = used_idx s;
  done_spec d s head ty sec data status :
    avail_idx s = (served d + 1) mod 2 ^ 16 →
    avail_ring s !! Z.to_nat (served d mod QUEUE_SIZE) = Some head →
    request s (Z.to_nat head) = Some (ty, sec, data, status) →
    is_Some (mem s !! data) → is_Some (mem s !! status) → data ≠ status →
    ∃ d' s' st, Nat.iter (S (delay (d, s))) dev_step (d, s) = (d', s') ∧
      descs s' = descs s ∧ avail_idx s' = avail_idx s ∧ avail_ring s' = avail_ring s ∧
      used_idx s' = (used_idx s + 1) mod 2 ^ 16 ∧ served d' = avail_idx s ∧
      mem s' !! status = Some [st] ∧
      (∀ a, a ≠ status → a ≠ data → mem s' !! a = mem s !! a) ∧
      effect ty sec data st (disk d) (disk d') (mem s) (mem s');
}.

(** New boxes are in the direct mapping, apart from all live ones. *)
Class KernelHeapOk (KH : KernelHeap) : Prop := {
  new_box_spec m n : KERNEL_DIRECT_MAPPING_BASE ≤ new_box m n ∧
    m !! (new_box m n - KERNEL_DIRECT_MAPPING_BASE) = None;
}.

(** ** The driver implements a block device *)

Section correct.
Context {D : Type} `{VD : VirtioDev D} {base : Z} `{DO : !VirtioBlkOk D base}.
Context `{BF : Bitflags} `{HBF : !BitflagsOk BF} `{KH : KernelHeap} `{HK : !KernelHeapOk KH}.

(** Between requests: driver and device agree on both indices. *)
Definition idle (b : Blk D) : Prop :=
  device_base (drv b) = base ∧ last_used_idx (drv b) = used_idx (shared b) ∧
  served (vdev b) = avail_idx (shared b) ∧
  length (descs (shared b)) = 16%nat ∧ length (avail_ring (shared b)) = 16%nat ∧
  in_width 16 (used_idx (shared b)) ∧ in_width 16 (avail_idx (shared b)).

(** Enough fuel. *)
Definition patience (p : D * Shared) : nat := S (delay p).

Lemma spin_iter {E} n (b : Blk D) :
  (∀ k, (1 ≤ k ≤ n)%nat →
    used_idx (Nat.iter k dev_step (vdev b, shared b)).2 = last_used_idx (drv b)) →
  used_idx (Nat.iter (S n) dev_step (vdev b, shared b)).2 ≠ last_used_idx (drv b) →
  spin (E := E) (S n) b = (Ok tt,
    let '(d, s) := Nat.iter (S n) dev_step (vdev b, shared b) in mkBlk (drv b) s d (writes b)).
Proof.
  revert b. induction n as [|n IH]; intros b Hbusy Hdone.
  - cbn in *. unfold bind, poll. destruct (dev_step (vdev b, shared b)) as [d s]. cbn in *.
    by rewrite (proj2 (Z.eqb_neq _ _) Hdone).
  - pose proof (Hbusy 1%nat ltac:(lia)) as H1.
    assert (∀ k, Nat.iter (S k) dev_step (vdev b, shared b) =
      Nat.iter k dev_step (dev_step (vdev b, shared b))) as Hit by (intros; apply Nat.iter_succ_r).
    rewrite Hit in *. cbn [spin]. unfold bind at 1, poll at 1.
    destruct (dev_step (vdev b, shared b)) as [d s] eqn:Hs. cbn in H1.
    unfold bind, gets. cbn [drv]. rewrite H1, Z.eqb_refl.
    apply (IH (mkBlk (drv b) s d (writes b))); cbn [drv vdev shared].
    + intros k Hk. specialize (Hbusy (S k) ltac:(lia)). by rewrite Hit in Hbusy.
    + done.
Qed.

(** Only the block at [data] matters. *)
Lemma effect_mem ty sec data st dk dk' m m' n n' : n !! data = m !! data → n' !! data = m' !! data →
  effect ty sec data st dk dk' m m' → effect ty sec data st dk dk' n n'.
Proof. unfold effect. by intros -> ->. Qed.

(** The device serves the request the driver has just made available. *)
Lemma request_served d s ty sec data status :
  let s1 := mkShared (descs s) ((avail_idx s + 1) mod 2 ^ 16)
    (<[Z.to_nat (avail_idx s mod QUEUE_SIZE) := 0]> (avail_ring s)) (used_idx s) (mem s) in
  served d = avail_idx s → length (avail_ring s) = 16%nat → in_width 16 (used_idx s) →
  in_width 16 (avail_idx s) → request s 0 = Some (ty, sec, data, status) →
  is_Some (mem s !! data) → is_Some (mem s !! status) → data ≠ status →
  ∃ d2 s2 d3 st, Nat.iter (S (delay (d, s1))) dev_step (d, s1) = (d2, s2) ∧
    dev_step (d2, s2) = (d3, s2) ∧
    (∀ k, (k ≤ delay (d, s1))%nat → used_idx (Nat.iter k dev_step (d, s1)).2 = used_idx s) ∧
    used_idx s2 ≠ used_idx s ∧ in_width 16 (used_idx s2) ∧
    descs s2 = descs s ∧ avail_ring s2 = avail_ring s1 ∧ avail_idx s2 = avail_idx s1 ∧
    served d3 = avail_idx s2 ∧ mem s2 !! status = Some [st] ∧
    (∀ a, a ≠ status → a ≠ data → mem s2 !! a = mem s !! a) ∧
    effect ty sec data st (disk d) (disk d3) (mem s) (mem s2).
Proof.
  intros s1 Hserved Hlr Hu Ha Hreq Hdata Hst Hne. unfold in_width in *.
  destruct (done_spec d s1 0 ty sec data status)
    as (d2 & s2 & st & Hit & Hd2 & Ha2 & Hr2 & Hu2 & Hs2 & Hst2 & Hframe & Heff); try done.
  { by rewrite Hserved. }
  { rewrite Hserved. apply list_lookup_insert_eq. rewrite Hlr.
    unfold QUEUE_SIZE. Z.div_mod_to_equations; lia. }
  destruct (idle_spec d2 s2) as (Hi1 & Hi2 & Hi3); [by rewrite Hs2, Ha2|].
  destruct (dev_step (d2, s2)) as [d3 s3] eqn:Hstep. cbn in Hi1, Hi2, Hi3. subst s3.
  exists d2, s2, d3, st. rewrite Hi2, Hi3, Hs2, Hd2, Hr2, Ha2, Hu2. split_and!; try done.
  - intros k. apply (busy_spec d s1 k). rewrite Hserved. cbn. Z.div_mod_to_equations; lia.
  - cbn. Z.div_mod_to_equations; lia.
  - apply Z.mod_pos_bound. lia.
  - apply Z.mod_pos_bound. lia.
Qed.

(** A request the driver has set up in descriptors 0 to 2 is served: [operate]
    ends, and gives the device's status. *)
Lemma operate_spec {E} (b : Blk D) status ty sec data : idle b →
  request (shared b) 0 = Some (ty, sec, data, status - KERNEL_DIRECT_MAPPING_BASE) →
  is_Some (mem (shared b) !! data) →
  is_Some (mem (shared b) !! (status - KERNEL_DIRECT_MAPPING_BASE)) →
  data ≠ status - KERNEL_DIRECT_MAPPING_BASE →
  ∃ st b', operate (E := E) patience status b = (Ok st, b') ∧ idle b' ∧
    effect ty sec data st (disk (vdev b)) (disk (vdev b')) (mem (shared b)) (mem (shared b')) ∧
    mem (shared b') !! (status - KERNEL_DIRECT_MAPPING_BASE) = None ∧
    ∀ a, a ≠ data → a ≠ status - KERNEL_DIRECT_MAPPING_BASE →
      mem (shared b') !! a = mem (shared b) !! a.
Proof.
  destruct b as [dr s d w]. intros (Hbase & Hlast & Hserved & Hld & Hlr & Hu & Ha) Hreq Hdata Hst Hne.
  cbn [drv shared vdev] in *.
  set (d1 := mmio_write (base + reg_offset QueueNotify) 0 d).
  destruct (write_reg_spec QueueNotify 0 d) as [Hdisk1 Hserved1]. fold d1 in Hdisk1, Hserved1.
  rewrite decide_False in Hserved1 by naive_solver.
  destruct (request_served d1 s ty sec data (status - KERNEL_DIRECT_MAPPING_BASE))
    as (d2 & s2 & d3 & st & Hit & Hstep & Hbusy & Hmoved & Hu2 & Hd2 & Hr2 & Ha2 & Hs2 & Hst2 & Hframe & Heff);
    [by rewrite Hserved1|done..|].
  set (s1 := mkShared _ _ _ _ _) in Hit, Hbusy, Hr2, Ha2.
  pose proof (spin_iter (E := E) (delay (d1, s1)) (mkBlk dr s1 d1 (w ++ [(QueueNotify, 0)]))) as Hspin.
  cbn [drv shared vdev writes] in Hspin. rewrite Hit in Hspin.
  specialize (Hspin ltac:(intros k Hk; rewrite Hlast; apply Hbusy; lia)
    ltac:(by rewrite Hlast)).
  unfold operate. unfold bind at 1, gets at 1. cbn [shared].
  unfold bind at 1, set_shared at 1, modify at 1. unfold bind at 1, set_shared at 1, modify at 1.
  cbn [drv shared vdev writes descs avail_idx avail_ring used_idx mem]. fold s1.
  unfold bind at 1, gets at 1. cbn [drv]. unfold bind at 1, write32 at 1. cbn [drv shared vdev writes].
  rewrite Hbase. fold d1. unfold bind at 1, gets at 1. cbn [shared vdev]. unfold patience. rewrite (bind_ok _ _ _ _ _ Hspin).
  unfold bind at 1, poll at 1. cbn [shared vdev drv writes]. rewrite Hstep.
  unfold bind, set_driver, modify, gets, lift, drop_box, set_shared, ret.
  cbn [shared vdev drv writes]. rewrite Hst2.
  do 2 eexists. split; [reflexivity|]. unfold idle. cbn [shared vdev drv writes set_mem mem descs
    avail_ring avail_idx used_idx device_base last_used_idx].
  split_and!; [done|done|done|by rewrite Hd2|by rewrite Hr2; cbn; rewrite length_insert
    |exact Hu2|rewrite Ha2; apply Z.mod_pos_bound; lia| | |].
  - rewrite Hdisk1 in Heff. eapply effect_mem; [done| |exact Heff]. by rewrite lookup_delete_ne.
  - by rewrite lookup_delete_eq.
  - intros a Had Has. rewrite lookup_delete_ne by done. by apply Hframe.
Qed.

(** [read] and [write] differ in the type and in the data's flags. *)
Definition submit {E} (ty flags data sector : Z) : M (Blk D) E Z :=
  let! req := box (req_header ty sector) in
  let! status := box [0xff] in
  let! pa := lift (virt_to_phys req) in
  set_desc 0 (mkDesc pa HEADER_BYTES DESC_NEXT 1) ;;;
  let! pa := lift (virt_to_phys data) in
  set_desc 1 (mkDesc pa 512 flags 2) ;;;
  let! pa := lift (virt_to_phys status) in
  set_desc 2 (mkDesc pa 1 DESC_WRITE 0) ;;;
  let! st := operate patience status in
  drop_box req ;;; ret st.

Lemma virt_to_phys_ok {E} va : KERNEL_DIRECT_MAPPING_BASE ≤ va →
  virt_to_phys (E := E) va = Ok (va - KERNEL_DIRECT_MAPPING_BASE).
Proof.
  intros Hv. unfold virt_to_phys, sub_ov, checked_sub.
  by rewrite (proj2 (Z.leb_le _ _) Hv).
Qed.

(** The three descriptors make a request. *)
Lemma request_made (s : Shared) ty sec req data status flags :
  length (descs s) = 16%nat → is_u64 sec →
  (ty = ReqIn ∧ flags = 3 ∨ ty = ReqOut ∧ flags = 1) →
  mem s !! req = Some (req_header ty sec) →
  request (mkShared (<[2%nat := mkDesc status 1 DESC_WRITE 0]> (<[1%nat := mkDesc data 512 flags 2]>
      (<[0%nat := mkDesc req HEADER_BYTES DESC_NEXT 1]> (descs s))))
    (avail_idx s) (avail_ring s) (used_idx s) (mem s)) 0 = Some (ty, sec, data, status).
Proof.
  intros Hl Hsec Hty Hm. unfold request. cbn [descs mem].
  rewrite list_lookup_insert_ne, list_lookup_insert_ne, list_lookup_insert_eq by lia.
  cbn -[descs mem req_header field]. change (Pos.to_nat 1) with 1%nat.
  rewrite list_lookup_insert_ne, list_lookup_insert_eq by (rewrite ?length_insert; lia).
  cbn -[descs mem req_header field]. change (Pos.to_nat 2) with 2%nat.
  rewrite list_lookup_insert_eq by (rewrite !length_insert; lia).
  cbn -[descs mem req_header field]. rewrite Hm. cbn -[req_header field].
  assert (field 0 4 (req_header ty sec) = ty) as ->.
  { apply (field_app [] ty); [lia|done|]. destruct Hty as [[-> _]|[-> _]]; done. }
  assert (field 8 8 (req_header ty sec) = sec) as ->.
  { unfold req_header. rewrite app_assoc. rewrite <-(app_nil_r (le 8 sec)).
    apply field_app; [lia|by rewrite length_app, !le_length by lia|exact Hsec]. }
  assert (length (req_header ty sec) = 16%nat) as -> by by (unfold req_header; rewrite !length_app, !le_length).
  destruct Hty as [[-> ->]|[-> ->]]; reflexivity.
Qed.

Lemma submit_spec {E} (b : Blk D) ty flags data sec : idle b →
  KERNEL_DIRECT_MAPPING_BASE ≤ data → is_Some (mem (shared b) !! (data - KERNEL_DIRECT_MAPPING_BASE)) →
  is_u64 sec → (ty = ReqIn ∧ flags = 3 ∨ ty = ReqOut ∧ flags = 1) →
  ∃ st b', submit (E := E) ty flags data sec b = (Ok st, b') ∧ idle b' ∧
    effect ty sec (data - KERNEL_DIRECT_MAPPING_BASE) st (disk (vdev b)) (disk (vdev b'))
      (mem (shared b)) (mem (shared b')) ∧
    ∀ a, a ≠ data - KERNEL_DIRECT_MAPPING_BASE → mem (shared b') !! a = mem (shared b) !! a.
Proof.
  destruct b as [dr s d w]. intros Hidle Hva [bs Hdata'] Hsec Hty. cbn [drv shared vdev] in *.
  set (req := new_box (mem s) (Z.of_nat (length (req_header ty sec)))).
  set (m1 := <[req - KERNEL_DIRECT_MAPPING_BASE := req_header ty sec]> (mem s)).
  set (status := new_box m1 (Z.of_nat (length [0xff]))).
  set (m2 := <[status - KERNEL_DIRECT_MAPPING_BASE := [0xff]]> m1).
  destruct (new_box_spec (mem s) (Z.of_nat (length (req_header ty sec)))) as [Hr Hrn]. fold req in Hr, Hrn.
  destruct (new_box_spec m1 (Z.of_nat (length [0xff]))) as [Hs Hsn]. fold status in Hs, Hsn.
  unfold submit, box, set_desc, set_shared, bind, gets, modify, ret, lift.
  cbn [drv shared vdev writes set_mem mem]. fold req. fold m1. fold status. fold m2.
  rewrite !virt_to_phys_ok by done. cbn [drv shared vdev writes set_mem mem descs avail_idx avail_ring used_idx].
  set (K := KERNEL_DIRECT_MAPPING_BASE) in *.
  match goal with |- context [operate _ _ ?b] => set (b1 := b) end.
  assert (req - K ≠ data - K) as Hne1 by (intros Heq; rewrite Heq, Hdata' in Hrn; done).
  assert (m1 !! (data - K) = Some bs) as Hm1 by (unfold m1; by rewrite lookup_insert_ne).
  assert (status - K ≠ data - K) as Hne2 by (intros Heq; rewrite Heq, Hm1 in Hsn; done).
  assert (status - K ≠ req - K) as Hne3.
  { intros Heq. rewrite Heq in Hsn. unfold m1 in Hsn. rewrite lookup_insert_eq in Hsn. discriminate Hsn. }
  assert (m2 !! (data - K) = Some bs) as Hm2 by (unfold m2; by rewrite lookup_insert_ne).
  destruct (operate_spec (E := E) b1 status ty sec (data - K)) as (st & b' & Hop & Hidle' & Heff & Hnone & Hframe).
  { destruct Hidle as (? & ? & ? & ? & ? & ? & ?). unfold idle, b1. cbn. rewrite !length_insert. by split_and!. }
  { apply (request_made (mkShared (descs s) (avail_idx s) (avail_ring s) (used_idx s) m2)); [apply Hidle|done..|].
    cbn. unfold m2. rewrite lookup_insert_ne by done. unfold m1. by rewrite lookup_insert_eq. }
  { by exists bs. } { exists [0xff]. unfold b1. cbn. unfold m2. by rewrite lookup_insert_eq. } { done. }
  fold K in Hnone, Hframe. rewrite Hop. do 2 eexists. split; [reflexivity|]. split; [exact Hidle'|]. cbn [shared vdev mem set_mem].
  split.
  - eapply effect_mem; [..|exact Heff]; [by rewrite Hdata'|by rewrite lookup_delete_ne].
  - intros a Ha. destruct (decide (a = req - K)) as [->|Har].
    { by rewrite lookup_delete_eq, Hrn. }
    rewrite lookup_delete_ne by done. destruct (decide (a = status - K)) as [->|Has].
    { rewrite Hnone. unfold m1 in Hsn. by rewrite lookup_insert_ne in Hsn. }
    rewrite Hframe by done. unfold b1. cbn. unfold m2, m1. by rewrite !lookup_insert_ne.
Qed.

(** A request of either kind with a buffer of its own. *)
Definition transfer (ty flags n : Z) (bs : list Z) : M (Blk D) VfsError (list Z) := λ b,
  if (0 <=? n) && (n <? 2 ^ 64) then
    with_buf bs (λ buf, let! status := submit ty flags buf n in
      if status =? StatusOk then ret tt else fail DeviceIO) b
  else (Err DeviceIO, b).

(** What it does to the disk, and the bytes that are then in the buffer. *)
Lemma transfer_spec b ty flags n bs : idle b → is_u64 n →
  (ty = ReqIn ∧ flags = 3 ∨ ty = ReqOut ∧ flags = 1) →
  ∃ st out b', transfer ty flags n bs b = (if st =? StatusOk then Ok out else Err DeviceIO, b') ∧
    idle b' ∧ effect ty n 0 st (disk (vdev b)) (disk (vdev b')) {[ 0 := bs ]} {[ 0 := out ]}.
Proof.
  destruct b as [dr s d w]. intros Hidle Hn Hty. unfold transfer. cbn [vdev].
  assert ((0 <=? n) && (n <? 2 ^ 64) = true) as ->.
  { unfold is_u64, in_width in Hn. apply andb_true_iff. rewrite Z.leb_le, Z.ltb_lt. lia. }
  set (buf := new_box (mem s) (Z.of_nat (length bs))).
  destruct (new_box_spec (mem s) (Z.of_nat (length bs))) as [Hb _]. fold buf in Hb.
  set (b1 := mkBlk dr (set_mem (<[buf - KERNEL_DIRECT_MAPPING_BASE := bs]>) s) d w).
  destruct (submit_spec (E := VfsError) b1 ty flags buf n) as (st & b' & Hsub & Hidle' & Heff & _);
    [done|done|by eexists; cbn; apply lookup_insert_eq|done|done|].
  set (pa := buf - KERNEL_DIRECT_MAPPING_BASE) in *.
  assert (∃ out, mem (shared b') !! pa = Some out) as [out Hout].
  { revert Heff. unfold effect. destruct (ty =? ReqIn); [by intros (_ & ? & _)|].
    intros [-> _]. eexists. cbn. apply lookup_insert_eq. }
  exists st, out. eexists. split.
  - unfold with_buf, box, set_shared, bind, gets, modify, ret. cbn [shared drv vdev writes]. fold buf. fold pa.
    fold b1. unfold attempt. rewrite Hsub. cbn [fst snd].
    destruct (st =? StatusOk); cbn; unfold lift; rewrite Hout; cbn; reflexivity.
  - split; [exact Hidle'|]. cbn [vdev]. revert Heff. unfold effect. rewrite !lookup_singleton_eq, Hout.
    cbn [mem set_mem shared b1]. by rewrite lookup_insert_eq.
Qed.

Lemma transfer_idle b ty flags n bs : idle b →
  (ty = ReqIn ∧ flags = 3 ∨ ty = ReqOut ∧ flags = 1) → idle (transfer ty flags n bs b).2.
Proof.
  intros Hb Hty. destruct (decide (is_u64 n)) as [Hn|Hn].
  - by destruct (transfer_spec b ty flags n bs Hb Hn Hty) as (st & out & b' & -> & Hb' & _).
  - unfold transfer, is_u64, in_width in *. destruct (Z.leb_spec 0 n), (Z.ltb_spec n (2 ^ 64)); try done. lia.
Qed.

(** The driver between requests, as a block device for the filesystem. *)
Definition virtio_disk : Type := { b : Blk D | idle b }.

Definition disk_request ty flags n bs (H : ty = ReqIn ∧ flags = 3 ∨ ty = ReqOut ∧ flags = 1) :
    M virtio_disk VfsError (list Z) := λ b,
  ((transfer ty flags n bs (`b)).1,
   (transfer ty flags n bs (`b)).2 ↾ transfer_idle (`b) ty flags n bs (proj2_sig b) H).

Lemma disk_request_spec ty flags n bs H (b : virtio_disk) :
  ∃ r b', disk_request ty flags n bs H b = (r, b') ∧
  ((∃ st out, r = (if st =? StatusOk then Ok out else Err DeviceIO) ∧
     effect ty n 0 st (disk (vdev (`b))) (disk (vdev (`b'))) {[ 0 := bs ]} {[ 0 := out ]}) ∨
   r = Err DeviceIO ∧ disk (vdev (`b')) = disk (vdev (`b))).
Proof.
  unfold disk_request. do 2 eexists. split; [reflexivity|]. cbn [proj1_sig]. destruct b as [b Hb]. cbn [proj1_sig].
  destruct (decide (is_u64 n)) as [Hn|Hn].
  - left. destruct (transfer_spec b ty flags n bs Hb Hn H) as (st & out & b' & -> & _ & Heff).
    by exists st, out.
  - right. unfold transfer, is_u64, in_width in *.
    by destruct (Z.leb_spec 0 n), (Z.ltb_spec n (2 ^ 64)); try done; lia.
Qed.

#[export] Instance virtio_block : BlockDevice virtio_disk := {
  read_sector n := disk_request ReqIn 3 n (replicate 512 0) (or_introl (conj eq_refl eq_refl));
  write_sector n bs := disk_request ReqOut 1 n bs (or_intror (conj eq_refl eq_refl)) ;;; ret tt;
}.

(** The filesystem's contract holds of it. *)
#[export] #[refine] Instance virtio_block_ok : BlockDeviceOk virtio_disk := {
  sector b n := disk (vdev (`b)) n;
}.
Proof.
  - intros b n bs Hs. exact (disk_len (vdev (`b)) n bs Hs).
  - intros b n. cbn [read_sector virtio_block].
    destruct (disk_request_spec ReqIn 3 n (replicate 512 0) (or_introl (conj eq_refl eq_refl)) b)
      as (r & b' & -> & [(st & out & -> & Heff)|(-> & ->)]); [|done].
    unfold effect in Heff. rewrite lookup_singleton_eq in Heff. destruct Heff as (Hd & _ & Hok).
    rewrite Hd. destruct (Z.eqb_spec st StatusOk) as [->|_]; [|done]. by split; [apply Hok|].
  - intros b n bs Hl Hbs. cbn [write_sector virtio_block]. unfold bind.
    destruct (disk_request_spec ReqOut 1 n bs (or_intror (conj eq_refl eq_refl)) b)
      as (r & b' & -> & [(st & out & -> & Heff)|(-> & ->)]); [|done].
    unfold effect in Heff. rewrite !lookup_singleton_eq in Heff. destruct Heff as [_ Heff].
    by destruct (Z.eqb_spec st StatusOk).
Defined.

(** C16: between requests, [read_sector] and [write_sector] always return: the
    wait for the used index ends, whatever the device does before it serves the
    request.  A read that succeeds has put the disk's sector in the buffer and
    changed neither the disk nor other memory; a write that succeeds has put the
    buffer in that sector and changed nothing else; a failure is [DeviceIO].
    The driver is ready for the next request afterwards. *)
Theorem sector_requests_spec b n buf bs : idle b → is_u64 n → KERNEL_DIRECT_MAPPING_BASE ≤ buf →
  mem (shared b) !! (buf - KERNEL_DIRECT_MAPPING_BASE) = Some bs →
  (∃ r b', read_sector_at patience n buf b = (r, b') ∧ idle b' ∧ disk (vdev b') = disk (vdev b) ∧
     (∀ a, a ≠ buf - KERNEL_DIRECT_MAPPING_BASE → mem (shared b') !! a = mem (shared b) !! a) ∧
     (r = Ok tt ∧ is_Some (disk (vdev b) n) ∧
        mem (shared b') !! (buf - KERNEL_DIRECT_MAPPING_BASE) = disk (vdev b) n
      ∨ r = Err DeviceIO)) ∧
  (∃ r b', write_sector_at patience n buf b = (r, b') ∧ idle b' ∧
     (∀ a, mem (shared b') !! a = mem (shared b) !! a) ∧
     (r = Ok tt ∧ is_Some (disk (vdev b) n) ∧
        (∀ k, disk (vdev b') k = if decide (k = n) then Some bs else disk (vdev b) k)
      ∨ r = Err DeviceIO ∧ ∀ k, k ≠ n → disk (vdev b') k = disk (vdev b) k)).
Proof.
  intros Hb Hn Hbuf Hm. split.
  - destruct (submit_spec (E := VfsError) b ReqIn 3 buf n) as (st & b' & Hs & Hb' & Heff & Hframe);
      [done..|by eexists|done|by left|].
    unfold read_sector_at. change (blk_read patience buf n) with
      (submit (E := VfsError) ReqIn (bf_bitor DESC_NEXT DESC_WRITE) buf n).
    rewrite bf_bitor_spec. change (Z.lor DESC_NEXT DESC_WRITE) with 3.
    rewrite (bind_ok _ _ _ _ _ Hs). destruct Heff as (Hd & Hsome & Hok).
    destruct (Z.eqb_spec st StatusOk) as [Hst|_]; (eexists _, b'; split_and!; [reflexivity|done..|]); [left|by right].
    rewrite (Hok Hst). by split_and!.
  - destruct (submit_spec (E := VfsError) b ReqOut 1 buf n) as (st & b' & Hs & Hb' & Heff & Hframe);
      [done..|by eexists|done|by right|].
    unfold write_sector_at. change (blk_write patience buf n) with (submit (E := VfsError) ReqOut 1 buf n).
    rewrite (bind_ok _ _ _ _ _ Hs). destruct Heff as (Hsame & Heff). rewrite Hm in *.
    assert (∀ a, mem (shared b') !! a = mem (shared b) !! a) as Hmem.
    { intros a. destruct (decide (a = buf - KERNEL_DIRECT_MAPPING_BASE)) as [->|]; [by rewrite Hm|by apply Hframe]. }
    destruct (Z.eqb_spec st StatusOk) as [Hst|_]; (eexists _, b'; split_and!; [reflexivity|done..|]);
      [left|right]; destruct Heff; by split_and!.
Qed.
End correct.

(** ** Set-up gives the device its queue *)

(** The last value written to a register. *)
Definition written (ws : list (RegisterOffset * Z)) (r : RegisterOffset) : option Z :=
  foldl (λ o w, if decide (w.1 = r) then Some w.2 else o) None ws.

(** The address in a pair of registers. *)
Definition queue_addr (ws : list (RegisterOffset * Z)) (low high : RegisterOffset) : option Z :=
  l ← written ws low; h ← written ws high; Some (h * 2 ^ 32 + l).

(** The feature words the driver has accepted, as the doc comments of
    [DriverFeatures] and [DriverFeaturesSel] describe the registers; a reset
    clears them. *)
Definition accept (st : Z * gmap Z Z) (w : RegisterOffset * Z) : Z * gmap Z Z :=
  match w.1 with
  | DriverFeaturesSel => (w.2, st.2)
  | DriverFeatures => (st.1, <[st.1 := w.2]> st.2)
  | DeviceStatus => if w.2 =? 0 then (0, ∅) else st
  | _ => st
  end.
Definition features (ws : list (RegisterOffset * Z)) : gmap Z Z := (foldl accept (0, ∅) ws).2.

Section setup_correct.
Context {D : Type} `{VD : VirtioDev D} {base : Z} `{DO : !VirtioBlkOk D base}.
Context `{BF : Bitflags} `{HBF : !BitflagsOk BF} `{FB : FromBits}.

(** The writes of [init_device] and of [init]'s closure, and those of a set-up
    that succeeds, for a queue at physical address [pa]. *)
Definition negotiation : list (RegisterOffset * Z) :=
  [(DeviceStatus, 0); (DeviceStatus, 1); (DeviceStatus, 3); (DeviceFeatures, 0); (DeviceStatus, 11);
   (DeviceFeaturesSel, 1); (DriverFeatures, 1); (DriverFeaturesSel, 0); (DriverFeatures, 0); (DeviceStatus, 15)].
Definition addr_writes (low high : RegisterOffset) (pa : Z) : list (RegisterOffset * Z) :=
  [(low, pa mod 2 ^ 32); (high, Z.shiftr pa 32 mod 2 ^ 32)].

(** Registers were written, and nothing else of the driver changed. *)
Definition set_up (b b' : Blk D) (ws : list (RegisterOffset * Z)) : Prop :=
  writes b' = writes b ++ ws ∧ drv b' = drv b ∧ shared b' = shared b.

Lemma served_write r v d : r ≠ DeviceStatus ∨ v ≠ 0 →
  served (mmio_write (base + reg_offset r) v d) = served d.
Proof. intros Hr. rewrite (proj2 (write_reg_spec r v d)). apply decide_False. naive_solver. Qed.

Lemma init_device_spec b :
  let f := write32 base DeviceFeaturesSel 1 ;;; write32 base DriverFeatures VIRTIO_F_VERSION_1 ;;;
    write32 base DriverFeaturesSel 0 ;;; write32 base DriverFeatures 0 in
  match init_device base 0 f b with
  | (Ok _, b') => set_up b b' negotiation ∧ served (vdev b') = 0
  | (Err _, b') => drv b' = drv b ∧ shared b' = shared b
  | _ => False
  end.
Proof.
  intros f. unfold init_device, f, bind, write32, read32. cbn [drv shared vdev writes].
  destruct (mmio_read _ _) as [bits d] eqn:Hr. cbn [drv shared vdev writes].
  assert (served d = 0) as Hd.
  { change d with (bits, d).2. rewrite <-Hr. rewrite (proj2 (read_reg_spec DeviceStatus _)).
    rewrite !bf_bitor_spec. rewrite !served_write by (by (left; discriminate) || (right; discriminate)).
    rewrite (proj2 (write_reg_spec _ _ _)). by rewrite decide_True. }
  destruct (bf_from_bits STATUS_ALL bits) as [status|]; [|by cbn].
  destruct (negb (bf_contains status FEATURES_OK)); [by cbn|]. cbn [ret drv shared vdev writes].
  rewrite !bf_bitor_spec. split.
  - unfold set_up. cbn. by rewrite <-!app_assoc.
  - rewrite !served_write by (by (left; discriminate) || (right; discriminate)). done.
Qed.

(** Each part of the queue is announced in its registers. *)
Lemma save_to_virtqueue_spec b align ptr ab off low high :
  align_up (E := unit) ab align = Ok off → KERNEL_DIRECT_MAPPING_BASE ≤ ptr → 0 ≤ off →
  ptr + off < 2 ^ 64 → (ptr + off - KERNEL_DIRECT_MAPPING_BASE) mod align = 0 →
  low ≠ DeviceStatus → high ≠ DeviceStatus →
  ∃ b', save_to_virtqueue align base ptr ab low high b = (Ok (ptr + off, off), b') ∧
    set_up b b' (addr_writes low high (ptr + off - KERNEL_DIRECT_MAPPING_BASE)) ∧
    served (vdev b') = served (vdev b).
Proof.
  intros Hal Hptr Hoff Hov Hmod Hl Hh. unfold save_to_virtqueue, bind, lift. rewrite Hal.
  unfold add_ov, checked_add. rewrite (proj2 (Z.ltb_lt (ptr + off) (2 ^ 64)) Hov). cbn [unwrap].
  rewrite virt_to_phys_ok by lia. rewrite Hmod. cbn -[mmio_write KERNEL_DIRECT_MAPPING_BASE].
  eexists. split; [reflexivity|]. split.
  - unfold set_up. cbn -[KERNEL_DIRECT_MAPPING_BASE]. by rewrite <-app_assoc.
  - cbn. by rewrite !served_write by tauto.
Qed.

Lemma addr_writes_read pa : is_u64 pa →
  (Z.shiftr pa 32 mod 2 ^ 32) * 2 ^ 32 + pa mod 2 ^ 32 = pa.
Proof.
  intros Hpa. unfold is_u64, in_width in Hpa. rewrite Z.shiftr_div_pow2 by lia.
  rewrite (Z.mod_small (pa / 2 ^ 32)) by (Z.div_mod_to_equations; lia).
  pose proof (Z.div_mod pa (2 ^ 32)). lia.
Qed.

(** The writes that announce the whole queue. *)
Definition queue_writes (pa : Z) : list (RegisterOffset * Z) :=
  addr_writes QueueDescLow QueueDescHigh pa ++ addr_writes QueueDriverLow QueueDriverHigh (pa + 256) ++
  addr_writes QueueDeviceLow QueueDeviceHigh (pa + 292) ++ [(QueueReady, 1)].

Lemma announce_queue b ptr bytes : KERNEL_DIRECT_MAPPING_BASE ≤ ptr → ptr mod 16 = 0 →
  ptr + 4096 ≤ 2 ^ 64 →
  ∃ b', (let! p := save_to_virtqueue 16 base ptr 0 QueueDescLow QueueDescHigh in
    let '(desc, desc_start) := p in
    let! offset := lift (add_ov 64 desc_start (DESC_BYTES * QUEUE_SIZE)) in
    let! p := save_to_virtqueue 2 base ptr offset QueueDriverLow QueueDriverHigh in
    let '(avail, avail_start) := p in
    let! offset := lift (add_ov 64 avail_start AVAIL_BYTES) in
    let! p := save_to_virtqueue 4 base ptr offset QueueDeviceLow QueueDeviceHigh in
    let '(used, used_start) := p in
    set_driver (λ dr, mkDriver ptr desc avail used base (last_used_idx dr)) ;;;
    set_shared (λ s, shared_of bytes desc_start avail_start used_start (mem s)) ;;;
    write32 base QueueReady 1) b = (Ok tt, b') ∧
    writes b' = writes b ++ queue_writes (ptr - KERNEL_DIRECT_MAPPING_BASE) ∧
    drv b' = mkDriver ptr ptr (ptr + 256) (ptr + 292) base (last_used_idx (drv b)) ∧
    shared b' = shared_of bytes 0 256 292 (mem (shared b)) ∧ served (vdev b') = served (vdev b).
Proof.
  intros Hptr Hal Hend. assert (KERNEL_DIRECT_MAPPING_BASE mod 16 = 0) as HK by reflexivity.
  destruct (save_to_virtqueue_spec b 16 ptr 0 0 QueueDescLow QueueDescHigh) as (b1 & Hb1 & (Hw1 & Hd1 & Hs1) & Hv1);
    [reflexivity|done|lia|lia|Z.div_mod_to_equations; lia|done|done|].
  destruct (save_to_virtqueue_spec b1 2 ptr 256 256 QueueDriverLow QueueDriverHigh)
    as (b2 & Hb2 & (Hw2 & Hd2 & Hs2) & Hv2);
    [reflexivity|done|lia|lia|Z.div_mod_to_equations; lia|done|done|].
  destruct (save_to_virtqueue_spec b2 4 ptr 292 292 QueueDeviceLow QueueDeviceHigh)
    as (b3 & Hb3 & (Hw3 & Hd3 & Hs3) & Hv3);
    [reflexivity|done|lia|lia|Z.div_mod_to_equations; lia|done|done|].
  unfold bind at 1. rewrite Hb1. unfold bind at 1, lift at 1. cbn [unwrap add_ov].
  change (add_ov 64 0 (DESC_BYTES * QUEUE_SIZE)) with (Ok (E := unit) 256).
  unfold bind at 1. rewrite Hb2. unfold bind at 1, lift at 1.
  change (add_ov 64 256 AVAIL_BYTES) with (Ok (E := unit) 292).
  unfold bind at 1. rewrite Hb3. unfold bind, set_driver, set_shared, modify, write32.
  cbn -[KERNEL_DIRECT_MAPPING_BASE shared_of queue_writes reg_offset]. eexists. split; [reflexivity|].
  cbn -[KERNEL_DIRECT_MAPPING_BASE shared_of queue_writes reg_offset].
  rewrite Hw3, Hw2, Hw1, Hd3, Hd2, Hd1, Hs3, Hs2, Hs1, Z.add_0_r. split_and!; [|done..|].
  - unfold queue_writes. by rewrite <-!app_assoc, !(Z.add_sub_swap ptr).
  - rewrite served_write by by left. by rewrite Hv3, Hv2, Hv1.
Qed.

(** What the registers hold in the end. *)
Lemma init_writes_regs pa : 0 ≤ pa ∧ pa + 4096 ≤ 2 ^ 64 →
  let ws := negotiation ++ [(QueueSel, 0)] ++ [(QueueSize, QUEUE_SIZE)] ++ queue_writes pa in
  queue_addr ws QueueDescLow QueueDescHigh = Some pa ∧
  queue_addr ws QueueDriverLow QueueDriverHigh = Some (pa + 256) ∧
  queue_addr ws QueueDeviceLow QueueDeviceHigh = Some (pa + 292) ∧
  written ws QueueSize = Some 16 ∧ written ws QueueReady = Some 1 ∧ features ws !! 1 = None.
Proof.
  intros Hpa ws.
  split_and!; [| | |reflexivity..].
  all: cbv -[Z.mul Z.add Z.modulo Z.shiftr Z.pow Z.le]; f_equal; apply addr_writes_read;
    unfold is_u64, in_width; lia.
Qed.

(** C33: [init] on a block with the layout it asked for does not panic.  When it
    succeeds the device knows the physical addresses of the descriptor table and
    of the two rings, which the driver uses too and which do not overlap.  Driver
    and device agree on the queue exactly when the block's two index fields
    happened to be zero: the code does not clear the block.  And the second word
    of features is never selected, so [VIRTIO_F_VERSION_1] is not accepted. *)
Theorem init_spec b ptr bytes : KERNEL_DIRECT_MAPPING_BASE ≤ ptr → ptr mod 16 = 0 →
  ptr + 4096 ≤ 2 ^ 64 → last_used_idx (drv b) = 0 →
  match init base ptr bytes b with
  | (Ok _, b') =>
      let pa := ptr - KERNEL_DIRECT_MAPPING_BASE in
      ∃ ws, writes b' = writes b ++ ws ∧
      queue_addr ws QueueDescLow QueueDescHigh = Some pa ∧
      queue_addr ws QueueDriverLow QueueDriverHigh = Some (pa + 256) ∧
      queue_addr ws QueueDeviceLow QueueDeviceHigh = Some (pa + 292) ∧
      written ws QueueSize = Some 16 ∧ written ws QueueReady = Some 1 ∧
      drv b' = mkDriver ptr ptr (ptr + 256) (ptr + 292) base 0 ∧
      (idle (base := base) b' ↔ field 258 2 bytes = 0 ∧ field 294 2 bytes = 0) ∧
      features ws !! 1 = None
  | (Err _, b') => drv b' = drv b ∧ shared b' = shared b
  | _ => False
  end.
Proof.
  intros Hptr Hal Hend Hlast. unfold init. pose proof (init_device_spec b) as Hneg. cbv zeta in Hneg.
  set (m := init_device base 0 _) in *. unfold bind at 1.
  destruct (m b) as [[[]|[]| |] b1]; [|done..].
  destruct Hneg as [(Hw1 & Hd1 & Hs1) Hsv1]. unfold bind at 1, write32 at 1.
  unfold bind at 1, read32 at 1. cbn [drv shared vdev writes].
  destruct (mmio_read _ _) as [ready d2] eqn:Hready.
  destruct (negb (ready =? 0)); [by cbn; rewrite Hd1, Hs1|].
  unfold bind at 1, read32 at 1. cbn [drv shared vdev writes].
  destruct (mmio_read _ d2) as [n d3] eqn:Hn.
  destruct (n =? 0); [by cbn; rewrite Hd1, Hs1|].
  assert (served d3 = 0) as Hsv3.
  { change d3 with (n, d3).2. rewrite <-Hn, (proj2 (read_reg_spec _ _)). change d2 with (ready, d2).2.
    rewrite <-Hready, (proj2 (read_reg_spec _ _)), served_write; [done|by left]. }
  unfold bind at 1, write32 at 1. cbn [drv shared vdev writes].
  set (b2 := mkBlk _ _ _ _). destruct (announce_queue b2 ptr bytes Hptr Hal Hend) as (b' & Hrun & Hw & Hd & Hs & Hv).
  cbv zeta in *. rewrite Hrun. cbn [drv shared vdev writes b2] in *. rewrite Hd1, Hlast in Hd.
  rewrite <-!app_assoc, Hw1, <-!app_assoc in Hw. eexists. split; [exact Hw|].
  set (pa := ptr - KERNEL_DIRECT_MAPPING_BASE).
  assert (0 ≤ pa ∧ pa + 4096 ≤ 2 ^ 64) as Hpa by (unfold pa, KERNEL_DIRECT_MAPPING_BASE in *; lia).
  destruct (init_writes_regs pa) as (-> & -> & -> & -> & -> & Hf); [done|].
  split_and!; [done..| |exact Hf].
  unfold idle. rewrite Hd, Hs, Hv, served_write by by left. cbn -[field]. rewrite Hsv3. split.
  - by intros (_ & Hu & Ha & _).
  - change (256 + 2) with 258. change (292 + 2) with 294. intros [-> ->]. by split_and!.
Qed.
End setup_correct.

(** ** A virtio disk *)

(** Its sectors, its status register, how many requests it served, and how many
    steps it takes before it serves the next one. *)
Record Disk := mkDisk { sectors : gmap Z (list Z); status_reg : Z; taken : Z; countdown : nat }.

Definition is_sector (b : list Z) : bool :=
  (length b =? 512)%nat && forallb (λ x, (0 <=? x) && (x <? 256)) b.

Definition blk_sector (d : Disk) (n : Z) : option (list Z) :=
  b ← sectors d !! n;
  if (0 <=? n) && (n <? 2 ^ 64) && is_sector b then Some b else None.

(** The end of a request: the used index moves and [m] is the memory. *)
Definition complete_request (d : Disk) (s : Shared) (f : gmap Z (list Z)) (m : gmap Z (list Z)) : Disk * Shared :=
  (mkDisk f (status_reg d) (avail_idx s) 2,
   mkShared (descs s) (avail_idx s) (avail_ring s) ((used_idx s + 1) mod 2 ^ 16) m).

Definition serve (d : Disk) (s : Shared) : Disk * Shared :=
  match avail_ring s !! Z.to_nat (taken d mod QUEUE_SIZE) ≫= λ head, request s (Z.to_nat head) with
  | Some (ty, sec, data, status) =>
      if ty =? ReqIn then
        match blk_sector d sec with
        | Some b => complete_request d s (sectors d) (<[status := [0]]> (<[data := b]> (mem s)))
        | None => complete_request d s (sectors d) (<[status := [1]]> (mem s))
        end
      else
        match blk_sector d sec, mem s !! data with
        | Some _, Some b =>
            if is_sector b then complete_request d s (<[sec := b]> (sectors d)) (<[status := [0]]> (mem s))
            else complete_request d s (sectors d) (<[status := [1]]> (mem s))
        | _, _ => complete_request d s (sectors d) (<[status := [1]]> (mem s))
        end
  | None => complete_request d s (sectors d) (mem s)
  end.

Definition disk_step (p : Disk * Shared) : Disk * Shared :=
  let '(d, s) := p in
  if taken d =? avail_idx s then (d, s) else
  match countdown d with
  | S n => (mkDisk (sectors d) (status_reg d) (taken d) n, s)
  | O => serve d s
  end.

#[export] Instance ram_disk : VirtioDev Disk := {
  mmio_read a d :=
    (if a =? VIRTIO0 + reg_offset DeviceStatus then status_reg d
     else if a =? VIRTIO0 + reg_offset QueueSizeMax then 16 else 0, d);
  mmio_write a v d :=
    if a =? VIRTIO0 + reg_offset DeviceStatus
    then mkDisk (sectors d) v (if v =? 0 then 0 else taken d) (countdown d) else d;
  dev_step := disk_step;
}.

Lemma reg_offset_inj r r' : reg_offset r = reg_offset r' → r = r'.
Proof. by destruct r, r'. Qed.

Lemma disk_busy d s k : taken d ≠ avail_idx s → (k ≤ countdown d)%nat →
  Nat.iter k disk_step (d, s) = (mkDisk (sectors d) (status_reg d) (taken d) (countdown d - k), s).
Proof.
  intros Hne Hk. induction k as [|k IH].
  - rewrite Nat.sub_0_r. by destruct d.
  - cbn [Nat.iter nat_rect]. change (nat_rect _ _ _ k) with (Nat.iter k disk_step (d, s)).
    rewrite IH by lia. unfold disk_step. cbn [taken countdown sectors status_reg].
    rewrite (proj2 (Z.eqb_neq _ _) Hne). destruct (countdown d - k)%nat eqn:Hc; [lia|].
    do 3 f_equal. lia.
Qed.

Lemma is_sector_spec b : is_sector b = true → length b = 512%nat ∧ Forall is_u8 b.
Proof.
  unfold is_sector. rewrite andb_true_iff, Nat.eqb_eq, forallb_forall. intros [Hl Hb]. split; [done|].
  apply Forall_forall. intros x Hx. apply list_elem_of_In, Hb in Hx.
  unfold is_u8, in_width. lia.
Qed.

Lemma blk_sector_Some d n b : blk_sector d n = Some b →
  sectors d !! n = Some b ∧ is_u64 n ∧ is_sector b = true.
Proof.
  unfold blk_sector. destruct (sectors d !! n) as [b'|]; [cbn|done].
  destruct (_ && _) eqn:Hc; [|done]. intros [= ->].
  apply andb_true_iff in Hc as [Hc Hb]. split_and!; [done|unfold is_u64, in_width; lia|done].
Qed.

(** The outcome [p] of a request of this kind. *)
Definition request_done (d : Disk) (s : Shared) (ty sec data status : Z) (p : Disk * Shared) : Prop :=
  ∃ d' s' st, p = (d', s') ∧
    descs s' = descs s ∧ avail_idx s' = avail_idx s ∧ avail_ring s' = avail_ring s ∧
    used_idx s' = (used_idx s + 1) mod 2 ^ 16 ∧ taken d' = avail_idx s ∧
    mem s' !! status = Some [st] ∧
    (∀ a, a ≠ status → a ≠ data → mem s' !! a = mem s !! a) ∧
    effect ty sec data st (blk_sector d) (blk_sector d') (mem s) (mem s').

Lemma complete_request_done d s ty sec data status f m st :
  (∀ a, a ≠ data → m !! a = mem s !! a) → data ≠ status →
  effect ty sec data st (blk_sector d) (blk_sector (complete_request d s f m).1) (mem s) m →
  request_done d s ty sec data status (complete_request d s f (<[status := [st]]> m)).
Proof.
  intros Hm Hne Heff. do 3 eexists. split; [reflexivity|]. cbn [descs avail_idx avail_ring used_idx mem taken].
  split_and!; [done..|apply lookup_insert_eq| |].
  - intros a Has Had. rewrite lookup_insert_ne by done. by apply Hm.
  - eapply effect_mem; [done| |exact Heff]. by rewrite lookup_insert_ne.
Qed.

Lemma serve_done d s head ty sec data status :
  avail_ring s !! Z.to_nat (taken d mod QUEUE_SIZE) = Some head →
  request s (Z.to_nat head) = Some (ty, sec, data, status) →
  is_Some (mem s !! data) → data ≠ status →
  request_done d s ty sec data status (serve d s).
Proof.
  intros Hring Hreq [b0 Hb0] Hne. unfold serve. rewrite Hring. cbn [mbind option_bind]. rewrite Hreq, Hb0.
  destruct (ty =? ReqIn) eqn:Hty; destruct (blk_sector d sec) as [b|] eqn:Hs.
  - apply complete_request_done; [by intros; apply lookup_insert_ne|done|].
    unfold effect. by rewrite Hty, lookup_insert_eq.
  - apply complete_request_done; [done..|]. unfold effect. by rewrite Hty, Hb0.
  - destruct (is_sector b0) eqn:Hb; (apply complete_request_done; [done..|]); unfold effect; rewrite Hty; [|done].
    split; [done|]. cbn -[blk_sector]. split; [by rewrite Hs|]. intros k.
    apply blk_sector_Some in Hs as (_ & Hsec & _). unfold is_u64, in_width in Hsec.
    unfold blk_sector. cbn [sectors]. destruct (decide (k = sec)) as [->|Hk].
    + rewrite lookup_insert_eq. cbn [mbind option_bind]. rewrite Hb, andb_true_r.
      by rewrite (proj2 (Z.leb_le 0 sec)), (proj2 (Z.ltb_lt sec _)) by lia.
    + by rewrite lookup_insert_ne.
  - apply complete_request_done; [done..|]. unfold effect. by rewrite Hty.
Qed.

#[export] #[refine] Instance ram_disk_ok : VirtioBlkOk Disk VIRTIO0 := {
  disk := blk_sector;
  served := taken;
  delay p := countdown p.1;
}.
Proof.
  - intros d n b (_ & _ & Hb)%blk_sector_Some. by apply is_sector_spec.
  - intros d n [b (_ & Hn & _)%blk_sector_Some]. done.
  - done.
  - intros r v d. cbn [mmio_write ram_disk].
    destruct (Z.eqb_spec (VIRTIO0 + reg_offset r) (VIRTIO0 + reg_offset DeviceStatus)) as [Heq|Hne].
    + assert (r = DeviceStatus) as -> by (apply reg_offset_inj; lia). cbn [blk_sector sectors taken].
      split; [done|]. destruct (Z.eqb_spec v 0) as [->|]; [by rewrite decide_True|by rewrite decide_False by naive_solver].
    + rewrite decide_False; [done|]. by intros [-> _].
  - intros d s Hi. cbn [dev_step ram_disk disk_step]. by rewrite Hi, Z.eqb_refl.
  - intros d s k Hne Hk. cbn [dev_step ram_disk]. by rewrite disk_busy.
  - intros d s head ty sec data status Ha Hring Hreq Hdata Hstatus Hne.
    assert (taken d ≠ avail_idx s) as Hneq.
    { rewrite Ha. clear. Z.div_mod_to_equations; lia. }
    cbn [dev_step ram_disk fst].
    change (Nat.iter (S (countdown d)) disk_step (d, s)) with (disk_step (Nat.iter (countdown d) disk_step (d, s))).
    rewrite disk_busy by done. cbn [disk_step taken countdown sectors status_reg].
    rewrite (proj2 (Z.eqb_neq _ _) Hneq), Nat.sub_diag.
    exact (serve_done (mkDisk (sectors d) (status_reg d) (taken d) 0) s head ty sec data status
      Hring Hreq Hdata Hne).
Defined.

(** Boxes at the first free physical addresses. *)
#[export] Instance bump_heap : KernelHeap := {
  new_box m n := KERNEL_DIRECT_MAPPING_BASE + Z.of_nat (fresh (set_map (D := gset nat) Z.to_nat (dom m)));
}.
#[export] Instance bump_heap_ok : KernelHeapOk bump_heap.
Proof.
  split. intros m n. cbn [new_box bump_heap]. set (X := set_map Z.to_nat (dom m)). split; [lia|].
  rewrite Z.add_simpl_l. apply not_elem_of_dom. intros Hin. apply (is_fresh X).
  apply elem_of_map. eexists. split; [|exact Hin]. lia.
Qed.

(** A disk of four sectors, its driver, and a buffer at physical address 4096. *)
Definition four_sectors : Disk :=
  mkDisk (list_to_map ((λ n, (n, replicate 512 n)) <$> seqZ 0 4)) 0 0 3.
Definition ready_blk : Blk Disk :=
  mkBlk (mkDriver 0 0 0 0 VIRTIO0 0)
    (mkShared (replicate 16 (mkDesc 0 0 0 0)) 0 (replicate 16 0) 0 {[ 4096 := replicate 512 7 ]})
    four_sectors [].

Lemma sector_requests_spec_witness :
  (∃ b', read_sector_at patience 2 (KERNEL_DIRECT_MAPPING_BASE + 4096) ready_blk = (Ok tt, b') ∧
     mem (shared b') !! 4096 = Some (replicate 512 2)) ∧
  (∃ b', write_sector_at patience 2 (KERNEL_DIRECT_MAPPING_BASE + 4096) ready_blk = (Ok tt, b') ∧
     disk (vdev b') 2 = Some (replicate 512 7)).
Proof.
  destruct (sector_requests_spec ready_blk 2 (KERNEL_DIRECT_MAPPING_BASE + 4096) (replicate 512 7))
    as [(r & b1 & Hr & _ & _ & _ & Hc1) (w & b2 & Hw & _ & _ & Hc2)].
  { unfold idle. split_and!; try reflexivity; done. } { done. } { done. } { reflexivity. }
  split.
  - destruct Hc1 as [(-> & _ & Hm)|Hx]; [by exists b1; rewrite Hr; split|].
    rewrite Hx in Hr. apply (f_equal fst) in Hr. vm_compute in Hr. discriminate Hr.
  - destruct Hc2 as [(-> & _ & Hm)|[Hx _]]; [by exists b2; rewrite Hw, Hm; split|].
    rewrite Hx in Hw. apply (f_equal fst) in Hw. vm_compute in Hw. discriminate Hw.
Defined.

Lemma init_spec_witness :
  ∃ b' ws, init VIRTIO0 (KERNEL_DIRECT_MAPPING_BASE + 8192) (replicate 4096 0) ready_blk = (Ok tt, b') ∧
    writes b' = ws ∧ queue_addr ws QueueDescLow QueueDescHigh = Some 8192 ∧
    idle (base := VIRTIO0) b' ∧ features ws !! 1 = None.
Proof.
  pose proof (init_spec ready_blk (KERNEL_DIRECT_MAPPING_BASE + 8192) (replicate 4096 0)) as H.
  destruct (init VIRTIO0 _ _ _) as [r b'] eqn:Hi.
  assert (r = Ok tt) as -> by (apply (f_equal fst) in Hi; vm_compute in Hi; by rewrite <-Hi).
  destruct H as (ws & Hws & Hq & _ & _ & _ & _ & _ & Hidle & Hf); [done..|].
  exists b', ws. split_and!; [done..| |done]. apply Hidle. split; reflexivity.
Defined.
