(* ===== verification/VsfsTool.v ===== *)
(** * The image tool: layouts, allocation and writing

    [vsfs/src/bin/vsfs-tool.rs].  Strings are their UTF-8 bytes.  The host's
    filesystem is a tree that was read from it, and [serde_json] gives a
    [JsonLayoutNode]; the messages of errors are the constructors of
    [ToolError].  The image file is its length and its bytes by offset. *)

From Stdlib Require Import Strings.String Strings.Ascii.
From S2P Require Import Prelude Errors Vfs Vsfs.

(** ** Data *)

Definition MAX_DATA_BLOCKS : Z := DIRECT_BLOCKS + INDIRECT_BLOCK_ENTRIES.
Definition NBLOCKS : Z := 128.
Definition NINODES : Z := 80.
Abbreviation SUPER_BLOCK := 0.
Abbreviation INODE_BITMAP_BLOCK := 1.
Abbreviation DATA_BITMAP_BLOCK := 2.
Abbreviation INODE_TABLE_START := 3.
Abbreviation INODE_TABLE_BLOCKS := 5.
Definition DATA_BLOCK_START : Z := 8.
Definition ROOT_INO : Z := 1.
Abbreviation VSFS_MAGIC := 0x56534653.

(** The bytes of a string literal. *)
Definition str (s : string) : list Z := (λ a, Z.of_N (N_of_ascii a)) <$> list_ascii_of_string s.

Inductive LayoutNode := mkLayout (l_name : list Z) (l_kind : LayoutKind)
with LayoutKind :=
  | LDirectory (children : list LayoutNode)
  | LFile (data : list Z).

Inductive FsNode :=
  mkFs (f_inum : Z) (f_data_blocks : list Z) (f_indirect_block : Z) (f_name : list Z) (f_kind : FsNodeKind)
with FsNodeKind :=
  | FDirectory (children : list FsNode)
  | FFile (data : list Z).

Inductive JsonLayoutNode := mkJson {
  j_ty : list Z;
  j_path : option (list Z);
  j_contains : list JsonLayoutNode;
  j_content : option (list Z);
  j_contents : option (list Z);
  j_source : option (list Z);
}.

Inductive ToolError :=
  | MissingValue | MutuallyExclusive | UnexpectedArgument
  | NotADirectory | NonUtf8Name | DuplicateName | UnsupportedFileType
  | InvalidComponent | NameTooLong | InvalidJson | HostIo
  | RootPath | InvalidPath | DotInPath | NotContained | UnknownType
  | TooManyInodes | TooManyBlocksInFile | BlockCountOverflow | TooManyDataBlocks.

(** [for x in xs { out.push(f(x)?) }]. *)
Section traverse.
Context {S E A B : Type} (f : A → M S E B).
Fixpoint traverse (xs : list A) : M S E (list B) :=
  match xs with
  | [] => ret []
  | x :: xs => let! y := f x in let! ys := traverse xs in ret (y :: ys)
  end.
End traverse.

(** ** The command line *)

Inductive ToolInput := Layout (path : list Z) | Root (path : list Z).
Record ToolConfig := mkConfig { output_path : list Z; input : option ToolInput }.

(** [set_input]. *)
Definition set_input (input : option ToolInput) (new_input : ToolInput) : outcome ToolError (option ToolInput) :=
  if input then Err MutuallyExclusive else Ok (Some new_input).

(** [ToolConfig::parse] on the arguments after the program's name; [None] when
    the usage is printed and the process exits. *)
Fixpoint parse_args (args : list (list Z)) (output_path : list Z) (input : option ToolInput)
    : outcome ToolError (option ToolConfig) :=
  match args with
  | [] => Ok (Some (mkConfig output_path input))
  | arg :: args =>
      if bool_decide (arg = str "-o" ∨ arg = str "--output") then
        match args with
        | value :: args => parse_args args value input
        | [] => Err MissingValue
        end
      else if bool_decide (arg = str "-l" ∨ arg = str "--layout") then
        match args with
        | value :: args => let? input := set_input input (Layout value) in parse_args args output_path input
        | [] => Err MissingValue
        end
      else if bool_decide (arg = str "-r" ∨ arg = str "--root") then
        match args with
        | value :: args => let? input := set_input input (Root value) in parse_args args output_path input
        | [] => Err MissingValue
        end
      else if bool_decide (arg = str "-h" ∨ arg = str "--help") then Ok None
      else
        match input with
        | None => let? input := set_input None (Layout arg) in parse_args args output_path input
        | Some _ => Err UnexpectedArgument
        end
  end.
Definition parse (args : list (list Z)) : outcome ToolError (option ToolConfig) :=
  parse_args (drop 1 args) (str "vsfs.img") None.

(** [default_layout]. *)
Definition default_layout : LayoutNode :=
  mkLayout [] (LDirectory [mkLayout (str "foo") (LDirectory
    [mkLayout (str "bar") (LFile (str "hello world" ++ [10]))])]).

(** ** Layouts from the host's directories *)

(** What [symlink_metadata], [read_dir] and [read] show of a path.  An entry has
    its name, and if that is UTF-8; [HostError] is a path that cannot be read. *)
Inductive Host :=
  | HostDir (entries : list (list Z * bool * Host))
  | HostFile (data : list Z)
  | HostOther
  | HostError.

(** [validate_name]. *)
Definition validate_name (name : list Z) : outcome ToolError unit :=
  if bool_decide (name = str ".") || bool_decide (name = str "..") || bool_decide (47 ∈ name)
  then Err InvalidComponent
  else if (27 <? length name)%nat then Err NameTooLong
  else Ok tt.

(** The order of [OsString]: by bytes. *)
Fixpoint bytes_le (a b : list Z) : bool :=
  match a, b with
  | [], _ => true
  | _ :: _, [] => false
  | x :: a, y :: b => (x <? y) || ((x =? y) && bytes_le a b)
  end.

(** [entries.sort_by_key(|entry| entry.file_name())], which is stable. *)
Fixpoint insert_entry {A} (e : list Z * A) (es : list (list Z * A)) : list (list Z * A) :=
  match es with
  | [] => [e]
  | e' :: es' => if bytes_le e.1 e'.1 then e :: es else e' :: insert_entry e es'
  end.
Definition sort_entries {A} (es : list (list Z * A)) : list (list Z * A) := foldr insert_entry [] es.

(** The loop of [read_dir_children] over the sorted entries: a name and if it
    is UTF-8, with the layout of the path below it. *)
Fixpoint check_children (es : list (list Z * (bool * outcome ToolError LayoutNode)))
    (names : list (list Z)) : outcome ToolError (list LayoutNode) :=
  match es with
  | [] => Ok []
  | (child_name, (utf8, child)) :: es =>
      if negb utf8 then Err NonUtf8Name else
      let? _ := validate_name child_name in
      if bool_decide (child_name ∈ names) then Err DuplicateName else
      let? child := child in
      let? children := check_children es (child_name :: names) in
      Ok (child :: children)
  end.

(** [layout_from_host_path], with [read_dir_children] for a directory. *)
Fixpoint layout_from_host_path (path : Host) (name : list Z) : outcome ToolError LayoutNode :=
  match path with
  | HostDir entries =>
      let? children := check_children (sort_entries
        (map (λ e, let '(child_name, utf8, child) := e in
                   (child_name, (utf8, layout_from_host_path child child_name))) entries)) [] in
      Ok (mkLayout name (LDirectory children))
  | HostFile data => Ok (mkLayout name (LFile data))
  | HostOther => Err UnsupportedFileType
  | HostError => Err HostIo
  end.

(** [parse_root_dir]. *)
Definition parse_root_dir (path : Host) : outcome ToolError LayoutNode :=
  match path with
  | HostDir _ => layout_from_host_path path []
  | HostError => Err HostIo
  | _ => Err NotADirectory
  end.

(** ** Layouts from JSON *)

(** [normalize_path]. *)
Definition normalize_path (parent_path raw_path : list Z) (is_root : bool) : outcome ToolError (list Z) :=
  if is_root then
    if bool_decide (raw_path ≠ str "/") then Err RootPath else Ok (str "/")
  else if bool_decide (raw_path = [] ∨ last raw_path 0 = 47) then Err InvalidPath
  else
    let path :=
      if bool_decide (head raw_path = Some 47) then raw_path
      else if bool_decide (parent_path = str "/") then 47 :: raw_path
      else parent_path ++ 47 :: raw_path in
    if bool_decide (str "." ∈ split_slash path ∨ str ".." ∈ split_slash path)
    then Err DotInPath else Ok path.

(** [path.rsplit('/').next()]: what is after the last slash; and [rsplit_once],
    what is before it. *)
Fixpoint after_slash (path acc : list Z) : list Z :=
  match path with
  | [] => acc
  | b :: path => if b =? 47 then after_slash path [] else after_slash path (acc ++ [b])
  end.
Definition file_name (path : list Z) : list Z := after_slash path [].
Definition before_slash (path : list Z) : option (list Z) :=
  if bool_decide (47 ∈ path) then Some (take (length path - length (file_name path) - 1) path) else None.

(** [absolute_parent]. *)
Definition absolute_parent (normalized_path : list Z) : list Z :=
  match before_slash normalized_path with
  | Some [] => str "/"
  | Some parent => parent
  | None => []
  end.

Section json.
(** [fs::read] of a [source], against the directory of the layout file. *)
Context (read_source : list Z → option (list Z)).

(** The loop over [json.contains], which the children's results are put in. *)
Fixpoint check_names (children : list (outcome ToolError LayoutNode)) (names : list (list Z))
    : outcome ToolError (list LayoutNode) :=
  match children with
  | [] => Ok []
  | child :: rest =>
      let? child := child in
      let '(mkLayout name _) := child in
      if bool_decide (name ∈ names) then Err DuplicateName else
      let? rest := check_names rest (name :: names) in
      Ok (child :: rest)
  end.

(** [layout_from_json]. *)
Fixpoint layout_from_json (json : JsonLayoutNode) (parent_path : list Z) (is_root : bool)
    : outcome ToolError LayoutNode :=
  let raw_path := default (if is_root then str "/" else []) (j_path json) in
  let? path := normalize_path parent_path raw_path is_root in
  if negb is_root && bool_decide (head raw_path = Some 47) &&
     bool_decide (absolute_parent path ≠ parent_path) then Err NotContained else
  let? name :=
    if is_root then Ok []
    else if bool_decide (file_name path = []) then Err InvalidPath else Ok (file_name path) in
  if (27 <? length name)%nat then Err NameTooLong else
  if bool_decide (j_ty json = str "directory" ∨ j_ty json = str "dir") then
    let? children := check_names (map (λ child, layout_from_json child path false) (j_contains json)) [] in
    Ok (mkLayout name (LDirectory children))
  else if bool_decide (j_ty json = str "file") then
    match j_content json, j_contents json, j_source json with
    | Some content, _, _ => Ok (mkLayout name (LFile content))
    | None, Some content, _ => Ok (mkLayout name (LFile content))
    | None, None, Some source =>
        let? data := ok_or (read_source source) HostIo in Ok (mkLayout name (LFile data))
    | None, None, None => Ok (mkLayout name (LFile []))
    end
  else Err UnknownType.

(** [parse_layout_file], after [serde_json]. *)
Definition parse_layout_file (json : option JsonLayoutNode) : outcome ToolError LayoutNode :=
  let? json := ok_or json InvalidJson in layout_from_json json [] true.
End json.

(** ** Allocation *)

(** [next_inum] and [next_data_block]. *)
Abbreviation AM := (M (Z * Z) ToolError).

(** [blocks_needed]. *)
Definition blocks_needed (bytes : Z) : Z :=
  if bytes =? 0 then 0 else (bytes + BLOCK_SIZE - 1) / BLOCK_SIZE.

(** [allocate_blocks]. *)
Definition allocate_blocks (count : Z) : AM (list Z) := λ s,
  let '(next_inum, next_data_block) := s in
  match checked_add 32 next_data_block (count mod 2 ^ 32) with
  | None => (Err BlockCountOverflow, s)
  | Some end_block =>
      if NBLOCKS <? end_block then (Err TooManyDataBlocks, s)
      else (Ok (seqZ next_data_block (end_block - next_data_block)), (next_inum, end_block))
  end.

(** [allocate_node_blocks]. *)
Definition allocate_node_blocks (count : Z) : AM (list Z * Z) :=
  if MAX_DATA_BLOCKS <? count then fail TooManyBlocksInFile else
  let! blocks := allocate_blocks count in
  if DIRECT_BLOCKS <? count then
    let! ind := allocate_blocks 1 in
    let! indirect_block := lift (unwrap (head ind)) in
    ret (blocks, indirect_block)
  else ret (blocks, 0).

(** [allocate_node]. *)
Fixpoint allocate_node (node : LayoutNode) : AM FsNode :=
  let '(mkLayout name kind) := node in
  let! s := gets (λ s, s) in
  if NINODES <=? s.1 then fail TooManyInodes else
  let inum := s.1 in
  let! next := lift (add_ov 32 s.1 1) in
  modify (λ s, (next, s.2)) ;;;
  match kind with
  | LDirectory children =>
      let! allocated_children := traverse allocate_node children in
      let dirent_count := 2 + Z.of_nat (length allocated_children) in
      let! p := allocate_node_blocks (blocks_needed (dirent_count * DIRENT_BYTES)) in
      ret (mkFs inum p.1 p.2 name (FDirectory allocated_children))
  | LFile data =>
      let! p := allocate_node_blocks (blocks_needed (Z.of_nat (length data))) in
      ret (mkFs inum p.1 p.2 name (FFile data))
  end.

(** [allocate_layout]. *)
Definition allocate_layout (layout : LayoutNode) : outcome ToolError FsNode :=
  (allocate_node layout (ROOT_INO, DATA_BLOCK_START)).1.

(** ** The image *)

Record Img := mkImg { img_len : Z; img_byte : Z → Z }.

Abbreviation IM := (M Img ToolError).

(** A seek to [off] and [write_all]. *)
Definition put_bytes (off : Z) (bs : list Z) (img : Img) : Img :=
  mkImg (Z.max (img_len img) (off + Z.of_nat (length bs)))
    (λ o, if (off <=? o) && (o <? off + Z.of_nat (length bs))
          then bs !!! Z.to_nat (o - off) else img_byte img o).

(** [block_offset] and [inode_offset]. *)
Definition block_offset (block : Z) : Z := block * BLOCK_SIZE.
Definition inode_at (inum : Z) : Z := block_offset INODE_TABLE_START + inum * INODE_BYTES.

(** [[0; BLOCK_SIZE]]. *)
Definition zero_block : list Z := replicate (Z.to_nat BLOCK_SIZE) 0.

(** [write_at_block]. *)
Definition write_at_block (block : Z) (buf : list Z) : IM unit :=
  assert (Z.of_nat (length buf) <=? BLOCK_SIZE) ;;;
  modify (put_bytes (block_offset block) buf).

(** [write_struct], on the bytes of the structure. *)
Definition write_struct (offset : Z) (bytes : list Z) : IM unit := modify (put_bytes offset bytes).

(** The bytes of the tool's [SuperBlock]. *)
Definition encode_superblock (sb : SuperBlock) : list Z :=
  le 4 (magic sb) ++ le 4 (nblocks sb) ++ le 4 (ninodes sb) ++ le 4 (inode_bitmap_block sb) ++
  le 4 (data_bitmap_block sb) ++ le 4 (inode_table_start sb) ++ le 4 (inode_table_blocks sb) ++
  le 4 (data_block_start sb).

(** [write_superblock]. *)
Definition tool_superblock : SuperBlock :=
  mkSuper VSFS_MAGIC NBLOCKS NINODES INODE_BITMAP_BLOCK DATA_BITMAP_BLOCK
    INODE_TABLE_START INODE_TABLE_BLOCKS DATA_BLOCK_START.
Definition write_superblock : IM unit :=
  write_struct (block_offset SUPER_BLOCK) (encode_superblock tool_superblock).

(** [set_bit]: an index outside the bitmap panics. *)
Definition tool_set_bit (bit : Z) : M (list Z) ToolError unit :=
  let! bitmap := gets (λ b, b) in
  assert (bit / 8 <? Z.of_nat (length bitmap)) ;;;
  modify (λ bitmap, set_bit bitmap bit).

(** [visit_nodes]. *)
Fixpoint visit_nodes {S} (f : FsNode → M S ToolError unit) (node : FsNode) : M S ToolError unit :=
  f node ;;;
  let '(mkFs _ _ _ _ kind) := node in
  match kind with
  | FDirectory children => traverse (visit_nodes f) children ;;; ret tt
  | FFile _ => ret tt
  end.

(** A bitmap filled by a visit and written to its block. *)
Definition write_bitmap (block : Z) (m : M (list Z) ToolError unit) : IM unit :=
  match m zero_block with
  | (Ok _, bitmap) => write_at_block block bitmap
  | (Err e, _) => fail e
  | (Panic, _) => panic
  | (Diverge, _) => diverge
  end.

(** [write_inode_bitmap] and [write_data_bitmap]. *)
Definition mark_inode (node : FsNode) : M (list Z) ToolError unit :=
  let '(mkFs inum _ _ _ _) := node in tool_set_bit inum.
Definition mark_blocks (node : FsNode) : M (list Z) ToolError unit :=
  let '(mkFs _ data_blocks indirect_block _ _) := node in
  for_each (λ block, let! bit := lift (sub_ov block DATA_BLOCK_START) in tool_set_bit bit) data_blocks ;;;
  if negb (indirect_block =? 0) then
    let! bit := lift (sub_ov indirect_block DATA_BLOCK_START) in tool_set_bit bit
  else ret tt.
Definition write_inode_bitmap (root : FsNode) : IM unit :=
  write_bitmap INODE_BITMAP_BLOCK (visit_nodes mark_inode root).
Definition write_data_bitmap (root : FsNode) : IM unit :=
  write_bitmap DATA_BITMAP_BLOCK (visit_nodes mark_blocks root).

(** [direct_blocks]. *)
Definition direct_blocks_of (data_blocks : list Z) : list Z :=
  take 12 data_blocks ++ replicate (12 - length data_blocks) 0.

(** [dirent]. *)
Definition dirent (inum : Z) (name : list Z) : outcome ToolError DirEnt :=
  if negb (length name <=? 27)%nat then Panic
  else Ok (mkDirEnt inum (Z.of_nat (length name) mod 256) (padded_name name)).

(** [write_indirect_block]. *)
Fixpoint fill_block (index : Z) (blocks : list Z) (block : list Z) : list Z :=
  match blocks with
  | [] => block
  | data_block :: blocks => fill_block (index + 1) blocks (splice (index * 4) (le 4 data_block) block)
  end.
Definition write_indirect_block (node : FsNode) : IM unit :=
  let '(mkFs _ data_blocks indirect_block _ _) := node in
  if indirect_block =? 0 then ret tt else
  assert (DIRECT_BLOCKS <=? Z.of_nat (length data_blocks)) ;;;
  let indirect_data_blocks := drop 12 data_blocks in
  assert (Z.of_nat (length indirect_data_blocks) <=? INDIRECT_BLOCK_ENTRIES) ;;;
  write_at_block indirect_block (fill_block 0 indirect_data_blocks zero_block).

(** The loops of [write_file] and [write_dir_blocks] over the node's blocks:
    [&bytes[start..end]] panics when [start > end]. *)
Fixpoint write_blocks (block_idx : Z) (data_blocks : list Z) (bytes : list Z) : IM unit :=
  match data_blocks with
  | [] => ret tt
  | block :: data_blocks =>
      let start := block_idx * BLOCK_SIZE in
      let end_ := Z.min (start + BLOCK_SIZE) (Z.of_nat (length bytes)) in
      assert (start <=? end_) ;;;
      write_at_block block (slice start (end_ - start) bytes) ;;;
      write_blocks (block_idx + 1) data_blocks bytes
  end.

(** [write_file]. *)
Definition write_file (inum : Z) (data_blocks : list Z) (indirect_block : Z) (data : list Z) : IM unit :=
  let inode := mkInner TFile 1 0 (Z.of_nat (length data) mod 2 ^ 32) (direct_blocks_of data_blocks)
    indirect_block in
  write_struct (inode_at inum) (encode_inode inode) ;;;
  write_blocks 0 data_blocks data.

(** [write_dir_inode]. *)
Definition write_dir_inode (inum : Z) (data_blocks : list Z) (indirect_block : Z) (children : list FsNode) : IM unit :=
  let inode := mkInner TDirectory 1 0 (((2 + Z.of_nat (length children)) * DIRENT_BYTES) mod 2 ^ 32)
    (direct_blocks_of data_blocks) indirect_block in
  write_struct (inode_at inum) (encode_inode inode).

(** [write_dir_blocks]. *)
Definition child_dirent (child : FsNode) : outcome ToolError DirEnt :=
  let '(mkFs inum _ _ name _) := child in dirent inum name.
Definition write_dir_blocks (inum : Z) (data_blocks : list Z) (parent_inum : Z) (children : list FsNode) : IM unit :=
  let! self := lift (dirent inum (str ".")) in
  let! up := lift (dirent parent_inum (str "..")) in
  let! entries := traverse (λ child, lift (child_dirent child)) children in
  write_blocks 0 data_blocks ((self :: up :: entries) ≫= encode_dirent).

(** [write_node]. *)
Fixpoint write_node (node : FsNode) (parent_inum : Z) : IM unit :=
  write_indirect_block node ;;;
  let '(mkFs inum data_blocks indirect_block _ kind) := node in
  match kind with
  | FDirectory children =>
      write_dir_inode inum data_blocks indirect_block children ;;;
      write_dir_blocks inum data_blocks parent_inum children ;;;
      traverse (λ child, write_node child inum) children ;;; ret tt
  | FFile data => write_file inum data_blocks indirect_block data
  end.

(** [write_image], into a new file. *)
Definition write_image (root : FsNode) : IM unit :=
  modify (λ _, mkImg (NBLOCKS * BLOCK_SIZE) (λ _, 0)) ;;;
  write_superblock ;;;
  write_inode_bitmap root ;;;
  write_data_bitmap root ;;;
  write_node root ROOT_INO.

(** [main], after the layout is read: the image. *)
Definition make_image (layout : LayoutNode) : outcome ToolError Img :=
  let? fs := allocate_layout layout in
  let '(r, img) := write_image fs (mkImg 0 (λ _, 0)) in
  let? _ := r in Ok img.

(** [main]: the path and the contents of the image that is written, or [None]
    when only the usage is printed.  [json] is [serde_json]'s result for a file,
    [host] what the host shows of a path, and [source] the contents of a source
    that a layout file names. *)
Definition tool_layout (json : list Z → option JsonLayoutNode) (source : list Z → list Z → option (list Z))
    (host : list Z → Host) (input : option ToolInput) : outcome ToolError LayoutNode :=
  match input with
  | Some (Layout path) => parse_layout_file (source path) (json path)
  | Some (Root path) => parse_root_dir (host path)
  | None => Ok default_layout
  end.
Definition tool_main (json : list Z → option JsonLayoutNode) (source : list Z → list Z → option (list Z))
    (host : list Z → Host) (args : list (list Z)) : outcome ToolError (option (list Z * Img)) :=
  let? config := parse args in
  match config with
  | None => Ok None
  | Some config =>
      let? layout := tool_layout json source host (input config) in
      let? img := make_image layout in
      Ok (Some (output_path config, img))
  end.
