(* ===== verification/VsfsToolAlloc.v ===== *)
(** * The image tool: allocation

    [allocate_layout] numbers the nodes of a layout and gives each its blocks:
    when it succeeds, what it assigned, and when that is. *)

From S2P Require Import Prelude Errors Vfs Vsfs VsfsTool.

(** ** Trees *)

Section layout_ind.
Context (P : LayoutNode → Prop).
Context (Hdir : ∀ nm cs, Forall P cs → P (mkLayout nm (LDirectory cs))).
Context (Hfile : ∀ nm data, P (mkLayout nm (LFile data))).
Fixpoint layout_induction (l : LayoutNode) : P l :=
  match l with
  | mkLayout nm (LDirectory cs) =>
      Hdir nm cs ((fix go cs : Forall P cs :=
        match cs with
        | [] => Forall_nil_2 _
        | c :: cs => Forall_cons_2 _ _ _ (layout_induction c) (go cs)
        end) cs)
  | mkLayout nm (LFile data) => Hfile nm data
  end.
End layout_ind.

Section fs_ind.
Context (P : FsNode → Prop).
Context (Hdir : ∀ n bs ind nm cs, Forall P cs → P (mkFs n bs ind nm (FDirectory cs))).
Context (Hfile : ∀ n bs ind nm data, P (mkFs n bs ind nm (FFile data))).
Fixpoint fs_induction (f : FsNode) : P f :=
  match f with
  | mkFs n bs ind nm (FDirectory cs) =>
      Hdir n bs ind nm cs ((fix go cs : Forall P cs :=
        match cs with
        | [] => Forall_nil_2 _
        | c :: cs => Forall_cons_2 _ _ _ (fs_induction c) (go cs)
        end) cs)
  | mkFs n bs ind nm (FFile data) => Hfile n bs ind nm data
  end.
End fs_ind.

Definition f_inum (f : FsNode) : Z := let '(mkFs n _ _ _ _) := f in n.
Definition f_name (f : FsNode) : list Z := let '(mkFs _ _ _ nm _) := f in nm.
Definition l_name (l : LayoutNode) : list Z := let '(mkLayout nm _) := l in nm.

(** The layout of a tree of nodes. *)
Fixpoint erase (f : FsNode) : LayoutNode :=
  let '(mkFs _ _ _ nm kind) := f in
  mkLayout nm match kind with
    | FDirectory cs => LDirectory (map erase cs)
    | FFile data => LFile data
    end.

(** The nodes, each with its parent's number, parents first. *)
Fixpoint nodes (f : FsNode) (parent : Z) : list (FsNode * Z) :=
  let '(mkFs n _ _ _ kind) := f in
  (f, parent) ::
  match kind with
  | FDirectory cs => concat (map (λ c, nodes c n) cs)
  | FFile _ => []
  end.

(** The bytes a node has to store. *)
Definition node_size (f : FsNode) : Z :=
  let '(mkFs _ _ _ _ kind) := f in
  match kind with
  | FDirectory cs => (2 + Z.of_nat (length cs)) * 32
  | FFile data => Z.of_nat (length data)
  end.

(** The blocks of a node. *)
Definition node_blocks (f : FsNode) : list Z :=
  let '(mkFs _ bs ind _ _) := f in bs ++ if ind =? 0 then [] else [ind].

Definition inums (fs : list (FsNode * Z)) : list Z := (λ p, f_inum p.1) <$> fs.
Definition blocks (fs : list (FsNode * Z)) : list Z := fs ≫= λ p, node_blocks p.1.

(** A node has the blocks for its size, and an indirect block exactly when the
    direct ones are not enough. *)
Definition allocated (f : FsNode) : Prop :=
  let '(mkFs _ bs ind _ _) := f in
  Z.of_nat (length bs) = blocks_needed (node_size f) ∧
  Z.of_nat (length bs) ≤ MAX_DATA_BLOCKS ∧ (ind = 0 ↔ Z.of_nat (length bs) ≤ 12).

(** ** What a layout needs *)

Definition extra (count : Z) : Z := if 12 <? count then 1 else 0.

(** Inodes and blocks. *)
Fixpoint inodes_of (l : LayoutNode) : Z :=
  let '(mkLayout _ kind) := l in
  1 + match kind with
      | LDirectory cs => foldr Z.add 0 (map inodes_of cs)
      | LFile _ => 0
      end.
Fixpoint blocks_of (l : LayoutNode) : Z :=
  let '(mkLayout _ kind) := l in
  match kind with
  | LDirectory cs =>
      let n := blocks_needed ((2 + Z.of_nat (length cs)) * 32) in
      foldr Z.add 0 (map blocks_of cs) + (n + extra n)
  | LFile data => let n := blocks_needed (Z.of_nat (length data)) in n + extra n
  end.

Lemma blocks_needed_nonneg n : 0 ≤ n → 0 ≤ blocks_needed n.
Proof.
  intros Hn. unfold blocks_needed, BLOCK_SIZE. destruct (n =? 0); [lia|].
  Z.div_mod_to_equations; lia.
Qed.

Lemma blocks_of_nonneg l : 0 ≤ blocks_of l.
Proof.
  induction l as [nm cs IH|nm data] using layout_induction; cbn [blocks_of].
  - pose proof (blocks_needed_nonneg ((2 + Z.of_nat (length cs)) * 32)).
    unfold extra. assert (0 ≤ foldr Z.add 0 (map blocks_of cs)); [|destruct (_ <? _); lia].
    clear H. induction IH; cbn [map foldr]; lia.
  - pose proof (blocks_needed_nonneg (Z.of_nat (length data))). unfold extra. destruct (_ <? _); lia.
Qed.

Lemma inodes_of_pos l : 1 ≤ inodes_of l.
Proof.
  induction l as [nm cs IH|nm data] using layout_induction; cbn [inodes_of]; [|lia].
  assert (0 ≤ foldr Z.add 0 (map inodes_of cs)); [|lia]. induction IH; cbn [map foldr]; lia.
Qed.

(** ** Blocks *)

Lemma seqZ_split a n m : 0 ≤ n → 0 ≤ m → seqZ a (n + m) = seqZ a n ++ seqZ (a + n) m.
Proof. intros. by rewrite seqZ_app. Qed.

Lemma allocate_blocks_spec count ni nb : 0 ≤ count ≤ MAX_DATA_BLOCKS → 0 ≤ nb ≤ NBLOCKS →
  allocate_blocks count (ni, nb) =
    if nb + count <=? NBLOCKS then (Ok (seqZ nb count), (ni, nb + count))
    else (Err TooManyDataBlocks, (ni, nb)).
Proof.
  change MAX_DATA_BLOCKS with 1036. change NBLOCKS with 128. intros Hc Hb. unfold allocate_blocks, checked_add. rewrite Z.mod_small by lia.
  rewrite (proj2 (Z.ltb_lt (nb + count) (2 ^ 32))) by lia. change NBLOCKS with 128.
  destruct (Z.ltb_spec 128 (nb + count)), (Z.leb_spec (nb + count) 128); [lia|done| |lia].
  by rewrite Z.add_simpl_l.
Qed.

Lemma allocate_node_blocks_spec count ni nb : 0 ≤ count → 8 ≤ nb ≤ 128 →
  match allocate_node_blocks count (ni, nb) with
  | (Ok (bs, ind), s) => s = (ni, nb + (count + extra count)) ∧ nb + (count + extra count) ≤ 128 ∧
      (bs ++ if ind =? 0 then [] else [ind]) = seqZ nb (count + extra count) ∧
      Z.of_nat (length bs) = count ∧ count ≤ MAX_DATA_BLOCKS ∧ (ind = 0 ↔ count ≤ 12)
  | (Err _, _) => 128 < nb + (count + extra count)
  | _ => False
  end.
Proof.
  intros Hc Hb. unfold allocate_node_blocks, extra. change DIRECT_BLOCKS with 12.
  change MAX_DATA_BLOCKS with 1036.
  destruct (Z.ltb_spec 1036 count) as [H0|H0].
  { cbn. destruct (Z.ltb_spec 12 count); lia. }
  unfold bind at 1. rewrite allocate_blocks_spec by (change MAX_DATA_BLOCKS with 1036; change NBLOCKS with 128; lia).
  change NBLOCKS with 128. destruct (Z.leb_spec (nb + count) 128).
  2: { destruct (12 <? count); lia. }
  destruct (Z.ltb_spec 12 count).
  - unfold bind at 1.
    rewrite allocate_blocks_spec by (change MAX_DATA_BLOCKS with 1036; change NBLOCKS with 128; lia).
    change NBLOCKS with 128. destruct (Z.leb_spec (nb + count + 1) 128); [|lia].
    assert (seqZ (nb + count) 1 = [nb + count]) as -> by reflexivity.
    cbn -[seqZ]. destruct (Z.eqb_spec (nb + count) 0); [lia|]. rewrite length_seqZ.
    split_and!; [by rewrite Z.add_assoc|lia| |lia|lia|lia]. by rewrite seqZ_split by lia.
  - cbn -[seqZ]. rewrite app_nil_r, length_seqZ, !Z.add_0_r. split_and!; try done; lia.
Qed.

(** ** Nodes *)

(** [fs] has the numbers from [ni] and the blocks from [nb]. *)
Definition assigned (fs : list (FsNode * Z)) (ni nb inodes blks : Z) : Prop :=
  inums fs = seqZ ni inodes ∧ blocks fs ≡ₚ seqZ nb blks ∧ Forall (λ q, allocated q.1) fs.

Lemma assigned_app fs1 fs2 ni nb i1 b1 i2 b2 : 0 ≤ i1 → 0 ≤ b1 → 0 ≤ i2 → 0 ≤ b2 →
  assigned fs1 ni nb i1 b1 → assigned fs2 (ni + i1) (nb + b1) i2 b2 →
  assigned (fs1 ++ fs2) ni nb (i1 + i2) (b1 + b2).
Proof.
  intros ? ? ? ? (Hi1 & Hb1 & Ha1) (Hi2 & Hb2 & Ha2). unfold assigned, inums, blocks in *.
  rewrite fmap_app, bind_app, Hi1, Hi2, Hb1, Hb2, !seqZ_split by lia.
  split_and!; [done..|]. by apply Forall_app.
Qed.

Definition sum (f : LayoutNode → Z) (ls : list LayoutNode) : Z := foldr Z.add 0 (map f ls).

Lemma sum_nonneg f ls : (∀ l, 0 ≤ f l) → 0 ≤ sum f ls.
Proof. intros Hf. unfold sum. induction ls as [|l ls IH]; cbn; [lia|]. specialize (Hf l). lia. Qed.

(** A result of [allocate_node], or of the loop over a directory's children. *)
Definition result_ok {A} (r : outcome ToolError A * (Z * Z)) (ni nb inodes blks : Z) (P : A → Prop) : Prop :=
  match r with
  | (Ok a, s) => s = (ni + inodes, nb + blks) ∧ ni + inodes ≤ 80 ∧ nb + blks ≤ 128 ∧ P a
  | (Err _, _) => 80 < ni + inodes ∨ 128 < nb + blks
  | _ => False
  end.

Definition node_result l ni nb (fs : FsNode) : Prop :=
  erase fs = l ∧ ∀ p, assigned (nodes fs p) ni nb (inodes_of l) (blocks_of l).

Lemma inodes_of_nonneg l : 0 ≤ inodes_of l.
Proof. pose proof (inodes_of_pos l). lia. Qed.

Lemma allocate_children_spec cs : Forall (λ l, ∀ ni nb, 0 ≤ ni ≤ 80 → 8 ≤ nb ≤ 128 →
    result_ok (allocate_node l (ni, nb)) ni nb (inodes_of l) (blocks_of l) (node_result l ni nb)) cs →
  ∀ ni nb, 0 ≤ ni ≤ 80 → 8 ≤ nb ≤ 128 →
  result_ok (traverse allocate_node cs (ni, nb)) ni nb (sum inodes_of cs) (sum blocks_of cs)
    (λ fs, map erase fs = cs ∧
      ∀ p, assigned (concat (map (λ c, nodes c p) fs)) ni nb (sum inodes_of cs) (sum blocks_of cs)).
Proof.
  induction 1 as [|l ls Hl Hls IH]; intros ni nb Hni Hnb.
  { cbn. rewrite !Z.add_0_r. split_and!; try done; lia. }
  pose proof (inodes_of_nonneg l). pose proof (blocks_of_nonneg l).
  pose proof (sum_nonneg inodes_of ls inodes_of_nonneg). pose proof (sum_nonneg blocks_of ls blocks_of_nonneg).
  change (sum inodes_of (l :: ls)) with (inodes_of l + sum inodes_of ls).
  change (sum blocks_of (l :: ls)) with (blocks_of l + sum blocks_of ls).
  cbn [traverse]. unfold bind at 1. specialize (Hl ni nb Hni Hnb).
  destruct (allocate_node l (ni, nb)) as [[f|e| |] s]; cbn in Hl; [|cbn; lia|done..].
  destruct Hl as (-> & Hi & Hb & Her & Has). unfold bind at 1.
  specialize (IH (ni + inodes_of l) (nb + blocks_of l) ltac:(lia) ltac:(lia)).
  destruct (traverse allocate_node ls _) as [[fs|e| |] s]; cbn in IH; [|cbn; lia|done..].
  destruct IH as (-> & Hi' & Hb' & Hers & Hass). cbn [ret result_ok map concat].
  rewrite !Z.add_assoc, Her, Hers. split_and!; [done..|]. intros p. by apply assigned_app.
Qed.

(** The node itself, whose blocks come after those of the nodes below it. *)
Lemma own_assigned f p fs ni nb i b own : 0 ≤ i → 0 ≤ b → 0 ≤ own → f_inum f = ni →
  node_blocks f = seqZ (nb + b) own → allocated f → assigned fs (ni + 1) nb i b →
  assigned ((f, p) :: fs) ni nb (1 + i) (b + own).
Proof.
  intros ? ? ? Hi Hbl Hal (His & Hbs & Has). unfold assigned, inums, blocks in *. csimpl.
  rewrite Hi, Hbl, His, Hbs, (seqZ_cons ni), seqZ_split by lia.
  split_and!; [do 2 f_equal; lia|apply Permutation_app_comm|by apply Forall_cons].
Qed.

(** Numbering a node below the limit. *)
Lemma allocate_node_number {A} (k : Z * Z → M (Z * Z) ToolError A) ni nb : 0 ≤ ni < 80 →
  (let! s := gets (λ s, s) in
   if NINODES <=? s.1 then fail TooManyInodes else
   let! next := lift (add_ov 32 s.1 1) in modify (λ s, (next, s.2)) ;;; k s) (ni, nb)
  = k (ni, nb) (ni + 1, nb).
Proof.
  intros Hni. unfold bind, gets, lift, modify, add_ov, checked_add. cbn [fst snd]. change NINODES with 80.
  destruct (Z.leb_spec 80 ni); [lia|]. by rewrite (proj2 (Z.ltb_lt (ni + 1) (2 ^ 32))) by lia.
Qed.

Lemma allocate_node_spec l : ∀ ni nb, 0 ≤ ni ≤ 80 → 8 ≤ nb ≤ 128 →
  result_ok (allocate_node l (ni, nb)) ni nb (inodes_of l) (blocks_of l) (node_result l ni nb).
Proof.
  induction l as [nm cs IH|nm data] using layout_induction; intros ni nb Hni Hnb;
    (destruct (decide (ni = 80)) as [->|Hne]; [left; match goal with |- context [inodes_of ?l] =>
      pose proof (inodes_of_pos l); lia end|]); cbn [allocate_node].
  - rewrite (allocate_node_number (λ s, let! fs := traverse allocate_node cs in _)) by lia.
    pose proof (allocate_children_spec cs IH (ni + 1) nb ltac:(lia) Hnb) as Hc.
    pose proof (sum_nonneg inodes_of cs inodes_of_nonneg). pose proof (sum_nonneg blocks_of cs blocks_of_nonneg).
    pose proof (blocks_needed_nonneg ((2 + Z.of_nat (length cs)) * 32) ltac:(lia)) as Hn.
    cbn [inodes_of blocks_of]. fold (sum inodes_of cs). fold (sum blocks_of cs).
    set (n := blocks_needed ((2 + Z.of_nat (length cs)) * 32)) in *.
    assert (0 ≤ extra n) by (unfold extra; destruct (_ <? _); lia).
    unfold bind at 1. destruct (traverse allocate_node cs _) as [[fs|e| |] s]; cbn in Hc; [|cbn; lia|done..].
    destruct Hc as (-> & Hi & Hb & Her & Has). change DIRENT_BYTES with 32.
    assert (length fs = length cs) as Hlen by (by rewrite <-Her, length_map). rewrite Hlen. fold n.
    pose proof (allocate_node_blocks_spec n (ni + 1 + sum inodes_of cs) (nb + sum blocks_of cs) Hn ltac:(lia)) as Hbl.
    unfold bind at 1. destruct (allocate_node_blocks n _) as [[[bs ind]|e| |] s]; [|cbn; lia|done..].
    destruct Hbl as (-> & Hfit & Hseq & Hl & Hmax & Hind). cbn [ret result_ok fst snd].
    rewrite <-!Z.add_assoc. split_and!; [done|lia|lia|]. split; [by cbn; rewrite Her|].
    intros p. cbn [inodes_of blocks_of nodes]. fold (sum inodes_of cs). fold (sum blocks_of cs). fold n.
    apply own_assigned; [lia..|done| | |exact (Has ni)]; [cbn; by rewrite Hseq|].
    unfold allocated, node_size. rewrite Hlen. fold n. split_and!; [done|lia|lia].
  - rewrite (allocate_node_number (λ s, let! p := allocate_node_blocks _ in _)) by lia.
    cbn [inodes_of blocks_of].
    pose proof (blocks_needed_nonneg (Z.of_nat (length data)) ltac:(lia)) as Hn.
    set (n := blocks_needed (Z.of_nat (length data))) in *.
    assert (0 ≤ extra n) by (unfold extra; destruct (_ <? _); lia).
    pose proof (allocate_node_blocks_spec n (ni + 1) nb Hn Hnb) as Hbl.
    unfold bind at 1. destruct (allocate_node_blocks n _) as [[[bs ind]|e| |] s]; [|cbn; lia|done..].
    destruct Hbl as (-> & Hfit & Hseq & Hl & Hmax & Hind). cbn [ret result_ok fst snd].
    split_and!; [done|lia|lia|]. split; [done|].
    intros p. cbn [inodes_of blocks_of nodes]. fold n.
    apply (own_assigned _ _ [] ni nb 0 0 (n + extra n)); [lia..|done| | |done].
    + cbn. by rewrite Hseq, Z.add_0_r.
    + unfold allocated, node_size. fold n. split_and!; [done|lia|lia].
Qed.

(** [allocate_layout] succeeds exactly when the layout's nodes fit in the
    inode table and their blocks, with an indirect block for each node of more
    than twelve, fit on the disk.  It then keeps the tree, gives the nodes the
    numbers from 1 in the order of a walk, gives each node as many blocks as its
    contents need, and gives no block twice: together they are the blocks from 8
    on. *)
Theorem allocate_layout_spec l :
  match allocate_layout l with
  | Ok fs =>
      inodes_of l < NINODES ∧ DATA_BLOCK_START + blocks_of l ≤ NBLOCKS ∧ erase fs = l ∧
      inums (nodes fs ROOT_INO) = seqZ 1 (inodes_of l) ∧
      blocks (nodes fs ROOT_INO) ≡ₚ seqZ 8 (blocks_of l) ∧
      Forall (λ p, allocated p.1) (nodes fs ROOT_INO)
  | Err _ => NINODES ≤ inodes_of l ∨ NBLOCKS < DATA_BLOCK_START + blocks_of l
  | _ => False
  end.
Proof.
  pose proof (allocate_node_spec l ROOT_INO DATA_BLOCK_START ltac:(done) ltac:(done)) as H.
  unfold allocate_layout. change NINODES with 80. change NBLOCKS with 128.
  destruct (allocate_node l _) as [[fs|e| |] s]; cbn [fst result_ok] in *; [|unfold ROOT_INO in H; lia|done..].
  destruct H as (_ & Hi & Hb & Her & Has). destruct (Has ROOT_INO) as (Hin & Hbl & Hal).
  unfold ROOT_INO, DATA_BLOCK_START in *. split_and!; [lia|lia|done..].
Qed.
