(* ===== verification/VsfsToolImg.v ===== *)
(** * The image tool: what an image holds

    [write_image] as a list of writes, one per record (the superblock, the two
    bitmaps, an inode, a data block): the records do not overlap, so each can be
    read back. *)

From Stdlib Require Import Strings.String.
From S2P Require Import Prelude Errors Vfs Vsfs VsfsIO VsfsDir VsfsCreate VsfsTool VsfsToolAlloc.

(** ** Records *)

Inductive key := KSuper | KInodeBitmap | KDataBitmap | KInode (n : Z) | KBlock (b : Z).

Definition key_off (k : key) : Z :=
  match k with
  | KSuper => 0
  | KInodeBitmap => 4096
  | KDataBitmap => 8192
  | KInode n => 12288 + n * 64
  | KBlock b => b * 4096
  end.
Definition key_size (k : key) : Z := match k with KInode _ => 64 | _ => 4096 end.

(** The records of an image of 128 blocks with 80 inodes. *)
Definition key_ok (k : key) : Prop :=
  match k with KInode n => 0 ≤ n < 80 | KBlock b => 8 ≤ b < 128 | _ => True end.

Lemma key_disjoint k k' i j : key_ok k → key_ok k' → k ≠ k' →
  0 ≤ i < key_size k → 0 ≤ j < key_size k' → key_off k + i ≠ key_off k' + j.
Proof.
  destruct k, k'; cbn; intros Hk Hk' Hne Hi Hj; try (by destruct Hne); try lia.
  - assert (n ≠ n0) by congruence. lia.
  - assert (b ≠ b0) by congruence. lia.
Qed.

(** ** Lists of writes *)

Definition put_all (ws : list (key * list Z)) (img : Img) : Img :=
  foldl (λ img w, put_bytes (key_off w.1) w.2 img) img ws.

Definition write_ok (w : key * list Z) : Prop :=
  key_ok w.1 ∧ Z.of_nat (length w.2) ≤ key_size w.1 ∧ Forall is_u8 w.2.

(** What a record holds when [bs] was written to it. *)
Definition padded (bs : list Z) (j : Z) : Z :=
  if j <? Z.of_nat (length bs) then bs !!! Z.to_nat j else 0.

Lemma put_bytes_other off bs img o : o < off ∨ off + Z.of_nat (length bs) ≤ o →
  img_byte (put_bytes off bs img) o = img_byte img o.
Proof.
  intros Ho. cbn. destruct (Z.leb_spec off o), (Z.ltb_spec o (off + Z.of_nat (length bs))); try done; lia.
Qed.

Lemma put_bytes_here off bs img j : 0 ≤ j < Z.of_nat (length bs) →
  img_byte (put_bytes off bs img) (off + j) = bs !!! Z.to_nat j.
Proof.
  intros Hj. cbn. rewrite (proj2 (Z.leb_le off (off + j))), (proj2 (Z.ltb_lt (off + j) _)) by lia.
  cbn. by rewrite Z.add_simpl_l.
Qed.

Lemma put_all_other ws k j img : Forall write_ok ws → k ∉ ws.*1 → key_ok k → 0 ≤ j < key_size k →
  img_byte (put_all ws img) (key_off k + j) = img_byte img (key_off k + j).
Proof.
  revert img. induction ws as [|[k' bs] ws IH]; intros img Hws Hk Hok Hj; [done|].
  apply Forall_cons in Hws as [(Hok' & Hl & _) Hws]. cbn in Hok', Hl. csimpl in Hk.
  apply not_elem_of_cons in Hk as [Hne Hk]. 
  change (put_all ((k', bs) :: ws) img) with (put_all ws (put_bytes (key_off k') bs img)).
  rewrite IH by done. apply put_bytes_other.
  destruct (Z.lt_ge_cases (key_off k + j) (key_off k')); [by left|].
  destruct (Z.lt_ge_cases (key_off k + j) (key_off k' + Z.of_nat (length bs))); [|by right].
  exfalso. apply (key_disjoint k k' j (key_off k + j - key_off k')); [done..|lia|lia].
Qed.

(** Each record holds what was written to it, on a file that was all zeros. *)
Lemma put_all_read ws k bs j img : Forall write_ok ws → NoDup ws.*1 → (k, bs) ∈ ws →
  (∀ i, 0 ≤ i < key_size k → img_byte img (key_off k + i) = 0) → 0 ≤ j < key_size k →
  img_byte (put_all ws img) (key_off k + j) = padded bs j.
Proof.
  revert img. induction ws as [|[k' bs'] ws IH]; intros img Hws Hnd Hin Hz Hj; [by apply not_elem_of_nil in Hin|].
  apply Forall_cons in Hws as [(Hok' & Hl & Hb) Hws]. cbn in Hok', Hl. csimpl in Hnd.
  apply NoDup_cons in Hnd as [Hk Hnd]. 
  change (put_all ((k', bs') :: ws) img) with (put_all ws (put_bytes (key_off k') bs' img)).
  apply elem_of_cons in Hin as [[= <- <-]|Hin].
  - rewrite put_all_other by done. unfold padded. destruct (Z.ltb_spec j (Z.of_nat (length bs))).
    + by rewrite put_bytes_here by lia.
    + rewrite put_bytes_other by lia. by apply Hz.
  - assert (k ≠ k') as Hne by (intros ->; apply Hk; by apply (list_elem_of_fmap_2 fst) in Hin).
    assert (key_ok k) as Hok by (rewrite Forall_forall in Hws; by apply (Hws (k, bs))).
    apply IH; [done..| |done]. intros i Hi. rewrite put_bytes_other; [by apply Hz|].
    destruct (Z.lt_ge_cases (key_off k + i) (key_off k')); [by left|].
    destruct (Z.lt_ge_cases (key_off k + i) (key_off k' + Z.of_nat (length bs'))); [|by right].
    exfalso. apply (key_disjoint k k' i (key_off k + i - key_off k')); [done..|lia|lia].
Qed.

Lemma put_all_len ws img : Forall write_ok ws → img_len img = 524288 →
  img_len (put_all ws img) = 524288.
Proof.
  revert img. induction ws as [|[k bs] ws IH]; intros img Hws Hl; [done|].
  apply Forall_cons in Hws as [(Hok & Hsz & _) Hws]. apply IH; [done|]. cbn in *. rewrite Hl.
  assert (key_off k + key_size k ≤ 524288) by (destruct k; cbn in *; lia). lia.
Qed.

(** ** The writes of a node *)

Fixpoint block_writes (idx : Z) (bs : list Z) (bytes : list Z) : list (key * list Z) :=
  match bs with
  | [] => []
  | b :: bs =>
      (KBlock b, slice (idx * 4096) (Z.min (idx * 4096 + 4096) (Z.of_nat (length bytes)) - idx * 4096) bytes)
      :: block_writes (idx + 1) bs bytes
  end.

(** A directory's entries. *)
Definition dir_entries (inum parent : Z) (cs : list FsNode) : list DirEnt :=
  new_entry inum (str ".") :: new_entry parent (str "..") :: ((λ c, new_entry (f_inum c) (f_name c)) <$> cs).

(** A node's contents and its inode. *)
Definition node_content (f : FsNode) (parent : Z) : list Z :=
  let '(mkFs n _ _ _ kind) := f in
  match kind with
  | FDirectory cs => dir_entries n parent cs ≫= encode_dirent
  | FFile data => data
  end.
Definition node_type (f : FsNode) : Z :=
  let '(mkFs _ _ _ _ kind) := f in match kind with FDirectory _ => TDirectory | FFile _ => TFile end.
Definition node_inode (f : FsNode) : INodeInner :=
  let '(mkFs _ bs ind _ _) := f in mkInner (node_type f) 1 0 (node_size f) (direct_blocks_of bs) ind.

Definition node_writes (p : FsNode * Z) : list (key * list Z) :=
  let '(mkFs n bs ind _ _) := p.1 in
  (if ind =? 0 then [] else [(KBlock ind, fill_block 0 (drop 12 bs) zero_block)]) ++
  (KInode n, encode_inode (node_inode p.1)) :: block_writes 0 bs (node_content p.1 p.2).

(** ** The writes of an image *)

(** A node as [allocate_node] leaves it, with a number and blocks of the image,
    and a name and contents that fit. *)
Definition node_ok (p : FsNode * Z) : Prop :=
  allocated p.1 ∧ 0 ≤ f_inum p.1 < 80 ∧ 0 ≤ p.2 < 80 ∧
  Forall (λ b, 8 ≤ b < 128) (node_blocks p.1) ∧
  let '(mkFs _ _ _ _ kind) := p.1 in
  match kind with
  | FDirectory cs => Forall (λ c, (length (f_name c) ≤ 27)%nat ∧ Forall is_u8 (f_name c) ∧ 0 ≤ f_inum c < 80) cs
  | FFile data => Forall is_u8 data
  end.

Lemma blocks_needed_bounds n : 0 ≤ n → (blocks_needed n - 1) * 4096 < n ∨ n = 0 ∧ blocks_needed n = 0.
Proof.
  intros Hn. unfold blocks_needed. change BLOCK_SIZE with 4096. destruct (Z.eqb_spec n 0); [lia|].
  left. Z.div_mod_to_equations; lia.
Qed.

Lemma blocks_needed_enough n : 0 ≤ n → n ≤ blocks_needed n * 4096.
Proof.
  intros Hn. unfold blocks_needed. change BLOCK_SIZE with 4096. destruct (Z.eqb_spec n 0); [lia|].
  Z.div_mod_to_equations; lia.
Qed.

Lemma node_size_nonneg f : 0 ≤ node_size f.
Proof. destruct f as [? ? ? ? []]; cbn; lia. Qed.

Lemma allocated_size f : allocated f → 0 ≤ node_size f < 2 ^ 32.
Proof.
  intros Hal. pose proof (node_size_nonneg f). split; [done|].
  pose proof (blocks_needed_enough (node_size f)). destruct f as [n bs ind nm kind].
  unfold allocated in Hal. destruct Hal as (Hl & Hmax & _). change MAX_DATA_BLOCKS with 1036 in Hmax. lia.
Qed.

(** The loops over the blocks of a node do these writes. *)
Lemma write_blocks_spec bytes bs idx img : 0 ≤ idx →
  (∀ k, idx ≤ k < idx + Z.of_nat (length bs) → k * 4096 ≤ Z.of_nat (length bytes)) →
  write_blocks idx bs bytes img = (Ok tt, put_all (block_writes idx bs bytes) img).
Proof.
  revert idx img. induction bs as [|b bs IH]; intros idx img Hidx Hk; [done|].
  cbn [write_blocks block_writes length] in *. change BLOCK_SIZE with 4096.
  pose proof (Hk idx ltac:(lia)) as H0. unfold bind at 1, assert at 1.
  rewrite (proj2 (Z.leb_le (idx * 4096) _)) by lia.
  unfold bind at 1, write_at_block, assert, modify, bind. change BLOCK_SIZE with 4096.
  rewrite (proj2 (Z.leb_le (Z.of_nat (length (slice _ _ _))) 4096)).
  2: { unfold slice. rewrite length_take, length_drop. lia. }
  cbn [ret]. rewrite IH; [done|lia|]. intros k Hk'. apply Hk. lia.
Qed.

Lemma dirent_ok n nm : (length nm ≤ 27)%nat → dirent n nm = Ok (new_entry n nm).
Proof.
  intros Hl. unfold dirent. rewrite (proj2 (Nat.leb_le _ _) Hl). cbn. unfold new_entry.
  by rewrite Z.mod_small by lia.
Qed.


Lemma traverse_ok {S E A B} (f : A → M S E B) (g : A → B) xs s :
  Forall (λ x, f x s = (Ok (g x), s)) xs → traverse f xs s = (Ok (g <$> xs), s).
Proof.
  induction 1 as [|x xs Hx Hxs IH]; [done|]. cbn [traverse].
  by rewrite (bind_ok _ _ _ _ _ Hx), (bind_ok _ _ _ _ _ IH).
Qed.

(** The blocks of an allocated node are enough for its contents, and all used. *)
Lemma allocated_blocks f k : allocated f →
  let '(mkFs _ bs _ _ _) := f in 0 ≤ k < Z.of_nat (length bs) → k * 4096 ≤ node_size f.
Proof.
  intros Hal. pose proof (blocks_needed_bounds (node_size f) (node_size_nonneg f)).
  destruct f as [n bs ind nm kind]. destruct Hal as (Hl & _ & _). intros Hk. lia.
Qed.

Lemma str_bytes l : Forall is_u8 (str l).
Proof.
  unfold str. apply Forall_fmap, Forall_true. intros a. cbn. unfold in_width.
  pose proof (Ascii.N_ascii_bounded a). lia.
Qed.

Lemma dir_entries_wf f p : node_ok (f, p) → let '(mkFs n _ _ _ kind) := f in
  match kind with FDirectory cs => Forall dirent_wf (dir_entries n p cs) | _ => True end.
Proof.
  intros (_ & Hn & Hp & _ & Hk). cbn [fst snd] in *. destruct f as [n bs ind nm [cs|data]]; [|done]. cbn in Hn.
  unfold dir_entries. repeat apply Forall_cons_2.
  1,2: apply new_entry_wf; [unfold is_u32, in_width; lia|apply str_bytes|cbn; lia].
  apply Forall_fmap. eapply Forall_impl; [exact Hk|]. intros c (Hl & Hu & Hc). cbn.
  apply new_entry_wf; [unfold is_u32, in_width; lia|done..].
Qed.

Lemma encode_dirents_length es : Forall dirent_wf es → length (es ≫= encode_dirent) = (32 * length es)%nat.
Proof.
  induction 1 as [|e es He Hes IH]; [done|]. rewrite bind_cons, length_app, IH, encode_dirent_length by done.
  cbn [length]. lia.
Qed.

Lemma node_content_length f p : node_ok (f, p) → Z.of_nat (length (node_content f p)) = node_size f.
Proof.
  intros Hok. pose proof (dir_entries_wf f p Hok) as Hwf. destruct f as [n bs ind nm [cs|data]]; [|done].
  cbn [node_content node_size]. rewrite encode_dirents_length by done. unfold dir_entries. cbn [length].
  rewrite length_fmap. lia.
Qed.

(** The indirect block has the pointers one after the other. *)
Lemma zero_block_length : Z.of_nat (length zero_block) = 4096.
Proof. unfold zero_block. rewrite length_replicate. change BLOCK_SIZE with 4096. lia. Qed.

Lemma fill_block_length bs : ∀ idx block, 0 ≤ idx → (idx + Z.of_nat (length bs)) * 4 ≤ Z.of_nat (length block) →
  length (fill_block idx bs block) = length block.
Proof.
  induction bs as [|b bs IH]; intros idx block Hi Hl; [done|]. cbn [fill_block length] in *.
  assert (length (splice (idx * 4) (le 4 b) block) = length block) as Hs.
  { apply splice_length; [lia|]. rewrite le_length by lia. lia. }
  rewrite IH; rewrite ?Hs; [done|lia|lia].
Qed.

Lemma fill_block_bytes bs : ∀ idx block, Forall is_u8 block → Forall is_u8 (fill_block idx bs block).
Proof.
  induction bs as [|b bs IH]; intros idx block Hb; [done|]. cbn [fill_block].
  apply IH, splice_bytes; [by apply le_bytes|done].
Qed.

(** Below [idx] nothing changes; from there on come the pointers. *)
Lemma fill_block_field bs : ∀ idx block k, 0 ≤ idx → Forall is_u32 bs →
  (idx + Z.of_nat (length bs)) * 4 ≤ Z.of_nat (length block) → 0 ≤ k → k * 4 + 4 ≤ Z.of_nat (length block) →
  field (k * 4) 4 (fill_block idx bs block) =
    match bs !! Z.to_nat (k - idx) with
    | Some b => if k <? idx then field (k * 4) 4 block else b
    | None => field (k * 4) 4 block
    end.
Proof.
  induction bs as [|b bs IH]; intros idx block k Hi Hu Hl Hk Hkl; [done|].
  apply Forall_cons in Hu as [Hb Hu]. cbn [fill_block length] in *.
  assert (length (splice (idx * 4) (le 4 b) block) = length block) as Hs.
  { apply splice_length; [lia|]. rewrite le_length by lia. lia. }
  rewrite IH by (done || lia || (rewrite Hs; lia)).
  assert (Z.of_nat (length (le 4 b)) = 4) as Hle by (rewrite le_length by lia; done).
  assert (k ≠ idx → field (k * 4) 4 (splice (idx * 4) (le 4 b) block) = field (k * 4) 4 block) as Hother.
  { intros Hne. unfold field. f_equal. apply slice_splice_ne; try lia. }
  destruct (Z.lt_trichotomy k idx) as [Hlt|[->|Hgt]].
  - rewrite Hother by lia. replace (Z.to_nat (k - (idx + 1))) with (Z.to_nat (k - idx)) by lia.
    replace (Z.to_nat (k - idx)) with 0%nat by lia. cbn [lookup list_lookup].
    rewrite (proj2 (Z.ltb_lt k idx)), (proj2 (Z.ltb_lt k (idx + 1))) by lia. by destruct bs.
  - replace (Z.to_nat (idx - idx)) with 0%nat by lia. cbn [lookup list_lookup].
    rewrite Z.ltb_irrefl, (proj2 (Z.ltb_lt idx (idx + 1))) by lia.
    assert (field (idx * 4) 4 (splice (idx * 4) (le 4 b) block) = b) as ->; [|by destruct (bs !! _)].
    pose proof (slice_splice (idx * 4) (le 4 b) block ltac:(lia) ltac:(lia)) as Hsp. rewrite Hle in Hsp.
    unfold field. rewrite Hsp. apply of_le_le; [lia|done].
  - replace (Z.to_nat (k - idx)) with (S (Z.to_nat (k - (idx + 1)))) by lia. cbn [lookup list_lookup].
    rewrite (proj2 (Z.ltb_ge k idx)), (proj2 (Z.ltb_ge k (idx + 1))), Hother by lia. done.
Qed.

(** [write_indirect_block]. *)
Lemma write_indirect_block_spec f p img : node_ok (f, p) →
  let '(mkFs _ bs ind _ _) := f in
  write_indirect_block f img = (Ok tt, put_all
    (if ind =? 0 then [] else [(KBlock ind, fill_block 0 (drop 12 bs) zero_block)]) img).
Proof.
  intros (Hal & _). cbn [fst] in Hal. destruct f as [n bs ind nm kind]. destruct Hal as (Hl & Hmax & Hind).
  unfold write_indirect_block. destruct (Z.eqb_spec ind 0) as [->|Hne]; [done|].
  change DIRECT_BLOCKS with 12. change INDIRECT_BLOCK_ENTRIES with 1024. change MAX_DATA_BLOCKS with 1036 in Hmax.
  assert (12 < Z.of_nat (length bs)) by lia.
  unfold bind, assert. rewrite (proj2 (Z.leb_le 12 _)) by lia. cbn [ret].
  rewrite (proj2 (Z.leb_le (Z.of_nat (length (drop 12 bs))) 1024)) by (rewrite length_drop; lia). cbn [ret].
  unfold write_at_block, bind, assert, modify. change BLOCK_SIZE with 4096.
  rewrite fill_block_length, zero_block_length; [done|lia|]. rewrite length_drop, zero_block_length. lia.
Qed.

(** [write_node] does the writes of the nodes below it. *)
Lemma put_all_app ws ws' img : put_all ws' (put_all ws img) = put_all (ws ++ ws') img.
Proof. unfold put_all. by rewrite foldl_app. Qed.

Lemma write_children_spec cs n : Forall (λ f, ∀ p img, Forall node_ok (nodes f p) →
    write_node f p img = (Ok tt, put_all (nodes f p ≫= node_writes) img)) cs →
  Forall node_ok (concat (map (λ c, nodes c n) cs)) → ∀ img,
  ∃ us, traverse (λ child, write_node child n) cs img =
    (Ok us, put_all (concat (map (λ c, nodes c n) cs) ≫= node_writes) img).
Proof.
  induction 1 as [|c cs Hc Hcs IH]; intros Hok img; [by eexists|].
  cbn [map concat] in *. apply Forall_app in Hok as [Hok1 Hok2]. cbn [traverse].
  rewrite (bind_ok _ _ _ _ _ (Hc n img Hok1)).
  destruct (IH Hok2 (put_all (nodes c n ≫= node_writes) img)) as [us Hus].
  rewrite (bind_ok _ _ _ _ _ Hus), put_all_app, <-bind_app. by eexists.
Qed.

Lemma write_inode_spec f p img : node_ok (f, p) → let '(mkFs n bs ind _ kind) := f in
  match kind with
  | FDirectory cs => write_dir_inode n bs ind cs img
  | FFile data => write_struct (inode_at n) (encode_inode
      (mkInner TFile 1 0 (Z.of_nat (length data) mod 2 ^ 32) (direct_blocks_of bs) ind)) img
  end = (Ok tt, put_all [(KInode n, encode_inode (node_inode f))] img).
Proof.
  intros (Hal & _). cbn [fst] in Hal. pose proof (allocated_size f Hal) as Hsz.
  destruct f as [n bs ind nm [cs|data]]; unfold write_dir_inode, write_struct, modify;
    change DIRENT_BYTES with 32; cbn [node_size] in Hsz; rewrite Z.mod_small by done; done.
Qed.

Lemma write_content_spec f p img : node_ok (f, p) → let '(mkFs n bs _ _ kind) := f in
  match kind with
  | FDirectory cs => write_dir_blocks n bs p cs img
  | FFile data => write_blocks 0 bs data img
  end = (Ok tt, put_all (block_writes 0 bs (node_content f p)) img).
Proof.
  intros Hok. pose proof (node_content_length f p Hok) as Hl. pose proof Hok as (Hal & _ & _ & _ & Hk).
  cbn [fst] in Hal, Hk. pose proof (λ k, allocated_blocks f k Hal) as Hbl.
  destruct f as [n bs ind nm [cs|data]].
  - unfold write_dir_blocks, bind, lift. rewrite !dirent_ok by (cbn; lia).
    rewrite (traverse_ok _ (λ c, new_entry (f_inum c) (f_name c))).
    2: { eapply Forall_impl; [exact Hk|]. intros [n' bs' ind' nm' k'] (Hn & _). cbn [child_dirent f_inum f_name] in *.
         by rewrite dirent_ok. }
    apply write_blocks_spec; [lia|]. intros k Hk'. specialize (Hbl k ltac:(lia)). by rewrite <-Hl in Hbl.
  - apply write_blocks_spec; [lia|]. intros k Hk'. specialize (Hbl k ltac:(lia)). by rewrite <-Hl in Hbl.
Qed.

Lemma write_node_spec f : ∀ p img, Forall node_ok (nodes f p) →
  write_node f p img = (Ok tt, put_all (nodes f p ≫= node_writes) img).
Proof.
  induction f as [n bs ind nm cs IH|n bs ind nm data] using fs_induction; intros p img Hok;
    cbn [nodes] in Hok |- *; apply Forall_cons in Hok as [Hf Hok]; cbn [write_node];
    rewrite (bind_ok _ _ _ _ _ (write_indirect_block_spec _ p img Hf)), bind_cons, <-put_all_app;
    change (node_writes (?f, p)) with
      ((if ind =? 0 then [] else [(KBlock ind, fill_block 0 (drop 12 bs) zero_block)]) ++
       [(KInode n, encode_inode (node_inode f))] ++ block_writes 0 bs (node_content f p));
    rewrite <-!put_all_app; set (img1 := put_all (if ind =? 0 then _ else _) img).
  - rewrite (bind_ok _ _ _ _ _ (write_inode_spec _ p img1 Hf)).
    rewrite (bind_ok _ _ _ _ _ (write_content_spec _ p _ Hf)).
    match goal with |- bind _ _ ?i = _ => destruct (write_children_spec cs n IH Hok i) as [us Hus] end.
    by rewrite (bind_ok _ _ _ _ _ Hus).
  - unfold write_file. rewrite (bind_ok _ _ _ _ _ (write_inode_spec _ p img1 Hf)).
    exact (write_content_spec _ p _ Hf).
Qed.

(** ** Bitmaps *)

Definition set_bits (bits : list Z) (s : list Z) : list Z := foldl set_bit s bits.

Lemma set_bits_length bits s : length (set_bits bits s) = length s.
Proof.
  revert s. induction bits as [|b bits IH]; intros s; [done|]. cbn. fold (set_bits bits (set_bit s b)).
  rewrite IH. unfold set_bit. by rewrite length_insert.
Qed.

Lemma set_bits_bytes bits s : Forall (λ b, 0 ≤ b) bits → Forall is_u8 s → Forall is_u8 (set_bits bits s).
Proof.
  intros Hb. revert s. induction Hb as [|b bits Hb Hbs IH]; intros s Hs; [done|].
  apply IH. by apply set_bit_bytes.
Qed.

(** A bit is set when it is one of them, or was set. *)
Lemma bit_at_set_bits bits s j : Forall (λ b, 0 ≤ b < 8 * Z.of_nat (length s)) bits → 0 ≤ j →
  bit_at (set_bits bits s) j = bool_decide (j ∈ bits) || bit_at s j.
Proof.
  intros Hb Hj. revert s Hb. induction bits as [|b bits IH]; intros s Hb.
  { by rewrite bool_decide_false by apply not_elem_of_nil. }
  apply Forall_cons in Hb as [Hb Hbs]. cbn. fold (set_bits bits (set_bit s b)).
  rewrite IH by (unfold set_bit; by rewrite length_insert). rewrite bit_at_set by done.
  destruct (decide (j = b)) as [->|Hne].
  - rewrite (bool_decide_true (b ∈ b :: bits)) by by left. by rewrite Z.eqb_refl, !orb_true_r.
  - rewrite (bool_decide_ext (j ∈ b :: bits) (j ∈ bits)) by set_solver.
    by rewrite (proj2 (Z.eqb_neq j b) Hne), orb_false_r.
Qed.

Lemma tool_set_bit_spec bit s : 0 ≤ bit < 8 * Z.of_nat (length s) →
  tool_set_bit bit s = (Ok tt, set_bit s bit).
Proof.
  intros Hb. unfold tool_set_bit, bind, gets, assert.
  rewrite (proj2 (Z.ltb_lt (bit / 8) _)); [done|]. Z.div_mod_to_equations; lia.
Qed.

Section visit.
Context (f : FsNode → M (list Z) ToolError unit) (bits : FsNode → list Z).

Lemma visit_children_spec cs n : Forall (λ c, ∀ p s, length s = length zero_block →
    Forall (λ q, ∀ s, length s = length zero_block → f q.1 s = (Ok tt, set_bits (bits q.1) s)) (nodes c p) →
    visit_nodes f c s = (Ok tt, set_bits (nodes c p ≫= λ q, bits q.1) s)) cs → ∀ s,
  length s = length zero_block →
  Forall (λ q, ∀ s, length s = length zero_block → f q.1 s = (Ok tt, set_bits (bits q.1) s))
    (concat (map (λ c, nodes c n) cs)) →
  ∃ us, traverse (visit_nodes f) cs s =
    (Ok us, set_bits (concat (map (λ c, nodes c n) cs) ≫= λ q, bits q.1) s).
Proof.
  induction 1 as [|c cs Hc Hcs IH]; intros s Hs Hf; [by eexists|].
  cbn [map concat] in *. apply Forall_app in Hf as [Hf1 Hf2]. cbn [traverse].
  rewrite (bind_ok _ _ _ _ _ (Hc n s Hs Hf1)).
  destruct (IH (set_bits (nodes c n ≫= λ q, bits q.1) s)) as [us Hus]; [by rewrite set_bits_length|done|].
  rewrite (bind_ok _ _ _ _ _ Hus), bind_app. unfold set_bits. rewrite foldl_app. by eexists.
Qed.

Lemma visit_nodes_spec root : ∀ p s, length s = length zero_block →
  Forall (λ q, ∀ s, length s = length zero_block → f q.1 s = (Ok tt, set_bits (bits q.1) s)) (nodes root p) →
  visit_nodes f root s = (Ok tt, set_bits (nodes root p ≫= λ q, bits q.1) s).
Proof.
  induction root as [n bs ind nm cs IH|n bs ind nm data] using fs_induction; intros p s Hs Hf;
    cbn [nodes] in Hf |- *; apply Forall_cons in Hf as [H1 Hf]; cbn [visit_nodes];
    rewrite (bind_ok _ _ _ _ _ (H1 s Hs)), bind_cons; cbn [fst].
  - edestruct (visit_children_spec cs n IH) as [us Hus]; [|exact Hf|rewrite (bind_ok _ _ _ _ _ Hus)].
    { by rewrite set_bits_length. }
    unfold set_bits. by rewrite foldl_app.
  - by rewrite app_nil_r.
Qed.
End visit.

(** The bitmap of the inodes, and that of the data blocks. *)
Definition inode_bits (f : FsNode) : list Z := [f_inum f].
Definition block_bits (f : FsNode) : list Z := (λ b, b - 8) <$> node_blocks f.

Lemma mark_inode_spec q s : node_ok q → length s = length zero_block →
  mark_inode q.1 s = (Ok tt, set_bits (inode_bits q.1) s).
Proof.
  intros (_ & Hn & _) Hs. pose proof zero_block_length. destruct q as [[n bs ind nm kind] p].
  cbn [mark_inode fst f_inum] in *. apply tool_set_bit_spec. lia.
Qed.

Lemma mark_loop_spec bs s : Forall (λ b, 8 ≤ b < 128) bs → length s = length zero_block →
  for_each (λ block, let! bit := lift (sub_ov block DATA_BLOCK_START) in tool_set_bit bit) bs s
  = (Ok tt, set_bits ((λ b, b - 8) <$> bs) s).
Proof.
  intros Hbs. revert s. induction Hbs as [|b bs Hb Hbs IH]; intros s Hs; [done|]. cbn [for_each].
  pose proof zero_block_length.
  assert ((let! bit := lift (sub_ov b DATA_BLOCK_START) in tool_set_bit bit) s = (Ok tt, set_bit s (b - 8))) as Hb1.
  { unfold bind, lift, sub_ov, checked_sub. change DATA_BLOCK_START with 8.
    rewrite (proj2 (Z.leb_le 8 b)) by lia. cbn [unwrap]. apply tool_set_bit_spec. lia. }
  rewrite (bind_ok _ _ _ _ _ Hb1), IH; [done|]. unfold set_bit. by rewrite length_insert.
Qed.

Lemma mark_blocks_spec q s : node_ok q → length s = length zero_block →
  mark_blocks q.1 s = (Ok tt, set_bits (block_bits q.1) s).
Proof.
  intros (_ & _ & _ & Hb & _) Hs. destruct q as [[n bs ind nm kind] p]. cbn [fst] in *.
  unfold node_blocks in Hb. apply Forall_app in Hb as [Hb Hind]. cbn [mark_blocks].
  rewrite (bind_ok _ _ _ _ _ (mark_loop_spec bs s Hb Hs)). unfold block_bits, node_blocks.
  destruct (Z.eqb_spec ind 0) as [->|Hne]; cbn [negb]; [by rewrite app_nil_r|].
  pose proof (mark_loop_spec [ind] (set_bits ((λ b, b - 8) <$> bs) s) Hind) as H1.
  rewrite set_bits_length in H1. specialize (H1 Hs). cbn [for_each] in H1.
  rewrite fmap_app. unfold set_bits at 2. rewrite foldl_app. fold (set_bits ((λ b, b - 8) <$> bs) s).
  destruct ((let! bit := lift (sub_ov ind DATA_BLOCK_START) in tool_set_bit bit) _) as [[[]|?| |] s'] eqn:E;
    unfold bind at 1 in H1; rewrite E in H1; cbn in H1; try discriminate H1. by simplify_eq.
Qed.

(** ** The whole image *)

Definition image_writes (root : FsNode) : list (key * list Z) :=
  (KSuper, encode_superblock tool_superblock) ::
  (KInodeBitmap, set_bits (inums (nodes root ROOT_INO)) zero_block) ::
  (KDataBitmap, set_bits ((λ b, b - 8) <$> blocks (nodes root ROOT_INO)) zero_block) ::
  (nodes root ROOT_INO ≫= node_writes).

Definition empty_img : Img := mkImg 524288 (λ _, 0).

Lemma write_bitmap_spec block k m bits img : m zero_block = (Ok tt, set_bits bits zero_block) →
  key_off k = block_offset block →
  write_bitmap block m img = (Ok tt, put_all [(k, set_bits bits zero_block)] img).
Proof.
  intros Hm Hk. unfold write_bitmap. rewrite Hm. unfold write_at_block, bind, assert.
  rewrite set_bits_length, zero_block_length. change BLOCK_SIZE with 4096. cbn [Z.leb ret].
  unfold put_all. cbn [foldl fst snd]. by rewrite Hk.
Qed.

Lemma inums_bits fs : (fs ≫= λ q, inode_bits q.1) = inums fs.
Proof. induction fs as [|q fs IH]; [done|]. csimpl. by rewrite IH. Qed.

Lemma blocks_bits (fs : list (FsNode * Z)) : (fs ≫= λ q, block_bits q.1) = (λ b, b - 8) <$> blocks fs.
Proof.
  induction fs as [|q fs IH]; [done|]. unfold blocks in *. rewrite !bind_cons, fmap_app, IH. done.
Qed.

Lemma write_image_spec root img : Forall node_ok (nodes root ROOT_INO) →
  write_image root img = (Ok tt, put_all (image_writes root) empty_img).
Proof.
  intros Hok.
  assert (visit_nodes mark_inode root zero_block = (Ok tt, set_bits (inums (nodes root ROOT_INO)) zero_block)) as Hi.
  { rewrite <-inums_bits. apply visit_nodes_spec; [done|].
    eapply Forall_impl; [exact Hok|]. intros. by apply mark_inode_spec. }
  assert (visit_nodes mark_blocks root zero_block =
    (Ok tt, set_bits ((λ b, b - 8) <$> blocks (nodes root ROOT_INO)) zero_block)) as Hd.
  { rewrite <-blocks_bits. apply visit_nodes_spec; [done|].
    eapply Forall_impl; [exact Hok|]. intros. by apply mark_blocks_spec. }
  unfold write_image, bind at 1, modify. change (NBLOCKS * BLOCK_SIZE) with 524288. fold empty_img.
  unfold bind at 1, write_superblock, write_struct, modify.
  rewrite (bind_ok _ _ _ _ _ (write_bitmap_spec INODE_BITMAP_BLOCK KInodeBitmap _ _ _ Hi eq_refl)).
  rewrite (bind_ok _ _ _ _ _ (write_bitmap_spec DATA_BITMAP_BLOCK KDataBitmap _ _ _ Hd eq_refl)).
  by rewrite write_node_spec.
Qed.

(** Its records are distinct. *)
Lemma block_writes_keys idx bs bytes : (block_writes idx bs bytes).*1 = KBlock <$> bs.
Proof. revert idx. induction bs as [|b bs IH]; intros idx; [done|]. csimpl. by rewrite IH. Qed.

Lemma node_writes_keys q : (node_writes q).*1 ≡ₚ KInode (f_inum q.1) :: (KBlock <$> node_blocks q.1).
Proof.
  destruct q as [[n bs ind nm kind] p]. unfold node_writes, node_blocks. cbn [fst f_inum].
  rewrite fmap_app. csimpl. rewrite block_writes_keys, fmap_app.
  destruct (ind =? 0); csimpl; [by rewrite app_nil_r|]. solve_Permutation.
Qed.

Lemma nodes_writes_keys fs : (fs ≫= node_writes).*1 ≡ₚ (KInode <$> inums fs) ++ (KBlock <$> blocks fs).
Proof.
  induction fs as [|q fs IH]; [done|]. unfold blocks in *. rewrite bind_cons, fmap_app, node_writes_keys, IH.
  rewrite bind_cons, fmap_app. csimpl. solve_Permutation.
Qed.

Lemma image_keys root : NoDup (inums (nodes root ROOT_INO)) → NoDup (blocks (nodes root ROOT_INO)) →
  NoDup (image_writes root).*1.
Proof.
  intros Hi Hb. unfold image_writes. csimpl.
  assert (∀ k, k ∈ (nodes root ROOT_INO ≫= node_writes).*1 → (∃ n, k = KInode n) ∨ ∃ b, k = KBlock b) as Hk.
  { intros k. rewrite nodes_writes_keys, elem_of_app, !list_elem_of_fmap. naive_solver. }
  repeat apply NoDup_cons_2.
  1-3: rewrite ?elem_of_cons; intros Hin;
    repeat (destruct Hin as [[=]|Hin]); destruct (Hk _ Hin) as [[? [=]]|[? [=]]].
  rewrite nodes_writes_keys. apply NoDup_app. split_and!.
  - apply NoDup_fmap_2; [by intros ? ? [= ->]|done].
  - intros k. rewrite !list_elem_of_fmap. naive_solver.
  - apply NoDup_fmap_2; [by intros ? ? [= ->]|done].
Qed.

(** Its writes stay inside their records, and write bytes. *)
Lemma direct_blocks_wf bs : Forall (λ b, 8 ≤ b < 128) bs →
  length (direct_blocks_of bs) = 12%nat ∧ Forall is_u32 (direct_blocks_of bs).
Proof.
  intros Hb. unfold direct_blocks_of. rewrite length_app, length_take, length_replicate. split; [lia|].
  apply Forall_app. split; [|apply Forall_replicate; unfold is_u32, in_width; lia].
  apply Forall_take. eapply Forall_impl; [exact Hb|]. intros b Hbb. cbn in Hbb. unfold is_u32, in_width. lia.
Qed.

Lemma node_inode_wf q : node_ok q → inode_wf (node_inode q.1).
Proof.
  intros (Hal & _ & _ & Hb & _). pose proof (allocated_size _ Hal) as Hsz.
  destruct q as [[n bs ind nm kind] p]. cbn [fst] in *. unfold node_blocks in Hb. apply Forall_app in Hb as [Hb Hi].
  split; cbn [ty link_count dev sz direct_blocks indirect_block node_inode].
  - destruct kind; cbn; unfold TDirectory, TFile; lia.
  - lia.
  - unfold is_u32, in_width. lia.
  - exact Hsz.
  - by apply direct_blocks_wf.
  - revert Hi. destruct (Z.eqb_spec ind 0) as [->|]; [unfold is_u32, in_width; lia|].
    intros [Hi _]%Forall_cons. cbn in Hi. unfold is_u32, in_width. lia.
Qed.

Lemma node_content_bytes f p : node_ok (f, p) → Forall is_u8 (node_content f p).
Proof.
  intros Hok. pose proof (dir_entries_wf f p Hok) as Hwf. destruct Hok as (_ & _ & _ & _ & Hk). cbn [fst snd] in Hk.
  destruct f as [n bs ind nm [cs|data]]; [|done]. cbn [node_content].
  induction Hwf as [|e es He Hes IH]; [done|]. rewrite bind_cons. apply Forall_app.
  split; [by apply encode_dirent_bytes|done].
Qed.

Lemma block_writes_ok idx bs bytes : Forall (λ b, 8 ≤ b < 128) bs → Forall is_u8 bytes →
  Forall write_ok (block_writes idx bs bytes).
Proof.
  intros Hb Hu. revert idx. induction Hb as [|b bs Hb Hbs IH]; intros idx; [done|].
  cbn [block_writes]. apply Forall_cons. split; [|done]. split_and!; cbn; [done| |by apply slice_bytes].
  unfold slice. rewrite length_take, length_drop. lia.
Qed.

Lemma zero_block_bytes : Forall is_u8 zero_block.
Proof. apply Forall_replicate. unfold is_u8, in_width. lia. Qed.

Lemma node_writes_ok q : node_ok q → Forall write_ok (node_writes q).
Proof.
  intros Hok. pose proof (node_inode_wf q Hok) as Hwf. pose proof (encode_inode_length _ Hwf) as Hl.
  pose proof Hok as (Hal & Hn & _ & Hb & _). destruct q as [[n bs ind nm kind] p]. cbn [fst snd f_inum] in *.
  pose proof (node_content_bytes _ p Hok). destruct Hal as (_ & Hmax & _). change MAX_DATA_BLOCKS with 1036 in Hmax.
  unfold node_blocks in Hb. apply Forall_app in Hb as [Hb Hi]. unfold node_writes. cbn [fst snd].
  apply Forall_app. split; [revert Hi; destruct (Z.eqb_spec ind 0); [done|]|apply Forall_cons; split].
  - intros [Hi _]%Forall_cons. cbn in Hi. apply Forall_singleton. split_and!; cbn; [lia| |apply fill_block_bytes, zero_block_bytes].
    rewrite fill_block_length, zero_block_length; [done|lia|rewrite length_drop, zero_block_length; lia].
  - split_and!; cbn -[encode_inode node_inode]; [lia|rewrite Hl; lia|apply encode_inode_bytes].
  - by apply block_writes_ok.
Qed.

Lemma encode_superblock_length sb : length (encode_superblock sb) = 32%nat.
Proof. unfold encode_superblock. by rewrite !length_app, !le_length. Qed.

Lemma image_writes_ok root : Forall node_ok (nodes root ROOT_INO) → Forall write_ok (image_writes root).
Proof.
  intros Hok. unfold image_writes.
  assert (Forall (λ b, 0 ≤ b) (inums (nodes root ROOT_INO))) as Hi.
  { apply Forall_fmap. eapply Forall_impl; [exact Hok|]. intros q (_ & ? & _). cbn. lia. }
  assert (Forall (λ b, 0 ≤ b) ((λ b, b - 8) <$> blocks (nodes root ROOT_INO))) as Hb.
  { apply Forall_fmap, Forall_bind. eapply Forall_impl; [exact Hok|]. intros q (_ & _ & _ & Hq & _).
    eapply Forall_impl; [exact Hq|]. cbn. lia. }
  repeat apply Forall_cons_2.
  - split_and!; cbn -[encode_superblock]; [done|rewrite encode_superblock_length; lia|].
    unfold encode_superblock. rewrite !Forall_app. split_and!; by apply le_bytes.
  - split_and!; cbn -[set_bits zero_block]; [done|by rewrite set_bits_length, zero_block_length|].
    apply set_bits_bytes; [done|apply zero_block_bytes].
  - split_and!; cbn -[set_bits zero_block]; [done|by rewrite set_bits_length, zero_block_length|].
    apply set_bits_bytes; [done|apply zero_block_bytes].
  - apply Forall_bind. eapply Forall_impl; [exact Hok|]. intros q. apply node_writes_ok.
Qed.

Lemma put_all_bytes ws img : Forall write_ok ws → (∀ o, is_u8 (img_byte img o)) →
  ∀ o, is_u8 (img_byte (put_all ws img) o).
Proof.
  revert img. induction ws as [|[k bs] ws IH]; intros img Hws Hi; [done|].
  apply Forall_cons in Hws as [(_ & _ & Hb) Hws]. apply IH; [done|]. intros o. cbn [put_bytes img_byte fst snd] in *.
  destruct (Z.leb_spec (key_off k) o), (Z.ltb_spec o (key_off k + Z.of_nat (length bs))); cbn; try done.
  by apply lookup_total_u8.
Qed.

(** What the image of a tree holds. *)
Definition image_of (root : FsNode) (img : Img) : Prop :=
  img_len img = 524288 ∧
  (∀ o, is_u8 (img_byte img o)) ∧
  ∀ k bs, (k, bs) ∈ image_writes root → write_ok (k, bs) ∧
    ∀ j, 0 ≤ j < key_size k → img_byte img (key_off k + j) = padded bs j.

Lemma write_image_holds root img img' : Forall node_ok (nodes root ROOT_INO) →
  NoDup (inums (nodes root ROOT_INO)) → NoDup (blocks (nodes root ROOT_INO)) →
  write_image root img = (Ok tt, img') → image_of root img'.
Proof.
  intros Hok Hi Hb Hw. rewrite write_image_spec in Hw by done.
  assert (img' = put_all (image_writes root) empty_img) as -> by congruence.
  pose proof (image_writes_ok root Hok) as Hws. split; [by apply put_all_len|].
  split; [by apply put_all_bytes|].
  intros k bs Hin. split; [rewrite Forall_forall in Hws; by apply Hws|]. intros j Hj.
  apply put_all_read; [done|by apply image_keys|done..].
Qed.
