(* ===== verification/VsfsToolOpen.v ===== *)
(** * The image tool and the kernel's VSFS agree

    An image that the tool made from a layout, on a reliable block device: the
    kernel's filesystem mounts it, finds every path of the layout, and reads back
    every file. *)

From Stdlib Require Import Strings.String.
From S2P Require Import Prelude Errors Vfs Vsfs VsfsIO VsfsDir VsfsCreate VsfsTool VsfsToolAlloc VsfsToolImg.

(** ** Layouts *)

Definition name_ok (nm : list Z) : Prop :=
  (length nm ≤ 27)%nat ∧ Forall is_u8 nm ∧ nm ≠ str "." ∧ nm ≠ str "..".

(** Entry names fit and differ from each other and from the two entries that
    every directory has; contents are bytes. *)
Fixpoint valid_layout (l : LayoutNode) : Prop :=
  let '(mkLayout _ kind) := l in
  match kind with
  | LDirectory cs => NoDup (l_name <$> cs) ∧
      (fix go cs := match cs with [] => True | c :: cs => (name_ok (l_name c) ∧ valid_layout c) ∧ go cs end) cs
  | LFile data => Forall is_u8 data
  end.

Lemma valid_layout_dir nm cs : valid_layout (mkLayout nm (LDirectory cs)) ↔
  NoDup (l_name <$> cs) ∧ Forall (λ c, name_ok (l_name c) ∧ valid_layout c) cs.
Proof.
  cbn [valid_layout]. apply and_iff_compat_l. induction cs as [|c cs IH]; [by split|].
  rewrite Forall_cons. by rewrite IH.
Qed.

(** The node at a path. *)
Fixpoint lookup_layout (l : LayoutNode) (path : list (list Z)) : option LayoutNode :=
  match path with
  | [] => Some l
  | c :: path =>
      let '(mkLayout _ kind) := l in
      match kind with
      | LDirectory cs => p ← list_find (λ l, l_name l = c) cs; lookup_layout p.2 path
      | LFile _ => None
      end
  end.
Fixpoint lookup_fs (f : FsNode) (path : list (list Z)) : option FsNode :=
  match path with
  | [] => Some f
  | c :: path =>
      let '(mkFs _ _ _ _ kind) := f in
      match kind with
      | FDirectory cs => p ← list_find (λ l, f_name l = c) cs; lookup_fs p.2 path
      | FFile _ => None
      end
  end.

Lemma erase_name f : l_name (erase f) = f_name f.
Proof. by destruct f. Qed.

Lemma list_find_erase c cs :
  list_find (λ l, l_name l = c) (map erase cs) = prod_map id erase <$> list_find (λ l, f_name l = c) cs.
Proof.
  induction cs as [|f cs IH]; [done|]. cbn [map list_find]. rewrite erase_name.
  destruct (decide _); [done|]. rewrite IH. by destruct (list_find _ cs) as [[]|].
Qed.

Lemma lookup_erase path : ∀ f, lookup_layout (erase f) path = erase <$> lookup_fs f path.
Proof.
  induction path as [|c path IH]; intros f; [done|].
  destruct f as [n bs ind nm [cs|data]]; cbn [erase lookup_layout lookup_fs]; [|done].
  rewrite list_find_erase. destruct (list_find _ cs) as [[i f]|]; [|done]. cbn. apply IH.
Qed.

(** ** The nodes of an allocated layout *)

Lemma nodes_self f p : (f, p) ∈ nodes f p.
Proof. destruct f as [n bs ind nm kind]. cbn [nodes]. left. Qed.

Lemma elem_of_below q n cs :
  q ∈ concat (map (λ c, nodes c n) cs) ↔ ∃ c, c ∈ cs ∧ q ∈ nodes c n.
Proof.
  induction cs as [|c cs IH]; cbn [map concat].
  - split; [by intros ?%not_elem_of_nil|by intros (? & ?%not_elem_of_nil & _)].
  - rewrite elem_of_app, IH. setoid_rewrite elem_of_cons. naive_solver.
Qed.

(** A child of a node is a node. *)
Lemma nodes_children root : ∀ r p n bs ind nm cs c,
  (mkFs n bs ind nm (FDirectory cs), p) ∈ nodes root r → c ∈ cs → (c, n) ∈ nodes root r.
Proof.
  induction root as [n0 bs0 ind0 nm0 cs0 IH|n0 bs0 ind0 nm0 data0] using fs_induction;
    intros r p n bs ind nm cs c Hin Hc; cbn [nodes] in *; apply elem_of_cons in Hin as [Heq|Hin].
  - injection Heq as -> -> -> -> -> ->. right. apply elem_of_below. exists c. split; [done|apply nodes_self].
  - right. apply elem_of_below in Hin as (c0 & Hc0 & Hin). apply elem_of_below. exists c0. split; [done|].
    rewrite Forall_forall in IH. by eapply IH.
  - done.
  - by apply not_elem_of_nil in Hin.
Qed.

(** What holds of the root, and of the children of a node it holds of. *)
Lemma nodes_forall (P : FsNode * Z → Prop) root : ∀ r, P (root, r) →
  (∀ p n bs ind nm cs c, P (mkFs n bs ind nm (FDirectory cs), p) → c ∈ cs → P (c, n)) →
  Forall P (nodes root r).
Proof.
  induction root as [n bs ind nm cs IH|n bs ind nm data] using fs_induction;
    intros r Hr Hstep; cbn [nodes]; apply Forall_cons; split; [done| |done|done].
  apply Forall_forall. intros q (c & Hc & Hq)%elem_of_below. rewrite Forall_forall in IH.
  specialize (IH c Hc n (Hstep _ _ _ _ _ _ _ Hr Hc) Hstep). rewrite Forall_forall in IH. auto.
Qed.

Lemma erase_dir_ok n bs ind nm cs : valid_layout (erase (mkFs n bs ind nm (FDirectory cs))) →
  NoDup (f_name <$> cs) ∧ Forall (λ c, name_ok (f_name c) ∧ valid_layout (erase c)) cs.
Proof.
  change (erase (mkFs n bs ind nm (FDirectory cs))) with (mkLayout nm (LDirectory (map erase cs))).
  rewrite valid_layout_dir. intros [Hnd Hcs]. split.
  - replace (f_name <$> cs) with (l_name <$> map erase cs); [done|].
    clear. induction cs as [|c cs IH]; [done|]. csimpl. by rewrite erase_name, IH.
  - clear Hnd. induction cs as [|c cs IH]; [done|]. cbn [map] in Hcs.
    apply Forall_cons in Hcs as [Hc Hcs]. rewrite erase_name in Hc. apply Forall_cons. split; [done|by apply IH].
Qed.

Lemma nodes_valid root r : valid_layout (erase root) → Forall (λ q, valid_layout (erase q.1)) (nodes root r).
Proof.
  intros Hok. apply nodes_forall; [done|]. intros p n bs ind nm cs c Hf Hc.
  apply erase_dir_ok in Hf as [_ Hf]. rewrite Forall_forall in Hf. by apply Hf.
Qed.

(** A tree whose numbers and blocks are in range. *)
Lemma nodes_ok root : valid_layout (erase root) → Forall (λ q, allocated q.1) (nodes root ROOT_INO) →
  Forall (λ n, 1 ≤ n < 80) (inums (nodes root ROOT_INO)) →
  Forall (λ b, 8 ≤ b < 128) (blocks (nodes root ROOT_INO)) →
  Forall node_ok (nodes root ROOT_INO).
Proof.
  intros Hl Hal Hi Hb. pose proof (nodes_valid root ROOT_INO Hl) as Hlo.
  unfold inums, blocks in *. rewrite Forall_fmap in Hi. rewrite Forall_bind in Hb.
  assert (Forall (λ q, 0 ≤ q.2 < 80) (nodes root ROOT_INO)) as Hp.
  { assert (Forall (λ q, q ∈ nodes root ROOT_INO ∧ 0 ≤ q.2 < 80) (nodes root ROOT_INO)) as H.
    { apply nodes_forall; [split; [apply nodes_self|cbn; unfold ROOT_INO; lia]|].
      intros p n bs ind nm cs c [Hf _] Hc. split; [by eapply nodes_children|].
      rewrite Forall_forall in Hi. specialize (Hi _ Hf). cbn in *. lia. }
    eapply Forall_impl; [exact H|]. by intros q [_ Hq]. }
  rewrite Forall_forall in *. intros q Hq. specialize (Hal q Hq). pose proof (Hi q Hq) as Hiq. specialize (Hb q Hq).
  specialize (Hlo q Hq). specialize (Hp q Hq). cbn in Hiq.
  refine (conj Hal (conj _ (conj Hp (conj Hb _)))); [lia|].
  destruct q as [[n bs ind nm [cs|data]] p]; cbn [fst] in *; [|done].
  apply erase_dir_ok in Hlo as [_ Hlo]. rewrite Forall_forall in Hlo. apply Forall_forall. intros c Hc.
  destruct (Hlo c Hc) as [(Hln & Hun & _) _]. specialize (Hi (c, n) (nodes_children _ _ _ _ _ _ _ _ _ Hq Hc)). cbn in Hi.
  refine (conj Hln (conj Hun _)). lia.
Qed.

(** A layout that fits is allocated. *)
Lemma allocate_layout_fits l : valid_layout l → inodes_of l < NINODES → DATA_BLOCK_START + blocks_of l ≤ NBLOCKS →
  ∃ root, allocate_layout l = Ok root ∧ erase root = l ∧ Forall node_ok (nodes root ROOT_INO) ∧
    inums (nodes root ROOT_INO) = seqZ 1 (inodes_of l) ∧
    blocks (nodes root ROOT_INO) ≡ₚ seqZ 8 (blocks_of l) ∧ f_inum root = 1.
Proof.
  change NINODES with 80. change NBLOCKS with 128. intros Hl Hin Hbn. unfold allocate_layout.
  pose proof (allocate_node_spec l ROOT_INO DATA_BLOCK_START ltac:(done) ltac:(done)) as H.
  destruct (allocate_node l _) as [[root|e| |] s]; cbn [fst result_ok obind] in *;
    [|unfold ROOT_INO, DATA_BLOCK_START in *; lia|done..].
  destruct H as (_ & Hi & Hb & Her & Has). destruct (Has ROOT_INO) as (His & Hbl & Hal).
  exists root. split_and!; [done|done| |done|done|].
  - apply nodes_ok; [by rewrite Her|done| |].
    + rewrite His. apply Forall_forall. intros n Hn%elem_of_seqZ. unfold ROOT_INO in *. lia.
    + rewrite Hbl. apply Forall_forall. intros n Hn%elem_of_seqZ. unfold DATA_BLOCK_START in *. lia.
  - destruct root as [n bs ind nm kind]. cbn [f_inum]. pose proof (inodes_of_pos l).
    rewrite seqZ_cons in His by lia. unfold inums in His. cbn [nodes] in His. csimpl in His. by injection His.
Qed.

(** It has an image, which holds it. *)
Lemma make_image_fits l : valid_layout l → inodes_of l < NINODES → DATA_BLOCK_START + blocks_of l ≤ NBLOCKS →
  ∃ root img, make_image l = Ok img ∧
    erase root = l ∧ Forall node_ok (nodes root ROOT_INO) ∧ image_of root img ∧ f_inum root = 1 ∧
    inums (nodes root ROOT_INO) = seqZ 1 (inodes_of l) ∧ blocks (nodes root ROOT_INO) ≡ₚ seqZ 8 (blocks_of l).
Proof.
  intros Hl Hi Hb. destruct (allocate_layout_fits l Hl Hi Hb) as (root & Hal & Her & Hok & Hni & Hnb & H1).
  pose proof (write_image_spec root (mkImg 0 (λ _, 0)) Hok) as Hw.
  exists root. eexists. split; [unfold make_image; rewrite Hal; cbn [obind]; rewrite Hw; cbn; reflexivity|].
  split_and!; [done|done| |done..].
  eapply write_image_holds; [done|rewrite Hni; apply NoDup_seqZ|rewrite Hnb; apply NoDup_seqZ|done].
Qed.

Lemma make_image_spec l img : valid_layout l → make_image l = Ok img →
  ∃ root, erase root = l ∧ Forall node_ok (nodes root ROOT_INO) ∧ image_of root img ∧ f_inum root = 1 ∧
    inums (nodes root ROOT_INO) = seqZ 1 (inodes_of l) ∧ blocks (nodes root ROOT_INO) ≡ₚ seqZ 8 (blocks_of l) ∧
    inodes_of l < NINODES ∧ DATA_BLOCK_START + blocks_of l ≤ NBLOCKS.
Proof.
  intros Hl Him.
  pose proof (allocate_node_spec l ROOT_INO DATA_BLOCK_START ltac:(done) ltac:(done)) as H.
  assert (inodes_of l < NINODES ∧ DATA_BLOCK_START + blocks_of l ≤ NBLOCKS) as [Hi Hb].
  { unfold make_image, allocate_layout in Him. change NINODES with 80. change NBLOCKS with 128.
    destruct (allocate_node l _) as [[root|e| |] s]; cbn [fst result_ok obind] in *; try done.
    destruct H as (_ & Hi & Hb & _). unfold ROOT_INO, DATA_BLOCK_START in *. lia. }
  destruct (make_image_fits l Hl Hi Hb) as (root & img' & Him' & Hrest). rewrite Him in Him'.
  injection Him' as ->. exists root. by repeat (split; [apply Hrest|]).
Qed.

(** ** The image on a device *)

(** Sector [n] of an image. *)
Definition img_sector (img : Img) (n : Z) : option (list Z) :=
  if (0 <=? n) && (n * 512 + 512 <=? img_len img)
  then Some (img_byte img <$> seqZ (n * 512) 512) else None.

Lemma slice_fmap_seqZ {A} (f : Z → A) start len off n : 0 ≤ off → 0 ≤ n → off + n ≤ len →
  take (Z.to_nat n) (drop (Z.to_nat off) (f <$> seqZ start len)) = f <$> seqZ (start + off) n.
Proof.
  intros Ho Hn Hl. replace len with (off + (n + (len - off - n))) by lia.
  rewrite !seqZ_app, !fmap_app by lia.
  rewrite drop_app_length' by (rewrite length_fmap, length_seqZ; lia).
  by rewrite take_app_length' by (rewrite length_fmap, length_seqZ; lia).
Qed.

(** A record read whole is what was written. *)
Lemma padded_whole bs j n : 0 ≤ j → 0 ≤ n → j + n ≤ Z.of_nat (length bs) →
  padded bs <$> seqZ j n = slice j n bs.
Proof.
  intros Hj Hn Hl. apply list_eq. intros k. unfold slice. rewrite list_lookup_fmap.
  destruct (decide (Z.of_nat k < n)).
  - rewrite lookup_seqZ_lt by lia. rewrite lookup_take_lt, lookup_drop by lia. cbn [fmap option_fmap option_map].
    unfold padded. rewrite (proj2 (Z.ltb_lt (j + Z.of_nat k) _)) by lia. symmetry.
    rewrite list_lookup_lookup_total_lt by lia. do 2 f_equal. lia.
  - rewrite lookup_seqZ_ge, lookup_take_ge by lia. done.
Qed.

Lemma block_writes_elem bytes bs : ∀ idx j b, bs !! j = Some b →
  let start := (idx + Z.of_nat j) * 4096 in
  (KBlock b, slice start (Z.min (start + 4096) (Z.of_nat (length bytes)) - start) bytes)
    ∈ block_writes idx bs bytes.
Proof.
  induction bs as [|b' bs IH]; intros idx [|j] b Hj; [done|done| |].
  - injection Hj as ->. cbn [block_writes]. rewrite Z.add_0_r. left.
  - cbn [block_writes]. right. specialize (IH (idx + 1) j b Hj). cbv zeta in *.
    by replace (idx + Z.of_nat (S j)) with (idx + 1 + Z.of_nat j) by lia.
Qed.

Lemma slice_slice o n o' n' bs : 0 ≤ o → 0 ≤ o' → 0 ≤ n' → o' + n' ≤ n →
  slice o' n' (slice o n bs) = slice (o + o') n' bs.
Proof.
  intros. unfold slice. rewrite skipn_firstn_comm, take_take, drop_drop. f_equal; [lia|f_equal; lia].
Qed.

(** Entry [k] of a sequence of entries. *)
Lemma slice_dirents es k e : Forall dirent_wf es → es !! k = Some e →
  slice (Z.of_nat k * 32) 32 (es ≫= encode_dirent) = encode_dirent e.
Proof.
  intros Hwf Hk. rewrite <-(take_drop_middle es k e Hk), bind_app, bind_cons.
  assert (dirent_wf e) as He by (rewrite Forall_lookup in Hwf; by eapply Hwf).
  apply slice_app; [|by rewrite encode_dirent_length].
  rewrite encode_dirents_length by by apply Forall_take. rewrite length_take.
  apply lookup_lt_Some in Hk. lia.
Qed.

Lemma omap_seqZ_list {A} (f : Z → option A) es : ∀ m,
  (∀ k, (k < length es)%nat → f (m + Z.of_nat k) = es !! k) → omap f (seqZ m (Z.of_nat (length es))) = es.
Proof.
  induction es as [|e es IH]; intros m Hf; [done|]. cbn [length].
  rewrite seqZ_cons by lia. replace (Z.pred (Z.of_nat (S (length es)))) with (Z.of_nat (length es)) by lia.
  cbn. specialize (Hf 0%nat) as H0. cbn in H0. rewrite Z.add_0_r in H0. rewrite H0 by lia. f_equal.
  apply IH. intros k Hk. specialize (Hf (S k) ltac:(cbn; lia)).
  change ((e :: es) !! S k) with (es !! k) in Hf. rewrite <-Hf. f_equal. lia.
Qed.

(** Looking a child up by its name gives its entry. *)
Lemma find_child n parent cs i c : NoDup (f_name <$> cs) → Forall (λ c, name_ok (f_name c)) cs →
  list_find (λ l, f_name l = f_name c) cs = Some (i, c) →
  find_name (f_name c) (dir_entries n parent cs) = Some (new_entry (f_inum c) (f_name c)).
Proof.
  intros Hnd Hok Hfind. apply list_find_Some in Hfind as (Hi & _ & Hbefore).
  unfold dir_entries. rewrite !find_name_cons, !entry_name_new.
  assert (name_ok (f_name c)) as (_ & _ & Hd1 & Hd2) by (rewrite Forall_lookup in Hok; by eapply Hok).
  rewrite !decide_False by done. clear Hd1 Hd2 Hok.
  revert i Hi Hbefore. induction cs as [|c' cs IH]; intros i Hi Hbefore; [done|]. csimpl. csimpl in Hnd.
  apply NoDup_cons in Hnd as [Hnin Hnd]. rewrite find_name_cons, entry_name_new.
  destruct i as [|i].
  - injection Hi as ->. by rewrite decide_True.
  - rewrite decide_False by (apply (Hbefore 0%nat c'); [done|lia]). apply (IH Hnd i); [done|].
    intros j y Hj Hlt. apply (Hbefore (S j)); [done|lia].
Qed.

Section device.
Context {D : Type} `{HD : BlockDeviceOk D} `{HR : !ReliableDevice D}.
Context (root : FsNode) (img : Img) (Himg : image_of root img) (Hnodes : Forall node_ok (nodes root ROOT_INO)).
Context (d : D) (Hd : ∀ n, sector d n = img_sector img n).

Lemma image_sector x : 0 ≤ x < 1024 → sector d x = Some (img_byte img <$> seqZ (x * 512) 512).
Proof.
  intros Hx. rewrite Hd. unfold img_sector. destruct Himg as [-> _].
  by rewrite (proj2 (Z.leb_le 0 x)), (proj2 (Z.leb_le (x * 512 + 512) _)) by lia.
Qed.

(** Bytes of a record that are in one sector. *)
Lemma record_read k bs j x off n : (k, bs) ∈ image_writes root → 0 ≤ x < 1024 →
  x * 512 + off = key_off k + j → 0 ≤ j → 0 ≤ n → j + n ≤ key_size k → 0 ≤ off → off + n ≤ 512 →
  record_at d x off n = Some (padded bs <$> seqZ j n).
Proof.
  intros Hin Hx Hpos Hj Hn Hsz Ho Hl. unfold record_at. rewrite image_sector by done. cbn [fmap option_fmap option_map].
  unfold slice. rewrite slice_fmap_seqZ by lia. f_equal. apply list_eq. intros i. rewrite !list_lookup_fmap.
  destruct (decide (Z.of_nat i < n)); [|by rewrite !lookup_seqZ_ge by lia].
  rewrite !lookup_seqZ_lt by lia. cbn [fmap option_fmap option_map]. f_equal.
  destruct (proj2 (proj2 Himg) k bs Hin) as [_ Hb]. rewrite <-Hb by lia. f_equal. lia.
Qed.

Lemma node_write_in f p w : (f, p) ∈ nodes root ROOT_INO → w ∈ node_writes (f, p) → w ∈ image_writes root.
Proof.
  intros Hf Hw. do 3 right. apply list_elem_of_bind. by exists (f, p).
Qed.

(** A node's inode is in the table. *)
Lemma node_disk_inode f p : (f, p) ∈ nodes root ROOT_INO → disk_inode d 3 (f_inum f) = Some (node_inode f).
Proof.
  intros Hf. pose proof (proj1 (Forall_forall _ _) Hnodes _ Hf) as Hok.
  pose proof (node_inode_wf _ Hok) as Hwf. cbn [fst] in Hwf. pose proof (encode_inode_length _ Hwf) as Hl.
  destruct Hok as (_ & Hn & _). cbn [fst] in Hn. unfold disk_inode, inode_sector, inode_offset.
  rewrite (record_read (KInode (f_inum f)) (encode_inode (node_inode f)) 0).
  - cbn [fmap option_fmap option_map]. rewrite padded_whole by lia. f_equal. unfold slice.
    rewrite take_ge by (rewrite length_drop; lia). cbn [drop].
    rewrite <-(app_nil_r (encode_inode _)). by apply decode_encode_inode_app.
  - eapply node_write_in; [done|]. destruct f as [n bs ind nm kind]. unfold node_writes. cbn [fst snd f_inum].
    apply elem_of_app. right. left.
  - Z.div_mod_to_equations; lia.
  - cbn. Z.div_mod_to_equations; lia.
  - lia.
  - lia.
  - cbn. lia.
  - Z.div_mod_to_equations; lia.
  - Z.div_mod_to_equations; lia.
Qed.

(** Its blocks are found, through the indirect block if it has one. *)
Lemma direct_block_of bs lb : (lb < 12)%nat →
  direct_blocks_of bs !! lb = Some (default 0 (bs !! lb)).
Proof.
  intros Hlb. unfold direct_blocks_of. destruct (decide (lb < length bs)%nat).
  - rewrite lookup_app_l by (rewrite length_take; lia). rewrite lookup_take_lt by lia.
    by destruct (lookup_lt_is_Some_2 bs lb) as [b ->]; [lia|].
  - rewrite lookup_app_r by (rewrite length_take; lia). rewrite length_take.
    rewrite lookup_replicate_2 by lia. by rewrite (lookup_ge_None_2 bs) by lia.
Qed.

Lemma zero_field k : 0 ≤ k → k * 4 + 4 ≤ 4096 → field (k * 4) 4 zero_block = 0.
Proof.
  intros H0 Hk. unfold field, slice, zero_block. rewrite drop_replicate, take_replicate.
  change BLOCK_SIZE with 4096. replace (Z.to_nat 4 `min` (Z.to_nat 4096 - Z.to_nat (k * 4)))%nat with 4%nat by lia.
  reflexivity.
Qed.

Lemma node_block_of f p lb : (f, p) ∈ nodes root ROOT_INO → 0 ≤ lb →
  let '(mkFs _ bs _ _ _) := f in block_of d (node_inode f) lb = bs !! Z.to_nat lb.
Proof.
  intros Hf Hlb. pose proof (proj1 (Forall_forall _ _) Hnodes _ Hf) as (Hal & _ & _ & Hb & _). cbn [fst] in *.
  destruct f as [n bs ind nm kind]. destruct Hal as (_ & Hmax & Hind). change MAX_DATA_BLOCKS with 1036 in Hmax.
  unfold node_blocks in Hb. apply Forall_app in Hb as [Hb Hi].
  assert (∀ j b, bs !! j = Some b → b ≠ 0) as Hnz.
  { intros j b Hj. rewrite Forall_lookup in Hb. specialize (Hb j b Hj). cbn in Hb. lia. }
  unfold block_of, node_inode. cbn [direct_blocks indirect_block].
  destruct (Z.ltb_spec lb 12).
  { rewrite direct_block_of by lia. cbn. destruct (bs !! Z.to_nat lb) as [b|] eqn:Hbs; [|done]. cbn.
    by rewrite (proj2 (Z.eqb_neq b 0)) by by eapply Hnz. }
  destruct (Z.leb_spec 1024 (lb - 12)); cbn [orb].
  { by rewrite (lookup_ge_None_2 bs) by lia. }
  destruct (Z.eqb_spec ind 0) as [->|Hne].
  { rewrite (lookup_ge_None_2 bs) by lia. done. }
  apply Forall_cons in Hi as [Hi _]. cbn in Hi.
  set (k := lb - 12). set (blk := fill_block 0 (drop 12 bs) zero_block).
  assert (record_at d (ind * 8 + k * 4 / 512) (k * 4 mod 512) 4 = Some (slice (k * 4) 4 blk)) as Hrec.
  { assert (Z.of_nat (length blk) = 4096) as Hbl.
    { unfold blk. rewrite fill_block_length, zero_block_length; [done|lia|rewrite length_drop, zero_block_length; lia]. }
    rewrite <-padded_whole by lia. apply (record_read (KBlock ind) blk (k * 4)); try (cbn; Z.div_mod_to_equations; lia).
    eapply node_write_in; [done|]. unfold node_writes. cbn [fst snd].
    rewrite (proj2 (Z.eqb_neq ind 0) Hne). left. }
  unfold record_at in Hrec. destruct (sector d _) as [buf|]; [|done]. cbn in Hrec |- *. injection Hrec as ->.
  change (of_le (slice (k * 4) 4 blk)) with (field (k * 4) 4 blk). unfold blk.
  rewrite fill_block_field; [|lia| |rewrite length_drop, zero_block_length; lia|lia|rewrite zero_block_length; lia].
  - rewrite Z.sub_0_r, lookup_drop. replace (12 + Z.to_nat k)%nat with (Z.to_nat lb) by lia.
    rewrite (proj2 (Z.ltb_ge k 0)) by lia. destruct (bs !! Z.to_nat lb) as [b|] eqn:Hbs.
    + by rewrite (proj2 (Z.eqb_neq b 0)) by by eapply Hnz.
    + by rewrite zero_field by lia.
  - apply Forall_drop. eapply Forall_impl; [exact Hb|]. intros b Hbb. cbn in Hbb. unfold is_u32, in_width. lia.
Qed.

Lemma node_blocks_ok f p : (f, p) ∈ nodes root ROOT_INO → blocks_ok d (node_inode f).
Proof.
  intros Hf. pose proof (proj1 (Forall_forall _ _) Hnodes _ Hf) as (Hal & _ & _ & Hb & _). cbn [fst] in *.
  pose proof (λ lb, node_block_of f p lb Hf) as Hbo. destruct f as [n bs ind nm kind].
  unfold node_blocks in Hb. apply Forall_app in Hb as [Hb Hi].
  assert (∀ b k, 8 ≤ b < 128 → 0 ≤ k < 8 → is_Some (sector d (b * 8 + k))) as Hsec.
  { intros b k Hbb Hk. rewrite image_sector by lia. by eexists. }
  split_and!.
  - by apply direct_blocks_wf.
  - cbn [indirect_block node_inode]. intros Hne k Hk. rewrite (proj2 (Z.eqb_neq ind 0) Hne) in Hi.
    apply Forall_cons in Hi as [Hi _]. by apply Hsec.
  - intros lb b Hlb Hbl k Hk. rewrite Hbo in Hbl by done. rewrite Forall_lookup in Hb.
    apply Hsec; [by eapply Hb|done].
Qed.

(** Bytes of a node's contents that are in one sector. *)
Lemma content_record f p k n : (f, p) ∈ nodes root ROOT_INO → 0 ≤ k → 0 < n → k + n ≤ node_size f →
  k mod 512 + n ≤ 512 → ∃ b, block_of d (node_inode f) (k / 4096) = Some b ∧
    record_at d (b * 8 + k mod 4096 / 512) (k mod 512) n = Some (slice k n (node_content f p)).
Proof.
  intros Hf Hk Hn Hsz Hs. pose proof (proj1 (Forall_forall _ _) Hnodes _ Hf) as Hok.
  pose proof (node_content_length f p Hok) as Hlen. pose proof (blocks_needed_enough (node_size f) (node_size_nonneg f)).
  pose proof (node_block_of f p (k / 4096) Hf ltac:(Z.div_mod_to_equations; lia)) as Hbo.
  destruct Hok as (Hal & _ & _ & Hb & _). cbn [fst] in *.
  assert (∃ b, block_of d (node_inode f) (k / 4096) = Some b ∧ 8 ≤ b < 128 ∧
    let j := k / 4096 in
    (KBlock b, slice (j * 4096) (Z.min (j * 4096 + 4096) (node_size f) - j * 4096) (node_content f p))
      ∈ image_writes root) as (b & Hbl & Hr & Hw).
  { destruct f as [n0 bs ind nm kind]. destruct Hal as (Hl & _ & _).
    destruct (lookup_lt_is_Some_2 bs (Z.to_nat (k / 4096))) as [b Hbs]; [Z.div_mod_to_equations; lia|].
    exists b. rewrite Hbo. split; [done|]. unfold node_blocks in Hb. apply Forall_app in Hb as [Hb _].
    rewrite Forall_lookup in Hb. split; [by eapply Hb|]. eapply node_write_in; [done|].
    unfold node_writes. cbn [fst snd]. apply elem_of_app. right. right.
    pose proof (block_writes_elem (node_content (mkFs n0 bs ind nm kind) p) bs 0 _ b Hbs) as Hin. cbv zeta in Hin.
    rewrite Hlen in Hin. by replace (0 + Z.of_nat (Z.to_nat (k / 4096))) with (k / 4096) in Hin
      by (Z.div_mod_to_equations; lia). }
  exists b. split; [done|]. cbv zeta in Hw.
  rewrite (record_read _ _ (k mod 4096) _ _ _ Hw); try (cbn; Z.div_mod_to_equations; lia).
  rewrite padded_whole; [|Z.div_mod_to_equations; lia|lia|].
  - f_equal. rewrite slice_slice; [|Z.div_mod_to_equations; lia..]. f_equal. Z.div_mod_to_equations; lia.
  - rewrite slice_length; [|Z.div_mod_to_equations; lia..]. Z.div_mod_to_equations; lia.
Qed.

(** A file is stored as it was given. *)
Lemma node_stored f p : (f, p) ∈ nodes root ROOT_INO → stored d (node_inode f).
Proof.
  intros Hf. pose proof (node_size_nonneg f) as H0.
  assert (sz (node_inode f) = node_size f) as Hsz by by destruct f. split; [by rewrite Hsz|].
  intros k Hk. rewrite Hsz in Hk. destruct (content_record f p k 1 Hf) as (b & Hb & _);
    [lia|lia|lia|Z.div_mod_to_equations; lia|]. by rewrite Hb.
Qed.

Lemma node_file_bytes f p : (f, p) ∈ nodes root ROOT_INO →
  file_bytes d (node_inode f) = node_content f p.
Proof.
  intros Hf. pose proof (proj1 (Forall_forall _ _) Hnodes _ Hf) as Hok.
  pose proof (node_content_length f p Hok) as Hlen. assert (sz (node_inode f) = node_size f) as Hsz by by destruct f.
  apply file_bytes_eq; [by eapply node_blocks_ok|by eapply node_stored|by rewrite Hsz|].
  intros k Hk. rewrite Hsz in Hk. unfold byte_at.
  destruct (content_record f p k 1 Hf) as (b & -> & Hrec); [lia|lia|lia|Z.div_mod_to_equations; lia|].
  unfold record_at in Hrec. cbn [mbind option_bind]. destruct (sector d _) as [buf|]; [|done].
  cbn in Hrec |- *. injection Hrec as Hrec. apply (f_equal (lookup 0%nat)) in Hrec.
  change 0%nat with (Z.to_nat 0) in Hrec. rewrite !slice_lookup in Hrec by (Z.div_mod_to_equations; lia).
  by rewrite !Z.add_0_r in Hrec.
Qed.

(** A directory has its entries. *)
Lemma node_dir_entry n bs ind nm cs p k e : (mkFs n bs ind nm (FDirectory cs), p) ∈ nodes root ROOT_INO →
  dir_entries n p cs !! k = Some e →
  dir_entry d (node_inode (mkFs n bs ind nm (FDirectory cs))) (Z.of_nat k) = Some e.
Proof.
  intros Hf Hk. pose proof (proj1 (Forall_forall _ _) Hnodes _ Hf) as Hok.
  pose proof (dir_entries_wf _ p Hok) as Hwf. cbn in Hwf. pose proof (lookup_lt_Some _ _ _ Hk) as Hlt.
  unfold dir_entries in Hlt. cbn [length] in Hlt. rewrite length_fmap in Hlt.
  unfold dir_entry.
  destruct (content_record _ p (Z.of_nat k * 32) 32 Hf) as (b & -> & Hrec);
    [lia|lia|cbn [node_size]; lia|Z.div_mod_to_equations; lia|].
  cbn [mbind option_bind node_content] in *.
  replace (Z.of_nat k * 32 mod 4096 mod 512) with (Z.of_nat k * 32 mod 512) by (Z.div_mod_to_equations; lia).
  rewrite Hrec, (slice_dirents _ _ e) by done. cbn. f_equal.
  rewrite <-(app_nil_r (encode_dirent e)). apply decode_encode_dirent_app.
  rewrite Forall_lookup in Hwf. by eapply Hwf.
Qed.

Lemma node_dir_ok n bs ind nm cs p : (mkFs n bs ind nm (FDirectory cs), p) ∈ nodes root ROOT_INO →
  let i := node_inode (mkFs n bs ind nm (FDirectory cs)) in
  let es := dir_entries n p cs in
  dir_ok d i (Z.of_nat (length es)) ∧ entries d i (Z.of_nat (length es)) = es.
Proof.
  intros Hf i es. pose proof (proj1 (Forall_forall _ _) Hnodes _ Hf) as Hok.
  assert (length es = S (S (length cs))) as Hl by (unfold es, dir_entries; cbn; by rewrite length_fmap).
  assert (∀ k, (k < length es)%nat → dir_entry d i (Z.of_nat k) = es !! k) as He.
  { intros k Hk. destruct (lookup_lt_is_Some_2 es k Hk) as [e Hek]. rewrite Hek. by eapply node_dir_entry. }
  split.
  - split_and!; [done|lia|rewrite Hl; unfold i; cbn [sz node_inode node_size]; lia|by eapply node_blocks_ok|]. intros k Hk. split; [lia|].
    specialize (He (Z.to_nat k) ltac:(lia)). rewrite Z2Nat.id in He by lia.
    destruct (lookup_lt_is_Some_2 es (Z.to_nat k)) as [e Hek]; [lia|]. exists e. rewrite He. split; [done|].
    assert (Forall (λ e, name_len e ≤ 27) es) as Hle; [|rewrite Forall_lookup in Hle; by eapply Hle].
    destruct Hok as (_ & _ & _ & _ & Hcs). cbn [fst] in Hcs. unfold es, dir_entries.
    repeat apply Forall_cons_2; [cbn; lia..|]. apply Forall_fmap. eapply Forall_impl; [exact Hcs|].
    intros c (Hc & _). cbn. lia.
  - unfold entries. apply omap_seqZ_list. intros k Hk. rewrite Z.add_0_l. by apply He.
Qed.

(** ** Mounted *)

(** The mounted filesystem shows the image: cached inodes are those on disk. *)
Definition mounted (v : Vsfs D) : Prop :=
  same_disk d (device v) ∧ superblock v = tool_superblock ∧
  (∀ n node, inode_cache v !! n = Some node → inum node = n ∧
     ∃ i, heap v !! inner node = Some i ∧ disk_inode d 3 n = Some i) ∧
  ∀ l, is_Some (heap v !! l) → l < next_loc v.

Lemma disk_inode_same d' n : same_disk d d' → disk_inode d' 3 n = disk_inode d 3 n.
Proof. intros Hs. unfold disk_inode, record_at. by rewrite Hs. Qed.

Lemma mounted_read_inode v n i : mounted v → 0 ≤ n → disk_inode d 3 n = Some i →
  ∃ node v', read_inode n v = (Ok node, v') ∧ mounted v' ∧ heap v ⊆ heap v' ∧ inum node = n ∧
    heap v' !! inner node = Some i.
Proof.
  intros (Hs & Hsb & Hc & Hfr) Hn Hi. destruct (inode_cache v !! n) as [node|] eqn:Hcn.
  - destruct (Hc n node Hcn) as [Hin (i' & Hh & Hi')]. exists node, v. rewrite (read_inode_cached n v node) by done.
    split_and!; [done|done|done|done|]. rewrite Hh. congruence.
  - destruct (read_inode_miss n v i) as (d' & Hd' & Hr); [done|by rewrite Hsb|done| |].
    { rewrite Hsb. cbn [inode_table_start tool_superblock]. by rewrite disk_inode_same. }
    do 2 eexists. split; [exact Hr|].
    assert (heap v !! next_loc v = None) as Hnew.
    { apply eq_None_not_Some. intros Hsome%Hfr. lia. }
    assert (heap v ⊆ <[next_loc v := i]> (heap v)) as Hsub by by apply insert_subseteq.
    split_and!; cbn [inum inner heap]; [|done|done|by rewrite lookup_insert_eq].
    split_and!; cbn [device superblock inode_cache heap next_loc]; [by trans (device v)|done| |].
    + intros m node. destruct (decide (m = n)) as [->|Hne].
      * rewrite lookup_insert_eq. intros [= <-]. split; [done|]. exists i. by rewrite lookup_insert_eq.
      * rewrite lookup_insert_ne by done. intros Hm. destruct (Hc m node Hm) as [? (j & Hj & ?)].
        split; [done|]. exists j. split; [|done]. by eapply lookup_weaken.
    + intros l. destruct (decide (l = next_loc v)) as [->|Hne]; [lia|].
      rewrite lookup_insert_ne by done. intros Hl%Hfr. lia.
Qed.

Lemma mounted_device v d' : mounted v → same_disk (device v) d' → mounted (set_device d' v).
Proof. intros (Hs & Hrest) Hd'. split; [by trans (device v)|done]. Qed.

Context (Hlayout : valid_layout (erase root)).

(** One component of a path. *)
Lemma lookup_child n bs ind nm cs p c i v : (mkFs n bs ind nm (FDirectory cs), p) ∈ nodes root ROOT_INO →
  mounted v → list_find (λ l, f_name l = f_name c) cs = Some (i, c) →
  ∃ node v', lookup_path_inner (node_inode (mkFs n bs ind nm (FDirectory cs))) (f_name c) v = (Ok node, v') ∧
    mounted v' ∧ heap v ⊆ heap v' ∧ inum node = f_inum c ∧ heap v' !! inner node = Some (node_inode c).
Proof.
  intros Hf Hm Hfind. destruct (node_dir_ok _ _ _ _ _ _ Hf) as [Hdir Hes].
  pose proof (nodes_valid root ROOT_INO Hlayout) as Hlo. rewrite Forall_forall in Hlo.
  specialize (Hlo _ Hf). apply erase_dir_ok in Hlo as [Hnd Hnm].
  assert (c ∈ cs) as Hc by (apply list_find_Some in Hfind as (Hi & _); by eapply list_elem_of_lookup_2).
  pose proof (nodes_children _ _ _ _ _ _ _ _ _ Hf Hc) as Hcn.
  pose proof (proj1 (Forall_forall _ _) Hnodes _ Hcn) as (_ & Hcr & _). cbn [fst] in Hcr.
  pose proof Hm as (Hs & _).
  destruct (lookup_path_inner_spec (node_inode (mkFs n bs ind nm (FDirectory cs))) (f_name c)
    (Z.of_nat (length (dir_entries n p cs))) v) as (d' & Hd' & ->).
  { destruct Hdir as (? & ? & ? & Hbl & Hg). split_and!; [done..|by eapply blocks_ok_same|].
    intros k Hk. destruct (Hg k Hk) as (? & e & He & ?). split; [done|]. exists e.
    by rewrite (dir_entry_same d). }
  rewrite (entries_same d) by done. rewrite Hes, (find_child n p cs i c) by
    (done || (eapply Forall_impl; [exact Hnm|]; by intros x [? _])).
  cbn [d_inum new_entry].
  destruct (mounted_read_inode (set_device d' v) (f_inum c) (node_inode c)) as (node & v' & Hr & Hm' & Hsub & Hin & Hh);
    [by apply mounted_device|lia|by eapply node_disk_inode|].
  exists node, v'. by split_and!.
Qed.

(** A path from a node that is open. *)
Lemma open_path path : ∀ f p f' node v, (f, p) ∈ nodes root ROOT_INO → mounted v →
  inum node = f_inum f → heap v !! inner node = Some (node_inode f) → lookup_fs f path = Some f' →
  ∃ node' v' p', open_loop node path v = (Ok node', v') ∧ mounted v' ∧
    inum node' = f_inum f' ∧ heap v' !! inner node' = Some (node_inode f') ∧ (f', p') ∈ nodes root ROOT_INO.
Proof.
  induction path as [|c path IH]; intros f p f' node v Hf Hm Hin Hh Hlk.
  { injection Hlk as ->. exists node, v, p. by split_and!. }
  destruct f as [n bs ind nm [cs|data]]; cbn [lookup_fs] in Hlk; [|done].
  destruct (list_find (λ l, f_name l = c) cs) as [[i x]|] eqn:Hfind; [|done]. cbn in Hlk.
  pose proof Hfind as (Hi & Hx & _)%list_find_Some. subst c.
  destruct (lookup_child _ _ _ _ _ _ x i v Hf Hm Hfind) as (next & v' & Hl & Hm' & Hsub & Hnin & Hnh).
  pose proof (nodes_children _ _ _ _ _ _ _ _ _ Hf (list_elem_of_lookup_2 _ _ _ Hi)) as Hxn.
  cbn [open_loop]. unfold bind at 1, get_inner, bind at 1, gets, lift. rewrite Hh. cbn [unwrap].
  assert (ty (node_inode (mkFs n bs ind nm (FDirectory cs))) =? TFile = false) as -> by done.
  rewrite (bind_ok _ _ _ _ _ Hl).
  apply (IH x n); [done|done| | |done]; destruct (Z.eqb_spec (inum node) (inum next)) as [Heq|]; cbn [negb]; try done.
  - congruence.
  - rewrite (lookup_weaken _ _ _ _ Hh Hsub). rewrite <-(node_disk_inode _ _ Hf), <-(node_disk_inode _ _ Hxn).
    f_equal. congruence.
Qed.

Lemma mount_image : f_inum root = 1 → ∃ v, initialize d = (Ok v, device v) ∧ mounted v ∧
  ∃ node, inode_cache v !! 1 = Some node.
Proof.
  intros H1. unfold initialize.
  assert (sector d 0 = Some (padded (encode_superblock tool_superblock) <$> seqZ 0 512)) as Hs0.
  { pose proof (record_read KSuper (encode_superblock tool_superblock) 0 0 0 512) as Hr.
    rewrite <-Hr; [|left|cbn; lia..]. unfold record_at. rewrite image_sector by lia.
    assert (∀ L : list Z, length L = 512%nat → Some L = slice 0 512 <$> Some L) as Hw.
    { intros L HL. cbn. unfold slice. by rewrite drop_0, take_ge by lia. }
    apply Hw. by rewrite length_fmap, length_seqZ. }
  destruct (read_sector_ok d 0 _ Hs0) as (d' & -> & Hd').
  assert (decode_superblock (padded (encode_superblock tool_superblock) <$> seqZ 0 512) = tool_superblock) as -> by
    (vm_compute; reflexivity).
  assert (negb (magic tool_superblock =? MAGIC) = false) as -> by done.
  pose proof (node_disk_inode _ _ (nodes_self root ROOT_INO)) as Hi. rewrite H1 in Hi.
  destruct (read_inode_miss 1 (mkVsfs d' tool_superblock ∅ ∅ 0) (node_inode root)) as (d2 & Hd2 & ->); [done|done|lia| |].
  { cbn [device superblock inode_table_start tool_superblock]. by rewrite disk_inode_same. }
  eexists. split; [done|]. cbn [device superblock inode_cache heap next_loc] in *. split; [|by exists (mkINode 1 0)].
  split_and!; cbn [device superblock inode_cache heap next_loc]; [by trans d'|done| |].
  - intros n node. destruct (decide (n = 1)) as [->|]; [|by rewrite lookup_insert_ne by done].
    rewrite lookup_insert_eq. intros [= <-]. split; [done|]. eexists. by rewrite lookup_insert_eq.
  - intros l. destruct (decide (l = 0)) as [->|]; [lia|]. rewrite lookup_insert_ne by done. by intros [? ?].
Qed.
End device.

(** What opening a path of a layout gives. *)
Definition shows {D} `{BlockDeviceOk D} (v : Vsfs D) (node : INode) (l : LayoutNode) : Prop :=
  let '(mkLayout _ kind) := l in
  match kind with
  | LFile data => vsfs_regular v node ∧
      ∀ off len, 0 ≤ off → 0 ≤ len → ∃ v', read node off len v = (Ok (take (Z.to_nat len) (drop (Z.to_nat off) data)), v')
  | LDirectory cs => ∃ i, heap v !! inner node = Some i ∧ ty i = TDirectory ∧
      entry_name <$> drop 2 (entries (device v) i (sz i / 32)) = l_name <$> cs
  end.

Lemma node_shows {D} `{HD : BlockDeviceOk D} `{HR : !ReliableDevice D} root img d v node f p :
  image_of root img → Forall node_ok (nodes root ROOT_INO) → (∀ n, sector d n = img_sector img n) →
  (f, p) ∈ nodes root ROOT_INO → same_disk d (device v) → heap v !! inner node = Some (node_inode f) →
  shows v node (erase f).
Proof.
  intros Himg Hnodes Hd Hf Hs Hh.
  pose proof (node_blocks_ok root img Himg Hnodes d Hd f p Hf) as Hbl.
  pose proof (node_stored root img Himg Hnodes d Hd f p Hf) as Hst.
  pose proof (node_file_bytes root img Himg Hnodes d Hd f p Hf) as Hby.
  pose proof (proj1 (Forall_forall _ _) Hnodes _ Hf) as (Hal & _).
  destruct f as [n bs ind nm [cs|data]]; cbn [erase shows].
  - destruct (node_dir_ok root img Himg Hnodes d Hd _ _ _ _ _ _ Hf) as [(Hty & _ & Hsz & _) Hes].
    eexists. split; [exact Hh|]. split; [done|]. rewrite (entries_same d) by done.
    rewrite Hsz, Z.div_mul by lia. rewrite Hes. unfold dir_entries. rewrite skipn_cons, skipn_cons, drop_0. clear. induction cs as [|c cs IH]; [done|]. csimpl.
    by rewrite entry_name_new, erase_name, IH.
  - assert (same_disk d (device v)) as Hs' by done. split.
    + exists (node_inode (mkFs n bs ind nm (FFile data))). split_and!; [done|done| |by eapply blocks_ok_same|by eapply stored_same].
      apply (allocated_size _ Hal).
    + intros off len Ho Hl. destruct (read_stored (device v) (node_inode (mkFs n bs ind nm (FFile data))) off len)
        as (d' & _ & Hr); [done|by eapply blocks_ok_same|by eapply stored_same|done..|].
      exists (set_device d' v). unfold read, get_inner, io, zoom, bind, gets, lift. rewrite Hh. cbn [unwrap]. rewrite Hr.
      by rewrite (file_bytes_same d) , Hby by done.
Qed.

(** C5: an image that the tool made from a valid layout, put on a reliable
    block device, is mounted by the kernel's VSFS, and every path that the layout
    has can be opened: a directory has the layout's entries in their order after
    the two that it begins with, and reads of a file return the bytes that the
    layout gave it. *)
Theorem image_opens {D} `{HD : BlockDeviceOk D} `{HR : !ReliableDevice D} (d : D) l img :
  valid_layout l → make_image l = Ok img → (∀ n, sector d n = img_sector img n) →
  ∃ v r, initialize d = (Ok v, device v) ∧ Vsfs.root v = (Ok r, v) ∧
  ∀ path l', lookup_layout l (components path) = Some l' →
  ∃ node v', open r path v = (Ok node, v') ∧ shows v' node l'.
Proof.
  intros Hl Him Hd. destruct (make_image_spec l img Hl Him) as (fs & <- & Hnodes & Himg & H1 & _).
  destruct (mount_image fs img Himg Hnodes d Hd H1) as (v & Hv & Hm & r & Hr).
  exists v, r. split; [done|]. split; [unfold Vsfs.root, bind, gets, lift; by rewrite Hr|].
  intros path l' Hlk. rewrite lookup_erase in Hlk. destruct (lookup_fs fs (components path)) as [f|] eqn:Hf; [|done].
  injection Hlk as <-. destruct Hm as (Hs & Hsb & Hc & Hfr). destruct (Hc 1 r Hr) as [Hin (i & Hh & Hi)].
  pose proof (node_disk_inode fs img Himg Hnodes d Hd fs ROOT_INO (nodes_self fs ROOT_INO)) as Hroot.
  rewrite H1 in Hroot.
  destruct (open_path fs img Himg Hnodes d Hd Hl (components path) fs ROOT_INO f r v)
    as (node & v' & p' & Ho & (Hs' & _) & _ & Hh' & Hin'); [apply nodes_self|done|congruence|congruence|done|].
  exists node, v'. split; [exact Ho|]. by eapply node_shows.
Qed.

(** ** A disk that holds an image *)

(** A disk as a function from sectors to their contents. *)
Definition sectors_ok (f : Z → option (list Z)) : Prop :=
  ∀ n b, f n = Some b → length b = 512%nat ∧ Forall is_u8 b.
Definition fun_disk : Type := { f : Z → option (list Z) | sectors_ok f }.

(** [b] as bytes. *)
Definition as_bytes (b : list Z) : list Z := (λ x, x mod 256) <$> b.

Lemma as_bytes_id b : Forall is_u8 b → as_bytes b = b.
Proof.
  unfold as_bytes. induction 1 as [|x b Hx Hb IH]; [done|]. csimpl. rewrite IH. f_equal.
  unfold is_u8, in_width in Hx. apply Z.mod_small. lia.
Qed.

Lemma sectors_ok_write f n b : sectors_ok f → length b = 512%nat →
  sectors_ok (λ k, if decide (k = n) then Some (as_bytes b) else f k).
Proof.
  intros Hf Hl k c. cbn. destruct (decide (k = n)); [|apply Hf]. intros [= <-]. unfold as_bytes.
  rewrite length_fmap. split; [done|]. apply Forall_fmap, Forall_true. intros x. cbn.
  unfold is_u8, in_width. pose proof (Z.mod_pos_bound x 256). lia.
Qed.

#[export] Instance fun_block : BlockDevice fun_disk := {
  read_sector n f := match `f n with Some b => (Ok b, f) | None => (Err DeviceIO, f) end;
  write_sector n b f :=
    match `f n, decide (length b = 512%nat) with
    | Some _, left Hl => (Ok tt, (λ k, if decide (k = n) then Some (as_bytes b) else `f k) ↾
        sectors_ok_write (`f) n b (proj2_sig f) Hl)
    | _, _ => (Err DeviceIO, f)
    end;
}.

#[export] #[refine] Instance fun_block_ok : BlockDeviceOk fun_disk := { sector f n := `f n }.
Proof.
  - intros [f Hf] n b. apply Hf.
  - intros f n. cbn. by destruct (`f n).
  - intros f n b Hl Hb. cbn. destruct (`f n) eqn:Hn; [|by rewrite Hn].
    destruct (decide _); [|done]. cbn. by rewrite as_bytes_id.
Defined.

#[export] Instance fun_block_reliable : ReliableDevice fun_disk.
Proof.
  split.
  - intros f n [b Hb]. cbn in *. rewrite Hb. by eexists _, _.
  - intros f n b Hl [c Hc]. cbn in *. rewrite Hc. destruct (decide _); [by eexists|done].
Qed.

Lemma img_sectors_ok img : (∀ o, is_u8 (img_byte img o)) → sectors_ok (img_sector img).
Proof.
  intros Hi n b. unfold img_sector. destruct (_ && _); [|done]. intros <-%(inj Some).
  rewrite length_fmap, length_seqZ. split; [done|]. apply Forall_fmap, Forall_true. intros x. apply Hi.
Qed.

(** The tool's default layout. *)
Lemma default_layout_valid : valid_layout default_layout.
Proof.
  assert (name_ok (str "foo")) by (split_and!; [cbn; lia|apply str_bytes|done|done]).
  assert (name_ok (str "bar")) by (split_and!; [cbn; lia|apply str_bytes|done|done]).
  cbn [default_layout valid_layout l_name]. split_and!; [apply NoDup_singleton|done|apply NoDup_singleton|done| |done|done].
  apply Forall_app. split; [apply str_bytes|]. apply Forall_singleton. unfold is_u8, in_width. lia.
Qed.

Lemma image_opens_witness : ∃ (d : fun_disk) v r node v',
  initialize d = (Ok v, device v) ∧ Vsfs.root v = (Ok r, v) ∧
  open r (str "/foo/bar") v = (Ok node, v') ∧
  ∃ v2, read node 6 100 v' = (Ok (str "world" ++ [10]), v2).
Proof.
  destruct (make_image_fits default_layout default_layout_valid) as (fs & img & Him & _ & _ & (_ & Hu & _) & _);
    [reflexivity|vm_compute; discriminate|].
  set (d := img_sector img ↾ img_sectors_ok img Hu).
  destruct (image_opens d default_layout img default_layout_valid Him) as (v & r & Hi & Hr & Hopen); [done|].
  destruct (Hopen (str "/foo/bar") (mkLayout (str "bar") (LFile (str "hello world" ++ [10])))) as (node & v' & Ho & _ & Hread);
    [vm_compute; reflexivity|].
  exists d, v, r, node, v'. split_and!; [done..|]. destruct (Hread 6 100) as [v2 Hv2]; [done..|].
  exists v2. etrans; [exact Hv2|reflexivity].
Defined.
