(* ===== verification/VsfsToolReady.v ===== *)
(** * An image is ready for new files

    The bitmaps of an image mark exactly what the layout uses, and its
    directories are as the kernel's [create_file] needs them. *)

From Stdlib Require Import Strings.String.
From S2P Require Import Prelude Errors Vfs Vsfs VsfsIO VsfsDir VsfsCreate VsfsTool VsfsToolAlloc VsfsToolImg VsfsToolOpen.

Lemma tool_superblock_ok : layout_ok tool_superblock.
Proof. split; cbn; unfold
  DATA_BLOCK_START, NINODES, NBLOCKS; lia. Qed.

Lemma bit_at_zero j : 0 ≤ j < 32768 → bit_at zero_block j = false.
Proof.
  intros Hj. unfold bit_at, zero_block. rewrite lookup_total_replicate_2; [apply Z.testbit_0_l|].
  change BLOCK_SIZE with 4096. Z.div_mod_to_equations; lia.
Qed.

Section device.
Context {D : Type} `{HD : BlockDeviceOk D} `{HR : !ReliableDevice D}.
Context (root : FsNode) (img : Img) (Himg : image_of root img) (Hnodes : Forall node_ok (nodes root ROOT_INO)).
Context (d : D) (Hd : ∀ n, sector d n = img_sector img n).

Lemma image_fs_ok : fs_ok tool_superblock d.
Proof.
  split; [apply tool_superblock_ok|]. intros x Hx. cbn in Hx. unfold NBLOCKS in Hx.
  rewrite (image_sector root img Himg d Hd) by lia. by eexists.
Qed.

(** A bit of the first sector of a bitmap. *)
Lemma bitmap_read k bits blk j : (k, set_bits bits zero_block) ∈ image_writes root →
  key_off k = blk * 4096 → key_size k = 4096 → 0 ≤ blk < 128 → 0 ≤ j < 4096 →
  Forall (λ b, 0 ≤ b < 32768) bits → bitmap d blk j = bool_decide (j ∈ bits).
Proof.
  intros Hin Hoff Hsz Hblk Hj Hbits. unfold bitmap. rewrite Z.div_small, Z.mod_small by lia.
  pose proof (record_read root img Himg d Hd k _ 0 (blk * 8) 0 512 Hin) as Hr.
  unfold record_at in Hr. rewrite Z.add_0_r. rewrite (image_sector root img Himg d Hd) in Hr |- * by lia.
  set (buf := img_byte img <$> seqZ _ _) in *.
  assert (buf = padded (set_bits bits zero_block) <$> seqZ 0 512) as ->.
  { specialize (Hr ltac:(lia) ltac:(lia) ltac:(lia) ltac:(lia) ltac:(lia) ltac:(lia) ltac:(lia)).
    apply (inj Some). rewrite <-Hr. cbn. unfold slice. f_equal. }
  transitivity (bit_at (set_bits bits zero_block) j).
  - unfold bit_at. f_equal. apply list_lookup_total_correct. rewrite list_lookup_fmap.
    rewrite lookup_seqZ_lt by (Z.div_mod_to_equations; lia). cbn. f_equal. unfold padded.
    rewrite set_bits_length, zero_block_length, (proj2 (Z.ltb_lt _ 4096)) by (Z.div_mod_to_equations; lia).
    f_equal. Z.div_mod_to_equations; lia.
  - rewrite bit_at_set_bits by (lia || (rewrite zero_block_length; eapply Forall_impl; [exact Hbits|]; cbn; lia)).
    by rewrite bit_at_zero, orb_false_r by lia.
Qed.

Lemma image_inode_bitmap j : 0 ≤ j < 4096 → bitmap d 1 j = bool_decide (j ∈ inums (nodes root ROOT_INO)).
Proof.
  intros Hj. apply (bitmap_read KInodeBitmap); [right; left|done..|].
  apply Forall_fmap. eapply Forall_impl; [exact Hnodes|]. intros q (_ & Hq & _). cbn. lia.
Qed.

Lemma image_data_bitmap j : 0 ≤ j < 4096 → bitmap d 2 j = bool_decide (j + 8 ∈ blocks (nodes root ROOT_INO)).
Proof.
  intros Hj. rewrite (bitmap_read KDataBitmap ((λ b, b - 8) <$> blocks (nodes root ROOT_INO))); [|do 2 right; left|done..|].
  - apply bool_decide_ext. rewrite list_elem_of_fmap. split.
    + intros (b & -> & Hb). by rewrite Z.sub_add.
    + intros Hb. exists (j + 8). split; [lia|done].
  - apply Forall_fmap, Forall_bind. eapply Forall_impl; [exact Hnodes|]. intros q (_ & _ & _ & Hq & _).
    eapply Forall_impl; [exact Hq|]. cbn. lia.
Qed.

(** Directories are small: all their entries are numbered. *)
Lemma node_directory n bs ind nm cs p : NoDup (blocks (nodes root ROOT_INO)) →
  (length cs < 80)%nat → (mkFs n bs ind nm (FDirectory cs), p) ∈ nodes root ROOT_INO →
  directory tool_superblock d (node_inode (mkFs n bs ind nm (FDirectory cs))) (2 + Z.of_nat (length cs)).
Proof.
  intros Hnd Hcs Hf. destruct (node_dir_ok root img Himg Hnodes d Hd _ _ _ _ _ _ Hf) as [Hdir _].
  pose proof (proj1 (Forall_forall _ _) Hnodes _ Hf) as Hok. pose proof (node_inode_wf _ Hok) as Hwf.
  pose proof (λ lb, node_block_of root img Himg Hnodes d Hd _ _ lb Hf) as Hbo. cbv beta iota in Hbo.
  destruct Hok as (Hal & _ & _ & Hb & _). cbn [fst] in *.
  assert (ind = 0 ∧ bs ⊆+ blocks (nodes root ROOT_INO) ∧ Forall (λ b, b ∈ blocks (nodes root ROOT_INO)) bs) as (-> & Hsub & Hel).
  { destruct Hal as (Hl & _ & Hind). unfold node_size, blocks_needed in Hl. change BLOCK_SIZE with 4096 in Hl.
    assert (ind = 0) as -> by (apply Hind; revert Hl; destruct (_ =? 0); Z.div_mod_to_equations; lia).
    assert (bs ⊆+ blocks (nodes root ROOT_INO)) as Hs.
    { apply list_elem_of_split in Hf as (l1 & l2 & ->). unfold blocks. rewrite bind_app, bind_cons.
      cbn [fst node_blocks Z.eqb]. rewrite app_nil_r. apply submseteq_inserts_l, submseteq_inserts_r. done. }
    split_and!; [done|done|]. apply Forall_forall. intros b Hbb. by eapply elem_of_submseteq. }
  assert (NoDup bs) as Hndb.
  { apply submseteq_Permutation in Hsub as [k Hk]. rewrite Hk in Hnd. by apply NoDup_app in Hnd as [? _]. }
  replace (2 + Z.of_nat (length cs)) with (Z.of_nat (length (dir_entries n p cs)))
    by (unfold dir_entries; cbn [length]; rewrite length_fmap; lia).
  split_and!; [done|done|done| |].
  - split; [|by intros]. intros lb lb' b Hlb Hlb'. rewrite !Hbo by done. intros H1 H2.
    pose proof (NoDup_lookup bs _ _ _ Hndb H1 H2). lia.
  - intros lb b Hlb. rewrite Hbo by done. intros Hlk. unfold node_blocks in Hb. apply Forall_app in Hb as [Hb _].
    rewrite Forall_lookup in Hb, Hel. specialize (Hb _ _ Hlk). specialize (Hel _ _ Hlk). cbn in Hb.
    split_and!; cbn; unfold DATA_BLOCK_START, NBLOCKS; [lia|lia|lia|].
    rewrite image_data_bitmap by lia. apply bool_decide_true. by rewrite Z.sub_add.
Qed.
End device.

(** A directory of a tree has fewer entries than the tree has nodes. *)
Lemma nodes_length_le f p : ∀ g q, (g, q) ∈ nodes f p → (length (nodes g q) ≤ length (nodes f p))%nat.
Proof.
  revert p. induction f as [n bs ind nm cs IH|n bs ind nm data] using fs_induction; intros p g q; cbn [nodes].
  - intros [[= -> ->]|Hin]%elem_of_cons; [done|]. cbn [length].
    apply list_elem_of_In, in_concat in Hin as (gs & Hgs & Hin%list_elem_of_In).
    apply in_map_iff in Hgs as (c & <- & Hc%list_elem_of_In).
    rewrite Forall_forall in IH. specialize (IH c Hc n g q Hin). etrans; [exact IH|].
    apply list_elem_of_split in Hc as (l1 & l2 & ->). rewrite map_app, concat_app, length_app. cbn. rewrite length_app. lia.
  - intros [[= -> ->]|[]%not_elem_of_nil]%elem_of_cons. done.
Qed.

Lemma dir_length f p n bs ind nm cs q : (mkFs n bs ind nm (FDirectory cs), q) ∈ nodes f p →
  (length cs < length (nodes f p))%nat.
Proof.
  intros Hle%nodes_length_le. eapply Nat.lt_le_trans; [|exact Hle]. cbn [nodes length].
  apply Nat.lt_succ_r. clear. induction cs as [|c cs IH]; [done|]. cbn [map concat length]. rewrite length_app.
  destruct c. cbn [nodes length]. lia.
Qed.

Lemma find_name_fresh n p cs nm : nm ∉ str "." :: str ".." :: (l_name <$> map erase cs) →
  find_name nm (dir_entries n p cs) = None.
Proof.
  intros (H1 & [H2 H3]%not_elem_of_cons)%not_elem_of_cons. unfold dir_entries.
  rewrite !find_name_cons, !entry_name_new, !decide_False by done. clear H1 H2.
  induction cs as [|c cs IH]; [done|]. csimpl in *. apply not_elem_of_cons in H3 as [H1 H3].
  rewrite erase_name in H1. rewrite find_name_cons, entry_name_new, decide_False by done. by apply IH.
Qed.

(** Creation in a directory of a tree whose image is on the disk. *)
Lemma create_in_image {D} `{HD : BlockDeviceOk D} `{HR : !ReliableDevice D} fs img
    (Himg : image_of fs img) (Hnodes : Forall node_ok (nodes fs ROOT_INO)) (v : Vsfs D) n bs ind dn cs p node nm :
  let f := mkFs n bs ind dn (FDirectory cs) in
  (∀ k, sector (device v) k = img_sector img k) → superblock v = tool_superblock →
  inums (nodes fs ROOT_INO) = seqZ 1 (inodes_of (erase fs)) →
  blocks (nodes fs ROOT_INO) ≡ₚ seqZ 8 (blocks_of (erase fs)) →
  inodes_of (erase fs) < 79 → blocks_of (erase fs) < 120 → (f, p) ∈ nodes fs ROOT_INO →
  inum node = n → heap v !! inner node = Some (node_inode f) → inner node < next_loc v →
  (1 ≤ length nm ≤ 27)%nat → Forall is_u8 nm → find_name nm (dir_entries n p cs) = None →
  ∃ new v' i', create_file node nm v = (Ok new, v') ∧ inodes_of (erase fs) < inum new < 80 ∧
    created v v' node (node_inode f) (2 + Z.of_nat (length cs)) nm new i'.
Proof.
  intros f Hd Hsb Hin Hbn Hil Hbl Hf <- Hnh Hloc Hlen Hnm Hfresh. pose proof (dir_length _ _ _ _ _ _ _ _ Hf) as Hcs.
  assert (length (nodes fs ROOT_INO) = Z.to_nat (inodes_of (erase fs))) as Hnl
    by (rewrite <-(length_seqZ 1), <-Hin; symmetry; apply length_fmap).
  assert (inum node ∈ inums (nodes fs ROOT_INO)) as Hn by (apply list_elem_of_fmap; eexists; split; [|exact Hf]; done).
  pose proof Hn as Hnr. rewrite Hin in Hnr. apply elem_of_seqZ in Hnr.
  assert (NoDup (blocks (nodes fs ROOT_INO))) as Hnd by (rewrite Hbn; apply NoDup_seqZ).
  pose proof (node_directory fs img Himg Hnodes _ Hd _ bs ind dn cs p Hnd ltac:(lia) Hf) as Hdir.
  destruct (node_dir_ok fs img Himg Hnodes _ Hd _ _ _ _ _ _ Hf) as [_ Hes].
  replace (Z.of_nat (length _)) with (2 + Z.of_nat (length cs)) in Hes
    by (unfold dir_entries; cbn [length]; rewrite length_fmap; lia).
  pose proof (image_inode_bitmap fs img Himg Hnodes _ Hd) as Hib.
  pose proof (image_data_bitmap fs img Himg Hnodes _ Hd) as Hdb.
  pose proof (λ i n, create_file_spec v node i n nm) as Hspec. rewrite Hsb in Hspec. cbn [tool_superblock ninodes inode_bitmap_block] in Hspec.
  specialize (Hspec _ _ (image_fs_ok fs img Himg _ Hd) Hnh Hdir).
  change NINODES with 80 in Hspec. change INODE_BITMAP_BLOCK with 1 in Hspec. rewrite Hib, bool_decide_true in Hspec by (done || lia).
  specialize (Hspec ltac:(lia) eq_refl Hloc Hnm).
  destruct (create_file node nm v) as [[new|e| |] v'] eqn:Hc; [| |done..].
  - destruct Hspec as (_ & _ & i' & Hcr). exists new, v', i'. split; [done|]. split; [|done].
    destruct (cr_inum _ _ _ _ _ _ _ _ Hcr) as (Hrange & Hfree & _). rewrite Hsb in Hrange, Hfree.
    cbn in Hrange. change NINODES with 80 in Hrange. change (inode_bitmap_block tool_superblock) with 1 in Hfree.
    rewrite Hib in Hfree by lia. apply bool_decide_eq_false in Hfree. rewrite Hin, elem_of_seqZ in Hfree. lia.
  - exfalso. destruct Hspec as ([Hx|[Hx|[Hx|[Hx|Hx]]]] & _).
    + lia.
    + fold f in Hes. rewrite Hes, Hfresh in Hx. by destruct Hx.
    + lia.
    + destruct Hx as [Hx|Hx]; [by cbn in Hx|]. specialize (Hx 127 ltac:(cbn; unfold DATA_BLOCK_START, NBLOCKS; lia)).
      change (data_bitmap_block tool_superblock) with 2 in Hx. change (data_block_start tool_superblock) with 8 in Hx.
      rewrite Hdb in Hx by lia. apply bool_decide_eq_true in Hx. rewrite Hbn, elem_of_seqZ in Hx. lia.
    + destruct Hx as [Hx|Hx]; [by cbn in Hx|]. specialize (Hx 79 ltac:(cbn; unfold NINODES; lia)).
      change (inode_bitmap_block tool_superblock) with 1 in Hx.
      rewrite Hib in Hx by lia. apply bool_decide_eq_true in Hx. rewrite Hin, elem_of_seqZ in Hx. lia.
Qed.

(** C27: the image of a layout that leaves an inode and a block free takes new
    files.  In each of its directories the kernel's [create_file] succeeds with
    every name that is not there yet, and the new file gets an inode number that
    no node of the layout has. *)
Theorem image_accepts_new_file {D} `{HD : BlockDeviceOk D} `{HR : !ReliableDevice D} (d : D) l img :
  valid_layout l → make_image l = Ok img → (∀ n, sector d n = img_sector img n) →
  inodes_of l < 79 → blocks_of l < 120 →
  ∃ v r, initialize d = (Ok v, device v) ∧ Vsfs.root v = (Ok r, v) ∧
  ∀ path dn cs nm, lookup_layout l (components path) = Some (mkLayout dn (LDirectory cs)) →
  (1 ≤ length nm ≤ 27)%nat → Forall is_u8 nm → nm ∉ str "." :: str ".." :: (l_name <$> cs) →
  ∃ node v1 new v2 i n i', open r path v = (Ok node, v1) ∧ create_file node nm v1 = (Ok new, v2) ∧
    inodes_of l < inum new < 80 ∧ created v1 v2 node i n nm new i'.
Proof.
  intros Hl Him Hd Hil Hbl.
  destruct (make_image_spec l img Hl Him) as (fs & <- & Hnodes & Himg & H1 & Hin & Hbn & _).
  destruct (mount_image fs img Himg Hnodes d Hd H1) as (v & Hv & Hm & r & Hr).
  exists v, r. split; [done|]. split; [unfold Vsfs.root, bind, gets, lift; by rewrite Hr|].
  intros path dn cs nm Hlk Hlen Hnm Hfresh. rewrite lookup_erase in Hlk.
  destruct (lookup_fs fs (components path)) as [f|] eqn:Hf; [|done]. apply (inj Some) in Hlk.
  pose proof Hm as (_ & _ & Hc & _). destruct (Hc 1 r Hr) as [Hrin (i & Hh & Hi)].
  pose proof (node_disk_inode fs img Himg Hnodes d Hd fs ROOT_INO (nodes_self fs ROOT_INO)) as Hroot.
  rewrite H1 in Hroot.
  destruct (open_path fs img Himg Hnodes d Hd Hl (components path) fs ROOT_INO f r v)
    as (node & v1 & p & Ho & (Hs & Hsb & _ & Hfr) & Hni & Hnh & Hnp); [apply nodes_self|done|congruence|congruence|done|].
  destruct f as [n bs ind fnm [fcs|]]; cbn [erase] in Hlk; [|done]. injection Hlk as _ <-.
  assert (∀ k, sector (device v1) k = img_sector img k) as Hd1 by (intros k; by rewrite Hs).
  assert (find_name nm (dir_entries n p fcs) = None) as Hnew by by apply find_name_fresh.
  destruct (create_in_image fs img Himg Hnodes v1 n bs ind fnm fcs p node nm Hd1 Hsb Hin Hbn Hil Hbl Hnp Hni Hnh
    (Hfr _ (mk_is_Some _ _ Hnh)) Hlen Hnm Hnew) as (new & v2 & i' & Hcr & Hnum & Hcd).
  by eexists node, v1, new, v2, _, _, i'.
Qed.

Lemma image_accepts_new_file_witness : ∃ (d : fun_disk) v r node v1 new v2,
  initialize d = (Ok v, device v) ∧ Vsfs.root v = (Ok r, v) ∧
  open r (str "/foo") v = (Ok node, v1) ∧ create_file node (str "baz") v1 = (Ok new, v2).
Proof.
  destruct (make_image_fits default_layout default_layout_valid) as (fs & img & Him & _ & _ & (_ & Hu & _) & _);
    [reflexivity|vm_compute; discriminate|].
  set (d := img_sector img ↾ img_sectors_ok img Hu).
  destruct (image_accepts_new_file d default_layout img default_layout_valid Him) as (v & r & Hi & Hr & Hcr); [done..|].
  destruct (Hcr (str "/foo") (str "foo") [mkLayout (str "bar") (LFile (str "hello world" ++ [10]))] (str "baz"))
    as (node & v1 & new & v2 & _ & _ & _ & Ho & Hc & _).
  - vm_compute. reflexivity.
  - cbn. lia.
  - apply str_bytes.
  - apply (bool_decide_unpack _). vm_compute. exact I.
  - by exists d, v, r, node, v1, new, v2.
Defined.
