(* ===== verification/VsfsToolParse.v ===== *)
(** * The image tool accepts only valid layouts

    [parse_root_dir] and [parse_layout_file] give layouts whose names fit into
    directory entries and name one node each, which is what [image_opens] and
    the other theorems on images ask of a layout. *)

From Stdlib Require Import Strings.String.
From S2P Require Import Prelude Errors Vfs Vsfs VsfsTool VsfsToolAlloc VsfsToolImg VsfsToolOpen.

(** ** Inputs *)

(** Names and contents that the host gave are bytes. *)
Fixpoint host_bytes (h : Host) : Prop :=
  match h with
  | HostDir es => (fix go (es : list (list Z * bool * Host)) :=
      match es with
      | [] => True
      | (nm, _, c) :: es => (Forall is_u8 nm ∧ host_bytes c) ∧ go es
      end) es
  | HostFile data => Forall is_u8 data
  | _ => True
  end.

Definition opt_bytes (o : option (list Z)) : Prop := ∀ b, o = Some b → Forall is_u8 b.

Fixpoint json_bytes (j : JsonLayoutNode) : Prop :=
  opt_bytes (j_path j) ∧ opt_bytes (j_content j) ∧ opt_bytes (j_contents j) ∧
  (fix go js := match js with [] => True | c :: js => json_bytes c ∧ go js end) (j_contains j).

Lemma host_bytes_dir es : host_bytes (HostDir es) ↔
  Forall (λ e, Forall is_u8 e.1.1 ∧ host_bytes e.2) es.
Proof.
  cbn [host_bytes]. induction es as [|[[nm u] c] es IH]; [by split|]. rewrite Forall_cons, <-IH. done.
Qed.

Lemma json_bytes_contains j : json_bytes j → Forall json_bytes (j_contains j).
Proof.
  destruct j as [ty p js c cs s]. cbn [json_bytes j_contains j_path j_content j_contents]. intros (_ & _ & _ & H).
  induction js as [|c' js IH]; [done|]. destruct H as [H1 H2]. constructor; [done|]. by apply IH.
Qed.

Section host_ind.
Context (P : Host → Prop).
Context (Hdir : ∀ es, Forall (λ e, P e.2) es → P (HostDir es)).
Context (Hfile : ∀ data, P (HostFile data)) (Hother : P HostOther) (Herr : P HostError).
Fixpoint host_induction (h : Host) : P h :=
  match h with
  | HostDir es => Hdir es ((fix go es : Forall (λ e : list Z * bool * Host, P e.2) es :=
      match es with
      | [] => Forall_nil_2 _
      | e :: es => Forall_cons_2 _ _ _ (host_induction e.2) (go es)
      end) es)
  | HostFile data => Hfile data
  | HostOther => Hother
  | HostError => Herr
  end.
End host_ind.

Section json_ind.
Context (P : JsonLayoutNode → Prop).
Context (Hnode : ∀ ty p js c cs s, Forall P js → P (mkJson ty p js c cs s)).
Fixpoint json_induction (j : JsonLayoutNode) : P j :=
  match j with
  | mkJson ty p js c cs s => Hnode ty p js c cs s ((fix go js : Forall P js :=
      match js with
      | [] => Forall_nil_2 _
      | j :: js => Forall_cons_2 _ _ _ (json_induction j) (go js)
      end) js)
  end.
End json_ind.

(** ** The host's directories *)

Lemma sort_entries_perm {A} (es : list (list Z * A)) : sort_entries es ≡ₚ es.
Proof.
  assert (∀ (e : list Z * A) es, insert_entry e es ≡ₚ e :: es) as Hins.
  { intros e es'. induction es' as [|e' es' IH]; [done|]. cbn [insert_entry]. destruct (bytes_le _ _); [done|].
    rewrite IH. apply Permutation_swap. }
  induction es as [|e es IH]; [done|]. cbn [sort_entries foldr]. by rewrite Hins, IH.
Qed.

Lemma validate_name_ok nm : validate_name nm = Ok tt → Forall is_u8 nm → name_ok nm.
Proof.
  unfold validate_name. repeat case_bool_decide; cbn [orb]; try done.
  destruct (Nat.ltb_spec 27 (length nm)); [done|]. intros _ Hb. by split_and!.
Qed.

Lemma check_children_ok es : ∀ names ls,
  Forall (λ e, Forall is_u8 e.1 ∧ ∀ l, e.2.2 = Ok l → l_name l = e.1 ∧ valid_layout l) es →
  check_children es names = Ok ls →
  NoDup (l_name <$> ls) ∧ (∀ nm, nm ∈ l_name <$> ls → nm ∉ names) ∧
  Forall (λ c, name_ok (l_name c) ∧ valid_layout c) ls.
Proof.
  induction es as [|[nm [u r]] es IH]; intros names ls; cbn [check_children].
  { intros _ [= <-]. split_and!; [constructor| |done]. by intros nm Hnm%not_elem_of_nil. }
  intros [[Hb Hl] Hes]%Forall_cons. cbn [fst snd] in *. destruct u; [|done]. cbn [negb].
  destruct (validate_name nm) as [[]| | |] eqn:Hv; try done. cbn [obind]. case_bool_decide as Hnew; [done|].
  destruct r as [l| | |]; try done. cbn [obind]. destruct (Hl l eq_refl) as [Hln Hlv].
  destruct (check_children es (nm :: names)) as [ls'| | |] eqn:Hc; try done. intros [= <-].
  destruct (IH _ _ Hes Hc) as (Hnd & Hout & Hall). csimpl. rewrite Hln. split_and!.
  - constructor; [|done]. intros Hin. apply (Hout _ Hin). by left.
  - intros k [->|Hk]%elem_of_cons; [done|]. intros Hin. apply (Hout _ Hk). by right.
  - constructor; [|done]. rewrite Hln. split; [|done]. by apply validate_name_ok.
Qed.

Lemma layout_from_host_path_ok h : ∀ nm l, host_bytes h → layout_from_host_path h nm = Ok l →
  l_name l = nm ∧ valid_layout l.
Proof.
  induction h as [es IH|data| |] using host_induction; intros nm l Hb; cbn [layout_from_host_path]; [| |done..].
  - rewrite host_bytes_dir in Hb. set (rs := sort_entries _).
    destruct (check_children rs []) as [ls| | |] eqn:Hc; try done. intros [= <-]. split; [done|].
    apply valid_layout_dir. apply check_children_ok in Hc as (? & _ & ?); [done|].
    unfold rs. rewrite sort_entries_perm. apply Forall_forall. intros e He.
    apply list_elem_of_In, in_map_iff in He as ([[cn u] c] & <- & Hin%list_elem_of_In). cbn [fst snd].
    rewrite Forall_forall in Hb, IH. destruct (Hb _ Hin) as [H1 H2]. split; [done|]. intros l Hl. by apply (IH _ Hin).
  - intros [= <-]. done.
Qed.

(** ** JSON *)

Lemma after_slash_split path : ∀ acc, after_slash path acc ∈
  match split_slash path with [] => [] | s :: rest => (acc ++ s) :: rest end.
Proof.
  induction path as [|b path IH]; intros acc; cbn [after_slash split_slash].
  { rewrite app_nil_r. by left. }
  destruct (b =? 47) eqn:Hb.
  - right. specialize (IH []). by destruct (split_slash path).
  - specialize (IH (acc ++ [b])). destruct (split_slash path); [by apply not_elem_of_nil in IH|].
    by rewrite <-app_assoc in IH.
Qed.

Lemma file_name_split path : file_name path ∈ split_slash path.
Proof. pose proof (after_slash_split path []) as H. by destruct (split_slash path). Qed.

Lemma file_name_bytes path : Forall is_u8 path → Forall is_u8 (file_name path).
Proof.
  unfold file_name. assert (Forall is_u8 []) as H by done. revert H. generalize (@nil Z).
  induction path as [|b path IH]; intros acc Hacc; [done|]. intros [Hb Hp]%Forall_cons. cbn [after_slash].
  destruct (b =? 47); apply IH; try done. apply Forall_app. by split; [|apply Forall_singleton].
Qed.

Lemma normalize_path_ok parent raw path : Forall is_u8 parent → Forall is_u8 raw →
  normalize_path parent raw false = Ok path →
  Forall is_u8 path ∧ file_name path ≠ str "." ∧ file_name path ≠ str "..".
Proof.
  intros Hp Hr. unfold normalize_path. case_bool_decide; [done|]. set (q := if bool_decide (list.head raw = Some 47) then _ else _).
  assert (Forall is_u8 q) as Hq.
  { unfold q. repeat case_bool_decide; [done|by constructor|]. apply Forall_app. by split; [|constructor]. }
  case_bool_decide as Hd; [done|]. intros [= <-]. split; [done|].
  pose proof (file_name_split q). split; intros Heq; apply Hd; rewrite <-Heq; auto.
Qed.

Section json.
Context (read_source : list Z → option (list Z)) (Hsource : ∀ s, opt_bytes (read_source s)).

Lemma check_names_ok rs : ∀ names ls,
  Forall (λ r, ∀ l, r = Ok l → name_ok (l_name l) ∧ valid_layout l) rs → check_names rs names = Ok ls →
  NoDup (l_name <$> ls) ∧ (∀ nm, nm ∈ l_name <$> ls → nm ∉ names) ∧
  Forall (λ c, name_ok (l_name c) ∧ valid_layout c) ls.
Proof.
  induction rs as [|r rs IH]; intros names ls; cbn [check_names].
  { intros _ [= <-]. split_and!; [constructor| |done]. by intros nm Hnm%not_elem_of_nil. }
  intros [Hl Hrs]%Forall_cons. destruct r as [l| | |]; try done. cbn [obind]. specialize (Hl l eq_refl).
  destruct l as [nm k]. cbn [l_name] in *. case_bool_decide as Hnew; [done|].
  destruct (check_names rs (nm :: names)) as [ls'| | |] eqn:Hc; try done. intros [= <-].
  destruct (IH _ _ Hrs Hc) as (Hnd & Hout & Hall). csimpl. split_and!.
  - constructor; [|done]. intros Hin. apply (Hout _ Hin). by left.
  - intros k' [->|Hk]%elem_of_cons; [done|]. intros Hin. apply (Hout _ Hk). by right.
  - by constructor.
Qed.

Lemma layout_from_json_ok j : ∀ parent is_root l, json_bytes j → Forall is_u8 parent →
  layout_from_json read_source j parent is_root = Ok l →
  (is_root = false → name_ok (l_name l)) ∧ valid_layout l.
Proof.
  induction j as [ty p js c cs s IH] using json_induction. intros parent is_root l Hj Hp.
  pose proof (json_bytes_contains _ Hj) as Hjs. destruct Hj as (Hpath & Hc & Hcs & _).
  cbn [layout_from_json j_path j_contains j_content j_contents j_source j_ty] in *.
  set (raw := default _ p). assert (Forall is_u8 raw) as Hraw.
  { unfold raw. destruct p as [b|]; cbn [default from_option]; [by apply Hpath|]. destruct is_root; [apply str_bytes|done]. }
  destruct (normalize_path parent raw is_root) as [path| | |] eqn:Hn; try done. cbn [obind].
  destruct (negb is_root && _ && _); [done|]. set (name := if is_root then _ else _).
  destruct name as [nm| | |] eqn:Hname; try done. cbn [obind].
  destruct (Nat.ltb_spec 27 (length nm)); [done|].
  assert (Forall is_u8 path ∧ (is_root = false → name_ok nm)) as [Hpb Hok].
  { destruct is_root; [|destruct (normalize_path_ok _ _ _ Hp Hraw Hn) as (H1 & H2 & H3)].
    - unfold normalize_path in Hn. case_bool_decide; [done|]. injection Hn as <-. split; [apply str_bytes|done].
    - unfold name in Hname. case_bool_decide; [done|]. injection Hname as <-. split; [done|]. intros _.
      split_and!; [done|by apply file_name_bytes|done..]. }
  assert (∀ data, Forall is_u8 data → @Ok ToolError _ (mkLayout nm (LFile data)) = Ok l →
    (is_root = false → name_ok (l_name l)) ∧ valid_layout l) as Hfile by (by intros data ? [= <-]).
  case_bool_decide.
  - destruct (check_names _ []) as [ls| | |] eqn:Hch; try done. intros [= <-]. split; [done|].
    apply valid_layout_dir. apply check_names_ok in Hch as (? & _ & ?); [done|].
    apply Forall_forall. intros r Hr. apply list_elem_of_In, in_map_iff in Hr as (j & <- & Hin%list_elem_of_In).
    intros l Hl. rewrite Forall_forall in IH, Hjs. destruct (IH j Hin path false l) as [? ?]; auto.
  - case_bool_decide; [|done]. destruct c as [b|]; [apply Hfile; by apply Hc|].
    destruct cs as [b|]; [apply Hfile; by apply Hcs|]. destruct s as [b|]; [|by apply Hfile].
    destruct (read_source b) as [data|] eqn:Hs; [|done]. cbn. apply Hfile. by apply (Hsource b).
Qed.
End json.

Lemma parse_layout_file_ok read_source json l : (∀ j, json = Some j → json_bytes j) →
  (∀ s, opt_bytes (read_source s)) → parse_layout_file read_source json = Ok l → valid_layout l.
Proof.
  intros Hj Hs. destruct json as [j|]; [|done]. cbn. intros H.
  by apply layout_from_json_ok in H as [_ ?]; [..|by apply Hj|].
Qed.

Lemma parse_root_dir_ok host l : host_bytes host → parse_root_dir host = Ok l → valid_layout l.
Proof. intros Hh H. destruct host; try done. by apply layout_from_host_path_ok in H as [_ ?]. Qed.

(** C29: whatever the arguments, an image that the tool writes is the image of
    a valid layout: of the JSON description, the host's directory or the default
    that the arguments ask for.  In each directory of it the names are different,
    at most 27 bytes long and neither of the two that the tool adds itself. *)
Theorem images_are_of_valid_layouts json source host args out img :
  (∀ path j, json path = Some j → json_bytes j) → (∀ path s, opt_bytes (source path s)) →
  (∀ path, host_bytes (host path)) → tool_main json source host args = Ok (Some (out, img)) →
  ∃ input l, parse args = Ok (Some (mkConfig out input)) ∧ tool_layout json source host input = Ok l ∧
    valid_layout l ∧ make_image l = Ok img.
Proof.
  intros Hj Hs Hh. unfold tool_main. destruct (parse args) as [[[o input]|]| | |] eqn:Hp; try done. cbn [obind].
  cbn [VsfsTool.input output_path]. destruct (tool_layout json source host input) as [l| | |] eqn:Hl; try done. cbn [obind].
  destruct (make_image l) as [img'| | |] eqn:Him; try done. intros [= -> ->]. exists input, l. split_and!; [done..| |done].
  destruct input as [[path|path]|]; cbn [tool_layout] in Hl.
  - eapply parse_layout_file_ok; [| |exact Hl]; eauto.
  - by eapply parse_root_dir_ok.
  - injection Hl as <-. apply default_layout_valid.
Qed.

(** A relative path with a slash: the directory that it names is left out. *)
Example relative_path_is_flattened :
  parse_layout_file (λ _, None) (Some (mkJson (str "dir") None
    [mkJson (str "file") (Some (str "a/b")) [] None None None] None None None)) =
  Ok (mkLayout [] (LDirectory [mkLayout (str "b") (LFile [])])).
Proof. vm_compute. reflexivity. Qed.

(** The arguments [vsfs-tool --root src -o disk.img], with a directory [src] of
    two entries. *)
Lemma images_are_of_valid_layouts_witness :
  let host := λ _, HostDir [(str "b", true, HostFile [1]); (str "a", true, HostDir [])] in
  let args := [str "vsfs-tool"; str "--root"; str "src"; str "-o"; str "disk.img"] in
  ∃ img l, tool_main (λ _, None) (λ _ _, None) host args = Ok (Some (str "disk.img", img)) ∧
  tool_layout (λ _, None) (λ _ _, None) host (Some (Root (str "src"))) = Ok l ∧
  l = mkLayout [] (LDirectory [mkLayout (str "a") (LDirectory []); mkLayout (str "b") (LFile [1])]) ∧
  valid_layout l.
Proof.
  intros host args. set (l := mkLayout [] (LDirectory [mkLayout (str "a") (LDirectory []); mkLayout (str "b") (LFile [1])])).
  assert (parse_root_dir (host []) = Ok l) as Hl by (vm_compute; reflexivity).
  assert (host_bytes (host [])) as Hb.
  { apply host_bytes_dir. repeat apply Forall_cons_2; [..|apply Forall_nil_2]; split; try apply str_bytes; [|done].
    apply Forall_singleton. unfold is_u8, in_width. lia. }
  destruct (make_image_fits l (parse_root_dir_ok _ _ Hb Hl)) as (fs & img & Him & _);
    [reflexivity|vm_compute; discriminate|].
  assert (parse args = Ok (Some (mkConfig (str "disk.img") (Some (Root (str "src")))))) as Hp by (vm_compute; reflexivity).
  assert (tool_main (λ _, None) (λ _ _, None) host args = Ok (Some (str "disk.img", img))) as Hm.
  { unfold tool_main. rewrite Hp. cbn [obind tool_layout VsfsTool.input output_path].
    change (host (str "src")) with (host []). rewrite Hl. cbn [obind]. by rewrite Him. }
  destruct (images_are_of_valid_layouts (λ _, None) (λ _ _, None) host args (str "disk.img") img)
    as (input & l' & Hp' & Hl' & Hv & _); [by intros path j [=]|by intros path s b [=]|done|done|].
  rewrite Hp in Hp'. injection Hp' as <-. exists img, l. split_and!; [done|done|done|].
  assert (Ok l = @Ok ToolError _ l') as [= ->] by (rewrite <-Hl', <-Hl; reflexivity). done.
Defined.
